(* ===== verification/_CoqProject ===== *)
-Q . S2P
Prelude.v
State.v
Spinlock.v
CString.v
Usercopy.v
Kalloc.v
Pages.v
Vm.v
Cow.v
Aspace.v
Uvm.v
Isolation.v
Sysargs.v
Proc.v
ReadyQueue.v
EdfLive.v
Sleeplock.v
Sleeping.v
Mutex.v
Bio.v
Virtio.v
BufferCache.v
DiskDriver.v
Log.v
Wal.v
Transaction.v
Fs.v
Path.v
Bitmap.v
Inodes.v
Truncate.v
Content.v
ReadWrite.v
Icache.v
Dir.v
Namei.v
Mkfs.v
Image.v
FsImage.v
Console.v
Pipe.v
PipeQueue.v
File.v
Sysfile.v
Symlink.v
Lifecycle.v
Reclaim.v
Exec.v
Syscall.v
Sched.v
Hart.v
Trap.v
Preempt.v
Wait.v
Exit.v
Ulib.v
Grep.v
Printf.v
Uthread.v
Procnet.v
Primes.v
Umalloc.v
Uheap.v
Sh.v
ShParse.v
ShPrint.v
ShRun.v
Scenario.v
Checks.v
FsChecks.v
MemChecks.v
PipeChecks.v
ContentChecks.v
PathChecks.v
DiskChecks.v
MkfsChecks.v
UserChecks.v
ShChecks.v
TrapChecks.v
ReclaimChecks.v
