(* ===== verification/Prelude.v ===== *)
(** * Verification of the xv6-L8 kernel

    xv6-L8 (src/xv6-L8) is a RISC-V teaching kernel extended with an
    earliest-deadline-first scheduler, user mutexes, copy-on-write fork with
    page reference counts, and symbolic links.  This library translates its C
    code into executable definitions and proves what its components promise.

    ** How C becomes Rocq

    A C function is a state transformer [K A = kstate -> outcome kstate A]
    (this file and State.v).  An outcome is a returned value and state, a call
    of panic(), a switch to the scheduler with the continuation that runs when
    the process is resumed, an access C leaves undefined, or the end of the
    bound put on a loop.  The state is one record with the kernel's globals:
    the process table, the ready queue, the buffer cache and its LRU list, the
    disk and the sequence of block writes it received, the log, the inode and
    file tables, byte memory, page reference counts, the console.  Integers
    are Z; the wrap-around of C's types ([u32], [s32], ...) is written where
    the source can overflow or converts.  Which spin-locks are held is part of
    the state: acquiring a held lock or releasing one that is not held panics,
    so deadlocks of one CPU with itself are visible.

    ** Files that model code (src/xv6-L8/kernel unless stated)

    - State.v: the structs and constants of the headers, the globals.
    - Spinlock.v: spinlock.c; Module Hw has the lock words and the interrupt
      state of several CPUs, the rest of the kernel uses the one-CPU view.
    - CString.v: string.c, little-endian encodings, byte memory.
    - Usercopy.v: either_copyin and either_copyout over the class [UserCopy],
      what the file system relies on from vm.c; Vm.v has the instance.
    - Kalloc.v: kalloc.c.  Vm.v: vm.c.
    - Sysargs.v, Syscall.v: syscall.c, sysproc.c.
    - Hart.v: one hart with its modes and control registers, the access
      functions of riscv.h, start.c.  Trap.v: trap.c, plic.c, main.c, forkret,
      the initialisation of the UART, and trampoline.S with the address
      translation it relies on, over a machine made of the kernel state, the
      disk driver's state and a hart.
    - Proc.v: the ready queue, scheduler, sleep, wakeup, kill and mutexes of
      proc.c.  Lifecycle.v: fork, exit, wait and the rest of proc.c.
    - Sleeplock.v: sleeplock.c.  Bio.v: bio.c.  Log.v: log.c.  Fs.v: fs.c.
    - Virtio.v: virtio_disk.c, over the driver's own state beside the kernel
      state; the device acts while the driver sleeps.  Bio.v uses the
      transfer of a block as one atomic step.
    - Console.v: console.c and uart.c.  Pipe.v: pipe.c.  File.v: file.c.
    - Sysfile.v: sysfile.c, symbolic links included.  Exec.v: exec.c.
    - Printf.v: the formatting of printf.c and of user/printf.c.
    - Ulib.v: user/ulib.c.  Umalloc.v: user/umalloc.c.  Sh.v: user/sh.c.
    - Uthread.v: user/uthread.c and uthread_switch.S with their theorems.
    - Procnet.v: processes that fork and talk through pipes, as scripts of
      system calls under any schedule.  Primes.v: user/primes.c.
    - Grep.v: user/grep.c with its theorems.  Mkfs.v: mkfs/mkfs.c, the tool
      that builds the disk image.
    ** Files that prove

    - ReadyQueue.v: the array rq.procs represents a list sorted by (deadline,
      priority); insertion, removal, dequeue, wakeup and one scheduler
      iteration are specified on that list (rq_insert_refines,
      rq_dequeue_earliest, rq_remove_refines, wakeup_wakes_sleepers,
      scheduler_runs_earliest).
    - Sched.v: every operation on process states and the queue, in any order,
      keeps the process table consistent and never panics (scheduling_safe).
    - Hart.v: start() hands the hart to main() in supervisor mode
      (start_enters_main).  Preempt.v: a timer interrupt is invisible to the
      program it interrupts, in user mode with its registers and in the kernel
      (preemption_transparent, kerneltrap_resumes); the first return of a
      forked process (forkret_enters_user).
    - EdfLive.v: a queued process is handed out after as many dequeues as its
      position says (edf_bounded_wait).
    - Sleeping.v: sleep and sleep-locks under any interference that keeps a
      stated invariant (acquiresleep_excludes).
    - Mutex.v: the mutexes of user programs exclude each other and are freed
      with their waiters woken (mtx_lock_excludes, mtx_unlock_frees).
    - BufferCache.v: the cache represents the disk as a map from block numbers
      to contents, with locked and pinned blocks (bread_returns_contents,
      bget_recycles_lru).
    - Wal.v: the log.  A crash after any prefix of the block writes of commit,
      or of recovery, leaves after recovery the blocks before or after the
      transaction (commit_crash_safe, recovery_crash_safe), and the
      reservation of begin_op (begin_op_reserves, log_write_guards).
    - Transaction.v: the view [op] that code between begin_op and end_op has:
      block contents, locked blocks, logged blocks.
    - Bitmap.v, Inodes.v, Truncate.v: allocation and freeing of blocks, the
      inode table and the dinode encoding, truncation and the last iput.
    - Content.v, ReadWrite.v: the bytes of a file through bmap; readi delivers
      them and writei replaces them (readi_delivers, writei_replaces).
    - Icache.v: itable as a count of references per inode, with the locked
      entry.  Dir.v: dirlookup is a search through the bytes of a directory.
      Namei.v: namei and nameiparent walk the tree on disk (namei_resolves).
      Symlink.v: follow_symlink reaches the end of a chain of links or gives
      up (follow_symlink_chases).
    - Image.v, FsImage.v: the image mkfs builds, file by file, read as the
      kernel reads it (mkfs_image).
    - PipeQueue.v: the ring buffer of a pipe is a queue of bytes
      (pipewrite_appends, piperead_takes_prefix).
    - DiskDriver.v: descriptor chains, requests and completions of the disk
      driver (virtio_disk_rw_completes, virtio_disk_intr_returns_buffers,
      virtio_disk_init_ready).
    - Grep.v: the matcher decides the meaning of its patterns, and grep
      selects lines however its input is cut (match_decides,
      grep_writes_matching_lines).  Printf.v: printint prints the number it
      is given (printint_roundtrip).
    - Uthread.v: the thread scheduler is round robin: a thread that yields runs
      again with its registers (thread_yield_returns).
    - Procnet.v: when every pipe has one reader and one writer, steps of
      different processes commute, so one schedule that ends decides all of
      them.  Primes.v: the sieve ends under every schedule and prints the
      primes in order (primes_every_schedule).
    - Uheap.v: the free list of the user-level allocator is a ring in address
      order that partitions the heap with the blocks handed out
      (malloc_allocates, free_coalesces).
    - ShParse.v, ShPrint.v: the shell parses or refuses every line within its
      bounds, and reads back every printed command (parsecmd_strings,
      parsecmd_roundtrip).  ShRun.v: the descriptors of the programs a command
      runs (runcmd_wires).
    - Path.v: skipelem against the elements of a path.
    - Pages.v: the free list threaded through free pages and the reference
      counts (kalloc, kfree, kinit, getNumFreePages).  Cow.v: the page-table
      walk as a function and the copy-on-write fault (cowfault_private_copy).
    - Aspace.v: a page table as a tree of pages; walk, mappages and uvmunmap on
      its leaf entries.  Uvm.v: the loop of uvmcopy.  Isolation.v: fork shares
      the memory of the parent (uvmcopy_shares), and what one of two processes
      that share pages writes the other does not see (copyout_isolated).
      Reclaim.v: an address space is given back (proc_freepagetable_reclaims):
      tables and unshared pages are free, shared pages lose a reference.
      Exit.v: exit() leaves a zombie for its parent, which it wakes
      (exit_hands_over).  Wait.v: wait() collects a child that has exited
      (kwait_collects).
    - Scenario.v, Checks.v, FsChecks.v, MemChecks.v, PipeChecks.v,
      ContentChecks.v, PathChecks.v, DiskChecks.v, MkfsChecks.v, UserChecks.v, ShChecks.v,
      TrapChecks.v, ReclaimChecks.v: concrete machines,
      and each theorem with hypotheses applied to one.

    ** Bounds

    Loops over tables run over lists of the right length and need no fuel.
    Other loops carry a bound that is enough: rq_insert shifts at most NPROC
    entries, iget scans NINODE, readi and writei copy at least one byte per
    iteration, namex consumes path bytes, getNumFreePages visits each page
    once, freewalk recurses through three levels, malloc goes around its list at
    most twice, the shell's parser consumes a token per round,
    a stage of primes.c reads at most 34 numbers.  A while(cond) sleep() loop has no
    bound in the source; the model lets a process be woken WAKEUPS = 100 times with
    its condition still false, and the theorems on sleeping code hold for
    every bound, since running out of it is not counted as a return.

    ** Not modelled

    The assembly of entry.S, kernelvec.S and swtch.S (a switch is an outcome of
    the model).  TLB flushes and memory fences have no effect.  Interrupts arrive
    in user mode, between system calls or while a process sleeps, not in the
    middle of a C function, except where a theorem quantifies over interference
    (Sleeping.v, DiskDriver.v, Preempt.v, Module Hw of Spinlock.v).  The other utilities and the test programs.
*)

From Stdlib Require Export ZArith Lia.
From stdpp Require Export base strings gmap functions option list.

#[export] Set Default Proof Using "Type".
#[export] Set Default Goal Selector "!".

Declare Scope xv6_scope.
Delimit Scope xv6_scope with xv6.

#[global] Open Scope Z_scope.

(** Memory and tables are maps to Z in which a cell that was never written
    reads as 0, as zeroed memory does. *)
#[global] Instance zero_inhabited : Inhabited Z := populate 0.

(** ** Machine integers

    A C integer of width w is the Z it denotes.  The conversions below are the
    wrap-around of the unsigned types and the two's-complement reading of the
    signed ones; they are written where the source can overflow or converts. *)

Definition u8 (x : Z) : Z := x mod 2 ^ 8.
Definition u16 (x : Z) : Z := x mod 2 ^ 16.
Definition u32 (x : Z) : Z := x mod 2 ^ 32.
Definition u64 (x : Z) : Z := x mod 2 ^ 64.
Definition swrap (w x : Z) : Z := (x + 2 ^ (w - 1)) mod 2 ^ w - 2 ^ (w - 1).
Definition s16 (x : Z) : Z := swrap 16 x.
Definition s32 (x : Z) : Z := swrap 32 x.

(** ** Outcomes and the kernel monad

    A C function is a state transformer with an explicit outcome: it returns,
    it calls panic(), it switches to the scheduler (and is resumed later in
    another state), it performs an access that C leaves undefined, or the
    bound put on an unbounded loop is used up. *)

Inductive outcome (S A : Type) : Type :=
| Ret (a : A) (s : S)
| Panic (msg : string)
| Swtch (s : S) (k : S -> outcome S A)
| UB
| OutOfFuel.
Arguments Ret {S A} a s.
Arguments Panic {S A} msg.
Arguments Swtch {S A} s k.
Arguments UB {S A}.
Arguments OutOfFuel {S A}.

Definition M (S A : Type) : Type := S -> outcome S A.

Fixpoint obind {S A B} (f : A -> M S B) (o : outcome S A) : outcome S B :=
  match o with
  | Ret a s => f a s
  | Panic msg => Panic msg
  | Swtch s k => Swtch s (fun s' => obind f (k s'))
  | UB => UB
  | OutOfFuel => OutOfFuel
  end.

#[export] Instance M_ret S : MRet (M S) := fun A a s => Ret a s.
#[export] Instance M_bind S : MBind (M S) := fun A B f m s => obind f (m s).

Definition gets {S A} (f : S -> A) : M S A := fun s => Ret (f s) s.
Definition modify {S} (f : S -> S) : M S unit := fun s => Ret tt (f s).
Definition panic {S A} (msg : string) : M S A := fun _ => Panic msg.
Definition undefined {S A} : M S A := fun _ => UB.
Definition out_of_fuel {S A} : M S A := fun _ => OutOfFuel.

(** [deref o]: a pointer dereference or an array access; a null or
    out-of-range pointer has no defined behaviour. *)
Definition deref {S A} (o : option A) : M S A :=
  match o with Some a => mret a | None => undefined end.

Definition when {S} (b : bool) (m : M S unit) : M S unit :=
  if b then m else mret tt.

(** ** Loops

    [forl l body] runs [body] on the successive values of a loop variable and
    stops at the first [Some r], which stands for a return or a break. *)
Fixpoint forl {S A R} (l : list A) (body : A -> M S (option R)) : M S (option R) :=
  match l with
  | [] => mret None
  | x :: l' =>
      r ← body x;
      match r with
      | Some v => mret (Some v)
      | None => forl l' body
      end
  end.

(** [foreach l body] is a loop with no early exit. *)
Fixpoint foreach {S A} (l : list A) (body : A -> M S unit) : M S unit :=
  match l with
  | [] => mret tt
  | x :: l' => body x;; foreach l' body
  end.

(** [loop n body x]: at most [n] iterations of a loop whose variables are
    [x]; [inr] leaves the loop. *)
Fixpoint loop {S X R} (n : nat) (body : X -> M S (X + R)) (x : X) : M S R :=
  match n with
  | O => out_of_fuel
  | S n' =>
      r ← body x;
      match r with
      | inl x' => loop n' body x'
      | inr v => mret v
      end
  end.

(** [zrange a b] = a, a+1, ..., b-1. *)
Definition zrange (a b : Z) : list Z :=
  (fun i => a + Z.of_nat i) <$> seq 0 (Z.to_nat (b - a)).

(** [zstep a b d] = a, a+d, ... below b, for d > 0. *)
Definition zstep (a b d : Z) : list Z :=
  (fun i => a + d * Z.of_nat i) <$> seq 0 (Z.to_nat ((b - a + d - 1) / d)).

(** ** Total correctness *)

Definition returns {S A} (o : outcome S A) (Q : A -> S -> Prop) : Prop :=
  match o with Ret a s => Q a s | _ => False end.

(** Rely-style correctness of code that sleeps: every resumption allowed by
    [R] leads to the postcondition; running out of wakeups is tolerated. *)
Fixpoint sound {S A} (R : S -> S -> Prop) (o : outcome S A) (Q : A -> S -> Prop) : Prop :=
  match o with
  | Ret a s => Q a s
  | Swtch s k => forall s', R s s' -> sound R (k s') Q
  | OutOfFuel => True
  | _ => False
  end.

Section outcome_lemmas.
  Context {S : Type}.

Lemma returns_obind {A B} (f : A -> M S B) (o : outcome S A) (Q : B -> S -> Prop) :
  returns o (fun a s' => returns (f a s') Q) -> returns (obind f o) Q.
Proof. by destruct o. Qed.

Lemma returns_mono {A} (o : outcome S A) (P Q : A -> S -> Prop) :
  returns o P -> (forall a s, P a s -> Q a s) -> returns o Q.
Proof. destruct o; simpl; naive_solver. Qed.

Lemma returns_and {A} (o : outcome S A) (P Q : A -> S -> Prop) :
  returns o P -> returns o Q -> returns o (fun a s => P a s /\ Q a s).
Proof. by destruct o. Qed.

Lemma returns_inv {A} (o : outcome S A) (Q : A -> S -> Prop) :
  returns o Q -> exists a s, o = Ret a s /\ Q a s.
Proof. destruct o; simpl; naive_solver. Qed.

Lemma returns_ret {A} (o : outcome S A) (Q : A -> S -> Prop) a s :
  o = Ret a s -> Q a s -> returns o Q.
Proof. by intros ->. Qed.

Lemma obind_Ret_inv {A B} (f : A -> M S B) (o : outcome S A) b s' :
  obind f o = Ret b s' -> exists a s1, o = Ret a s1 /\ f a s1 = Ret b s'.
Proof. destruct o; simpl; naive_solver. Qed.

Lemma sound_obind {A B} (R : S -> S -> Prop) (f : A -> M S B) (o : outcome S A) Q :
  sound R o (fun a s' => sound R (f a s') Q) -> sound R (obind f o) Q.
Proof. induction o; simpl; naive_solver. Qed.

Lemma sound_mono {A} (R : S -> S -> Prop) (o : outcome S A) (P Q : A -> S -> Prop) :
  sound R o P -> (forall a s, P a s -> Q a s) -> sound R o Q.
Proof. intros H HPQ. induction o; simpl in *; naive_solver. Qed.

Lemma returns_sound {A} (R : S -> S -> Prop) (o : outcome S A) (Q : A -> S -> Prop) :
  returns o Q -> sound R o Q.
Proof. by destruct o. Qed.

(** The invariant rule of [foreach]. *)
Lemma foreach_returns {A} (I : list A -> S -> Prop) (body : A -> M S unit) l s :
  I l s ->
  (forall x l' s1, I (x :: l') s1 -> returns (body x s1) (fun _ s2 => I l' s2)) ->
  returns (foreach l body s) (fun _ s' => I [] s').
Proof.
  intros HI Hb. revert s HI.
  induction l as [|x l IH]; intros s HI; [done|].
  apply returns_obind. eapply returns_mono; [by apply Hb|].
  simpl. intros _ s1 H1. by apply IH.
Qed.

(** The invariant rule of [forl]. *)
Lemma forl_returns {A R} (I : list A -> S -> Prop) (Q : option R -> S -> Prop)
    (body : A -> M S (option R)) l s :
  I l s ->
  (forall s', I [] s' -> Q None s') ->
  (forall x l' s1, I (x :: l') s1 ->
     returns (body x s1) (fun r s2 =>
       match r with Some v => Q (Some v) s2 | None => I l' s2 end)) ->
  returns (forl l body s) Q.
Proof.
  intros HI Hn Hb. revert s HI.
  induction l as [|x l IH]; intros s HI; [by apply Hn|].
  apply returns_obind. eapply returns_mono; [by apply Hb|].
  simpl. intros [v|] s1 H1; [done|]. by apply IH.
Qed.

(** The variant rules of [loop]: enough fuel for the variant, and it returns. *)
Lemma loop_returns_state {X R} (I : X -> S -> Prop) (V : X -> S -> nat) (Q : R -> S -> Prop)
    (body : X -> M S (X + R)) n x s :
  I x s -> (V x s < n)%nat ->
  (forall x1 s1, I x1 s1 ->
     returns (body x1 s1) (fun r s2 =>
       match r with inl x2 => I x2 s2 /\ (V x2 s2 < V x1 s1)%nat | inr v => Q v s2 end)) ->
  returns (loop n body x s) Q.
Proof.
  intros HI HV Hb. revert x s HI HV.
  induction n as [|n IH]; intros x s HI HV; [lia|].
  apply returns_obind. eapply returns_mono; [by apply Hb|].
  simpl. intros [x2|v] s1 H1; [|done].
  destruct H1. apply IH; [done|lia].
Qed.

Lemma loop_returns {X R} (I : X -> S -> Prop) (V : X -> nat) (Q : R -> S -> Prop)
    (body : X -> M S (X + R)) n x s :
  I x s -> (V x < n)%nat ->
  (forall x1 s1, I x1 s1 ->
     returns (body x1 s1) (fun r s2 =>
       match r with inl x2 => I x2 s2 /\ (V x2 < V x1)%nat | inr v => Q v s2 end)) ->
  returns (loop n body x s) Q.
Proof. apply (loop_returns_state I (fun x _ => V x)). Qed.

(** Partial correctness of [loop]: what a run that returned went through. *)
Lemma loop_partial {X R} (I : X -> S -> Prop) (Q : R -> S -> Prop)
    (body : X -> M S (X + R)) n x s v s' :
  loop n body x s = Ret v s' -> I x s ->
  (forall x1 s1 r s2, I x1 s1 -> body x1 s1 = Ret r s2 ->
     match r with inl x2 => I x2 s2 | inr v => Q v s2 end) ->
  Q v s'.
Proof.
  intros H HI Hb. revert x s H HI.
  induction n as [|n IH]; intros x s H HI; [done|].
  apply obind_Ret_inv in H as (r & s1 & H1 & H2).
  pose proof (Hb _ _ _ _ HI H1) as Hr. destruct r as [x2|v2].
  - by eapply IH.
  - by injection H2 as <- <-.
Qed.

End outcome_lemmas.

(** Loops over an index range: the invariant is indexed by the loop variable. *)
Lemma zrange_nil a b : b <= a -> zrange a b = [].
Proof. intros H. unfold zrange. by replace (Z.to_nat (b - a)) with O by lia. Qed.

Lemma zrange_cons a b : a < b -> zrange a b = a :: zrange (a + 1) b.
Proof.
  intros H. unfold zrange. replace (Z.to_nat (b - a)) with (S (Z.to_nat (b - (a + 1)))) by lia.
  rewrite <- cons_seq. simpl. f_equal; [lia|]. rewrite <- fmap_S_seq, <- list_fmap_compose.
  apply list_fmap_ext. intros _ i _. simpl. lia.
Qed.

Lemma length_zrange a b : length (zrange a b) = Z.to_nat (b - a).
Proof. unfold zrange. by rewrite length_fmap, length_seq. Qed.

Lemma zrange_lookup a b i : (i < Z.to_nat (b - a))%nat -> zrange a b !! i = Some (a + Z.of_nat i).
Proof. intros H. unfold zrange. by rewrite list_lookup_fmap, lookup_seq_lt. Qed.

Lemma zrange_app a b c : a <= b <= c -> zrange a c = zrange a b ++ zrange b c.
Proof.
  intros H. unfold zrange. replace (Z.to_nat (c - a)) with (Z.to_nat (b - a) + Z.to_nat (c - b))%nat by lia.
  rewrite seq_app, fmap_app. f_equal. rewrite Nat.add_comm, <- fmap_add_seq, <- list_fmap_compose.
  apply list_fmap_ext. intros _ x _. simpl. lia.
Qed.

Lemma zrange_snoc a b : a <= b -> zrange a (b + 1) = zrange a b ++ [b].
Proof. intros H. rewrite (zrange_app a b) by lia. f_equal. rewrite zrange_cons by lia. f_equal. apply zrange_nil. lia. Qed.

Lemma elem_of_zrange a b x : x ∈ zrange a b <-> a <= x < b.
Proof.
  unfold zrange. rewrite list_elem_of_fmap. split.
  - intros (i & -> & Hi%elem_of_seq). lia.
  - intros H. exists (Z.to_nat (x - a)). rewrite elem_of_seq. lia.
Qed.

Section range_loops.
  Context {S : Type}.

Lemma foreach_zrange (I : Z -> S -> Prop) (body : Z -> M S unit) a b s :
  a <= b -> I a s ->
  (forall i s1, a <= i < b -> I i s1 -> returns (body i s1) (fun _ s2 => I (i + 1) s2)) ->
  returns (foreach (zrange a b) body s) (fun _ s' => I b s').
Proof.
  intros Hab HI Hb.
  eapply returns_mono; [apply (foreach_returns (fun l s1 => exists i, a <= i <= b /\ l = zrange i b /\ I i s1))|].
  - exists a. split; [lia|done].
  - intros x l' s1 (i & Hi & Hl & H1). destruct (decide (i = b)) as [->|].
    { by rewrite zrange_nil in Hl by lia. }
    rewrite zrange_cons in Hl by lia. injection Hl as -> ->.
    eapply returns_mono; [apply Hb; [lia|done]|]. intros u2 s2 H2. exists (i + 1). split; [lia|done].
  - intros u1 s1 (i & Hi & Hl & H1). destruct (decide (i = b)) as [->|]; [done|].
    by rewrite zrange_cons in Hl by lia.
Qed.

Lemma foreach_upto (I : nat -> S -> Prop) (body : Z -> M S unit) n s :
  I O s ->
  (forall k s1, (k < n)%nat -> I k s1 ->
     returns (body (Z.of_nat k) s1) (fun _ s2 => I (Datatypes.S k) s2)) ->
  returns (foreach (zrange 0 (Z.of_nat n)) body s) (fun _ s' => I n s').
Proof.
  intros H0 Hb. eapply returns_mono; [apply (foreach_zrange (fun i => I (Z.to_nat i)))|].
  - lia.
  - done.
  - intros i s1 Hi H1. assert (Hk : (Z.to_nat i < n)%nat) by lia.
    specialize (Hb _ _ Hk H1). rewrite Z2Nat.id in Hb by lia.
    by replace (Z.to_nat (i + 1)) with (Datatypes.S (Z.to_nat i)) by lia.
  - intros u s1. by rewrite Nat2Z.id.
Qed.

Lemma forl_zrange {R} (I : Z -> S -> Prop) (Q : option R -> S -> Prop)
    (body : Z -> M S (option R)) a b s :
  a <= b -> I a s -> (forall s', I b s' -> Q None s') ->
  (forall i s1, a <= i < b -> I i s1 ->
     returns (body i s1) (fun r s2 =>
       match r with Some v => Q (Some v) s2 | None => I (i + 1) s2 end)) ->
  returns (forl (zrange a b) body s) Q.
Proof.
  intros Hab HI Hn Hb.
  apply (forl_returns (fun l s1 => exists i, a <= i <= b /\ l = zrange i b /\ I i s1)).
  - exists a. split; [lia|done].
  - intros s1 (i & Hi & Hl & H1). apply Hn. destruct (decide (i = b)) as [->|]; [done|].
    by rewrite zrange_cons in Hl by lia.
  - intros x l' s1 (i & Hi & Hl & H1). destruct (decide (i = b)) as [->|].
    { by rewrite zrange_nil in Hl by lia. }
    rewrite zrange_cons in Hl by lia. injection Hl as -> ->.
    eapply returns_mono; [apply Hb; [lia|done]|]. intros [v|] s2 H2; [done|].
    exists (i + 1). split; [lia|done].
Qed.

Lemma foreach_seq (I : nat -> S -> Prop) (body : nat -> M S unit) a n s :
  I a s ->
  (forall i s1, (a <= i < a + n)%nat -> I i s1 -> returns (body i s1) (fun _ s2 => I (Datatypes.S i) s2)) ->
  returns (foreach (seq a n) body s) (fun _ s' => I (a + n)%nat s').
Proof.
  intros HI Hb. revert a s HI Hb. induction n as [|n IH]; intros a s HI Hb.
  { by rewrite Nat.add_0_r. }
  apply returns_obind. eapply returns_mono; [apply Hb; [lia|done]|].
  intros u1 s1 H1. replace (a + Datatypes.S n)%nat with (Datatypes.S a + n)%nat by lia.
  apply IH; [done|]. intros i s2 Hi. apply Hb. lia.
Qed.

Lemma forl_seq {R} (I : nat -> S -> Prop) (Q : option R -> S -> Prop)
    (body : nat -> M S (option R)) a n s :
  I a s -> (forall s', I (a + n)%nat s' -> Q None s') ->
  (forall i s1, (a <= i < a + n)%nat -> I i s1 ->
     returns (body i s1) (fun r s2 =>
       match r with Some v => Q (Some v) s2 | None => I (Datatypes.S i) s2 end)) ->
  returns (forl (seq a n) body s) Q.
Proof.
  intros HI Hn Hb. revert a s HI Hn Hb. induction n as [|n IH]; intros a s HI Hn Hb.
  { apply Hn. by rewrite Nat.add_0_r. }
  apply returns_obind. eapply returns_mono; [apply Hb; [lia|done]|].
  intros [v|] s1 H1; [done|]. apply (IH (Datatypes.S a)); [done| |].
  - intros s2. replace (Datatypes.S a + n)%nat with (a + Datatypes.S n)%nat by lia. apply Hn.
  - intros i s2 Hi. apply Hb. lia.
Qed.

End range_loops.

(** Loops with a step: for(x = a; x < b; x += d). *)
Lemma zstep_nil a b d : 0 < d -> b <= a -> zstep a b d = [].
Proof.
  intros Hd H. unfold zstep. replace (Z.to_nat _) with O; [done|].
  symmetry. apply Z2Nat.nonpos. destruct (decide (b = a)) as [->|].
  - rewrite Z.sub_diag. rewrite Z.div_small; lia.
  - assert ((b - a + d - 1) / d < 1); [|lia]. apply Z.div_lt_upper_bound; lia.
Qed.

Lemma zstep_cons a b d : 0 < d -> a < b -> zstep a b d = a :: zstep (a + d) b d.
Proof.
  intros Hd H. unfold zstep.
  assert (Hq : (b - a + d - 1) / d = 1 + (b - (a + d) + d - 1) / d).
  { replace (b - a + d - 1) with (1 * d + (b - (a + d) + d - 1)) by lia.
    rewrite Z.div_add_l by lia. done. }
  assert (0 <= (b - (a + d) + d - 1) / d) by (apply Z.div_pos; lia).
  rewrite Hq. replace (Z.to_nat (1 + _)) with (S (Z.to_nat ((b - (a + d) + d - 1) / d))) by lia.
  rewrite <- cons_seq. simpl. f_equal; [lia|]. rewrite <- fmap_S_seq, <- list_fmap_compose.
  apply list_fmap_ext. intros _ i _. simpl. lia.
Qed.

Lemma forl_zstep {S R} (I : Z -> S -> Prop) (Q : option R -> S -> Prop)
    (body : Z -> M S (option R)) a b d s :
  0 < d -> I a s ->
  (forall x s', a <= x -> (x - a) mod d = 0 -> b <= x -> I x s' -> Q None s') ->
  (forall x s1, a <= x < b -> (x - a) mod d = 0 -> I x s1 ->
     returns (body x s1) (fun r s2 =>
       match r with Some v => Q (Some v) s2 | None => I (x + d) s2 end)) ->
  returns (forl (zstep a b d) body s) Q.
Proof.
  intros Hd HI Hn Hb.
  apply (forl_returns (fun l s1 => exists x, a <= x /\ (x - a) mod d = 0 /\ l = zstep x b d /\ I x s1)).
  - exists a. split_and!; try done; try lia; [by rewrite Z.sub_diag].
  - intros s' (x & Hx & Hm & Hl & HIx). destruct (decide (x < b)).
    { by rewrite zstep_cons in Hl by lia. }
    apply (Hn x); [lia|done|lia|done].
  - intros y l' s1 (x & Hx & Hm & Hl & HIx). destruct (decide (x < b)).
    2:{ by rewrite zstep_nil in Hl by lia. }
    rewrite zstep_cons in Hl by lia. injection Hl as -> ->.
    eapply returns_mono; [by apply Hb|]. intros [v|] s2 H2; [done|].
    exists (x + d). split_and!; try done; [lia|].
    replace (x + d - a) with (x - a + 1 * d) by lia. by rewrite Z.mod_add by lia.
Qed.

(** A loop that looks for the first element satisfying a test, without
    changing the state, and then acts on it. *)
Lemma forl_scan {S A R} (test : A -> bool) (body : A -> M S (option R)) l s
    (Q : option R -> S -> Prop) :
  (forall x, x ∈ l -> test x = false -> body x s = Ret None s) ->
  (forall x, List.find test l = Some x ->
     returns (body x s) (fun r s' => is_Some r /\ Q r s')) ->
  (List.find test l = None -> Q None s) ->
  returns (forl l body s) Q.
Proof.
  induction l as [|x l IH]; intros Hno Hyes Hnone; [by apply Hnone|].
  apply returns_obind. simpl in Hyes, Hnone. destruct (test x) eqn:Ht.
  - eapply returns_mono; [by apply Hyes|]. by intros r s1 [[v ->] HQ].
  - rewrite Hno by (done || by left). apply IH; [|done|done].
    intros y Hy. apply Hno. by right.
Qed.

Lemma forl_none {S A R} (body : A -> M S (option R)) l s :
  (forall x, x ∈ l -> body x s = Ret None s) -> forl l body s = Ret None s.
Proof.
  induction l as [|x l IH]; intros H; [done|]. simpl. unfold mbind, M_bind.
  rewrite H by (by left). apply IH. intros y Hy. apply H. by right.
Qed.

Lemma forl_scan_eq {S A R} (test : A -> bool) (body : A -> M S (option R)) l s x o :
  (forall x, x ∈ l -> test x = false -> body x s = Ret None s) ->
  List.find test l = Some x -> body x s = o ->
  match o with Ret None _ | Swtch _ _ => False | _ => True end ->
  forl l body s = o.
Proof.
  induction l as [|y l IH]; intros Hno Hf Hb Ho; [done|].
  simpl in Hf |- *. unfold mbind, M_bind. destruct (test y) eqn:Ht.
  - injection Hf as ->. rewrite Hb. by destruct o as [[v|] s1| | | |].
  - rewrite Hno by (done || by left). simpl. apply IH; try done.
    intros z Hz. apply Hno. by right.
Qed.

(** [mred] runs the administrative steps of the monad. *)
#[global] Arguments Z.to_nat : simpl never.
#[global] Arguments mbind {_ _ _ _} _ _ /.
#[global] Arguments mret {_ _ _} _ /.
#[global] Arguments M_bind _ _ _ _ _ _ /.
#[global] Arguments M_ret _ _ _ _ /.
#[global] Arguments gets {_ _} _ _ /.
#[global] Arguments modify {_} _ _ /.
#[global] Arguments deref {_ _} !_ /.
#[global] Arguments when {_} !_ _ /.
#[global] Arguments panic {_ _} _ _ /.
#[global] Arguments undefined {_ _} _ /.

Ltac mred :=
  cbn [mbind M_bind mret M_ret obind gets modify deref when panic undefined out_of_fuel
       negb andb orb].
Tactic Notation "mred" "in" hyp(H) :=
  cbn [mbind M_bind mret M_ret obind gets modify deref when panic undefined out_of_fuel
       negb andb orb] in H.

(** [mspec L] uses the specification [L] of the call at the head of the goal. *)
Tactic Notation "mspec" uconstr(L) :=
  mred; try (apply returns_obind); eapply returns_mono; [eapply L|].

(** A 32-bit value that fits is unchanged. *)
Lemma u32_small x : 0 <= x < 2 ^ 32 -> u32 x = x.
Proof. apply Z.mod_small. Qed.

(** ** Lists *)

Lemma list_filter_all {A} (P : A -> Prop) `{!forall x, Decision (P x)} (l : list A) :
  Forall P l -> filter P l = l.
Proof. induction 1; [done|]. rewrite filter_cons_True by done. congruence. Qed.

Lemma list_filter_none {A} (P : A -> Prop) `{!forall x, Decision (P x)} (l : list A) :
  Forall (fun x => ~ P x) l -> filter P l = [].
Proof. induction 1; [done|]. by rewrite filter_cons_False by done. Qed.

Lemma list_filter_app {A} (P : A -> Prop) `{!forall x, Decision (P x)} (l1 l2 : list A) :
  filter P (l1 ++ l2) = filter P l1 ++ filter P l2.
Proof.
  induction l1 as [|x l1 IH]; [done|]. simpl. rewrite !filter_cons.
  case_decide; simpl; by rewrite IH.
Qed.
