(* ===== verification/State.v ===== *)
(** * Data model of the kernel: constants, structs and global variables

    The constants of param.h, fs.h, stat.h, fcntl.h, riscv.h and memlayout.h,
    the structs of the headers, and one record [kstate] for the globals the
    components share.  Arrays of structs are lists indexed by [nat] (a pointer
    to an element is its index, the null pointer is [None]); flags that the
    source only sets to 0 or 1 are booleans; pages handed out by kalloc are
    addressed by their physical address in the byte memory [k_mem]. *)

From S2P Require Import Prelude.

(** ** param.h *)
Definition NPROC : nat := 64.
Definition NOFILE : nat := 16.
Definition NFILE : nat := 100.
Definition NINODE : nat := 50.
Definition NDEV : Z := 10.
Definition ROOTDEV : Z := 1.
Definition MAXARG : nat := 32.
Definition MAXOPBLOCKS : Z := 10.
Definition LOGBLOCKS : Z := MAXOPBLOCKS * 3.
Definition NBUF : nat := 30.
Definition FSSIZE : Z := 2000.
Definition MAXPATH : Z := 128.
Definition NMUTEX : nat := 64.

(** ** fs.h, stat.h, fcntl.h *)
Definition ROOTINO : Z := 1.
Definition BSIZE : Z := 1024.
Definition FSMAGIC : Z := 0x10203040.
Definition NDIRECT : Z := 12.
Definition NINDIRECT : Z := BSIZE / 4.
Definition MAXFILE : Z := NDIRECT + NINDIRECT.
Definition SIZEOF_DINODE : Z := 64.
Definition IPB : Z := BSIZE / SIZEOF_DINODE.
Definition BPB : Z := BSIZE * 8.
Definition DIRSIZ : Z := 14.
Definition SIZEOF_DIRENT : Z := 16.
Definition T_DIR : Z := 1.
Definition T_FILE : Z := 2.
Definition T_DEVICE : Z := 3.
Definition T_SYMLINK : Z := 4.
Definition O_RDONLY : Z := 0x000.
Definition O_WRONLY : Z := 0x001.
Definition O_RDWR : Z := 0x002.
Definition O_CREATE : Z := 0x200.
Definition O_TRUNC : Z := 0x400.
Definition O_NOFOLLOW : Z := 0x800.
Definition CONSOLE : Z := 1.

(** ** riscv.h, memlayout.h *)
Definition PGSIZE : Z := 4096.
Definition PGSHIFT : Z := 12.
Definition KERNBASE : Z := 0x80000000.
Definition PHYSTOP : Z := KERNBASE + 128 * 1024 * 1024.
Definition MAXVA : Z := 2 ^ 38.
Definition TRAMPOLINE : Z := MAXVA - PGSIZE.
Definition TRAPFRAME : Z := TRAMPOLINE - PGSIZE.
Definition KSTACK (p : nat) : Z := TRAMPOLINE - (Z.of_nat p + 1) * 2 * PGSIZE.
Definition PGROUNDUP (sz : Z) : Z := Z.ldiff (u64 (sz + PGSIZE - 1)) (PGSIZE - 1).
Definition PGROUNDDOWN (a : Z) : Z := Z.ldiff a (PGSIZE - 1).

(** ** Enumerations *)

(** proc.h: enum procstate. *)
Inductive procstate := UNUSED | USED | SLEEPING | RUNNABLE | RUNNING | ZOMBIE.

(** file.h: the anonymous enum of struct file. *)
Inductive fdtype := FD_NONE | FD_PIPE | FD_INODE | FD_DEVICE.

(** The functions a devsw entry can hold: consoleinit installs the only one. *)
Inductive devfn := DevConsole.

(** The sleep-locks of the kernel, by the object that contains them. *)
Inductive slk := SBuf (i : nat) | SInode (i : nat).

(** The spin-locks of the kernel, by the global or the field they are. *)
Inductive lockid :=
| LBcache | LLog | LItable | LFtable | LSlk (l : slk) | LProc (i : nat) | LWait | LPid
| LRq | LTicks | LMutexTable | LMutex (i : nat) | LKmem | LRefcount | LPipe (pi : Z)
| LCons | LTx | LDisk.

(** Sleep channels, by the object whose address the source passes. *)
Inductive chan :=
| ChLog | ChSlk (l : slk) | ChProc (i : nat) | ChTicks | ChMutex (i : nat)
| ChPipeRead (pi : Z) | ChPipeWrite (pi : Z) | ChCons | ChTx | ChBuf (i : nat) | ChDisk.

#[export] Instance procstate_eq_dec : EqDecision procstate.
Proof. solve_decision. Defined.
#[export] Instance fdtype_eq_dec : EqDecision fdtype.
Proof. solve_decision. Defined.
#[export] Instance slk_eq_dec : EqDecision slk.
Proof. solve_decision. Defined.
#[export] Instance lockid_eq_dec : EqDecision lockid.
Proof. solve_decision. Defined.
#[export] Instance chan_eq_dec : EqDecision chan.
Proof. solve_decision. Defined.

(** ** Structs and globals, each field with its setter *)

Record slock := mkSlock {
  sl_locked : bool;
  sl_pid : Z
}.

Record buf := mkBuf {
  b_valid : bool;
  b_disk : bool;
  b_dev : Z;
  b_blockno : Z;
  b_lock : slock;
  b_refcnt : Z;
  b_data : list Z
}.
Definition set_b_valid (x : bool) (s : buf) : buf :=
  mkBuf x (b_disk s) (b_dev s) (b_blockno s) (b_lock s) (b_refcnt s) (b_data s).
Definition set_b_disk (x : bool) (s : buf) : buf :=
  mkBuf (b_valid s) x (b_dev s) (b_blockno s) (b_lock s) (b_refcnt s) (b_data s).
Definition set_b_dev (x : Z) (s : buf) : buf :=
  mkBuf (b_valid s) (b_disk s) x (b_blockno s) (b_lock s) (b_refcnt s) (b_data s).
Definition set_b_blockno (x : Z) (s : buf) : buf :=
  mkBuf (b_valid s) (b_disk s) (b_dev s) x (b_lock s) (b_refcnt s) (b_data s).
Definition set_b_lock (x : slock) (s : buf) : buf :=
  mkBuf (b_valid s) (b_disk s) (b_dev s) (b_blockno s) x (b_refcnt s) (b_data s).
Definition set_b_refcnt (x : Z) (s : buf) : buf :=
  mkBuf (b_valid s) (b_disk s) (b_dev s) (b_blockno s) (b_lock s) x (b_data s).
Definition set_b_data (x : list Z) (s : buf) : buf :=
  mkBuf (b_valid s) (b_disk s) (b_dev s) (b_blockno s) (b_lock s) (b_refcnt s) x.

Record superblock := mkSuperblock {
  sb_magic : Z;
  sb_size : Z;
  sb_nblocks : Z;
  sb_ninodes : Z;
  sb_nlog : Z;
  sb_logstart : Z;
  sb_inodestart : Z;
  sb_bmapstart : Z
}.

Record logheader := mkLogheader {
  lh_n : Z;
  lh_block : list Z
}.
Definition set_lh_n (x : Z) (s : logheader) : logheader :=
  mkLogheader x (lh_block s).
Definition set_lh_block (x : list Z) (s : logheader) : logheader :=
  mkLogheader (lh_n s) x.

Record logst := mkLog {
  log_start : Z;
  log_outstanding : Z;
  log_committing : bool;
  log_dev : Z;
  log_lh : logheader
}.
Definition set_log_start (x : Z) (s : logst) : logst :=
  mkLog x (log_outstanding s) (log_committing s) (log_dev s) (log_lh s).
Definition set_log_outstanding (x : Z) (s : logst) : logst :=
  mkLog (log_start s) x (log_committing s) (log_dev s) (log_lh s).
Definition set_log_committing (x : bool) (s : logst) : logst :=
  mkLog (log_start s) (log_outstanding s) x (log_dev s) (log_lh s).
Definition set_log_dev (x : Z) (s : logst) : logst :=
  mkLog (log_start s) (log_outstanding s) (log_committing s) x (log_lh s).
Definition set_log_lh (x : logheader) (s : logst) : logst :=
  mkLog (log_start s) (log_outstanding s) (log_committing s) (log_dev s) x.

Record inode := mkInode {
  i_dev : Z;
  i_inum : Z;
  i_ref : Z;
  i_lock : slock;
  i_valid : bool;
  i_type : Z;
  i_major : Z;
  i_minor : Z;
  i_nlink : Z;
  i_size : Z;
  i_addrs : list Z
}.
Definition set_i_dev (x : Z) (s : inode) : inode :=
  mkInode x (i_inum s) (i_ref s) (i_lock s) (i_valid s) (i_type s) (i_major s) (i_minor s) (i_nlink s) (i_size s) (i_addrs s).
Definition set_i_inum (x : Z) (s : inode) : inode :=
  mkInode (i_dev s) x (i_ref s) (i_lock s) (i_valid s) (i_type s) (i_major s) (i_minor s) (i_nlink s) (i_size s) (i_addrs s).
Definition set_i_ref (x : Z) (s : inode) : inode :=
  mkInode (i_dev s) (i_inum s) x (i_lock s) (i_valid s) (i_type s) (i_major s) (i_minor s) (i_nlink s) (i_size s) (i_addrs s).
Definition set_i_lock (x : slock) (s : inode) : inode :=
  mkInode (i_dev s) (i_inum s) (i_ref s) x (i_valid s) (i_type s) (i_major s) (i_minor s) (i_nlink s) (i_size s) (i_addrs s).
Definition set_i_valid (x : bool) (s : inode) : inode :=
  mkInode (i_dev s) (i_inum s) (i_ref s) (i_lock s) x (i_type s) (i_major s) (i_minor s) (i_nlink s) (i_size s) (i_addrs s).
Definition set_i_type (x : Z) (s : inode) : inode :=
  mkInode (i_dev s) (i_inum s) (i_ref s) (i_lock s) (i_valid s) x (i_major s) (i_minor s) (i_nlink s) (i_size s) (i_addrs s).
Definition set_i_major (x : Z) (s : inode) : inode :=
  mkInode (i_dev s) (i_inum s) (i_ref s) (i_lock s) (i_valid s) (i_type s) x (i_minor s) (i_nlink s) (i_size s) (i_addrs s).
Definition set_i_minor (x : Z) (s : inode) : inode :=
  mkInode (i_dev s) (i_inum s) (i_ref s) (i_lock s) (i_valid s) (i_type s) (i_major s) x (i_nlink s) (i_size s) (i_addrs s).
Definition set_i_nlink (x : Z) (s : inode) : inode :=
  mkInode (i_dev s) (i_inum s) (i_ref s) (i_lock s) (i_valid s) (i_type s) (i_major s) (i_minor s) x (i_size s) (i_addrs s).
Definition set_i_size (x : Z) (s : inode) : inode :=
  mkInode (i_dev s) (i_inum s) (i_ref s) (i_lock s) (i_valid s) (i_type s) (i_major s) (i_minor s) (i_nlink s) x (i_addrs s).
Definition set_i_addrs (x : list Z) (s : inode) : inode :=
  mkInode (i_dev s) (i_inum s) (i_ref s) (i_lock s) (i_valid s) (i_type s) (i_major s) (i_minor s) (i_nlink s) (i_size s) x.

Record file := mkFile {
  f_type : fdtype;
  f_ref : Z;
  f_readable : bool;
  f_writable : bool;
  f_pipe : Z;
  f_ip : option nat;
  f_off : Z;
  f_major : Z
}.
Definition set_f_type (x : fdtype) (s : file) : file :=
  mkFile x (f_ref s) (f_readable s) (f_writable s) (f_pipe s) (f_ip s) (f_off s) (f_major s).
Definition set_f_ref (x : Z) (s : file) : file :=
  mkFile (f_type s) x (f_readable s) (f_writable s) (f_pipe s) (f_ip s) (f_off s) (f_major s).
Definition set_f_readable (x : bool) (s : file) : file :=
  mkFile (f_type s) (f_ref s) x (f_writable s) (f_pipe s) (f_ip s) (f_off s) (f_major s).
Definition set_f_writable (x : bool) (s : file) : file :=
  mkFile (f_type s) (f_ref s) (f_readable s) x (f_pipe s) (f_ip s) (f_off s) (f_major s).
Definition set_f_pipe (x : Z) (s : file) : file :=
  mkFile (f_type s) (f_ref s) (f_readable s) (f_writable s) x (f_ip s) (f_off s) (f_major s).
Definition set_f_ip (x : option nat) (s : file) : file :=
  mkFile (f_type s) (f_ref s) (f_readable s) (f_writable s) (f_pipe s) x (f_off s) (f_major s).
Definition set_f_off (x : Z) (s : file) : file :=
  mkFile (f_type s) (f_ref s) (f_readable s) (f_writable s) (f_pipe s) (f_ip s) x (f_major s).
Definition set_f_major (x : Z) (s : file) : file :=
  mkFile (f_type s) (f_ref s) (f_readable s) (f_writable s) (f_pipe s) (f_ip s) (f_off s) x.

Record pipe := mkPipe {
  pi_data : list Z;
  pi_nread : Z;
  pi_nwrite : Z;
  pi_readopen : bool;
  pi_writeopen : bool
}.
Definition set_pi_data (x : list Z) (s : pipe) : pipe :=
  mkPipe x (pi_nread s) (pi_nwrite s) (pi_readopen s) (pi_writeopen s).
Definition set_pi_nread (x : Z) (s : pipe) : pipe :=
  mkPipe (pi_data s) x (pi_nwrite s) (pi_readopen s) (pi_writeopen s).
Definition set_pi_nwrite (x : Z) (s : pipe) : pipe :=
  mkPipe (pi_data s) (pi_nread s) x (pi_readopen s) (pi_writeopen s).
Definition set_pi_readopen (x : bool) (s : pipe) : pipe :=
  mkPipe (pi_data s) (pi_nread s) (pi_nwrite s) x (pi_writeopen s).
Definition set_pi_writeopen (x : bool) (s : pipe) : pipe :=
  mkPipe (pi_data s) (pi_nread s) (pi_nwrite s) (pi_readopen s) x.

Record context := mkContext {
  ctx_ra : Z;
  ctx_sp : Z
}.

Record proc := mkProc {
  p_state : procstate;
  p_chan : option chan;
  p_killed : bool;
  p_xstate : Z;
  p_pid : Z;
  p_deadline : Z;
  p_priority : Z;
  p_start_time : Z;
  p_in_rq : bool;
  p_parent : option nat;
  p_kstack : Z;
  p_sz : Z;
  p_pagetable : Z;
  p_trapframe : Z;
  p_context : context;
  p_ofile : list (option nat);
  p_cwd : option nat;
  p_name : list Z;
  p_trace_mask : Z
}.
Definition set_p_state (x : procstate) (s : proc) : proc :=
  mkProc x (p_chan s) (p_killed s) (p_xstate s) (p_pid s) (p_deadline s) (p_priority s) (p_start_time s) (p_in_rq s) (p_parent s) (p_kstack s) (p_sz s) (p_pagetable s) (p_trapframe s) (p_context s) (p_ofile s) (p_cwd s) (p_name s) (p_trace_mask s).
Definition set_p_chan (x : option chan) (s : proc) : proc :=
  mkProc (p_state s) x (p_killed s) (p_xstate s) (p_pid s) (p_deadline s) (p_priority s) (p_start_time s) (p_in_rq s) (p_parent s) (p_kstack s) (p_sz s) (p_pagetable s) (p_trapframe s) (p_context s) (p_ofile s) (p_cwd s) (p_name s) (p_trace_mask s).
Definition set_p_killed (x : bool) (s : proc) : proc :=
  mkProc (p_state s) (p_chan s) x (p_xstate s) (p_pid s) (p_deadline s) (p_priority s) (p_start_time s) (p_in_rq s) (p_parent s) (p_kstack s) (p_sz s) (p_pagetable s) (p_trapframe s) (p_context s) (p_ofile s) (p_cwd s) (p_name s) (p_trace_mask s).
Definition set_p_xstate (x : Z) (s : proc) : proc :=
  mkProc (p_state s) (p_chan s) (p_killed s) x (p_pid s) (p_deadline s) (p_priority s) (p_start_time s) (p_in_rq s) (p_parent s) (p_kstack s) (p_sz s) (p_pagetable s) (p_trapframe s) (p_context s) (p_ofile s) (p_cwd s) (p_name s) (p_trace_mask s).
Definition set_p_pid (x : Z) (s : proc) : proc :=
  mkProc (p_state s) (p_chan s) (p_killed s) (p_xstate s) x (p_deadline s) (p_priority s) (p_start_time s) (p_in_rq s) (p_parent s) (p_kstack s) (p_sz s) (p_pagetable s) (p_trapframe s) (p_context s) (p_ofile s) (p_cwd s) (p_name s) (p_trace_mask s).
Definition set_p_deadline (x : Z) (s : proc) : proc :=
  mkProc (p_state s) (p_chan s) (p_killed s) (p_xstate s) (p_pid s) x (p_priority s) (p_start_time s) (p_in_rq s) (p_parent s) (p_kstack s) (p_sz s) (p_pagetable s) (p_trapframe s) (p_context s) (p_ofile s) (p_cwd s) (p_name s) (p_trace_mask s).
Definition set_p_priority (x : Z) (s : proc) : proc :=
  mkProc (p_state s) (p_chan s) (p_killed s) (p_xstate s) (p_pid s) (p_deadline s) x (p_start_time s) (p_in_rq s) (p_parent s) (p_kstack s) (p_sz s) (p_pagetable s) (p_trapframe s) (p_context s) (p_ofile s) (p_cwd s) (p_name s) (p_trace_mask s).
Definition set_p_start_time (x : Z) (s : proc) : proc :=
  mkProc (p_state s) (p_chan s) (p_killed s) (p_xstate s) (p_pid s) (p_deadline s) (p_priority s) x (p_in_rq s) (p_parent s) (p_kstack s) (p_sz s) (p_pagetable s) (p_trapframe s) (p_context s) (p_ofile s) (p_cwd s) (p_name s) (p_trace_mask s).
Definition set_p_in_rq (x : bool) (s : proc) : proc :=
  mkProc (p_state s) (p_chan s) (p_killed s) (p_xstate s) (p_pid s) (p_deadline s) (p_priority s) (p_start_time s) x (p_parent s) (p_kstack s) (p_sz s) (p_pagetable s) (p_trapframe s) (p_context s) (p_ofile s) (p_cwd s) (p_name s) (p_trace_mask s).
Definition set_p_parent (x : option nat) (s : proc) : proc :=
  mkProc (p_state s) (p_chan s) (p_killed s) (p_xstate s) (p_pid s) (p_deadline s) (p_priority s) (p_start_time s) (p_in_rq s) x (p_kstack s) (p_sz s) (p_pagetable s) (p_trapframe s) (p_context s) (p_ofile s) (p_cwd s) (p_name s) (p_trace_mask s).
Definition set_p_kstack (x : Z) (s : proc) : proc :=
  mkProc (p_state s) (p_chan s) (p_killed s) (p_xstate s) (p_pid s) (p_deadline s) (p_priority s) (p_start_time s) (p_in_rq s) (p_parent s) x (p_sz s) (p_pagetable s) (p_trapframe s) (p_context s) (p_ofile s) (p_cwd s) (p_name s) (p_trace_mask s).
Definition set_p_sz (x : Z) (s : proc) : proc :=
  mkProc (p_state s) (p_chan s) (p_killed s) (p_xstate s) (p_pid s) (p_deadline s) (p_priority s) (p_start_time s) (p_in_rq s) (p_parent s) (p_kstack s) x (p_pagetable s) (p_trapframe s) (p_context s) (p_ofile s) (p_cwd s) (p_name s) (p_trace_mask s).
Definition set_p_pagetable (x : Z) (s : proc) : proc :=
  mkProc (p_state s) (p_chan s) (p_killed s) (p_xstate s) (p_pid s) (p_deadline s) (p_priority s) (p_start_time s) (p_in_rq s) (p_parent s) (p_kstack s) (p_sz s) x (p_trapframe s) (p_context s) (p_ofile s) (p_cwd s) (p_name s) (p_trace_mask s).
Definition set_p_trapframe (x : Z) (s : proc) : proc :=
  mkProc (p_state s) (p_chan s) (p_killed s) (p_xstate s) (p_pid s) (p_deadline s) (p_priority s) (p_start_time s) (p_in_rq s) (p_parent s) (p_kstack s) (p_sz s) (p_pagetable s) x (p_context s) (p_ofile s) (p_cwd s) (p_name s) (p_trace_mask s).
Definition set_p_context (x : context) (s : proc) : proc :=
  mkProc (p_state s) (p_chan s) (p_killed s) (p_xstate s) (p_pid s) (p_deadline s) (p_priority s) (p_start_time s) (p_in_rq s) (p_parent s) (p_kstack s) (p_sz s) (p_pagetable s) (p_trapframe s) x (p_ofile s) (p_cwd s) (p_name s) (p_trace_mask s).
Definition set_p_ofile (x : list (option nat)) (s : proc) : proc :=
  mkProc (p_state s) (p_chan s) (p_killed s) (p_xstate s) (p_pid s) (p_deadline s) (p_priority s) (p_start_time s) (p_in_rq s) (p_parent s) (p_kstack s) (p_sz s) (p_pagetable s) (p_trapframe s) (p_context s) x (p_cwd s) (p_name s) (p_trace_mask s).
Definition set_p_cwd (x : option nat) (s : proc) : proc :=
  mkProc (p_state s) (p_chan s) (p_killed s) (p_xstate s) (p_pid s) (p_deadline s) (p_priority s) (p_start_time s) (p_in_rq s) (p_parent s) (p_kstack s) (p_sz s) (p_pagetable s) (p_trapframe s) (p_context s) (p_ofile s) x (p_name s) (p_trace_mask s).
Definition set_p_name (x : list Z) (s : proc) : proc :=
  mkProc (p_state s) (p_chan s) (p_killed s) (p_xstate s) (p_pid s) (p_deadline s) (p_priority s) (p_start_time s) (p_in_rq s) (p_parent s) (p_kstack s) (p_sz s) (p_pagetable s) (p_trapframe s) (p_context s) (p_ofile s) (p_cwd s) x (p_trace_mask s).
Definition set_p_trace_mask (x : Z) (s : proc) : proc :=
  mkProc (p_state s) (p_chan s) (p_killed s) (p_xstate s) (p_pid s) (p_deadline s) (p_priority s) (p_start_time s) (p_in_rq s) (p_parent s) (p_kstack s) (p_sz s) (p_pagetable s) (p_trapframe s) (p_context s) (p_ofile s) (p_cwd s) (p_name s) x.

Record mutex := mkMutex {
  mtx_locked : bool;
  mtx_used : bool;
  mtx_owner : option nat
}.
Definition set_mtx_locked (x : bool) (s : mutex) : mutex :=
  mkMutex x (mtx_used s) (mtx_owner s).
Definition set_mtx_used (x : bool) (s : mutex) : mutex :=
  mkMutex (mtx_locked s) x (mtx_owner s).
Definition set_mtx_owner (x : option nat) (s : mutex) : mutex :=
  mkMutex (mtx_locked s) (mtx_used s) x.

Record ready_queue := mkRq {
  rq_procs : list nat;
  rq_count : Z
}.
Definition set_rq_procs (x : list nat) (s : ready_queue) : ready_queue :=
  mkRq x (rq_count s).
Definition set_rq_count (x : Z) (s : ready_queue) : ready_queue :=
  mkRq (rq_procs s) x.

Record cons := mkCons {
  c_buf : list Z;
  c_r : Z;
  c_w : Z;
  c_e : Z
}.
Definition set_c_buf (x : list Z) (s : cons) : cons :=
  mkCons x (c_r s) (c_w s) (c_e s).
Definition set_c_r (x : Z) (s : cons) : cons :=
  mkCons (c_buf s) x (c_w s) (c_e s).
Definition set_c_w (x : Z) (s : cons) : cons :=
  mkCons (c_buf s) (c_r s) x (c_e s).
Definition set_c_e (x : Z) (s : cons) : cons :=
  mkCons (c_buf s) (c_r s) (c_w s) x.

Record kstate := mkKstate {
  k_held : list lockid;
  k_cur : option nat;
  k_procs : list proc;
  k_nextpid : Z;
  k_initproc : option nat;
  k_rq : ready_queue;
  k_ticks : Z;
  k_mutexes : list mutex;
  k_bufs : list buf;
  k_lru : list nat;
  k_disk : gmap Z (list Z);
  k_dtrace : list (Z * list Z);
  k_log : logst;
  k_sb : superblock;
  k_itable : list inode;
  k_ftable : list file;
  k_devsw : list (option devfn);
  k_pipes : gmap Z pipe;
  k_mem : gmap Z Z;
  k_freelist : Z;
  k_refcount : gmap Z Z;
  k_cons : cons;
  k_out : list (string * list Z);
  k_end : Z;
  k_tramp : Z;
  k_tx_busy : bool;
  k_forkret : Z;
  k_etext : Z;
  k_kpgtbl : Z
}.
Definition set_k_held (x : list lockid) (s : kstate) : kstate :=
  mkKstate x (k_cur s) (k_procs s) (k_nextpid s) (k_initproc s) (k_rq s) (k_ticks s) (k_mutexes s) (k_bufs s) (k_lru s) (k_disk s) (k_dtrace s) (k_log s) (k_sb s) (k_itable s) (k_ftable s) (k_devsw s) (k_pipes s) (k_mem s) (k_freelist s) (k_refcount s) (k_cons s) (k_out s) (k_end s) (k_tramp s) (k_tx_busy s) (k_forkret s) (k_etext s) (k_kpgtbl s).
Definition set_k_cur (x : option nat) (s : kstate) : kstate :=
  mkKstate (k_held s) x (k_procs s) (k_nextpid s) (k_initproc s) (k_rq s) (k_ticks s) (k_mutexes s) (k_bufs s) (k_lru s) (k_disk s) (k_dtrace s) (k_log s) (k_sb s) (k_itable s) (k_ftable s) (k_devsw s) (k_pipes s) (k_mem s) (k_freelist s) (k_refcount s) (k_cons s) (k_out s) (k_end s) (k_tramp s) (k_tx_busy s) (k_forkret s) (k_etext s) (k_kpgtbl s).
Definition set_k_procs (x : list proc) (s : kstate) : kstate :=
  mkKstate (k_held s) (k_cur s) x (k_nextpid s) (k_initproc s) (k_rq s) (k_ticks s) (k_mutexes s) (k_bufs s) (k_lru s) (k_disk s) (k_dtrace s) (k_log s) (k_sb s) (k_itable s) (k_ftable s) (k_devsw s) (k_pipes s) (k_mem s) (k_freelist s) (k_refcount s) (k_cons s) (k_out s) (k_end s) (k_tramp s) (k_tx_busy s) (k_forkret s) (k_etext s) (k_kpgtbl s).
Definition set_k_nextpid (x : Z) (s : kstate) : kstate :=
  mkKstate (k_held s) (k_cur s) (k_procs s) x (k_initproc s) (k_rq s) (k_ticks s) (k_mutexes s) (k_bufs s) (k_lru s) (k_disk s) (k_dtrace s) (k_log s) (k_sb s) (k_itable s) (k_ftable s) (k_devsw s) (k_pipes s) (k_mem s) (k_freelist s) (k_refcount s) (k_cons s) (k_out s) (k_end s) (k_tramp s) (k_tx_busy s) (k_forkret s) (k_etext s) (k_kpgtbl s).
Definition set_k_initproc (x : option nat) (s : kstate) : kstate :=
  mkKstate (k_held s) (k_cur s) (k_procs s) (k_nextpid s) x (k_rq s) (k_ticks s) (k_mutexes s) (k_bufs s) (k_lru s) (k_disk s) (k_dtrace s) (k_log s) (k_sb s) (k_itable s) (k_ftable s) (k_devsw s) (k_pipes s) (k_mem s) (k_freelist s) (k_refcount s) (k_cons s) (k_out s) (k_end s) (k_tramp s) (k_tx_busy s) (k_forkret s) (k_etext s) (k_kpgtbl s).
Definition set_k_rq (x : ready_queue) (s : kstate) : kstate :=
  mkKstate (k_held s) (k_cur s) (k_procs s) (k_nextpid s) (k_initproc s) x (k_ticks s) (k_mutexes s) (k_bufs s) (k_lru s) (k_disk s) (k_dtrace s) (k_log s) (k_sb s) (k_itable s) (k_ftable s) (k_devsw s) (k_pipes s) (k_mem s) (k_freelist s) (k_refcount s) (k_cons s) (k_out s) (k_end s) (k_tramp s) (k_tx_busy s) (k_forkret s) (k_etext s) (k_kpgtbl s).
Definition set_k_ticks (x : Z) (s : kstate) : kstate :=
  mkKstate (k_held s) (k_cur s) (k_procs s) (k_nextpid s) (k_initproc s) (k_rq s) x (k_mutexes s) (k_bufs s) (k_lru s) (k_disk s) (k_dtrace s) (k_log s) (k_sb s) (k_itable s) (k_ftable s) (k_devsw s) (k_pipes s) (k_mem s) (k_freelist s) (k_refcount s) (k_cons s) (k_out s) (k_end s) (k_tramp s) (k_tx_busy s) (k_forkret s) (k_etext s) (k_kpgtbl s).
Definition set_k_mutexes (x : list mutex) (s : kstate) : kstate :=
  mkKstate (k_held s) (k_cur s) (k_procs s) (k_nextpid s) (k_initproc s) (k_rq s) (k_ticks s) x (k_bufs s) (k_lru s) (k_disk s) (k_dtrace s) (k_log s) (k_sb s) (k_itable s) (k_ftable s) (k_devsw s) (k_pipes s) (k_mem s) (k_freelist s) (k_refcount s) (k_cons s) (k_out s) (k_end s) (k_tramp s) (k_tx_busy s) (k_forkret s) (k_etext s) (k_kpgtbl s).
Definition set_k_bufs (x : list buf) (s : kstate) : kstate :=
  mkKstate (k_held s) (k_cur s) (k_procs s) (k_nextpid s) (k_initproc s) (k_rq s) (k_ticks s) (k_mutexes s) x (k_lru s) (k_disk s) (k_dtrace s) (k_log s) (k_sb s) (k_itable s) (k_ftable s) (k_devsw s) (k_pipes s) (k_mem s) (k_freelist s) (k_refcount s) (k_cons s) (k_out s) (k_end s) (k_tramp s) (k_tx_busy s) (k_forkret s) (k_etext s) (k_kpgtbl s).
Definition set_k_lru (x : list nat) (s : kstate) : kstate :=
  mkKstate (k_held s) (k_cur s) (k_procs s) (k_nextpid s) (k_initproc s) (k_rq s) (k_ticks s) (k_mutexes s) (k_bufs s) x (k_disk s) (k_dtrace s) (k_log s) (k_sb s) (k_itable s) (k_ftable s) (k_devsw s) (k_pipes s) (k_mem s) (k_freelist s) (k_refcount s) (k_cons s) (k_out s) (k_end s) (k_tramp s) (k_tx_busy s) (k_forkret s) (k_etext s) (k_kpgtbl s).
Definition set_k_disk (x : gmap Z (list Z)) (s : kstate) : kstate :=
  mkKstate (k_held s) (k_cur s) (k_procs s) (k_nextpid s) (k_initproc s) (k_rq s) (k_ticks s) (k_mutexes s) (k_bufs s) (k_lru s) x (k_dtrace s) (k_log s) (k_sb s) (k_itable s) (k_ftable s) (k_devsw s) (k_pipes s) (k_mem s) (k_freelist s) (k_refcount s) (k_cons s) (k_out s) (k_end s) (k_tramp s) (k_tx_busy s) (k_forkret s) (k_etext s) (k_kpgtbl s).
Definition set_k_dtrace (x : list (Z * list Z)) (s : kstate) : kstate :=
  mkKstate (k_held s) (k_cur s) (k_procs s) (k_nextpid s) (k_initproc s) (k_rq s) (k_ticks s) (k_mutexes s) (k_bufs s) (k_lru s) (k_disk s) x (k_log s) (k_sb s) (k_itable s) (k_ftable s) (k_devsw s) (k_pipes s) (k_mem s) (k_freelist s) (k_refcount s) (k_cons s) (k_out s) (k_end s) (k_tramp s) (k_tx_busy s) (k_forkret s) (k_etext s) (k_kpgtbl s).
Definition set_k_log (x : logst) (s : kstate) : kstate :=
  mkKstate (k_held s) (k_cur s) (k_procs s) (k_nextpid s) (k_initproc s) (k_rq s) (k_ticks s) (k_mutexes s) (k_bufs s) (k_lru s) (k_disk s) (k_dtrace s) x (k_sb s) (k_itable s) (k_ftable s) (k_devsw s) (k_pipes s) (k_mem s) (k_freelist s) (k_refcount s) (k_cons s) (k_out s) (k_end s) (k_tramp s) (k_tx_busy s) (k_forkret s) (k_etext s) (k_kpgtbl s).
Definition set_k_sb (x : superblock) (s : kstate) : kstate :=
  mkKstate (k_held s) (k_cur s) (k_procs s) (k_nextpid s) (k_initproc s) (k_rq s) (k_ticks s) (k_mutexes s) (k_bufs s) (k_lru s) (k_disk s) (k_dtrace s) (k_log s) x (k_itable s) (k_ftable s) (k_devsw s) (k_pipes s) (k_mem s) (k_freelist s) (k_refcount s) (k_cons s) (k_out s) (k_end s) (k_tramp s) (k_tx_busy s) (k_forkret s) (k_etext s) (k_kpgtbl s).
Definition set_k_itable (x : list inode) (s : kstate) : kstate :=
  mkKstate (k_held s) (k_cur s) (k_procs s) (k_nextpid s) (k_initproc s) (k_rq s) (k_ticks s) (k_mutexes s) (k_bufs s) (k_lru s) (k_disk s) (k_dtrace s) (k_log s) (k_sb s) x (k_ftable s) (k_devsw s) (k_pipes s) (k_mem s) (k_freelist s) (k_refcount s) (k_cons s) (k_out s) (k_end s) (k_tramp s) (k_tx_busy s) (k_forkret s) (k_etext s) (k_kpgtbl s).
Definition set_k_ftable (x : list file) (s : kstate) : kstate :=
  mkKstate (k_held s) (k_cur s) (k_procs s) (k_nextpid s) (k_initproc s) (k_rq s) (k_ticks s) (k_mutexes s) (k_bufs s) (k_lru s) (k_disk s) (k_dtrace s) (k_log s) (k_sb s) (k_itable s) x (k_devsw s) (k_pipes s) (k_mem s) (k_freelist s) (k_refcount s) (k_cons s) (k_out s) (k_end s) (k_tramp s) (k_tx_busy s) (k_forkret s) (k_etext s) (k_kpgtbl s).
Definition set_k_devsw (x : list (option devfn)) (s : kstate) : kstate :=
  mkKstate (k_held s) (k_cur s) (k_procs s) (k_nextpid s) (k_initproc s) (k_rq s) (k_ticks s) (k_mutexes s) (k_bufs s) (k_lru s) (k_disk s) (k_dtrace s) (k_log s) (k_sb s) (k_itable s) (k_ftable s) x (k_pipes s) (k_mem s) (k_freelist s) (k_refcount s) (k_cons s) (k_out s) (k_end s) (k_tramp s) (k_tx_busy s) (k_forkret s) (k_etext s) (k_kpgtbl s).
Definition set_k_pipes (x : gmap Z pipe) (s : kstate) : kstate :=
  mkKstate (k_held s) (k_cur s) (k_procs s) (k_nextpid s) (k_initproc s) (k_rq s) (k_ticks s) (k_mutexes s) (k_bufs s) (k_lru s) (k_disk s) (k_dtrace s) (k_log s) (k_sb s) (k_itable s) (k_ftable s) (k_devsw s) x (k_mem s) (k_freelist s) (k_refcount s) (k_cons s) (k_out s) (k_end s) (k_tramp s) (k_tx_busy s) (k_forkret s) (k_etext s) (k_kpgtbl s).
Definition set_k_mem (x : gmap Z Z) (s : kstate) : kstate :=
  mkKstate (k_held s) (k_cur s) (k_procs s) (k_nextpid s) (k_initproc s) (k_rq s) (k_ticks s) (k_mutexes s) (k_bufs s) (k_lru s) (k_disk s) (k_dtrace s) (k_log s) (k_sb s) (k_itable s) (k_ftable s) (k_devsw s) (k_pipes s) x (k_freelist s) (k_refcount s) (k_cons s) (k_out s) (k_end s) (k_tramp s) (k_tx_busy s) (k_forkret s) (k_etext s) (k_kpgtbl s).
Definition set_k_freelist (x : Z) (s : kstate) : kstate :=
  mkKstate (k_held s) (k_cur s) (k_procs s) (k_nextpid s) (k_initproc s) (k_rq s) (k_ticks s) (k_mutexes s) (k_bufs s) (k_lru s) (k_disk s) (k_dtrace s) (k_log s) (k_sb s) (k_itable s) (k_ftable s) (k_devsw s) (k_pipes s) (k_mem s) x (k_refcount s) (k_cons s) (k_out s) (k_end s) (k_tramp s) (k_tx_busy s) (k_forkret s) (k_etext s) (k_kpgtbl s).
Definition set_k_refcount (x : gmap Z Z) (s : kstate) : kstate :=
  mkKstate (k_held s) (k_cur s) (k_procs s) (k_nextpid s) (k_initproc s) (k_rq s) (k_ticks s) (k_mutexes s) (k_bufs s) (k_lru s) (k_disk s) (k_dtrace s) (k_log s) (k_sb s) (k_itable s) (k_ftable s) (k_devsw s) (k_pipes s) (k_mem s) (k_freelist s) x (k_cons s) (k_out s) (k_end s) (k_tramp s) (k_tx_busy s) (k_forkret s) (k_etext s) (k_kpgtbl s).
Definition set_k_cons (x : cons) (s : kstate) : kstate :=
  mkKstate (k_held s) (k_cur s) (k_procs s) (k_nextpid s) (k_initproc s) (k_rq s) (k_ticks s) (k_mutexes s) (k_bufs s) (k_lru s) (k_disk s) (k_dtrace s) (k_log s) (k_sb s) (k_itable s) (k_ftable s) (k_devsw s) (k_pipes s) (k_mem s) (k_freelist s) (k_refcount s) x (k_out s) (k_end s) (k_tramp s) (k_tx_busy s) (k_forkret s) (k_etext s) (k_kpgtbl s).
Definition set_k_out (x : list (string * list Z)) (s : kstate) : kstate :=
  mkKstate (k_held s) (k_cur s) (k_procs s) (k_nextpid s) (k_initproc s) (k_rq s) (k_ticks s) (k_mutexes s) (k_bufs s) (k_lru s) (k_disk s) (k_dtrace s) (k_log s) (k_sb s) (k_itable s) (k_ftable s) (k_devsw s) (k_pipes s) (k_mem s) (k_freelist s) (k_refcount s) (k_cons s) x (k_end s) (k_tramp s) (k_tx_busy s) (k_forkret s) (k_etext s) (k_kpgtbl s).
Definition set_k_end (x : Z) (s : kstate) : kstate :=
  mkKstate (k_held s) (k_cur s) (k_procs s) (k_nextpid s) (k_initproc s) (k_rq s) (k_ticks s) (k_mutexes s) (k_bufs s) (k_lru s) (k_disk s) (k_dtrace s) (k_log s) (k_sb s) (k_itable s) (k_ftable s) (k_devsw s) (k_pipes s) (k_mem s) (k_freelist s) (k_refcount s) (k_cons s) (k_out s) x (k_tramp s) (k_tx_busy s) (k_forkret s) (k_etext s) (k_kpgtbl s).
Definition set_k_tramp (x : Z) (s : kstate) : kstate :=
  mkKstate (k_held s) (k_cur s) (k_procs s) (k_nextpid s) (k_initproc s) (k_rq s) (k_ticks s) (k_mutexes s) (k_bufs s) (k_lru s) (k_disk s) (k_dtrace s) (k_log s) (k_sb s) (k_itable s) (k_ftable s) (k_devsw s) (k_pipes s) (k_mem s) (k_freelist s) (k_refcount s) (k_cons s) (k_out s) (k_end s) x (k_tx_busy s) (k_forkret s) (k_etext s) (k_kpgtbl s).
Definition set_k_tx_busy (x : bool) (s : kstate) : kstate :=
  mkKstate (k_held s) (k_cur s) (k_procs s) (k_nextpid s) (k_initproc s) (k_rq s) (k_ticks s) (k_mutexes s) (k_bufs s) (k_lru s) (k_disk s) (k_dtrace s) (k_log s) (k_sb s) (k_itable s) (k_ftable s) (k_devsw s) (k_pipes s) (k_mem s) (k_freelist s) (k_refcount s) (k_cons s) (k_out s) (k_end s) (k_tramp s) x (k_forkret s) (k_etext s) (k_kpgtbl s).
Definition set_k_forkret (x : Z) (s : kstate) : kstate :=
  mkKstate (k_held s) (k_cur s) (k_procs s) (k_nextpid s) (k_initproc s) (k_rq s) (k_ticks s) (k_mutexes s) (k_bufs s) (k_lru s) (k_disk s) (k_dtrace s) (k_log s) (k_sb s) (k_itable s) (k_ftable s) (k_devsw s) (k_pipes s) (k_mem s) (k_freelist s) (k_refcount s) (k_cons s) (k_out s) (k_end s) (k_tramp s) (k_tx_busy s) x (k_etext s) (k_kpgtbl s).
Definition set_k_etext (x : Z) (s : kstate) : kstate :=
  mkKstate (k_held s) (k_cur s) (k_procs s) (k_nextpid s) (k_initproc s) (k_rq s) (k_ticks s) (k_mutexes s) (k_bufs s) (k_lru s) (k_disk s) (k_dtrace s) (k_log s) (k_sb s) (k_itable s) (k_ftable s) (k_devsw s) (k_pipes s) (k_mem s) (k_freelist s) (k_refcount s) (k_cons s) (k_out s) (k_end s) (k_tramp s) (k_tx_busy s) (k_forkret s) x (k_kpgtbl s).
Definition set_k_kpgtbl (x : Z) (s : kstate) : kstate :=
  mkKstate (k_held s) (k_cur s) (k_procs s) (k_nextpid s) (k_initproc s) (k_rq s) (k_ticks s) (k_mutexes s) (k_bufs s) (k_lru s) (k_disk s) (k_dtrace s) (k_log s) (k_sb s) (k_itable s) (k_ftable s) (k_devsw s) (k_pipes s) (k_mem s) (k_freelist s) (k_refcount s) (k_cons s) (k_out s) (k_end s) (k_tramp s) (k_tx_busy s) (k_forkret s) (k_etext s) x.


(** The kernel monad. *)
Abbreviation K := (M kstate).

(** Reading and updating one element of a table of structs; a pointer that
    is out of the table has no defined behaviour. *)
Definition get_proc (i : nat) : K proc := t ← gets k_procs; deref (t !! i).
Definition get_buf (i : nat) : K buf := t ← gets k_bufs; deref (t !! i).
Definition get_inode (i : nat) : K inode := t ← gets k_itable; deref (t !! i).
Definition get_file (i : nat) : K file := t ← gets k_ftable; deref (t !! i).
Definition get_mutex (i : nat) : K mutex := t ← gets k_mutexes; deref (t !! i).

Definition upd_proc (i : nat) (f : proc -> proc) : K unit :=
  x ← get_proc i; modify (fun s => set_k_procs (<[i := f x]> (k_procs s)) s).
Definition upd_buf (i : nat) (f : buf -> buf) : K unit :=
  x ← get_buf i; modify (fun s => set_k_bufs (<[i := f x]> (k_bufs s)) s).
Definition upd_inode (i : nat) (f : inode -> inode) : K unit :=
  x ← get_inode i; modify (fun s => set_k_itable (<[i := f x]> (k_itable s)) s).
Definition upd_file (i : nat) (f : file -> file) : K unit :=
  x ← get_file i; modify (fun s => set_k_ftable (<[i := f x]> (k_ftable s)) s).
Definition upd_mutex (i : nat) (f : mutex -> mutex) : K unit :=
  x ← get_mutex i; modify (fun s => set_k_mutexes (<[i := f x]> (k_mutexes s)) s).
Definition upd_log (f : logst -> logst) : K unit :=
  modify (fun s => set_k_log (f (k_log s)) s).

(** myproc() used as a pointer: there must be a current process. *)
Definition myproc : K nat := c ← gets k_cur; deref c.

(** printf: the format and its integer arguments are appended to the output. *)
Definition printf (fmt : string) (args : list Z) : K unit :=
  modify (fun s => set_k_out (k_out s ++ [(fmt, args)]) s).

(** ** The globals as the loader leaves them

    Zeroed memory and the linker's symbols: [end] and the trampoline are
    parameters, as are the addresses of forkret and etext. *)
Definition zero_slock : slock := mkSlock false 0.
Definition zero_buf : buf := mkBuf false false 0 0 zero_slock 0 (replicate (Z.to_nat BSIZE) 0).
Definition zero_inode : inode :=
  mkInode 0 0 0 zero_slock false 0 0 0 0 0 (replicate (Z.to_nat NDIRECT + 1) 0).
Definition zero_file : file := mkFile FD_NONE 0 false false 0 None 0 0.
Definition zero_proc : proc :=
  mkProc UNUSED None false 0 0 0 0 0 false None 0 0 0 0 (mkContext 0 0)
    (replicate NOFILE None) None (replicate 16 0) 0.
Definition zero_mutex : mutex := mkMutex false false None.

Definition boot (end_ tramp forkret etext : Z) (disk : gmap Z (list Z)) : kstate :=
  mkKstate [] None (replicate NPROC zero_proc) 1 None (mkRq (replicate NPROC O) 0) 0
    (replicate NMUTEX zero_mutex) (replicate NBUF zero_buf) [] disk []
    (mkLog 0 0 false 0 (mkLogheader 0 (replicate (Z.to_nat LOGBLOCKS) 0)))
    (mkSuperblock 0 0 0 0 0 0 0 0) (replicate NINODE zero_inode) (replicate NFILE zero_file)
    (replicate (Z.to_nat NDEV) None) ∅ ∅ 0 ∅ (mkCons (replicate 128 0) 0 0 0) []
    end_ tramp false forkret etext 0.
