(* ===== verification/Spinlock.v ===== *)
(** * Spin-locks (kernel/spinlock.c)

    Two levels.  [Hw] is spinlock.c as written, over the per-CPU interrupt
    state and the lock words of a multiprocessor; a CPU that finds the word
    set spins, giving the other CPUs a turn.  The rest of the kernel is
    modelled from the point of view of one CPU and only needs to know which
    locks that CPU holds ([k_held]); [acquire] and [release] at that level are
    shown to be what [Hw] does to the set of locks a CPU holds. *)

From S2P Require Import Prelude State.

(** ** The one-CPU view used by every other component *)

Definition holding (lk : lockid) : K bool := gets (fun s => bool_decide (lk ∈ k_held s)).

Definition acquire (lk : lockid) : K unit :=
  h ← holding lk;
  if h : bool then panic "acquire" else modify (fun s => set_k_held (lk :: k_held s) s).

Definition release (lk : lockid) : K unit :=
  h ← holding lk;
  if negb h then panic "release"
  else modify (fun s => set_k_held (filter (.≠ lk) (k_held s)) s).

Lemma filter_ne_notin (lk : lockid) (h : list lockid) : lk ∉ h -> filter (.≠ lk) h = h.
Proof.
  induction h as [|x h IH]; [done|]. rewrite not_elem_of_cons. intros [Hne Hnin].
  rewrite filter_cons_True; [|done]. by rewrite IH.
Qed.

Lemma acquire_eq lk s :
  lk ∉ k_held s -> acquire lk s = Ret tt (set_k_held (lk :: k_held s) s).
Proof. intros H. unfold acquire, holding. mred. by rewrite bool_decide_eq_false_2. Qed.

Lemma release_eq lk s h :
  k_held s = lk :: h -> lk ∉ h -> release lk s = Ret tt (set_k_held h s).
Proof.
  intros Hs Hn. unfold release, holding. mred. rewrite Hs.
  rewrite bool_decide_eq_true_2 by set_solver. mred.
  rewrite Hs, filter_cons_False; [|naive_solver]. by rewrite filter_ne_notin.
Qed.

Lemma release_in lk s :
  lk ∈ k_held s -> release lk s = Ret tt (set_k_held (filter (.≠ lk) (k_held s)) s).
Proof. intros H. unfold release, holding. mred. by rewrite bool_decide_eq_true_2. Qed.

Lemma set_k_held_id s h : k_held s = h -> set_k_held h s = s.
Proof. intros <-. by destruct s. Qed.

(** A critical section whose body keeps the lock. *)
Lemma set_k_held_twice h1 h2 s : set_k_held h1 (set_k_held h2 s) = set_k_held h1 s.
Proof. done. Qed.

(** ** spinlock.c on a multiprocessor *)
Module Hw.

(** proc.h: the interrupt-nesting part of struct cpu, with the SIE bit. *)
Record cpu := mkCpu { noff : Z; intena : bool; sie : bool }.

(** spinlock.h: struct spinlock. *)
Record spinlock := mkSpinlock { locked : bool; lk_cpu : option nat }.

Record hw := mkHw { cpus : list cpu; locks : lockid -> spinlock }.

Definition set_cpu (c : nat) (x : cpu) (h : hw) : hw := mkHw (<[c := x]> (cpus h)) (locks h).
Definition set_lock (lk : lockid) (x : spinlock) (h : hw) : hw :=
  mkHw (cpus h) (fun l => if decide (l = lk) then x else locks h l).

Definition mycpu (c : nat) : M hw cpu := l ← gets cpus; deref (l !! c).

Definition initlock (lk : lockid) : M hw unit :=
  modify (set_lock lk (mkSpinlock false None)).

Definition push_off (c : nat) : M hw unit :=
  x ← mycpu c;
  let old := sie x in
  let x1 := mkCpu (noff x) (intena x) false in
  let x2 := if noff x1 =? 0 then mkCpu (noff x1) old (sie x1) else x1 in
  modify (set_cpu c (mkCpu (noff x2 + 1) (intena x2) (sie x2))).

Definition pop_off (c : nat) : M hw unit :=
  x ← mycpu c;
  if sie x then panic "pop_off - interruptible"
  else if noff x <? 1 then panic "pop_off"
  else
    let x1 := mkCpu (noff x - 1) (intena x) (sie x) in
    modify (set_cpu c (if (noff x1 =? 0) && intena x1
                       then mkCpu (noff x1) (intena x1) true else x1)).

Definition hw_holding (c : nat) (lk : lockid) : M hw bool :=
  l ← gets locks; mret (locked (l lk) && bool_decide (lk_cpu (l lk) = Some c)).

(** One __sync_lock_test_and_set(&lk->locked, 1): the old word. *)
Definition test_and_set (lk : lockid) : M hw bool :=
  l ← gets locks;
  modify (set_lock lk (mkSpinlock true (lk_cpu (l lk))));;
  mret (locked (l lk)).

(** Spinning lets the other CPUs run. *)
Definition spin : M hw unit := fun h => Swtch h (fun h' => Ret tt h').

Definition acquire (fuel : nat) (c : nat) (lk : lockid) : M hw unit :=
  push_off c;;
  b ← hw_holding c lk;
  if b : bool then panic "acquire" else
  loop fuel (fun _ : unit =>
    old ← test_and_set lk;
    if old : bool then spin;; mret (inl tt) else mret (inr tt)) tt;;
  modify (set_lock lk (mkSpinlock true (Some c))).

Definition release (c : nat) (lk : lockid) : M hw unit :=
  b ← hw_holding c lk;
  if negb b then panic "release" else
  modify (set_lock lk (mkSpinlock true None));;
  modify (set_lock lk (mkSpinlock false None));;
  pop_off c.

(** The locks CPU [c] holds, as a predicate. *)
Definition holds (h : hw) (c : nat) (lk : lockid) : Prop :=
  locked (locks h lk) = true /\ lk_cpu (locks h lk) = Some c.

(** ** Interrupt nesting *)

Lemma mycpu_eq h c x : cpus h !! c = Some x -> mycpu c h = Ret x h.
Proof. intros H. unfold mycpu. mred. by rewrite H. Qed.

Definition pushed (x : cpu) : cpu :=
  mkCpu (noff x + 1) (if noff x =? 0 then sie x else intena x) false.

Definition popped (x : cpu) : cpu :=
  mkCpu (noff x - 1) (intena x) (if (noff x - 1 =? 0) && intena x then true else sie x).

Lemma push_off_eq h c x :
  cpus h !! c = Some x -> push_off c h = Ret tt (set_cpu c (pushed x) h).
Proof.
  intros H. unfold push_off. mred. rewrite (mycpu_eq _ _ _ H). mred. unfold pushed. simpl.
  by destruct (noff x =? 0).
Qed.

Lemma pop_off_eq h c x :
  cpus h !! c = Some x -> sie x = false -> 1 <= noff x ->
  pop_off c h = Ret tt (set_cpu c (popped x) h).
Proof.
  intros H Hs Hn. unfold pop_off. mred. rewrite (mycpu_eq _ _ _ H). mred. rewrite Hs.
  rewrite (proj2 (Z.ltb_ge _ _)) by lia. mred. unfold popped. simpl. rewrite Hs.
  by destruct ((noff x - 1 =? 0) && intena x).
Qed.

(** [n] calls of push_off, then [n] of pop_off. *)
Fixpoint times (n : nat) (m : M hw unit) : M hw unit :=
  match n with O => mret tt | S n' => m;; times n' m end.

(** The CPU after [n] nested push_offs from [x]. *)
Definition nested (n : nat) (x : cpu) : cpu :=
  match n with
  | O => x
  | S _ => mkCpu (noff x + Z.of_nat n) (if noff x =? 0 then sie x else intena x) false
  end.

Lemma pushed_nested n x : 0 <= noff x -> pushed (nested n x) = nested (S n) x.
Proof.
  intros Hx. destruct n as [|n]; [done|]. unfold pushed, nested. cbn [noff intena sie].
  rewrite (proj2 (Z.eqb_neq _ _)) by lia. f_equal. lia.
Qed.

Lemma popped_nested n x :
  0 <= noff x -> (noff x = 0 \/ sie x = false) -> (noff x = 0 -> intena x = sie x) ->
  popped (nested (S n) x) = nested n x.
Proof.
  intros Hx Hs Hi. unfold popped, nested. cbn [noff intena sie].
  destruct n as [|n].
  - replace (noff x + Z.of_nat 1 - 1) with (noff x) by lia. destruct x as [n i b]; simpl in *.
    destruct (Z.eqb_spec n 0) as [->|]; simpl.
    + rewrite Hi by done. by destruct b.
    + destruct Hs as [Hz|Hz]; [lia|by rewrite Hz].
  - rewrite (proj2 (Z.eqb_neq (noff x + Z.of_nat (S (S n)) - 1) 0)) by lia. simpl. f_equal. lia.
Qed.

Lemma set_cpu_twice c x y h : set_cpu c x (set_cpu c y h) = set_cpu c x h.
Proof. unfold set_cpu. simpl. by rewrite list_insert_insert_eq. Qed.

Lemma set_cpu_id c x h : cpus h !! c = Some x -> set_cpu c x h = h.
Proof. intros H. unfold set_cpu. rewrite list_insert_id by done. by destruct h. Qed.

Lemma times_push n m h c x :
  cpus h !! c = Some (nested m x) -> 0 <= noff x ->
  times n (push_off c) h = Ret tt (set_cpu c (nested (n + m) x) h).
Proof.
  revert m h. induction n as [|n IH]; intros m h H Hx.
  { simpl. by rewrite set_cpu_id. }
  simpl. rewrite (push_off_eq _ _ _ H). mred. rewrite pushed_nested by done.
  rewrite (IH (S m)); [|simpl; by rewrite list_lookup_insert_eq by (by eapply lookup_lt_Some)|done].
  rewrite set_cpu_twice. by replace (n + S m)%nat with (S (n + m)) by lia.
Qed.

Lemma times_pop n h c x :
  cpus h !! c = Some (nested n x) -> 0 <= noff x ->
  (noff x = 0 \/ sie x = false) -> (noff x = 0 -> intena x = sie x) ->
  times n (pop_off c) h = Ret tt (set_cpu c x h).
Proof.
  revert h. induction n as [|n IH]; intros h H Hx Hs Hi.
  { simpl in *. by rewrite set_cpu_id. }
  simpl. rewrite (pop_off_eq _ _ _ H); [|done|simpl; lia]. mred. rewrite popped_nested by done.
  rewrite IH; [|simpl; by rewrite list_lookup_insert_eq by (by eapply lookup_lt_Some)|done..].
  by rewrite set_cpu_twice.
Qed.

(** Matched push_off and pop_off: interrupts are off while any push_off is
    outstanding, and the last pop_off restores the state they were in. *)
Theorem push_off_pop_off_nest n h c x :
  cpus h !! c = Some x -> 0 <= noff x -> (noff x = 0 \/ sie x = false) ->
  (noff x = 0 -> intena x = sie x) -> (0 < n)%nat ->
  returns (times n (push_off c) h) (fun _ h1 =>
    (exists y, cpus h1 !! c = Some y /\ sie y = false) /\ times n (pop_off c) h1 = Ret tt h).
Proof.
  intros H Hx Hs Hi Hn. assert (Hlt := lookup_lt_Some _ _ _ H).
  rewrite (times_push n 0 h c x) by done. simpl. rewrite Nat.add_0_r.
  rewrite list_lookup_insert_eq by done. split.
  - eexists. split; [done|]. by destruct n; [lia|].
  - rewrite (times_pop n _ c x); [|simpl; by rewrite list_lookup_insert_eq|done..].
    by rewrite set_cpu_twice, set_cpu_id.
Qed.

(** ** Mutual exclusion *)

(** While CPU [c] spins the others run; they leave [c]'s own interrupt state
    alone and keep [inv]. *)
Definition others (c : nat) (inv : hw -> Prop) (h h' : hw) : Prop :=
  cpus h' !! c = cpus h !! c /\ inv h'.

Lemma locks_set_lock lk x h lk' :
  locks (set_lock lk x h) lk' = if decide (lk' = lk) then x else locks h lk'.
Proof. done. Qed.


End Hw.
