(* ===== verification/CString.v ===== *)
(** * Bytes, memory and string.c

    Little-endian encodings, the byte memory that kalloc'd pages and kernel
    locals live in, and the functions of kernel/string.c.  A pointer argument
    of a string function is the list of bytes from the pointer to the end of
    the object it points into; reading past that end gives [None].  memmove,
    whose arguments may overlap, works on the byte memory itself. *)

From S2P Require Import Prelude.

(** ** Byte sequences *)

(** [le_bytes n x]: the [n] low bytes of [x], least significant first. *)
Fixpoint le_bytes (n : nat) (x : Z) : list Z :=
  match n with
  | O => []
  | S n' => x mod 256 :: le_bytes n' (x / 256)
  end.

Fixpoint le_val (bs : list Z) : Z :=
  match bs with
  | [] => 0
  | b :: bs' => b + 256 * le_val bs'
  end.

Definition is_byte (b : Z) : Prop := 0 <= b < 256.

(** [splice l off bs]: the bytes [bs] stored at offset [off] of [l]. *)
Definition splice (l : list Z) (off : nat) (bs : list Z) : list Z :=
  take off l ++ bs ++ drop (off + length bs) l.

(** [slice l off n]: the [n] bytes of [l] from offset [off]. *)
Definition slice (l : list Z) (off n : nat) : list Z := take n (drop off l).

(** ** Byte memory *)

Definition mem_read (m : gmap Z Z) (a : Z) (n : nat) : list Z :=
  (fun i => m !!! (a + Z.of_nat i)) <$> seq 0 n.

Fixpoint mem_write (m : gmap Z Z) (a : Z) (bs : list Z) : gmap Z Z :=
  match bs with
  | [] => m
  | b :: bs' => <[a := b]> (mem_write m (a + 1) bs')
  end.

Definition load64 (m : gmap Z Z) (a : Z) : Z := le_val (mem_read m a 8).
Definition store64 (m : gmap Z Z) (a : Z) (x : Z) : gmap Z Z := mem_write m a (le_bytes 8 x).
Definition load32 (m : gmap Z Z) (a : Z) : Z := le_val (mem_read m a 4).
Definition store32 (m : gmap Z Z) (a : Z) (x : Z) : gmap Z Z := mem_write m a (le_bytes 4 x).

(** ** string.c *)

Definition memset (dst : list Z) (c : Z) (n : nat) : option (list Z) :=
  if (n <=? length dst)%nat then Some (replicate n (u8 c) ++ drop n dst) else None.

Fixpoint memcmp (v1 v2 : list Z) (n : nat) : option Z :=
  match n with
  | O => Some 0
  | S n' =>
      match v1, v2 with
      | b1 :: s1, b2 :: s2 =>
          if b1 =? b2 then memcmp s1 s2 n' else Some (b1 - b2)
      | _, _ => None
      end
  end.

(** The two copying loops of memmove and the choice between them. *)
Fixpoint move_backward (m : gmap Z Z) (d s : Z) (n : nat) : gmap Z Z :=
  match n with
  | O => m
  | S n' => move_backward (<[d - 1 := m !!! (s - 1)]> m) (d - 1) (s - 1) n'
  end.

Fixpoint move_forward (m : gmap Z Z) (d s : Z) (n : nat) : gmap Z Z :=
  match n with
  | O => m
  | S n' => move_forward (<[d := m !!! s]> m) (d + 1) (s + 1) n'
  end.

Definition memmove (m : gmap Z Z) (dst src : Z) (n : nat) : gmap Z Z :=
  if (n =? 0)%nat then m
  else if (src <? dst) && (dst <? src + Z.of_nat n)
  then move_backward m (dst + Z.of_nat n) (src + Z.of_nat n) n
  else move_forward m dst src n.

Definition memcpy (m : gmap Z Z) (dst src : Z) (n : nat) : gmap Z Z := memmove m dst src n.

Fixpoint strncmp (p q : list Z) (n : nat) : option Z :=
  match n with
  | O => Some 0
  | S n' =>
      match p, q with
      | a :: p', b :: q' =>
          if (a =? 0) || negb (a =? b) then Some (a - b) else strncmp p' q' n'
      | _, _ => None
      end
  end.

(** The bytes strncpy stores at [s]: a copy up to the NUL, then NULs. *)
Fixpoint strncpy_bytes (t : list Z) (n : nat) : option (list Z) :=
  match n with
  | O => Some []
  | S n' =>
      match t with
      | [] => None
      | a :: t' =>
          if a =? 0 then Some (0 :: replicate n' 0)
          else bs ← strncpy_bytes t' n'; Some (a :: bs)
      end
  end.

Definition strncpy (s t : list Z) (n : nat) : option (list Z) :=
  bs ← strncpy_bytes t n;
  if (n <=? length s)%nat then Some (bs ++ drop n s) else None.

(** The bytes safestrcpy stores: at most n-1 of [t], then a NUL. *)
Fixpoint safestrcpy_bytes (t : list Z) (n : nat) : option (list Z) :=
  match n with
  | O => Some []
  | S O => Some [0]
  | S n' =>
      match t with
      | [] => None
      | a :: t' =>
          if a =? 0 then Some [0; 0]
          else bs ← safestrcpy_bytes t' n'; Some (a :: bs)
      end
  end.

Definition safestrcpy (s t : list Z) (n : nat) : option (list Z) :=
  bs ← safestrcpy_bytes t n;
  if (length bs <=? length s)%nat then Some (bs ++ drop (length bs) s) else None.

Fixpoint strlen (s : list Z) : option nat :=
  match s with
  | [] => None
  | a :: s' => if a =? 0 then Some O else S <$> strlen s'
  end.

(** A string literal as a C array: its bytes and a NUL. *)
Definition cstr (s : string) : list Z :=
  (fun c => Z.of_nat (Ascii.nat_of_ascii c)) <$> String.list_ascii_of_string s ++ [Ascii.zero].

(** ** Little-endian round trips *)

Lemma length_le_bytes n x : length (le_bytes n x) = n.
Proof. revert x; induction n; intros; simpl; auto. Qed.

Lemma le_bytes_is_byte n x : Forall is_byte (le_bytes n x).
Proof.
  revert x; induction n as [|n IH]; intros x; simpl; constructor; auto.
  apply Z.mod_pos_bound. lia.
Qed.

Lemma le_val_le_bytes n x : le_val (le_bytes n x) = x mod 2 ^ (8 * Z.of_nat n).
Proof.
  revert x; induction n as [|n IH]; intros x.
  { rewrite Z.mul_0_r, Z.pow_0_r, Z.mod_1_r. done. }
  cbn [le_bytes le_val]. rewrite IH.
  replace (8 * Z.of_nat (S n)) with (8 + 8 * Z.of_nat n) by lia.
  rewrite Z.pow_add_r by lia. change (2 ^ 8) with 256.
  rewrite Z.rem_mul_r by lia. done.
Qed.

Lemma le_val_bounds bs :
  Forall is_byte bs -> 0 <= le_val bs < 2 ^ (8 * Z.of_nat (length bs)).
Proof.
  induction 1 as [|b bs Hb _ IH]; [done|].
  cbn [le_val length]. replace (8 * Z.of_nat (S (length bs))) with (8 + 8 * Z.of_nat (length bs)) by lia.
  rewrite Z.pow_add_r by lia. change (2 ^ 8) with 256. unfold is_byte in Hb. nia.
Qed.

Lemma le_bytes_le_val bs : Forall is_byte bs -> le_bytes (length bs) (le_val bs) = bs.
Proof.
  induction 1 as [|b bs Hb _ IH]; [done|]. cbn [le_val length le_bytes]. unfold is_byte in Hb.
  f_equal.
  - rewrite Z.mul_comm, Z.mod_add by lia. by apply Z.mod_small.
  - rewrite Z.mul_comm, Z.div_add, Z.div_small by lia. by rewrite Z.add_0_l.
Qed.

(** ** Splicing *)

Lemma length_splice l off bs :
  (off + length bs <= length l)%nat -> length (splice l off bs) = length l.
Proof. intros. unfold splice. rewrite !length_app, length_take, length_drop. lia. Qed.

Lemma length_slice l off n :
  (off + n <= length l)%nat -> length (slice l off n) = n.
Proof. intros. unfold slice. rewrite length_take, length_drop. lia. Qed.

Lemma lookup_splice_in l off bs i :
  (off + length bs <= length l)%nat -> (off <= i < off + length bs)%nat ->
  splice l off bs !! i = bs !! (i - off)%nat.
Proof.
  intros Hl Hi. unfold splice.
  rewrite lookup_app_r by (rewrite length_take; lia).
  rewrite length_take, Nat.min_l by lia.
  rewrite lookup_app_l by lia. done.
Qed.

Lemma lookup_splice_out l off bs i :
  (off + length bs <= length l)%nat -> (i < off \/ off + length bs <= i)%nat ->
  splice l off bs !! i = l !! i.
Proof.
  intros Hl [Hi|Hi]; unfold splice.
  - rewrite lookup_app_l by (rewrite length_take; lia). by rewrite lookup_take_lt.
  - rewrite lookup_app_r by (rewrite length_take; lia).
    rewrite length_take, Nat.min_l by lia.
    rewrite lookup_app_r by lia. rewrite lookup_drop. f_equal. lia.
Qed.

Lemma slice_splice_same l off bs :
  (off + length bs <= length l)%nat -> slice (splice l off bs) off (length bs) = bs.
Proof.
  intros Hl. unfold slice, splice.
  rewrite drop_app_le by (rewrite length_take; lia).
  rewrite drop_ge by (rewrite length_take; lia). simpl.
  by rewrite take_app_length.
Qed.

Lemma slice_ext l1 l2 off n :
  (forall i, (off <= i < off + n)%nat -> l1 !! i = l2 !! i) -> slice l1 off n = slice l2 off n.
Proof.
  intros H. unfold slice. apply list_eq. intros i.
  destruct (decide (i < n)%nat).
  - rewrite !lookup_take_lt, !lookup_drop by lia. apply H. lia.
  - rewrite !lookup_take_ge by lia. done.
Qed.

Lemma slice_splice_disjoint l off bs off' n :
  (off + length bs <= length l)%nat -> (off' + n <= off \/ off + length bs <= off')%nat ->
  slice (splice l off bs) off' n = slice l off' n.
Proof. intros Hl Hd. apply slice_ext. intros i Hi. apply lookup_splice_out; lia. Qed.

Lemma splice_splice_same l off bs1 bs2 :
  length bs1 = length bs2 -> (off + length bs1 <= length l)%nat ->
  splice (splice l off bs1) off bs2 = splice l off bs2.
Proof.
  intros Hlen Hl. apply list_eq. intros i.
  assert (Hls : length (splice l off bs1) = length l) by (by apply length_splice).
  destruct (decide (off <= i < off + length bs2)%nat).
  - rewrite !lookup_splice_in; rewrite ?Hls; lia || done.
  - rewrite !lookup_splice_out; rewrite ?Hls; lia || done.
Qed.

Lemma Forall_splice (P : Z -> Prop) l off bs :
  Forall P l -> Forall P bs -> Forall P (splice l off bs).
Proof. intros. unfold splice. auto using Forall_app_2, Forall_take, Forall_drop. Qed.

Lemma Forall_slice (P : Z -> Prop) l off n : Forall P l -> Forall P (slice l off n).
Proof. intros. unfold slice. auto using Forall_take, Forall_drop. Qed.

(** ** Memory *)

Lemma length_mem_read m a n : length (mem_read m a n) = n.
Proof. unfold mem_read. by rewrite length_fmap, length_seq. Qed.

Lemma mem_read_lookup m a n i :
  (i < n)%nat -> mem_read m a n !! i = Some (m !!! (a + Z.of_nat i)).
Proof.
  intros Hi. unfold mem_read. rewrite list_lookup_fmap, lookup_seq_lt by done. done.
Qed.

Lemma mem_write_lookup_total m a bs x :
  mem_write m a bs !!! x =
    if decide (a <= x < a + Z.of_nat (length bs)) then bs !!! Z.to_nat (x - a) else m !!! x.
Proof.
  revert a. induction bs as [|b bs IH]; intros a; simpl.
  { rewrite decide_False by lia. done. }
  destruct (decide (x = a)) as [->|Hne].
  - rewrite (lookup_total_insert_eq (M:=gmap Z)), decide_True by lia. by rewrite Z.sub_diag.
  - rewrite lookup_total_insert_ne by done. rewrite IH.
    destruct (decide (a + 1 <= x < a + 1 + Z.of_nat (length bs))).
    + rewrite decide_True by lia.
      replace (Z.to_nat (x - a)) with (S (Z.to_nat (x - (a + 1)))) by lia. done.
    + rewrite decide_False by lia. done.
Qed.

Lemma mem_read_write_same m a bs : mem_read (mem_write m a bs) a (length bs) = bs.
Proof.
  apply list_eq_same_length with (length bs); [done|by rewrite length_mem_read|].
  intros i x y Hi. rewrite mem_read_lookup by done. intros [= <-] Hy.
  rewrite mem_write_lookup_total, decide_True by lia.
  replace (Z.to_nat (a + Z.of_nat i - a)) with i by lia.
  by apply list_lookup_total_correct.
Qed.

Lemma mem_read_write_disjoint m a bs a' n :
  (a' + Z.of_nat n <= a \/ a + Z.of_nat (length bs) <= a') ->
  mem_read (mem_write m a bs) a' n = mem_read m a' n.
Proof.
  intros H. unfold mem_read. apply list_fmap_ext. intros i x Hx.
  apply lookup_seq in Hx as [-> Hi]. simpl.
  rewrite mem_write_lookup_total, decide_False by lia. done.
Qed.

Lemma mem_read_app m a n1 n2 : mem_read m a (n1 + n2) = mem_read m a n1 ++ mem_read m (a + Z.of_nat n1) n2.
Proof.
  apply list_eq. intros j. destruct (decide (j < n1 + n2)%nat) as [Hj|Hj].
  - rewrite mem_read_lookup by done. destruct (decide (j < n1)%nat) as [H1|H1].
    + rewrite lookup_app_l by (rewrite length_mem_read; lia). by rewrite mem_read_lookup.
    + rewrite lookup_app_r, length_mem_read by (rewrite length_mem_read; lia). rewrite mem_read_lookup by lia.
      do 2 f_equal. lia.
  - rewrite !lookup_ge_None_2; [done|..]; rewrite ?length_app, !length_mem_read; lia.
Qed.

Lemma load64_store64_same m a x : load64 (store64 m a x) a = u64 x.
Proof.
  unfold load64, store64.
  pose proof (mem_read_write_same m a (le_bytes 8 x)) as H.
  rewrite length_le_bytes in H. rewrite H, le_val_le_bytes. done.
Qed.

Lemma load64_store64_ne m a a' x :
  a mod 8 = 0 -> a' mod 8 = 0 -> a <> a' -> load64 (store64 m a x) a' = load64 m a'.
Proof.
  intros Ha Ha' Hne. unfold load64, store64.
  rewrite mem_read_write_disjoint; [done|]. rewrite length_le_bytes.
  apply Z.mod_divide in Ha, Ha'; [|lia|lia].
  destruct Ha as [k ->], Ha' as [k' ->]. lia.
Qed.

(** ** string.c: memmove copies the old source bytes, overlap or not *)

Lemma move_forward_spec n m d s x :
  d <= s \/ s + Z.of_nat n <= d ->
  move_forward m d s n !!! x =
    if decide (d <= x < d + Z.of_nat n) then m !!! (s + (x - d)) else m !!! x.
Proof.
  revert m d s. induction n as [|n IH]; intros m d s H; simpl.
  { rewrite decide_False by lia. done. }
  rewrite IH by lia. destruct (decide (x = d)) as [->|Hne].
  - rewrite decide_False, (lookup_total_insert_eq (M:=gmap Z)), decide_True by lia. f_equal. lia.
  - destruct (decide (d + 1 <= x < d + 1 + Z.of_nat n)).
    + rewrite decide_True by lia. rewrite lookup_total_insert_ne by lia. f_equal. lia.
    + rewrite decide_False by lia. rewrite lookup_total_insert_ne by lia. done.
Qed.

Lemma move_backward_spec n m d s x :
  s <= d ->
  move_backward m d s n !!! x =
    if decide (d - Z.of_nat n <= x < d) then m !!! (s + (x - d)) else m !!! x.
Proof.
  revert m d s. induction n as [|n IH]; intros m d s H; simpl.
  { rewrite decide_False by lia. done. }
  rewrite IH by lia. destruct (decide (x = d - 1)) as [->|Hne].
  - rewrite decide_False, (lookup_total_insert_eq (M:=gmap Z)), decide_True by lia. f_equal. lia.
  - destruct (decide (d - 1 - Z.of_nat n <= x < d - 1)).
    + rewrite decide_True by lia. rewrite lookup_total_insert_ne by lia. f_equal. lia.
    + rewrite decide_False by lia. rewrite lookup_total_insert_ne by lia. done.
Qed.

Lemma memmove_lookup_total m dst src n x :
  memmove m dst src n !!! x =
    if decide (dst <= x < dst + Z.of_nat n) then m !!! (src + (x - dst)) else m !!! x.
Proof.
  unfold memmove. destruct (Nat.eqb_spec n 0) as [->|Hn].
  { rewrite decide_False by lia. done. }
  destruct (Z.ltb_spec src dst), (Z.ltb_spec dst (src + Z.of_nat n)); simpl.
  2-4: rewrite move_forward_spec by lia; done.
  rewrite move_backward_spec by lia.
  destruct (decide (dst <= x < dst + Z.of_nat n)).
  - rewrite decide_True by lia. f_equal. lia.
  - rewrite decide_False by lia. done.
Qed.

(** ** string.c: names

    [cname l n] is the C string held in the first [n] bytes of [l]: the bytes
    before the first NUL, or all [n] of them. *)
Fixpoint cname (l : list Z) (n : nat) : list Z :=
  match n, l with
  | S n', a :: l' => if a =? 0 then [] else a :: cname l' n'
  | _, _ => []
  end.

(** A string function that looks at no more than [n] bytes of [l] stays
    inside the object. *)
Fixpoint readable (l : list Z) (n : nat) : Prop :=
  match n, l with
  | O, _ => True
  | S n', a :: l' => a = 0 \/ readable l' n'
  | S _, [] => False
  end.

Lemma readable_length l n : (n <= length l)%nat -> readable l n.
Proof. revert l. induction n; intros [|a l]; simpl; try lia; auto with lia. Qed.

Lemma strncmp_total p q n :
  readable p n -> readable q n -> is_Some (strncmp p q n).
Proof.
  revert p q. induction n as [|n IH]; intros [|a p] [|b q]; simpl; try naive_solver.
  intros Hp Hq. destruct (Z.eqb_spec a 0); simpl; [by eexists|].
  destruct (Z.eqb_spec a b); simpl; [|by eexists]. subst.
  apply IH; naive_solver.
Qed.

Lemma strncmp_eq_iff p q n r :
  strncmp p q n = Some r -> r = 0 <-> cname p n = cname q n.
Proof.
  revert p q. induction n as [|n IH]; intros [|a p] [|b q]; simpl; try naive_solver.
  destruct (Z.eqb_spec a 0) as [->|Ha]; simpl.
  { intros [= <-]. destruct (Z.eqb_spec b 0); (split; intros; [try done; lia|try done; lia]). }
  destruct (Z.eqb_spec a b) as [->|Hb]; simpl.
  { intros H%IH. rewrite H. destruct (Z.eqb_spec b 0); [done|].
    split; [by intros ->|by intros [= ->]]. }
  intros [= <-]. destruct (Z.eqb_spec b 0); (split; intros; [lia|congruence]).
Qed.

Lemma strncpy_bytes_length t n bs : strncpy_bytes t n = Some bs -> length bs = n.
Proof.
  revert t bs. induction n as [|n IH]; intros [|a t] bs; simpl; try naive_solver.
  destruct (a =? 0).
  - intros [= <-]. simpl. by rewrite length_replicate.
  - intros (bs' & H & [= <-])%bind_Some. simpl. by rewrite (IH _ _ H).
Qed.

Lemma strncpy_bytes_total t n : readable t n -> is_Some (strncpy_bytes t n).
Proof.
  revert t. induction n as [|n IH]; intros [|a t]; simpl; try naive_solver.
  destruct (Z.eqb_spec a 0); [by eexists|].
  intros [?|H]; [done|]. destruct (IH _ H) as [bs ->]. by eexists.
Qed.

(** What strncpy stores reads back as the string it was given. *)
Lemma strncpy_bytes_cname t n bs :
  strncpy_bytes t n = Some bs -> cname bs n = cname t n.
Proof.
  revert t bs. induction n as [|n IH]; intros [|a t] bs; simpl; try naive_solver.
  destruct (Z.eqb_spec a 0).
  - intros [= <-]. done.
  - intros (bs' & H & [= <-])%bind_Some.
    simpl. destruct (Z.eqb_spec a 0); [done|]. by rewrite (IH _ _ H).
Qed.

Lemma safestrcpy_bytes_spec t n :
  readable t n -> (0 < n)%nat ->
  exists bs, safestrcpy_bytes t n = Some bs /\ (length bs <= n)%nat /\
    cname (bs ++ []) n = cname t (n - 1) /\
    exists k, bs !! k = Some 0.
Proof.
  revert t. induction n as [|n IH]; intros t Ht Hn; [lia|].
  destruct n as [|n].
  { exists [0]. split_and!; [by destruct t|simpl; lia|by destruct t|by exists O]. }
  destruct t as [|a t]; [done|].
  change (safestrcpy_bytes (a :: t) (S (S n))) with
    (if a =? 0 then Some [0; 0] else bs ← safestrcpy_bytes t (S n); Some (a :: bs)).
  destruct (Z.eqb_spec a 0) as [->|Ha].
  { exists [0; 0]. split_and!; [done|simpl; lia|done|by exists O]. }
  destruct Ht as [?|Ht]; [done|]. destruct (IH t Ht) as (bs & -> & Hl & Hc & k & Hk); [lia|].
  exists (a :: bs). split_and!; [done|simpl; lia| |by exists (S k)].
  simpl app. rewrite app_nil_r in *. simpl in Hc |- *. rewrite Nat.sub_0_r in *.
  destruct (Z.eqb_spec a 0); [done|]. by rewrite Hc.
Qed.

(** ** What the rest of the kernel uses *)

(** memmove leaves at dst the n bytes that were at src, also when the two
    ranges overlap, and changes no other byte. *)
Theorem memmove_moves m dst src n :
  mem_read (memmove m dst src n) dst n = mem_read m src n /\
  forall x, x < dst \/ dst + Z.of_nat n <= x -> memmove m dst src n !!! x = m !!! x.
Proof.
  split.
  - apply list_eq. intros i. unfold mem_read. rewrite !list_lookup_fmap.
    destruct (decide (i < n)%nat).
    + rewrite !lookup_seq_lt by done. simpl. rewrite memmove_lookup_total, decide_True by lia.
      do 2 f_equal. lia.
    + rewrite !lookup_seq_ge by lia. done.
  - intros x Hx. rewrite memmove_lookup_total. by rewrite decide_False by lia.
Qed.

(** strncmp on two readable strings returns 0 exactly when their first n
    bytes hold the same C string. *)
Theorem strncmp_decides_equality p q n :
  readable p n -> readable q n ->
  exists r, strncmp p q n = Some r /\ (r = 0 <-> cname p n = cname q n).
Proof.
  intros Hp Hq. destruct (strncmp_total p q n Hp Hq) as [r Hr]. exists r. split; [done|].
  by apply strncmp_eq_iff.
Qed.

(** safestrcpy into a large enough object stores at most n bytes, always
    including a terminating NUL, and the string stored is the source's, cut
    to n-1 bytes. *)
Theorem safestrcpy_terminates s t n :
  readable t n -> (0 < n <= length s)%nat ->
  exists s', safestrcpy s t n = Some s' /\ length s' = length s /\
    cname s' n = cname t (n - 1) /\ (exists k, (k < n)%nat /\ s' !! k = Some 0) /\
    forall k, (n <= k)%nat -> s' !! k = s !! k.
Proof.
  intros Ht [Hn Hs]. destruct (safestrcpy_bytes_spec t n Ht Hn) as (bs & Hb & Hl & Hc & k & Hk).
  unfold safestrcpy. rewrite Hb. simpl. rewrite (proj2 (Nat.leb_le _ _)) by lia.
  eexists. split; [done|]. assert (Hkl := lookup_lt_Some _ _ _ Hk).
  split_and!.
  - rewrite length_app, length_drop. lia.
  - rewrite <- Hc, app_nil_r. generalize (drop (length bs) s). clear -Hk Hl.
    intros r. revert n k Hl Hk.
    induction bs as [|a bs IH]; intros n k Hl Hk; [done|]. destruct n as [|n]; [done|]. simpl in *.
    destruct (Z.eqb_spec a 0); [done|]. destruct k as [|k]; [by simplify_eq/=|]. f_equal.
    apply (IH n k); [lia|done].
  - exists k. split; [lia|]. by rewrite lookup_app_l by lia.
  - intros j Hj. rewrite lookup_app_r by lia. rewrite lookup_drop. f_equal. lia.
Qed.
