(* ===== verification/Usercopy.v ===== *)
(** * The interface between the file system and user memory

    fs.c, file.c, pipe.c and sysfile.c reach user memory only through copyout, copyin
    and copyinstr
    (via either_copyout and either_copyin of proc.c).  They are written
    against this class: what it promises is that a copy changes the byte
    memory and the page allocator and nothing else.  Vm.v gives the
    instance. *)

From S2P Require Import Prelude State CString.

(** [s'] differs from [s] in memory and page-allocator state only. *)
Definition user_same (s s' : kstate) : Prop :=
  exists m f r, s' = set_k_mem m (set_k_freelist f (set_k_refcount r s)).

#[export] Instance user_same_refl : Reflexive user_same.
Proof. intros s. exists (k_mem s), (k_freelist s), (k_refcount s). by destruct s. Qed.

#[export] Instance user_same_trans : Transitive user_same.
Proof. intros s1 s2 s3 (m & f & r & ->) (m' & f' & r' & ->). by exists m', f', r'. Qed.

(** The same user memory and page allocator. *)
Definition same_user (s s' : kstate) : Prop :=
  k_mem s' = k_mem s /\ k_freelist s' = k_freelist s /\ k_refcount s' = k_refcount s.

Class UserCopy := {
  ucopyout : Z -> Z -> list Z -> K Z;
  ucopyin : Z -> Z -> Z -> K (Z * list Z);
  ucopyinstr : Z -> Z -> Z -> K (Z * list Z);
  ucopyout_frame pt va bs s r s' : ucopyout pt va bs s = Ret r s' -> user_same s s';
  ucopyin_frame pt va n s r s' : ucopyin pt va n s = Ret r s' -> user_same s s';
  ucopyinstr_frame pt va n s r s' : ucopyinstr pt va n s = Ret r s' -> user_same s s';
  ucopyin_length pt va n s bs s' :
    0 <= n -> ucopyin pt va n s = Ret (0, bs) s' -> length bs = Z.to_nat n;
}.

(** Kernel locals whose address is passed to readi or writei: slots of a
    kernel stack page (the layout is the compiler's choice; only that the
    slots are disjoint, and disjoint from the pages kalloc hands out,
    matters). *)
Definition KLOCAL (slot : Z) : Z := KSTACK 0 + 256 * slot.

(** memmove to and from a kernel address. *)
Definition kwrite (a : Z) (bs : list Z) : K unit :=
  modify (fun s => set_k_mem (mem_write (k_mem s) a bs) s).
Definition kread (a : Z) (n : nat) : K (list Z) := m ← gets k_mem; mret (mem_read m a n).

Section either.
  Context `{UC : UserCopy}.

(** either_copyout(user_dst, dst, src, len), [src] being the bytes. *)
Definition either_copyout (user_dst : bool) (dst : Z) (src : list Z) : K Z :=
  if user_dst then
    p ← myproc; pp ← get_proc p; ucopyout (p_pagetable pp) dst src
  else kwrite dst src;; mret 0.

(** either_copyin(dst, user_src, src, len): the result and the bytes that
    reach dst. *)
Definition either_copyin (user_src : bool) (src len : Z) : K (Z * list Z) :=
  if user_src then
    p ← myproc; pp ← get_proc p; ucopyin (p_pagetable pp) src len
  else bs ← kread src (Z.to_nat len); mret (0, bs).

End either.

(** ** Computations that touch user memory only

    [frames m]: whenever [m] returns, it changed the byte memory and the page
    allocator and nothing else.  The rules below follow the syntax of the
    monad, so [solve_frames] proves it for most of vm.c. *)
Definition frames {A} (m : K A) : Prop := forall s a s', m s = Ret a s' -> user_same s s'.

Section frames.

Lemma frames_mret {A} (a : A) : frames (mret a : K A).
Proof. intros s a' s' [= _ <-]. done. Qed.

Lemma frames_gets {A} (f : kstate -> A) : frames (gets f).
Proof. intros s a' s' [= _ <-]. done. Qed.

Lemma frames_panic {A} msg : frames (panic msg : K A).
Proof. by intros s a s'. Qed.

Lemma frames_undefined {A} : frames (undefined : K A).
Proof. by intros s a s'. Qed.

Lemma frames_out_of_fuel {A} : frames (out_of_fuel : K A).
Proof. by intros s a s'. Qed.

Lemma frames_deref {A} (o : option A) : frames (deref o : K A).
Proof. destruct o; [apply frames_mret|apply frames_undefined]. Qed.

Lemma frames_bind {A B} (m : K A) (f : A -> K B) :
  frames m -> (forall a, frames (f a)) -> frames (m ≫= f).
Proof.
  intros Hm Hf s b s' H. apply obind_Ret_inv in H as (a & s1 & H1 & H2).
  etrans; [by eapply Hm|by eapply Hf].
Qed.

Lemma frames_when b (m : K unit) : frames m -> frames (when b m).
Proof. destruct b; [done|intros _; apply frames_mret]. Qed.

Lemma frames_set_mem (f : kstate -> gmap Z Z) : frames (modify (fun s => set_k_mem (f s) s)).
Proof.
  intros s a s' [= _ <-]. exists (f s), (k_freelist s), (k_refcount s). by destruct s.
Qed.

Lemma frames_foreach {A} (l : list A) (body : A -> K unit) :
  (forall x, frames (body x)) -> frames (foreach l body).
Proof.
  intros Hb. induction l; simpl; [apply frames_mret|]. apply frames_bind; auto.
Qed.

Lemma frames_forl {A R} (l : list A) (body : A -> K (option R)) :
  (forall x, frames (body x)) -> frames (forl l body).
Proof.
  intros Hb. induction l; simpl; [apply frames_mret|].
  apply frames_bind; [done|]. intros [r|]; [apply frames_mret|done].
Qed.

Lemma frames_loop {X R} n (body : X -> K (X + R)) x :
  (forall x, frames (body x)) -> frames (loop n body x).
Proof.
  intros Hb. revert x. induction n; intros x; simpl; [apply frames_out_of_fuel|].
  apply frames_bind; [done|]. intros [?|?]; [done|apply frames_mret].
Qed.

Lemma frames_myproc : frames myproc.
Proof. apply frames_bind; [apply frames_gets|]. intros; apply frames_deref. Qed.

Lemma frames_get_proc p : frames (get_proc p).
Proof. apply frames_bind; [apply frames_gets|]. intros; apply frames_deref. Qed.

End frames.

Create HintDb frames.
#[export] Hint Resolve frames_mret frames_gets frames_panic frames_undefined
  frames_out_of_fuel frames_deref frames_set_mem frames_myproc frames_get_proc : frames.

Ltac solve_frames :=
  repeat first
    [ progress intros
    | solve [eauto with frames]
    | apply frames_bind
    | apply frames_when
    | apply frames_foreach
    | apply frames_forl
    | apply frames_loop
    | case_match ].
