(* ===== verification/Kalloc.v ===== *)
(** * Physical page allocator with reference counts (kernel/kalloc.c)

    The free list is threaded through the first word of each free page in
    [k_mem], its head is [k_freelist]; page_refcount[] is [k_refcount], a page
    never mentioned having count 0. *)

From S2P Require Import Prelude State Spinlock CString Usercopy.

Definition NPHYS_PAGES : Z := (PHYSTOP - KERNBASE) / PGSIZE.

Definition phys2ind (pa : Z) : Z := (pa - KERNBASE) / PGSIZE.

(** page_refcount[i] and page_refcount[i] = x; outside the array the access
    has no defined behaviour. *)
Definition refcnt_get (i : Z) : K Z :=
  r ← gets k_refcount;
  if (0 <=? i) && (i <? NPHYS_PAGES) then mret (r !!! i) else undefined.
Definition refcnt_set (i x : Z) : K unit :=
  if (0 <=? i) && (i <? NPHYS_PAGES)
  then modify (fun s => set_k_refcount (<[i := x]> (k_refcount s)) s) else undefined.

Definition incref (pa : Z) : K unit :=
  acquire LRefcount;;
  r ← refcnt_get (phys2ind pa);
  refcnt_set (phys2ind pa) (r + 1);;
  release LRefcount.

Definition decref (pa : Z) : K unit :=
  acquire LRefcount;;
  r ← refcnt_get (phys2ind pa);
  refcnt_set (phys2ind pa) (r - 1);;
  release LRefcount.

Definition getref (pa : Z) : K Z :=
  acquire LRefcount;;
  ref ← refcnt_get (phys2ind pa);
  release LRefcount;;
  mret ref.

(** memset((void* )pa, c, PGSIZE). *)
Definition fill_page (pa c : Z) : K unit :=
  modify (fun s => set_k_mem (mem_write (k_mem s) pa (replicate (Z.to_nat PGSIZE) c)) s).

Definition kfree (pa : Z) : K unit :=
  kend ← gets k_end;
  if negb (pa mod PGSIZE =? 0) || (pa <? kend) || (PHYSTOP <=? pa) then panic "kfree" else
  acquire LRefcount;;
  r ← refcnt_get (phys2ind pa);
  refcnt_set (phys2ind pa) (r - 1);;
  release LRefcount;;
  if negb (r - 1 =? 0) then mret tt else
  fill_page pa 1;;
  acquire LKmem;;
  modify (fun s => set_k_mem (store64 (k_mem s) pa (k_freelist s)) s);;
  modify (set_k_freelist pa);;
  release LKmem.

Definition kalloc : K Z :=
  acquire LKmem;;
  r ← gets k_freelist;
  when (negb (r =? 0)) (modify (fun s => set_k_freelist (load64 (k_mem s) r) s));;
  release LKmem;;
  (if negb (r =? 0) then
     fill_page r 5;;
     acquire LRefcount;;
     refcnt_set (phys2ind r) 1;;
     release LRefcount
   else mret tt);;
  mret r.

(** The pages p = PGROUNDUP(pa_start), p + PGSIZE, ... with
    p + PGSIZE <= pa_end. *)
Definition freerange (pa_start pa_end : Z) : K unit :=
  foreach (zstep (PGROUNDUP pa_start) (pa_end - PGSIZE + 1) PGSIZE) (fun p =>
    acquire LRefcount;;
    refcnt_set (phys2ind p) 1;;
    release LRefcount;;
    kfree p).

Definition kinit : K unit :=
  modify (set_k_refcount ∅);;
  kend ← gets k_end;
  freerange kend PHYSTOP.

Definition getNumFreePages : K Z :=
  acquire LKmem;;
  head ← gets k_freelist;
  n ← loop (S (Z.to_nat NPHYS_PAGES)) (fun '(r, count) =>
    if r =? 0 then mret (inr count)
    else m ← gets k_mem; mret (inl (load64 m r, count + 1))) (head, 0);
  release LKmem;;
  mret n.

(** ** Frame properties *)

(** Inside a critical section: [m] runs with [lk] held, releases it, and
    touches memory and the allocator only. *)
Definition frames_in {A} (lk : lockid) (m : K A) : Prop :=
  forall h s a s', k_held s = lk :: h -> lk ∉ h -> m s = Ret a s' ->
    user_same (set_k_held h s) s'.

Lemma user_same_held s s' : user_same s s' -> k_held s' = k_held s.
Proof. by intros (m & f & r & ->). Qed.

Lemma user_same_set_held h s s' :
  user_same s s' -> user_same (set_k_held h s) (set_k_held h s').
Proof. intros (m & f & r & ->). by exists m, f, r. Qed.

Lemma frames_acquire {A} (lk : lockid) (m : K A) : frames_in lk m -> frames (acquire lk;; m).
Proof.
  intros Hm s b s' H. unfold acquire, holding in H. mred in H.
  destruct (bool_decide_reflect (lk ∈ k_held s)) as [|Hnin]; mred in H; [done|].
  eapply Hm in H; [|done|done]. etrans; [|exact H]. by destruct s.
Qed.

Lemma frames_in_bind {A B} lk (m : K A) (f : A -> K B) :
  frames m -> (forall a, frames_in lk (f a)) -> frames_in lk (m ≫= f).
Proof.
  intros Hm Hf h s b s' Hh Hn H. apply obind_Ret_inv in H as (a & s1 & H1 & H2).
  apply Hm in H1. etrans; [by apply user_same_set_held|].
  eapply Hf; [|done|done]. by rewrite (user_same_held _ _ H1).
Qed.

Lemma frames_in_release lk : frames_in lk (release lk).
Proof.
  intros h s a s' Hh Hn H. rewrite (release_eq lk s h) in H by done.
  by injection H as <- <-.
Qed.

Lemma frames_in_release_bind {A} lk (m : K A) : frames m -> frames_in lk (release lk;; m).
Proof.
  intros Hm h s a s' Hh Hn H. mred in H. rewrite (release_eq lk s h) in H by done.
  mred in H. by eapply Hm.
Qed.

Ltac solve_critical :=
  repeat first
    [ progress intros
    | solve [eauto with frames]
    | apply frames_acquire
    | apply frames_in_release
    | apply frames_in_release_bind
    | apply frames_in_bind
    | apply frames_bind
    | apply frames_when
    | case_match ].

Lemma frames_refcnt_get i : frames (refcnt_get i).
Proof. unfold refcnt_get. solve_frames. Qed.

Lemma frames_refcnt_set i x : frames (refcnt_set i x).
Proof.
  unfold refcnt_set. case_match; [|solve_frames].
  intros s a s' [= _ <-]. exists (k_mem s), (k_freelist s), (<[i := x]> (k_refcount s)). by destruct s.
Qed.

Lemma frames_set_freelist (f : kstate -> Z) :
  frames (modify (fun s => set_k_freelist (f s) s)).
Proof. intros s a s' [= _ <-]. exists (k_mem s), (f s), (k_refcount s). by destruct s. Qed.

Lemma frames_fill_page pa c : frames (fill_page pa c).
Proof. apply frames_set_mem. Qed.

#[export] Hint Resolve frames_refcnt_get frames_refcnt_set frames_set_freelist
  frames_fill_page : frames.


Lemma frames_incref pa : frames (incref pa).
Proof. unfold incref. solve_critical. Qed.
Lemma frames_decref pa : frames (decref pa).
Proof. unfold decref. solve_critical. Qed.
Lemma frames_getref pa : frames (getref pa).
Proof. unfold getref. solve_critical. Qed.

Lemma frames_kfree pa : frames (kfree pa).
Proof. unfold kfree. solve_critical. Qed.
Lemma frames_kalloc : frames kalloc.
Proof. unfold kalloc. solve_critical. Qed.

#[export] Hint Resolve frames_incref frames_decref frames_getref frames_kfree
  frames_kalloc : frames.
