(* ===== verification/Pages.v ===== *)
(** * Physical pages: the free list and the reference counts

    [free_list fl s] says that the linked list threaded through the free pages
    is [fl]: distinct pages of allocatable memory, each with reference count 0.
    kalloc, kfree, kinit and getNumFreePages are specified on [fl]. *)

From S2P Require Import Prelude State Spinlock CString Usercopy Kalloc.

(** A page of the memory the allocator manages. *)
Definition is_page (s : kstate) (pg : Z) : Prop :=
  pg mod PGSIZE = 0 /\ k_end s <= pg < PHYSTOP.

(** The list from [head] through the first words of the pages. *)
Fixpoint chain (m : gmap Z Z) (head : Z) (fl : list Z) : Prop :=
  match fl with
  | [] => head = 0
  | pg :: fl' => head = pg /\ chain m (load64 m pg) fl'
  end.

Definition refcount (s : kstate) (pg : Z) : Z := k_refcount s !!! phys2ind pg.

Record free_list (fl : list Z) (s : kstate) : Prop := {
  fl_end : KERNBASE <= k_end s;
  fl_chain : chain (k_mem s) (k_freelist s) fl;
  fl_nodup : NoDup fl;
  fl_page pg : pg ∈ fl -> is_page s pg;
  fl_ref pg : pg ∈ fl -> refcount s pg = 0;
}.

(** Neither allocator lock is held. *)
Definition unlocked (s : kstate) : Prop := LKmem ∉ k_held s /\ LRefcount ∉ k_held s.

(** ** Pages as addresses *)

Lemma page_gap pg pg' : pg mod PGSIZE = 0 -> pg' mod PGSIZE = 0 -> pg <> pg' ->
  pg + PGSIZE <= pg' \/ pg' + PGSIZE <= pg.
Proof.
  intros H H' Hne. apply Z.mod_divide in H, H'; [|done|done]. destruct H as [k ->], H' as [k' ->].
  unfold PGSIZE in *. lia.
Qed.

Lemma phys2ind_inj pg pg' :
  pg mod PGSIZE = 0 -> pg' mod PGSIZE = 0 -> phys2ind pg = phys2ind pg' -> pg = pg'.
Proof.
  intros H H' E. unfold phys2ind in E. apply Z.mod_divide in H, H'; [|done|done].
  destruct H as [k ->], H' as [k' ->]. revert E. unfold KERNBASE, PGSIZE.
  replace (k * 4096 - 2147483648) with ((k - 524288) * 4096) by lia.
  replace (k' * 4096 - 2147483648) with ((k' - 524288) * 4096) by lia.
  rewrite !Z.div_mul by done. lia.
Qed.

Lemma phys2ind_range s pg :
  KERNBASE <= k_end s -> is_page s pg -> (0 <=? phys2ind pg) && (phys2ind pg <? NPHYS_PAGES) = true.
Proof.
  intros He [_ [H1 H2]]. unfold phys2ind, NPHYS_PAGES. apply andb_true_iff. split.
  - apply Z.leb_le. apply Z.div_pos; [lia|done].
  - apply Z.ltb_lt. apply Z.div_lt_upper_bound; [done|].
    change (PGSIZE * ((PHYSTOP - KERNBASE) / PGSIZE)) with (PHYSTOP - KERNBASE). lia.
Qed.

(** ** Memory *)

Definition filled (pg c : Z) (m : gmap Z Z) : gmap Z Z := mem_write m pg (replicate (Z.to_nat PGSIZE) c).

Lemma filled_other pg c m x : x < pg \/ pg + PGSIZE <= x -> filled pg c m !!! x = m !!! x.
Proof.
  intros H. unfold filled. rewrite mem_write_lookup_total, length_replicate, decide_False; [done|].
  unfold PGSIZE in *. lia.
Qed.

Lemma filled_in pg c m x : pg <= x < pg + PGSIZE -> filled pg c m !!! x = c.
Proof.
  intros H. unfold filled. rewrite mem_write_lookup_total, length_replicate, decide_True by (unfold PGSIZE in *; lia).
  apply list_lookup_total_correct, lookup_replicate. unfold PGSIZE in *. split; [done|lia].
Qed.

(** Memory that agrees on the pages of the list has the same list. *)
Lemma load64_ext m m' a : (forall x, a <= x < a + 8 -> m' !!! x = m !!! x) -> load64 m' a = load64 m a.
Proof.
  intros H. unfold load64. f_equal. unfold mem_read. apply list_fmap_ext. intros i x Hx.
  apply lookup_seq in Hx as [-> Hi]. apply H. lia.
Qed.

Lemma chain_ext m m' fl head :
  (forall pg x, pg ∈ fl -> pg <= x < pg + 8 -> m' !!! x = m !!! x) ->
  chain m head fl -> chain m' head fl.
Proof.
  revert head. induction fl as [|pg fl IH]; intros head Hm; [done|]. intros [-> Hc]. split; [done|].
  rewrite (load64_ext m m' pg) by (intros x; apply Hm; by left).
  apply IH; [|done]. intros pg' x Hin. apply Hm. by right.
Qed.

(** The pages in the list are not disturbed by writes to another page. *)
Lemma chain_other_page m m' s fl head pg :
  pg mod PGSIZE = 0 -> pg ∉ fl -> (forall pg', pg' ∈ fl -> is_page s pg') ->
  (forall x, x < pg \/ pg + PGSIZE <= x -> m' !!! x = m !!! x) ->
  chain m head fl -> chain m' head fl.
Proof.
  intros Hpg Hnin Hp Hm. apply chain_ext. intros pg' x Hin Hx. apply Hm.
  destruct (Hp pg' Hin) as [Hal _]. destruct (page_gap pg pg') as [H|H]; [done|done|congruence|..];
    unfold PGSIZE in *; lia.
Qed.

(** ** The reference-count operations *)

Lemma refcnt_get_eq s pg :
  KERNBASE <= k_end s -> is_page s pg -> refcnt_get (phys2ind pg) s = Ret (refcount s pg) s.
Proof. intros He Hp. unfold refcnt_get. mred. by rewrite (phys2ind_range s) by done. Qed.

Lemma refcnt_set_eq s pg x :
  KERNBASE <= k_end s -> is_page s pg ->
  refcnt_set (phys2ind pg) x s = Ret tt (set_k_refcount (<[phys2ind pg := x]> (k_refcount s)) s).
Proof. intros He Hp. unfold refcnt_set. by rewrite (phys2ind_range s) by done. Qed.

Definition with_ref (pg x : Z) (s : kstate) : kstate :=
  set_k_refcount (<[phys2ind pg := x]> (k_refcount s)) s.

Lemma refcount_with_ref s pg x pg' :
  pg mod PGSIZE = 0 -> pg' mod PGSIZE = 0 ->
  refcount (with_ref pg x s) pg' = if decide (pg' = pg) then x else refcount s pg'.
Proof.
  intros H H'. unfold refcount, with_ref. simpl. case_decide as E.
  - subst. by rewrite (lookup_total_insert_eq (M:=gmap Z)).
  - rewrite (lookup_total_insert_ne (M:=gmap Z)); [done|]. intros Ei. apply E. by apply phys2ind_inj.
Qed.

(** A critical section that sets one count. *)
Lemma set_ref_eq s pg x {A} (k : K A) :
  KERNBASE <= k_end s -> is_page s pg -> LRefcount ∉ k_held s ->
  (acquire LRefcount;; refcnt_set (phys2ind pg) x;; release LRefcount;; k) s = k (with_ref pg x s).
Proof.
  intros He Hp Hh. mred. rewrite acquire_eq by done. mred. rewrite refcnt_set_eq by done. mred.
  rewrite (release_eq _ _ (k_held s)) by done. mred. by f_equal.
Qed.

Lemma upd_ref_eq s pg (f : Z -> Z) {A} (k : Z -> K A) :
  KERNBASE <= k_end s -> is_page s pg -> LRefcount ∉ k_held s ->
  (acquire LRefcount;; r ← refcnt_get (phys2ind pg); refcnt_set (phys2ind pg) (f r);; release LRefcount;; k r) s
    = k (refcount s pg) (with_ref pg (f (refcount s pg)) s).
Proof.
  intros He Hp Hh. mred. rewrite acquire_eq by done. mred. rewrite refcnt_get_eq by done. mred.
  rewrite refcnt_set_eq by done. mred.
  rewrite (release_eq _ _ (k_held s)) by done. mred. unfold refcount, with_ref. by f_equal.
Qed.

(** ** kalloc and kfree *)

(* the 4096 bytes of a page are never enumerated *)
#[local] Opaque mem_write.

Lemma free_list_with_ref fl s pg x :
  free_list fl s -> pg mod PGSIZE = 0 -> pg ∉ fl -> free_list fl (with_ref pg x s).
Proof.
  intros [He Hc Hn Hp Hr] Hal Hnin. constructor; try done. intros pg' Hin.
  rewrite refcount_with_ref by (done || apply (Hp pg' Hin)). rewrite decide_False; [by apply Hr|].
  intros ->. done.
Qed.

Lemma free_list_set_mem fl m s :
  free_list fl s -> chain m (k_freelist s) fl -> free_list fl (set_k_mem m s).
Proof. intros [He _ Hn Hp Hr] Hc. by constructor. Qed.

Lemma refcount_set_mem m s pg : refcount (set_k_mem m s) pg = refcount s pg.
Proof. reflexivity. Qed.

(** The state after kalloc hands out [r]. *)
Definition allocated_page (r : Z) (s : kstate) : kstate :=
  with_ref r 1 (set_k_mem (filled r 5 (k_mem s)) (set_k_freelist (load64 (k_mem s) r) s)).

Lemma kalloc_eq fl s :
  free_list fl s -> unlocked s ->
  kalloc s = match fl with [] => Ret 0 s | r :: _ => Ret r (allocated_page r s) end.
Proof.
  intros [He Hc Hn Hp Hr] [Hk Hl]. unfold kalloc. mred. rewrite acquire_eq by done. mred.
  change (k_freelist (set_k_held _ s)) with (k_freelist s).
  destruct fl as [|r fl]; simpl in Hc.
  - rewrite Hc. change (negb (0 =? 0)) with false. mred.
    rewrite (release_eq _ _ (k_held s)) by done. mred. f_equal. by destruct s.
  - destruct Hc as [Hc _]. destruct (Hp r) as [Hal Hb]; [by left|].
    rewrite Hc. destruct (Z.eqb_spec r 0) as [->|_]; [unfold KERNBASE in *; lia|]. mred.
    rewrite (release_eq _ _ (k_held s)) by done. unfold fill_page. mred.
    rewrite acquire_eq by done. mred. rewrite refcnt_set_eq by done. mred.
    rewrite (release_eq _ _ (k_held s)) by done. mred. unfold allocated_page, with_ref, filled. generalize (replicate (Z.to_nat PGSIZE) 5). intros c. destruct s. simpl. reflexivity.
Qed.

Lemma allocated_page_mem r s : k_mem (allocated_page r s) = filled r 5 (k_mem s).
Proof. reflexivity. Qed.

Lemma allocated_page_ref r s pg :
  r mod PGSIZE = 0 -> pg mod PGSIZE = 0 ->
  refcount (allocated_page r s) pg = if decide (pg = r) then 1 else refcount s pg.
Proof. intros. unfold allocated_page. by rewrite refcount_with_ref, refcount_set_mem. Qed.

Lemma allocated_page_spec r fl s :
  free_list (r :: fl) s -> free_list fl (allocated_page r s).
Proof.
  intros [He [Hc Hch] Hn Hp Hr]. apply NoDup_cons in Hn as [Hnin Hn].
  destruct (Hp r) as [Hal Hb]; [by left|].
  apply free_list_with_ref; [|done|done]. constructor; simpl; try done.
  - apply (chain_other_page (k_mem s) _ s _ _ r); [done|done| |by apply filled_other|done].
    intros pg Hin. apply Hp. by right.
  - intros pg Hin. apply Hp. by right.
  - intros pg Hin. apply Hr. by right.
Qed.

(** The state after kfree links page [pg] in. *)
Definition freed_page (pg : Z) (s : kstate) : kstate :=
  with_ref pg 0 (set_k_mem (store64 (filled pg 1 (k_mem s)) pg (k_freelist s)) (set_k_freelist pg s)).

Lemma kfree_eq fl s pg :
  free_list fl s -> unlocked s -> is_page s pg ->
  kfree pg s = if refcount s pg =? 1 then Ret tt (freed_page pg s)
               else Ret tt (with_ref pg (refcount s pg - 1) s).
Proof.
  intros [He _ _ _ _] [Hk Hl] Hp. unfold kfree. mred. pose proof Hp as [Hal [H1 H2]].
  rewrite (proj2 (Z.eqb_eq _ _) Hal), (proj2 (Z.ltb_ge _ _) H1), (proj2 (Z.leb_gt _ _) H2). mred.
  rewrite acquire_eq by done. mred. rewrite refcnt_get_eq by done. mred. rewrite refcnt_set_eq by done. mred.
  rewrite (release_eq _ _ (k_held s)) by done. mred.
  change (refcount (set_k_held _ s) pg) with (refcount s pg).
  replace (refcount s pg - 1 =? 0) with (refcount s pg =? 1)
    by (destruct (Z.eqb_spec (refcount s pg) 1), (Z.eqb_spec (refcount s pg - 1) 0); lia || done).
  destruct (Z.eqb_spec (refcount s pg) 1) as [Hr|]; mred; [|done].
  unfold fill_page. mred. rewrite acquire_eq by done. mred.
  rewrite (release_eq _ _ (k_held s)) by done. by rewrite Hr.
Qed.

Lemma freed_page_spec pg fl s :
  free_list fl s -> is_page s pg -> pg ∉ fl -> refcount s pg = 1 -> 0 <= k_freelist s < 2 ^ 64 ->
  free_list (pg :: fl) (freed_page pg s).
Proof.
  intros [He Hch Hn Hp Hr] Hpg Hnin Href H64. pose proof Hpg as [Hal Hb].
  set (m' := store64 (filled pg 1 (k_mem s)) pg (k_freelist s)).
  assert (Hoth : forall x, x < pg \/ pg + PGSIZE <= x -> m' !!! x = k_mem s !!! x).
  { intros x Hx. unfold m', store64. rewrite mem_write_lookup_total, length_le_bytes.
    rewrite decide_False by (unfold PGSIZE in *; lia). by apply filled_other. }
  constructor; simpl; try done.
  - split; [done|]. fold m'. assert (Hl : load64 m' pg = k_freelist s).
    { unfold m'. rewrite load64_store64_same. by apply Z.mod_small. }
    rewrite Hl. by apply (chain_other_page (k_mem s) m' s fl _ pg).
  - by constructor.
  - intros pg' [->|Hin]%elem_of_cons; [done|by apply Hp].
  - intros pg' [->|Hin]%elem_of_cons.
    + unfold freed_page. rewrite refcount_with_ref by done. by rewrite decide_True.
    + unfold freed_page. rewrite refcount_with_ref by (done || apply (Hp pg' Hin)).
      rewrite decide_False by (intros ->; done). by apply Hr.
Qed.

(** The head of the list is an address. *)
Lemma free_list_head fl s : free_list fl s -> 0 <= k_freelist s < 2 ^ 64.
Proof.
  intros [He Hc _ Hp _]. destruct fl as [|pg fl]; simpl in Hc; [by rewrite Hc|].
  destruct Hc as [-> _]. destruct (Hp pg) as [_ H]; [by left|].
  change (2 ^ 64) with 18446744073709551616. unfold PHYSTOP, KERNBASE in *. lia.
Qed.

(** C15. kalloc hands out the first free page, with one reference, filled with
    junk, and touches no other page or count; with no free page it returns 0
    and changes nothing. *)
Theorem kalloc_hands_out_page fl s :
  free_list fl s -> unlocked s ->
  match fl with
  | [] => kalloc s = Ret 0 s
  | r :: fl' => returns (kalloc s) (fun a s' =>
      a = r /\ is_page s r /\ free_list fl' s' /\ unlocked s' /\ user_same s s' /\ refcount s' r = 1 /\
      (forall pg, pg mod PGSIZE = 0 -> pg <> r -> refcount s' pg = refcount s pg) /\
      (forall x, x < r \/ r + PGSIZE <= x -> k_mem s' !!! x = k_mem s !!! x) /\
      (forall x, r <= x < r + PGSIZE -> k_mem s' !!! x = 5))
  end.
Proof.
  intros Hf Hu. rewrite (kalloc_eq fl) by done. destruct fl as [|r fl]; [done|].
  assert (Hr : is_page s r) by (apply (fl_page _ _ Hf); by left). pose proof Hr as [Hal _].
  simpl returns. split; [done|]. split; [done|]. split; [by apply allocated_page_spec|]. split; [exact Hu|].
  split; [by eexists _, _, _|]. split_and!.
  - rewrite allocated_page_ref by done. by rewrite decide_True.
  - intros pg Hpg Hne. rewrite allocated_page_ref by done. by rewrite decide_False.
  - by apply filled_other.
  - by apply filled_in.
Qed.

(** kfree drops one reference; with the last one the page goes to the head of
    the free list.  No other page's count or contents change, and a page that
    is still shared keeps its contents.  An address that is not an allocatable
    page panics. *)
Theorem kfree_drops_reference fl s pg :
  free_list fl s -> unlocked s ->
  (is_page s pg -> pg ∉ fl -> 1 <= refcount s pg ->
   returns (kfree pg s) (fun _ s' =>
     unlocked s' /\ user_same s s' /\ refcount s' pg = refcount s pg - 1 /\
     free_list (if refcount s pg =? 1 then pg :: fl else fl) s' /\
     (forall pg', pg' mod PGSIZE = 0 -> pg' <> pg -> refcount s' pg' = refcount s pg') /\
     (forall x, x < pg \/ pg + PGSIZE <= x \/ 1 < refcount s pg -> k_mem s' !!! x = k_mem s !!! x))) /\
  (~ is_page s pg -> kfree pg s = Panic "kfree").
Proof.
  intros Hf Hu. split.
  - intros Hp Hnin Href. rewrite (kfree_eq fl) by done. pose proof Hp as [Hal _].
    destruct (Z.eqb_spec (refcount s pg) 1) as [E|E]; simpl returns.
    + split; [exact Hu|]. split; [by eexists _, _, _|]. split_and!.
      * unfold freed_page. rewrite refcount_with_ref by done. rewrite decide_True by done. lia.
      * apply freed_page_spec; try done. by apply (free_list_head fl).
      * intros pg' Hpg' Hne. unfold freed_page. rewrite refcount_with_ref by done. by rewrite decide_False.
      * intros x Hx. simpl. unfold store64. rewrite mem_write_lookup_total, length_le_bytes.
        rewrite decide_False by (unfold PGSIZE in *; lia). apply filled_other. lia.
    + split; [exact Hu|]. split_and!; [| | | |done].
      * exists (k_mem s), (k_freelist s), (<[phys2ind pg := refcount s pg - 1]> (k_refcount s)). by destruct s.
      * rewrite refcount_with_ref by done. by rewrite decide_True.
      * by apply free_list_with_ref.
      * intros pg' Hpg' Hne. rewrite refcount_with_ref by done. by rewrite decide_False.
  - intros Hn. unfold kfree. mred.
    assert (Hb : negb (pg mod PGSIZE =? 0) || (pg <? k_end s) || (PHYSTOP <=? pg) = true); [|by rewrite Hb].
    apply not_false_is_true. intros H. apply Hn. rewrite !orb_false_iff, negb_false_iff in H. split; lia.
Qed.

(** ** kinit and getNumFreePages *)

Lemma foreach_zstep {S} (I : Z -> S -> Prop) (body : Z -> M S unit) a b d s :
  0 < d -> I a s ->
  (forall x s1, a <= x < b -> (x - a) mod d = 0 -> I x s1 -> returns (body x s1) (fun _ s2 => I (x + d) s2)) ->
  returns (foreach (zstep a b d) body s) (fun _ s' => exists x, a <= x /\ b <= x /\ (x - a) mod d = 0 /\
    (x < b + d \/ x = a) /\ I x s').
Proof.
  intros Hd HI Hb. eapply returns_mono.
  { apply (foreach_returns (fun l s1 => exists x, a <= x /\ (x - a) mod d = 0 /\ l = zstep x b d /\
      (x < b + d \/ x = a) /\ I x s1)).
    - exists a. split_and!; [lia|by rewrite Z.sub_diag|done|by right|done].
    - intros y l' s1 (x & Hx & Hm & Hl & Hlt & HIx). destruct (decide (x < b)).
      2:{ by rewrite zstep_nil in Hl by lia. }
      rewrite zstep_cons in Hl by lia. injection Hl as -> ->. eapply returns_mono; [by apply Hb|].
      intros u2 s2 H2. exists (x + d). split_and!; [lia| |done|left; lia|done].
      replace (x + d - a) with (x - a + 1 * d) by lia. by rewrite Z.mod_add by lia. }
  cbn beta. intros u1 s1 (x & Hx & Hm & Hl & Hlt & HIx). exists x. destruct (decide (x < b)).
  { by rewrite zstep_cons in Hl by lia. }
  split_and!; [lia|lia|done|done|done].
Qed.

Lemma PGROUNDUP_spec a :
  0 <= a -> a + PGSIZE - 1 < 2 ^ 64 ->
  PGROUNDUP a mod PGSIZE = 0 /\ a <= PGROUNDUP a < a + PGSIZE.
Proof.
  intros H0 H. unfold PGROUNDUP, u64.
  rewrite (Z.mod_small (a + PGSIZE - 1)) by (unfold PGSIZE in *; lia).
  unfold PGSIZE in *. change (4096 - 1) with (Z.ones 12). rewrite Z.ldiff_ones_r by lia.
  rewrite Z.shiftr_div_pow2, Z.shiftl_mul_pow2 by lia. change (2 ^ 12) with 4096. change 4095 with (4096 - 1).
  split; [by apply Z.mod_mul|]. pose proof (Z.div_mod (a + 4096 - 1) 4096 ltac:(lia)).
  pose proof (Z.mod_pos_bound (a + 4096 - 1) 4096 ltac:(lia)). lia.
Qed.

(** Freeing a fresh page, as freerange does. *)
Lemma freerange_step fl s pg :
  free_list fl s -> unlocked s -> is_page s pg -> pg ∉ fl ->
  returns ((acquire LRefcount;; refcnt_set (phys2ind pg) 1;; release LRefcount;; kfree pg) s) (fun _ s' =>
    free_list (pg :: fl) s' /\ unlocked s' /\ user_same s s').
Proof.
  intros Hf Hu Hp Hnin. pose proof Hp as [Hal _]. rewrite set_ref_eq; [|apply Hf|done|apply Hu].
  assert (Hf1 : free_list fl (with_ref pg 1 s)) by (by apply free_list_with_ref).
  assert (Hr : refcount (with_ref pg 1 s) pg = 1) by (rewrite refcount_with_ref by done; by rewrite decide_True).
  rewrite (kfree_eq fl) by done. rewrite Hr. change (1 =? 1) with true. simpl returns.
  split; [|split; [exact Hu|by eexists _, _, _]].
  apply freed_page_spec; try done. by apply (free_list_head fl).
Qed.

(** [fl] holds the pages of [a, x). *)
Definition pages_between (a x : Z) (fl : list Z) : Prop :=
  (forall pg, pg ∈ fl <-> a <= pg < x /\ pg mod PGSIZE = 0) /\
  Z.of_nat (length fl) = (x - a) / PGSIZE.

Lemma pages_between_nil a : pages_between a a [].
Proof.
  split; [|by rewrite Z.sub_diag]. intros pg. split; [by intros ?%not_elem_of_nil|lia].
Qed.

Lemma pages_between_cons a x fl :
  a <= x -> x mod PGSIZE = 0 -> pages_between a x fl -> pages_between a (x + PGSIZE) (x :: fl).
Proof.
  intros Hx Hal [Hin Hlen]. split.
  - intros pg. rewrite elem_of_cons, Hin. split.
    + intros [->|[H1 H2]]; (split; [unfold PGSIZE; lia|done]).
    + intros [H1 H2]. destruct (decide (pg = x)); [by left|]. right. split; [|done].
      destruct (page_gap pg x) as [H|H]; try done; unfold PGSIZE in *; lia.
  - rewrite length_cons. replace (x + PGSIZE - a) with (1 * PGSIZE + (x - a)) by lia.
    rewrite Z.div_add_l by done. lia.
Qed.

Lemma aligned_add a x : a mod PGSIZE = 0 -> (x - a) mod PGSIZE = 0 -> x mod PGSIZE = 0.
Proof.
  intros Ha Hx. apply Z.mod_divide in Ha, Hx; [|done|done]. apply Z.mod_divide; [done|].
  replace x with (x - a + a) by lia. by apply Z.divide_add_r.
Qed.

Lemma aligned_last x : x mod PGSIZE = 0 -> PHYSTOP - PGSIZE < x <= PHYSTOP -> x = PHYSTOP.
Proof.
  intros Hx H. destruct (decide (x = PHYSTOP)) as [|Hne]; [done|].
  destruct (page_gap x PHYSTOP) as [H1|H1]; try done; unfold PGSIZE in *; lia.
Qed.

Lemma freerange_spec s start :
  let a := PGROUNDUP start in
  a mod PGSIZE = 0 -> KERNBASE <= k_end s <= a -> a <= PHYSTOP -> free_list [] s -> unlocked s ->
  returns (freerange start PHYSTOP s) (fun _ s' => exists fl,
    free_list fl s' /\ unlocked s' /\ user_same s s' /\ pages_between a PHYSTOP fl).
Proof.
  intros a Hal He Hle Hf Hu. unfold freerange. fold a. eapply returns_mono.
  { apply (foreach_zstep (fun x s1 => x <= PHYSTOP /\ exists fl, free_list fl s1 /\ unlocked s1 /\
      user_same s s1 /\ pages_between a x fl)); [done| |].
    - split; [done|]. exists []. split; [done|]. split; [exact Hu|]. split; [done|apply pages_between_nil].
    - intros x s1 Hx Hm (Hxle & fl & Hf1 & Hu1 & Hs1 & Hpb).
      assert (Hend : k_end s1 = k_end s) by (by destruct Hs1 as (m & f & r & ->)).
      assert (Hxal : x mod PGSIZE = 0) by (by apply (aligned_add a)).
      eapply returns_mono.
      { apply (freerange_step fl); [done|done| |].
        - split; [done|]. rewrite Hend. unfold PGSIZE in *. lia.
        - rewrite (proj1 Hpb). lia. }
      cbn beta. intros _ s2 (Hf2 & Hu2 & Hs2). split; [lia|]. exists (x :: fl).
      split; [done|]. split; [done|]. split; [by etrans|]. apply pages_between_cons; [lia|done|done]. }
  cbn beta. intros _ s' (x & Hx & Hxb & Hm & _ & Hxle & fl & Hf' & Hu' & Hs' & Hpb).
  rewrite (aligned_last x) in Hpb; [by exists fl|by apply (aligned_add a)|lia].
Qed.

(** After kinit every page from the end of the kernel to PHYSTOP is free,
    exactly once, with reference count 0, and nothing else is. *)
Theorem kinit_frees_memory s :
  KERNBASE <= k_end s <= PHYSTOP -> k_freelist s = 0 -> unlocked s ->
  returns (kinit s) (fun _ s' => exists fl,
    free_list fl s' /\ unlocked s' /\ user_same s s' /\ (forall pg, pg ∈ fl <-> is_page s pg) /\
    Z.of_nat (length fl) = (PHYSTOP - PGROUNDUP (k_end s)) / PGSIZE).
Proof.
  intros He Hz Hu. unfold kinit. mred. set (s0 := set_k_refcount ∅ s).
  destruct (PGROUNDUP_spec (k_end s)) as [Hal Hra]; [unfold KERNBASE in *; lia| |].
  { change (2 ^ 64) with 18446744073709551616. unfold PHYSTOP, KERNBASE, PGSIZE in *. lia. }
  change (k_end s0) with (k_end s).
  assert (Hle : PGROUNDUP (k_end s) <= PHYSTOP).
  { destruct (decide (PGROUNDUP (k_end s) = PHYSTOP)) as [->|Hne]; [lia|].
    destruct (page_gap (PGROUNDUP (k_end s)) PHYSTOP) as [H|H]; try done; unfold PGSIZE in *; lia. }
  eapply returns_mono.
  { apply (freerange_spec s0); [done|simpl; lia|done| |exact Hu].
    constructor; simpl; try done; [lia|constructor|..]; by intros pg ?%not_elem_of_nil. }
  cbn beta. intros _ s' (fl & Hf & Hu' & Hs' & Hin & Hlen). exists fl. split; [done|]. split; [done|].
  split_and!; [| |done].
  - etrans; [|exact Hs']. exists (k_mem s), (k_freelist s), ∅. by destruct s.
  - intros pg. rewrite Hin. unfold is_page. split; intros [H1 H2]; (split; [|by try lia]); [done|].
    split; [|lia]. destruct (decide (pg = PGROUNDUP (k_end s))) as [->|Hne]; [lia|].
    destruct (page_gap pg (PGROUNDUP (k_end s))) as [H|H]; try done; unfold PGSIZE in *; lia.
Qed.

(** The list is never longer than page_refcount[], so the loop of
    getNumFreePages ends within its bound. *)
Lemma free_list_length fl s : free_list fl s -> (length fl <= Z.to_nat NPHYS_PAGES)%nat.
Proof.
  intros [He _ Hn Hp _].
  assert (Hnd : NoDup (phys2ind <$> fl)).
  { apply NoDup_alt. intros i j x Hi Hj. rewrite list_lookup_fmap in Hi, Hj.
    destruct (fl !! i) as [pg|] eqn:Ei, (fl !! j) as [pg'|] eqn:Ej; try done.
    simpl in Hi, Hj. assert (pg = pg').
    { apply phys2ind_inj; [apply (Hp pg)|apply (Hp pg')|congruence]; by eapply list_elem_of_lookup_2. }
    subst. by eapply NoDup_lookup. }
  rewrite <- (length_fmap phys2ind fl).
  etransitivity; [apply submseteq_length, NoDup_submseteq; [done|]|].
  2:{ unfold zrange. instantiate (1 := zrange 0 NPHYS_PAGES). unfold zrange.
      rewrite length_fmap, length_seq. lia. }
  intros x (pg & -> & Hin)%list_elem_of_fmap. apply elem_of_zrange.
  pose proof (phys2ind_range s pg He (Hp pg Hin)) as H. apply andb_true_iff in H. lia.
Qed.

(** getNumFreePages returns the number of free pages and changes nothing. *)
Theorem getNumFreePages_counts fl s :
  free_list fl s -> LKmem ∉ k_held s -> getNumFreePages s = Ret (Z.of_nat (length fl)) s.
Proof.
  intros Hf Hk. pose proof (free_list_length _ _ Hf) as Hlen. destruct Hf as [He Hc _ Hp _].
  unfold getNumFreePages. mred. rewrite acquire_eq by done. mred. set (s1 := set_k_held _ s).
  assert (Hloop : forall n fl' head c, chain (k_mem s) head fl' -> (forall pg, pg ∈ fl' -> is_page s pg) ->
    (length fl' < n)%nat ->
    loop n (fun '(r, count) => if r =? 0 then mret (inr count)
            else m ← gets k_mem; mret (inl (load64 m r, count + 1))) (head, c) s1 = Ret (c + Z.of_nat (length fl')) s1).
  { clear -He. intros n fl. revert n.
    induction fl as [|pg fl IH]; intros [|n] head c Hc Hp Hn; try (simpl in Hn; lia).
    - simpl in Hc. subst. simpl loop. mred. f_equal. simpl. lia.
    - destruct Hc as [-> Hc]. destruct (Hp pg) as [_ H]; [by left|]. simpl loop. mred.
      destruct (Z.eqb_spec pg 0) as [->|_]; [unfold KERNBASE in *; lia|]. mred.
      rewrite IH; [f_equal; simpl; lia|done| |simpl in Hn; lia]. intros pg' Hin. apply Hp. by right. }
  rewrite (Hloop _ fl) by (done || lia). mred.
  rewrite (release_eq _ _ (k_held s)) by done. mred. f_equal. by destruct s.
Qed.
