(* ===== verification/Vm.v ===== *)
(** * Page tables and user memory (kernel/vm.c)

    Sv39 page tables held in the byte memory: a page-table page is 512 64-bit
    entries, a pagetable_t is the physical address of one, a pte_t* is the
    address of an entry, 0 is the null pointer. *)

From S2P Require Import Prelude State Spinlock CString Usercopy Kalloc.

Definition PTE_V : Z := 1.
Definition PTE_R : Z := 2.
Definition PTE_W : Z := 4.
Definition PTE_X : Z := 8.
Definition PTE_U : Z := 16.
Definition PA2PTE (pa : Z) : Z := Z.shiftl (Z.shiftr pa 12) 10.
Definition PTE2PA (pte : Z) : Z := Z.shiftl (Z.shiftr pte 10) 12.
Definition PTE_FLAGS (pte : Z) : Z := Z.land pte 0x3FF.
Definition PXSHIFT (level : Z) : Z := PGSHIFT + 9 * level.
Definition PX (level va : Z) : Z := Z.land (Z.shiftr va (PXSHIFT level)) 0x1FF.

(** (pte & flag) != 0. *)
Definition has (pte flag : Z) : bool := negb (Z.land pte flag =? 0).

Definition pte_load (a : Z) : K Z := m ← gets k_mem; mret (load64 m a).
Definition pte_store (a x : Z) : K unit :=
  modify (fun s => set_k_mem (store64 (k_mem s) a x) s).

(** &pagetable[PX(level, va)]. *)
Definition pte_addr (pagetable level va : Z) : Z := pagetable + 8 * PX level va.

(** One iteration of the loop of walk: the table of the next level, or
    [None] where walk returns 0. *)
Definition walk_level (alloc : bool) (pagetable level va : Z) : K (option Z) :=
  let pte := pte_addr pagetable level va in
  v ← pte_load pte;
  if has v PTE_V then mret (Some (PTE2PA v))
  else if negb alloc then mret None
  else
    page ← kalloc;
    if page =? 0 then mret None else
    fill_page page 0;;
    pte_store pte (Z.lor (PA2PTE page) PTE_V);;
    mret (Some page).

Definition walk (pagetable va : Z) (alloc : bool) : K Z :=
  if MAXVA <=? va then panic "walk" else
  t1 ← walk_level alloc pagetable 2 va;
  match t1 with
  | None => mret 0
  | Some t1 =>
      t0 ← walk_level alloc t1 1 va;
      match t0 with
      | None => mret 0
      | Some t0 => mret (pte_addr t0 0 va)
      end
  end.

Definition walkaddr (pagetable va : Z) : K Z :=
  if MAXVA <=? va then mret 0 else
  pte ← walk pagetable va false;
  if pte =? 0 then mret 0 else
  v ← pte_load pte;
  if negb (has v PTE_V) then mret 0
  else if negb (has v PTE_U) then mret 0
  else mret (PTE2PA v).

Definition mappages (pagetable va size pa perm : Z) : K Z :=
  if negb (va mod PGSIZE =? 0) then panic "mappages: va not aligned" else
  if negb (size mod PGSIZE =? 0) then panic "mappages: size not aligned" else
  if size =? 0 then panic "mappages: size" else
  let last := u64 (va + size - PGSIZE) in
  loop (S (Z.to_nat (size / PGSIZE))) (fun '(a, pa) =>
    pte ← walk pagetable a true;
    if pte =? 0 then mret (inr (-1)) else
    v ← pte_load pte;
    if has v PTE_V then panic "mappages: remap" else
    pte_store pte (Z.lor (Z.lor (PA2PTE pa) perm) PTE_V);;
    if a =? last then mret (inr 0)
    else mret (inl (u64 (a + PGSIZE), u64 (pa + PGSIZE)))) (va, pa).

Definition uvmcreate : K Z :=
  pagetable ← kalloc;
  if pagetable =? 0 then mret 0 else
  fill_page pagetable 0;;
  mret pagetable.

Definition uvmunmap (pagetable va npages : Z) (do_free : bool) : K unit :=
  if negb (va mod PGSIZE =? 0) then panic "uvmunmap: not aligned" else
  foreach (zstep va (va + npages * PGSIZE) PGSIZE) (fun a =>
    pte ← walk pagetable a false;
    if pte =? 0 then mret tt else
    v ← pte_load pte;
    if negb (has v PTE_V) then mret tt else
    when do_free (kfree (PTE2PA v));;
    pte_store pte 0).

Definition uvmdealloc (pagetable oldsz newsz : Z) : K Z :=
  if oldsz <=? newsz then mret oldsz else
  when (PGROUNDUP newsz <? PGROUNDUP oldsz)
    (let npages := s32 ((PGROUNDUP oldsz - PGROUNDUP newsz) / PGSIZE) in
     uvmunmap pagetable (PGROUNDUP newsz) npages true);;
  mret newsz.

Definition uvmalloc (pagetable oldsz newsz xperm : Z) : K Z :=
  if newsz <? oldsz then mret oldsz else
  let oldsz := PGROUNDUP oldsz in
  r ← forl (zstep oldsz newsz PGSIZE) (fun a =>
    mem ← kalloc;
    if mem =? 0 then uvmdealloc pagetable a oldsz;; mret (Some 0) else
    fill_page mem 0;;
    e ← mappages pagetable a PGSIZE mem (Z.lor (Z.lor PTE_R PTE_U) xperm);
    if negb (e =? 0) then
      kfree mem;; uvmdealloc pagetable a oldsz;; mret (Some 0)
    else mret None);
  mret (default newsz r).

(** The recursion of freewalk, bounded by the number of levels below. *)
Fixpoint freewalk (levels : nat) (pagetable : Z) : K unit :=
  match levels with
  | O => out_of_fuel
  | S levels' =>
      foreach (zrange 0 512) (fun i =>
        pte ← pte_load (pagetable + 8 * i);
        if has pte PTE_V && negb (has pte (Z.lor (Z.lor PTE_R PTE_W) PTE_X)) then
          freewalk levels' (PTE2PA pte);;
          pte_store (pagetable + 8 * i) 0
        else if has pte PTE_V then panic "freewalk: leaf"
        else mret tt);;
      kfree pagetable
  end.

Definition uvmfree (pagetable sz : Z) : K unit :=
  when (0 <? sz) (uvmunmap pagetable 0 (PGROUNDUP sz / PGSIZE) true);;
  freewalk 3 pagetable.

Definition uvmcopy (old new sz : Z) : K Z :=
  r ← forl (zstep 0 sz PGSIZE) (fun i =>
    pte ← walk old i false;
    if pte =? 0 then mret None else
    v ← pte_load pte;
    if negb (has v PTE_V) then mret None else
    let pa := PTE2PA v in
    let flags := PTE_FLAGS v in
    e ← (if has flags PTE_W then
           pte_store pte (Z.ldiff v PTE_W);;
           mappages new i PGSIZE pa (Z.ldiff flags PTE_W)
         else mappages new i PGSIZE pa flags);
    if negb (e =? 0) then mret (Some i) else incref pa;; mret None);
  match r with
  | None => mret 0
  | Some i =>
      foreach (zstep 0 i PGSIZE) (fun j => uvmunmap new j 1 true);;
      mret (-1)
  end.

Definition uvmclear (pagetable va : Z) : K unit :=
  pte ← walk pagetable va false;
  if pte =? 0 then panic "uvmclear" else
  v ← pte_load pte;
  pte_store pte (Z.ldiff v PTE_U).

Definition ismapped (pagetable va : Z) : K bool :=
  pte ← walk pagetable va false;
  if pte =? 0 then mret false else
  v ← pte_load pte; mret (has v PTE_V).

Definition vmfault (pagetable va : Z) (read : bool) : K Z :=
  p ← myproc;
  pp ← get_proc p;
  if p_sz pp <=? va then mret 0 else
  let va := PGROUNDDOWN va in
  b ← ismapped pagetable va;
  if b : bool then mret 0 else
  mem ← kalloc;
  if mem =? 0 then mret 0 else
  fill_page mem 0;;
  e ← mappages (p_pagetable pp) va PGSIZE mem (Z.lor (Z.lor PTE_W PTE_U) PTE_R);
  if negb (e =? 0) then kfree mem;; mret 0 else mret mem.

Definition cowfault (pagetable va : Z) : K Z :=
  pte ← walk pagetable va false;
  if pte =? 0 then mret (-1) else
  v ← pte_load pte;
  if negb (has v PTE_V) || negb (has v PTE_U) then mret (-1) else
  if has v PTE_X then mret (-1) else
  let pa := PTE2PA v in
  let flags := PTE_FLAGS v in
  if has v PTE_W then mret 0 else
  let va_aligned := PGROUNDDOWN va in
  ref ← getref pa;
  if 1 <? ref then
    mem ← kalloc;
    if mem =? 0 then mret (-1) else
    modify (fun s => set_k_mem (memmove (k_mem s) mem pa (Z.to_nat PGSIZE)) s);;
    uvmunmap pagetable va_aligned 1 false;;
    e ← mappages pagetable va_aligned PGSIZE mem (Z.lor (Z.ldiff flags PTE_W) PTE_W);
    if negb (e =? 0) then kfree mem;; mret (-1) else
    decref pa;;
    mret 0
  else
    pte_store pte (Z.lor v PTE_W);;
    mret 0.

(** copyout(pagetable, dstva, src, len) with [src] the len bytes to copy. *)
Definition copyout (pagetable dstva : Z) (src : list Z) : K Z :=
  loop (length src + 1) (fun '(dstva, src) =>
    match src with
    | [] => mret (inr 0)
    | _ =>
        let va0 := PGROUNDDOWN dstva in
        if MAXVA <=? va0 then mret (inr (-1)) else
        pa0 ← walkaddr pagetable va0;
        pa0 ← (if pa0 =? 0 then vmfault pagetable va0 false else mret pa0);
        if pa0 =? 0 then mret (inr (-1)) else
        pte ← walk pagetable va0 false;
        v ← (if pte =? 0 then mret 0 else pte_load pte);
        pa0 ← (if has v PTE_V && has v PTE_U && negb (has v PTE_W) then
                 e ← cowfault pagetable va0;
                 if negb (e =? 0) then mret 0 else walkaddr pagetable va0
               else mret pa0);
        if pa0 =? 0 then mret (inr (-1)) else
        let n := Z.min (PGSIZE - (dstva - va0)) (Z.of_nat (length src)) in
        modify (fun s => set_k_mem
          (mem_write (k_mem s) (pa0 + (dstva - va0)) (take (Z.to_nat n) src)) s);;
        mret (inl (u64 (va0 + PGSIZE), drop (Z.to_nat n) src))
    end) (dstva, src).

(** copyin(pagetable, dst, srcva, len): the result and the bytes stored at
    dst, all [len] of them when the result is 0. *)
Definition copyin (pagetable srcva len : Z) : K (Z * list Z) :=
  loop (Z.to_nat len + 1) (fun '(srcva, len, dst) =>
    if len =? 0 then mret (inr (0, dst)) else
    let va0 := PGROUNDDOWN srcva in
    pa0 ← walkaddr pagetable va0;
    pa0 ← (if pa0 =? 0 then vmfault pagetable va0 false else mret pa0);
    if pa0 =? 0 then mret (inr (-1, dst)) else
    let n := Z.min (PGSIZE - (srcva - va0)) len in
    m ← gets k_mem;
    mret (inl (u64 (va0 + PGSIZE), len - n,
               dst ++ mem_read m (pa0 + (srcva - va0)) (Z.to_nat n))))
    (srcva, len, []).

(** The inner loop of copyinstr: copy up to [n] bytes from [p], stop at a
    NUL (which is copied); whether one was met. *)
Fixpoint copy_until_nul (m : gmap Z Z) (p : Z) (n : nat) : list Z * bool :=
  match n with
  | O => ([], false)
  | S n' =>
      if m !!! p =? 0 then ([0], true)
      else let '(bs, got_null) := copy_until_nul m (p + 1) n' in (m !!! p :: bs, got_null)
  end.

(** copyinstr(pagetable, dst, srcva, max): the result and the bytes stored. *)
Definition copyinstr (pagetable srcva max : Z) : K (Z * list Z) :=
  loop (Z.to_nat max + 1) (fun '(srcva, max, dst) =>
    if negb (0 <? max) then mret (inr (-1, dst)) else
    let va0 := PGROUNDDOWN srcva in
    pa0 ← walkaddr pagetable va0;
    if pa0 =? 0 then mret (inr (-1, dst)) else
    let n := Z.min (PGSIZE - (srcva - va0)) max in
    m ← gets k_mem;
    let '(bs, got_null) := copy_until_nul m (pa0 + (srcva - va0)) (Z.to_nat n) in
    if got_null : bool then mret (inr (0, dst ++ bs))
    else mret (inl (u64 (va0 + PGSIZE), max - n, dst ++ bs)))
    (srcva, max, []).

(** ** Frame properties: vm.c changes memory and the page allocator only *)

Lemma frames_pte_load a : frames (pte_load a).
Proof. unfold pte_load. solve_frames. Qed.
Lemma frames_pte_store a x : frames (pte_store a x).
Proof. apply frames_set_mem. Qed.
#[export] Hint Resolve frames_pte_load frames_pte_store : frames.

Lemma frames_walk pt va alloc : frames (walk pt va alloc).
Proof. unfold walk, walk_level. solve_frames. Qed.
#[export] Hint Resolve frames_walk : frames.

Lemma frames_walkaddr pt va : frames (walkaddr pt va).
Proof. unfold walkaddr. solve_frames. Qed.
Lemma frames_mappages pt va size pa perm : frames (mappages pt va size pa perm).
Proof. unfold mappages. solve_frames. Qed.
Lemma frames_uvmunmap pt va n fr : frames (uvmunmap pt va n fr).
Proof. unfold uvmunmap. solve_frames. Qed.
Lemma frames_ismapped pt va : frames (ismapped pt va).
Proof. unfold ismapped. solve_frames. Qed.
#[export] Hint Resolve frames_walkaddr frames_mappages frames_uvmunmap frames_ismapped : frames.

Lemma frames_vmfault pt va rd : frames (vmfault pt va rd).
Proof. unfold vmfault. solve_frames. Qed.
Lemma frames_cowfault pt va : frames (cowfault pt va).
Proof. unfold cowfault. solve_frames. Qed.
#[export] Hint Resolve frames_vmfault frames_cowfault : frames.

Lemma frames_copyout pt va src : frames (copyout pt va src).
Proof. unfold copyout. solve_frames. Qed.
Lemma frames_copyin pt va len : frames (copyin pt va len).
Proof. unfold copyin. solve_frames. Qed.
Lemma frames_copyinstr pt va max : frames (copyinstr pt va max).
Proof. unfold copyinstr. solve_frames. Qed.

Lemma PGROUNDDOWN_eq a : PGROUNDDOWN a = a - a mod PGSIZE.
Proof.
  unfold PGROUNDDOWN, PGSIZE. change (4096 - 1) with (Z.ones 12). change 4096 with (2 ^ 12).
  rewrite Z.ldiff_ones_r, Z.shiftr_div_pow2, Z.shiftl_mul_pow2, Z.mod_eq by lia. lia.
Qed.

Lemma copyin_length pt va len s bs s' :
  0 <= len -> copyin pt va len s = Ret (0, bs) s' -> length bs = Z.to_nat len.
Proof.
  intros Hlen H. unfold copyin in H.
  refine (loop_partial (fun '(_, l, dst) _ => 0 <= l /\ Z.of_nat (length dst) + l = len)
            (fun r _ => r.1 = 0 -> length r.2 = Z.to_nat len) _ _ _ _ _ _ H _ _ eq_refl).
  { simpl. lia. }
  clear H s s' bs. intros [[srcva l] dst] s1 r s2 [Hl Hd] H.
  destruct (Z.eqb_spec l 0) as [->|Hl0]; mred in H.
  { injection H as <- <-. simpl. intros _. lia. }
  apply obind_Ret_inv in H as (pa0 & s3 & _ & H).
  apply obind_Ret_inv in H as (pa1 & s4 & _ & H).
  destruct (pa1 =? 0); mred in H; injection H as <- <-; simpl; [done|].
  rewrite length_app, length_mem_read.
  assert (0 < PGSIZE - (srcva - PGROUNDDOWN srcva)) as Hp.
  { rewrite PGROUNDDOWN_eq. pose proof (Z.mod_pos_bound srcva PGSIZE).
    unfold PGSIZE in *. lia. }
  lia.
Qed.

(** user memory, as the file system sees it, is vm.c *)
#[export] Instance vm_usercopy : UserCopy := {
  ucopyout := copyout;
  ucopyin := copyin;
  ucopyinstr := copyinstr;
  ucopyout_frame pt va bs := frames_copyout pt va bs;
  ucopyin_frame pt va n := frames_copyin pt va n;
  ucopyinstr_frame pt va n := frames_copyinstr pt va n;
  ucopyin_length := copyin_length;
}.
