(* ===== verification/Cow.v ===== *)
(** * Copy-on-write: the page-fault path

    A virtual address is translated by following three page-table entries.
    [vpath] is that walk as a function of memory; cowfault is specified on it:
    a shared read-only page is replaced by a private writable copy. *)

From S2P Require Import Prelude State Spinlock CString Usercopy Kalloc Vm Pages.

#[local] Opaque mem_write memmove mem_read.

(** ** The walk as a function *)

(** The addresses of the three entries for [va], when the upper two are
    valid. *)
Definition vpath (m : gmap Z Z) (pt va : Z) : option (Z * Z * Z) :=
  let p2 := pte_addr pt 2 va in
  if negb (has (load64 m p2) PTE_V) then None else
  let p1 := pte_addr (PTE2PA (load64 m p2)) 1 va in
  if negb (has (load64 m p1) PTE_V) then None else
  Some (p2, p1, pte_addr (PTE2PA (load64 m p1)) 0 va).

Lemma walk_found pt va alloc s p2 p1 p0 :
  va < MAXVA -> vpath (k_mem s) pt va = Some (p2, p1, p0) -> walk pt va alloc s = Ret p0 s.
Proof.
  intros Hva Hp. unfold walk. rewrite (proj2 (Z.leb_gt _ _) Hva). unfold walk_level, pte_load. mred.
  unfold vpath in Hp. destruct (has (load64 (k_mem s) (pte_addr pt 2 va)) PTE_V) eqn:E2; [|done].
  simpl in Hp. mred. destruct (has (load64 (k_mem s) (pte_addr _ 1 va)) PTE_V) eqn:E1; [|done].
  injection Hp as <- <- <-. done.
Qed.

Lemma walk_missing pt va s :
  va < MAXVA -> vpath (k_mem s) pt va = None -> walk pt va false s = Ret 0 s.
Proof.
  intros Hva Hp. unfold walk. rewrite (proj2 (Z.leb_gt _ _) Hva). unfold walk_level, pte_load. mred.
  unfold vpath in Hp. destruct (has (load64 (k_mem s) (pte_addr pt 2 va)) PTE_V) eqn:E2; [|done].
  simpl in Hp. mred. by destruct (has (load64 (k_mem s) (pte_addr _ 1 va)) PTE_V) eqn:E1.
Qed.

(** The walk depends on the two upper entries only. *)
Lemma vpath_ext m m' pt va p2 p1 p0 :
  vpath m pt va = Some (p2, p1, p0) -> load64 m' p2 = load64 m p2 -> load64 m' p1 = load64 m p1 ->
  vpath m' pt va = Some (p2, p1, p0).
Proof.
  unfold vpath. intros Hp H2 H1. destruct (has (load64 m (pte_addr pt 2 va)) PTE_V) eqn:E2; [|done].
  simpl in Hp. destruct (has (load64 m (pte_addr _ 1 va)) PTE_V) eqn:E1; [|done].
  injection Hp as <- <- <-. rewrite H2, E2. simpl. by rewrite H1, E1.
Qed.

(** ** Entries *)

Lemma PX_rounddown level va : 0 <= level -> PX level (PGROUNDDOWN va) = PX level va.
Proof.
  intros Hl. unfold PX, PXSHIFT, PGSHIFT. f_equal. rewrite PGROUNDDOWN_eq. unfold PGSIZE.
  apply Z.bits_inj'. intros n Hn. rewrite !Z.shiftr_spec by done.
  replace (va - va mod 4096) with (Z.shiftl (Z.shiftr va 12) 12).
  - rewrite Z.shiftl_spec by lia. rewrite Z.shiftr_spec by lia. f_equal. lia.
  - rewrite Z.shiftr_div_pow2, Z.shiftl_mul_pow2 by lia. change (2 ^ 12) with 4096.
    pose proof (Z.div_mod va 4096). lia.
Qed.

Lemma vpath_rounddown m pt va : vpath m pt (PGROUNDDOWN va) = vpath m pt va.
Proof. unfold vpath, pte_addr. by rewrite !PX_rounddown by lia. Qed.

Lemma PTE2PA_mk pa flags :
  pa mod PGSIZE = 0 -> 0 <= flags < 1024 -> PTE2PA (Z.lor (PA2PTE pa) flags) = pa.
Proof.
  intros Hal Hf. unfold PTE2PA, PA2PTE. rewrite Z.shiftr_lor.
  rewrite (Z.shiftr_div_pow2 flags), Z.div_small, Z.lor_0_r by (change (2 ^ 10) with 1024; lia || lia).
  apply Z.mod_divide in Hal as [k ->]; [|done]. unfold PGSIZE.
  rewrite Z.shiftr_shiftl_l by lia. change (10 - 10) with 0. rewrite Z.shiftl_0_r.
  rewrite Z.shiftr_div_pow2, Z.shiftl_mul_pow2 by lia. change (2 ^ 12) with 4096. by rewrite Z.div_mul.
Qed.

Lemma has_bit v k : 0 <= k -> has v (2 ^ k) = Z.testbit v k.
Proof.
  intros Hk. unfold has. destruct (Z.testbit v k) eqn:E.
  - apply negb_true_iff, Z.eqb_neq. intros H. apply (f_equal (fun z => Z.testbit z k)) in H.
    rewrite Z.land_spec, Z.pow2_bits_true, E, Z.bits_0 in H by done. done.
  - apply negb_false_iff, Z.eqb_eq, Z.bits_inj'. intros n Hn. rewrite Z.land_spec, Z.bits_0.
    destruct (decide (n = k)) as [->|]; [by rewrite E|].
    rewrite Z.pow2_bits_false by done. apply andb_false_r.
Qed.

Lemma PTE_FLAGS_bounds v : 0 <= PTE_FLAGS v < 1024.
Proof.
  unfold PTE_FLAGS. change 1023 with (Z.ones 10). rewrite Z.land_ones by lia.
  change (2 ^ 10) with 1024. apply Z.mod_pos_bound. lia.
Qed.

Lemma lor_bounds a b n : 0 <= n -> 0 <= a < 2 ^ n -> 0 <= b < 2 ^ n -> 0 <= Z.lor a b < 2 ^ n.
Proof.
  intros Hn Ha Hb. assert (H : 0 <= Z.lor a b) by (apply Z.lor_nonneg; lia). split; [done|].
  destruct (Z.eq_dec (Z.lor a b) 0) as [->|Hne]; [by apply Z.pow_pos_nonneg|].
  apply Z.log2_lt_pow2; [lia|]. rewrite Z.log2_lor by lia.
  assert (Hl : forall x, 0 <= x < 2 ^ n -> x <> 0 -> Z.log2 x < n) by (intros x Hx Hx0; apply Z.log2_lt_pow2; lia).
  destruct (Z.eq_dec a 0) as [->|], (Z.eq_dec b 0) as [->|]; [done|..]; apply Z.max_lub_lt; auto.
  - specialize (Hl b Hb n0). pose proof (Z.log2_nonneg b). simpl. lia.
  - specialize (Hl a Ha n0). pose proof (Z.log2_nonneg a). simpl. lia.
Qed.

Lemma flags_writable_bounds v : 0 <= Z.lor (PTE_FLAGS v) PTE_W < 1024.
Proof. apply (lor_bounds _ _ 10); [lia|apply PTE_FLAGS_bounds|done]. Qed.

(** The permissions cowfault passes to mappages are the old ones plus W. *)
Lemma cow_perm v :
  has v PTE_V = true ->
  Z.lor (Z.lor (Z.ldiff (PTE_FLAGS v) PTE_W) PTE_W) PTE_V = Z.lor (PTE_FLAGS v) PTE_W.
Proof.
  intros HV. change PTE_V with (2 ^ 0) in *. change PTE_W with (2 ^ 2). rewrite has_bit in HV by lia.
  apply Z.bits_inj'. intros n Hn. unfold PTE_FLAGS. change 1023 with (Z.ones 10).
  rewrite !Z.lor_spec, Z.ldiff_spec, Z.land_spec, !Z.pow2_bits_eqb by lia.
  destruct (Z.eqb_spec 2 n) as [<-|H2]; cbn [negb].
  { by rewrite !orb_true_r. }
  destruct (Z.eqb_spec 0 n) as [<-|H0]; [rewrite HV|]; by rewrite ?orb_false_r, ?andb_true_r.
Qed.

Definition mkpte (pa flags : Z) : Z := Z.lor (PA2PTE pa) flags.

Lemma mkpte_bounds s pg flags :
  KERNBASE <= k_end s -> is_page s pg -> 0 <= flags < 1024 -> 0 <= mkpte pg flags < 2 ^ 64.
Proof.
  intros He [_ Hp] Hf. unfold mkpte. assert (0 <= pg < 2 ^ 32).
  { change (2 ^ 32) with 4294967296. unfold PHYSTOP, KERNBASE in *. lia. }
  assert (0 <= PA2PTE pg < 2 ^ 32).
  { unfold PA2PTE. rewrite Z.shiftr_div_pow2, Z.shiftl_mul_pow2 by lia.
    change (2 ^ 12) with 4096. change (2 ^ 10) with 1024. change (2 ^ 32) with 4294967296 in *.
    pose proof (Z.div_pos pg 4096). assert (pg / 4096 < 1048576) by (apply Z.div_lt_upper_bound; lia). lia. }
  destruct (lor_bounds (PA2PTE pg) flags 32) as [H1 H2]; [lia|done| |].
  { change (2 ^ 32) with 4294967296. lia. }
  split; [done|]. apply (Z.lt_le_trans _ (2 ^ 32)); [done|by apply Z.pow_le_mono_r].
Qed.

(** ** One page *)

Lemma uvmunmap_one pt va s p2 p1 p0 :
  va mod PGSIZE = 0 -> va < MAXVA -> vpath (k_mem s) pt va = Some (p2, p1, p0) -> p0 <> 0 ->
  has (load64 (k_mem s) p0) PTE_V = true ->
  uvmunmap pt va 1 false s = Ret tt (set_k_mem (store64 (k_mem s) p0 0) s).
Proof.
  intros Hal Hva Hp Hne HV. unfold uvmunmap. rewrite (proj2 (Z.eqb_eq _ _) Hal). mred.
  rewrite zstep_cons by (unfold PGSIZE; lia). rewrite zstep_nil by (unfold PGSIZE; lia).
  simpl foreach. mred. rewrite (walk_found _ _ _ _ _ _ _ Hva Hp). mred.
  rewrite (proj2 (Z.eqb_neq _ _) Hne). unfold pte_load, pte_store. mred. by rewrite HV.
Qed.

Lemma mappages_one pt va pa perm s p2 p1 p0 :
  0 <= va < MAXVA -> va mod PGSIZE = 0 -> vpath (k_mem s) pt va = Some (p2, p1, p0) -> p0 <> 0 ->
  has (load64 (k_mem s) p0) PTE_V = false ->
  mappages pt va PGSIZE pa perm s =
    Ret 0 (set_k_mem (store64 (k_mem s) p0 (Z.lor (Z.lor (PA2PTE pa) perm) PTE_V)) s).
Proof.
  intros Hva Hal Hp Hne HV. unfold mappages. rewrite (proj2 (Z.eqb_eq _ _) Hal).
  change (PGSIZE mod PGSIZE =? 0) with true. change (PGSIZE =? 0) with false.
  change (S (Z.to_nat (PGSIZE / PGSIZE))) with 2%nat. mred. simpl loop. mred.
  rewrite (walk_found _ _ _ _ _ _ _ (proj2 Hva) Hp). mred.
  rewrite (proj2 (Z.eqb_neq _ _) Hne). unfold pte_load, pte_store. mred. rewrite HV. mred.
  replace (u64 (va + PGSIZE - PGSIZE)) with va; [by rewrite Z.eqb_refl|].
  unfold u64. rewrite Z.mod_small; [lia|]. unfold MAXVA in *. change (2 ^ 64) with 18446744073709551616.
  unfold PGSIZE. simpl in Hva. lia.
Qed.

(** ** cowfault *)

(** An entry address away from page [pg]. *)
Definition off_page (pg a : Z) : Prop := a + 8 <= pg \/ pg + PGSIZE <= a.

(** [va] is mapped through the entries [p2], [p1], [p0], the last being [v];
    the entries are distinct words outside the free pages [fl]. *)
Record mapped (fl : list Z) (pt va p2 p1 p0 v : Z) (s : kstate) : Prop := {
  mp_va : 0 <= va < MAXVA;
  mp_path : vpath (k_mem s) pt va = Some (p2, p1, p0);
  mp_pte : load64 (k_mem s) p0 = v;
  mp_null : p0 <> 0;
  mp_align : p0 mod 8 = 0 /\ p1 mod 8 = 0 /\ p2 mod 8 = 0;
  mp_distinct : p0 <> p1 /\ p0 <> p2;
  mp_off pg a : pg ∈ fl -> a = p0 \/ a = p1 \/ a = p2 -> off_page pg a;
}.

(** A user page mapped read-only and not executable. *)
Definition cow_entry (s : kstate) (v : Z) : Prop :=
  has v PTE_V = true /\ has v PTE_U = true /\ has v PTE_X = false /\ has v PTE_W = false /\
  is_page s (PTE2PA v).

Lemma load64_off_page m m' pg a :
  off_page pg a -> (forall x, x < pg \/ pg + PGSIZE <= x -> m' !!! x = m !!! x) -> load64 m' a = load64 m a.
Proof. intros Ho Hm. apply load64_ext. intros x Hx. apply Hm. unfold off_page, PGSIZE in *. lia. Qed.

Lemma store64_other m a x v : x < a \/ a + 8 <= x -> store64 m a v !!! x = m !!! x.
Proof.
  intros H. unfold store64. rewrite mem_write_lookup_total, length_le_bytes, decide_False; [done|]. simpl. lia.
Qed.

Lemma getref_eq s pg :
  KERNBASE <= k_end s -> is_page s pg -> LRefcount ∉ k_held s -> getref pg s = Ret (refcount s pg) s.
Proof.
  intros He Hp Hh. unfold getref. mred. rewrite acquire_eq by done. mred. rewrite refcnt_get_eq by done. mred.
  rewrite (release_eq _ _ (k_held s)) by done. mred. unfold refcount. f_equal. by destruct s.
Qed.

Lemma decref_eq s pg :
  KERNBASE <= k_end s -> is_page s pg -> LRefcount ∉ k_held s ->
  decref pg s = Ret tt (with_ref pg (refcount s pg - 1) s).
Proof.
  intros He Hp Hh. unfold decref. mred. rewrite acquire_eq by done. mred. rewrite refcnt_get_eq by done. mred.
  rewrite refcnt_set_eq by done. mred. by rewrite (release_eq _ _ (k_held s)) by done.
Qed.

#[local] Opaque load64 store64 filled.

(** The guards of cowfault, passed by a copy-on-write entry. *)
Lemma cowfault_guards fl pt va p2 p1 p0 v s :
  mapped fl pt va p2 p1 p0 v s -> cow_entry s v -> KERNBASE <= k_end s -> LRefcount ∉ k_held s ->
  cowfault pt va s =
    (if 1 <? refcount s (PTE2PA v) then
       mem ← kalloc;
       if mem =? 0 then mret (-1) else
       modify (fun s => set_k_mem (memmove (k_mem s) mem (PTE2PA v) (Z.to_nat PGSIZE)) s);;
       uvmunmap pt (PGROUNDDOWN va) 1 false;;
       e ← mappages pt (PGROUNDDOWN va) PGSIZE mem (Z.lor (Z.ldiff (PTE_FLAGS v) PTE_W) PTE_W);
       if negb (e =? 0) then kfree mem;; mret (-1) else
       decref (PTE2PA v);;
       mret 0
     else pte_store p0 (Z.lor v PTE_W);; mret 0) s.
Proof.
  intros Hm (HV & HU & HX & HW & Hp) He Hh. unfold cowfault. mred.
  rewrite (walk_found _ _ _ _ _ _ _ (proj2 (mp_va _ _ _ _ _ _ _ _ Hm)) (mp_path _ _ _ _ _ _ _ _ Hm)). mred.
  rewrite (proj2 (Z.eqb_neq _ _) (mp_null _ _ _ _ _ _ _ _ Hm)). unfold pte_load. mred.
  rewrite (mp_pte _ _ _ _ _ _ _ _ Hm), HV, HU, HX, HW. mred. rewrite getref_eq by done. mred.
  by destruct (1 <? refcount s (PTE2PA v)).
Qed.

(** The memory after the copy: page [r] holds what page [pa] held, and entry
    [p0] maps it. *)
Definition copied (r pa p0 v : Z) (m : gmap Z Z) : gmap Z Z :=
  store64 (store64 (memmove (filled r 5 m) r pa (Z.to_nat PGSIZE)) p0 0) p0
    (mkpte r (Z.lor (PTE_FLAGS v) PTE_W)).

Lemma copied_page_other r pa m x :
  x < r \/ r + PGSIZE <= x -> memmove (filled r 5 m) r pa (Z.to_nat PGSIZE) !!! x = m !!! x.
Proof.
  intros H. rewrite memmove_lookup_total, decide_False by (unfold PGSIZE in *; lia). by apply filled_other.
Qed.

Lemma copied_other r pa p0 v m x :
  x < r \/ r + PGSIZE <= x -> x < p0 \/ p0 + 8 <= x -> copied r pa p0 v m !!! x = m !!! x.
Proof. intros H1 H2. unfold copied. rewrite !store64_other by done. by apply copied_page_other. Qed.

Lemma copied_page r pa p0 v m i :
  r mod PGSIZE = 0 -> pa mod PGSIZE = 0 -> r <> pa -> off_page r p0 -> 0 <= i < PGSIZE ->
  copied r pa p0 v m !!! (r + i) = m !!! (pa + i).
Proof.
  intros Hr Hpa Hne Ho Hi. unfold copied. rewrite !store64_other by (unfold off_page in *; lia).
  rewrite memmove_lookup_total, decide_True by (unfold PGSIZE in *; lia).
  replace (pa + (r + i - r)) with (pa + i) by lia. apply filled_other.
  destruct (page_gap pa r); try done; unfold PGSIZE in *; lia.
Qed.

Lemma set_k_mem_twice m m' s : set_k_mem m (set_k_mem m' s) = set_k_mem m s.
Proof. reflexivity. Qed.

(** The copying branch computes [copied]. *)
Lemma cowfault_copy_eq r fl pt va p2 p1 p0 v s :
  free_list (r :: fl) s -> unlocked s -> mapped (r :: fl) pt va p2 p1 p0 v s -> cow_entry s v ->
  1 < refcount s (PTE2PA v) -> PTE2PA v <> r ->
  cowfault pt va s = Ret 0 (with_ref (PTE2PA v) (refcount s (PTE2PA v) - 1)
    (set_k_mem (copied r (PTE2PA v) p0 v (k_mem s)) (allocated_page r s))).
Proof.
  intros Hf Hu Hm Hc Href Hne. pose proof Hc as (HV & HU & HX & HW & Hp).
  rewrite (cowfault_guards _ _ _ _ _ _ _ _ Hm Hc) by (apply Hf || apply Hu).
  rewrite (proj2 (Z.ltb_lt _ _) Href). mred. rewrite (kalloc_eq (r :: fl)) by done. mred.
  assert (Hr : is_page s r) by (apply (fl_page _ _ Hf); by left).
  assert (He : KERNBASE <= k_end s) by apply Hf.
  rewrite (proj2 (Z.eqb_neq _ _)) by (destruct Hr; unfold KERNBASE in *; lia). mred.
  set (s1 := allocated_page r s). set (m2 := memmove _ _ _ _). set (s2 := set_k_mem m2 s1).
  destruct Hm as [Hva Hpath Hpte Hnull (A0 & A1 & A2) [D1 D2] Hoff].
  assert (Hm2 : forall a, a = p0 \/ a = p1 \/ a = p2 -> load64 m2 a = load64 (k_mem s) a).
  { intros a Ha. apply (load64_off_page _ _ r); [apply Hoff; [by left|done]|]. apply copied_page_other. }
  assert (Hal : PGROUNDDOWN va mod PGSIZE = 0).
  { rewrite PGROUNDDOWN_eq. unfold PGSIZE. by rewrite Zminus_mod, Zmod_mod, Z.sub_diag. }
  assert (Hva' : 0 <= PGROUNDDOWN va < MAXVA).
  { rewrite PGROUNDDOWN_eq. unfold PGSIZE. pose proof (Z.mod_pos_bound va 4096).
    pose proof (Z.mod_le va 4096). lia. }
  assert (Hpath2 : vpath (k_mem s2) pt (PGROUNDDOWN va) = Some (p2, p1, p0)).
  { rewrite vpath_rounddown. apply (vpath_ext (k_mem s)); [done|apply Hm2; tauto|apply Hm2; tauto]. }
  rewrite (uvmunmap_one _ _ s2 _ _ _ Hal (proj2 Hva') Hpath2 Hnull)
    by (change (k_mem s2) with m2; rewrite Hm2, Hpte; tauto). mred.
  set (s3 := set_k_mem (store64 (k_mem s2) p0 0) s2).
  assert (Hm3 : k_mem s3 = store64 m2 p0 0) by reflexivity.
  assert (Hpath3 : vpath (k_mem s3) pt (PGROUNDDOWN va) = Some (p2, p1, p0)).
  { rewrite Hm3. apply (vpath_ext m2); [exact Hpath2|by apply load64_store64_ne|by apply load64_store64_ne]. }
  rewrite (mappages_one _ _ _ _ s3 p2 p1 p0 Hva' Hal Hpath3 Hnull)
    by (rewrite Hm3; by rewrite load64_store64_same). mred.
  change (negb (0 =? 0)) with false. mred.
  rewrite <- Z.lor_assoc, cow_perm by done. fold (mkpte r (Z.lor (PTE_FLAGS v) PTE_W)).
  rewrite decref_eq by (done || apply Hu). mred. rewrite Hm3.
  set (m4 := store64 (store64 m2 p0 0) p0 _).
  assert (Hrc : refcount (set_k_mem m4 s3) (PTE2PA v) = refcount s (PTE2PA v)).
  { unfold s3, s2, s1. rewrite !refcount_set_mem, allocated_page_ref by (apply Hr || apply Hp).
    by rewrite decide_False. }
  rewrite Hrc. unfold s3, s2, m4, m2, s1. rewrite !set_k_mem_twice, allocated_page_mem. by unfold copied.
Qed.

Lemma copied_free_list r fl pt va p2 p1 p0 v s :
  free_list (r :: fl) s -> mapped (r :: fl) pt va p2 p1 p0 v s ->
  free_list fl (set_k_mem (copied r (PTE2PA v) p0 v (k_mem s)) (allocated_page r s)).
Proof.
  intros Hf Hm. pose proof (allocated_page_spec _ _ _ Hf) as Hf'. apply free_list_set_mem; [done|].
  pose proof (fl_chain _ _ Hf') as Hc. rewrite allocated_page_mem in Hc.
  eapply chain_ext; [|exact Hc]. intros pg x Hin Hx. symmetry.
  assert (Hgap : pg + PGSIZE <= r \/ r + PGSIZE <= pg).
  { apply page_gap; [apply (fl_page _ _ Hf); by right|apply (fl_page _ _ Hf); by left|].
    intros ->. by apply (NoDup_cons_1_1 r fl); [apply Hf|]. }
  rewrite filled_other by (unfold PGSIZE in *; lia). symmetry. apply copied_other; [unfold PGSIZE in *; lia|].
  destruct (mp_off _ _ _ _ _ _ _ _ Hm pg p0) as [H|H]; [by right|by left|..]; unfold PGSIZE in *; lia.
Qed.

Lemma copied_mapped r fl pt va p2 p1 p0 v s s' :
  free_list (r :: fl) s -> mapped (r :: fl) pt va p2 p1 p0 v s ->
  k_mem s' = copied r (PTE2PA v) p0 v (k_mem s) ->
  mapped fl pt va p2 p1 p0 (mkpte r (Z.lor (PTE_FLAGS v) PTE_W)) s'.
Proof.
  intros Hf [Hva Hpath Hpte Hnull [A0 [A1 A2]] [D1 D2] Hoff] Hm'.
  assert (Hl : forall a, a = p1 \/ a = p2 -> load64 (k_mem s') a = load64 (k_mem s) a).
  { intros a Ha. rewrite Hm'. unfold copied. rewrite !load64_store64_ne by naive_solver.
    apply (load64_off_page _ _ r); [apply Hoff; [by left|tauto]|]. apply copied_page_other. }
  constructor; try done.
  - apply (vpath_ext (k_mem s)); [done|apply Hl; by right|apply Hl; by left].
  - rewrite Hm'. unfold copied. rewrite load64_store64_same. apply Z.mod_small.
    eapply mkpte_bounds; [apply Hf|apply (fl_page _ _ Hf); by left|apply flags_writable_bounds].
  - intros pg a Hin. apply Hoff. by right.
Qed.

