(* ===== verification/Aspace.v ===== *)
(** * Address spaces

    A page table as a tree: a map from index paths to the pages of its three
    levels (the root at [[]], a second-level table at [[i]], a third-level one
    at [[j; i]]).  walk, mappages and uvmunmap are specified on the leaf
    entries the tree gives to virtual addresses. *)

From S2P Require Import Prelude State Spinlock CString Usercopy Kalloc Vm Pages Cow.

Lemma fill_page_eq pg c s : fill_page pg c s = Ret tt (set_k_mem (filled pg c (k_mem s)) s).
Proof. reflexivity. Qed.

#[local] Opaque mem_write memmove mem_read load64 store64 filled.

(** ** Indices *)

Lemma PX_eq level va : 0 <= level -> PX level va = va / 2 ^ (12 + 9 * level) mod 512.
Proof.
  intros Hl. unfold PX, PXSHIFT, PGSHIFT. change 0x1FF with (Z.ones 9).
  rewrite Z.land_ones by lia. by rewrite Z.shiftr_div_pow2 by lia.
Qed.

Lemma PX_bounds level va : 0 <= level -> 0 <= PX level va < 512.
Proof. intros Hl. rewrite PX_eq by done. apply Z.mod_pos_bound. lia. Qed.

(** The indices of the three levels determine a page. *)
Lemma PX_inj va va' :
  0 <= va < MAXVA -> 0 <= va' < MAXVA -> va mod PGSIZE = 0 -> va' mod PGSIZE = 0 ->
  PX 0 va = PX 0 va' -> PX 1 va = PX 1 va' -> PX 2 va = PX 2 va' -> va = va'.
Proof.
  assert (Hd : forall x, 0 <= x < MAXVA -> x mod PGSIZE = 0 -> x = 4096 * (PX 0 x + 512 * (PX 1 x + 512 * PX 2 x))).
  { intros x Hx Hal. rewrite !PX_eq by lia. unfold MAXVA, PGSIZE in *.
    change (2 ^ (12 + 9 * 0)) with 4096. change (2 ^ (12 + 9 * 1)) with (4096 * 512). change (2 ^ (12 + 9 * 2)) with (4096 * 512 * 512).
    rewrite <- !Z.div_div by lia. pose proof (Z.div_mod x 4096). set (a := x / 4096) in *.
    pose proof (Z.div_mod a 512). set (b := a / 512) in *. pose proof (Z.div_mod b 512). set (c := b / 512) in *.
    rewrite (Z.mod_small c 512); [lia|]. pose proof (Z.mod_pos_bound a 512). pose proof (Z.mod_pos_bound b 512).
    simpl in Hx. lia. }
  intros Hv Hv' Ha Ha' E0 E1 E2. rewrite (Hd va), (Hd va') by done. by rewrite E0, E1, E2.
Qed.

(** ** Entries as words of pages *)

Definition in_page (t x : Z) : Prop := t <= x < t + PGSIZE.
#[export] Instance in_page_dec t x : Decision (in_page t x).
Proof. unfold in_page. apply _. Defined.

Lemma word_in_page t j x : 0 <= j < 512 -> t + 8 * j <= x < t + 8 * j + 8 -> in_page t x.
Proof. unfold in_page, PGSIZE. lia. Qed.

Lemma word_align t j : t mod PGSIZE = 0 -> (t + 8 * j) mod 8 = 0.
Proof.
  intros H. apply Z.mod_divide in H as [k ->]; [|done]. unfold PGSIZE.
  replace (k * 4096 + 8 * j) with ((k * 512 + j) * 8) by lia. by apply Z.mod_mul.
Qed.

Lemma word_inj t j t' j' :
  t mod PGSIZE = 0 -> t' mod PGSIZE = 0 -> 0 <= j < 512 -> 0 <= j' < 512 -> t + 8 * j = t' + 8 * j' -> t = t' /\ j = j'.
Proof.
  intros Ht Ht' Hj Hj' E. destruct (decide (t = t')) as [->|Hne]; [split; [done|lia]|].
  destruct (page_gap t t') as [H|H]; try done; unfold PGSIZE in *; lia.
Qed.

Lemma load_other_page m m' t j :
  0 <= j < 512 -> (forall x, in_page t x -> m' !!! x = m !!! x) -> load64 m' (t + 8 * j) = load64 m (t + 8 * j).
Proof. intros Hj H. apply load64_ext. intros x Hx. apply H. by eapply word_in_page. Qed.

(** A store to a word of a page leaves the other pages alone. *)
Lemma store_other_page m t j t' x v :
  t mod PGSIZE = 0 -> t' mod PGSIZE = 0 -> t <> t' -> 0 <= j < 512 -> in_page t' x ->
  store64 m (t + 8 * j) v !!! x = m !!! x.
Proof.
  intros Ht Ht' Hne Hj Hx. apply store64_other. unfold in_page in Hx.
  destruct (page_gap t t') as [H|H]; try done; unfold PGSIZE in *; lia.
Qed.

Lemma disjoint_pages t t' x : t mod PGSIZE = 0 -> t' mod PGSIZE = 0 -> t <> t' -> in_page t' x -> x < t \/ t + PGSIZE <= x.
Proof. intros Ht Ht' Hne Hx. unfold in_page in Hx. destruct (page_gap t t') as [H|H]; try done; lia. Qed.

(** ** The tree *)

Notation tree := (gmap (list Z) Z).

Record ptable (pt : Z) (T : tree) (s : kstate) : Prop := {
  pt_end : KERNBASE <= k_end s;
  pt_root : T !! [] = Some pt;
  pt_page k t : T !! k = Some t -> is_page s t;
  pt_inj k k' t : T !! k = Some t -> T !! k' = Some t -> k = k';
  pt_up j k t : T !! (j :: k) = Some t -> 0 <= j < 512 /\ (length k <= 1)%nat /\ is_Some (T !! k);
  pt_down k t j : T !! k = Some t -> (length k <= 1)%nat -> 0 <= j < 512 ->
    match T !! (j :: k) with
    | Some t' => has (load64 (k_mem s) (t + 8 * j)) PTE_V = true /\ PTE2PA (load64 (k_mem s) (t + 8 * j)) = t'
    | None => has (load64 (k_mem s) (t + 8 * j)) PTE_V = false
    end;
}.

(** The address of the leaf entry for [va], and the entry; 0 when there is no
    third-level table. *)
Definition entry_at (T : tree) (va : Z) : option Z := (fun t => pte_addr t 0 va) <$> T !! [PX 1 va; PX 2 va].
Definition entry (T : tree) (s : kstate) (va : Z) : Z :=
  match entry_at T va with Some p => load64 (k_mem s) p | None => 0 end.

(** [x] is a byte of one of the tables. *)
Definition in_tree (T : tree) (x : Z) : Prop := exists k t, T !! k = Some t /\ in_page t x.

Lemma ptable_align pt T s k t : ptable pt T s -> T !! k = Some t -> t mod PGSIZE = 0.
Proof. intros Hp Ht. apply (pt_page _ _ _ Hp _ _ Ht). Qed.

Lemma ptable_pos pt T s k t : ptable pt T s -> T !! k = Some t -> 0 < t.
Proof. intros Hp Ht. pose proof (pt_page _ _ _ Hp _ _ Ht) as [_ H]. pose proof (pt_end _ _ _ Hp). unfold KERNBASE in *. lia. Qed.

(** Memory that agrees on the pages of the tree gives the same tree. *)
Lemma ptable_frame pt T s s' :
  ptable pt T s -> k_end s' = k_end s -> (forall x, in_tree T x -> k_mem s' !!! x = k_mem s !!! x) -> ptable pt T s'.
Proof.
  intros [He Hr Hp Hi Hu Hd] E Hm. constructor; try done; [by rewrite E| |].
  - intros k t Ht. unfold is_page. rewrite E. by eapply Hp.
  - intros k t j Ht Hk Hj. rewrite (load_other_page (k_mem s)); [by apply Hd|done|].
    intros x Hx. apply Hm. by exists k, t.
Qed.

Lemma entry_frame T s s' va :
  (forall x, in_tree T x -> k_mem s' !!! x = k_mem s !!! x) -> entry T s' va = entry T s va.
Proof.
  intros Hm. unfold entry, entry_at. destruct (T !! _) as [t|] eqn:Ht; [|done]. simpl.
  apply load_other_page; [by apply PX_bounds|]. intros x Hx. apply Hm. by exists [PX 1 va; PX 2 va], t.
Qed.

(** ** walk *)

Lemma walk_level_found alloc pt T s k t level va t' :
  ptable pt T s -> T !! k = Some t -> (length k <= 1)%nat -> 0 <= level -> T !! (PX level va :: k) = Some t' ->
  walk_level alloc t level va s = Ret (Some t') s.
Proof.
  intros Hp Ht Hk Hl Ht'. unfold walk_level, pte_load. mred.
  pose proof (pt_down _ _ _ Hp k t (PX level va) Ht Hk (PX_bounds _ _ Hl)) as Hd. rewrite Ht' in Hd. destruct Hd as [HV HP].
  unfold pte_addr. rewrite HV. mred. by rewrite HP.
Qed.

Lemma walk_level_none pt T s k t level va :
  ptable pt T s -> T !! k = Some t -> (length k <= 1)%nat -> 0 <= level -> T !! (PX level va :: k) = None ->
  walk_level false t level va s = Ret None s.
Proof.
  intros Hp Ht Hk Hl Ht'. unfold walk_level, pte_load. mred.
  pose proof (pt_down _ _ _ Hp k t (PX level va) Ht Hk (PX_bounds _ _ Hl)) as Hd. rewrite Ht' in Hd.
  unfold pte_addr. by rewrite Hd.
Qed.

Lemma walk_tree pt T s va :
  ptable pt T s -> va < MAXVA -> walk pt va false s = Ret (default 0 (entry_at T va)) s.
Proof.
  intros Hp Hva. unfold walk. rewrite (proj2 (Z.leb_gt _ _) Hva). mred. unfold entry_at.
  pose proof (pt_root _ _ _ Hp) as Hr. destruct (T !! [PX 2 va]) as [t1|] eqn:H1.
  - rewrite (walk_level_found _ _ _ _ [] pt 2 va t1) by (done || simpl; lia). mred.
    destruct (T !! [PX 1 va; PX 2 va]) as [t0|] eqn:H0.
    + by rewrite (walk_level_found _ _ _ _ [PX 2 va] t1 1 va t0) by (done || simpl; lia).
    + by rewrite (walk_level_none _ _ _ [PX 2 va] t1 1 va) by (done || simpl; lia).
  - rewrite (walk_level_none _ _ _ [] pt 2 va) by (done || simpl; lia). mred.
    destruct (T !! [PX 1 va; PX 2 va]) as [t0|] eqn:H0; [|done].
    apply (pt_up _ _ _ Hp) in H0 as (_ & _ & [? H0]). congruence.
Qed.

(** ** Growing the tree *)

Lemma load64_zero m a : (forall x, a <= x < a + 8 -> m !!! x = 0) -> load64 m a = 0.
Proof.
  intros H. rewrite (load64_ext ∅ m); [by vm_compute|]. intros x Hx. rewrite H by done. by rewrite lookup_total_empty.
Qed.

(** The tree [T] became [T'], by taking the pages [used] off the free list. *)
Record grown (pt : Z) (T : tree) (fl : list Z) (s : kstate) (used : list Z) (T' : tree) (fl' : list Z) (s' : kstate) : Prop := {
  g_table : ptable pt T' s';
  g_free : free_list fl' s';
  g_used : fl = used ++ fl';
  g_sub : T ⊆ T';
  g_new k t : T' !! k = Some t -> T !! k = Some t \/ t ∈ used;
  g_entry va : entry T' s' va = entry T s va;
  g_mem x : ~ in_tree T x -> (forall r, r ∈ used -> ~ in_page r x) -> k_mem s' !!! x = k_mem s !!! x;
  g_ref pg : pg mod PGSIZE = 0 -> pg ∉ used -> refcount s' pg = refcount s pg;
  g_same : user_same s s';
}.

(** Tables are not free. *)
Definition not_free (T : tree) (fl : list Z) : Prop := forall k t, T !! k = Some t -> t ∉ fl.

Lemma tree_grown_refl pt T fl s : ptable pt T s -> free_list fl s -> grown pt T fl s [] T fl s.
Proof. intros Hp Hf. constructor; auto; done. Qed.

Lemma grown_not_free pt T fl s used T' fl' s' : grown pt T fl s used T' fl' s' -> free_list fl s -> not_free T fl -> not_free T' fl'.
Proof.
  intros G Hf Hn k t Ht Hin. pose proof (fl_nodup _ _ Hf) as Hnd. rewrite (g_used _ _ _ _ _ _ _ _ G) in Hnd.
  destruct (g_new _ _ _ _ _ _ _ _ G k t Ht) as [H|H].
  - apply (Hn k t H). rewrite (g_used _ _ _ _ _ _ _ _ G). set_solver.
  - apply NoDup_app in Hnd as (_ & Hd & _). by apply (Hd t).
Qed.

Lemma tree_grown_trans pt T fl s used T1 fl1 s1 used' T2 fl2 s2 :
  grown pt T fl s used T1 fl1 s1 -> grown pt T1 fl1 s1 used' T2 fl2 s2 -> grown pt T fl s (used ++ used') T2 fl2 s2.
Proof.
  intros [Ht Hf Hu Hs Hn He Hm Hr Hk] [Ht' Hf' Hu' Hs' Hn' He' Hm' Hr' Hk'].
  constructor; [done|done|by rewrite Hu, Hu', app_assoc|by trans T1| | | | |by trans s1].
  - intros k t H. apply Hn' in H as [H|H]; [apply Hn in H|]; set_solver.
  - intros va. by rewrite He'.
  - intros x Hx Hx'. rewrite Hm'; [apply Hm; [done|set_solver]| |set_solver].
    intros (k & t & H & Hin). apply Hn in H as [H|H]; [by apply Hx; exists k, t|]. apply (Hx' t); [set_solver|done].
  - intros pg Hal Hpg. rewrite Hr' by set_solver. apply Hr; set_solver.
Qed.

(** A new table page [r], linked at word [j] of page [t]. *)
Definition linked (t j r : Z) (s : kstate) : kstate :=
  set_k_mem (store64 (filled r 0 (filled r 5 (k_mem s))) (t + 8 * j) (mkpte r PTE_V)) (allocated_page r s).

Lemma linked_other t j r s x :
  x < r \/ r + PGSIZE <= x -> x < t + 8 * j \/ t + 8 * j + 8 <= x -> k_mem (linked t j r s) !!! x = k_mem s !!! x.
Proof. intros H1 H2. simpl. rewrite store64_other, !filled_other by done. done. Qed.

Lemma linked_load t j r s t' j' :
  t mod PGSIZE = 0 -> r mod PGSIZE = 0 -> t' mod PGSIZE = 0 -> 0 <= j < 512 -> 0 <= j' < 512 -> t' <> r -> (t', j') <> (t, j) ->
  load64 (k_mem (linked t j r s)) (t' + 8 * j') = load64 (k_mem s) (t' + 8 * j').
Proof.
  intros Ht Hr Ht' Hj Hj' Hne Hne'. simpl. rewrite load64_store64_ne; [|by apply word_align|by apply word_align|].
  - apply load_other_page; [done|]. intros x Hx. rewrite !filled_other; [done|by eapply disjoint_pages..].
  - intros E. apply word_inj in E as [-> ->]; done.
Qed.

Lemma linked_fresh t j r s i :
  t mod PGSIZE = 0 -> r mod PGSIZE = 0 -> 0 <= j < 512 -> 0 <= i < 512 -> t <> r -> load64 (k_mem (linked t j r s)) (r + 8 * i) = 0.
Proof.
  intros Ht Hr Hj Hi Hne. apply load64_zero. intros x Hx. assert (Hin : in_page r x) by (by eapply word_in_page).
  simpl. rewrite (store_other_page _ t j r) by done. apply filled_in. exact Hin.
Qed.

Lemma linked_word t j r s : KERNBASE <= k_end s -> is_page s r -> load64 (k_mem (linked t j r s)) (t + 8 * j) = mkpte r PTE_V.
Proof. intros He Hr. simpl. rewrite load64_store64_same. apply Z.mod_small. by apply (mkpte_bounds s). Qed.

Lemma mkpte_valid pa flags : has flags PTE_V = true -> has (mkpte pa flags) PTE_V = true.
Proof.
  unfold mkpte. change PTE_V with (2 ^ 0). rewrite !has_bit, Z.lor_spec by lia. intros ->. apply orb_true_r.
Qed.

Section link.
  Context (pt : Z) (T : tree) (fl : list Z) (s : kstate) (k : list Z) (t j r : Z).
  Context (Hp : ptable pt T s) (Hf : free_list (r :: fl) s) (Hn : not_free T (r :: fl)).
  Context (Ht : T !! k = Some t) (Hk : (length k <= 1)%nat) (Hj : 0 <= j < 512) (Hnone : T !! (j :: k) = None).

Lemma link_page : is_page s r.
Proof using Hf. apply (fl_page _ _ Hf). by left. Qed.

Lemma link_ne k' t' : T !! k' = Some t' -> t' <> r.
Proof using Hn. intros H ->. apply (Hn _ _ H). by left. Qed.

Lemma link_free : free_list fl (linked t j r s).
Proof using Type*.
  pose proof (allocated_page_spec _ _ _ Hf) as Hf'. apply free_list_set_mem; [done|].
  pose proof (fl_chain _ _ Hf') as Hc. rewrite allocated_page_mem in Hc. eapply chain_ext; [|exact Hc].
  intros pg x Hin Hx. assert (Hpg : pg mod PGSIZE = 0) by (apply (fl_page _ _ Hf); by right).
  assert (Hpx : in_page pg x) by (unfold in_page, PGSIZE; lia).
  assert (pg <> r) by (intros ->; by apply (NoDup_cons_1_1 r fl); [apply Hf|]).
  assert (t <> pg) by (intros ->; apply (Hn _ _ Ht); by right).
  rewrite (store_other_page _ t j pg); [|by eapply ptable_align|done|done|done|done].
  apply filled_other. eapply disjoint_pages; [apply link_page|exact Hpg|done|done].
Qed.

Lemma link_down k1 t1 j1 :
  <[j :: k := r]> T !! k1 = Some t1 -> (length k1 <= 1)%nat -> 0 <= j1 < 512 ->
  match <[j :: k := r]> T !! (j1 :: k1) with
  | Some t' => has (load64 (k_mem (linked t j r s)) (t1 + 8 * j1)) PTE_V = true /\ PTE2PA (load64 (k_mem (linked t j r s)) (t1 + 8 * j1)) = t'
  | None => has (load64 (k_mem (linked t j r s)) (t1 + 8 * j1)) PTE_V = false
  end.
Proof using Type*.
  intros Hk1 Hl1 Hj1. pose proof link_page as [Hra _]. assert (Hta : t mod PGSIZE = 0) by (by eapply ptable_align).
  assert (Htr : t <> r) by (by eapply link_ne). destruct (decide (k1 = j :: k)) as [->|Hne].
  - rewrite lookup_insert_eq in Hk1. injection Hk1 as <-. rewrite lookup_insert_ne by (intros E; apply (f_equal length) in E; simpl in E; lia).
    destruct (T !! (j1 :: j :: k)) as [x|] eqn:Hx; [apply (pt_up _ _ _ Hp) in Hx as (_ & _ & [? ?]); congruence|].
    by rewrite linked_fresh.
  - rewrite lookup_insert_ne in Hk1 by done. destruct (decide (j1 :: k1 = j :: k)) as [[= -> ->]|Hne1].
    + rewrite Ht in Hk1. injection Hk1 as <-. rewrite lookup_insert_eq, linked_word by (apply link_page || apply (pt_end _ _ _ Hp)).
      split; [by apply mkpte_valid|]. by apply PTE2PA_mk.
    + rewrite lookup_insert_ne by done. rewrite linked_load; [by apply (pt_down _ _ _ Hp)|done|done|by eapply ptable_align|done|done|by eapply link_ne|].
      intros [= -> ->]. apply Hne1. f_equal. by eapply (pt_inj _ _ _ Hp).
Qed.

Lemma link_ptable : ptable pt (<[j :: k := r]> T) (linked t j r s).
Proof using Type*.
  constructor.
  - apply (pt_end _ _ _ Hp).
  - rewrite lookup_insert_ne by done. apply Hp.
  - intros k1 t1 [[_ <-]|[_ H]]%lookup_insert_Some; [apply link_page|by apply (pt_page _ _ _ Hp k1)].
  - intros k1 k2 t1 [[<- <-]|[? H1]]%lookup_insert_Some [[<- E]|[? H2]]%lookup_insert_Some; [done| | |by eapply (pt_inj _ _ _ Hp)].
    + by destruct (link_ne _ _ H2).
    + subst t1. by destruct (link_ne _ _ H1).
  - intros j1 k1 t1 [[[= <- <-] _]|[_ H]]%lookup_insert_Some.
    + split_and!; [lia..|]. rewrite lookup_insert_ne by (intros E; apply (f_equal length) in E; simpl in E; lia). eauto.
    + apply (pt_up _ _ _ Hp) in H as (H1 & H2 & H3). split_and!; [lia..|].
      destruct (decide (j :: k = k1)) as [<-|]; [rewrite lookup_insert_eq; eauto|by rewrite lookup_insert_ne].
  - apply link_down.
Qed.

Lemma link_entry va : entry (<[j :: k := r]> T) (linked t j r s) va = entry T s va.
Proof using Type*.
  pose proof link_page as [Hra _]. assert (Hta : t mod PGSIZE = 0) by (by eapply ptable_align).
  unfold entry, entry_at. destruct (decide (j :: k = [PX 1 va; PX 2 va])) as [<-|Hne].
  - rewrite lookup_insert_eq, Hnone. cbn [fmap option_fmap option_map]. unfold pte_addr. apply linked_fresh; try done; [by apply PX_bounds|by eapply link_ne].
  - rewrite lookup_insert_ne by done. destruct (T !! [PX 1 va; PX 2 va]) as [t0|] eqn:H0; [|done]. cbn [fmap option_fmap option_map]. unfold pte_addr.
    apply linked_load; try done; [by eapply ptable_align|by apply PX_bounds|by eapply link_ne|].
    intros [= -> _]. pose proof (pt_inj _ _ _ Hp _ _ _ Ht H0) as ->. simpl in Hk. lia.
Qed.

Lemma link_grown : grown pt T (r :: fl) s [r] (<[j :: k := r]> T) fl (linked t j r s).
Proof using Type*.
  constructor.
  - apply link_ptable.
  - apply link_free.
  - done.
  - by apply insert_subseteq.
  - intros k1 t1 [[_ <-]|[_ H]]%lookup_insert_Some; [right; set_solver|by left].
  - apply link_entry.
  - intros x Hx Hr. apply linked_other.
    + specialize (Hr r ltac:(set_solver)). unfold in_page in Hr. lia.
    + destruct (decide (in_page t x)) as [Hin|Hin]; [destruct Hx; by exists k, t|]. unfold in_page, PGSIZE in Hin. lia.
  - intros pg Hal Hpg. unfold linked. rewrite refcount_set_mem, allocated_page_ref by (done || apply link_page).
    rewrite decide_False by set_solver. done.
  - exists (k_mem (linked t j r s)), (k_freelist (linked t j r s)), (k_refcount (linked t j r s)). by destruct s.
Qed.
End link.

Lemma unlocked_same s s' : unlocked s -> user_same s s' -> unlocked s'.
Proof. intros [H1 H2] Hs. split; by rewrite (user_same_held _ _ Hs). Qed.

Lemma walk_level_alloc pt T fl s k t level va :
  ptable pt T s -> free_list fl s -> not_free T fl -> unlocked s ->
  T !! k = Some t -> (length k <= 1)%nat -> 0 <= level ->
  returns (walk_level true t level va s) (fun o s' => exists used T' fl', grown pt T fl s used T' fl' s' /\
    match o with Some t' => T' !! (PX level va :: k) = Some t' | None => fl' = [] end).
Proof.
  intros Hp Hf Hn Hu Ht Hk Hl. destruct (T !! (PX level va :: k)) as [t'|] eqn:Ht'.
  { rewrite (walk_level_found _ _ _ _ _ _ _ _ _ Hp Ht Hk Hl Ht'). exists [], T, fl. split; [by apply tree_grown_refl|done]. }
  pose proof (pt_down _ _ _ Hp k t (PX level va) Ht Hk (PX_bounds _ _ Hl)) as Hd. rewrite Ht' in Hd.
  unfold walk_level, pte_load. mred. unfold pte_addr. rewrite Hd. mred. rewrite (kalloc_eq fl) by done.
  destruct fl as [|r fl]; mred; [exists [], T, []; split; [by apply tree_grown_refl|done]|].
  pose proof (link_page fl s r Hf) as Hr.
  rewrite (proj2 (Z.eqb_neq _ _)) by (destruct Hr; pose proof (pt_end _ _ _ Hp); unfold KERNBASE in *; lia). mred. rewrite fill_page_eq. unfold pte_store. mred. rewrite set_k_mem_twice. cbn [k_mem set_k_mem]. rewrite allocated_page_mem. cbn [returns].
  exists [r], (<[PX level va :: k := r]> T), fl. split; [|apply lookup_insert_eq].
  pose proof (link_grown pt T fl s k t (PX level va) r Hp Hf Hn Ht Hk (PX_bounds _ _ Hl) Ht') as G.
  exact G.
Qed.

(** walk with alloc set: the entry of [va], in a tree that has grown by the
    missing tables, or 0 when the pages ran out. *)
Lemma walk_alloc pt T fl s va :
  ptable pt T s -> free_list fl s -> not_free T fl -> unlocked s -> va < MAXVA ->
  returns (walk pt va true s) (fun p s' => exists used T' fl', grown pt T fl s used T' fl' s' /\
    (p = 0 /\ fl' = [] \/ entry_at T' va = Some p /\ p <> 0)).
Proof.
  intros Hp Hf Hn Hu Hva. unfold walk. rewrite (proj2 (Z.leb_gt _ _) Hva).
  mspec (walk_level_alloc pt T fl s [] pt 2 va); [done|done|done|done|apply Hp|simpl; lia|lia|].
  intros [t1|] s1 (used & T1 & fl1 & G1 & H1); [|exists used, T1, fl1; auto].
  pose proof G1 as [Hp1 Hf1 _ _ _ _ _ _ Hs1].
  mspec (walk_level_alloc pt T1 fl1 s1 [PX 2 va] t1 1 va);
    [done|done|by eapply grown_not_free|by eapply unlocked_same|done|simpl; lia|lia|].
  intros [t0|] s2 (used2 & T2 & fl2 & G2 & H2); exists (used ++ used2), T2, fl2; (split; [by eapply tree_grown_trans|]); [right|by left].
  unfold entry_at. rewrite H2. split; [done|]. pose proof (ptable_pos _ _ _ _ _ (g_table _ _ _ _ _ _ _ _ G2) H2).
  unfold pte_addr. pose proof (PX_bounds 0 va ltac:(lia)). lia.
Qed.

(** ** Storing an entry *)

Section store.
  Context (pt : Z) (T : tree) (s : kstate) (va p x : Z).
  Context (Hp : ptable pt T s) (Hat : entry_at T va = Some p).
  Notation s' := (set_k_mem (store64 (k_mem s) p x) s).

Lemma entry_at_word : exists t, T !! [PX 1 va; PX 2 va] = Some t /\ p = t + 8 * PX 0 va.
Proof using Hat. unfold entry_at in Hat. destruct (T !! _) as [t|] eqn:E; [|done]. injection Hat as <-. eauto. Qed.

Lemma store_ptable : ptable pt T s'.
Proof using Hp Hat.
  destruct entry_at_word as (t & Ht & ->). constructor; try apply Hp.
  intros k1 t1 j1 H1 Hk1 Hj1. assert (t1 <> t).
  { intros ->. pose proof (pt_inj _ _ _ Hp _ _ _ H1 Ht) as ->. simpl in Hk1. lia. }
  cbn [k_mem set_k_mem]. rewrite (load_other_page (k_mem s)); [by apply (pt_down _ _ _ Hp k1)|done|].
  intros y Hy. eapply store_other_page; [by eapply ptable_align|by eapply ptable_align|done|by apply PX_bounds|exact Hy].
Qed.

Lemma store_entry va' :
  0 <= va < MAXVA -> 0 <= va' < MAXVA -> va mod PGSIZE = 0 -> va' mod PGSIZE = 0 ->
  entry T s' va' = if decide (va' = va) then u64 x else entry T s va'.
Proof using Hp Hat.
  intros Hva Hva' Hal Hal'. destruct entry_at_word as (t & Ht & ->). case_decide as Hd.
  - subst va'. unfold entry. rewrite Hat. cbn [k_mem set_k_mem]. apply load64_store64_same.
  - unfold entry, entry_at. destruct (T !! [PX 1 va'; PX 2 va']) as [t'|] eqn:Ht'; [|done]. cbn [fmap option_fmap option_map k_mem set_k_mem].
    unfold pte_addr. apply load64_store64_ne; [by eapply word_align, ptable_align|by eapply word_align, ptable_align|].
    intros E. apply word_inj in E as [-> E]; [|by eapply ptable_align|by eapply ptable_align|by apply PX_bounds|by apply PX_bounds].
    pose proof (pt_inj _ _ _ Hp _ _ _ Ht Ht') as [= E1 E2]. apply Hd. symmetry. by apply PX_inj.
Qed.

Lemma store_mem y : ~ in_tree T y -> k_mem s' !!! y = k_mem s !!! y.
Proof using Hp Hat.
  intros Hy. destruct entry_at_word as (t & Ht & ->). cbn [k_mem set_k_mem]. apply store64_other.
  pose proof (PX_bounds 0 va ltac:(lia)). destruct (decide (in_page t y)) as [Hin|Hin].
  - destruct Hy. by exists [PX 1 va; PX 2 va], t.
  - unfold in_page, PGSIZE in Hin. lia.
Qed.

Lemma store_free fl : free_list fl s -> not_free T fl -> free_list fl s'.
Proof using Hp Hat.
  intros Hf Hn. apply free_list_set_mem; [done|]. eapply chain_ext; [|apply Hf]. intros pg y Hin Hy.
  apply store_mem. intros (k & t & Ht & Hty). pose proof (fl_page _ _ Hf _ Hin) as [Hal _].
  assert (t <> pg) by (intros ->; by apply (Hn _ _ Ht)). pose proof (ptable_align _ _ _ _ _ Hp Ht).
  destruct (disjoint_pages pg t y) as [H1|H1]; try done; unfold PGSIZE in *; lia.
Qed.
End store.

(** ** Mapping and unmapping a page *)

Lemma entry_invalid_missing T s va : entry_at T va = None -> entry T s va = 0.
Proof. intros H. unfold entry. by rewrite H. Qed.

Lemma mappages_page pt T fl s va pa perm :
  ptable pt T s -> free_list fl s -> not_free T fl -> unlocked s ->
  0 <= va < MAXVA -> va mod PGSIZE = 0 -> has (entry T s va) PTE_V = false ->
  returns (mappages pt va PGSIZE pa perm s) (fun e s' => exists used T' fl' s1, grown pt T fl s used T' fl' s1 /\
    (e = -1 /\ fl' = [] /\ s' = s1 \/
     e = 0 /\ exists p, entry_at T' va = Some p /\ s' = set_k_mem (store64 (k_mem s1) p (Z.lor (Z.lor (PA2PTE pa) perm) PTE_V)) s1)).
Proof.
  intros Hp Hf Hn Hu Hva Hal HV. unfold mappages. rewrite (proj2 (Z.eqb_eq _ _) Hal).
  change (PGSIZE mod PGSIZE =? 0) with true. change (PGSIZE =? 0) with false.
  change (S (Z.to_nat (PGSIZE / PGSIZE))) with 2%nat. mred. cbn [loop]. mred. apply returns_obind.
  mspec (walk_alloc pt T fl s va); [done|done|done|done|lia|].
  intros p s1 (used & T' & fl' & G & [[-> ->]|[Hat Hp0]]).
  - simpl. exists used, T', [], s1. split; [done|]. by left.
  - rewrite (proj2 (Z.eqb_neq _ _) Hp0). unfold pte_load, pte_store. mred.
    pose proof (g_entry _ _ _ _ _ _ _ _ G va) as He. unfold entry at 1 in He. rewrite Hat in He. rewrite He, HV. mred.
    replace (u64 (va + PGSIZE - PGSIZE)) with va.
    + rewrite Z.eqb_refl. mred. cbn [returns]. exists used, T', fl', s1. split; [done|]. right. split; [done|]. by exists p.
    + unfold u64. rewrite Z.mod_small; [lia|]. unfold MAXVA in *. change (2 ^ 64) with 18446744073709551616.
      unfold PGSIZE. simpl in Hva. lia.
Qed.

(** Dropping a mapping of a page that has other references. *)
Lemma uvmunmap_page pt T fl s va :
  ptable pt T s -> free_list fl s -> unlocked s -> va < MAXVA -> va mod PGSIZE = 0 ->
  (has (entry T s va) PTE_V = true -> is_page s (PTE2PA (entry T s va)) /\ 1 < refcount s (PTE2PA (entry T s va))) ->
  uvmunmap pt va 1 true s = Ret tt
    (if has (entry T s va) PTE_V then
       set_k_mem (store64 (k_mem s) (default 0 (entry_at T va)) 0)
         (with_ref (PTE2PA (entry T s va)) (refcount s (PTE2PA (entry T s va)) - 1) s)
     else s).
Proof.
  intros Hp Hf Hu Hva Hal HV. unfold uvmunmap. rewrite (proj2 (Z.eqb_eq _ _) Hal). mred.
  rewrite zstep_cons by (unfold PGSIZE; lia). rewrite zstep_nil by (unfold PGSIZE; lia). cbn [foreach]. mred.
  rewrite (walk_tree pt T) by done. mred. destruct (entry_at T va) as [p|] eqn:Hat; cbn [from_option id].
  - assert (He : load64 (k_mem s) p = entry T s va) by (unfold entry; by rewrite Hat).
    destruct (entry_at_word _ _ _ Hat) as (t & Ht & Hpt). pose proof (ptable_pos _ _ _ _ _ Hp Ht). pose proof (PX_bounds 0 va ltac:(lia)).
    rewrite (proj2 (Z.eqb_neq p 0)) by lia. unfold pte_load, pte_store. mred. rewrite He.
    destruct (has (entry T s va) PTE_V); [|done]. destruct (HV eq_refl) as [Hpg Href]. mred.
    rewrite (kfree_eq fl) by done. rewrite (proj2 (Z.eqb_neq _ _)) by lia. done.
  - rewrite (entry_invalid_missing _ _ _ Hat). done.
Qed.
