(* ===== verification/Uvm.v ===== *)
(** * uvmcopy: fork shares memory copy-on-write

    uvmcopy on two address spaces: parent and child end up with the same
    read-only entries, every shared page gains one reference, both processes
    see the bytes the parent saw; when the tables of the child cannot be
    allocated the child maps nothing and no page has gained a reference.
    Isolation.v adds what the sharing then guarantees. *)

From S2P Require Import Prelude State Spinlock CString Usercopy Kalloc Vm Pages Cow Aspace.

#[local] Opaque mem_write memmove mem_read load64 store64 filled.

(** ** Entries that are shared *)

(** What uvmcopy makes of a valid entry. *)
Definition share (v : Z) : Z := Z.ldiff v PTE_W.

Lemma ldiff_has v : has v PTE_W = false -> Z.ldiff v PTE_W = v.
Proof.
  change PTE_W with (2 ^ 2). rewrite has_bit by lia. intros H. apply Z.bits_inj'. intros n Hn.
  rewrite Z.ldiff_spec, Z.pow2_bits_eqb by lia. destruct (Z.eqb_spec 2 n) as [<-|]; [by rewrite H|]. apply andb_true_r.
Qed.

Lemma flags_has v k : 0 <= k < 10 -> has (PTE_FLAGS v) (2 ^ k) = has v (2 ^ k).
Proof.
  intros Hk. rewrite !has_bit by lia. unfold PTE_FLAGS. change 1023 with (Z.ones 10).
  rewrite Z.land_spec, Z.ones_spec_low by lia. apply andb_true_r.
Qed.

Lemma share_has v k : 0 <= k -> k <> 2 -> has (share v) (2 ^ k) = has v (2 ^ k).
Proof.
  intros Hk Hne. rewrite !has_bit by lia. unfold share. change PTE_W with (2 ^ 2).
  rewrite Z.ldiff_spec, Z.pow2_bits_false by lia. apply andb_true_r.
Qed.

Lemma share_valid v : has (share v) PTE_V = has v PTE_V.
Proof. by apply (share_has v 0). Qed.

Lemma share_readonly v : has (share v) PTE_W = false.
Proof.
  change PTE_W with (2 ^ 2). rewrite has_bit by lia. unfold share. change PTE_W with (2 ^ 2).
  rewrite Z.ldiff_spec, Z.pow2_bits_true by lia. apply andb_false_r.
Qed.

Lemma share_pa v : PTE2PA (share v) = PTE2PA v.
Proof.
  unfold PTE2PA, share. f_equal. apply Z.bits_inj'. intros n Hn. rewrite !Z.shiftr_spec by done.
  change PTE_W with (2 ^ 2). rewrite Z.ldiff_spec, Z.pow2_bits_false by lia. apply andb_true_r.
Qed.

(** The entry mappages writes for the child is the parent's. *)
Lemma share_eq v :
  has v PTE_V = true -> Z.lor (Z.lor (PA2PTE (PTE2PA v)) (Z.ldiff (PTE_FLAGS v) PTE_W)) PTE_V = share v.
Proof.
  intros HV. change PTE_V with (2 ^ 0) in *. rewrite has_bit in HV by lia. unfold share, PA2PTE, PTE2PA, PTE_FLAGS.
  change PTE_W with (2 ^ 2). change 1023 with (Z.ones 10). rewrite Z.shiftr_shiftl_l by lia. change (12 - 12) with 0. rewrite Z.shiftl_0_r.
  apply Z.bits_inj'. intros n Hn. rewrite !Z.lor_spec, !Z.ldiff_spec, Z.land_spec, !Z.pow2_bits_eqb by lia.
  destruct (decide (n < 10)).
  - rewrite Z.shiftl_spec_low, Z.ones_spec_low, andb_true_r by lia. destruct (Z.eqb_spec 0 n) as [<-|]; [by rewrite HV|].
    by rewrite orb_false_r.
  - rewrite Z.shiftl_spec, Z.shiftr_spec, Z.ones_spec_high, andb_false_r by lia. rewrite !(proj2 (Z.eqb_neq _ _)) by lia.
    cbn [negb andb]. rewrite ?andb_true_r, !orb_false_r. f_equal. lia.
Qed.

Lemma pte_bounds s v : KERNBASE <= k_end s -> is_page s (PTE2PA v) -> 0 <= v < 2 ^ 64.
Proof.
  intros He [_ Hp]. unfold PTE2PA in Hp. rewrite Z.shiftl_mul_pow2, Z.shiftr_div_pow2 in Hp by lia.
  change (2 ^ 12) with 4096 in Hp. change (2 ^ 10) with 1024 in Hp. change (2 ^ 64) with 18446744073709551616.
  assert (He' : 2147483648 <= v / 1024 * 4096 < 2281701376) by (unfold PHYSTOP, KERNBASE in *; lia).
  pose proof (Z.div_mod v 1024 ltac:(done)). pose proof (Z.mod_pos_bound v 1024 ltac:(done)). lia.
Qed.

Lemma share_u64 s v : KERNBASE <= k_end s -> is_page s (PTE2PA v) -> u64 (share v) = share v.
Proof.
  intros He Hp. pose proof (pte_bounds s v He Hp) as Hv. unfold u64, share. apply Z.bits_inj'. intros n Hn.
  destruct (decide (n < 64)); [by rewrite Z.mod_pow2_bits_low by lia|].
  rewrite Z.mod_pow2_bits_high, Z.ldiff_spec by lia. rewrite <- (Z.mod_small v (2 ^ 64)) by done. by rewrite Z.mod_pow2_bits_high by lia.
Qed.

(** ** Counting the mappings of a page *)

Definition upage (sz va : Z) : Prop := 0 <= va < sz /\ va mod PGSIZE = 0.

(** How often the address space maps page [pg] below [sz]. *)
Definition mappings (T : tree) (s : kstate) (pg sz : Z) : Z :=
  Z.of_nat (length (filter (fun va => has (entry T s va) PTE_V = true /\ PTE2PA (entry T s va) = pg) (zstep 0 sz PGSIZE))).

Lemma zstep_snoc a d n : 0 < d -> 0 <= n -> zstep a (a + d * n + d) d = zstep a (a + d * n) d ++ [a + d * n].
Proof.
  intros Hd Hn. unfold zstep. replace ((a + d * n + d - a + d - 1) / d) with (n + 1).
  2:{ apply (Z.div_unique _ _ _ (d - 1)); [lia|ring]. }
  replace ((a + d * n - a + d - 1) / d) with n.
  2:{ apply (Z.div_unique _ _ _ (d - 1)); [lia|ring]. }
  replace (Z.to_nat (n + 1)) with (S (Z.to_nat n)) by lia. rewrite seq_S, fmap_app. simpl. do 3 f_equal. lia.
Qed.

Lemma zstep_roundup a d n b : 0 < d -> 0 <= n -> a + d * n - d < b <= a + d * n -> zstep a b d = zstep a (a + d * n) d.
Proof.
  intros Hd Hn Hb. unfold zstep. do 3 f_equal. transitivity n.
  - symmetry. apply (Z.div_unique _ _ _ (b - a + d - 1 - d * n)); lia.
  - apply (Z.div_unique _ _ _ (d - 1)); [lia|ring].
Qed.

Lemma mappings_step T s pg i :
  0 <= i -> i mod PGSIZE = 0 ->
  mappings T s pg (i + PGSIZE) = mappings T s pg i + if decide (has (entry T s i) PTE_V = true /\ PTE2PA (entry T s i) = pg) then 1 else 0.
Proof.
  intros Hi Hal. apply Z.mod_divide in Hal as [n Hn]; [|done]. unfold mappings.
  pose proof (zstep_snoc 0 PGSIZE n) as Hz. rewrite !Z.add_0_l in Hz. replace (PGSIZE * n) with i in Hz by lia.
  rewrite Hz by (unfold PGSIZE in *; lia). rewrite filter_app, length_app. rewrite (filter_cons _ i []). case_decide; simpl; lia.
Qed.

Lemma mappings_roundup T s pg sz x :
  0 <= x -> x mod PGSIZE = 0 -> x - PGSIZE < sz <= x -> mappings T s pg x = mappings T s pg sz.
Proof.
  intros Hx Hal Hs. apply Z.mod_divide in Hal as [n Hn]; [|done]. unfold mappings.
  pose proof (zstep_roundup 0 PGSIZE n sz) as Hz. rewrite !Z.add_0_l in Hz. replace (PGSIZE * n) with x in Hz by lia.
  rewrite Hz by (unfold PGSIZE in *; lia). done.
Qed.

Lemma mappings_mono T s pg i j : i <= j -> mappings T s pg i <= mappings T s pg j.
Proof.
  intros Hij. unfold mappings, zstep. apply Nat2Z.inj_le.
  assert (Hle : (Z.to_nat ((i - 0 + PGSIZE - 1) / PGSIZE) <= Z.to_nat ((j - 0 + PGSIZE - 1) / PGSIZE))%nat).
  { pose proof (Z.div_le_mono (i - 0 + PGSIZE - 1) (j - 0 + PGSIZE - 1) PGSIZE ltac:(done) ltac:(lia)). lia. }
  apply Nat.le_exists_sub in Hle as (k & -> & _). rewrite Nat.add_comm, seq_app, fmap_app, filter_app, length_app. lia.
Qed.

(** ** Two address spaces *)

(** The tables of the two address spaces and the free pages are apart. *)
Record spaces (fl : list Z) (a : Z) (A : tree) (b : Z) (B : tree) (s : kstate) : Prop := {
  sp_a : ptable a A s;
  sp_b : ptable b B s;
  sp_free : free_list fl s;
  sp_unlocked : unlocked s;
  sp_na : not_free A fl;
  sp_nb : not_free B fl;
  sp_sep k k' t : A !! k = Some t -> B !! k' = Some t -> False;
}.

Lemma spaces_sym fl a A b B s : spaces fl a A b B s -> spaces fl b B a A s.
Proof. intros []. constructor; eauto. Qed.

Lemma spaces_disjoint fl a A b B s x : spaces fl a A b B s -> in_tree B x -> ~ in_tree A x.
Proof.
  intros Hs (k & t & Ht & Hx) (k' & t' & Ht' & Hx'). assert (t <> t') by (intros ->; by eapply (sp_sep _ _ _ _ _ _ Hs)).
  destruct (disjoint_pages t t' x) as [H1|H1]; [eapply ptable_align, Ht; apply Hs|eapply ptable_align, Ht'; apply Hs|done|done|..];
    unfold in_page in *; lia.
Qed.

Lemma spaces_store fl a A b B s va p x :
  spaces fl a A b B s -> entry_at A va = Some p -> spaces fl a A b B (set_k_mem (store64 (k_mem s) p x) s).
Proof.
  intros Hs Hat. pose proof Hs as [Ha Hb Hf Hu Hna Hnb Hsep]. constructor; try done.
  - by eapply store_ptable.
  - eapply ptable_frame; [exact Hb|done|]. intros y Hy. eapply store_mem; [exact Ha|exact Hat|]. by eapply spaces_disjoint.
  - eapply store_free; [exact Ha|exact Hat|exact Hf|exact Hna].
Qed.

Lemma spaces_store_entry fl a A b B s va p x va' :
  spaces fl a A b B s -> entry_at A va = Some p -> entry B (set_k_mem (store64 (k_mem s) p x) s) va' = entry B s va'.
Proof.
  intros Hs Hat. apply entry_frame. intros y Hy. eapply store_mem; [apply Hs|exact Hat|]. by eapply spaces_disjoint.
Qed.

Lemma spaces_ref fl a A b B s pg x :
  spaces fl a A b B s -> pg mod PGSIZE = 0 -> pg ∉ fl -> spaces fl a A b B (with_ref pg x s).
Proof.
  intros [Ha Hb Hf Hu Hna Hnb Hsep] Hal Hpg. constructor; try done.
  - by eapply ptable_frame.
  - by eapply ptable_frame.
  - by apply free_list_with_ref.
Qed.

Lemma free_page_off fl a A b B s r k t x :
  spaces fl a A b B s -> r ∈ fl -> A !! k = Some t -> in_page t x -> ~ in_page r x.
Proof.
  intros Hs Hr Ht Hx Hrx. assert (r <> t) by (intros ->; by apply (sp_na _ _ _ _ _ _ Hs _ _ Ht)).
  pose proof (fl_page _ _ (sp_free _ _ _ _ _ _ Hs) _ Hr) as [Hal _].
  destruct (disjoint_pages r t x) as [H1|H1]; [done|eapply ptable_align, Ht; apply Hs|done|done|..]; unfold in_page in *; lia.
Qed.

Lemma spaces_grow_mem fl a A b B s used B' fl' s' x :
  spaces fl a A b B s -> grown b B fl s used B' fl' s' -> in_tree A x -> k_mem s' !!! x = k_mem s !!! x.
Proof.
  intros Hs G HA. apply (g_mem _ _ _ _ _ _ _ _ G).
  - intros HB. by eapply (spaces_disjoint fl a A b B s x).
  - intros r Hr. destruct HA as (k & t & Ht & Hx). eapply free_page_off; [exact Hs| |exact Ht|exact Hx].
    rewrite (g_used _ _ _ _ _ _ _ _ G). set_solver.
Qed.

Lemma spaces_grow fl a A b B s used B' fl' s' :
  spaces fl a A b B s -> grown b B fl s used B' fl' s' -> spaces fl' a A b B' s'.
Proof.
  intros Hs G. pose proof Hs as [Ha Hb Hf Hu Hna Hnb Hsep]. pose proof G as [Hb' Hf' Hus _ Hnew _ _ _ Hsm]. constructor; try done.
  - eapply ptable_frame; [exact Ha| |intros x Hx; by eapply spaces_grow_mem]. by destruct Hsm as (? & ? & ? & ->).
  - by eapply unlocked_same.
  - intros k t Ht Hin. apply (Hna _ _ Ht). rewrite Hus. set_solver.
  - by eapply grown_not_free.
  - intros k k' t H1 [H2|H2]%Hnew; [by eapply Hsep|]. apply (Hna _ _ H1). rewrite Hus. set_solver.
Qed.

Lemma below_step i va : i mod PGSIZE = 0 -> va mod PGSIZE = 0 -> va < i + PGSIZE <-> va <= i.
Proof.
  intros Hi Hv. split; [|unfold PGSIZE; lia]. intros H. destruct (decide (va = i)) as [->|Hne]; [lia|].
  destruct (page_gap va i) as [H1|H1]; try done; unfold PGSIZE in *; lia.
Qed.

(** ** The loop *)

(** A page of the parent's memory: neither a table nor free. *)
Record data_page (fl : list Z) (A B : tree) (s : kstate) (pg : Z) : Prop := {
  dp_page : is_page s pg;
  dp_used : pg ∉ fl;
  dp_a k : A !! k <> Some pg;
  dp_b k : B !! k <> Some pg;
  dp_ref : 1 <= refcount s pg;
}.

Section copy.
  Context (fl : list Z) (old new : Z) (To Tn : tree) (sz : Z) (s : kstate).
  Context (Hsp : spaces fl old To new Tn s) (Hsz : 0 <= sz <= MAXVA).
  Context (Hempty : forall va, upage sz va -> has (entry Tn s va) PTE_V = false).
  Context (Hdata : forall va, upage sz va -> has (entry To s va) PTE_V = true -> data_page fl To Tn s (PTE2PA (entry To s va))).
  Notation valid va := (has (entry To s va) PTE_V = true).

(** The parent's entries below [io] have lost their write permission, the child
    shares those from [lo] up to [ic]. *)
Record sharing (lo ic io : Z) (used fl1 : list Z) (Tn1 : tree) (s1 : kstate) : Prop := {
  sh_spaces : spaces fl1 old To new Tn1 s1;
  sh_used : fl = used ++ fl1;
  sh_new k t : Tn1 !! k = Some t -> Tn !! k = Some t \/ t ∈ used;
  sh_old va : upage MAXVA va -> entry To s1 va = if decide (va < io /\ valid va) then share (entry To s va) else entry To s va;
  sh_child va : upage MAXVA va ->
    if decide ((lo <= va < ic) /\ valid va) then entry Tn1 s1 va = share (entry To s va)
    else if decide (va < sz) then has (entry Tn1 s1 va) PTE_V = false else entry Tn1 s1 va = entry Tn s va;
  sh_ref pg : pg mod PGSIZE = 0 -> pg ∉ used -> refcount s1 pg = refcount s pg + mappings To s pg ic - mappings To s pg lo;
  sh_mem x : ~ in_tree To x -> ~ in_tree Tn x -> (forall r, r ∈ used -> ~ in_page r x) -> k_mem s1 !!! x = k_mem s !!! x;
  sh_same : user_same s s1;
}.

Lemma upage_max va : upage sz va -> upage MAXVA va.
Proof using Type*. unfold upage. lia. Qed.

Lemma sharing_start : sharing 0 0 0 [] fl Tn s.
Proof using Type*.
  constructor; try done.
  - intros k t H. by left.
  - intros va Hva. rewrite decide_False by (unfold upage in *; lia). done.
  - intros va Hva. rewrite decide_False by lia. case_decide; [|done]. apply Hempty. unfold upage in *. lia.
  - intros pg _ _. lia.
Qed.

Lemma sharing_data lo ic io used fl1 Tn1 s1 va :
  sharing lo ic io used fl1 Tn1 s1 -> upage sz va -> valid va ->
  let pg := PTE2PA (entry To s va) in is_page s1 pg /\ pg ∉ fl1 /\ pg ∉ used.
Proof using Type*.
  intros H Hva Hv pg. destruct (Hdata va Hva Hv) as [Hp Hu _ _ _]. fold pg in Hp, Hu. rewrite (sh_used _ _ _ _ _ _ _ H) in Hu.
  destruct (sh_same _ _ _ _ _ _ _ H) as (? & ? & ? & ->). split; [done|]. set_solver.
Qed.

(** The parent's entry loses its write permission. *)
Lemma sharing_parent i used fl1 Tn1 s1 p :
  sharing 0 i i used fl1 Tn1 s1 -> upage sz i -> valid i -> entry_at To i = Some p ->
  sharing 0 i (i + PGSIZE) used fl1 Tn1 (set_k_mem (store64 (k_mem s1) p (share (entry To s i))) s1).
Proof using Type*.
  intros Hsh Hi Hv Hat. pose proof Hsh as [Hs Hu Hn Ho Hc Hr Hm Hsm]. pose proof (upage_max _ Hi) as Hi'. constructor; try done.
  - by eapply spaces_store.
  - intros va Hva. erewrite store_entry; [|apply Hs|exact Hat|apply Hi'|apply Hva|apply Hi'|apply Hva].
    pose proof (below_step i va (proj2 Hi) (proj2 Hva)) as Hb. case_decide as E.
    + subst va. rewrite decide_True by (split; [lia|done]). eapply share_u64; [apply Hsp|]. by apply (Hdata i).
    + rewrite (Ho va Hva). do 2 case_decide; try done; exfalso; naive_solver lia.
  - intros va Hva. erewrite spaces_store_entry; [|exact Hs|exact Hat]. by apply Hc.
  - intros x H1 H2 H3. erewrite store_mem; [by apply Hm|apply Hs|exact Hat|done].
  - etrans; [exact Hsm|]. exists (store64 (k_mem s1) p (share (entry To s i))), (k_freelist s1), (k_refcount s1). by destruct s1.
Qed.

(** The child's tables grow. *)
Lemma sharing_grow lo ic io used fl1 Tn1 s1 used' Tn2 fl2 s2 :
  sharing lo ic io used fl1 Tn1 s1 -> grown new Tn1 fl1 s1 used' Tn2 fl2 s2 -> sharing lo ic io (used ++ used') fl2 Tn2 s2.
Proof using Type*.
  intros Hsh G. pose proof Hsh as [Hs Hu Hn Ho Hc Hr Hm Hsm]. pose proof G as [_ _ Hu' _ Hn' He' Hm' Hr' Hsm'].
  constructor; [by eapply spaces_grow|by rewrite Hu, Hu', app_assoc| | | | | |by etrans].
  - intros k t [H|H]%Hn'; [apply Hn in H|]; set_solver.
  - intros va Hva. rewrite <- (Ho va Hva). apply entry_frame. intros x Hx. by eapply spaces_grow_mem.
  - intros va Hva. rewrite (He' va). by apply Hc.
  - intros pg Hal Hpg. rewrite Hr' by set_solver. apply Hr; set_solver.
  - intros x H1 H2 H3. rewrite Hm'; [apply Hm; set_solver| |set_solver].
    intros (k & t & Ht & Hx). apply Hn in Ht as [Ht|Ht]; [by apply H2; exists k, t|]. apply (H3 t); [set_solver|done].
Qed.

(** The child gets the entry, the page a reference. *)
Lemma sharing_map i io used fl1 Tn1 s1 p :
  sharing 0 i io used fl1 Tn1 s1 -> upage sz i -> valid i -> entry_at Tn1 i = Some p ->
  let s2 := set_k_mem (store64 (k_mem s1) p (share (entry To s i))) s1 in
  let pg := PTE2PA (entry To s i) in
  sharing 0 (i + PGSIZE) io used fl1 Tn1 (with_ref pg (refcount s2 pg + 1) s2).
Proof using Type*.
  intros Hsh Hi Hv Hat s2 pg. pose proof (sharing_data _ _ _ _ _ _ _ i Hsh Hi Hv) as (Hpg & Hfl & Hus). fold pg in Hpg, Hfl, Hus.
  pose proof Hsh as [Hs Hu Hn Ho Hc Hr Hm Hsm]. pose proof (upage_max _ Hi) as Hi'. pose proof Hpg as [Hpa _].
  assert (Hs2 : spaces fl1 old To new Tn1 s2) by (by eapply spaces_sym, spaces_store; [apply spaces_sym|]).
  constructor; try done.
  - by apply spaces_ref.
  - intros va Hva. change (entry To (with_ref _ _ s2) va) with (entry To s2 va). unfold s2.
    erewrite spaces_store_entry; [by apply Ho|by apply spaces_sym|exact Hat].
  - intros va Hva. change (entry Tn1 (with_ref _ _ s2) va) with (entry Tn1 s2 va). unfold s2.
    erewrite store_entry; [|apply Hs|exact Hat|apply Hi'|apply Hva|apply Hi'|apply Hva].
    pose proof (below_step i va (proj2 Hi) (proj2 Hva)) as Hb. specialize (Hc va Hva). destruct Hva as [Hva _]. destruct (decide (va = i)) as [->|E].
    + rewrite decide_True by (split; [lia|done]). eapply share_u64; [apply Hsp|]. by apply (Hdata i).
    + destruct (decide (0 <= va < i /\ valid va)).
      * rewrite decide_True by (split; [lia|tauto]). done.
      * rewrite decide_False by (intros [? ?]; naive_solver lia). done.
  - intros pg' Hal Hpg'. rewrite refcount_with_ref by done. rewrite mappings_step by (apply Hi || apply Hi'). fold pg. destruct (decide (pg' = pg)) as [->|E].
    + rewrite decide_True by done. unfold s2. rewrite refcount_set_mem, Hr by done. lia.
    + rewrite decide_False by naive_solver. unfold s2. rewrite refcount_set_mem, Hr by done. lia.
  - intros x H1 H2 H3. cbn [with_ref k_mem set_k_refcount]. unfold s2. erewrite store_mem; [by apply Hm|apply (sp_b _ _ _ _ _ _ Hs)|exact Hat|].
    intros (k & t & Ht & Hx). apply Hn in Ht as [Ht|Ht]; [by apply H2; exists k, t|]. by apply (H3 t).
  - etrans; [exact Hsm|]. exists (k_mem s2), (k_freelist s1), (<[phys2ind pg := refcount s2 pg + 1]> (k_refcount s1)). by destruct s1.
Qed.

(** An entry of the child is dropped again. *)
Lemma sharing_unmap j ic io used fl1 Tn1 s1 p :
  sharing j ic io used fl1 Tn1 s1 -> upage sz j -> j < ic -> valid j -> entry_at Tn1 j = Some p ->
  let pg := PTE2PA (entry To s j) in
  sharing (j + PGSIZE) ic io used fl1 Tn1 (set_k_mem (store64 (k_mem s1) p 0) (with_ref pg (refcount s1 pg - 1) s1)).
Proof using Type*.
  intros Hsh Hj Hlt Hv Hat pg. pose proof (sharing_data _ _ _ _ _ _ _ j Hsh Hj Hv) as (Hpg & Hfl & Hus). fold pg in Hpg, Hfl, Hus.
  pose proof Hsh as [Hs Hu Hn Ho Hc Hr Hm Hsm]. pose proof (upage_max _ Hj) as Hj'. pose proof Hpg as [Hpa _].
  set (s2 := with_ref pg (refcount s1 pg - 1) s1).
  assert (Hs2 : spaces fl1 old To new Tn1 s2) by (by apply spaces_ref).
  change (store64 (k_mem s1)) with (store64 (k_mem s2)). constructor; try done.
  - by eapply spaces_sym, spaces_store; [apply spaces_sym|].
  - intros va Hva. erewrite spaces_store_entry; [by apply Ho|by apply spaces_sym|exact Hat].
  - intros va Hva. erewrite store_entry; [|apply Hs2|exact Hat|apply Hj'|apply Hva|apply Hj'|apply Hva].
    change (entry Tn1 s2 va) with (entry Tn1 s1 va). specialize (Hc va Hva). pose proof (below_step j va (proj2 Hj) (proj2 Hva)) as Hb. destruct (decide (va = j)) as [->|E].
    + rewrite decide_False by (intros [? ?]; unfold PGSIZE in *; lia). rewrite decide_True by apply Hj. done.
    + destruct (decide ((j <= va < ic) /\ valid va)).
      * rewrite decide_True by (split; [lia|tauto]). done.
      * rewrite decide_False by (intros [? ?]; unfold PGSIZE in *; naive_solver lia). done.
  - intros pg' Hal Hpg'. rewrite refcount_set_mem. unfold s2. rewrite refcount_with_ref by done.
    rewrite mappings_step by (apply Hj || apply Hj'). fold pg. destruct (decide (pg' = pg)) as [->|E].
    + rewrite decide_True by done. rewrite Hr by done. lia.
    + rewrite decide_False by naive_solver. rewrite Hr by done. lia.
  - intros x H1 H2 H3. erewrite store_mem; [by apply Hm|apply (sp_b _ _ _ _ _ _ Hs2)|exact Hat|].
    intros (k & t & Ht & Hx). apply Hn in Ht as [Ht|Ht]; [by apply H2; exists k, t|]. by apply (H3 t).
  - etrans; [exact Hsm|]. exists (store64 (k_mem s1) p 0), (k_freelist s1), (<[phys2ind pg := refcount s1 pg - 1]> (k_refcount s1)). by destruct s1.
Qed.

(** Pages the parent does not map are skipped. *)
Lemma sharing_skip i used fl1 Tn1 s1 : sharing 0 i i used fl1 Tn1 s1 -> upage sz i -> ~ valid i -> sharing 0 (i + PGSIZE) (i + PGSIZE) used fl1 Tn1 s1.
Proof using Type*.
  intros Hsh Hi Hv. pose proof Hsh as [Hs Hu Hn Ho Hc Hr Hm Hsm]. constructor; try done.
  - intros va Hva. pose proof (below_step i va (proj2 Hi) (proj2 Hva)) as Hb. rewrite (Ho va Hva).
    destruct (decide (va = i)) as [->|]; [by rewrite !decide_False by tauto|]. do 2 case_decide; try done; exfalso; naive_solver lia.
  - intros va Hva. pose proof (below_step i va (proj2 Hi) (proj2 Hva)) as Hb. specialize (Hc va Hva).
    destruct (decide (va = i)) as [->|]; [rewrite decide_False in Hc by tauto; by rewrite decide_False by tauto|].
    destruct (decide (0 <= va < i /\ valid va)); [rewrite decide_True by (split; [lia|tauto])|rewrite decide_False by (intros [? ?]; naive_solver lia)]; done.
  - intros pg Hal Hpg. rewrite mappings_step by apply Hi. rewrite decide_False by tauto. rewrite Hr by done. lia.
Qed.

Lemma unsharing_skip j ic io used fl1 Tn1 s1 : sharing j ic io used fl1 Tn1 s1 -> upage sz j -> ~ valid j -> sharing (j + PGSIZE) ic io used fl1 Tn1 s1.
Proof using Type*.
  intros Hsh Hj Hv. pose proof Hsh as [Hs Hu Hn Ho Hc Hr Hm Hsm]. constructor; try done.
  - intros va Hva. pose proof (below_step j va (proj2 Hj) (proj2 Hva)) as Hb. specialize (Hc va Hva).
    destruct (decide (va = j)) as [->|]; [rewrite decide_False in Hc by tauto; by rewrite decide_False by tauto|].
    destruct (decide ((j <= va < ic) /\ valid va)); [rewrite decide_True by (split; [lia|tauto])|rewrite decide_False by (intros [? ?]; unfold PGSIZE in *; naive_solver lia)]; done.
  - intros pg Hal Hpg. rewrite mappings_step by apply Hj. rewrite decide_False by tauto. rewrite Hr by done. lia.
Qed.

(** A page that is not writable stays as it is. *)
Lemma sharing_readonly i used fl1 Tn1 s1 :
  sharing 0 i i used fl1 Tn1 s1 -> upage sz i -> has (entry To s i) PTE_W = false -> sharing 0 i (i + PGSIZE) used fl1 Tn1 s1.
Proof using Type*.
  intros Hsh Hi HW. pose proof Hsh as [Hs Hu Hn Ho Hc Hr Hm Hsm]. constructor; try done.
  intros va Hva. pose proof (below_step i va (proj2 Hi) (proj2 Hva)) as Hb. rewrite (Ho va Hva).
  destruct (decide (va = i)) as [->|].
  - rewrite decide_False by lia. case_decide; [|done]. unfold share. by rewrite ldiff_has.
  - do 2 case_decide; try done; exfalso; naive_solver lia.
Qed.

Lemma incref_eq st pg :
  KERNBASE <= k_end st -> is_page st pg -> LRefcount ∉ k_held st -> incref pg st = Ret tt (with_ref pg (refcount st pg + 1) st).
Proof using Type.
  intros He Hp Hh. unfold incref. mred. rewrite acquire_eq by done. mred. rewrite refcnt_get_eq by done. mred.
  rewrite refcnt_set_eq by done. mred. by rewrite (release_eq _ _ (k_held st)) by done.
Qed.

(** The second half of the loop body. *)
Lemma map_step i used fl1 Tn1 s1 :
  sharing 0 i (i + PGSIZE) used fl1 Tn1 s1 -> upage sz i -> valid i ->
  returns ((e ← mappages new i PGSIZE (PTE2PA (entry To s i)) (Z.ldiff (PTE_FLAGS (entry To s i)) PTE_W);
            if negb (e =? 0) then mret (Some i) else incref (PTE2PA (entry To s i));; mret None) s1)
    (fun r s2 => exists used2 fl2 Tn2,
      match r with
      | None => sharing 0 (i + PGSIZE) (i + PGSIZE) used2 fl2 Tn2 s2
      | Some x => x = i /\ fl2 = [] /\ sharing 0 i (i + PGSIZE) used2 fl2 Tn2 s2
      end).
Proof using Type*.
  intros Hsh Hi Hv. pose proof (upage_max _ Hi) as Hi'. pose proof (sh_spaces _ _ _ _ _ _ _ Hsh) as Hs.
  pose proof (sh_child _ _ _ _ _ _ _ Hsh i Hi') as Hc. rewrite decide_False in Hc by lia. rewrite decide_True in Hc by apply Hi.
  mspec (mappages_page new Tn1 fl1 s1 i); [apply Hs|apply Hs|apply Hs|apply Hs|apply Hi'|apply Hi|exact Hc|].
  intros e s2 (used' & Tn2 & fl2 & s3 & G & [(-> & -> & ->)|(-> & p & Hat & ->)]).
  - simpl. exists (used ++ used'), [], Tn2. split_and!; [done..|]. by eapply sharing_grow.
  - cbn [negb Z.eqb]. mred. rewrite share_eq by done.
    assert (Hsh3 : sharing 0 i (i + PGSIZE) (used ++ used') fl2 Tn2 s3) by (by eapply sharing_grow).
    pose proof (sharing_data _ _ _ _ _ _ _ i Hsh3 Hi Hv) as (Hpg & _ & _). pose proof (sh_spaces _ _ _ _ _ _ _ Hsh3) as Hs3.
    rewrite incref_eq by (apply Hpg || apply (sp_unlocked _ _ _ _ _ _ Hs3) || apply (pt_end _ _ _ (sp_b _ _ _ _ _ _ Hs3))).
    mred. exists (used ++ used'), fl2, Tn2. exact (sharing_map i _ _ _ _ _ p Hsh3 Hi Hv Hat).
Qed.

Lemma copy_step i used fl1 Tn1 s1 :
  sharing 0 i i used fl1 Tn1 s1 -> upage sz i ->
  returns ((pte ← walk old i false;
    if pte =? 0 then mret None else
    v ← pte_load pte;
    if negb (has v PTE_V) then mret None else
    e ← (if has (PTE_FLAGS v) PTE_W then
           pte_store pte (Z.ldiff v PTE_W);;
           mappages new i PGSIZE (PTE2PA v) (Z.ldiff (PTE_FLAGS v) PTE_W)
         else mappages new i PGSIZE (PTE2PA v) (PTE_FLAGS v));
    if negb (e =? 0) then mret (Some i) else incref (PTE2PA v);; mret None) s1)
    (fun r s2 => exists used2 fl2 Tn2,
      match r with
      | None => sharing 0 (i + PGSIZE) (i + PGSIZE) used2 fl2 Tn2 s2
      | Some x => x = i /\ fl2 = [] /\ sharing 0 i (i + PGSIZE) used2 fl2 Tn2 s2
      end).
Proof using Type*.
  intros Hsh Hi. pose proof (upage_max _ Hi) as Hi'. pose proof (sh_spaces _ _ _ _ _ _ _ Hsh) as Hs.
  assert (Hskip : ~ valid i -> exists used2 fl2 Tn2, sharing 0 (i + PGSIZE) (i + PGSIZE) used2 fl2 Tn2 s1).
  { intros Hv. exists used, fl1, Tn1. by apply sharing_skip. }
  pose proof (sh_old _ _ _ _ _ _ _ Hsh i Hi') as He. rewrite decide_False in He by lia.
  mred. rewrite (walk_tree old To) by (apply Hs || apply Hi'). mred. destruct (entry_at To i) as [p|] eqn:Hat; cbn [from_option id].
  2:{ apply Hskip. by rewrite entry_invalid_missing. }
  destruct (entry_at_word _ _ _ Hat) as (t & Ht & Hpt). pose proof (ptable_pos _ _ _ _ _ (sp_a _ _ _ _ _ _ Hs) Ht). pose proof (PX_bounds 0 i ltac:(lia)).
  rewrite (proj2 (Z.eqb_neq p 0)) by lia. unfold pte_load, pte_store. mred.
  unfold entry at 1 in He. rewrite Hat in He. rewrite He. destruct (has (entry To s i) PTE_V) eqn:Hv; cbn [negb]; [|by apply Hskip].
  pose proof (flags_has (entry To s i) 2 ltac:(lia)) as HW. change (2 ^ 2) with PTE_W in HW. rewrite HW.
  destruct (has (entry To s i) PTE_W) eqn:HWv.
  - mred. apply (map_step i used fl1 Tn1); [by apply sharing_parent|done|done].
  - replace (PTE_FLAGS (entry To s i)) with (Z.ldiff (PTE_FLAGS (entry To s i)) PTE_W) by (by apply ldiff_has).
    apply (map_step i used fl1 Tn1); [by apply sharing_readonly|done|done].
Qed.

(** The pages shared so far are given back. *)
Lemma unmap_step j ic io used fl1 Tn1 s1 :
  sharing j ic io used fl1 Tn1 s1 -> upage sz j -> j < ic -> ic mod PGSIZE = 0 ->
  returns (uvmunmap new j 1 true s1) (fun _ s2 => sharing (j + PGSIZE) ic io used fl1 Tn1 s2).
Proof using Type*.
  intros Hsh Hj Hlt Hic. pose proof (upage_max _ Hj) as Hj'. pose proof (sh_spaces _ _ _ _ _ _ _ Hsh) as Hs.
  pose proof (sh_child _ _ _ _ _ _ _ Hsh j Hj') as Hc. destruct (decide (valid j)) as [Hv|Hv].
  - rewrite decide_True in Hc by (split; [lia|done]).
    pose proof (sharing_data _ _ _ _ _ _ _ j Hsh Hj Hv) as (Hpg & _ & Hus). set (pg := PTE2PA (entry To s j)) in *.
    assert (Href : 1 < refcount s1 pg).
    { rewrite (sh_ref _ _ _ _ _ _ _ Hsh) by (done || apply Hpg). pose proof (dp_ref _ _ _ _ _ (Hdata j Hj Hv)) as H1. fold pg in H1.
      pose proof (mappings_step To s pg j (proj1 (proj1 Hj)) (proj2 Hj)) as H2. rewrite decide_True in H2 by done.
      pose proof (below_step j ic (proj2 Hj) Hic). pose proof (mappings_mono To s pg (j + PGSIZE) ic ltac:(lia)). lia. }
    rewrite (uvmunmap_page new Tn1 fl1); [|apply Hs|apply Hs|apply Hs|apply Hj'|apply Hj|].
    + rewrite Hc, share_valid, Hv, share_pa. fold pg. destruct (entry_at Tn1 j) as [p|] eqn:Hat; cbn [from_option id returns].
      * by apply sharing_unmap.
      * rewrite (entry_invalid_missing _ _ _ Hat) in Hc. rewrite <- share_valid, <- Hc in Hv. done.
    + intros _. rewrite Hc, share_pa. fold pg. done.
  - rewrite decide_False in Hc by tauto. rewrite decide_True in Hc by apply Hj.
    rewrite (uvmunmap_page new Tn1 fl1); [|apply Hs|apply Hs|apply Hs|apply Hj'|apply Hj|congruence].
    rewrite Hc. cbn [returns]. by apply unsharing_skip.
Qed.
End copy.

(** ** The theorem *)

(** A parent and a child that maps nothing yet below [sz]. *)
Record fork_ready (fl : list Z) (old : Z) (To : tree) (new : Z) (Tn : tree) (sz : Z) (s : kstate) : Prop := {
  fr_spaces : spaces fl old To new Tn s;
  fr_size : 0 <= sz <= MAXVA;
  fr_empty va : upage sz va -> has (entry Tn s va) PTE_V = false;
  fr_data va : upage sz va -> has (entry To s va) PTE_V = true -> data_page fl To Tn s (PTE2PA (entry To s va));
}.

(** The byte a process has at [va]. *)
Definition ubyte (T : tree) (s : kstate) (va : Z) : option Z :=
  let e := entry T s va in
  if has e PTE_V then Some (k_mem s !!! (PTE2PA e + va mod PGSIZE)) else None.

Lemma entry_rounddown T s va : entry T s (PGROUNDDOWN va) = entry T s va.
Proof. unfold entry, entry_at, pte_addr. by rewrite !PX_rounddown by lia. Qed.

Lemma upage_rounddown sz va : 0 <= va < sz -> upage sz (PGROUNDDOWN va).
Proof.
  intros Hva. unfold upage. rewrite PGROUNDDOWN_eq. unfold PGSIZE. pose proof (Z.mod_pos_bound va 4096 ltac:(lia)).
  pose proof (Z.mod_le va 4096 ltac:(lia) ltac:(lia)). split; [lia|]. by rewrite Zminus_mod, Zmod_mod, Z.sub_diag.
Qed.

(** Bytes of a data page are not bytes of the tables or of free pages. *)
Lemma data_page_mem fl old To new Tn sz s lo ic io used fl1 Tn1 s1 pg o :
  sharing fl old new To Tn sz s lo ic io used fl1 Tn1 s1 -> spaces fl old To new Tn s -> data_page fl To Tn s pg -> 0 <= o < PGSIZE ->
  k_mem s1 !!! (pg + o) = k_mem s !!! (pg + o).
Proof.
  intros Hsh Hs [[Hal Hb] Hfl Ha Hbb _] Ho. assert (Hin : in_page pg (pg + o)) by (unfold in_page; lia).
  assert (Hoff : forall t, t mod PGSIZE = 0 -> t <> pg -> ~ in_page t (pg + o)).
  { intros t Ht Hne Hx. destruct (disjoint_pages t pg (pg + o) Ht Hal Hne Hin); unfold in_page in Hx; lia. }
  apply (sh_mem _ _ _ _ _ _ _ _ _ _ _ _ _ _ Hsh).
  - intros (k & t & Ht & Hx). apply (Hoff t); [eapply ptable_align, Ht; apply Hs|intros ->; by apply (Ha k)|done].
  - intros (k & t & Ht & Hx). apply (Hoff t); [eapply ptable_align, Ht; apply Hs|intros ->; by apply (Hbb k)|done].
  - intros r Hr. rewrite (sh_used _ _ _ _ _ _ _ _ _ _ _ _ _ _ Hsh) in Hfl. apply Hoff; [|set_solver].
    apply (fl_page _ _ (sp_free _ _ _ _ _ _ Hs)). rewrite (sh_used _ _ _ _ _ _ _ _ _ _ _ _ _ _ Hsh). set_solver.
Qed.

(** An entry that is the parent's, up to the write permission, shows its bytes. *)
Lemma shared_ubyte fl old To new Tn sz s lo ic io used fl1 Tn1 s1 T va :
  fork_ready fl old To new Tn sz s -> sharing fl old new To Tn sz s lo ic io used fl1 Tn1 s1 -> 0 <= va < sz ->
  has (entry T s1 va) PTE_V = has (entry To s va) PTE_V ->
  (has (entry To s va) PTE_V = true -> PTE2PA (entry T s1 va) = PTE2PA (entry To s va)) ->
  ubyte T s1 va = ubyte To s va.
Proof.
  intros Hr Hsh Hva HV HP. unfold ubyte. rewrite HV. destruct (has (entry To s va) PTE_V) eqn:E; [|done]. rewrite HP by done. f_equal.
  eapply data_page_mem; [exact Hsh|apply Hr| |by apply Z.mod_pos_bound].
  rewrite <- entry_rounddown. apply (fr_data _ _ _ _ _ _ _ Hr); [by apply upage_rounddown|]. by rewrite entry_rounddown.
Qed.

Section theorem.
  Context (fl : list Z) (old : Z) (To : tree) (new : Z) (Tn : tree) (sz : Z) (s : kstate).
  Context (Hr : fork_ready fl old To new Tn sz s).
  Notation sharing := (sharing fl old new To Tn sz s).

Lemma sharing_parent_entry lo ic io used fl1 Tn1 s1 va :
  sharing lo ic io used fl1 Tn1 s1 -> 0 <= va < MAXVA ->
  has (entry To s1 va) PTE_V = has (entry To s va) PTE_V /\ PTE2PA (entry To s1 va) = PTE2PA (entry To s va).
Proof using Type*.
  intros Hsh Hva. rewrite <- (entry_rounddown To s1), <- (entry_rounddown To s).
  rewrite (sh_old _ _ _ _ _ _ _ _ _ _ _ _ _ _ Hsh _ (upage_rounddown _ _ Hva)). case_decide; [|done]. by rewrite share_valid, share_pa.
Qed.

Lemma sharing_parent_ubyte lo ic io used fl1 Tn1 s1 va :
  sharing lo ic io used fl1 Tn1 s1 -> 0 <= va < sz -> ubyte To s1 va = ubyte To s va.
Proof using Type*.
  intros Hsh Hva. pose proof (fr_size _ _ _ _ _ _ _ Hr).
  destruct (sharing_parent_entry _ _ _ _ _ _ _ va Hsh) as [H1 H2]; [lia|]. by eapply shared_ubyte.
Qed.

Lemma sharing_child_ubyte ic io used fl1 Tn1 s1 va :
  sharing 0 ic io used fl1 Tn1 s1 -> sz <= ic -> 0 <= va < sz -> ubyte Tn1 s1 va = ubyte To s va.
Proof using Type*.
  intros Hsh Hic Hva. pose proof (fr_size _ _ _ _ _ _ _ Hr). pose proof (upage_rounddown _ _ Hva) as Hpg.
  pose proof (sh_child _ _ _ _ _ _ _ _ _ _ _ _ _ _ Hsh (PGROUNDDOWN va) ltac:(unfold upage in *; lia)) as Hc.
  rewrite !entry_rounddown in Hc. unfold upage in Hpg. destruct (decide (has (entry To s va) PTE_V = true)) as [HV|HV].
  - rewrite decide_True in Hc by (split; [lia|done]). eapply shared_ubyte; [exact Hr|exact Hsh|done| |]; rewrite Hc; [by rewrite share_valid|by rewrite share_pa].
  - rewrite decide_False in Hc by tauto. rewrite decide_True in Hc by lia.
    eapply shared_ubyte; [exact Hr|exact Hsh|done| |done]. rewrite Hc. symmetry. by apply not_true_iff_false.
Qed.

Lemma copy_loop :
  returns (uvmcopy old new sz s) (fun e s' => exists used fl' Tn' ic,
    (e = 0 /\ sz <= ic < sz + PGSIZE /\ ic mod PGSIZE = 0 /\ sharing 0 ic ic used fl' Tn' s') \/
    (e = -1 /\ fl' = [] /\ upage sz ic /\ sharing ic ic (ic + PGSIZE) used fl' Tn' s')).
Proof using Type*.
  destruct Hr as [Hs Hsz He Hd]. unfold uvmcopy. apply returns_obind.
  eapply returns_mono.
  { apply (forl_zstep (fun i s1 => i < sz + PGSIZE /\ exists used fl1 Tn1, sharing 0 i i used fl1 Tn1 s1)
      (fun r s1 => match r with
        | None => exists i used fl1 Tn1, sz <= i < sz + PGSIZE /\ i mod PGSIZE = 0 /\ sharing 0 i i used fl1 Tn1 s1
        | Some i => exists used Tn1, upage sz i /\ sharing 0 i (i + PGSIZE) used [] Tn1 s1
        end)); [done| | |].
    - split; [unfold PGSIZE; lia|]. exists [], fl, Tn. by apply sharing_start.
    - intros i s1 Hi0 Hal Hi (Hlt & used & fl1 & Tn1 & Hsh). rewrite Z.sub_0_r in Hal. by exists i, used, fl1, Tn1.
    - intros i s1 Hi Hal (_ & used & fl1 & Tn1 & Hsh). rewrite Z.sub_0_r in Hal.
      eapply returns_mono; [by apply (copy_step fl old new To Tn sz s Hs Hsz He Hd i used fl1 Tn1)|].
      intros [x|] s2 (used2 & fl2 & Tn2 & H); [destruct H as (-> & -> & H); by exists used2, Tn2|].
      split; [lia|]. by exists used2, fl2, Tn2. }
  intros [i|] s1.
  - intros (used & Tn1 & Hi & Hsh). mred. apply returns_obind. eapply returns_mono.
    { apply (foreach_zstep (fun j s2 => j <= i /\ sharing j i (i + PGSIZE) used [] Tn1 s2) _ 0 i PGSIZE s1); [done| |].
      - split; [apply Hi|done].
      - intros j s2 Hj Hal [_ Hsh2]. rewrite Z.sub_0_r in Hal.
        eapply returns_mono; [apply (unmap_step fl old new To Tn sz s Hs Hsz He Hd j i (i + PGSIZE) used [] Tn1); [done|unfold upage in *; lia|lia|apply Hi]|].
        cbn beta. intros _ s3 H3. split; [|done]. pose proof (below_step j i Hal (proj2 Hi)). lia. }
    cbn beta. intros _ s2 (j & Hj & Hij & _ & _ & Hle & Hsh2). replace j with i in Hsh2 by lia.
    mred. exists used, [], Tn1, i. by right.
  - intros (i & used & fl1 & Tn1 & Hi & Hal & Hsh). mred. exists used, fl1, Tn1, i. by left.
Qed.
End theorem.

(** The loop read on entries, bytes and reference counts. *)
Lemma uvmcopy_spec fl old To new Tn sz s :
  fork_ready fl old To new Tn sz s ->
  returns (uvmcopy old new sz s) (fun e s' => exists used fl' Tn',
    fl = used ++ fl' /\ spaces fl' old To new Tn' s' /\ user_same s s' /\
    (forall k t, Tn' !! k = Some t -> Tn !! k = Some t \/ t ∈ used) /\
    (forall va, 0 <= va < sz -> ubyte To s' va = ubyte To s va) /\
    (forall va, sz <= va -> upage MAXVA va -> entry To s' va = entry To s va /\ entry Tn' s' va = entry Tn s va) /\
    if e =? 0 then
      (forall va, upage sz va -> has (entry To s va) PTE_V = true ->
         entry To s' va = share (entry To s va) /\ entry Tn' s' va = share (entry To s va)) /\
      (forall va, 0 <= va < sz -> ubyte Tn' s' va = ubyte To s va) /\
      (forall pg, pg mod PGSIZE = 0 -> pg ∉ used -> refcount s' pg = refcount s pg + mappings To s pg sz)
    else
      e = -1 /\ fl' = [] /\
      (forall va, 0 <= va < sz -> ubyte Tn' s' va = None) /\
      (forall pg, pg mod PGSIZE = 0 -> pg ∉ used -> refcount s' pg = refcount s pg)).
Proof.
  intros Hr. pose proof (fr_size _ _ _ _ _ _ _ Hr) as Hsz. eapply returns_mono; [by apply (copy_loop fl old To new Tn sz s)|].
  intros e s' (used & fl' & Tn' & ic & [(-> & Hic & Hal & Hsh)|(-> & -> & Hic & Hsh)]); eexists used, _, Tn';
    pose proof Hsh as [Hs Hu Hnew Ho Hc Href _ Hsm]; (split_and!; [done|done|done|done|intros va Hva; by eapply sharing_parent_ubyte| |]).
  - intros va Hva Hm. specialize (Hc va Hm). assert (ic <= va).
    { destruct (decide (va < ic)); [|lia]. pose proof (below_step va ic (proj2 Hm) Hal). pose proof (below_step ic va Hal (proj2 Hm)). unfold PGSIZE in *. lia. }
    rewrite (Ho va Hm), decide_False by lia. rewrite decide_False in Hc by lia. by rewrite decide_False in Hc by lia.
  - cbn [Z.eqb]. split_and!.
    + intros va Hva HV. specialize (Hc va ltac:(unfold upage in *; lia)). rewrite (Ho va) by (unfold upage in *; lia). unfold upage in Hva.
      rewrite decide_True by (split; [lia|done]). rewrite decide_True in Hc by (split; [lia|done]). done.
    + intros va Hva. eapply sharing_child_ubyte; [exact Hr|exact Hsh|lia|done].
    + intros pg Hp Hpg. rewrite Href by done. rewrite (mappings_roundup To s pg sz ic) by lia. unfold mappings at 2. simpl. lia.
  - intros va Hva Hm. specialize (Hc va Hm). pose proof (below_step ic va (proj2 Hic) (proj2 Hm)). unfold upage in Hic.
    rewrite (Ho va Hm), decide_False by lia. rewrite decide_False in Hc by lia. by rewrite decide_False in Hc by lia.
  - cbn [Z.eqb]. split_and!; [done|done| |].
    + intros va Hva. unfold ubyte. rewrite <- (entry_rounddown Tn'). pose proof (upage_rounddown _ _ Hva) as Hpg.
      specialize (Hc (PGROUNDDOWN va) ltac:(unfold upage in *; lia)). rewrite decide_False in Hc by lia. rewrite decide_True in Hc by apply Hpg. by rewrite Hc.
    + intros pg Hp Hpg. rewrite Href by done. lia.
Qed.
