(* ===== verification/Isolation.v ===== *)
(** * Isolation of processes that share pages

    Two address spaces that share pages copy-on-write: a page mapped writable
    has one reference, every page has at least as many references as mappings.
    cowfault and copyout keep that, and what one process writes the other does
    not see. *)

From S2P Require Import Prelude State Spinlock CString Usercopy Kalloc Vm Pages Cow Aspace Uvm.

#[local] Opaque mem_write memmove mem_read load64 store64 filled.

(** ** Counting *)

Lemma elem_of_zstep sz va : va ∈ zstep 0 sz PGSIZE <-> upage sz va.
Proof.
  unfold zstep, upage. rewrite list_elem_of_fmap. setoid_rewrite elem_of_seq. split.
  - intros (i & -> & Hi). rewrite Z.add_0_l, Z.mul_comm, Z.mod_mul by done. split; [|done].
    assert (Hlt : Z.of_nat i < (sz - 0 + PGSIZE - 1) / PGSIZE) by lia. pose proof (Z.mul_div_le (sz - 0 + PGSIZE - 1) PGSIZE ltac:(done)).
    unfold PGSIZE in *. lia.
  - intros [Hva Hal]. apply Z.mod_divide in Hal as [k ->]; [|done]. exists (Z.to_nat k). unfold PGSIZE in *. split; [lia|]. split; [lia|].
    assert (k < (sz - 0 + 4096 - 1) / 4096); [|lia]. apply Z.lt_le_trans with (k + 1); [lia|]. apply Z.div_le_lower_bound; lia.
Qed.

Lemma NoDup_zstep a sz d : 0 < d -> NoDup (zstep a sz d).
Proof. intros Hd. unfold zstep. apply NoDup_fmap_2; [|apply NoDup_seq]. intros i j E. nia. Qed.

Notation maps T s pg va := (has (entry T s va) PTE_V = true /\ PTE2PA (entry T s va) = pg).

Lemma mappings_at_least T s pg sz l :
  NoDup l -> (forall va, va ∈ l -> upage sz va /\ maps T s pg va) -> Z.of_nat (length l) <= mappings T s pg sz.
Proof.
  intros Hnd Hl. unfold mappings. apply inj_le, submseteq_length, NoDup_submseteq; [done|].
  intros va Hva. destruct (Hl va Hva) as [H1 H2]. apply list_elem_of_filter. split; [done|]. by apply elem_of_zstep.
Qed.

Lemma filter_agree {A} (P Q : A -> Prop) `{!forall x, Decision (P x), !forall x, Decision (Q x)} (l : list A) :
  (forall x, x ∈ l -> P x <-> Q x) -> filter P l = filter Q l.
Proof.
  induction l as [|x l IH]; intros Hag; [done|]. rewrite !filter_cons, IH by (intros; apply Hag; set_solver).
  pose proof (Hag x ltac:(set_solver)). repeat case_decide; tauto || done.
Qed.

Lemma filter_update {A} (P Q : A -> Prop) `{!forall x, Decision (P x), !forall x, Decision (Q x)} (l : list A) a :
  NoDup l -> a ∈ l -> (forall x, x ∈ l -> x <> a -> P x <-> Q x) ->
  (length (filter P l) + (if decide (Q a) then 1 else 0) = length (filter Q l) + (if decide (P a) then 1 else 0))%nat.
Proof.
  intros Hnd Ha HPQ. induction Hnd as [|x l Hx Hnd IH]; [by apply not_elem_of_nil in Ha|].
  rewrite !filter_cons. apply elem_of_cons in Ha as [<-|Ha].
  - assert (E : filter P l = filter Q l).
    { apply filter_agree. intros y Hy. apply HPQ; [set_solver|]. by intros ->. }
    repeat case_decide; simpl; rewrite ?E; lia.
  - assert (Hne : x <> a) by (intros ->; done). pose proof (HPQ x ltac:(set_solver) Hne).
    specialize (IH Ha ltac:(intros; apply HPQ; set_solver)).
    destruct (decide (P x)), (decide (Q x)); try tauto; simpl; lia.
Qed.

(** Mappings when the entry of one page changes. *)
Lemma mappings_update T s s' sz va v' :
  upage sz va -> entry T s' va = v' -> (forall va', upage sz va' -> va' <> va -> entry T s' va' = entry T s va') ->
  forall pg, mappings T s' pg sz + (if decide (maps T s pg va) then 1 else 0)
           = mappings T s pg sz + (if decide (has v' PTE_V = true /\ PTE2PA v' = pg) then 1 else 0).
Proof.
  intros Hva Hv' Hoth pg. unfold mappings. subst v'.
  pose proof (filter_update (fun x => maps T s' pg x) (fun x => maps T s pg x) (zstep 0 sz PGSIZE) va
    (NoDup_zstep 0 sz PGSIZE ltac:(done)) (proj2 (elem_of_zstep _ _) Hva)) as H.
  assert (Hag : forall x, x ∈ zstep 0 sz PGSIZE -> x <> va -> maps T s' pg x <-> maps T s pg x).
  { intros x Hx%elem_of_zstep Hne. by rewrite Hoth. }
  specialize (H Hag). destruct (decide (maps T s pg va)), (decide (maps T s' pg va)); lia.
Qed.

Lemma mappings_same T s s' sz pg : (forall va, upage sz va -> entry T s' va = entry T s va) -> mappings T s' pg sz = mappings T s pg sz.
Proof.
  intros H. unfold mappings. do 2 f_equal. apply filter_agree. intros x Hx%elem_of_zstep. by rewrite H.
Qed.

(** ** The invariant *)

Record isolated (fl : list Z) (a : Z) (A : tree) (b : Z) (B : tree) (sz : Z) (s : kstate) : Prop := {
  is_spaces : spaces fl a A b B s;
  is_size : 0 <= sz <= MAXVA;
  is_data_a va : upage sz va -> has (entry A s va) PTE_V = true -> data_page fl A B s (PTE2PA (entry A s va));
  is_data_b va : upage sz va -> has (entry B s va) PTE_V = true -> data_page fl A B s (PTE2PA (entry B s va));
  is_count pg : pg mod PGSIZE = 0 -> mappings A s pg sz + mappings B s pg sz <= Z.max 0 (refcount s pg);
  is_write_a va : upage sz va -> has (entry A s va) PTE_V = true -> has (entry A s va) PTE_W = true -> refcount s (PTE2PA (entry A s va)) = 1;
  is_write_b va : upage sz va -> has (entry B s va) PTE_V = true -> has (entry B s va) PTE_W = true -> refcount s (PTE2PA (entry B s va)) = 1;
}.

(** A page with one reference has one mapping. *)
Lemma isolated_private fl a A b B sz s va :
  isolated fl a A b B sz s -> upage sz va -> has (entry A s va) PTE_V = true -> refcount s (PTE2PA (entry A s va)) = 1 ->
  (forall va', upage sz va' -> maps A s (PTE2PA (entry A s va)) va' -> va' = va) /\
  (forall va', upage sz va' -> ~ maps B s (PTE2PA (entry A s va)) va').
Proof.
  intros Hi Hva HV Hr. set (pg := PTE2PA _) in *. assert (Hal : pg mod PGSIZE = 0) by apply (is_data_a _ _ _ _ _ _ _ Hi va Hva HV).
  pose proof (is_count _ _ _ _ _ _ _ Hi pg Hal) as Hc.
  pose proof (mappings_at_least A s pg sz [va] (NoDup_singleton va)) as H1. split.
  - intros va' Hva' Hm. destruct (decide (va' = va)) as [|Hne]; [done|]. exfalso.
    pose proof (mappings_at_least A s pg sz [va'; va]) as H2. simpl in H2. assert (0 <= mappings B s pg sz) by (unfold mappings; lia).
    assert (2 <= mappings A s pg sz); [|lia]. apply H2; [apply NoDup_cons; split; [set_solver|apply NoDup_singleton]|].
    intros x Hx. rewrite elem_of_cons, list_elem_of_singleton in Hx. destruct Hx as [->| ->]; done.
  - intros va' Hva' Hm. pose proof (mappings_at_least B s pg sz [va'] (NoDup_singleton va')) as H2. simpl in H1, H2.
    assert (1 <= mappings A s pg sz) by (apply H1; intros x ->%list_elem_of_singleton; done).
    assert (1 <= mappings B s pg sz) by (apply H2; intros x ->%list_elem_of_singleton; done). lia.
Qed.

Lemma data_page_sym fl A B s pg : data_page fl A B s pg -> data_page fl B A s pg.
Proof. by intros []. Qed.

Lemma isolated_sym fl a A b B sz s : isolated fl a A b B sz s -> isolated fl b B a A sz s.
Proof.
  intros [Hs Hz Ha Hb Hc Hwa Hwb]. constructor; try done; [by apply spaces_sym| | |].
  - intros va H1 H2. by apply data_page_sym, Hb.
  - intros va H1 H2. by apply data_page_sym, Ha.
  - intros pg Hal. specialize (Hc pg Hal). lia.
Qed.

Lemma data_page_off fl a A b B s pg x :
  spaces fl a A b B s -> data_page fl A B s pg -> in_page pg x ->
  ~ in_tree A x /\ ~ in_tree B x /\ (forall r, r ∈ fl -> ~ in_page r x).
Proof.
  intros Hs [[Hal _] Hfl Ha Hb _] Hx. assert (Hoff : forall t, t mod PGSIZE = 0 -> t <> pg -> ~ in_page t x).
  { intros t Ht Hne Htx. destruct (disjoint_pages t pg x Ht Hal Hne Hx); unfold in_page in Htx; lia. }
  split_and!.
  - intros (k & t & Ht & Htx). apply (Hoff t); [eapply ptable_align, Ht; apply Hs|intros ->; by apply (Ha k)|done].
  - intros (k & t & Ht & Htx). apply (Hoff t); [eapply ptable_align, Ht; apply Hs|intros ->; by apply (Hb k)|done].
  - intros r Hr. apply Hoff; [apply (fl_page _ _ (sp_free _ _ _ _ _ _ Hs) _ Hr)|by intros ->].
Qed.

(** ** Writing to a page of user memory *)

Section write.
  Context (fl : list Z) (a : Z) (A : tree) (b : Z) (B : tree) (sz : Z) (s : kstate) (pg : Z) (m' : gmap Z Z).
  Context (Hi : isolated fl a A b B sz s) (Hpg : data_page fl A B s pg).
  Context (Hm : forall x, ~ in_page pg x -> m' !!! x = k_mem s !!! x).
  Notation s' := (set_k_mem m' s).

Lemma write_tree x : in_tree A x \/ in_tree B x -> k_mem s' !!! x = k_mem s !!! x.
Proof using Type*.
  intros H. apply Hm. intros Hx. pose proof (data_page_off _ _ _ _ _ _ _ _ (is_spaces _ _ _ _ _ _ _ Hi) Hpg Hx) as (H1 & H2 & _). tauto.
Qed.

Lemma write_entry_a va : entry A s' va = entry A s va.
Proof using Type*. apply entry_frame. intros x Hx. apply write_tree. by left. Qed.

Lemma write_entry_b va : entry B s' va = entry B s va.
Proof using Type*. apply entry_frame. intros x Hx. apply write_tree. by right. Qed.

Lemma write_spaces : spaces fl a A b B s'.
Proof using Type*.
  pose proof (is_spaces _ _ _ _ _ _ _ Hi) as Hs. pose proof Hs as [Ha Hb Hf Hu Hna Hnb Hsep]. constructor; try done.
  - eapply ptable_frame; [exact Ha|done|]. intros x Hx. apply write_tree. by left.
  - eapply ptable_frame; [exact Hb|done|]. intros x Hx. apply write_tree. by right.
  - apply free_list_set_mem; [done|]. eapply chain_ext; [|apply Hf]. intros r x Hr Hx. apply Hm. intros Hpx.
    apply (data_page_off _ _ _ _ _ _ _ _ Hs Hpg Hpx) in Hr. apply Hr. unfold in_page, PGSIZE. lia.
Qed.

Lemma write_isolated : isolated fl a A b B sz s'.
Proof using Type*.
  pose proof Hi as [Hs Hz Hda Hdb Hc Hwa Hwb]. constructor; [apply write_spaces|done| | | | |].
  - intros va. rewrite write_entry_a. intros H1 H2. by destruct (Hda va H1 H2).
  - intros va. rewrite write_entry_b. intros H1 H2. by destruct (Hdb va H1 H2).
  - intros p Hp. rewrite !(mappings_same _ s s') by (intros; apply write_entry_a || apply write_entry_b). by apply Hc.
  - intros va. rewrite write_entry_a. apply Hwa.
  - intros va. rewrite write_entry_b. apply Hwb.
Qed.
End write.

Lemma in_page_mod p x : in_page p (p + x mod PGSIZE).
Proof. pose proof (Z.mod_pos_bound x PGSIZE ltac:(done)). unfold in_page. lia. Qed.

Lemma rounddown_split va : va = PGROUNDDOWN va + va mod PGSIZE.
Proof. rewrite PGROUNDDOWN_eq. lia. Qed.

(** A process that writes to a page it maps writable sees its bytes; the other
    process, and the rest of its own memory, are as before. *)
Lemma write_ubyte fl a A b B sz s va off bs :
  isolated fl a A b B sz s -> upage sz va -> has (entry A s va) PTE_V = true -> has (entry A s va) PTE_W = true ->
  0 <= off -> off + Z.of_nat (length bs) <= PGSIZE ->
  let s' := set_k_mem (mem_write (k_mem s) (PTE2PA (entry A s va) + off) bs) s in
  isolated fl a A b B sz s' /\ (forall x, entry A s' x = entry A s x) /\
  (forall x, 0 <= x < sz -> ubyte A s' x =
     if decide (va + off <= x < va + off + Z.of_nat (length bs)) then Some (bs !!! Z.to_nat (x - (va + off))) else ubyte A s x) /\
  (forall x, 0 <= x < sz -> ubyte B s' x = ubyte B s x).
Proof.
  intros Hi Hva HV HW Ho Hlen. set (pg := PTE2PA (entry A s va)). intros s'.
  assert (Hd : data_page fl A B s pg) by (by apply (is_data_a _ _ _ _ _ _ _ Hi)).
  assert (Hm : forall x, ~ in_page pg x -> mem_write (k_mem s) (pg + off) bs !!! x = k_mem s !!! x).
  { intros x Hx. rewrite mem_write_lookup_total, decide_False; [done|]. unfold in_page in Hx. lia. }
  destruct (isolated_private _ _ _ _ _ _ _ va Hi Hva HV (is_write_a _ _ _ _ _ _ _ Hi va Hva HV HW)) as [Huq Hnb]. fold pg in Huq, Hnb.
  assert (Hdp : forall p x, p mod PGSIZE = 0 -> p <> pg -> in_page p x -> mem_write (k_mem s) (pg + off) bs !!! x = k_mem s !!! x).
  { intros p x Hp Hne Hx. apply Hm. intros Hx'. destruct (disjoint_pages pg p x) as [H|H]; [apply Hd|done|done|done|..]; unfold in_page in Hx'; lia. }
  split_and!.
  - by eapply write_isolated.
  - intros x. by eapply (write_entry_a fl a A b B sz s pg).
  - intros x Hx. pose proof (upage_rounddown _ _ Hx) as Hu. pose proof (rounddown_split x) as Hsp. pose proof (Z.mod_pos_bound x PGSIZE ltac:(done)) as Hmod.
    unfold ubyte, s'. rewrite (write_entry_a fl a A b B sz s pg) by done. cbn [k_mem set_k_mem].
    destruct (decide (PGROUNDDOWN x = va)) as [Ev|Ev].
    + rewrite <- !(entry_rounddown A s x), Ev, HV. fold pg. rewrite mem_write_lookup_total.
      destruct (decide (va + off <= x < va + off + Z.of_nat (length bs))); [rewrite decide_True by lia|rewrite decide_False by lia]; [|done].
      do 3 f_equal. lia.
    + rewrite decide_False. 2:{ intros Hr. apply Ev. pose proof (below_step va (PGROUNDDOWN x) (proj2 Hva) (proj2 Hu)). pose proof (below_step (PGROUNDDOWN x) va (proj2 Hu) (proj2 Hva)). lia. }
      destruct (has (entry A s x) PTE_V) eqn:E; [|done]. rewrite <- (entry_rounddown A s x) in E |- *. f_equal.
      apply (Hdp (PTE2PA (entry A s (PGROUNDDOWN x)))); [apply (is_data_a _ _ _ _ _ _ _ Hi _ Hu E)| |apply in_page_mod].
      intros Ep. apply Ev, Huq; [done|]. by split.
  - intros x Hx. pose proof (upage_rounddown _ _ Hx) as Hu. unfold ubyte, s'. rewrite (write_entry_b fl a A b B sz s pg) by done. cbn [k_mem set_k_mem].
    destruct (has (entry B s x) PTE_V) eqn:E; [|done]. rewrite <- (entry_rounddown B s x) in E |- *. f_equal.
    apply (Hdp (PTE2PA (entry B s (PGROUNDDOWN x)))); [apply (is_data_b _ _ _ _ _ _ _ Hi _ Hu E)| |apply in_page_mod].
    intros Ep. apply (Hnb (PGROUNDDOWN x)); [done|]. by split.
Qed.

(** ** The fault *)

(** The three entries of an address, as [mapped] has them. *)
Lemma ptable_mapped fl pt T s va p0 :
  ptable pt T s -> free_list fl s -> not_free T fl -> 0 <= va < MAXVA -> entry_at T va = Some p0 ->
  exists p2 p1, mapped fl pt va p2 p1 p0 (entry T s va) s.
Proof.
  intros Hp Hf Hn Hva Hat. assert (He : entry T s va = load64 (k_mem s) p0) by (unfold entry; by rewrite Hat).
  destruct (entry_at_word _ _ _ Hat) as (t0 & Ht0 & ->). pose proof (pt_up _ _ _ Hp _ _ _ Ht0) as (_ & _ & [t1 Ht1]).
  pose proof (pt_root _ _ _ Hp) as Hrt. pose proof (PX_bounds 0 va ltac:(lia)) as B0. pose proof (PX_bounds 1 va ltac:(lia)) as B1. pose proof (PX_bounds 2 va ltac:(lia)) as B2.
  pose proof (pt_down _ _ _ Hp [] pt (PX 2 va) Hrt ltac:(simpl; lia) B2) as H2. rewrite Ht1 in H2. destruct H2 as [V2 P2].
  pose proof (pt_down _ _ _ Hp [PX 2 va] t1 (PX 1 va) Ht1 ltac:(simpl; lia) B1) as H1. rewrite Ht0 in H1. destruct H1 as [V1 P1].
  assert (Hal : forall k t, T !! k = Some t -> t mod PGSIZE = 0) by (intros k t Ht; by eapply ptable_align).
  exists (pt + 8 * PX 2 va), (t1 + 8 * PX 1 va). constructor.
  - done.
  - unfold vpath, pte_addr. rewrite V2. cbn [negb]. rewrite P2, V1. cbn [negb]. by rewrite P1.
  - by rewrite He.
  - pose proof (ptable_pos _ _ _ _ _ Hp Ht0). lia.
  - split_and!; apply word_align; eauto.
  - split; intros E; apply word_inj in E as [-> _]; eauto.
    + by pose proof (pt_inj _ _ _ Hp _ _ _ Ht0 Ht1).
    + by pose proof (pt_inj _ _ _ Hp _ _ _ Ht0 Hrt).
  - intros pg x Hpg Hx. assert (Hpa : pg mod PGSIZE = 0) by apply (fl_page _ _ Hf _ Hpg).
    assert (Hw : exists k t j, T !! k = Some t /\ 0 <= j < 512 /\ x = t + 8 * j).
    { destruct Hx as [->|[->| ->]]; [exists [PX 1 va; PX 2 va], t0, (PX 0 va)|exists [PX 2 va], t1, (PX 1 va)|exists [], pt, (PX 2 va)]; done. }
    destruct Hw as (k & t & j & Ht & Hj & ->). assert (t <> pg) by (intros ->; by apply (Hn _ _ Ht)). unfold off_page.
    destruct (page_gap t pg) as [Hg|Hg]; [eauto|done|done|..]; unfold PGSIZE in *; lia.
Qed.

(** What cowfault promises for an entry. *)
Record resolved (fl' : list Z) (a : Z) (A : tree) (b : Z) (B : tree) (sz va : Z) (s s' : kstate) : Prop := {
  rs_isolated : isolated fl' a A b B sz s';
  rs_valid : has (entry A s' va) PTE_V = true;
  rs_user : has (entry A s' va) PTE_U = true;
  rs_writable : has (entry A s' va) PTE_W = true;
  rs_entries x : upage MAXVA x -> x <> va -> entry A s' x = entry A s x;
  rs_a x : 0 <= x < sz -> ubyte A s' x = ubyte A s x;
  rs_b x : 0 <= x < sz -> ubyte B s' x = ubyte B s x;
}.

Section fault.
  Context (fl : list Z) (a : Z) (A : tree) (b : Z) (B : tree) (sz : Z) (s : kstate) (va p0 : Z).
  Context (Hi : isolated fl a A b B sz s) (Hva : upage sz va) (Hat : entry_at A va = Some p0).
  Notation v := (entry A s va).
  Context (HV : has v PTE_V = true) (HU : has v PTE_U = true).

Lemma fault_bounds : upage MAXVA va.
Proof using Hi Hva. pose proof (is_size _ _ _ _ _ _ _ Hi). unfold upage in *. lia. Qed.

Lemma writable_u64 : u64 (Z.lor v PTE_W) = Z.lor v PTE_W.
Proof using Hi Hva HV.
  pose proof (is_data_a _ _ _ _ _ _ _ Hi va Hva HV) as Hd.
  apply Z.mod_small, (lor_bounds _ _ 64); [lia| |done]. eapply pte_bounds; [|apply Hd]. apply (is_spaces _ _ _ _ _ _ _ Hi).
Qed.

Lemma lor_has w k : 0 <= k -> has (Z.lor w PTE_W) (2 ^ k) = has w (2 ^ k) || (k =? 2).
Proof. intros Hk. rewrite !has_bit, Z.lor_spec by lia. change PTE_W with (2 ^ 2). rewrite Z.pow2_bits_eqb by lia. by rewrite (Z.eqb_sym 2). Qed.

Lemma lor_valid w : has (Z.lor w PTE_W) PTE_V = has w PTE_V.
Proof. change PTE_V with (2 ^ 0). rewrite lor_has by lia. by rewrite orb_false_r. Qed.

Lemma lor_user w : has (Z.lor w PTE_W) PTE_U = has w PTE_U.
Proof. change PTE_U with (2 ^ 4). rewrite lor_has by lia. by rewrite orb_false_r. Qed.

Lemma lor_writable w : has (Z.lor w PTE_W) PTE_W = true.
Proof. change PTE_W with (2 ^ 2) at 2. rewrite lor_has by lia. by rewrite orb_true_r. Qed.

Lemma lor_pa w : PTE2PA (Z.lor w PTE_W) = PTE2PA w.
Proof.
  unfold PTE2PA. f_equal. rewrite Z.shiftr_lor. change (Z.shiftr PTE_W 10) with 0. apply Z.lor_0_r.
Qed.

(** The only mapping is made writable in place. *)
Lemma resolved_in_place :
  refcount s (PTE2PA v) = 1 -> resolved fl a A b B sz va s (set_k_mem (store64 (k_mem s) p0 (Z.lor v PTE_W)) s).
Proof using Type*.
  intros Hr. pose proof Hi as [Hs Hz Hda Hdb Hc Hwa Hwb]. pose proof fault_bounds as Hm. set (s' := set_k_mem _ s).
  assert (Hs' : spaces fl a A b B s') by (by eapply spaces_store).
  assert (HeA : forall x, upage MAXVA x -> entry A s' x = if decide (x = va) then Z.lor v PTE_W else entry A s x).
  { intros x Hx. unfold s'. erewrite store_entry; [|apply Hs|exact Hat|apply Hm|apply Hx|apply Hm|apply Hx]. by rewrite writable_u64. }
  assert (HeB : forall x, entry B s' x = entry B s x) by (intros x; by eapply spaces_store_entry).
  assert (Hva' : entry A s' va = Z.lor v PTE_W) by (by rewrite HeA, decide_True).
  assert (Hmm : forall y, ~ in_tree A y -> k_mem s' !!! y = k_mem s !!! y) by (intros y Hy; by eapply store_mem; [apply Hs|exact Hat|]).
  assert (Hsame : forall x, upage sz x -> has (entry A s' x) PTE_V = has (entry A s x) PTE_V /\ PTE2PA (entry A s' x) = PTE2PA (entry A s x)).
  { intros x Hx. rewrite HeA by (unfold upage in *; lia). case_decide; [subst x|done]. rewrite lor_pa. split; [|done]. apply lor_valid. }
  split.
  - constructor; [done|done| | | | |].
    + intros x Hx. destruct (Hsame x Hx) as [-> ->]. intros HVx. by destruct (Hda x Hx HVx).
    + intros x Hx. rewrite HeB. intros HVx. by destruct (Hdb x Hx HVx).
    + intros pg Hp. rewrite (mappings_same B s s') by (intros; apply HeB).
      replace (mappings A s' pg sz) with (mappings A s pg sz); [by apply Hc|].
      unfold mappings. do 2 f_equal. apply filter_agree. intros x Hx%elem_of_zstep. by destruct (Hsame x Hx) as [-> ->].
    + intros x Hx HVx HWx. destruct (Hsame x Hx) as [EV EP]. rewrite EV in HVx. rewrite EP. change (refcount s' ?p) with (refcount s p).
      rewrite HeA in HWx by (unfold upage in *; lia). case_decide; [by subst x|]. by apply Hwa.
    + intros x Hx. rewrite HeB. apply Hwb. done.
  - by rewrite Hva', lor_valid.
  - by rewrite Hva', lor_user.
  - rewrite Hva'. apply lor_writable.
  - intros x Hx Hne. by rewrite HeA, decide_False.
  - intros x Hx. pose proof (upage_rounddown _ _ Hx) as Hu. unfold ubyte. rewrite <- !(entry_rounddown A _ x).
    destruct (Hsame _ Hu) as [-> ->]. destruct (has (entry A s (PGROUNDDOWN x)) PTE_V) eqn:E; [|done]. f_equal. apply Hmm.
    exact (proj1 (data_page_off _ _ _ _ _ _ _ _ Hs (Hda _ Hu E) (in_page_mod _ x))).
  - intros x Hx. pose proof (upage_rounddown _ _ Hx) as Hu. unfold ubyte. rewrite <- !(entry_rounddown B _ x), HeB.
    destruct (has (entry B s (PGROUNDDOWN x)) PTE_V) eqn:E; [|done]. f_equal. apply Hmm.
    exact (proj1 (data_page_off _ _ _ _ _ _ _ _ Hs (Hdb _ Hu E) (in_page_mod _ x))).
Qed.

(** The entry of the copy. *)
Lemma mkpte_has pa flags k : 0 <= k < 10 -> has (mkpte pa flags) (2 ^ k) = has flags (2 ^ k).
Proof.
  intros Hk. rewrite !has_bit by lia. unfold mkpte, PA2PTE. by rewrite Z.lor_spec, Z.shiftl_spec_low by lia.
Qed.

Definition copy_pte (r w : Z) : Z := mkpte r (Z.lor (PTE_FLAGS w) PTE_W).

Lemma copy_pte_bits r w :
  has w PTE_V = true -> has w PTE_U = true ->
  has (copy_pte r w) PTE_V = true /\ has (copy_pte r w) PTE_U = true /\ has (copy_pte r w) PTE_W = true.
Proof.
  unfold copy_pte. intros H1 H2. change PTE_V with (2 ^ 0) in *. change PTE_U with (2 ^ 4) in *. change (has (mkpte r (Z.lor (PTE_FLAGS w) PTE_W)) PTE_W) with (has (mkpte r (Z.lor (PTE_FLAGS w) PTE_W)) (2 ^ 2)).
  rewrite !mkpte_has, !lor_has, !flags_has, H1, H2 by lia. by rewrite orb_true_r.
Qed.
End fault.

Section fault_copy.
  Context (r : Z) (fl : list Z) (a : Z) (A : tree) (b : Z) (B : tree) (sz : Z) (s : kstate) (va p0 : Z).
  Context (Hi : isolated (r :: fl) a A b B sz s) (Hva : upage sz va) (Hat : entry_at A va = Some p0).
  Notation v := (entry A s va).
  Notation pa := (PTE2PA v).
  Context (HV : has v PTE_V = true) (HU : has v PTE_U = true) (Href : 1 < refcount s pa).
  Notation s1 := (set_k_mem (memmove (filled r 5 (k_mem s)) r pa (Z.to_nat PGSIZE)) (allocated_page r s)).
  Notation s' := (with_ref pa (refcount s pa - 1) (set_k_mem (copied r pa p0 v (k_mem s)) (allocated_page r s))).

Lemma fresh_page : is_page s r /\ r ∉ fl /\ r <> pa /\ refcount s r = 0.
Proof using Type*.
  pose proof (sp_free _ _ _ _ _ _ (is_spaces _ _ _ _ _ _ _ Hi)) as Hf. pose proof (is_data_a _ _ _ _ _ _ _ Hi va Hva HV) as Hd.
  split_and!; [apply (fl_page _ _ Hf); by left|by apply NoDup_cons_1_1; apply Hf| |apply (fl_ref _ _ Hf); by left].
  intros E. apply (dp_used _ _ _ _ _ Hd). rewrite <- E. by left.
Qed.

Lemma copy_spaces1 : spaces fl a A b B s1.
Proof using Type*.
  pose proof (is_spaces _ _ _ _ _ _ _ Hi) as Hs. pose proof Hs as [Ha Hb Hf Hu Hna Hnb Hsep]. destruct fresh_page as ([Hra Hrb] & Hrf & Hne & _).
  assert (Hm : forall x, ~ in_page r x -> k_mem s1 !!! x = k_mem s !!! x).
  { intros x Hx. cbn [k_mem set_k_mem]. apply copied_page_other. unfold in_page in Hx. lia. }
  constructor; try done.
  - eapply ptable_frame; [exact Ha|done|]. intros x (k & t & Ht & Hx). apply Hm. eapply free_page_off; [exact Hs|by left|exact Ht|exact Hx].
  - eapply ptable_frame; [exact Hb|done|]. intros x (k & t & Ht & Hx). apply Hm. eapply free_page_off; [apply spaces_sym, Hs|by left|exact Ht|exact Hx].
  - apply free_list_set_mem; [by apply allocated_page_spec|].
    apply (chain_other_page (k_mem s) _ s _ _ r); [done|done|intros pg Hpg; apply (fl_page _ _ Hf); by right| |by apply (fl_chain _ _ Hf)].
    intros x Hx. by apply copied_page_other.
  - intros k t Ht Hin. apply (Hna _ _ Ht). by right.
  - intros k t Ht Hin. apply (Hnb _ _ Ht). by right.
Qed.

Lemma copy_entry1 T x : T = A \/ T = B -> entry T s1 x = entry T s x.
Proof using Type*.
  intros HT. pose proof (is_spaces _ _ _ _ _ _ _ Hi) as Hs. apply entry_frame. intros y (k & t & Ht & Hy). cbn [k_mem set_k_mem].
  assert (Hn : ~ in_page r y) by (destruct HT as [->| ->]; [eapply free_page_off; [exact Hs|by left|exact Ht|exact Hy]|eapply free_page_off; [apply spaces_sym, Hs|by left|exact Ht|exact Hy]]).
  apply copied_page_other. unfold in_page in Hn. lia.
Qed.

Lemma copy_spaces : spaces fl a A b B s'.
Proof using Type*.
  pose proof (is_data_a _ _ _ _ _ _ _ Hi va Hva HV) as [[Hpa _] Hfl _ _ _].
  apply spaces_ref; [|done|intros H; apply Hfl; by right]. unfold copied. rewrite <- (set_k_mem_twice _ (store64 (k_mem s1) p0 0) (allocated_page r s)).
  rewrite <- (set_k_mem_twice (store64 (k_mem s1) p0 0) (k_mem s1) (allocated_page r s)).
  eapply (spaces_store _ _ _ _ _ (set_k_mem (store64 (k_mem s1) p0 0) s1)); [|exact Hat]. eapply spaces_store; [apply copy_spaces1|exact Hat].
Qed.

Lemma copy_entry_a x : upage MAXVA x -> entry A s' x = if decide (x = va) then copy_pte r v else entry A s x.
Proof using Type*.
  intros Hx. assert (Hm : upage MAXVA va) by (pose proof (is_size _ _ _ _ _ _ _ Hi); unfold upage in *; lia).
  pose proof copy_spaces1 as Hs1. change (entry A s' x) with (entry A (set_k_mem (store64 (k_mem (set_k_mem (store64 (k_mem s1) p0 0) s1)) p0 (copy_pte r v)) (set_k_mem (store64 (k_mem s1) p0 0) s1)) x).
  erewrite store_entry; [|by eapply store_ptable; [apply Hs1|exact Hat]|exact Hat|apply Hm|apply Hx|apply Hm|apply Hx]. case_decide as E.
  - apply Z.mod_small. eapply mkpte_bounds; [|apply fresh_page|apply flags_writable_bounds]. apply (is_spaces _ _ _ _ _ _ _ Hi).
  - erewrite store_entry; [|apply Hs1|exact Hat|apply Hm|apply Hx|apply Hm|apply Hx]. rewrite decide_False by done. apply copy_entry1. by left.
Qed.

Lemma copy_entry_b x : entry B s' x = entry B s x.
Proof using Type*.
  pose proof copy_spaces1 as Hs1. change (entry B s' x) with (entry B (set_k_mem (store64 (k_mem (set_k_mem (store64 (k_mem s1) p0 0) s1)) p0 (copy_pte r v)) (set_k_mem (store64 (k_mem s1) p0 0) s1)) x).
  erewrite spaces_store_entry; [|eapply spaces_store; [apply Hs1|exact Hat]|exact Hat]. erewrite spaces_store_entry; [|apply Hs1|exact Hat].
  apply copy_entry1. by right.
Qed.

Lemma copy_refcount pg : pg mod PGSIZE = 0 ->
  refcount s' pg = if decide (pg = pa) then refcount s pa - 1 else if decide (pg = r) then 1 else refcount s pg.
Proof using Type*.
  intros Hp. destruct fresh_page as ([Hra _] & _). rewrite refcount_with_ref; [|apply (is_data_a _ _ _ _ _ _ _ Hi va Hva HV)|done].
  case_decide; [done|]. by rewrite refcount_set_mem, allocated_page_ref.
Qed.

(** Pages other than the old one and the copy. *)
Lemma copy_refcount_other T x : T = A \/ T = B -> upage sz x -> has (entry T s x) PTE_V = true ->
  let pg := PTE2PA (entry T s x) in
  pg <> r /\ data_page fl A B s' pg /\ (refcount s pg = 1 -> refcount s' pg = 1) /\
  forall i, 0 <= i < PGSIZE -> k_mem s' !!! (pg + i) = k_mem s !!! (pg + i).
Proof using Type*.
  intros HT Hx HVx pg. pose proof (is_spaces _ _ _ _ _ _ _ Hi) as Hs.
  assert (Hd : data_page (r :: fl) A B s pg) by (destruct HT as [->| ->]; [by apply (is_data_a _ _ _ _ _ _ _ Hi)|by apply (is_data_b _ _ _ _ _ _ _ Hi)]).
  pose proof Hd as [Hp Hfl Ha Hb Hr1]. assert (Hne : pg <> r) by (intros ->; apply Hfl; by left).
  assert (Href' : refcount s' pg = if decide (pg = pa) then refcount s pa - 1 else refcount s pg).
  { rewrite copy_refcount by apply Hp. case_decide; [done|]. by rewrite decide_False. }
  split_and!; [done| | |].
  - constructor; [done|intros H; apply Hfl; by right|done|done|]. rewrite Href'. case_decide; lia.
  - rewrite Href'. case_decide as E; [rewrite E|]; lia.
  - intros i Hi'. assert (Hin : in_page pg (pg + i)) by (unfold in_page; lia).
    destruct (data_page_off _ _ _ _ _ _ _ _ Hs Hd Hin) as (Hta & _ & Hfr). specialize (Hfr r ltac:(by left)).
    cbn [with_ref k_mem set_k_mem set_k_refcount]. apply copied_other; [unfold in_page in Hfr; lia|].
    destruct (entry_at_word _ _ _ Hat) as (t & Ht & ->). pose proof (PX_bounds 0 va ltac:(lia)). destruct (decide (in_page t (pg + i))) as [Ht'|Ht']; [by destruct Hta; exists [PX 1 va; PX 2 va], t|].
    unfold in_page, PGSIZE in Ht'. lia.
Qed.

Lemma copy_page_bytes i : 0 <= i < PGSIZE -> k_mem s' !!! (r + i) = k_mem s !!! (pa + i).
Proof using Type*.
  intros Hi'. destruct fresh_page as ([Hra Hrb] & _ & Hne & _). cbn [with_ref k_mem set_k_mem set_k_refcount].
  pose proof (is_spaces _ _ _ _ _ _ _ Hi) as Hs. destruct (entry_at_word _ _ _ Hat) as (t & Ht & ->). pose proof (PX_bounds 0 va ltac:(lia)).
  apply copied_page; [done|apply (is_data_a _ _ _ _ _ _ _ Hi va Hva HV)|done| |done].
  assert (t <> r) by (intros ->; apply (sp_na _ _ _ _ _ _ Hs _ _ Ht); by left). unfold off_page.
  destruct (page_gap t r) as [Hg|Hg]; [eapply ptable_align, Ht; apply Hs|done|done|..]; unfold PGSIZE in *; lia.
Qed.

Lemma copy_count pg : pg mod PGSIZE = 0 -> mappings A s' pg sz + mappings B s' pg sz <= Z.max 0 (refcount s' pg).
Proof using Type*.
  intros Hp. destruct fresh_page as ([Hra Hrb] & _ & Hne & Hr0). pose proof (is_count _ _ _ _ _ _ _ Hi pg Hp) as Hc.
  rewrite (mappings_same B s s') by (intros; apply copy_entry_b).
  pose proof (copy_pte_bits r v HV HU) as (HV' & _ & _).
  assert (HP : PTE2PA (copy_pte r v) = r) by (apply PTE2PA_mk; [done|apply flags_writable_bounds]).
  pose proof (mappings_update A s s' sz va (copy_pte r v) Hva) as Hm. rewrite copy_entry_a in Hm by (pose proof (is_size _ _ _ _ _ _ _ Hi); unfold upage in *; lia).
  rewrite decide_True in Hm by done. specialize (Hm eq_refl).
  assert (Ho : forall x, upage sz x -> x <> va -> entry A s' x = entry A s x).
  { intros x Hx Hnx. rewrite copy_entry_a by (pose proof (is_size _ _ _ _ _ _ _ Hi); unfold upage in *; lia). by rewrite decide_False. }
  specialize (Hm Ho pg). rewrite copy_refcount by done. rewrite HP in Hm.
  destruct (decide (pg = pa)) as [->|Hn1].
  - rewrite decide_True in Hm by done. rewrite decide_False in Hm by naive_solver. lia.
  - rewrite decide_False in Hm by naive_solver. destruct (decide (pg = r)) as [->|Hn2].
    + rewrite decide_True in Hm by done. unfold mappings in *. lia.
    + rewrite decide_False in Hm by naive_solver. lia.
Qed.

Lemma resolved_copy : resolved fl a A b B sz va s s'.
Proof using Type*.
  destruct fresh_page as ([Hra Hrb] & Hrf & Hne & Hr0). pose proof (copy_pte_bits r v HV HU) as (HV' & HU' & HW').
  assert (HP : PTE2PA (copy_pte r v) = r) by (apply PTE2PA_mk; [done|apply flags_writable_bounds]).
  assert (Hmax : forall x, upage sz x -> upage MAXVA x) by (pose proof (is_size _ _ _ _ _ _ _ Hi); unfold upage; lia).
  assert (Hev : entry A s' va = copy_pte r v) by (rewrite copy_entry_a by auto; by rewrite decide_True).
  assert (Heo : forall x, upage sz x -> x <> va -> entry A s' x = entry A s x) by (intros x Hx Hn; rewrite copy_entry_a by auto; by rewrite decide_False).
  assert (Hrr : refcount s' r = 1) by (rewrite copy_refcount by done; rewrite decide_False by done; by rewrite decide_True).
  split; [|by rewrite Hev..| | |].
  - constructor; [apply copy_spaces|apply Hi| | |apply copy_count| |].
    + intros x Hx. destruct (decide (x = va)) as [->|Hn].
      * intros _. rewrite Hev, HP. pose proof (is_spaces _ _ _ _ _ _ _ Hi) as Hs.
        constructor; [done|done|intros k Hk; apply (sp_na _ _ _ _ _ _ Hs k r Hk); by left|intros k Hk; apply (sp_nb _ _ _ _ _ _ Hs k r Hk); by left|lia].
      * rewrite (Heo x Hx Hn). intros HVx. apply (copy_refcount_other A x); auto.
    + intros x Hx. rewrite copy_entry_b. intros HVx. apply (copy_refcount_other B x); auto.
    + intros x Hx. destruct (decide (x = va)) as [->|Hn]; [intros _ _; by rewrite Hev, HP|].
      rewrite (Heo x Hx Hn). intros HVx HWx. apply (copy_refcount_other A x); auto. by apply (is_write_a _ _ _ _ _ _ _ Hi).
    + intros x Hx. rewrite copy_entry_b. intros HVx HWx. apply (copy_refcount_other B x); auto. by apply (is_write_b _ _ _ _ _ _ _ Hi).
  - intros x Hx Hn. rewrite copy_entry_a by done. by rewrite decide_False.
  - intros x Hx. pose proof (upage_rounddown _ _ Hx) as Hu. pose proof (Z.mod_pos_bound x PGSIZE ltac:(done)).
    unfold ubyte. rewrite <- !(entry_rounddown A _ x). destruct (decide (PGROUNDDOWN x = va)) as [->|Hn].
    + rewrite Hev, HV', HV, HP. f_equal. by apply copy_page_bytes.
    + rewrite (Heo _ Hu Hn). destruct (has (entry A s (PGROUNDDOWN x)) PTE_V) eqn:E; [|done]. f_equal. apply (copy_refcount_other A (PGROUNDDOWN x)); auto.
  - intros x Hx. pose proof (upage_rounddown _ _ Hx) as Hu. pose proof (Z.mod_pos_bound x PGSIZE ltac:(done)).
    unfold ubyte. rewrite <- !(entry_rounddown B _ x), copy_entry_b. destruct (has (entry B s (PGROUNDDOWN x)) PTE_V) eqn:E; [|done]. f_equal. apply (copy_refcount_other B (PGROUNDDOWN x)); auto.
Qed.
End fault_copy.

Lemma entry_valid_at T s va : has (entry T s va) PTE_V = true -> exists p, entry_at T va = Some p.
Proof. unfold entry. destruct (entry_at T va); [eauto|done]. Qed.

(** A page of memory the process may write to, now or after a fault. *)
Definition user_data (v : Z) : Prop :=
  has v PTE_V = true /\ has v PTE_U = true /\ (has v PTE_W = true \/ has v PTE_X = false).

Lemma cowfault_resolves fl a A b B sz s va :
  isolated fl a A b B sz s -> upage sz va -> user_data (entry A s va) -> has (entry A s va) PTE_W = false ->
  returns (cowfault a va s) (fun e s' => e = -1 /\ s' = s /\ fl = [] \/ e = 0 /\ exists fl', resolved fl' a A b B sz va s s').
Proof.
  intros Hi Hva (HV & HU & HX) HW. destruct HX as [HX|HX]; [congruence|]. pose proof Hi as [Hs Hz Hda _ Hc _ _].
  destruct (entry_valid_at _ _ _ HV) as [p0 Hat]. pose proof (Hda va Hva HV) as Hd.
  assert (Hb : 0 <= va < MAXVA) by (unfold upage in *; lia).
  destruct (ptable_mapped fl a A s va p0) as (p2 & p1 & Hm); [apply Hs|apply Hs|apply Hs|done|done|].
  assert (Hce : cow_entry s (entry A s va)) by (split_and!; try done; apply Hd).
  assert (He : KERNBASE <= k_end s) by apply (sp_a _ _ _ _ _ _ Hs).
  pose proof (dp_ref _ _ _ _ _ Hd) as Hr. destruct (decide (refcount s (PTE2PA (entry A s va)) = 1)) as [H1|H1].
  - rewrite (cowfault_guards _ _ _ _ _ _ _ _ Hm Hce He) by apply (sp_unlocked _ _ _ _ _ _ Hs).
    rewrite (proj2 (Z.ltb_ge _ _)) by lia. unfold pte_store. mred. right. split; [done|]. exists fl. by apply resolved_in_place.
  - destruct fl as [|r fl].
    + rewrite (cowfault_guards _ _ _ _ _ _ _ _ Hm Hce He) by apply (sp_unlocked _ _ _ _ _ _ Hs).
      rewrite (proj2 (Z.ltb_lt _ _)) by lia. mred. rewrite (kalloc_eq []) by apply Hs. by left.
    + rewrite (cowfault_copy_eq r fl a va p2 p1 p0 (entry A s va)); [|apply Hs|apply Hs|done|done|lia|].
      * right. split; [done|]. exists fl. apply resolved_copy; try done. lia.
      * intros E. apply (dp_used _ _ _ _ _ Hd). rewrite E. by left.
Qed.

Lemma walkaddr_tree pt T s va : ptable pt T s -> va < MAXVA ->
  walkaddr pt va s = Ret (if has (entry T s va) PTE_V && has (entry T s va) PTE_U then PTE2PA (entry T s va) else 0) s.
Proof.
  intros Hp Hva. unfold walkaddr. rewrite (proj2 (Z.leb_gt _ _) Hva). mred. rewrite (walk_tree pt T) by done. mred.
  destruct (entry_at T va) as [p|] eqn:Hat; cbn [from_option id].
  - destruct (entry_at_word _ _ _ Hat) as (t & Ht & Hpt). pose proof (ptable_pos _ _ _ _ _ Hp Ht). pose proof (PX_bounds 0 va ltac:(lia)).
    rewrite (proj2 (Z.eqb_neq p 0)) by lia. unfold pte_load. mred. unfold entry. rewrite Hat.
    by destruct (has (load64 (k_mem s) p) PTE_V), (has (load64 (k_mem s) p) PTE_U).
  - by rewrite (entry_invalid_missing _ _ _ Hat).
Qed.

(** ** copyout *)

Lemma resolved_refl fl a A b B sz va s :
  isolated fl a A b B sz s -> user_data (entry A s va) -> has (entry A s va) PTE_W = true -> resolved fl a A b B sz va s s.
Proof. intros Hi (HV & HU & _) HW. by constructor. Qed.

(** The page is made writable, if it is not. *)
Lemma copyout_page fl a A b B sz s va :
  isolated fl a A b B sz s -> upage sz va -> user_data (entry A s va) ->
  let v := entry A s va in
  returns ((if has v PTE_V && has v PTE_U && negb (has v PTE_W) then
              e ← cowfault a va; if negb (e =? 0) then mret 0 else walkaddr a va
            else mret (PTE2PA v)) s)
    (fun p s' => p = 0 /\ s' = s /\ fl = [] \/ p <> 0 /\ exists fl', resolved fl' a A b B sz va s s' /\ p = PTE2PA (entry A s' va)).
Proof.
  intros Hi Hva Hud v. pose proof Hud as (HV & HU & _). assert (Hb : va < MAXVA) by (pose proof (is_size _ _ _ _ _ _ _ Hi); unfold upage in *; lia).
  assert (Hpos : forall fl s, isolated fl a A b B sz s -> has (entry A s va) PTE_V = true -> PTE2PA (entry A s va) <> 0).
  { intros fl1 s1 Hi1 HV1. pose proof (dp_page _ _ _ _ _ (is_data_a _ _ _ _ _ _ _ Hi1 va Hva HV1)) as [_ Hp].
    pose proof (pt_end _ _ _ (sp_a _ _ _ _ _ _ (is_spaces _ _ _ _ _ _ _ Hi1))). unfold KERNBASE in *. lia. }
  unfold v. rewrite HV, HU. cbn [andb]. destruct (has (entry A s va) PTE_W) eqn:HW; cbn [negb].
  - right. split; [by eapply Hpos|]. exists fl. split; [by apply resolved_refl|done].
  - mspec (cowfault_resolves fl a A b B sz s va); [done..|]. intros e s' [(-> & -> & ->)|(-> & fl' & Hres)]; [by left|].
    cbn [negb Z.eqb]. rewrite (walkaddr_tree a A) by (apply (is_spaces _ _ _ _ _ _ _ (rs_isolated _ _ _ _ _ _ _ _ _ Hres)) || done).
    rewrite (rs_valid _ _ _ _ _ _ _ _ _ Hres), (rs_user _ _ _ _ _ _ _ _ _ Hres). cbn [andb returns]. right.
    split; [eapply Hpos; apply Hres|]. by exists fl'.
Qed.

Section copyout.
  Context (a : Z) (A : tree) (b : Z) (B : tree) (sz : Z) (s : kstate) (dst : Z) (bs : list Z).
  Context (Hdst : 0 <= dst) (Hend : dst + Z.of_nat (length bs) <= sz).

(** Addresses whose page the copy touches. *)
Notation touched va := (upage sz va /\ dst - PGSIZE < va < dst + Z.of_nat (length bs)).

(** The first [n] bytes have been written. *)
Record written (n : nat) (fl : list Z) (s1 : kstate) : Prop := {
  wr_isolated : isolated fl a A b B sz s1;
  wr_bound : (n <= length bs)%nat;
  wr_pages va : touched va -> user_data (entry A s1 va);
  wr_a x : 0 <= x < sz -> ubyte A s1 x = if decide (dst <= x < dst + Z.of_nat n) then Some (bs !!! Z.to_nat (x - dst)) else ubyte A s x;
  wr_b x : 0 <= x < sz -> ubyte B s1 x = ubyte B s x;
}.

Lemma written_resolved n fl s1 fl' s2 va :
  written n fl s1 -> upage sz va -> resolved fl' a A b B sz va s1 s2 -> written n fl' s2.
Proof using Type*.
  intros [Hi Hn Hp Ha Hb] Hva [Hi' HV HU HW He Ra Rb]. constructor; [done|done| | |].
  - intros x Hx. destruct (decide (x = va)) as [->|Hne]; [by split_and!; [| |left]|].
    rewrite He; [by apply Hp| |done]. pose proof (is_size _ _ _ _ _ _ _ Hi). unfold upage in *. lia.
  - intros x Hx. rewrite Ra by done. by apply Ha.
  - intros x Hx. rewrite Rb by done. by apply Hb.
Qed.

(** One chunk, up to the end of the page or of the bytes. *)
Lemma written_chunk n fl s1 k :
  written n fl s1 -> (n + k <= length bs)%nat -> let va := PGROUNDDOWN (dst + Z.of_nat n) in
  has (entry A s1 va) PTE_V = true -> has (entry A s1 va) PTE_W = true -> upage sz va ->
  dst + Z.of_nat n - va + Z.of_nat k <= PGSIZE ->
  written (n + k) fl (set_k_mem (mem_write (k_mem s1) (PTE2PA (entry A s1 va) + (dst + Z.of_nat n - va)) (take k (drop n bs))) s1).
Proof using Type*.
  intros [Hi Hn Hp Ha Hb] Hk va HV HW Hva Hfit. assert (Hlen : length (take k (drop n bs)) = k) by (rewrite length_take, length_drop; lia).
  pose proof (rounddown_split (dst + Z.of_nat n)) as Hsp. fold va in Hsp. pose proof (Z.mod_pos_bound (dst + Z.of_nat n) PGSIZE ltac:(done)).
  destruct (write_ubyte fl a A b B sz s1 va (dst + Z.of_nat n - va) (take k (drop n bs)) Hi Hva HV HW) as (Hi' & He & Ha' & Hb'); [lia|lia|].
  constructor; [done|lia| | |].
  - intros x Hx. rewrite He. by apply Hp.
  - intros x Hx. rewrite Ha', Ha by done. rewrite Hlen. replace (va + (dst + Z.of_nat n - va)) with (dst + Z.of_nat n) by lia.
    destruct (decide (dst + Z.of_nat n <= x < dst + Z.of_nat n + Z.of_nat k)).
    + rewrite decide_True by lia. f_equal. rewrite !list_lookup_total_alt. f_equal. rewrite lookup_take_lt, lookup_drop by lia. f_equal. lia.
    + destruct (decide (dst <= x < dst + Z.of_nat n)); [rewrite decide_True by lia|rewrite decide_False by lia]; done.
  - intros x Hx. rewrite Hb' by done. by apply Hb.
Qed.

(** The loop: either all bytes are written, or the next go to [dst + n]. *)
Lemma copyout_step n fl s1 :
  written n fl s1 -> (n < length bs)%nat ->
  let va0 := PGROUNDDOWN (dst + Z.of_nat n) in
  let src := drop n bs in
  let k := Z.min (PGSIZE - (dst + Z.of_nat n - va0)) (Z.of_nat (length src)) in
  returns ((pa0 ← walkaddr a va0;
        pa0 ← (if pa0 =? 0 then vmfault a va0 false else mret pa0);
        if pa0 =? 0 then mret (inr (-1)) else
        pte ← walk a va0 false;
        v ← (if pte =? 0 then mret 0 else pte_load pte);
        pa0 ← (if has v PTE_V && has v PTE_U && negb (has v PTE_W) then
                 e ← cowfault a va0;
                 if negb (e =? 0) then mret 0 else walkaddr a va0
               else mret pa0);
        if pa0 =? 0 then mret (inr (-1)) else
        modify (fun s => set_k_mem
          (mem_write (k_mem s) (pa0 + (dst + Z.of_nat n - va0)) (take (Z.to_nat k) src)) s);;
        mret (inl (u64 (va0 + PGSIZE), drop (Z.to_nat k) src))) s1)
    (fun r s2 => match r with
     | inl (d, src') => exists n' fl', (n < n' <= length bs)%nat /\ src' = drop n' bs /\ (n' = length bs \/ d = dst + Z.of_nat n') /\ written n' fl' s2
     | inr e => e = -1 /\ written n [] s2
     end).
Proof using Type*.
  intros Hw Hlt va0 src k. pose proof Hw as [Hi Hn Hp _ _]. pose proof (is_spaces _ _ _ _ _ _ _ Hi) as Hs. pose proof (is_size _ _ _ _ _ _ _ Hi) as Hz.
  pose proof (rounddown_split (dst + Z.of_nat n)) as Hsp. fold va0 in Hsp. pose proof (Z.mod_pos_bound (dst + Z.of_nat n) PGSIZE ltac:(done)) as Hmod.
  assert (Hva : upage sz va0) by (apply upage_rounddown; lia). assert (Hb : 0 <= va0 < MAXVA) by (unfold upage in *; lia).
  assert (Hud : user_data (entry A s1 va0)) by (apply Hp; split; [done|lia]). pose proof Hud as (HV & HU & _).
  destruct (entry_valid_at _ _ _ HV) as [p0 Hat].
  destruct (entry_at_word _ _ _ Hat) as (t & Ht & Hpt). pose proof (ptable_pos _ _ _ _ _ (sp_a _ _ _ _ _ _ Hs) Ht). pose proof (PX_bounds 0 va0 ltac:(lia)).
  assert (Hpos : PTE2PA (entry A s1 va0) <> 0).
  { pose proof (dp_page _ _ _ _ _ (is_data_a _ _ _ _ _ _ _ Hi va0 Hva HV)) as [_ Hpg]. pose proof (pt_end _ _ _ (sp_a _ _ _ _ _ _ Hs)). unfold KERNBASE in *. lia. }
  mred. rewrite (walkaddr_tree a A) by (apply Hs || lia). rewrite HV, HU. mred. rewrite (proj2 (Z.eqb_neq _ _) Hpos). mred.
  rewrite (proj2 (Z.eqb_neq _ _) Hpos). mred. rewrite (walk_tree a A) by (apply Hs || lia). mred. rewrite Hat. cbn [from_option id].
  rewrite (proj2 (Z.eqb_neq p0 0)) by lia. unfold pte_load. mred. replace (load64 (k_mem s1) p0) with (entry A s1 va0) by (unfold entry; by rewrite Hat).
  apply returns_obind. eapply returns_mono; [by apply (copyout_page fl a A b B sz s1 va0)|].
  intros p s2 [(-> & -> & ->)|(Hp0 & fl' & Hres & ->)]; [by split|]. rewrite (proj2 (Z.eqb_neq _ _) Hp0). mred. cbn [returns].
  assert (Hsrc : length src = (length bs - n)%nat) by apply length_drop. assert (Hk : 0 < k) by (unfold PGSIZE in *; lia).
  exists (n + Z.to_nat k)%nat, fl'. split_and!; [lia|lia|by unfold src; rewrite drop_drop| |].
  - destruct (decide (k = Z.of_nat (length src))); [left; lia|right]. unfold u64. rewrite Z.mod_small; [unfold PGSIZE in *; lia|].
    unfold MAXVA in *. change (2 ^ 64) with 18446744073709551616. change (2 ^ 38) with 274877906944 in *. unfold PGSIZE. lia.
  - apply written_chunk; [by eapply written_resolved|lia|apply Hres|apply Hres|done|]. fold va0. unfold PGSIZE in *. lia.
Qed.
End copyout.

(** ** fork *)

(** The memory of a process alone: pages it may write have one reference, and
    no page has more mappings than references. *)
Record sole (T : tree) (sz : Z) (s : kstate) : Prop := {
  so_count pg : pg mod PGSIZE = 0 -> mappings T s pg sz <= Z.max 0 (refcount s pg);
  so_write va : upage sz va -> has (entry T s va) PTE_V = true -> has (entry T s va) PTE_W = true -> refcount s (PTE2PA (entry T s va)) = 1;
}.

Section fork.
  Context (fl : list Z) (old : Z) (To : tree) (new : Z) (Tn : tree) (sz : Z) (s : kstate) (used fl' : list Z) (Tn' : tree) (s' : kstate).
  Context (Hr : fork_ready fl old To new Tn sz s) (Hso : sole To sz s) (Hu : fl = used ++ fl') (Hs : spaces fl' old To new Tn' s') (Hsm : user_same s s').
  Context (Hn : forall k t, Tn' !! k = Some t -> Tn !! k = Some t \/ t ∈ used).
  Context (Hpb : forall va, 0 <= va < sz -> ubyte To s' va = ubyte To s va) (Hcb : forall va, 0 <= va < sz -> ubyte Tn' s' va = ubyte To s va).
  Context (Hen : forall va, upage sz va -> has (entry To s va) PTE_V = true -> entry To s' va = share (entry To s va) /\ entry Tn' s' va = share (entry To s va)).
  Context (Href : forall pg, pg mod PGSIZE = 0 -> pg ∉ used -> refcount s' pg = refcount s pg + mappings To s pg sz).

Lemma ubyte_valid T st va : has (entry T st va) PTE_V = true <-> is_Some (ubyte T st va).
Proof. unfold ubyte. destruct (has _ _); split; [eauto|done|done|by intros [? ?]]. Qed.

(** Both sides map what the parent mapped, read-only. *)
Lemma fork_entry T va : T = To \/ T = Tn' -> upage sz va -> has (entry T s' va) PTE_V = true ->
  has (entry To s va) PTE_V = true /\ entry T s' va = share (entry To s va).
Proof using Type*.
  intros HT Hva HV. pose proof (fr_size _ _ _ _ _ _ _ Hr). assert (HV' : has (entry To s va) PTE_V = true).
  { apply ubyte_valid. apply ubyte_valid in HV. destruct HT as [->| ->]; [rewrite Hpb in HV|rewrite Hcb in HV]; done || apply Hva. }
  split; [done|]. destruct (Hen va Hva HV') as [H1 H2]. by destruct HT as [->| ->].
Qed.

Lemma fork_data T va : T = To \/ T = Tn' -> upage sz va -> has (entry T s' va) PTE_V = true -> data_page fl' To Tn' s' (PTE2PA (entry T s' va)).
Proof using Type*.
  intros HT Hva HV. destruct (fork_entry T va HT Hva HV) as [HV' ->]. rewrite share_pa. set (pg := PTE2PA _).
  destruct (fr_data _ _ _ _ _ _ _ Hr va Hva HV') as [Hp Hfl Ha Hb H1]. fold pg in Hp, Hfl, Ha, Hb, H1.
  assert (Hnu : pg ∉ used /\ pg ∉ fl') by (rewrite Hu in Hfl; set_solver). destruct Hnu as [Hnu Hnf]. constructor; [|done|done| |].
  - clear - Hsm Hp. destruct Hsm as (? & ? & ? & ->). done.
  - intros k [Hk|Hk]%Hn; [by apply (Hb k)|done].
  - rewrite Href by (done || apply Hp). unfold mappings. lia.
Qed.

Lemma fork_mappings T pg : T = To \/ T = Tn' -> mappings T s' pg sz = mappings To s pg sz.
Proof using Type*.
  intros HT. unfold mappings. do 2 f_equal. apply filter_agree. intros x Hx%elem_of_zstep. split.
  - intros [HV HP]. destruct (fork_entry T x HT Hx HV) as [HV' E]. split; [done|]. by rewrite <- HP, E, share_pa.
  - intros [HV HP]. destruct (Hen x Hx HV) as [E1 E2]. destruct HT as [->| ->]; [rewrite E1|rewrite E2]; by rewrite share_valid, share_pa.
Qed.

Lemma fork_isolated : isolated fl' old To new Tn' sz s'.
Proof using Type*.
  constructor; [done|apply Hr| | | | |].
  - intros va. apply fork_data. by left.
  - intros va. apply fork_data. by right.
  - intros pg Hal. rewrite !fork_mappings by auto. pose proof (so_count _ _ _ Hso pg Hal) as Hc.
    destruct (decide (pg ∈ used)) as [Hin|Hin]; [|rewrite Href by done; unfold mappings in *; lia].
    pose proof (fl_ref _ _ (sp_free _ _ _ _ _ _ (fr_spaces _ _ _ _ _ _ _ Hr)) pg) as H0. rewrite H0 in Hc by (rewrite Hu; set_solver). lia.
  - intros va Hva HV. destruct (fork_entry To va (or_introl eq_refl) Hva HV) as [_ ->]. by rewrite share_readonly.
  - intros va Hva HV. destruct (fork_entry Tn' va (or_intror eq_refl) Hva HV) as [_ ->]. by rewrite share_readonly.
Qed.
End fork.

(** C10. uvmcopy gives the child the parent's memory without copying it.  On
    success every page the parent maps below [sz] is mapped by both processes
    with the same entry, the parent's without the write permission, every page
    gains one reference per mapping, the child sees at each address the byte
    the parent saw, and the two address spaces are isolated from then on: a
    write of one is preceded by a copy.  When the pages for the child's tables
    run out it returns -1, the child maps nothing below [sz] and all pages have
    the references they had.  In both cases the parent sees the same bytes and
    entries at or above [sz] are untouched. *)
Theorem uvmcopy_shares fl old To new Tn sz s :
  fork_ready fl old To new Tn sz s -> sole To sz s ->
  returns (uvmcopy old new sz s) (fun e s' => exists used fl' Tn',
    fl = used ++ fl' /\ spaces fl' old To new Tn' s' /\ user_same s s' /\
    (forall va, 0 <= va < sz -> ubyte To s' va = ubyte To s va) /\
    (forall va, sz <= va -> upage MAXVA va -> entry To s' va = entry To s va /\ entry Tn' s' va = entry Tn s va) /\
    if e =? 0 then
      isolated fl' old To new Tn' sz s' /\
      (forall va, upage sz va -> has (entry To s va) PTE_V = true ->
         entry To s' va = share (entry To s va) /\ entry Tn' s' va = share (entry To s va)) /\
      (forall va, 0 <= va < sz -> ubyte Tn' s' va = ubyte To s va) /\
      (forall pg, pg mod PGSIZE = 0 -> pg ∉ used -> refcount s' pg = refcount s pg + mappings To s pg sz)
    else
      e = -1 /\ fl' = [] /\
      (forall va, 0 <= va < sz -> ubyte Tn' s' va = None) /\
      (forall pg, pg mod PGSIZE = 0 -> pg ∉ used -> refcount s' pg = refcount s pg)).
Proof.
  intros Hr Hso. eapply returns_mono; [by apply uvmcopy_spec|].
  intros e s' (used & fl' & Tn' & Hu & Hs & Hsm & Hn & Hby & Hhi & He). exists used, fl', Tn'. split_and!; [done..|].
  destruct (e =? 0); [|done]. destruct He as (Hen & Hcb & Href). split_and!; [|done..]. by eapply fork_isolated.
Qed.

(** C11. Two processes that share pages copy-on-write: copyout to a range of
    data pages of the first writes exactly the given bytes into its memory, and
    the second sees no change at any address; when the pages for the copies run
    out it returns -1 with a prefix of the bytes written.  The invariant of
    sharing (a writable page has one reference, every page as many as its
    mappings) holds again in both cases. *)
Theorem copyout_isolated fl a A b B sz s dst bs :
  isolated fl a A b B sz s -> 0 <= dst -> dst + Z.of_nat (length bs) <= sz ->
  (forall va, upage sz va /\ dst - PGSIZE < va < dst + Z.of_nat (length bs) -> user_data (entry A s va)) ->
  returns (copyout a dst bs s) (fun e s' => exists n fl',
    isolated fl' a A b B sz s' /\ (n <= length bs)%nat /\ (e = 0 /\ n = length bs \/ e = -1 /\ fl' = []) /\
    (forall x, 0 <= x < sz -> ubyte A s' x =
       if decide (dst <= x < dst + Z.of_nat n) then Some (bs !!! Z.to_nat (x - dst)) else ubyte A s x) /\
    (forall x, 0 <= x < sz -> ubyte B s' x = ubyte B s x)).
Proof.
  intros Hi Hdst Hend Hud. unfold copyout.
  apply (loop_returns_state
    (fun x s1 => exists n fl1, x.2 = drop n bs /\ (n = length bs \/ x.1 = dst + Z.of_nat n) /\ written a A b B sz s dst bs n fl1 s1)
    (fun x _ => length x.2)).
  - exists 0%nat, fl. split_and!; [done|right; simpl; lia|]. constructor; [done|lia|done| |done].
    intros x Hx. by rewrite decide_False by lia.
  - simpl. lia.
  - intros [d src] s1 (n & fl1 & Hsrc & Hd & Hw). simpl in Hsrc, Hd. subst src. pose proof Hw as [Hi1 Hn _ Ha Hb].
    destruct (decide (n = length bs)) as [->|Hne].
    { rewrite drop_all. mred. exists (length bs), fl1. split_and!; [done|done|by left|done|done]. }
    destruct Hd as [|Hd]; [done|]. subst d. pose proof (copyout_step a A b B sz s dst bs Hdst Hend n fl1 s1 Hw ltac:(lia)) as Hstep. cbv zeta in Hstep.
    destruct (drop n bs) as [|y l] eqn:Edr; [apply (f_equal length) in Edr; rewrite length_drop in Edr; simpl in Edr; lia|]. rewrite <- Edr in *. cbv zeta.
    assert (Hz : MAXVA <=? PGROUNDDOWN (dst + Z.of_nat n) = false).
    { apply Z.leb_gt. pose proof (is_size _ _ _ _ _ _ _ Hi). pose proof (upage_rounddown sz (dst + Z.of_nat n) ltac:(lia)). unfold upage in *. lia. }
    rewrite Hz. eapply returns_mono; [exact Hstep|]. intros [[d' src']|e] s2.
    + intros (n' & fl' & Hn' & -> & Hd' & Hw'). split; [by exists n', fl'|]. simpl. rewrite !length_drop. lia.
    + intros [-> [Hi2 Hn2 _ Ha2 Hb2]]. exists n, []. split_and!; [done|done|by right|done|done].
Qed.
