(* ===== verification/Sysargs.v ===== *)
(** * System-call arguments (first half of kernel/syscall.c)

    The six argument registers are saved in the trapframe page of the current
    process, which lives in the byte memory; the n-th one is at offset
    112 + 8n of struct trapframe (proc.h). *)

From S2P Require Import Prelude State CString.

Definition TF_EPC : Z := 24.
Definition TF_SP : Z := 48.
Definition TF_A0 : Z := 112.
Definition TF_A1 : Z := 120.
Definition TF_A7 : Z := 168.

Definition tf_load (off : Z) : K Z :=
  p ← myproc; pp ← get_proc p; m ← gets k_mem;
  mret (load64 m (p_trapframe pp + off)).

Definition tf_store (off x : Z) : K unit :=
  p ← myproc; pp ← get_proc p;
  modify (fun s => set_k_mem (store64 (k_mem s) (p_trapframe pp + off) x) s).

Definition argraw (n : Z) : K Z :=
  if (0 <=? n) && (n <=? 5) then tf_load (TF_A0 + 8 * n) else panic "argraw".

Definition argint (n : Z) : K Z := x ← argraw n; mret (s32 x).

Definition argaddr (n : Z) : K Z := argraw n.
