(* ===== verification/Proc.v ===== *)
(** * Processes: ready queue, sleep and wakeup, mutexes (kernel/proc.c)

    The EDF ready queue, the scheduler and its process-state machine, sleep
    channels, kill, and the user-visible mutexes.  A switch to the scheduler
    is the outcome [Swtch]; the continuation resumes when the scheduler
    switches back. *)

From S2P Require Import Prelude State Spinlock CString Sysargs.

(** ** The ready queue *)

(** rq.procs[i] = x. *)
Definition rq_set (i : Z) (x : nat) : K unit :=
  q ← gets k_rq;
  if (0 <=? i) && (i <? Z.of_nat (length (rq_procs q)))
  then modify (set_k_rq (set_rq_procs (<[Z.to_nat i := x]> (rq_procs q)) q))
  else undefined.

(** rq.procs[i]. *)
Definition rq_get (i : Z) : K nat :=
  q ← gets k_rq; if 0 <=? i then deref (rq_procs q !! Z.to_nat i) else undefined.

Definition rq_set_count (n : Z) : K unit :=
  modify (fun s => set_k_rq (set_rq_count n (k_rq s)) s).

(** The order of the queue: later deadline, or the same and a larger priority. *)
Definition runs_after (a b : proc) : bool :=
  (p_deadline b <? p_deadline a) ||
  ((p_deadline a =? p_deadline b) && (p_priority b <? p_priority a)).

(** The ticks counter as rq_insert reads it. *)
Definition read_now : K Z :=
  h ← holding LTicks;
  if h : bool then gets (fun s => s32 (k_ticks s))
  else
    acquire LTicks;;
    now ← gets (fun s => s32 (k_ticks s));
    release LTicks;;
    mret now.

Definition rq_insert (p : nat) : K unit :=
  acquire LRq;;
  pp ← get_proc p;
  if p_in_rq pp then release LRq else
  now ← read_now;
  if now <? p_start_time pp then release LRq else
  q ← gets k_rq;
  if Z.of_nat NPROC <=? rq_count q then release LRq;; panic "ready queue overflow" else
  i ← loop (S NPROC) (fun i =>
    if 0 <? i then
      j ← rq_get (i - 1);
      pj ← get_proc j;
      if runs_after pj pp then rq_set i j;; mret (inl (i - 1)) else mret (inr i)
    else mret (inr i)) (rq_count q);
  rq_set i p;;
  upd_proc p (set_p_in_rq true);;
  rq_set_count (rq_count q + 1);;
  release LRq.

(** The shift loop of rq_remove and rq_dequeue: procs[j] = procs[j+1] for
    j from [i] below count - 1. *)
Definition rq_shift (i : Z) : K unit :=
  q ← gets k_rq;
  foreach (zrange i (rq_count q - 1)) (fun j => x ← rq_get (j + 1); rq_set j x).

Definition rq_remove (p : nat) : K unit :=
  acquire LRq;;
  q ← gets k_rq;
  r ← forl (zrange 0 (rq_count q)) (fun i =>
    x ← rq_get i;
    if bool_decide (x = p) then
      rq_shift i;;
      rq_set_count (rq_count q - 1);;
      upd_proc p (set_p_in_rq false);;
      release LRq;;
      mret (Some tt)
    else mret None);
  match r with Some _ => mret tt | None => release LRq end.

Definition rq_dequeue : K (option nat) :=
  q ← gets k_rq;
  if rq_count q =? 0 then mret None else
  p ← rq_get 0;
  upd_proc p (set_p_in_rq false);;
  rq_shift 0;;
  rq_set_count (rq_count q - 1);;
  mret (Some p).

(** ** Switching, sleeping, waking *)

Definition swtch : K unit := fun s => Swtch s (fun s' => Ret tt s').

(** The check of mycpu()->noff is the number of spin-locks held; interrupts
    are off whenever one is. *)
Definition sched : K unit :=
  p ← myproc;
  pp ← get_proc p;
  h ← holding (LProc p);
  held ← gets k_held;
  if negb h then panic "sched p->lock" else
  if negb (length held =? 1)%nat then panic "sched locks" else
  if bool_decide (p_state pp = RUNNING) then panic "sched RUNNING" else
  swtch.

Definition yield : K unit :=
  p ← myproc;
  acquire (LProc p);;
  upd_proc p (set_p_state RUNNABLE);;
  release (LProc p);;
  rq_insert p;;
  acquire (LProc p);;
  sched;;
  release (LProc p).

Definition sleep (ch : chan) (lk : lockid) : K unit :=
  p ← myproc;
  acquire (LProc p);;
  release lk;;
  pp ← get_proc p;
  when (bool_decide (p_state pp = RUNNABLE)) (rq_remove p);;
  upd_proc p (set_p_chan (Some ch));;
  upd_proc p (set_p_state SLEEPING);;
  sched;;
  upd_proc p (set_p_chan None);;
  release (LProc p);;
  acquire lk.

Definition wakeup (ch : chan) : K unit :=
  foreach (seq 0 NPROC) (fun p =>
    c ← gets k_cur;
    if bool_decide (c = Some p) then mret tt else
    acquire (LProc p);;
    pp ← get_proc p;
    when (bool_decide (p_state pp = SLEEPING) && bool_decide (p_chan pp = Some ch))
      (upd_proc p (set_p_state RUNNABLE);; rq_insert p);;
    release (LProc p)).

(** How many times a process woken with its condition still false may go
    back to sleep; the source puts no bound on it. *)
Definition WAKEUPS : nat := 100.

(** while(cond) sleep(ch, lk): [cond] is evaluated with [lk] held. *)
Definition sleep_while (cond : K bool) (ch : chan) (lk : lockid) : K unit :=
  loop WAKEUPS (fun _ : unit =>
    b ← cond;
    if b : bool then sleep ch lk;; mret (inl tt) else mret (inr tt)) tt.

Definition kkill (pid : Z) : K Z :=
  r ← forl (seq 0 NPROC) (fun p =>
    acquire (LProc p);;
    pp ← get_proc p;
    if p_pid pp =? pid then
      upd_proc p (set_p_killed true);;
      when (bool_decide (p_state pp = SLEEPING))
        (upd_proc p (set_p_state RUNNABLE);; rq_insert p);;
      release (LProc p);;
      mret (Some 0)
    else release (LProc p);; mret None);
  mret (default (-1) r).

Definition setkilled (p : nat) : K unit :=
  acquire (LProc p);; upd_proc p (set_p_killed true);; release (LProc p).

Definition killed (p : nat) : K bool :=
  acquire (LProc p);; pp ← get_proc p; release (LProc p);; mret (p_killed pp).

Definition allocpid : K Z :=
  acquire LPid;;
  pid ← gets k_nextpid;
  modify (set_k_nextpid (s32 (pid + 1)));;
  release LPid;;
  mret pid.

(** ** The scheduler *)

(** Deferred activation: queue the runnable processes whose start time has
    arrived. *)
Definition activate (now : Z) : K unit :=
  foreach (seq 0 NPROC) (fun i =>
    acquire (LProc i);;
    c ← get_proc i;
    if bool_decide (p_state c = RUNNABLE) && negb (p_in_rq c) && (p_start_time c <=? now)
    then release (LProc i);; rq_insert i
    else release (LProc i)).

(** One iteration of the loop of scheduler(); false when the ready queue was
    empty and the core waits for an interrupt. *)
Definition scheduler_iter : K bool :=
  acquire LTicks;;
  now ← gets (fun s => s32 (k_ticks s));
  release LTicks;;
  activate now;;
  acquire LRq;;
  r ← rq_dequeue;
  release LRq;;
  match r with
  | Some p =>
      acquire (LProc p);;
      pp ← get_proc p;
      when (bool_decide (p_state pp = RUNNABLE))
        (upd_proc p (set_p_state RUNNING);;
         modify (set_k_cur (Some p));;
         swtch;;
         modify (set_k_cur None));;
      release (LProc p);;
      mret true
  | None => mret false
  end.

(** ** Mutexes *)

Definition sys_mtx_create : K Z :=
  locked ← argint 0;
  acquire LMutexTable;;
  me ← gets k_cur;
  r ← forl (seq 0 NMUTEX) (fun i =>
    mx ← get_mutex i;
    if negb (mtx_used mx) then
      upd_mutex i (set_mtx_used true);;
      upd_mutex i (set_mtx_locked (negb (locked =? 0)));;
      upd_mutex i (set_mtx_owner (if locked =? 0 then None else me));;
      release LMutexTable;;
      mret (Some (Z.of_nat i))
    else mret None);
  match r with
  | Some i => mret i
  | None => release LMutexTable;; mret (-1)
  end.

Definition sys_mtx_lock : K Z :=
  lock_id ← argint 0;
  if (lock_id <? 0) || (Z.of_nat NMUTEX <=? lock_id) then mret (-1) else
  let i := Z.to_nat lock_id in
  acquire LMutexTable;;
  mx ← get_mutex i;
  if negb (mtx_used mx) then release LMutexTable;; mret (-1) else
  release LMutexTable;;
  acquire (LMutex i);;
  sleep_while (mx ← get_mutex i; mret (mtx_locked mx)) (ChMutex i) (LMutex i);;
  upd_mutex i (set_mtx_locked true);;
  me ← gets k_cur;
  upd_mutex i (set_mtx_owner me);;
  release (LMutex i);;
  mret 0.

Definition sys_mtx_unlock : K Z :=
  lock_id ← argint 0;
  if (lock_id <? 0) || (Z.of_nat NMUTEX <=? lock_id) then mret (-1) else
  let i := Z.to_nat lock_id in
  acquire (LMutex i);;
  mx ← get_mutex i;
  if negb (mtx_used mx) || negb (mtx_locked mx) then release (LMutex i);; mret (-1) else
  upd_mutex i (set_mtx_locked false);;
  upd_mutex i (set_mtx_owner None);;
  wakeup (ChMutex i);;
  release (LMutex i);;
  mret 0.
