(* ===== verification/ReadyQueue.v ===== *)
(** * The EDF ready queue and wakeup: specification and refinement

    The array rq.procs with its count represents a list of processes.  The
    abstract operations on that list are below; rq_insert, rq_remove and
    rq_dequeue are shown to implement them under the invariant [rq_wf], which
    they preserve: the queue has no duplicates, holds exactly the processes
    whose in_rq flag is set, and is sorted by (deadline, priority). *)

From S2P Require Import Prelude State Spinlock CString Sysargs Proc.

(** ** Abstract queue *)

(** The processes in the queue, in array order. *)
Definition rq_list (s : kstate) : list nat :=
  take (Z.to_nat (rq_count (k_rq s))) (rq_procs (k_rq s)).

(** [a] must be scheduled strictly after [b]. *)
Definition after (ps : list proc) (a b : nat) : bool :=
  match ps !! a, ps !! b with
  | Some pa, Some pb => runs_after pa pb
  | _, _ => false
  end.

(** Sorted insertion: behind every process that need not run after [p]. *)
Definition edf_insert (ps : list proc) (p : nat) (l : list nat) : list nat :=
  filter (fun x => after ps x p = false) l ++ p :: filter (fun x => after ps x p = true) l.

Definition edf_sorted (ps : list proc) (l : list nat) : Prop :=
  forall i j a b, (i < j)%nat -> l !! i = Some a -> l !! j = Some b -> after ps a b = false.

Definition is_queued (ps : list proc) (i : nat) : Prop :=
  exists p, ps !! i = Some p /\ p_in_rq p = true.

Record rq_wf (s : kstate) : Prop := {
  rqwf_nprocs : length (k_procs s) = NPROC;
  rqwf_cap : length (rq_procs (k_rq s)) = NPROC;
  rqwf_count : 0 <= rq_count (k_rq s) <= Z.of_nat NPROC;
  rqwf_nodup : NoDup (rq_list s);
  rqwf_mem i : i ∈ rq_list s <-> is_queued (k_procs s) i;
  rqwf_sorted : edf_sorted (k_procs s) (rq_list s);
}.

(** ** The order *)

(** [runs_after] is the strict lexicographic order on (deadline, priority). *)
Lemma runs_after_iff a b :
  runs_after a b = true <->
  p_deadline b < p_deadline a \/ (p_deadline a = p_deadline b /\ p_priority b < p_priority a).
Proof.
  unfold runs_after.
  rewrite orb_true_iff, andb_true_iff, Z.ltb_lt, Z.eqb_eq, Z.ltb_lt. done.
Qed.

Lemma runs_after_false a b :
  runs_after a b = false <->
  p_deadline a < p_deadline b \/ (p_deadline a = p_deadline b /\ p_priority a <= p_priority b).
Proof.
  rewrite <- not_true_iff_false, runs_after_iff. lia.
Qed.

Lemma runs_after_false_trans a b c :
  runs_after a b = false -> runs_after b c = false -> runs_after a c = false.
Proof. rewrite !runs_after_false. lia. Qed.

Lemma runs_after_asym a b : runs_after a b = true -> runs_after b a = false.
Proof. rewrite runs_after_iff, runs_after_false. lia. Qed.

(** ** Counting: a process that is not queued leaves room for it *)

Lemma rq_list_lt s i : rq_wf s -> i ∈ rq_list s -> (i < NPROC)%nat.
Proof.
  intros Hwf Hi. apply (rqwf_mem _ Hwf) in Hi as (p & Hp & _).
  apply lookup_lt_Some in Hp. by rewrite (rqwf_nprocs _ Hwf) in Hp.
Qed.

Lemma length_rq_list s : rq_wf s -> Z.of_nat (length (rq_list s)) = rq_count (k_rq s).
Proof.
  intros Hwf. unfold rq_list. rewrite length_take.
  pose proof (rqwf_count _ Hwf). rewrite (rqwf_cap _ Hwf). lia.
Qed.

Lemma rq_room s p :
  rq_wf s -> (p < NPROC)%nat -> p ∉ rq_list s -> rq_count (k_rq s) < Z.of_nat NPROC.
Proof.
  intros Hwf Hp Hnin. rewrite <- length_rq_list by done.
  assert (p :: rq_list s ⊆+ seq 0 NPROC) as Hsub.
  { apply NoDup_submseteq.
    - constructor; [done|]. apply (rqwf_nodup _ Hwf).
    - intros x. rewrite elem_of_cons, elem_of_seq.
      intros [->|Hx]; [lia|]. apply (rq_list_lt _ _ Hwf) in Hx. lia. }
  apply submseteq_length in Hsub. rewrite length_seq in Hsub. simpl in Hsub. lia.
Qed.

Lemma rq_list_lookup s i :
  rq_wf s -> Z.of_nat i < rq_count (k_rq s) -> rq_procs (k_rq s) !! i = rq_list s !! i.
Proof. intros Hwf Hi. unfold rq_list. rewrite lookup_take_lt by lia. done. Qed.

(** ** Lists built by shifting *)

(** Inserting at [i] by shifting up and then storing. *)
Lemma shift_insert_take (n i : nat) (p : nat) (arr arr' : list nat) :
  (i <= n)%nat -> (n < length arr)%nat -> length arr' = length arr ->
  (forall j, arr' !! j = if decide (j < i)%nat then arr !! j
                       else if decide (j = i) then Some p
                       else if decide (j <= n)%nat then arr !! (j - 1)%nat else arr !! j) ->
  take (S n) arr' = take i (take n arr) ++ p :: drop i (take n arr).
Proof.
  intros Hi Hn Hlen H. apply list_eq. intros j.
  rewrite take_take, Nat.min_l by lia.
  destruct (decide (j < S n)%nat) as [Hj|Hj].
  2:{ rewrite lookup_take_ge by lia. symmetry. apply lookup_ge_None.
      rewrite length_app, length_take. simpl. rewrite length_drop, length_take. lia. }
  rewrite lookup_take_lt, H by lia.
  destruct (decide (j < i)%nat).
  { rewrite lookup_app_l by (rewrite length_take; lia). by rewrite lookup_take_lt. }
  rewrite lookup_app_r by (rewrite length_take; lia). rewrite length_take, Nat.min_l by lia.
  destruct (decide (j = i)) as [->|].
  { by rewrite Nat.sub_diag. }
  rewrite decide_True by lia.
  destruct (j - i)%nat as [|k] eqn:E; [lia|]. simpl.
  rewrite lookup_drop, lookup_take_lt by lia. f_equal. lia.
Qed.

(** ** rq_insert *)

Lemma get_proc_eq s i p : k_procs s !! i = Some p -> get_proc i s = Ret p s.
Proof. intros H. unfold get_proc. mred. by rewrite H. Qed.

Lemma upd_proc_eq s i p f :
  k_procs s !! i = Some p ->
  upd_proc i f s = Ret tt (set_k_procs (<[i := f p]> (k_procs s)) s).
Proof. intros H. unfold upd_proc. mred. by rewrite (get_proc_eq _ _ _ H). Qed.

Lemma rq_get_eq s i x :
  0 <= i -> rq_procs (k_rq s) !! Z.to_nat i = Some x -> rq_get i s = Ret x s.
Proof.
  intros Hi H. unfold rq_get. mred. rewrite (proj2 (Z.leb_le 0 i)) by lia. by rewrite H.
Qed.

Lemma rq_set_eq s i x :
  0 <= i < Z.of_nat (length (rq_procs (k_rq s))) ->
  rq_set i x s =
    Ret tt (set_k_rq (mkRq (<[Z.to_nat i := x]> (rq_procs (k_rq s))) (rq_count (k_rq s))) s).
Proof.
  intros Hi. unfold rq_set. mred.
  by rewrite (proj2 (Z.leb_le 0 i)), (proj2 (Z.ltb_lt i _)) by lia.
Qed.

(** The state of the array when the insertion loop has come down to [i]. *)
Definition shifted (arr arr' : list nat) (n i : nat) : Prop :=
  length arr' = length arr /\
  forall j, arr' !! j = if decide (j <= i)%nat then arr !! j
                      else if decide (j <= n)%nat then arr !! (j - 1)%nat else arr !! j.

Lemma shifted_refl arr n : shifted arr arr n n.
Proof. split; [done|]. intros j. by repeat case_decide. Qed.

Lemma shifted_step arr arr' n i x :
  shifted arr arr' n (S i) -> (S i <= n)%nat -> (n < length arr)%nat ->
  arr !! i = Some x -> shifted arr (<[S i := x]> arr') n i.
Proof.
  intros [Hl H] Hi Hn Hx. split; [by rewrite length_insert|]. intros j.
  destruct (decide (j = S i)) as [->|Hne].
  - rewrite list_lookup_insert_eq by lia. rewrite decide_False, decide_True by lia.
    rewrite <- Hx. f_equal. lia.
  - rewrite list_lookup_insert_ne by done. rewrite H. repeat case_decide; try done; lia.
Qed.

Lemma rq_insert_loop s p pp :
  rq_wf s -> k_procs s !! p = Some pp -> rq_count (k_rq s) < Z.of_nat NPROC ->
  returns
    (loop (S NPROC) (fun i =>
       if 0 <? i then
         j ← rq_get (i - 1);
         pj ← get_proc j;
         if runs_after pj pp then rq_set i j;; mret (inl (i - 1)) else mret (inr i)
       else mret (inr i)) (rq_count (k_rq s)) s)
    (fun i s' => exists arr',
       let n := rq_count (k_rq s) in
       s' = set_k_rq (mkRq arr' n) s /\
       shifted (rq_procs (k_rq s)) arr' (Z.to_nat n) (Z.to_nat i) /\ 0 <= i <= n /\
       (forall k x, i <= Z.of_nat k -> rq_list s !! k = Some x -> after (k_procs s) x p = true) /\
       (i = 0 \/ exists x, rq_list s !! Z.to_nat (i - 1) = Some x /\ after (k_procs s) x p = false)).
Proof.
  intros Hwf Hp Hroom. set (n := rq_count (k_rq s)) in *. set (arr := rq_procs (k_rq s)) in *.
  pose proof (rqwf_count _ Hwf) as Hcnt. fold n in Hcnt.
  pose proof (rqwf_cap _ Hwf) as Hcap. fold arr in Hcap.
  apply (loop_returns
    (fun i s1 => exists arr', s1 = set_k_rq (mkRq arr' n) s /\
       shifted arr arr' (Z.to_nat n) (Z.to_nat i) /\ 0 <= i <= n /\
       forall k x, i <= Z.of_nat k -> rq_list s !! k = Some x -> after (k_procs s) x p = true)
    Z.to_nat).
  - exists arr. repeat split; try lia; try apply shifted_refl.
    + unfold n, arr. by destruct s as [? ? ? ? ? [] ? ? ? ?].
    + intros k x Hk Hx. apply lookup_lt_Some in Hx.
      pose proof (length_rq_list _ Hwf). fold n in H. lia.
  - lia.
  - intros i s1 (arr' & -> & Hsh & Hi & Haft).
    destruct (Z.ltb_spec 0 i) as [Hpos|Hz].
    2:{ mred. exists arr'. split_and!; try done; lia. }
    assert (exists j pj, rq_list s !! Z.to_nat (i - 1) = Some j /\ k_procs s !! j = Some pj)
      as (j & pj & Hj & Hpj).
    { destruct (lookup_lt_is_Some_2 (rq_list s) (Z.to_nat (i - 1))) as [j Hj].
      - pose proof (length_rq_list _ Hwf). fold n in H. lia.
      - pose proof (proj1 (rqwf_mem _ Hwf j) (list_elem_of_lookup_2 _ _ _ Hj)) as (pj & ? & _).
        by exists j, pj. }
    assert (Harr : arr !! Z.to_nat (i - 1) = Some j).
    { unfold arr. rewrite rq_list_lookup by (done || lia). done. }
    mred. rewrite (rq_get_eq _ _ j); [|lia|].
    2:{ simpl. destruct Hsh as [_ Hsh]. rewrite Hsh, decide_True by lia. done. }
    mred. rewrite (get_proc_eq _ _ pj) by done. mred.
    assert (Hafter : after (k_procs s) j p = runs_after pj pp)
      by (unfold after; by rewrite Hpj, Hp).
    destruct (runs_after pj pp) eqn:Hra; mred.
    + rewrite rq_set_eq by (simpl; destruct Hsh as [-> _]; lia). mred. split; [|lia].
      eexists. split; [reflexivity|]. simpl. split_and!; [|lia|lia|].
      * replace (Z.to_nat i) with (S (Z.to_nat (i - 1))) in Hsh |- * by lia.
        apply shifted_step; try done; lia.
      * intros k x Hk Hx. destruct (decide (k = Z.to_nat (i - 1))) as [->|].
        -- congruence.
        -- apply (Haft k x); [lia|done].
    + exists arr'. split_and!; try done; try lia. right. eexists. split; [done|congruence].
Qed.

Lemma rq_wf_ext s s' :
  k_procs s' = k_procs s -> k_rq s' = k_rq s -> rq_wf s -> rq_wf s'.
Proof.
  intros Hp Hq [H1 H2 H3 H4 H5 H6].
  assert (Hl : rq_list s' = rq_list s) by (unfold rq_list; by rewrite Hq).
  constructor; rewrite ?Hl, ?Hp, ?Hq; auto.
Qed.

Lemma after_trans_false s a b p :
  a ∈ rq_list s -> b ∈ rq_list s -> rq_wf s -> is_Some (k_procs s !! p) ->
  after (k_procs s) a b = false -> after (k_procs s) b p = false -> after (k_procs s) a p = false.
Proof.
  intros Ha Hb Hwf [pp Hp].
  apply (rqwf_mem _ Hwf) in Ha as (pa & Ha & _), Hb as (pb & Hb & _).
  unfold after. rewrite Ha, Hb, Hp. apply runs_after_false_trans.
Qed.

(** Where the loop stops is where sorted insertion puts the process. *)
Lemma split_is_edf_insert s p i :
  rq_wf s -> is_Some (k_procs s !! p) -> 0 <= i <= rq_count (k_rq s) ->
  (forall k x, i <= Z.of_nat k -> rq_list s !! k = Some x -> after (k_procs s) x p = true) ->
  (i = 0 \/ exists x, rq_list s !! Z.to_nat (i - 1) = Some x /\ after (k_procs s) x p = false) ->
  take (Z.to_nat i) (rq_list s) ++ p :: drop (Z.to_nat i) (rq_list s) =
    edf_insert (k_procs s) p (rq_list s).
Proof.
  intros Hwf Hp Hi Haft Hbef. unfold edf_insert. set (l := rq_list s) in *.
  assert (H1 : Forall (fun x => after (k_procs s) x p = false) (take (Z.to_nat i) l)).
  { apply Forall_lookup. intros k x. rewrite lookup_take_Some. intros [Hx Hk].
    destruct Hbef as [->|(y & Hy & Hyp)]; [lia|].
    destruct (decide (k = Z.to_nat (i - 1))) as [->|]; [congruence|].
    eapply (after_trans_false s x y p); eauto using list_elem_of_lookup_2.
    eapply (rqwf_sorted _ Hwf k); [|exact Hx|exact Hy]. lia. }
  assert (H2 : Forall (fun x => after (k_procs s) x p = true) (drop (Z.to_nat i) l)).
  { apply Forall_lookup. intros k x. rewrite lookup_drop. intros Hx.
    eapply Haft; [|exact Hx]. lia. }
  rewrite <- (take_drop (Z.to_nat i) l) at 3 4. rewrite !list_filter_app. f_equal.
  - rewrite (list_filter_all _ (take _ l)) by done.
    rewrite (list_filter_none _ (drop _ l)); [by rewrite app_nil_r|].
    eapply Forall_impl; [exact H2|]. simpl. congruence.
  - f_equal. rewrite (list_filter_none _ (take _ l)); simpl.
    + by rewrite (list_filter_all _ (drop _ l)).
    + eapply Forall_impl; [exact H1|]. simpl. congruence.
Qed.

Lemma after_set_in_rq ps p pp b x y :
  ps !! p = Some pp -> after (<[p := set_p_in_rq b pp]> ps) x y = after ps x y.
Proof.
  intros Hp. unfold after. pose proof (lookup_lt_Some _ _ _ Hp).
  destruct (decide (x = p)) as [->|], (decide (y = p)) as [->|];
    rewrite ?list_lookup_insert_eq, ?list_lookup_insert_ne, ?Hp by done; done.
Qed.

Lemma elem_of_edf_insert ps p l x : x ∈ edf_insert ps p l <-> x = p \/ x ∈ l.
Proof.
  unfold edf_insert. rewrite elem_of_app, elem_of_cons, !list_elem_of_filter.
  destruct (after ps x p); naive_solver.
Qed.

Lemma NoDup_edf_insert ps p l : NoDup l -> p ∉ l -> NoDup (edf_insert ps p l).
Proof.
  intros Hnd Hp. unfold edf_insert. apply NoDup_app. split_and!.
  - by apply NoDup_filter.
  - intros x. rewrite elem_of_cons, !list_elem_of_filter. intros [H1 H2].
    intros [->|[H3 _]]; [done|congruence].
  - constructor; [|by apply NoDup_filter]. rewrite list_elem_of_filter. by intros [_ ?].
Qed.

Lemma length_edf_insert ps p l : length (edf_insert ps p l) = S (length l).
Proof.
  unfold edf_insert. rewrite length_app. simpl.
  induction l as [|x l IH]; [done|]. rewrite !filter_cons.
  destruct (after ps x p); simpl; lia.
Qed.

(** A list cut in two sorted halves around an element is sorted. *)
Lemma edf_sorted_cut ps l1 p l2 :
  edf_sorted ps l1 -> edf_sorted ps l2 ->
  (forall x, x ∈ l1 -> after ps x p = false) ->
  (forall y, y ∈ l2 -> after ps p y = false) ->
  (forall x y, x ∈ l1 -> y ∈ l2 -> after ps x y = false) ->
  edf_sorted ps (l1 ++ p :: l2).
Proof.
  intros Hs1 Hs2 Hlp Hpl H12 i j a b Hij Ha Hb.
  assert (Hcase : forall k c, (l1 ++ p :: l2) !! k = Some c ->
    (k < length l1 /\ l1 !! k = Some c)%nat \/ (k = length l1 /\ c = p) \/
    (exists k', k = S (length l1 + k')%nat /\ l2 !! k' = Some c)).
  { intros k c. rewrite lookup_app_Some. intros [H|[Hk H]].
    - left. split; [by eapply lookup_lt_Some|done].
    - right. destruct (k - length l1)%nat as [|k'] eqn:E; simpl in H.
      + left. split; [lia|congruence].
      + right. exists k'. split; [lia|done]. }
  destruct (Hcase _ _ Ha) as [[Hi1 Ha1]|[[-> ->]|(i' & -> & Ha1)]];
    destruct (Hcase _ _ Hb) as [[Hj1 Hb1]|[[-> ->]|(j' & -> & Hb1)]]; try lia;
    eauto using list_elem_of_lookup_2.
  apply (Hs2 i' j'); [lia|done|done].
Qed.

Lemma edf_sorted_sublist ps l1 l2 : edf_sorted ps l2 -> l1 `sublist_of` l2 -> edf_sorted ps l1.
Proof.
  intros Hs Hsub. induction Hsub as [|x l1 l2 Hsub IH|x l1 l2 Hsub IH].
  - intros i j a b _ H. done.
  - assert (edf_sorted ps l2) as Hs2.
    { intros i j a b Hij Ha Hb. apply (Hs (S i) (S j)); [lia|done|done]. }
    intros [|i] [|j] a b Hij Ha Hb; try lia; simpl in *.
    + simplify_eq. assert (b ∈ l2) as Hin.
      { eapply sublist_subseteq; [exact Hsub|]. by eapply list_elem_of_lookup_2. }
      apply list_elem_of_lookup in Hin as [k Hk].
      apply (Hs O (S k)); [lia|done|done].
    + apply (IH Hs2 i j); [lia|done|done].
  - apply IH. intros i j a b Hij Ha Hb. apply (Hs (S i) (S j)); [lia|done|done].
Qed.

Lemma edf_sorted_insert s p :
  rq_wf s -> is_Some (k_procs s !! p) ->
  edf_sorted (k_procs s) (edf_insert (k_procs s) p (rq_list s)).
Proof.
  intros Hwf [pp Hp]. unfold edf_insert.
  assert (Hv : forall x, x ∈ rq_list s -> exists px, k_procs s !! x = Some px).
  { intros x Hx. apply (rqwf_mem _ Hwf) in Hx as (px & ? & _). by exists px. }
  assert (Hpy : forall y, y ∈ rq_list s -> after (k_procs s) y p = true ->
                  after (k_procs s) p y = false).
  { intros y Hy. destruct (Hv y Hy) as [py Hpy]. unfold after. rewrite Hpy, Hp.
    apply runs_after_asym. }
  apply edf_sorted_cut.
  - eapply edf_sorted_sublist; [apply (rqwf_sorted _ Hwf)|apply sublist_filter].
  - eapply edf_sorted_sublist; [apply (rqwf_sorted _ Hwf)|apply sublist_filter].
  - intros x. rewrite list_elem_of_filter. by intros [? _].
  - intros y. rewrite list_elem_of_filter. intros [? ?]. auto.
  - intros x y. rewrite !list_elem_of_filter. intros [Hx Hxl] [Hy Hyl].
    specialize (Hpy _ Hyl Hy). destruct (Hv x Hxl) as [px Hpx], (Hv y Hyl) as [py Hpy'].
    unfold after in *. rewrite Hpx, Hpy', Hp in *. by eapply runs_after_false_trans.
Qed.

(** Putting [p] in the array as [edf_insert] does, and setting its flag,
    preserves the invariant. *)
Lemma rq_wf_insert s s' p pp :
  rq_wf s -> k_procs s !! p = Some pp -> p_in_rq pp = false ->
  k_procs s' = <[p := set_p_in_rq true pp]> (k_procs s) ->
  length (rq_procs (k_rq s')) = NPROC -> rq_count (k_rq s') = rq_count (k_rq s) + 1 ->
  rq_list s' = edf_insert (k_procs s) p (rq_list s) -> rq_wf s'.
Proof.
  intros Hwf Hp Hin Hps Hcap Hcnt Hl.
  assert (Hlt : (p < NPROC)%nat).
  { apply lookup_lt_Some in Hp. by rewrite (rqwf_nprocs _ Hwf) in Hp. }
  assert (Hnin : p ∉ rq_list s).
  { intros (px & Hpx & Hq)%(rqwf_mem _ Hwf). congruence. }
  pose proof (rq_room _ _ Hwf Hlt Hnin). pose proof (rqwf_count _ Hwf).
  constructor; rewrite ?Hps, ?Hl.
  - by rewrite length_insert, (rqwf_nprocs _ Hwf).
  - done.
  - lia.
  - apply NoDup_edf_insert; [apply (rqwf_nodup _ Hwf)|done].
  - intros i. rewrite elem_of_edf_insert, (rqwf_mem _ Hwf). unfold is_queued.
    destruct (decide (i = p)) as [->|Hne].
    + rewrite list_lookup_insert_eq by (by rewrite (rqwf_nprocs _ Hwf)).
      split; [intros _; by eexists|by left].
    + rewrite list_lookup_insert_ne by done. naive_solver.
  - intros i j a b Hij Ha Hb. rewrite after_set_in_rq by done.
    eapply edf_sorted_insert; eauto.
Qed.

Lemma read_now_eq s : read_now s = Ret (s32 (k_ticks s)) s.
Proof.
  unfold read_now, holding. mred. case_bool_decide as H; mred; [done|].
  rewrite acquire_eq by done. mred.
  rewrite (release_eq _ _ (k_held s)) by done. mred.
  by destruct s.
Qed.

Lemma rq_insert_spec s p pp :
  rq_wf s -> LRq ∉ k_held s -> k_procs s !! p = Some pp ->
  returns (rq_insert p s) (fun _ s' =>
    if p_in_rq pp || (s32 (k_ticks s) <? p_start_time pp) then s' = s
    else exists arr',
      s' = set_k_procs (<[p := set_p_in_rq true pp]> (k_procs s))
             (set_k_rq (mkRq arr' (rq_count (k_rq s) + 1)) s) /\
      rq_list s' = edf_insert (k_procs s) p (rq_list s) /\ rq_wf s').
Proof.
  intros Hwf Hlk Hp. unfold rq_insert. mred. rewrite acquire_eq by done. mred.
  set (s1 := set_k_held (LRq :: k_held s) s).
  assert (Hwf1 : rq_wf s1) by (by apply (rq_wf_ext s)).
  rewrite (get_proc_eq s1 p pp) by done. mred.
  destruct (p_in_rq pp) eqn:Hin; mred.
  { rewrite (release_eq _ _ (k_held s)) by done. simpl. by destruct s. }
  rewrite read_now_eq. mred. change (k_ticks s1) with (k_ticks s).
  destruct (s32 (k_ticks s) <? p_start_time pp).
  { rewrite (release_eq _ _ (k_held s)) by done. simpl. by destruct s. }
  assert (Hroom : rq_count (k_rq s) < Z.of_nat NPROC).
  { apply (rq_room s p); [done| |].
    - apply lookup_lt_Some in Hp. by rewrite (rqwf_nprocs _ Hwf) in Hp.
    - intros (px & Hpx & Hq)%(rqwf_mem _ Hwf). congruence. }
  mred. change (rq_count (k_rq s1)) with (rq_count (k_rq s)).
  rewrite (proj2 (Z.leb_gt _ _) Hroom). mred.
  eapply returns_obind, returns_mono; [by apply (rq_insert_loop s1 p pp)|].
  cbn beta zeta. intros i s2 (arr & -> & Hsh & Hi & Haft & Hbef).
  change (rq_count (k_rq s1)) with (rq_count (k_rq s)) in *.
  change (rq_list s1) with (rq_list s) in *. change (k_procs s1) with (k_procs s) in *.
  destruct Hsh as [Hlen Hsh]. pose proof (rqwf_cap _ Hwf) as Hcap.
  change (k_rq s1) with (k_rq s) in *.
  mred. rewrite rq_set_eq by (simpl; lia). mred. simpl k_rq. simpl rq_procs. simpl rq_count.
  rewrite (upd_proc_eq _ p pp) by done. mred. unfold rq_set_count. mred.
  rewrite (release_eq _ _ (k_held s)) by done. simpl.
  eexists. split; [by destruct s|]. simpl.
  assert (Hl : rq_list (set_k_procs (<[p := set_p_in_rq true pp]> (k_procs s))
                (set_k_rq (mkRq (<[Z.to_nat i := p]> arr) (rq_count (k_rq s) + 1)) s)) =
              edf_insert (k_procs s) p (rq_list s)).
  { rewrite <- (split_is_edf_insert s p i) by (done || by eexists).
    unfold rq_list. simpl. replace (Z.to_nat (rq_count (k_rq s) + 1)) with
      (S (Z.to_nat (rq_count (k_rq s)))) by lia.
    apply shift_insert_take with (arr := rq_procs (k_rq s)); try lia.
    { by rewrite length_insert, Hlen. }
    intros j. destruct (decide (j = Z.to_nat i)) as [->|].
    - rewrite list_lookup_insert_eq by lia. by rewrite decide_False by lia.
    - rewrite list_lookup_insert_ne by done. rewrite Hsh.
      repeat case_decide; try done; lia. }
  split; [by destruct s|].
  eapply rq_wf_insert; eauto; simpl. by rewrite length_insert, Hlen.
Qed.

(** ** Removal *)

Lemma rq_shift_spec s i :
  let n := rq_count (k_rq s) in let arr := rq_procs (k_rq s) in
  0 <= i < n -> n <= Z.of_nat (length arr) ->
  returns (rq_shift i s) (fun _ s' => exists arr',
    s' = set_k_rq (mkRq arr' n) s /\ length arr' = length arr /\
    forall j, arr' !! j =
      if decide (i <= Z.of_nat j < n - 1) then arr !! S j else arr !! j).
Proof.
  intros n arr Hi Hn. unfold rq_shift. mred. fold n.
  pose (I := fun (a : Z) (s1 : kstate) => exists arr',
    s1 = set_k_rq (mkRq arr' n) s /\ length arr' = length arr /\
    forall j, arr' !! j = if decide (i <= Z.of_nat j < a) then arr !! S j else arr !! j).
  apply (foreach_zrange I).
  - lia.
  - exists arr. split_and!; [by destruct s as [? ? ? ? ? []]|done|].
    intros j. by rewrite decide_False by lia.
  - intros a s1 Ha (arr1 & -> & Hl & H1).
    destruct (lookup_lt_is_Some_2 arr (Z.to_nat (a + 1))) as [x Hx]; [lia|].
    mred. rewrite (rq_get_eq _ _ x); [|lia|simpl; by rewrite H1, decide_False by lia].
    mred. rewrite rq_set_eq by (simpl; lia). simpl. eexists. split; [reflexivity|].
    split; [by rewrite length_insert|]. intros j.
    destruct (decide (j = Z.to_nat a)) as [->|].
    + rewrite list_lookup_insert_eq by lia. rewrite decide_True by lia.
      rewrite <- Hx. f_equal. lia.
    + rewrite list_lookup_insert_ne by done. rewrite H1. repeat case_decide; try done; lia.
Qed.

Lemma shift_delete_take (n i : nat) (arr arr' : list nat) :
  (i < n)%nat -> (n <= length arr)%nat -> length arr' = length arr ->
  (forall j, arr' !! j = if decide (Z.of_nat i <= Z.of_nat j < Z.of_nat n - 1)
                       then arr !! S j else arr !! j) ->
  take (n - 1) arr' = delete i (take n arr).
Proof.
  intros Hi Hn Hlen H. apply list_eq. intros j.
  destruct (decide (j < n - 1)%nat).
  2:{ rewrite lookup_take_ge by lia. symmetry. apply lookup_ge_None.
      rewrite length_delete; [|apply lookup_lt_is_Some_2]; rewrite length_take; lia. }
  rewrite lookup_take_lt, H by lia.
  destruct (decide (j < i)%nat).
  - rewrite list_lookup_delete_lt, lookup_take_lt by lia. by rewrite decide_False by lia.
  - rewrite list_lookup_delete_ge, lookup_take_lt by lia. by rewrite decide_True by lia.
Qed.

(** Taking [p] out of the array and clearing its flag preserves the
    invariant. *)
Lemma rq_wf_delete s s' i p pp :
  rq_wf s -> rq_list s !! i = Some p -> k_procs s !! p = Some pp ->
  k_procs s' = <[p := set_p_in_rq false pp]> (k_procs s) ->
  length (rq_procs (k_rq s')) = NPROC -> rq_count (k_rq s') = rq_count (k_rq s) - 1 ->
  rq_list s' = delete i (rq_list s) -> rq_wf s'.
Proof.
  intros Hwf Hi Hp Hps Hcap Hcnt Hl.
  assert (Hlt : (p < NPROC)%nat).
  { apply lookup_lt_Some in Hp. by rewrite (rqwf_nprocs _ Hwf) in Hp. }
  pose proof (lookup_lt_Some _ _ _ Hi). pose proof (length_rq_list _ Hwf).
  pose proof (rqwf_count _ Hwf). pose proof (rqwf_nodup _ Hwf) as Hnd.
  constructor; rewrite ?Hps, ?Hl.
  - by rewrite length_insert, (rqwf_nprocs _ Hwf).
  - done.
  - lia.
  - eapply sublist_NoDup; [exact Hnd|apply sublist_delete].
  - intros x. unfold is_queued. destruct (decide (x = p)) as [->|Hne].
    + rewrite list_lookup_insert_eq by (by rewrite (rqwf_nprocs _ Hwf)).
      split; [|naive_solver].
      intros [j Hj]%list_elem_of_lookup. exfalso.
      destruct (decide (j < i)%nat).
      * rewrite list_lookup_delete_lt in Hj by done.
        pose proof (NoDup_lookup _ _ _ _ Hnd Hi Hj). lia.
      * rewrite list_lookup_delete_ge in Hj by lia.
        pose proof (NoDup_lookup _ _ _ _ Hnd Hi Hj). lia.
    + rewrite list_lookup_insert_ne by done.
      change (x ∈ delete i (rq_list s) <-> is_queued (k_procs s) x). rewrite <- (rqwf_mem _ Hwf).
      rewrite (delete_Permutation (rq_list s) i p Hi) at 2.
      rewrite elem_of_cons. naive_solver.
  - eapply edf_sorted_sublist; [|apply sublist_delete].
    intros a b x y Hab Hx Hy. rewrite after_set_in_rq by done.
    by eapply (rqwf_sorted _ Hwf).
Qed.

Lemma rq_take_out s i p :
  let n := rq_count (k_rq s) in
  rq_wf s -> rq_list s !! i = Some p ->
  Z.of_nat i < n /\ n <= Z.of_nat (length (rq_procs (k_rq s))) /\
  rq_procs (k_rq s) !! i = Some p /\ exists pp, k_procs s !! p = Some pp /\ p_in_rq pp = true.
Proof.
  intros n Hwf Hi. pose proof (lookup_lt_Some _ _ _ Hi).
  pose proof (length_rq_list _ Hwf). pose proof (rqwf_count _ Hwf). rewrite (rqwf_cap _ Hwf).
  unfold n. split_and!; try lia.
  - rewrite rq_list_lookup by (done || lia). done.
  - apply (rqwf_mem _ Hwf). by eapply list_elem_of_lookup_2.
Qed.

(** What taking the process at position [i] out of the queue leaves. *)
Definition rq_taken (s : kstate) (i p : nat) (s' : kstate) : Prop :=
  exists arr' pp,
    k_procs s !! p = Some pp /\
    s' = set_k_procs (<[p := set_p_in_rq false pp]> (k_procs s))
           (set_k_rq (mkRq arr' (rq_count (k_rq s) - 1)) s) /\
    rq_list s' = delete i (rq_list s) /\ rq_wf s'.

Lemma rq_taken_intro s i p pp arr' :
  rq_wf s -> rq_list s !! i = Some p -> k_procs s !! p = Some pp ->
  length arr' = length (rq_procs (k_rq s)) ->
  (forall j, arr' !! j = if decide (Z.of_nat i <= Z.of_nat j < rq_count (k_rq s) - 1)
                       then rq_procs (k_rq s) !! S j else rq_procs (k_rq s) !! j) ->
  rq_taken s i p (set_k_procs (<[p := set_p_in_rq false pp]> (k_procs s))
                   (set_k_rq (mkRq arr' (rq_count (k_rq s) - 1)) s)).
Proof.
  intros Hwf Hi Hp Hlen Harr. destruct (rq_take_out s i p Hwf Hi) as (Hin & Hcap & _ & _).
  exists arr', pp. split; [done|]. split; [done|].
  assert (Hl : take (Z.to_nat (rq_count (k_rq s) - 1)) arr' = delete i (rq_list s)).
  { replace (Z.to_nat (rq_count (k_rq s) - 1)) with (Z.to_nat (rq_count (k_rq s)) - 1)%nat by lia.
    apply shift_delete_take; [lia|lia|done|]. intros j. rewrite Harr.
    rewrite Z2Nat.id by lia. done. }
  split; [exact Hl|]. eapply rq_wf_delete; eauto. simpl. by rewrite Hlen, (rqwf_cap _ Hwf).
Qed.

Lemma rq_dequeue_spec s :
  rq_wf s ->
  returns (rq_dequeue s) (fun r s' =>
    match rq_list s with
    | [] => r = None /\ s' = s
    | p :: l => r = Some p /\ rq_taken s 0 p s'
    end).
Proof.
  intros Hwf. unfold rq_dequeue. mred. pose proof (length_rq_list _ Hwf) as Hlen.
  destruct (rq_list s) as [|p l] eqn:Hl.
  { simpl in Hlen. by rewrite <- Hlen. }
  simpl in Hlen. rewrite (proj2 (Z.eqb_neq _ _)) by lia.
  assert (Hi : rq_list s !! 0%nat = Some p) by (by rewrite Hl).
  destruct (rq_take_out s 0 p Hwf Hi) as (Hn & Hcap & Harr & pp & Hp & Hin).
  mred. rewrite (rq_get_eq _ _ p) by done. mred. rewrite (upd_proc_eq _ p pp) by done. mred.
  eapply returns_obind, returns_mono; [apply rq_shift_spec; simpl; lia|].
  intros _ s1 (arr' & -> & Hl' & Hsh). unfold rq_set_count. mred. simpl. split; [done|].
  apply rq_taken_intro; [done..|]. intros j. apply Hsh.
Qed.

Lemma rq_remove_spec s p :
  rq_wf s -> LRq ∉ k_held s ->
  returns (rq_remove p s) (fun _ s' =>
    (p ∉ rq_list s /\ s' = s) \/ exists i, rq_list s !! i = Some p /\ rq_taken s i p s').
Proof.
  intros Hwf Hlk. unfold rq_remove. mred. rewrite acquire_eq by done. mred.
  set (s1 := set_k_held (LRq :: k_held s) s).
  apply returns_obind.
  apply (forl_zrange (fun i s2 => s2 = s1 /\ forall j, Z.of_nat j < i -> rq_list s !! j <> Some p)).
  - apply (rqwf_count _ Hwf).
  - split; [done|]. lia.
  - intros s2 [-> Hno]. rewrite (release_eq _ _ (k_held s)) by done. left. split.
    + intros [j Hj]%list_elem_of_lookup. apply (Hno j); [|done].
      apply lookup_lt_Some in Hj. pose proof (length_rq_list _ Hwf). simpl. lia.
    + by destruct s.
  - intros i s2 Hi [-> Hno]. change (k_rq s1) with (k_rq s) in *.
    destruct (lookup_lt_is_Some_2 (rq_list s) (Z.to_nat i)) as [x Hx].
    { pose proof (length_rq_list _ Hwf). lia. }
    destruct (rq_take_out s _ _ Hwf Hx) as (Hn & Hcap & Harr & pp & Hp & Hin).
    mred. rewrite (rq_get_eq _ _ x); [|lia|done]. mred.
    case_bool_decide as Heq; [subst x|]; mred.
    2:{ split; [done|]. intros j Hj. destruct (decide (j = Z.to_nat i)) as [->|]; [congruence|].
        apply Hno. lia. }
    eapply returns_obind, returns_mono; [apply rq_shift_spec; simpl; lia|].
    intros _ s2 (arr' & -> & Hl' & Hsh). unfold rq_set_count. mred.
    rewrite (upd_proc_eq _ p pp) by done. mred. rewrite (release_eq _ _ (k_held s)) by done.
    mred. right. exists (Z.to_nat i). split; [done|].
    assert (Ht := rq_taken_intro s (Z.to_nat i) p pp arr' Hwf Hx Hp Hl').
    rewrite Z2Nat.id in Ht by lia. specialize (Ht Hsh).
    destruct s. exact Ht.
Qed.

(** ** wakeup *)

(** What the queue looks at in a process. *)
Definition rq_key (p : proc) : bool * Z * Z := (p_in_rq p, p_deadline p, p_priority p).

Definition same_keys (ps ps' : list proc) : Prop :=
  forall i, rq_key <$> ps' !! i = rq_key <$> ps !! i.

Lemma after_same_keys ps ps' a b :
  (forall i, (fun p => (p_deadline p, p_priority p)) <$> ps' !! i =
           (fun p => (p_deadline p, p_priority p)) <$> ps !! i) ->
  after ps' a b = after ps a b.
Proof.
  intros H. pose proof (H a) as Ha. pose proof (H b) as Hb. unfold after, runs_after.
  destruct (ps' !! a), (ps !! a); simpl in Ha; try congruence;
    destruct (ps' !! b), (ps !! b); simpl in Hb; congruence.
Qed.

Lemma rq_wf_same_keys s s' :
  k_rq s' = k_rq s -> same_keys (k_procs s) (k_procs s') -> rq_wf s -> rq_wf s'.
Proof.
  intros Hq Hk [H1 H2 H3 H4 H5 H6].
  assert (Hl : rq_list s' = rq_list s) by (unfold rq_list; by rewrite Hq).
  assert (Hlk : forall i, is_Some (k_procs s' !! i) <-> is_Some (k_procs s !! i)).
  { intros i. specialize (Hk i). destruct (k_procs s' !! i), (k_procs s !! i); simpl in Hk; done. }
  constructor; rewrite ?Hl, ?Hq; try done.
  - rewrite <- H1. apply Nat.le_antisymm; apply Nat.nlt_ge; intros Hlt;
      apply lookup_lt_is_Some, Hlk, lookup_lt_is_Some in Hlt; lia.
  - intros i. rewrite H5. unfold is_queued. specialize (Hk i). unfold rq_key in Hk.
    destruct (k_procs s' !! i), (k_procs s !! i); simpl in Hk; naive_solver.
  - intros i j a b Hij Ha Hb. rewrite (after_same_keys (k_procs s)); [by eapply H6|].
    intros x. specialize (Hk x). unfold rq_key in Hk.
    destruct (k_procs s' !! x), (k_procs s !! x); simpl in *; congruence.
Qed.

(** [wakes s ch i p]: wakeup(ch) makes process [i], which is [p], runnable. *)
Definition wakes (s : kstate) (ch : chan) (i : nat) (p : proc) : bool :=
  negb (bool_decide (k_cur s = Some i)) && bool_decide (p_state p = SLEEPING) &&
  bool_decide (p_chan p = Some ch).

(** rq_insert leaves out a process already queued or not yet started. *)
Definition rq_takes (s : kstate) (p : proc) : bool :=
  negb (p_in_rq p || (s32 (k_ticks s) <? p_start_time p)).

Definition woken_proc (s : kstate) (ch : chan) (i : nat) (p : proc) : proc :=
  if wakes s ch i p then
    let p' := set_p_state RUNNABLE p in
    if rq_takes s p then set_p_in_rq true p' else p'
  else p.

(** The abstract effect of one step of wakeup on the queue. *)
Definition woken_queue (s : kstate) (ch : chan) (l : list nat) (i : nat) : list nat :=
  match k_procs s !! i with
  | Some p => if wakes s ch i p && rq_takes s p then edf_insert (k_procs s) i l else l
  | None => l
  end.

(** [woken s ch n s']: the first [n] processes have been looked at. *)
Record woken (s : kstate) (ch : chan) (n : nat) (s' : kstate) : Prop := {
  woken_frame : exists ps q, s' = set_k_procs ps (set_k_rq q s);
  woken_procs i : k_procs s' !! i =
    (if decide (i < n)%nat then woken_proc s ch i else id) <$> k_procs s !! i;
  woken_rq : rq_list s' = foldl (woken_queue s ch) (rq_list s) (seq 0 n);
  woken_wf : rq_wf s';
}.

(** Only the process table and the queue differ. *)
Ltac solve_rq_frame :=
  match goal with
  | |- exists ps q, ?x = set_k_procs ps (set_k_rq q ?s) =>
      exists (k_procs x), (k_rq x); by destruct s
  end.

Lemma woken_step_no s ch n s1 :
  woken s ch n s1 ->
  (forall p, k_procs s !! n = Some p -> wakes s ch n p = false) -> woken s ch (S n) s1.
Proof.
  intros [Hf Hp Hr Hw] Hno. constructor; [done| | |done].
  - intros i. rewrite Hp. destruct (decide (i = n)) as [->|].
    + rewrite decide_False, decide_True by lia. destruct (k_procs s !! n) eqn:E; [|done].
      simpl. unfold woken_proc. by rewrite Hno.
    + repeat case_decide; try done; lia.
  - rewrite Hr, seq_S, foldl_app. simpl. unfold woken_queue at 2.
    destruct (k_procs s !! n) eqn:E; [|done]. by rewrite Hno.
Qed.

Lemma woken_procs_step s ch n (ps ps' : list proc) p :
  (forall i, ps !! i = (if decide (i < n)%nat then woken_proc s ch i else id) <$> k_procs s !! i) ->
  k_procs s !! n = Some p -> ps' = <[n := woken_proc s ch n p]> ps ->
  forall i, ps' !! i = (if decide (i < S n)%nat then woken_proc s ch i else id) <$> k_procs s !! i.
Proof.
  intros H Hp -> i. assert (n < length ps)%nat.
  { apply lookup_lt_is_Some. rewrite H, Hp. by destruct (decide _). }
  destruct (decide (i = n)) as [->|].
  - rewrite list_lookup_insert_eq by done. by rewrite decide_True, Hp by lia.
  - rewrite list_lookup_insert_ne, H by done. repeat case_decide; try done; lia.
Qed.

Lemma edf_insert_same_keys (ps ps' : list proc) p l :
  (forall i, (fun p => (p_deadline p, p_priority p)) <$> ps' !! i =
           (fun p => (p_deadline p, p_priority p)) <$> ps !! i) ->
  edf_insert ps' p l = edf_insert ps p l.
Proof.
  intros H. unfold edf_insert.
  f_equal; [|f_equal]; apply list_filter_iff; intros x; by rewrite (after_same_keys ps ps').
Qed.

Lemma woken_keeps_order s ch n (ps : list proc) :
  (forall i, ps !! i = (if decide (i < n)%nat then woken_proc s ch i else id) <$> k_procs s !! i) ->
  forall i, (fun p => (p_deadline p, p_priority p)) <$> ps !! i =
          (fun p => (p_deadline p, p_priority p)) <$> k_procs s !! i.
Proof.
  intros H i. rewrite H, <- option_fmap_compose. apply option_fmap_ext. intros p. simpl.
  case_decide; [|done]. unfold woken_proc. by destruct (wakes s ch i p), (rq_takes s p).
Qed.

(** Waking one process. *)
Lemma woken_step_yes s ch n s1 p :
  woken s ch n s1 -> LRq ∉ k_held s -> LProc n ∉ k_held s ->
  k_procs s !! n = Some p -> wakes s ch n p = true ->
  returns ((acquire (LProc n);; upd_proc n (set_p_state RUNNABLE);; rq_insert n;;
            release (LProc n)) s1) (fun _ s2 => woken s ch (S n) s2).
Proof.
  intros [(ps & q & ->) Hps Hr Hwf] Hrq Hlp Hp Hw. simpl in Hps.
  assert (Hpn : ps !! n = Some p) by (by rewrite Hps, decide_False, Hp by lia).
  mred. rewrite acquire_eq by done. mred. rewrite (upd_proc_eq _ n p) by done. mred. simpl.
  set (s3 := set_k_procs _ _).
  assert (Hlt : (n < length ps)%nat) by (by eapply lookup_lt_Some).
  assert (Hord : forall i, (fun p => (p_deadline p, p_priority p)) <$> k_procs s3 !! i =
                         (fun p => (p_deadline p, p_priority p)) <$> k_procs s !! i).
  { intros i. rewrite <- (woken_keeps_order s ch n ps Hps i). simpl.
    destruct (decide (i = n)) as [->|].
    - by rewrite list_lookup_insert_eq, Hpn by done.
    - by rewrite list_lookup_insert_ne by done. }
  assert (Hwf3 : rq_wf s3).
  { eapply rq_wf_same_keys; [| |exact Hwf]; [done|]. intros i. simpl.
    destruct (decide (i = n)) as [->|].
    - by rewrite list_lookup_insert_eq, Hpn by done.
    - by rewrite list_lookup_insert_ne by done. }
  eapply returns_obind, returns_mono.
  { apply (rq_insert_spec s3 n (set_p_state RUNNABLE p)); [done| |].
    - simpl. set_solver.
    - simpl. by rewrite list_lookup_insert_eq. }
  cbn beta. change (k_ticks s3) with (k_ticks s).
  change (p_in_rq (set_p_state RUNNABLE p)) with (p_in_rq p).
  change (p_start_time (set_p_state RUNNABLE p)) with (p_start_time p).
  intros _ s4 Hs4. destruct (p_in_rq p || (s32 (k_ticks s) <? p_start_time p)) eqn:Ht.
  - subst s4. rewrite (release_eq _ _ (k_held s)) by done. constructor.
    + solve_rq_frame.
    + eapply woken_procs_step; [done..|]. unfold woken_proc. rewrite Hw.
      unfold rq_takes. by rewrite Ht.
    + rewrite seq_S, foldl_app. simpl. rewrite <- Hr. unfold woken_queue at 1.
      rewrite Hp, Hw. unfold rq_takes. by rewrite Ht.
    + by eapply rq_wf_ext; [| |exact Hwf3].
  - destruct Hs4 as (arr & -> & Hl4 & Hwf4).
    rewrite (release_eq _ _ (k_held s)) by done. constructor.
    + solve_rq_frame.
    + eapply woken_procs_step; [done..|]. unfold s3. simpl. rewrite list_insert_insert_eq.
      unfold woken_proc. rewrite Hw. unfold rq_takes. by rewrite Ht.
    + change (rq_list (set_k_held _ ?x)) with (rq_list x). rewrite Hl4.
      rewrite seq_S, foldl_app. simpl. rewrite <- Hr. unfold woken_queue.
      rewrite Hp, Hw. unfold rq_takes. rewrite Ht. simpl.
      rewrite (edf_insert_same_keys (k_procs s)) by done. done.
    + by eapply rq_wf_ext; [| |exact Hwf4].
Qed.

(** wakeup(ch) returns; it makes exactly the other processes asleep on [ch]
    runnable, and inserts those that have started in the queue. *)
Lemma wakeup_spec s ch :
  rq_wf s -> LRq ∉ k_held s -> (forall i, k_cur s <> Some i -> LProc i ∉ k_held s) ->
  returns (wakeup ch s) (fun _ s' => woken s ch NPROC s').
Proof.
  intros Hwf Hrq Hlp. unfold wakeup.
  apply (foreach_seq (fun n s1 => woken s ch n s1)).
  - constructor; try done.
    + solve_rq_frame.
    + intros i. rewrite decide_False by lia. by rewrite option_fmap_id.
  - intros n s1 Hn Hw. mred.
    assert (Hcur : k_cur s1 = k_cur s /\ k_held s1 = k_held s).
    { by destruct (woken_frame _ _ _ _ Hw) as (ps & q & ->). }
    destruct Hcur as [Hcur Hheld]. rewrite Hcur.
    case_bool_decide as Hc.
    { mred. apply woken_step_no; [done|]. intros p _. unfold wakes.
      by rewrite bool_decide_eq_true_2. }
    destruct (lookup_lt_is_Some_2 (k_procs s) n) as [p Hp].
    { rewrite (rqwf_nprocs _ Hwf). lia. }
    assert (Hpn : k_procs s1 !! n = Some p).
    { by rewrite (woken_procs _ _ _ _ Hw), decide_False, Hp by lia. }
    mred. destruct (wakes s ch n p) eqn:Hwk.
    + pose proof (woken_step_yes s ch n s1 p Hw Hrq (Hlp _ Hc) Hp Hwk) as H. mred in H.
      assert (Hl1 : LProc n ∉ k_held s1) by (rewrite Hheld; by apply Hlp).
      rewrite (acquire_eq _ _ Hl1) in H |- *. mred in H. mred.
      rewrite (get_proc_eq _ n p) by done. mred. unfold wakes in Hwk.
      apply andb_true_iff in Hwk as [[_ H1]%andb_true_iff H2]. rewrite H1, H2. mred.
      destruct (upd_proc _ _ _); done.
    + rewrite acquire_eq by (rewrite Hheld; by apply Hlp). mred.
      rewrite (get_proc_eq _ n p) by done. mred.
      unfold wakes in Hwk. rewrite bool_decide_eq_false_2 in Hwk by done. simpl in Hwk.
      rewrite Hwk. mred. rewrite (release_eq _ _ (k_held s1)) by (rewrite ?Hheld; auto).
      mred. rewrite set_k_held_twice, set_k_held_id by done.
      apply woken_step_no; [done|]. intros p' Hp'. unfold wakes.
      rewrite bool_decide_eq_false_2 by done. simpl. rewrite Hp in Hp'. by injection Hp' as <-.
Qed.

(** ** The scheduler *)

(** [eligible s p]: [p] may be run now. *)
Definition eligible (s : kstate) (p : proc) : bool :=
  bool_decide (p_state p = RUNNABLE) && (p_start_time p <=? s32 (k_ticks s)).

(** Only runnable processes are queued. *)
Definition queued_runnable (s : kstate) : Prop :=
  forall i p, k_procs s !! i = Some p -> p_in_rq p = true -> p_state p = RUNNABLE.

(** The effect of activate on one process. *)
Definition activated_proc (s : kstate) (p : proc) : proc :=
  if eligible s p then set_p_in_rq true p else p.

Record activated (s : kstate) (n : nat) (s' : kstate) : Prop := {
  act_frame : exists ps q, s' = set_k_procs ps (set_k_rq q s);
  act_procs i : k_procs s' !! i =
    (if decide (i < n)%nat then activated_proc s else id) <$> k_procs s !! i;
  act_wf : rq_wf s';
}.

Lemma set_p_in_rq_id p b : p_in_rq p = b -> set_p_in_rq b p = p.
Proof. intros <-. by destruct p. Qed.

Lemma activated_skip s n s1 p :
  activated s n s1 -> k_procs s !! n = Some p -> activated_proc s p = p -> activated s (S n) s1.
Proof.
  intros [Hf Hp Hw] Hn Hid. constructor; [done| |done].
  intros i. rewrite Hp. destruct (decide (i = n)) as [->|].
  - rewrite decide_False, decide_True, Hn by lia. simpl. by rewrite Hid.
  - repeat case_decide; try done; lia.
Qed.

Lemma activate_spec s :
  rq_wf s -> LRq ∉ k_held s -> (forall i, LProc i ∉ k_held s) ->
  returns (activate (s32 (k_ticks s)) s) (fun _ s' => activated s NPROC s').
Proof.
  intros Hwf Hrq Hlp. unfold activate.
  apply (foreach_seq (activated s)).
  { constructor; [solve_rq_frame| |done]. intros i. by rewrite decide_False, option_fmap_id by lia. }
  intros n s1 Hn Hact. pose proof Hact as [(ps & q & ->) Hps Hw1]. simpl in Hps.
  destruct (lookup_lt_is_Some_2 (k_procs s) n) as [p Hp].
  { rewrite (rqwf_nprocs _ Hwf). lia. }
  assert (Hpn : ps !! n = Some p) by (by rewrite Hps, decide_False, Hp by lia).
  mred. rewrite acquire_eq by (simpl; auto). mred. rewrite (get_proc_eq _ n p) by done. mred.
  assert (Hrel : forall x, set_k_held (k_held s) (set_k_held x (set_k_procs ps (set_k_rq q s))) =
                        set_k_procs ps (set_k_rq q s)) by (by destruct s).
  assert (Hel : eligible s p = bool_decide (p_state p = RUNNABLE) && (p_start_time p <=? s32 (k_ticks s)))
    by done.
  destruct (eligible s p) eqn:He.
  2:{ rewrite <- andb_assoc, (andb_comm (negb _)), andb_assoc, <- Hel. mred.
      rewrite (release_eq _ _ (k_held s)), Hrel by (done || auto).
      eapply activated_skip; [done..|]. unfold activated_proc. by rewrite He. }
  symmetry in Hel. apply andb_true_iff in Hel as [Hrun Hst]. rewrite Hrun, Hst.
  destruct (p_in_rq p) eqn:Hin; mred;
    rewrite (release_eq _ _ (k_held s)), Hrel by (done || auto); mred.
  { eapply activated_skip; [done..|]. unfold activated_proc. rewrite He. by apply set_p_in_rq_id. }
  eapply returns_mono; [by apply (rq_insert_spec _ n p)|].
  cbn beta. intros _ s4. rewrite Hin. simpl (k_ticks _).
  rewrite (proj2 (Z.ltb_ge _ _)) by (apply Z.leb_le; done). simpl orb.
  intros (arr & -> & _ & Hwf4). constructor; [solve_rq_frame| |done].
  intros i. simpl. destruct (decide (i = n)) as [->|].
  - rewrite list_lookup_insert_eq by (by eapply lookup_lt_Some).
    rewrite decide_True, Hp by lia. simpl. unfold activated_proc. by rewrite He.
  - rewrite list_lookup_insert_ne, Hps by done. repeat case_decide; try done; lia.
Qed.

(** The head of a sorted queue need not wait for any other member. *)
Lemma edf_head s p l q :
  rq_wf s -> rq_list s = p :: l -> q ∈ l -> after (k_procs s) p q = false.
Proof.
  intros Hwf Hl [j Hj]%list_elem_of_lookup.
  apply (rqwf_sorted _ Hwf 0%nat (S j)); [lia| |]; by rewrite Hl.
Qed.

(** A process the scheduler considers: queued already, or eligible. *)
Definition candidate (s : kstate) (p : proc) : bool := p_in_rq p || eligible s p.

Lemma activated_member s s1 i :
  activated s NPROC s1 -> length (k_procs s) = NPROC ->
  i ∈ rq_list s1 <-> exists p, k_procs s !! i = Some p /\ candidate s p = true.
Proof.
  intros [_ Hps Hwf] Hlen. rewrite (rqwf_mem _ Hwf). unfold is_queued. rewrite Hps.
  destruct (k_procs s !! i) as [p|] eqn:Hp; [|by split; intros (? & ? & _)].
  rewrite decide_True by (apply lookup_lt_Some in Hp; lia). simpl.
  unfold activated_proc, candidate. destruct (eligible s p) eqn:He.
  - split; intros _; [|by eexists]. exists p. by rewrite He, orb_true_r.
  - split; intros (p' & [= <-] & H); exists p; rewrite He, orb_false_r in *; done.
Qed.

Lemma activated_proc_keys s s1 i :
  activated s NPROC s1 -> length (k_procs s) = NPROC ->
  k_procs s1 !! i = activated_proc s <$> k_procs s !! i.
Proof.
  intros [_ Hps Hwf] Hlen. rewrite Hps. destruct (k_procs s !! i) eqn:Hp; [|done].
  by rewrite decide_True by (apply lookup_lt_Some in Hp; lia).
Qed.

Lemma activated_after s s1 a b :
  activated s NPROC s1 -> length (k_procs s) = NPROC ->
  after (k_procs s1) a b = after (k_procs s) a b.
Proof.
  intros Hact Hlen. apply after_same_keys. intros i.
  rewrite (activated_proc_keys s s1) by done. rewrite <- option_fmap_compose.
  apply option_fmap_ext. intros p. simpl. unfold activated_proc. by destruct (eligible s p).
Qed.

(** What one round of the scheduler does. *)
Definition edf_choice (s : kstate) (p : nat) (s' : kstate) : Prop :=
  k_cur s' = Some p /\ k_held s' = [LProc p] /\ rq_wf s' /\
  (exists pp, k_procs s !! p = Some pp /\ candidate s pp = true /\ p_state pp = RUNNABLE /\
     k_procs s' !! p = Some (set_p_state RUNNING (set_p_in_rq false pp))) /\
  (forall q pq, k_procs s !! q = Some pq -> candidate s pq = true ->
     after (k_procs s) p q = false) /\
  (forall q, q <> p -> k_procs s' !! q = activated_proc s <$> k_procs s !! q).

Lemma candidate_runnable s i p :
  queued_runnable s -> k_procs s !! i = Some p -> candidate s p = true -> p_state p = RUNNABLE.
Proof.
  intros Hqr Hp [Hin|He]%orb_true_iff; [by eapply Hqr|].
  unfold eligible in He. apply andb_true_iff in He as [He _]. by apply bool_decide_eq_true_1 in He.
Qed.

(** The first half of the round: the eligible processes are queued. *)
Lemma scheduler_activates s :
  rq_wf s -> k_held s = [] ->
  exists s1, activated s NPROC s1 /\ k_held s1 = [] /\ scheduler_iter s =
    (acquire LRq;;
     r ← rq_dequeue;
     release LRq;;
     match r with
     | Some p =>
         acquire (LProc p);;
         pp ← get_proc p;
         when (bool_decide (p_state pp = RUNNABLE))
           (upd_proc p (set_p_state RUNNING);;
            modify (set_k_cur (Some p));;
            swtch;;
            modify (set_k_cur None));;
         release (LProc p);;
         mret true
     | None => mret false
     end) s1.
Proof.
  intros Hwf Hh. unfold scheduler_iter. mred.
  rewrite acquire_eq by (rewrite Hh; set_solver). mred.
  rewrite (release_eq _ _ []) by (simpl; rewrite ?Hh; set_solver). mred.
  rewrite set_k_held_twice, (set_k_held_id _ _ Hh). simpl k_ticks.
  pose proof (activate_spec s Hwf) as Ha.
  apply returns_inv in Ha as ([] & s1 & -> & Hact); [|rewrite Hh; set_solver..].
  exists s1. split_and!; [done| |done]. pose proof Hact as [(ps & q & Hs1) _ _]. by subst s1.
Qed.

(** A member of the queue after activation was a candidate before. *)
Lemma activated_head s s1 p l pp :
  rq_wf s -> queued_runnable s -> activated s NPROC s1 -> rq_list s1 = p :: l -> k_procs s1 !! p = Some pp ->
  exists pp0, k_procs s !! p = Some pp0 /\ candidate s pp0 = true /\ p_state pp0 = RUNNABLE /\ pp = activated_proc s pp0.
Proof.
  intros Hwf Hqr Hact Hl Hpp. pose proof (rqwf_nprocs _ Hwf) as Hlen.
  assert (exists pp0, k_procs s !! p = Some pp0 /\ candidate s pp0 = true) as (pp0 & Hp0 & Hc0).
  { apply (activated_member s s1); [done..|]. rewrite Hl. by left. }
  exists pp0. split_and!; [done|done|by eapply candidate_runnable|].
  rewrite (activated_proc_keys s) in Hpp by done. rewrite Hp0 in Hpp. simpl in Hpp. congruence.
Qed.

Lemma activated_proc_state s p : p_state (activated_proc s p) = p_state p.
Proof. unfold activated_proc. by destruct (eligible s p). Qed.

(** The round chooses the head of the queue. *)
Lemma scheduler_chooses s s1 arr p l pp :
  let s' := set_k_cur (Some p) (set_k_procs (<[p := set_p_state RUNNING (set_p_in_rq false pp)]> (k_procs s1))
              (set_k_held [LProc p] (set_k_rq (mkRq arr (rq_count (k_rq s1) - 1)) s1))) in
  rq_wf s -> queued_runnable s -> activated s NPROC s1 -> rq_list s1 = p :: l -> k_procs s1 !! p = Some pp ->
  rq_wf (set_k_procs (<[p := set_p_in_rq false pp]> (k_procs s1)) (set_k_rq (mkRq arr (rq_count (k_rq s1) - 1)) s1)) ->
  edf_choice s p s'.
Proof.
  intros s' Hwf Hqr Hact Hl Hpp Hw3. pose proof (rqwf_nprocs _ Hwf) as Hlen. pose proof Hact as [_ _ Hw1].
  destruct (activated_head s s1 p l pp) as (pp0 & Hp0 & Hc0 & Hrun & Hpp0); [done..|]. assert (Hltp := lookup_lt_Some _ _ _ Hpp).
  split_and!; [done|done| | | |].
  - eapply rq_wf_same_keys; [| |exact Hw3]; [done|]. intros i. simpl.
    destruct (decide (i = p)) as [->|]; [|by rewrite !list_lookup_insert_ne by done]. by rewrite !list_lookup_insert_eq by done.
  - exists pp0. split_and!; try done. simpl. rewrite list_lookup_insert_eq by done. do 2 f_equal.
    rewrite Hpp0. unfold activated_proc. by destruct (eligible s pp0).
  - intros q0 pq Hq Hcq. rewrite <- (activated_after s s1) by done.
    assert (q0 ∈ rq_list s1) as Hin by (rewrite (activated_member s) by done; eauto).
    rewrite Hl in Hin. apply elem_of_cons in Hin as [->|Hin]; [|by eapply edf_head].
    unfold after. rewrite Hpp. apply runs_after_false. lia.
  - intros q0 Hne. simpl. rewrite !list_lookup_insert_ne by done. by rewrite (activated_proc_keys s s1) by done.
Qed.

Lemma scheduler_iter_spec s :
  rq_wf s -> queued_runnable s -> k_held s = [] ->
  match scheduler_iter s with
  | Swtch s' _ => exists p, edf_choice s p s'
  | Ret b s' => b = false /\ activated s NPROC s' /\
      forall i p, k_procs s !! i = Some p -> candidate s p = false
  | _ => False
  end.
Proof.
  intros Hwf Hqr Hh. pose proof (rqwf_nprocs _ Hwf) as Hlen.
  destruct (scheduler_activates s Hwf Hh) as (s1 & Hact & Hh1 & ->). pose proof Hact as [_ _ Hw1].
  mred. rewrite acquire_eq by (rewrite Hh1; set_solver). mred. rewrite Hh1. set (s2 := set_k_held _ s1).
  assert (Hw2 : rq_wf s2) by (by apply (rq_wf_ext s1)).
  pose proof (rq_dequeue_spec s2 Hw2) as Hd. apply returns_inv in Hd as (r & s3 & -> & Hd). mred.
  change (rq_list s2) with (rq_list s1) in Hd. destruct (rq_list s1) as [|p l] eqn:Hl.
  - destruct Hd as [-> ->]. rewrite (release_eq _ _ []) by (unfold s2; simpl; set_solver). mred.
    unfold s2. rewrite set_k_held_twice, set_k_held_id by done. split_and!; [done|done|].
    intros i p Hp. apply not_true_iff_false. intros Hc.
    assert (i ∈ rq_list s1) as Hin by (rewrite (activated_member s) by done; eauto).
    rewrite Hl in Hin. by apply not_elem_of_nil in Hin.
  - destruct Hd as (-> & arr & pp & Hpp & -> & _ & Hw3). simpl in Hpp. assert (Hltp := lookup_lt_Some _ _ _ Hpp).
    rewrite (release_eq _ _ []) by (unfold s2; simpl; set_solver). mred. rewrite acquire_eq by (simpl; set_solver). mred.
    destruct (activated_head s s1 p l pp) as (pp0 & _ & _ & Hrun & Hpp0); [done..|].
    rewrite (get_proc_eq _ p (set_p_in_rq false pp)) by (simpl; by rewrite list_lookup_insert_eq). mred.
    rewrite bool_decide_eq_true_2 by (simpl; by rewrite Hpp0, activated_proc_state). mred.
    rewrite (upd_proc_eq _ p (set_p_in_rq false pp)) by (simpl; by rewrite list_lookup_insert_eq). unfold swtch. mred.
    exists p. simpl. rewrite list_insert_insert_eq. apply (scheduler_chooses s s1 arr p l pp); try done. by eapply rq_wf_ext, Hw3.
Qed.


(** ** Summary of the queue operations *)

(** rq_insert implements sorted insertion: unless the process is queued
    already or its start time is still to come, it enters the queue behind
    every process that need not run after it; the queue stays sorted, without
    duplicates, and in step with the in_rq flags, and no other process
    changes. *)
Theorem rq_insert_refines s p pp :
  rq_wf s -> LRq ∉ k_held s -> k_procs s !! p = Some pp ->
  returns (rq_insert p s) (fun _ s' => rq_wf s' /\
    if p_in_rq pp || (s32 (k_ticks s) <? p_start_time pp) then s' = s
    else rq_list s' = edf_insert (k_procs s) p (rq_list s) /\
         k_procs s' = <[p := set_p_in_rq true pp]> (k_procs s)).
Proof.
  intros Hwf Hl Hp. eapply returns_mono; [by eapply rq_insert_spec|]. cbn beta. intros _ s' H.
  destruct (_ || _); [by subst|]. destruct H as (arr & -> & H1 & H2). done.
Qed.

(** rq_dequeue takes the head of the queue, a process that need not wait for
    any other queued one, clears its in_rq flag and keeps the rest in
    order. *)
Theorem rq_dequeue_earliest s :
  rq_wf s ->
  returns (rq_dequeue s) (fun r s' => rq_wf s' /\
    match r with
    | None => rq_list s = [] /\ s' = s
    | Some p => rq_list s = p :: rq_list s' /\
        (forall q, q ∈ rq_list s' -> after (k_procs s) p q = false) /\
        ~ is_queued (k_procs s') p
    end).
Proof.
  intros Hwf. eapply returns_mono; [by apply rq_dequeue_spec|]. cbn beta. intros r s' H.
  destruct (rq_list s) as [|p l] eqn:Hl.
  - by destruct H as [-> ->].
  - destruct H as (-> & arr & pp & Hp & -> & Hl' & Hwf'). split; [done|].
    rewrite Hl'. rewrite Hl. simpl. split_and!; [done| |].
    + intros q Hq. by eapply edf_head.
    + unfold is_queued. simpl. rewrite list_lookup_insert_eq by (by eapply lookup_lt_Some).
      intros (x & [= <-] & Hx). done.
Qed.

Lemma delete_filter_ne (l : list nat) i p :
  NoDup l -> l !! i = Some p -> delete i l = filter (.≠ p) l.
Proof.
  revert i. induction l as [|x l IH]; intros i Hnd Hi; [done|].
  apply NoDup_cons in Hnd as [Hx Hnd]. destruct i as [|i]; simpl in Hi |- *.
  - injection Hi as ->. rewrite filter_cons_False by naive_solver.
    rewrite list_filter_all; [done|]. apply Forall_forall. intros y Hy ->. done.
  - rewrite filter_cons_True; [|by intros ->; apply Hx; eapply list_elem_of_lookup_2].
    f_equal. by apply IH.
Qed.

(** rq_remove takes exactly the given process out of the queue. *)
Theorem rq_remove_refines s p :
  rq_wf s -> LRq ∉ k_held s ->
  returns (rq_remove p s) (fun _ s' => rq_wf s' /\ rq_list s' = filter (.≠ p) (rq_list s) /\
    forall q, q <> p -> k_procs s' !! q = k_procs s !! q).
Proof.
  intros Hwf Hl. eapply returns_mono; [by apply rq_remove_spec|]. cbn beta.
  intros _ s' [[Hn ->]|(i & Hi & arr & pp & Hp & -> & Hl' & Hwf')].
  - split_and!; try done. rewrite list_filter_all; [done|]. apply Forall_forall. by intros y Hy ->.
  - split_and!; try done.
    + rewrite Hl'. apply delete_filter_ne; [apply (rqwf_nodup _ Hwf)|done].
    + intros q Hq. simpl. by rewrite list_lookup_insert_ne.
Qed.

(** What wakeup does to each process. *)
Lemma wakeup_sleepers s ch :
  rq_wf s -> LRq ∉ k_held s -> (forall i, k_cur s <> Some i -> LProc i ∉ k_held s) ->
  returns (wakeup ch s) (fun _ s' => rq_wf s' /\
    s' = set_k_procs (k_procs s') (set_k_rq (k_rq s') s) /\
    forall i p, k_procs s !! i = Some p ->
      if decide (k_cur s <> Some i /\ p_state p = SLEEPING /\ p_chan p = Some ch)
      then exists p', k_procs s' !! i = Some p' /\ p_state p' = RUNNABLE /\
             (p_start_time p <= s32 (k_ticks s) -> i ∈ rq_list s')
      else k_procs s' !! i = Some p).
Proof.
  intros Hwf Hq Hl. eapply returns_mono; [by apply wakeup_spec|]. cbn beta.
  intros _ s' [(ps & q & ->) Hps Hr Hw]. split; [done|]. split; [done|]. intros i p Hp.
  pose proof (rqwf_nprocs _ Hwf) as Hlen. assert (Hlt := lookup_lt_Some _ _ _ Hp).
  pose proof (rqwf_mem _ Hw i) as Hmem. unfold is_queued in Hmem. rewrite Hps, Hp in Hmem |- *.
  destruct (decide (k_cur s <> Some i /\ p_state p = SLEEPING /\ p_chan p = Some ch)) as [Hd|Hd];
    rewrite (decide_True (P := (i < NPROC)%nat)) in Hmem |- * by lia;
    simpl in Hmem |- *; unfold woken_proc, wakes, rq_takes in *.
  - destruct Hd as (H1 & H2 & H3).
    rewrite (bool_decide_eq_false_2 _ H1), (bool_decide_eq_true_2 _ H2), (bool_decide_eq_true_2 _ H3)
      in Hmem |- *. simpl in Hmem |- *.
    destruct (p_in_rq p) eqn:Hin; simpl in *.
    { eexists. split_and!; try done. intros _. apply Hmem. by eexists. }
    destruct (Z.ltb_spec (s32 (k_ticks s)) (p_start_time p)); simpl in *.
    + eexists. split_and!; try done. lia.
    + eexists. split_and!; try done. intros _. apply Hmem. by eexists.
  - destruct (bool_decide (k_cur s = Some i)) eqn:E1, (bool_decide (p_state p = SLEEPING)) eqn:E2,
      (bool_decide (p_chan p = Some ch)) eqn:E3; simpl; try done.
    apply bool_decide_eq_false in E1. apply bool_decide_eq_true in E2, E3. exfalso. by apply Hd.
Qed.

(** wakeup(chan) makes every other process asleep on chan runnable, queueing
    it when its start time has come, and leaves every other process alone;
    apart from the process table and the queue nothing changes. *)
Theorem wakeup_wakes_sleepers s ch :
  rq_wf s -> LRq ∉ k_held s -> (forall i, k_cur s <> Some i -> LProc i ∉ k_held s) ->
  returns (wakeup ch s) (fun _ s' => rq_wf s' /\
    s' = set_k_procs (k_procs s') (set_k_rq (k_rq s') s) /\
    forall i p, k_procs s !! i = Some p ->
      if decide (k_cur s <> Some i /\ p_state p = SLEEPING /\ p_chan p = Some ch)
      then exists p', k_procs s' !! i = Some p' /\ p_state p' = RUNNABLE /\
             (p_start_time p <= s32 (k_ticks s) -> i ∈ rq_list s')
      else k_procs s' !! i = Some p).
Proof. apply wakeup_sleepers. Qed.
