(* ===== verification/EdfLive.v ===== *)
(** * Progress of the EDF queue

    The operations other processes and the scheduler perform on the ready
    queue, in any order, as one run; a process that is queued at position n is
    handed out by the dequeue number n+1, as long as the processes that enter
    the queue meanwhile need not run before it. *)

From S2P Require Import Prelude State Spinlock CString Sysargs Proc ReadyQueue.

(** One use of the queue: rq_insert of a process, or rq_dequeue. *)
Inductive qop :=
| QInsert (q : nat)
| QDequeue.

(** A run of the queue; the result is what the dequeues returned, in order. *)
Fixpoint run_ops (ops : list qop) : K (list (option nat)) :=
  match ops with
  | [] => mret []
  | QInsert q :: ops => rq_insert q;; run_ops ops
  | QDequeue :: ops => r ← rq_dequeue; rs ← run_ops ops; mret (r :: rs)
  end.

Fixpoint dequeues (ops : list qop) : nat :=
  match ops with
  | [] => 0
  | QInsert _ :: ops => dequeues ops
  | QDequeue :: ops => S (dequeues ops)
  end.

(** A process that enters the queue while [p] waits is in the table and does
    not have to run before [p]. *)
Definition yields_to (ps : list proc) (p : nat) (op : qop) : Prop :=
  match op with
  | QInsert q => is_Some (ps !! q) /\ after ps p q = false
  | QDequeue => True
  end.

(** What the runs do to the process table: only in_rq flags change. *)
Definition same_order (ps ps' : list proc) : Prop :=
  length ps' = length ps /\ forall a b, after ps' a b = after ps a b.

Lemma same_order_set_in_rq ps p pp b :
  ps !! p = Some pp -> same_order ps (<[p := set_p_in_rq b pp]> ps).
Proof. intros Hp. split; [apply length_insert|]. intros. by apply after_set_in_rq. Qed.

Lemma yields_to_same_order ps ps' p op :
  same_order ps ps' -> yields_to ps p op -> yields_to ps' p op.
Proof.
  intros [Hl Ha]. destruct op as [q|]; [|done]. simpl. rewrite Ha, !lookup_lt_is_Some, Hl. done.
Qed.

(** The part of a sorted queue up to [p] stays in place when a process that
    need not run before [p] is inserted. *)
Lemma edf_insert_behind s n p q :
  rq_wf s -> rq_list s !! n = Some p -> is_Some (k_procs s !! q) -> after (k_procs s) p q = false ->
  edf_insert (k_procs s) q (rq_list s) !! n = Some p.
Proof.
  intros Hwf Hn Hq Hpq. unfold edf_insert.
  assert (Hk : Forall (fun x => after (k_procs s) x q = false) (take (S n) (rq_list s))).
  { apply Forall_lookup. intros k x. rewrite lookup_take_Some. intros [Hx Hk].
    destruct (decide (k = n)) as [->|]; [congruence|].
    eapply (after_trans_false s x p q); eauto using list_elem_of_lookup_2.
    eapply (rqwf_sorted _ Hwf k n); [lia|done..]. }
  rewrite <- (take_drop (S n) (rq_list s)) at 1. rewrite list_filter_app, (list_filter_all _ (take _ _)) by done.
  rewrite <- app_assoc, lookup_app_l.
  - rewrite lookup_take_lt by lia. done.
  - apply lookup_lt_Some in Hn. rewrite length_take. lia.
Qed.

Lemma insert_keeps_place s n p q :
  rq_wf s -> LRq ∉ k_held s -> rq_list s !! n = Some p -> yields_to (k_procs s) p (QInsert q) ->
  returns (rq_insert q s) (fun _ s' => rq_wf s' /\ k_held s' = k_held s /\
    same_order (k_procs s) (k_procs s') /\ rq_list s' !! n = Some p).
Proof.
  intros Hwf Hl Hn [[qq Hq] Ha]. eapply returns_mono; [by eapply rq_insert_spec|]. cbn beta. intros _ s' H.
  destruct (_ || _).
  - subst s'. done.
  - destruct H as (arr & -> & Hls & Hwf'). rewrite Hls. split_and!; try done.
    + by apply same_order_set_in_rq.
    + by apply edf_insert_behind.
Qed.

Lemma dequeue_advances s p l :
  rq_wf s -> rq_list s = p :: l ->
  returns (rq_dequeue s) (fun r s' => r = Some p /\ rq_wf s' /\ k_held s' = k_held s /\
    same_order (k_procs s) (k_procs s') /\ rq_list s' = l).
Proof.
  intros Hwf Hl. eapply returns_mono; [by apply rq_dequeue_spec|]. cbn beta. rewrite Hl.
  intros r s' (-> & arr & pp & Hp & -> & Hls & Hwf'). rewrite Hls, Hl. split_and!; try done.
  by apply same_order_set_in_rq.
Qed.

(** Any run of valid operations returns. *)
Lemma run_ops_returns ops s :
  rq_wf s -> LRq ∉ k_held s ->
  Forall (fun op => match op with QInsert q => (q < NPROC)%nat | QDequeue => True end) ops ->
  returns (run_ops ops s) (fun rs _ => length rs = dequeues ops).
Proof.
  revert s. induction ops as [|op ops IH]; intros s Hwf Hl Hv; [done|].
  apply Forall_cons in Hv as [Ho Hv]. destruct op as [q|]; cbn [run_ops dequeues]; mred.
  - destruct (lookup_lt_is_Some_2 (k_procs s) q) as [qq Hq]; [by rewrite (rqwf_nprocs _ Hwf)|].
    eapply returns_obind, returns_mono; [by eapply rq_insert_spec|]. cbn beta. intros _ s' H.
    destruct (_ || _); [subst; by apply IH|]. destruct H as (arr & -> & _ & Hwf'). by apply IH.
  - eapply returns_obind, returns_mono; [by apply rq_dequeue_spec|]. cbn beta. intros r s' H. mred.
    assert (Hs : rq_wf s' /\ LRq ∉ k_held s').
    { destruct (rq_list s); [by destruct H as [_ ->]|]. by destruct H as (_ & arr & pp & _ & -> & _ & ?). }
    eapply returns_obind, returns_mono; [apply IH; tauto|]. cbn beta. intros rs s2 <-. by mred.
Qed.

(** C26. Bounded waiting: a process at position n of the ready queue is
    what the dequeue number n+1 returns, whatever else enters the queue in
    between, as long as nothing that enters must run strictly before it.
    Every call of the run returns. *)
Theorem edf_bounded_wait ops s n p :
  rq_wf s -> LRq ∉ k_held s -> rq_list s !! n = Some p ->
  Forall (yields_to (k_procs s) p) ops -> (n < dequeues ops)%nat ->
  returns (run_ops ops s) (fun rs _ => length rs = dequeues ops /\ rs !! n = Some (Some p)).
Proof.
  revert s n. induction ops as [|op ops IH]; intros s n Hwf Hl Hn Hy Hd; [simpl in Hd; lia|].
  apply Forall_cons in Hy as [Ho Hy]. destruct op as [q|]; cbn [run_ops dequeues] in *; mred.
  - eapply returns_obind, returns_mono; [by eapply insert_keeps_place|]. cbn beta.
    intros _ s' (Hwf' & Hh & Hso & Hn'). apply IH; rewrite ?Hh; try done.
    eapply Forall_impl; [exact Hy|]. intros op. by apply yields_to_same_order.
  - destruct (rq_list s) as [|h l] eqn:El; [done|].
    eapply returns_obind, returns_mono; [by eapply dequeue_advances|]. cbn beta.
    intros r s' (-> & Hwf' & Hh & Hso & Hls). mred. destruct n as [|n]; simpl in Hn.
    + injection Hn as ->. eapply returns_obind, returns_mono.
      * apply run_ops_returns; [done|by rewrite Hh|]. eapply Forall_impl; [exact Hy|].
        intros [q|]; [|done]. intros [Hq _]. apply lookup_lt_is_Some in Hq. by rewrite (rqwf_nprocs _ Hwf) in Hq.
      * cbn beta. intros rs s2 <-. by mred.
    + eapply returns_obind, returns_mono.
      * apply (IH s' n); rewrite ?Hh, ?Hls; try done; [|lia].
        eapply Forall_impl; [exact Hy|]. intros op. by apply yields_to_same_order.
      * cbn beta. intros rs s2 [<- H]. by mred.
Qed.
