(* ===== verification/Sleeplock.v ===== *)
(** * Sleep-locks (kernel/sleeplock.c)

    The sleep-lock of a buffer or of an inode, reached through the object that
    contains it. *)

From S2P Require Import Prelude State Spinlock CString Sysargs Proc.

Definition get_slk (l : slk) : K slock :=
  match l with
  | SBuf i => b ← get_buf i; mret (b_lock b)
  | SInode i => ip ← get_inode i; mret (i_lock ip)
  end.

Definition set_slk (l : slk) (x : slock) : K unit :=
  match l with
  | SBuf i => upd_buf i (set_b_lock x)
  | SInode i => upd_inode i (set_i_lock x)
  end.

Definition initsleeplock (l : slk) : K unit := set_slk l (mkSlock false 0).

(** myproc()->pid. *)
Definition mypid : K Z := p ← myproc; pp ← get_proc p; mret (p_pid pp).

Definition acquiresleep (l : slk) : K unit :=
  acquire (LSlk l);;
  sleep_while (x ← get_slk l; mret (sl_locked x)) (ChSlk l) (LSlk l);;
  pid ← mypid;
  set_slk l (mkSlock true pid);;
  release (LSlk l).

Definition releasesleep (l : slk) : K unit :=
  acquire (LSlk l);;
  set_slk l (mkSlock false 0);;
  wakeup (ChSlk l);;
  release (LSlk l).

Definition holdingsleep (l : slk) : K bool :=
  acquire (LSlk l);;
  x ← get_slk l;
  pid ← mypid;
  release (LSlk l);;
  mret (sl_locked x && (sl_pid x =? pid)).
