(* ===== verification/Sleeping.v ===== *)
(** * Sleeping and sleep-locks: specifications

    What sleep(), the while-sleep idiom and the sleep-lock operations
    guarantee.  The uncontended operations are total; a contended acquire
    gives up the CPU, and whatever the rest of the system does before it is
    resumed, it returns only with the lock free and then owned. *)

From S2P Require Import Prelude State Spinlock CString Sysargs Proc ReadyQueue Sleeplock.

(** ** The running process *)

(** Process [p], whose record is [pp], runs with the spin-locks [h] held. *)
Record running (p : nat) (pp : proc) (h : list lockid) (s : kstate) : Prop := {
  run_cur : k_cur s = Some p;
  run_proc : k_procs s !! p = Some pp;
  run_state : p_state pp = RUNNING;
  run_rq : rq_wf s;
  run_held : k_held s = h;
}.

(** What swtch() back to a process that gave up the CPU guarantees: it is the
    current process again, marked running, and holds its p->lock alone. *)
Definition resumed (s s' : kstate) : Prop :=
  exists p pp pp', k_cur s = Some p /\ k_procs s !! p = Some pp /\
    running p pp' [LProc p] s' /\ p_pid pp' = p_pid pp.

(** The state with only the process table and the queue replaced. *)
Definition sched_frame (s s' : kstate) : Prop :=
  s' = set_k_procs (k_procs s') (set_k_rq (k_rq s') s).

Lemma sched_frame_trans s s1 s2 : sched_frame s s1 -> sched_frame s1 s2 -> sched_frame s s2.
Proof. unfold sched_frame. intros E1 E2. rewrite E2, E1. done. Qed.

(** wakeup() as its callers see it: the processes and the queue may change,
    the running process does not. *)
Lemma wakeup_running s ch p pp h :
  running p pp h s -> LRq ∉ h -> (forall i, i <> p -> LProc i ∉ h) ->
  returns (wakeup ch s) (fun _ s' => sched_frame s s' /\ running p pp h s').
Proof.
  intros [Hc Hp Hst Hrq Hh] Hq Hl. subst h.
  eapply returns_mono.
  { apply wakeup_spec; [done..|]. intros i Hi. apply Hl. congruence. }
  intros _ s' [(ps & q & ->) Hps _ Hwf]. split; [done|]. constructor; try done.
  rewrite Hps, Hp. simpl. rewrite decide_True; simpl.
  - unfold woken_proc, wakes. by rewrite bool_decide_eq_true_2.
  - apply lookup_lt_Some in Hp. by rewrite (rqwf_nprocs _ Hrq) in Hp.
Qed.

(** ** sleep *)

Lemma running_set_held p pp h h' s : running p pp h s -> running p pp h' (set_k_held h' s).
Proof. intros [? ? ? ? ?]. constructor; try done. by apply (rq_wf_ext s). Qed.

Lemma running_ext p pp h s s' :
  k_cur s' = k_cur s -> k_procs s' = k_procs s -> k_rq s' = k_rq s -> k_held s' = k_held s ->
  running p pp h s -> running p pp h s'.
Proof.
  intros Hc Hp Hq Hh [? ? ? Hw ?]. constructor; try congruence. by apply (rq_wf_ext s).
Qed.

Lemma running_upd p pp pp' h s :
  running p pp h s -> rq_key pp' = rq_key pp -> p_state pp' = RUNNING ->
  running p pp' h (set_k_procs (<[p := pp']> (k_procs s)) s).
Proof.
  intros [Hc Hp Hst Hrq Hh] Hk Hr. assert (Hlt := lookup_lt_Some _ _ _ Hp).
  constructor; try done; simpl.
  - by rewrite list_lookup_insert_eq.
  - eapply rq_wf_same_keys; [| |exact Hrq]; [done|]. intros i. simpl.
    destruct (decide (i = p)) as [->|].
    + rewrite list_lookup_insert_eq, Hp by done. simpl. by rewrite Hk.
    + by rewrite list_lookup_insert_ne.
Qed.

(** sleep(ch, lk) gives up the CPU marked as sleeping on [ch], having released
    [lk]; once resumed it clears the channel and comes back with [lk] held. *)
Lemma sleep_switches s p pp ch lk :
  running p pp [lk] s -> lk <> LProc p ->
  exists s1 k, sleep ch lk s = Swtch s1 k /\
    s1 = set_k_procs (<[p := set_p_state SLEEPING (set_p_chan (Some ch) pp)]> (k_procs s)) (set_k_held [LProc p] s) /\
    forall s2 pp2, running p pp2 [LProc p] s2 ->
      k s2 = Ret tt (set_k_held [lk] (set_k_procs (<[p := set_p_chan None pp2]> (k_procs s2)) s2)).
Proof.
  intros [Hc Hp Hst Hrq Hh] Hlk. assert (Hlt := lookup_lt_Some _ _ _ Hp).
  unfold sleep, myproc. mred. rewrite Hc. mred.
  rewrite acquire_eq by (rewrite Hh; set_solver). mred.
  rewrite release_in by (simpl; rewrite Hh; set_solver). mred.
  rewrite (get_proc_eq _ p pp) by done. mred. rewrite Hst.
  rewrite bool_decide_eq_false_2 by done. mred.
  rewrite (upd_proc_eq _ p pp) by done. mred.
  rewrite (upd_proc_eq _ p (set_p_chan (Some ch) pp))
    by (simpl; by rewrite list_lookup_insert_eq). mred.
  unfold sched, myproc. mred. simpl k_cur. rewrite Hc. mred.
  rewrite (get_proc_eq _ p (set_p_state SLEEPING (set_p_chan (Some ch) pp)))
    by (simpl; by rewrite list_lookup_insert_eq by (by rewrite length_insert)).
  unfold holding. mred. simpl k_held. rewrite Hh.
  replace (filter _ [LProc p; lk]) with [LProc p].
  2:{ rewrite filter_cons_True by done. by rewrite filter_cons_False by naive_solver. }
  rewrite bool_decide_eq_true_2 by set_solver. mred. simpl.
  eexists _, _. split; [reflexivity|]. split.
  { simpl. rewrite list_insert_insert_eq, filter_cons_True, filter_cons_False by naive_solver. by destruct s. }
  intros s2 pp2 [Hc2 Hp2 Hst2 Hrq2 Hh2]. simpl.
  rewrite (upd_proc_eq _ p pp2) by done. mred.
  rewrite (release_eq _ _ []) by (simpl; rewrite ?Hh2; set_solver). mred.
  rewrite acquire_eq by (simpl; set_solver). done.
Qed.

(** [inv] is what the rest of the system maintains about the object that is
    waited for; it concerns neither the locks held nor the process table. *)
Section sleeping.
  Context (inv : kstate -> Prop).
  Hypothesis inv_held : forall h s, inv s -> inv (set_k_held h s).
  Hypothesis inv_procs : forall ps s, inv s -> inv (set_k_procs ps s).

Definition rely (s s' : kstate) : Prop := resumed s s' /\ inv s'.

(** sleep(ch, lk) gives up the CPU having released [lk], and comes back with
    [lk] held again. *)
Lemma sleep_sound s p pp ch lk :
  running p pp [lk] s -> lk <> LProc p ->
  sound rely (sleep ch lk s) (fun _ s' =>
    inv s' /\ exists pp', running p pp' [lk] s' /\ p_pid pp' = p_pid pp).
Proof using inv_held inv_procs.
  intros Hrun Hlk. assert (Hlt := lookup_lt_Some _ _ _ (run_proc _ _ _ _ Hrun)).
  destruct (sleep_switches s p pp ch lk Hrun Hlk) as (s1 & k & -> & -> & Hk). simpl.
  intros s2 [(p1 & pp1 & pp2 & Hc1 & Hp1 & Hrun2 & Hpid) Hinv]. simpl in *.
  assert (p1 = p) as -> by (pose proof (run_cur _ _ _ _ Hrun); congruence).
  rewrite list_lookup_insert_eq in Hp1 by done. injection Hp1 as <-.
  rewrite (Hk s2 pp2 Hrun2). simpl. split; [by auto|]. exists (set_p_chan None pp2). split; [|done].
  eapply running_set_held, running_upd; [done|done|apply Hrun2].
Qed.

(** while(cond) sleep(ch, lk) comes back with [cond] false and [lk] held. *)
Lemma sleep_while_sound (cond : K bool) (c : kstate -> bool) ch lk s p pp :
  (forall s, inv s -> cond s = Ret (c s) s) ->
  running p pp [lk] s -> lk <> LProc p -> inv s ->
  sound rely (sleep_while cond ch lk s) (fun _ s' =>
    c s' = false /\ inv s' /\ exists pp', running p pp' [lk] s' /\ p_pid pp' = p_pid pp).
Proof using inv_held inv_procs.
  intros Hcond Hrun Hlk. unfold sleep_while. generalize WAKEUPS. intros n.
  revert s pp Hrun. induction n as [|n IH]; intros s pp Hrun Hinv; [done|].
  simpl. rewrite Hcond by done. mred. destruct (c s) eqn:Hcs; simpl.
  2:{ split; [done|]. split; [done|]. by exists pp. }
  apply sound_obind. apply sound_obind. eapply sound_mono; [by eapply sleep_sound|].
  cbn beta. intros _ s1 (Hinv1 & pp1 & Hrun1 & Hpid1). simpl.
  eapply sound_mono; [by apply (IH s1 pp1)|]. cbn beta.
  intros _ s2 (Hc2 & Hinv2 & pp2 & Hrun2 & Hpid2). split; [done|]. split; [done|].
  exists pp2. split; [done|congruence].
Qed.

End sleeping.

(** ** Sleep-locks *)

(** The sleep-lock [l] in the state, and the state with it set to [x]. *)
Definition slk_of (l : slk) (s : kstate) : option slock :=
  match l with
  | SBuf i => b_lock <$> k_bufs s !! i
  | SInode i => i_lock <$> k_itable s !! i
  end.

Definition slk_put (l : slk) (x : slock) (s : kstate) : kstate :=
  match l with
  | SBuf i => match k_bufs s !! i with
              | Some b => set_k_bufs (<[i := set_b_lock x b]> (k_bufs s)) s
              | None => s end
  | SInode i => match k_itable s !! i with
                | Some ip => set_k_itable (<[i := set_i_lock x ip]> (k_itable s)) s
                | None => s end
  end.

Lemma get_slk_eq l s x : slk_of l s = Some x -> get_slk l s = Ret x s.
Proof.
  destruct l as [i|i]; simpl; unfold get_buf, get_inode; mred; intros H;
    [destruct (k_bufs s !! i)|destruct (k_itable s !! i)]; simpl in *; congruence.
Qed.

Lemma set_slk_eq l s x y : slk_of l s = Some x -> set_slk l y s = Ret tt (slk_put l y s).
Proof.
  destruct l as [i|i]; simpl; unfold upd_buf, upd_inode, get_buf, get_inode; mred; intros H;
    [destruct (k_bufs s !! i)|destruct (k_itable s !! i)]; done.
Qed.

Lemma slk_of_put l s x y : slk_of l s = Some x -> slk_of l (slk_put l y s) = Some y.
Proof.
  destruct l as [i|i]; simpl; intros H;
    [destruct (k_bufs s !! i) eqn:E|destruct (k_itable s !! i) eqn:E]; try done; simpl;
    rewrite list_lookup_insert_eq by (by eapply lookup_lt_Some); done.
Qed.

Lemma slk_put_held l y h s : slk_put l y (set_k_held h s) = set_k_held h (slk_put l y s).
Proof.
  destruct l as [i|i]; simpl; [destruct (k_bufs s !! i)|destruct (k_itable s !! i)]; done.
Qed.

Lemma running_slk_put l y p pp h s : running p pp h s -> running p pp h (slk_put l y s).
Proof.
  intros [Hc Hp Hst Hrq Hh]. destruct l as [i|i]; simpl;
    [destruct (k_bufs s !! i)|destruct (k_itable s !! i)];
    constructor; try done; by apply (rq_wf_ext s).
Qed.

Lemma mypid_eq p pp h s : running p pp h s -> mypid s = Ret (p_pid pp) s.
Proof.
  intros [Hc Hp _ _ _]. unfold mypid, myproc. mred. rewrite Hc. mred.
  by rewrite (get_proc_eq _ _ _ Hp).
Qed.

(** acquiresleep of a free lock takes it without giving up the CPU. *)
Lemma acquiresleep_eq l x p pp h s :
  running p pp h s -> LSlk l ∉ h -> slk_of l s = Some x -> sl_locked x = false ->
  acquiresleep l s = Ret tt (slk_put l (mkSlock true (p_pid pp)) s).
Proof.
  intros Hrun Hn Hl Hx. unfold acquiresleep. mred.
  pose proof (run_held _ _ _ _ Hrun) as Hh.
  rewrite acquire_eq by (by rewrite Hh). mred. rewrite Hh.
  set (s1 := set_k_held (LSlk l :: h) s).
  assert (Hl1 : slk_of l s1 = Some x) by (by destruct l).
  unfold sleep_while, WAKEUPS. simpl loop. mred.
  rewrite (get_slk_eq _ _ _ Hl1). mred. rewrite Hx. mred.
  rewrite (mypid_eq p pp (LSlk l :: h)) by (by eapply running_set_held). mred.
  rewrite (set_slk_eq _ _ _ _ Hl1). mred. unfold s1. rewrite slk_put_held.
  rewrite (release_eq _ _ h) by done.
  rewrite set_k_held_twice, set_k_held_id; [done|].
  apply (run_held p pp). by apply running_slk_put.
Qed.

(** holdingsleep tells whether the lock is held by the running process. *)
Lemma holdingsleep_eq l x p pp s :
  running p pp [] s -> slk_of l s = Some x ->
  holdingsleep l s = Ret (sl_locked x && (sl_pid x =? p_pid pp)) s.
Proof.
  intros Hrun Hl. unfold holdingsleep. mred. pose proof (run_held _ _ _ _ Hrun) as Hh.
  rewrite acquire_eq by (rewrite Hh; set_solver). mred. rewrite Hh.
  rewrite (get_slk_eq _ _ x) by (by destruct l). mred.
  rewrite (mypid_eq p pp [LSlk l]) by (by eapply running_set_held). mred.
  rewrite (release_eq _ _ []) by (done || set_solver). mred.
  by rewrite set_k_held_twice, set_k_held_id.
Qed.

Lemma running_not_held p pp h s : running p pp h s -> k_held s = h.
Proof. apply run_held. Qed.

(** releasesleep frees the lock and wakes its waiters. *)
Lemma releasesleep_spec l x p pp s :
  running p pp [] s -> slk_of l s = Some x ->
  returns (releasesleep l s) (fun _ s' =>
    sched_frame (slk_put l (mkSlock false 0) s) s' /\ running p pp [] s').
Proof.
  intros Hrun Hl. unfold releasesleep. mred. pose proof (run_held _ _ _ _ Hrun) as Hh.
  rewrite acquire_eq by (rewrite Hh; set_solver). mred. rewrite Hh.
  rewrite (set_slk_eq _ _ x) by (by destruct l). mred. rewrite slk_put_held.
  apply returns_obind. eapply returns_mono.
  { apply (wakeup_running _ _ p pp [LSlk l]); [|set_solver..].
    by eapply running_set_held, running_slk_put. }
  cbn beta. intros _ s1 [Hf Hrun1]. pose proof (run_held _ _ _ _ Hrun1) as Hh1.
  rewrite (release_eq _ _ []) by (done || set_solver). split.
  - unfold sched_frame in *. rewrite Hf. simpl.
    pose proof (run_held _ _ _ _ (running_slk_put l (mkSlock false 0) _ _ _ _ Hrun)) as Hh2.
    destruct (slk_put l _ s). simpl in *. by subst.
  - by eapply running_set_held.
Qed.

Lemma acquire_slk p pp l s :
  running p pp [] s ->
  acquire (LSlk l) s = Ret tt (set_k_held [LSlk l] s) /\
  running p pp [LSlk l] (set_k_held [LSlk l] s).
Proof.
  intros Hrun. pose proof (run_held _ _ _ _ Hrun) as Hh. split.
  - rewrite acquire_eq by (rewrite Hh; set_solver). by rewrite Hh.
  - by eapply running_set_held.
Qed.

(** The wait loop of acquiresleep, under any assumption [inv] on the lock that
    the rest of the system maintains. *)
Lemma acquiresleep_wait (inv : kstate -> Prop) l p pp s :
  (forall h s, inv s -> inv (set_k_held h s)) -> (forall ps s, inv s -> inv (set_k_procs ps s)) ->
  (forall s, inv s -> is_Some (slk_of l s)) ->
  running p pp [LSlk l] s -> inv s ->
  sound (rely inv) (sleep_while (x ← get_slk l; mret (sl_locked x)) (ChSlk l) (LSlk l) s)
    (fun _ s' => inv s' /\ (exists x, slk_of l s' = Some x /\ sl_locked x = false) /\
       exists pp', running p pp' [LSlk l] s' /\ p_pid pp' = p_pid pp).
Proof.
  intros Hih Hip His Hrun Hinv.
  set (c := fun s => default false (sl_locked <$> slk_of l s)).
  eapply sound_mono.
  { apply (sleep_while_sound inv Hih Hip) with (c := c) (p := p) (pp := pp); [|done..].
    intros s1 [x Hx]%His. mred. rewrite (get_slk_eq _ _ _ Hx). unfold c. by rewrite Hx. }
  cbn beta. intros _ s1 (Hc & Hinv1 & Hrun1). split; [done|]. split; [|done].
  destruct (His _ Hinv1) as [x Hx]. exists x. split; [done|]. unfold c in Hc. by rewrite Hx in Hc.
Qed.

(** C37. acquiresleep returns only as the owner of the lock, and never while
    another process keeps it, whatever runs while the caller sleeps. *)
Theorem acquiresleep_excludes l p pp s :
  running p pp [] s -> is_Some (slk_of l s) ->
  sound (rely (fun s' => is_Some (slk_of l s'))) (acquiresleep l s) (fun _ s' =>
    slk_of l s' = Some (mkSlock true (p_pid pp)) /\ exists pp', running p pp' [] s') /\
  forall owner, slk_of l s = Some (mkSlock true owner) ->
    sound (rely (fun s' => slk_of l s' = Some (mkSlock true owner))) (acquiresleep l s)
      (fun _ _ => False).
Proof.
  intros Hrun Hl. unfold acquiresleep. mred.
  destruct (acquire_slk _ _ l _ Hrun) as [-> Hrun1]. mred. split.
  - apply sound_obind. eapply sound_mono.
    { by apply (acquiresleep_wait _ l p pp); [by destruct l..|]. }
    cbn beta. intros _ s1 (_ & (x & Hx & _) & pp1 & Hrun2 & Hpid). mred.
    rewrite (mypid_eq _ _ _ _ Hrun2). mred. rewrite (set_slk_eq _ _ _ _ Hx). mred.
    eapply (running_slk_put l (mkSlock true (p_pid pp1))) in Hrun2.
    rewrite (release_eq _ _ []) by (by rewrite ?(run_held _ _ _ _ Hrun2); set_solver). split.
    + rewrite <- Hpid. rewrite <- slk_put_held. eapply (slk_of_put _ _ x). by destruct l.
    + exists pp1. by eapply running_set_held.
  - intros owner Ho. apply sound_obind. eapply sound_mono.
    { apply (acquiresleep_wait (fun s' => slk_of l s' = Some (mkSlock true owner)) l p pp);
        [by destruct l..| |done|by destruct l]. intros s1 H1. by eexists. }
    cbn beta. intros _ s1 (Hx & (y & Hy & Hfree) & _). rewrite Hx in Hy. by injection Hy as <-.
Qed.
