(* ===== verification/Mutex.v ===== *)
(** * User mutexes: specifications

    The table of user-visible mutexes: creation hands out the lowest unused
    one, locking excludes, unlocking frees and wakes. *)

From S2P Require Import Prelude State Spinlock CString Sysargs Proc ReadyQueue Sleeplock Sleeping.

(** The first argument of the system call, as the kernel reads it. *)
Definition arg0 (pp : proc) (s : kstate) : Z := s32 (load64 (k_mem s) (p_trapframe pp + TF_A0)).

Lemma argint0_eq p pp h s : running p pp h s -> argint 0 s = Ret (arg0 pp s) s.
Proof.
  intros [Hc Hp _ _ _]. unfold argint, argraw. simpl. unfold tf_load, myproc. mred. rewrite Hc. mred.
  rewrite (get_proc_eq _ _ _ Hp). mred. unfold arg0. by rewrite Z.add_0_r.
Qed.

Lemma get_mutex_eq s i mx : k_mutexes s !! i = Some mx -> get_mutex i s = Ret mx s.
Proof. intros H. unfold get_mutex. mred. by rewrite H. Qed.

(** The mutex table with the mutex [i] set to [x]. *)
Definition put_mutex (i : nat) (x : mutex) (s : kstate) : kstate := set_k_mutexes (<[i := x]> (k_mutexes s)) s.

Lemma upd_mutex_eq s i mx f : k_mutexes s !! i = Some mx -> upd_mutex i f s = Ret tt (put_mutex i (f mx) s).
Proof. intros H. unfold upd_mutex. mred. by rewrite (get_mutex_eq _ _ _ H). Qed.

Lemma put_mutex_lookup s i x y : k_mutexes s !! i = Some x -> k_mutexes (put_mutex i y s) !! i = Some y.
Proof. intros H. simpl. by rewrite list_lookup_insert_eq by (by eapply lookup_lt_Some). Qed.

Lemma put_mutex_twice i x y s : put_mutex i x (put_mutex i y s) = put_mutex i x s.
Proof. unfold put_mutex. simpl. rewrite list_insert_insert_eq. by destruct s. Qed.

Lemma running_put_mutex i x p pp h s : running p pp h s -> running p pp h (put_mutex i x s).
Proof. by apply running_ext. Qed.

Lemma running_acquire p pp lk s : running p pp [] s ->
  acquire lk s = Ret tt (set_k_held [lk] s) /\ running p pp [lk] (set_k_held [lk] s).
Proof.
  intros Hrun. pose proof (run_held _ _ _ _ Hrun) as Hh. split; [|by eapply running_set_held].
  rewrite acquire_eq by (rewrite Hh; set_solver). by rewrite Hh.
Qed.

Lemma running_release p pp lk s : running p pp [lk] s ->
  release lk s = Ret tt (set_k_held [] s) /\ running p pp [] (set_k_held [] s).
Proof.
  intros Hrun. pose proof (run_held _ _ _ _ Hrun) as Hh. split; [|by eapply running_set_held].
  by rewrite (release_eq _ _ []) by (done || set_solver).
Qed.

(** The id of a mutex in use. *)
Definition mutex_id (s : kstate) (id : Z) (mx : mutex) : Prop :=
  0 <= id < Z.of_nat NMUTEX /\ k_mutexes s !! Z.to_nat id = Some mx /\ mtx_used mx = true.

Lemma mutex_id_range s id mx : mutex_id s id mx -> (id <? 0) || (Z.of_nat NMUTEX <=? id) = false.
Proof. intros [H _]. rewrite (proj2 (Z.ltb_ge _ _)), (proj2 (Z.leb_gt _ _)) by lia. done. Qed.

(** ** sys_mtx_lock *)

Section lock.
  Context (p : nat) (pp : proc) (s : kstate) (mx : mutex).
  Context (Hrun : running p pp [] s) (Hid : mutex_id s (arg0 pp s) mx).
  Notation i := (Z.to_nat (arg0 pp s)).

(** Up to the wait for the mutex. *)
Lemma mtx_lock_enter :
  sys_mtx_lock s =
    (sleep_while (mx ← get_mutex i; mret (mtx_locked mx)) (ChMutex i) (LMutex i);;
     upd_mutex i (set_mtx_locked true);;
     me ← gets k_cur;
     upd_mutex i (set_mtx_owner me);;
     release (LMutex i);;
     mret 0) (set_k_held [LMutex i] s).
Proof using Hrun Hid.
  destruct Hid as (_ & Hm & Hu). unfold sys_mtx_lock. mred. rewrite (argint0_eq _ _ _ _ Hrun). mred.
  rewrite (mutex_id_range _ _ _ Hid). mred. destruct (running_acquire _ _ LMutexTable _ Hrun) as [-> Hrun1]. mred.
  rewrite (get_mutex_eq _ _ mx) by done. mred. rewrite Hu. mred.
  destruct (running_release _ _ _ _ Hrun1) as [-> Hrun2]. mred. destruct (running_acquire _ _ (LMutex i) _ Hrun2) as [-> _]. mred. done.
Qed.

(** Taking the mutex once the wait is over. *)
Lemma mtx_lock_take s1 pp1 x :
  running p pp1 [LMutex i] s1 -> k_mutexes s1 !! i = Some x ->
  (upd_mutex i (set_mtx_locked true);;
   me ← gets k_cur;
   upd_mutex i (set_mtx_owner me);;
   release (LMutex i);;
   mret 0) s1 = Ret 0 (set_k_held [] (put_mutex i (set_mtx_owner (Some p) (set_mtx_locked true x)) s1)).
Proof.
  intros Hrun1 Hx. mred. rewrite (upd_mutex_eq _ _ x) by done. mred.
  rewrite (upd_mutex_eq _ _ (set_mtx_locked true x)) by (by eapply put_mutex_lookup). mred.
  change (k_cur (put_mutex _ _ s1)) with (k_cur s1). rewrite (run_cur _ _ _ _ Hrun1).
  rewrite put_mutex_twice. eapply (running_put_mutex i (set_mtx_owner (Some p) (set_mtx_locked true x))) in Hrun1.
  destruct (running_release _ _ _ _ Hrun1) as [-> _]. done.
Qed.

Lemma mtx_wait (inv : kstate -> Prop) :
  (forall h s, inv s -> inv (set_k_held h s)) -> (forall ps s, inv s -> inv (set_k_procs ps s)) ->
  (forall s, inv s -> is_Some (k_mutexes s !! i)) -> inv s ->
  sound (rely inv) (sleep_while (mx ← get_mutex i; mret (mtx_locked mx)) (ChMutex i) (LMutex i) (set_k_held [LMutex i] s))
    (fun _ s' => inv s' /\ (exists x, k_mutexes s' !! i = Some x /\ mtx_locked x = false) /\ exists pp', running p pp' [LMutex i] s').
Proof using Hrun.
  intros Hih Hip His Hinv. set (c := fun s => default false (mtx_locked <$> k_mutexes s !! i)).
  eapply sound_mono.
  { apply (sleep_while_sound inv Hih Hip) with (c := c) (p := p) (pp := pp); [|by eapply running_set_held|done|by apply Hih].
    intros s1 [x Hx]%His. mred. rewrite (get_mutex_eq _ _ _ Hx). unfold c. by rewrite Hx. }
  cbn beta. intros _ s1 (Hc & Hinv1 & pp1 & Hrun1 & _). split; [done|]. split; [|by exists pp1].
  destruct (His _ Hinv1) as [x Hx]. exists x. split; [done|]. unfold c in Hc. by rewrite Hx in Hc.
Qed.
End lock.

(** C16. sys_mtx_lock.  An id that is out of range or not in use gives -1 and
    changes nothing.  A free mutex is taken at once.  In every case the call
    returns only with the mutex locked and owned by the caller, and it does not
    return while another process keeps the mutex, whatever runs while the
    caller sleeps. *)
Theorem mtx_lock_excludes p pp s :
  running p pp [] s -> length (k_mutexes s) = NMUTEX ->
  let id := arg0 pp s in
  let i := Z.to_nat id in
  ((forall mx, ~ mutex_id s id mx) -> sys_mtx_lock s = Ret (-1) s) /\
  forall mx, mutex_id s id mx ->
    (mtx_locked mx = false -> sys_mtx_lock s = Ret 0 (put_mutex i (set_mtx_owner (Some p) (set_mtx_locked true mx)) s)) /\
    sound (rely (fun s' => is_Some (k_mutexes s' !! i))) (sys_mtx_lock s) (fun r s' => r = 0 /\
      (exists x, k_mutexes s' !! i = Some x /\ mtx_locked x = true /\ mtx_owner x = Some p) /\ exists pp', running p pp' [] s') /\
    (mtx_locked mx = true ->
      sound (rely (fun s' => exists x, k_mutexes s' !! i = Some x /\ mtx_locked x = true)) (sys_mtx_lock s) (fun _ _ => False)).
Proof.
  intros Hrun Hlen id i. split.
  - intros Hno. unfold sys_mtx_lock. mred. rewrite (argint0_eq _ _ _ _ Hrun). mred. fold id i.
    destruct (Z.ltb_spec id 0); [done|]. destruct (Z.leb_spec (Z.of_nat NMUTEX) id); [done|]. simpl. mred.
    destruct (lookup_lt_is_Some_2 (k_mutexes s) i ltac:(lia)) as [mx Hmx].
    destruct (running_acquire _ _ LMutexTable _ Hrun) as [-> Hrun1]. mred. rewrite (get_mutex_eq _ _ mx) by done. mred.
    destruct (mtx_used mx) eqn:Hu; [destruct (Hno mx); by split_and!|]. mred.
    destruct (running_release _ _ _ _ Hrun1) as [-> _]. rewrite set_k_held_twice, set_k_held_id by apply Hrun. done.
  - intros mx Hid. rewrite (mtx_lock_enter p pp s mx Hrun Hid). fold id i. pose proof Hid as (_ & Hm & _). fold i in Hm. split_and!.
    + intros Hfree. unfold sleep_while, WAKEUPS. simpl loop. mred. rewrite (get_mutex_eq _ _ mx) by done. mred. rewrite Hfree. mred.
      pose proof (mtx_lock_take p pp s (set_k_held [LMutex i] s) pp mx) as Ht. fold id i in Ht. mred in Ht.
      rewrite Ht by (done || by eapply running_set_held). f_equal. unfold put_mutex. pose proof (run_held _ _ _ _ Hrun). destruct s. simpl in *. by subst.
    + apply sound_obind. eapply sound_mono; [by apply (mtx_wait p pp s Hrun)|].
      cbn beta. intros _ s1 (_ & (x & Hx & _) & pp1 & Hrun1). fold id i in Hx, Hrun1.
      pose proof (mtx_lock_take p pp s s1 pp1 x Hrun1 Hx) as Ht. fold id i in Ht. rewrite Ht. simpl. split_and!; [done| |].
      * exists (set_mtx_owner (Some p) (set_mtx_locked true x)). by split; [eapply put_mutex_lookup|].
      * exists pp1. eapply running_set_held, running_put_mutex, Hrun1.
    + intros Hlk. apply sound_obind. eapply sound_mono; [apply (mtx_wait p pp s Hrun); [done|done| |by exists mx]|].
      { intros s1 (x & Hx & _). by exists x. }
      cbn beta. intros _ s1 ((x & Hx & Hl) & (y & Hy & Hf) & _). fold id i in Hx, Hy. congruence.
Qed.

(** ** sys_mtx_unlock and sys_mtx_create *)

(** C40. sys_mtx_unlock.  A mutex that is in use and locked becomes free, whoever
    holds it, and exactly the processes waiting for it become runnable; otherwise the call
    returns -1 and changes nothing. *)
Theorem mtx_unlock_frees p pp s :
  running p pp [] s -> length (k_mutexes s) = NMUTEX ->
  let id := arg0 pp s in
  let i := Z.to_nat id in
  ((forall mx, mutex_id s id mx -> mtx_locked mx = false) -> sys_mtx_unlock s = Ret (-1) s) /\
  forall mx, mutex_id s id mx -> mtx_locked mx = true ->
    returns (sys_mtx_unlock s) (fun r s' => r = 0 /\ running p pp [] s' /\
      k_mutexes s' = <[i := mkMutex false true None]> (k_mutexes s) /\
      s' = set_k_procs (k_procs s') (set_k_rq (k_rq s') (set_k_mutexes (k_mutexes s') s)) /\
      forall j q, k_procs s !! j = Some q -> j <> p ->
        if decide (p_state q = SLEEPING /\ p_chan q = Some (ChMutex i))
        then exists q', k_procs s' !! j = Some q' /\ p_state q' = RUNNABLE
        else k_procs s' !! j = Some q).
Proof.
  intros Hrun Hlen id i. unfold sys_mtx_unlock. mred. rewrite (argint0_eq _ _ _ _ Hrun). mred. fold id i.
  destruct (running_acquire _ _ (LMutex i) _ Hrun) as [Hacq Hrun1]. split.
  - intros Hno. destruct (Z.ltb_spec id 0); [done|]. destruct (Z.leb_spec (Z.of_nat NMUTEX) id); [done|]. simpl. mred.
    rewrite Hacq. mred. destruct (lookup_lt_is_Some_2 (k_mutexes s) i ltac:(lia)) as [mx Hmx]. rewrite (get_mutex_eq _ _ mx) by done. mred.
    destruct (negb (mtx_used mx) || negb (mtx_locked mx)) eqn:Hb.
    + mred. destruct (running_release _ _ _ _ Hrun1) as [-> _]. rewrite set_k_held_twice, set_k_held_id by apply Hrun. done.
    + apply orb_false_iff in Hb as [Hu%negb_false_iff Hl%negb_false_iff]. specialize (Hno mx ltac:(by split_and!)). congruence.
  - intros mx Hid Hlk. pose proof Hid as (_ & Hm & Hu). fold i in Hm. rewrite (mutex_id_range _ _ _ Hid). mred. rewrite Hacq. mred.
    rewrite (get_mutex_eq _ _ mx) by done. mred. rewrite Hu, Hlk. mred.
    rewrite (upd_mutex_eq _ _ mx) by done. mred.
    rewrite (upd_mutex_eq _ _ (set_mtx_locked false mx)) by (by eapply put_mutex_lookup). mred.
    rewrite put_mutex_twice. set (x := set_mtx_owner None _). set (s1 := put_mutex i x _).
    assert (Hr1 : running p pp [LMutex i] s1) by (by apply running_put_mutex).
    eapply returns_obind, returns_mono.
    { apply returns_and; [apply (wakeup_running s1 (ChMutex i) p pp [LMutex i] Hr1); set_solver|].
      apply wakeup_sleepers; rewrite ?(run_held _ _ _ _ Hr1); [apply Hr1|set_solver|set_solver]. }
    cbn beta. intros _ s2 [[F Hr2] (_ & _ & Hps)]. mred. destruct (running_release _ _ _ _ Hr2) as [-> Hr3]. simpl. unfold sched_frame in F.
    assert (Hms : k_mutexes s2 = <[i := x]> (k_mutexes s)) by (by rewrite F).
    split_and!; [done|done|rewrite Hms; unfold x; by rewrite <- Hu| |].
    + rewrite Hms, F. pose proof (run_held _ _ _ _ Hrun). destruct s. simpl in *. by subst.
    + intros j q Hj Hne. specialize (Hps j q Hj). change (k_cur s1) with (k_cur s) in Hps. rewrite (run_cur _ _ _ _ Hrun) in Hps.
      destruct (decide (p_state q = SLEEPING /\ p_chan q = Some (ChMutex i))).
      * rewrite decide_True in Hps by (split; [congruence|done]). destruct Hps as (q' & H1 & H2 & _). eauto.
      * rewrite decide_False in Hps by naive_solver. done.
Qed.

(** sys_mtx_create hands out the lowest unused mutex, locked and owned by the
    caller if asked, and returns -1, changing nothing, when all are in use. *)
Theorem mtx_create_lowest p pp s :
  running p pp [] s -> length (k_mutexes s) = NMUTEX ->
  let lk := negb (arg0 pp s =? 0) in
  match List.find (fun i => match k_mutexes s !! i with Some mx => negb (mtx_used mx) | None => false end) (seq 0 NMUTEX) with
  | Some i => sys_mtx_create s = Ret (Z.of_nat i) (put_mutex i (mkMutex lk true (if lk then Some p else None)) s)
  | None => sys_mtx_create s = Ret (-1) s
  end.
Proof.
  intros Hrun Hlen lk. unfold sys_mtx_create. mred. rewrite (argint0_eq _ _ _ _ Hrun). mred.
  destruct (running_acquire _ _ LMutexTable _ Hrun) as [-> Hrun1]. mred. change (k_cur (set_k_held _ s)) with (k_cur s). rewrite (run_cur _ _ _ _ Hrun).
  set (test := fun i => match k_mutexes s !! i with Some mx => negb (mtx_used mx) | None => false end).
  set (body := fun i : nat => _). set (s1 := set_k_held [LMutexTable] s) in *.
  assert (Hlook : forall i, i ∈ seq 0 NMUTEX -> exists mx, k_mutexes s1 !! i = Some mx /\ test i = negb (mtx_used mx)).
  { intros i Hi%elem_of_seq. destruct (lookup_lt_is_Some_2 (k_mutexes s) i ltac:(lia)) as [mx E]. exists mx. unfold test. by rewrite E. }
  assert (Hskip : forall i, i ∈ seq 0 NMUTEX -> test i = false -> body i s1 = Ret None s1).
  { intros i Hi Ht. destruct (Hlook i Hi) as (mx & E & Et). unfold body. mred. rewrite (get_mutex_eq _ _ _ E). mred. rewrite <- Et, Ht. done. }
  destruct (List.find test (seq 0 NMUTEX)) as [i|] eqn:Hf.
  - pose proof (find_some _ _ Hf) as [Hin%list_elem_of_In Ht]. destruct (Hlook i Hin) as (mx & E & Et).
    erewrite (forl_scan_eq test body _ s1 i (Ret (Some (Z.of_nat i)) (put_mutex i (mkMutex lk true (if lk then Some p else None)) s))).
    + done.
    + done.
    + done.
    + unfold body. mred. rewrite (get_mutex_eq _ _ _ E). mred. rewrite <- Et, Ht. mred. rewrite (upd_mutex_eq _ _ mx) by done. mred. rewrite (upd_mutex_eq _ _ (set_mtx_used true mx)) by (by eapply put_mutex_lookup). mred. rewrite put_mutex_twice.
      erewrite (upd_mutex_eq _ _ (set_mtx_locked lk (set_mtx_used true mx))) by (by eapply put_mutex_lookup). mred.
      rewrite put_mutex_twice. eapply (running_put_mutex i (set_mtx_owner (if arg0 pp s =? 0 then None else Some p) (set_mtx_locked lk (set_mtx_used true mx)))) in Hrun1.
      destruct (running_release _ _ _ _ Hrun1) as [-> _]. f_equal. unfold put_mutex, lk. pose proof (run_held _ _ _ _ Hrun).
      destruct s, (arg0 pp _ =? 0); simpl in *; by subst.
    + done.
  - rewrite (forl_none body) by (intros i Hi; apply Hskip; [done|]; by eapply find_none; [exact Hf|apply list_elem_of_In]).
    mred. destruct (running_release _ _ _ _ Hrun1) as [-> _]. unfold s1. rewrite set_k_held_twice, set_k_held_id by apply Hrun. done.
Qed.
