(* ===== verification/Bio.v ===== *)
(** * Buffer cache (kernel/bio.c)

    [k_bufs] is the array bcache.buf; [k_lru] is the circular list threaded
    through head.next .. head.prev, most recently used first.  The transfer
    virtio_disk_rw does between a buffer and the disk is one atomic block
    copy; every block written is also appended to [k_dtrace], so that the disk
    after a crash is the disk after a prefix of the trace. *)

From S2P Require Import Prelude State Spinlock CString Sysargs Proc Sleeplock.

(** A block that was never written reads as zeroes. *)
Definition zero_block : list Z := replicate (Z.to_nat BSIZE) 0.
Definition disk_read (d : gmap Z (list Z)) (b : Z) : list Z := default zero_block (d !! b).

Definition virtio_disk_rw (i : nat) (write : bool) : K unit :=
  b ← get_buf i;
  if write then
    modify (fun s => set_k_disk (<[b_blockno b := b_data b]> (k_disk s)) s);;
    modify (fun s => set_k_dtrace (k_dtrace s ++ [(b_blockno b, b_data b)]) s)
  else
    d ← gets k_disk;
    upd_buf i (set_b_data (disk_read d (b_blockno b))).

(** Each buffer is pushed at the front of the list as the loop visits it. *)
Definition binit : K unit :=
  modify (set_k_lru []);;
  foreach (seq 0 NBUF) (fun i =>
    modify (fun s => set_k_lru (i :: k_lru s) s);;
    initsleeplock (SBuf i)).

Definition bget (dev blockno : Z) : K nat :=
  acquire LBcache;;
  lru ← gets k_lru;
  r ← forl lru (fun i =>
    b ← get_buf i;
    if (b_dev b =? dev) && (b_blockno b =? blockno) then
      upd_buf i (fun b => set_b_refcnt (u32 (b_refcnt b + 1)) b);;
      release LBcache;;
      acquiresleep (SBuf i);;
      mret (Some i)
    else mret None);
  match r with
  | Some i => mret i
  | None =>
      r ← forl (rev lru) (fun i =>
        b ← get_buf i;
        if b_refcnt b =? 0 then
          upd_buf i (set_b_dev dev);;
          upd_buf i (set_b_blockno blockno);;
          upd_buf i (set_b_valid false);;
          upd_buf i (set_b_refcnt 1);;
          release LBcache;;
          acquiresleep (SBuf i);;
          mret (Some i)
        else mret None);
      match r with
      | Some i => mret i
      | None => panic "bget: no buffers"
      end
  end.

Definition bread (dev blockno : Z) : K nat :=
  i ← bget dev blockno;
  b ← get_buf i;
  (if negb (b_valid b) then virtio_disk_rw i false;; upd_buf i (set_b_valid true)
   else mret tt);;
  mret i.

Definition bwrite (i : nat) : K unit :=
  h ← holdingsleep (SBuf i);
  if negb h then panic "bwrite" else virtio_disk_rw i true.

(** Unlink [i] and push it at the front, as the pointer updates of brelse. *)
Definition move_to_front (i : nat) (l : list nat) : list nat := i :: filter (.≠ i) l.

Definition brelse (i : nat) : K unit :=
  h ← holdingsleep (SBuf i);
  if negb h then panic "brelse" else
  releasesleep (SBuf i);;
  acquire LBcache;;
  upd_buf i (fun b => set_b_refcnt (u32 (b_refcnt b - 1)) b);;
  b ← get_buf i;
  when (b_refcnt b =? 0) (modify (fun s => set_k_lru (move_to_front i (k_lru s)) s));;
  release LBcache.

Definition bpin (i : nat) : K unit :=
  acquire LBcache;;
  upd_buf i (fun b => set_b_refcnt (u32 (b_refcnt b + 1)) b);;
  release LBcache.

Definition bunpin (i : nat) : K unit :=
  acquire LBcache;;
  upd_buf i (fun b => set_b_refcnt (u32 (b_refcnt b - 1)) b);;
  release LBcache.

(** Access to bp->data by the users of a locked buffer. *)
Definition bdata (i : nat) : K (list Z) := b ← get_buf i; mret (b_data b).
Definition set_bdata (i : nat) (d : list Z) : K unit := upd_buf i (set_b_data d).
