(* ===== verification/Virtio.v ===== *)
(** * The virtio disk driver (kernel/virtio_disk.c, kernel/virtio.h)

    The driver's own state (struct disk, with the three pages it shares with
    the device as records) beside the kernel state.  The addresses the driver
    stores in descriptors are symbolic: the command header of a descriptor,
    the data of a buffer, the status byte of a request.  What the device's
    registers read is the argument [R]; the device itself runs when the driver
    gives up the CPU. *)

From S2P Require Import Prelude State Spinlock CString Kalloc Proc Sleeplock Bio.

(** ** virtio.h *)
Definition VIRTIO_MMIO_MAGIC_VALUE : Z := 0x000.
Definition VIRTIO_MMIO_VERSION : Z := 0x004.
Definition VIRTIO_MMIO_DEVICE_ID : Z := 0x008.
Definition VIRTIO_MMIO_VENDOR_ID : Z := 0x00c.
Definition VIRTIO_MMIO_DEVICE_FEATURES : Z := 0x010.
Definition VIRTIO_MMIO_DRIVER_FEATURES : Z := 0x020.
Definition VIRTIO_MMIO_QUEUE_SEL : Z := 0x030.
Definition VIRTIO_MMIO_QUEUE_NUM_MAX : Z := 0x034.
Definition VIRTIO_MMIO_QUEUE_NUM : Z := 0x038.
Definition VIRTIO_MMIO_QUEUE_READY : Z := 0x044.
Definition VIRTIO_MMIO_QUEUE_NOTIFY : Z := 0x050.
Definition VIRTIO_MMIO_INTERRUPT_STATUS : Z := 0x060.
Definition VIRTIO_MMIO_INTERRUPT_ACK : Z := 0x064.
Definition VIRTIO_MMIO_STATUS : Z := 0x070.
Definition VIRTIO_MMIO_QUEUE_DESC_LOW : Z := 0x080.
Definition VIRTIO_MMIO_QUEUE_DESC_HIGH : Z := 0x084.
Definition VIRTIO_MMIO_DRIVER_DESC_LOW : Z := 0x090.
Definition VIRTIO_MMIO_DRIVER_DESC_HIGH : Z := 0x094.
Definition VIRTIO_MMIO_DEVICE_DESC_LOW : Z := 0x0a0.
Definition VIRTIO_MMIO_DEVICE_DESC_HIGH : Z := 0x0a4.
Definition VIRTIO_CONFIG_S_ACKNOWLEDGE : Z := 1.
Definition VIRTIO_CONFIG_S_DRIVER : Z := 2.
Definition VIRTIO_CONFIG_S_DRIVER_OK : Z := 4.
Definition VIRTIO_CONFIG_S_FEATURES_OK : Z := 8.
Definition VIRTIO_BLK_F_RO : Z := 5.
Definition VIRTIO_BLK_F_SCSI : Z := 7.
Definition VIRTIO_BLK_F_CONFIG_WCE : Z := 11.
Definition VIRTIO_BLK_F_MQ : Z := 12.
Definition VIRTIO_F_ANY_LAYOUT : Z := 27.
Definition VIRTIO_RING_F_INDIRECT_DESC : Z := 28.
Definition VIRTIO_RING_F_EVENT_IDX : Z := 29.
Definition NUM : nat := 8.
Definition VRING_DESC_F_NEXT : Z := 1.
Definition VRING_DESC_F_WRITE : Z := 2.
Definition VIRTIO_BLK_T_IN : Z := 0.
Definition VIRTIO_BLK_T_OUT : Z := 1.
Definition SIZEOF_BLK_REQ : Z := 16.

(** The memory a descriptor can point to. *)
Inductive daddr := ANull | AOps (i : nat) | AData (b : nat) | AStatus (i : nat).

Record virtq_desc := mkDesc { d_addr : daddr; d_len : Z; d_flags : Z; d_next : Z }.
Definition set_d_addr (x : daddr) (d : virtq_desc) : virtq_desc := mkDesc x (d_len d) (d_flags d) (d_next d).
Definition set_d_len (x : Z) (d : virtq_desc) : virtq_desc := mkDesc (d_addr d) x (d_flags d) (d_next d).
Definition set_d_flags (x : Z) (d : virtq_desc) : virtq_desc := mkDesc (d_addr d) (d_len d) x (d_next d).
Definition set_d_next (x : Z) (d : virtq_desc) : virtq_desc := mkDesc (d_addr d) (d_len d) (d_flags d) x.
Definition zero_desc : virtq_desc := mkDesc ANull 0 0 0.

Record virtq_avail := mkAvail { av_idx : Z; av_ring : list Z }.
Record virtq_used := mkUsed { us_idx : Z; us_ring : list Z }.
Record virtio_blk_req := mkReq { br_type : Z; br_reserved : Z; br_sector : Z }.
Record vinfo := mkInfo { in_b : option nat; in_status : Z }.

(** struct disk, and the registers written so far, last first. *)
Record vdisk := mkVdisk {
  v_desc : list virtq_desc;
  v_avail : virtq_avail;
  v_used : virtq_used;
  v_free : list bool;
  v_used_idx : Z;
  v_info : list vinfo;
  v_ops : list virtio_blk_req;
  v_regs : list (Z * Z)
}.
Definition set_v_desc x v := mkVdisk x (v_avail v) (v_used v) (v_free v) (v_used_idx v) (v_info v) (v_ops v) (v_regs v).
Definition set_v_avail x v := mkVdisk (v_desc v) x (v_used v) (v_free v) (v_used_idx v) (v_info v) (v_ops v) (v_regs v).
Definition set_v_used x v := mkVdisk (v_desc v) (v_avail v) x (v_free v) (v_used_idx v) (v_info v) (v_ops v) (v_regs v).
Definition set_v_free x v := mkVdisk (v_desc v) (v_avail v) (v_used v) x (v_used_idx v) (v_info v) (v_ops v) (v_regs v).
Definition set_v_used_idx x v := mkVdisk (v_desc v) (v_avail v) (v_used v) (v_free v) x (v_info v) (v_ops v) (v_regs v).
Definition set_v_info x v := mkVdisk (v_desc v) (v_avail v) (v_used v) (v_free v) (v_used_idx v) x (v_ops v) (v_regs v).
Definition set_v_ops x v := mkVdisk (v_desc v) (v_avail v) (v_used v) (v_free v) (v_used_idx v) (v_info v) x (v_regs v).
Definition set_v_regs x v := mkVdisk (v_desc v) (v_avail v) (v_used v) (v_free v) (v_used_idx v) (v_info v) (v_ops v) x.

(** The kernel and the driver together. *)
Record vstate := mkV { v_k : kstate; v_d : vdisk }.

(** A kernel computation leaves the driver's state alone, except that others
    may have changed it when the computation is resumed. *)
Fixpoint lift_outcome {A} (v : vdisk) (o : outcome kstate A) : outcome vstate A :=
  match o with
  | Ret a s => Ret a (mkV s v)
  | Panic msg => Panic msg
  | Swtch s k => Swtch (mkV s v) (fun v' => lift_outcome (v_d v') (k (v_k v')))
  | UB => UB
  | OutOfFuel => OutOfFuel
  end.
Definition lift {A} (m : K A) : M vstate A := fun v => lift_outcome (v_d v) (m (v_k v)).

Definition getd {A} (f : vdisk -> A) : M vstate A := gets (fun v => f (v_d v)).
Definition modd (f : vdisk -> vdisk) : M vstate unit := modify (fun v => mkV (v_k v) (f (v_d v))).

(** Reads and updates of disk.desc[i], disk.free[i], disk.info[i]. *)
Definition get_desc (i : nat) : M vstate virtq_desc := l ← getd v_desc; deref (l !! i).
Definition upd_desc (i : nat) (f : virtq_desc -> virtq_desc) : M vstate unit :=
  d ← get_desc i; modd (fun v => set_v_desc (<[i := f d]> (v_desc v)) v).
Definition get_free (i : nat) : M vstate bool := l ← getd v_free; deref (l !! i).
Definition set_free (i : nat) (x : bool) : M vstate unit :=
  get_free i;; modd (fun v => set_v_free (<[i := x]> (v_free v)) v).
Definition get_info (i : nat) : M vstate vinfo := l ← getd v_info; deref (l !! i).
Definition upd_info (i : nat) (f : vinfo -> vinfo) : M vstate unit :=
  x ← get_info i; modd (fun v => set_v_info (<[i := f x]> (v_info v)) v).

(** *R(r) = x *)
Definition reg_write (r x : Z) : M vstate unit := modd (fun v => set_v_regs ((r, u32 x) :: v_regs v) v).

(** ** The descriptors *)

Definition alloc_desc : M vstate Z :=
  r ← forl (seq 0 NUM) (fun i =>
    f ← get_free i;
    if f : bool then set_free i false;; mret (Some (Z.of_nat i)) else mret None);
  mret (default (-1) r).

(** The argument is an int; a negative one indexes out of the arrays. *)
Definition free_desc (i : Z) : M vstate unit :=
  if Z.of_nat NUM <=? i then panic "free_desc 1" else
  if i <? 0 then undefined else
  let i := Z.to_nat i in
  f ← get_free i;
  if f : bool then panic "free_desc 2" else
  upd_desc i (set_d_addr ANull);;
  upd_desc i (set_d_len 0);;
  upd_desc i (set_d_flags 0);;
  upd_desc i (set_d_next 0);;
  set_free i true;;
  lift (wakeup ChDisk).

(** The body of the loop of free_chain. *)
Definition free_chain_body (i : Z) : M vstate (Z + unit) :=
  if i <? 0 then undefined else
  d ← get_desc (Z.to_nat i);
  let flag := d_flags d in
  let nxt := d_next d in
  free_desc i;;
  if negb (Z.land flag VRING_DESC_F_NEXT =? 0) then mret (inl nxt) else mret (inr tt).

(** Every descriptor freed was in use, so a chain has at most NUM of them. *)
Definition free_chain (i : Z) : M vstate unit := loop (NUM + 1) free_chain_body i.

(** alloc3_desc(idx): None for -1. *)
Definition alloc3_desc : M vstate (option (Z * Z * Z)) :=
  a ← alloc_desc;
  if a <? 0 then mret None else
  b ← alloc_desc;
  if b <? 0 then free_desc a;; mret None else
  c ← alloc_desc;
  if c <? 0 then free_desc a;; free_desc b;; mret None else
  mret (Some (a, b, c)).

(** ** virtio_disk_rw *)

(** Filling in the three descriptors of a request on buffer [b]. *)
Definition format_request (b : nat) (write : bool) (sector : Z) (idx0 idx1 idx2 : nat) : M vstate unit :=
  modd (fun v => set_v_ops (<[idx0 := mkReq (if write then VIRTIO_BLK_T_OUT else VIRTIO_BLK_T_IN) 0 sector]> (v_ops v)) v);;
  upd_desc idx0 (set_d_addr (AOps idx0));;
  upd_desc idx0 (set_d_len SIZEOF_BLK_REQ);;
  upd_desc idx0 (set_d_flags VRING_DESC_F_NEXT);;
  upd_desc idx0 (set_d_next (Z.of_nat idx1));;
  upd_desc idx1 (set_d_addr (AData b));;
  upd_desc idx1 (set_d_len BSIZE);;
  upd_desc idx1 (set_d_flags (if write then 0 else VRING_DESC_F_WRITE));;
  upd_desc idx1 (fun d => set_d_flags (Z.lor (d_flags d) VRING_DESC_F_NEXT) d);;
  upd_desc idx1 (set_d_next (Z.of_nat idx2));;
  upd_info idx0 (fun x => mkInfo (in_b x) 0xff);;
  upd_desc idx2 (set_d_addr (AStatus idx0));;
  upd_desc idx2 (set_d_len 1);;
  upd_desc idx2 (set_d_flags VRING_DESC_F_WRITE);;
  upd_desc idx2 (set_d_next 0).

(** Making the chain that starts at [idx0] available to the device. *)
Definition publish (idx0 : nat) : M vstate unit :=
  modd (fun v => let av := v_avail v in
    set_v_avail (mkAvail (av_idx av) (<[Z.to_nat (av_idx av mod Z.of_nat NUM) := Z.of_nat idx0]> (av_ring av))) v);;
  modd (fun v => let av := v_avail v in set_v_avail (mkAvail (u16 (av_idx av + 1)) (av_ring av)) v);;
  reg_write VIRTIO_MMIO_QUEUE_NOTIFY 0.

(** while(b->disk == 1) sleep(b, &disk.vdisk_lock). *)
Definition wait_disk (b : nat) : M vstate unit :=
  lift (sleep_while (x ← get_buf b; mret (b_disk x)) (ChBuf b) LDisk).

(** What follows the wait: drop the record of the request, free its chain. *)
Definition finish_request (i0 : Z) : M vstate unit :=
  upd_info (Z.to_nat i0) (fun x => mkInfo None (in_status x));;
  free_chain i0;;
  lift (release LDisk).

Definition virtio_disk_rw (b : nat) (write : bool) : M vstate unit :=
  x ← lift (get_buf b);
  let sector := u32 (b_blockno x * (BSIZE / 512)) in
  lift (acquire LDisk);;
  idx ← loop WAKEUPS (fun _ : unit =>
    r ← alloc3_desc;
    match r with
    | Some i => mret (inr i)
    | None => lift (sleep ChDisk LDisk);; mret (inl tt)
    end) tt;
  let '(i0, i1, i2) := idx in
  format_request b write sector (Z.to_nat i0) (Z.to_nat i1) (Z.to_nat i2);;
  lift (upd_buf b (set_b_disk true));;
  upd_info (Z.to_nat i0) (fun x => mkInfo (Some b) (in_status x));;
  publish (Z.to_nat i0);;
  wait_disk b;;
  finish_request i0.

(** ** virtio_disk_intr *)

(** One completed request.  An id that is not a descriptor, or a request
    without a buffer, is outside the arrays. *)
Definition intr_step : M vstate (unit + unit) :=
  seen ← getd v_used_idx;
  us ← getd v_used;
  if seen =? us_idx us then mret (inr tt) else
  id ← deref (us_ring us !! Z.to_nat (seen mod Z.of_nat NUM));
  x ← get_info (Z.to_nat id);
  if negb (in_status x =? 0) then panic "virtio_disk_intr status" else
  b ← deref (in_b x);
  lift (upd_buf b (set_b_disk false));;
  lift (wakeup (ChBuf b));;
  modd (set_v_used_idx (u16 (seen + 1)));;
  mret (inl tt).

(** The requests the device has completed and the driver has not seen. *)
Definition pending (v : vdisk) : Z := u16 (us_idx (v_used v) - v_used_idx v).

Section device.
  (* what reading a device register yields *)
  Context (R : Z -> Z).

Definition virtio_disk_intr : M vstate unit :=
  lift (acquire LDisk);;
  reg_write VIRTIO_MMIO_INTERRUPT_ACK (Z.land (R VIRTIO_MMIO_INTERRUPT_STATUS) 0x3);;
  n ← getd pending;
  loop (Z.to_nat n + 1) (fun _ : unit => intr_step) tt;;
  lift (release LDisk).

(** ** virtio_disk_init *)

(** Clearing the feature bits the driver does not want. *)
Definition clear_feature (features bit : Z) : Z := Z.ldiff features (Z.shiftl 1 bit).

Definition driver_features (features : Z) : Z :=
  foldl clear_feature features
    [VIRTIO_BLK_F_RO; VIRTIO_BLK_F_SCSI; VIRTIO_BLK_F_CONFIG_WCE; VIRTIO_BLK_F_MQ; VIRTIO_F_ANY_LAYOUT;
     VIRTIO_RING_F_EVENT_IDX; VIRTIO_RING_F_INDIRECT_DESC].

(** The two halves of an address written to a pair of registers. *)
Definition reg_write64 (lo hi x : Z) : M vstate unit :=
  reg_write lo x;; reg_write hi (Z.shiftr x 32).

(** Zeroing the three pages and handing the queue to the device. *)
Definition init_queue (desc avail used status : Z) : M vstate unit :=
  modd (set_v_desc (replicate NUM zero_desc));;
  modd (set_v_avail (mkAvail 0 (replicate NUM 0)));;
  modd (set_v_used (mkUsed 0 (replicate NUM 0)));;
  reg_write VIRTIO_MMIO_QUEUE_NUM (Z.of_nat NUM);;
  reg_write64 VIRTIO_MMIO_QUEUE_DESC_LOW VIRTIO_MMIO_QUEUE_DESC_HIGH desc;;
  reg_write64 VIRTIO_MMIO_DRIVER_DESC_LOW VIRTIO_MMIO_DRIVER_DESC_HIGH avail;;
  reg_write64 VIRTIO_MMIO_DEVICE_DESC_LOW VIRTIO_MMIO_DEVICE_DESC_HIGH used;;
  reg_write VIRTIO_MMIO_QUEUE_READY 1;;
  foreach (seq 0 NUM) (fun i => set_free i true);;
  reg_write VIRTIO_MMIO_STATUS (Z.lor status VIRTIO_CONFIG_S_DRIVER_OK).

Definition virtio_disk_init : M vstate unit :=
  if negb ((R VIRTIO_MMIO_MAGIC_VALUE =? 0x74726976) && (R VIRTIO_MMIO_VERSION =? 2) &&
           (R VIRTIO_MMIO_DEVICE_ID =? 2) && (R VIRTIO_MMIO_VENDOR_ID =? 0x554d4551))
  then panic "could not find virtio disk" else
  reg_write VIRTIO_MMIO_STATUS 0;;
  let status := VIRTIO_CONFIG_S_ACKNOWLEDGE in
  reg_write VIRTIO_MMIO_STATUS status;;
  let status := Z.lor status VIRTIO_CONFIG_S_DRIVER in
  reg_write VIRTIO_MMIO_STATUS status;;
  reg_write VIRTIO_MMIO_DRIVER_FEATURES (driver_features (R VIRTIO_MMIO_DEVICE_FEATURES));;
  let status := Z.lor status VIRTIO_CONFIG_S_FEATURES_OK in
  reg_write VIRTIO_MMIO_STATUS status;;
  let status := R VIRTIO_MMIO_STATUS in
  if Z.land status VIRTIO_CONFIG_S_FEATURES_OK =? 0 then panic "virtio disk FEATURES_OK unset" else
  reg_write VIRTIO_MMIO_QUEUE_SEL 0;;
  if negb (R VIRTIO_MMIO_QUEUE_READY =? 0) then panic "virtio disk should not be ready" else
  let max := R VIRTIO_MMIO_QUEUE_NUM_MAX in
  if max =? 0 then panic "virtio disk has no queue 0" else
  if max <? Z.of_nat NUM then panic "virtio disk max queue too short" else
  desc ← lift kalloc;
  avail ← lift kalloc;
  used ← lift kalloc;
  if (desc =? 0) || (avail =? 0) || (used =? 0) then panic "virtio disk kalloc" else
  init_queue desc avail used status.
End device.
