(* ===== verification/BufferCache.v ===== *)
(** * The buffer cache: invariant and specification

    The cache presents the disk as a function [V] from block numbers to block
    contents.  [bc dev V L P pid s] says that the state [s] represents [V],
    that the blocks in [L] are locked by the running process (each with the
    buffer that holds it) and that the blocks in [P] are pinned.  bread,
    brelse, bwrite, bpin and bunpin are specified by what they do to
    [V], [L], [P] and the disk. *)

From S2P Require Import Prelude State Spinlock CString Sysargs Proc ReadyQueue Sleeplock Sleeping Bio.

(** ** The invariant *)

(** Buffer [i] is [b] and caches block [blk] of [dev]. *)
Definition caches (s : kstate) (dev : Z) (i : nat) (b : buf) (blk : Z) : Prop :=
  k_bufs s !! i = Some b /\ b_dev b = dev /\ b_blockno b = blk.

Definition refs (L : gmap Z nat) (P : gset Z) (blk : Z) : Z :=
  (if decide (blk ∈ dom L) then 1 else 0) + (if decide (blk ∈ P) then 1 else 0).

Record bc (dev : Z) (V : Z -> list Z) (L : gmap Z nat) (P : gset Z) (pid : Z) (s : kstate)
    : Prop := {
  bc_dev : dev <> 0;
  bc_len : length (k_bufs s) = NBUF;
  bc_lru : k_lru s ≡ₚ seq 0 NBUF;
  bc_size i b : k_bufs s !! i = Some b -> length (b_data b) = Z.to_nat BSIZE;
  bc_disk_size blk bs : k_disk s !! blk = Some bs -> length bs = Z.to_nat BSIZE;
  bc_unused i b : k_bufs s !! i = Some b -> b_dev b <> dev ->
    b_dev b = 0 /\ b_refcnt b = 0 /\ sl_locked (b_lock b) = false;
  bc_uniq i j b b' blk : caches s dev i b blk -> caches s dev j b' blk -> i = j;
  bc_lock i b blk : caches s dev i b blk ->
    match L !! blk with
    | Some _ => b_lock b = mkSlock true pid
    | None => sl_locked (b_lock b) = false
    end;
  bc_ref i b blk : caches s dev i b blk -> b_refcnt b = refs L P blk;
  bc_locked blk i : L !! blk = Some i -> exists b, caches s dev i b blk /\ b_valid b = true;
  bc_pinned blk : blk ∈ P -> exists i b, caches s dev i b blk /\ b_valid b = true;
  bc_view i b blk : caches s dev i b blk -> b_valid b = true -> b_data b = V blk;
  bc_clean blk : blk ∉ dom L -> blk ∉ P -> V blk = disk_read (k_disk s) blk;
}.

(** Everything but the cache, the process table and the queue is as in [s]. *)
Definition bio_frame (s s' : kstate) : Prop :=
  s' = set_k_bufs (k_bufs s') (set_k_lru (k_lru s')
         (set_k_procs (k_procs s') (set_k_rq (k_rq s') s))).

Lemma bio_frame_refl s : bio_frame s s.
Proof. unfold bio_frame. by destruct s. Qed.

Lemma bio_frame_trans s1 s2 s3 : bio_frame s1 s2 -> bio_frame s2 s3 -> bio_frame s1 s3.
Proof.
  unfold bio_frame. intros H1 H2. rewrite H2. rewrite H1. by destruct s1.
Qed.

Lemma sched_bio_frame s s' : sched_frame s s' -> bio_frame s s'.
Proof. unfold sched_frame, bio_frame. intros H. rewrite H. by destruct s. Qed.

(** ** Single steps on buffers *)

Lemma get_buf_eq s i b : k_bufs s !! i = Some b -> get_buf i s = Ret b s.
Proof. intros H. unfold get_buf. mred. by rewrite H. Qed.

Lemma upd_buf_eq s i b f :
  k_bufs s !! i = Some b -> upd_buf i f s = Ret tt (set_k_bufs (<[i := f b]> (k_bufs s)) s).
Proof. intros H. unfold upd_buf. mred. by rewrite (get_buf_eq _ _ _ H). Qed.

(** Two updates of the same buffer in a row are one. *)
Lemma set_k_bufs_twice i b b' s :
  set_k_bufs (<[i := b']> (k_bufs (set_k_bufs (<[i := b]> (k_bufs s)) s)))
    (set_k_bufs (<[i := b]> (k_bufs s)) s) = set_k_bufs (<[i := b']> (k_bufs s)) s.
Proof. unfold set_k_bufs. simpl. by rewrite list_insert_insert_eq. Qed.

(** The invariant concerns the cache and the disk only. *)
Lemma bc_ext dev V L P pid s s' :
  k_bufs s' = k_bufs s -> k_lru s' = k_lru s -> k_disk s' = k_disk s ->
  bc dev V L P pid s -> bc dev V L P pid s'.
Proof.
  intros Hb Hl Hd [].
  constructor; unfold caches in *; rewrite ?Hb, ?Hl, ?Hd; auto.
Qed.

Lemma bc_view_ext dev V V' L P pid s :
  (forall b, V b = V' b) -> bc dev V L P pid s -> bc dev V' L P pid s.
Proof.
  intros HV []. constructor; auto.
  - intros i b blk H1 H2. rewrite <- HV. eauto.
  - intros blk H1 H2. rewrite <- HV. eauto.
Qed.

Lemma caches_lt s dev i b blk : caches s dev i b blk -> (i < length (k_bufs s))%nat.
Proof. intros (H & _). by eapply lookup_lt_Some. Qed.

(** ** Reference counts and free buffers *)

Lemma refs_bounds L P blk : 0 <= refs L P blk <= 2.
Proof. unfold refs. repeat case_decide; lia. Qed.

Lemma refs_zero L P blk : refs L P blk = 0 -> blk ∉ dom L /\ blk ∉ P.
Proof. unfold refs. repeat case_decide; try lia. done. Qed.

(** A buffer is free when fewer blocks are locked or pinned than there are
    buffers. *)
Lemma bc_free_buffer dev V L P pid s :
  bc dev V L P pid s -> (size (dom L ∪ P) < NBUF)%nat ->
  exists i b, k_bufs s !! i = Some b /\ b_refcnt b = 0.
Proof.
  intros H Hlt. destruct (decide (Exists (fun b => b_refcnt b = 0) (k_bufs s))) as [He|Hn].
  { apply Exists_exists in He as (b & [i Hi]%list_elem_of_lookup & Hz). eauto. }
  exfalso. apply not_Exists_Forall in Hn; [|intros b; solve_decision].
  rewrite Forall_lookup in Hn.
  assert (Hdev : forall i b, k_bufs s !! i = Some b -> b_dev b = dev).
  { intros i b Hb. destruct (decide (b_dev b = dev)) as [|Hd]; [done|].
    destruct (bc_unused _ _ _ _ _ _ H _ _ Hb Hd) as (_ & Hz & _). by apply Hn in Hb. }
  assert (Hnd : NoDup (b_blockno <$> k_bufs s)).
  { apply NoDup_alt. intros i j blk Hi Hj. rewrite list_lookup_fmap in Hi, Hj.
    destruct (k_bufs s !! i) as [b|] eqn:Hb, (k_bufs s !! j) as [b'|] eqn:Hb'; try done.
    simpl in Hi, Hj. apply (bc_uniq _ _ _ _ _ _ H i j b b' blk); split_and!; naive_solver. }
  assert (Hsub : list_to_set (b_blockno <$> k_bufs s) ⊆@{gset Z} dom L ∪ P).
  { intros blk. rewrite elem_of_list_to_set, list_elem_of_fmap.
    intros (b & -> & [i Hi]%list_elem_of_lookup).
    assert (Hc : caches s dev i b (b_blockno b)) by (split_and!; eauto).
    apply elem_of_union. destruct (decide (b_blockno b ∈ dom L)); [by left|].
    destruct (decide (b_blockno b ∈ P)); [by right|].
    exfalso. apply (Hn i b Hi). rewrite (bc_ref _ _ _ _ _ _ H _ _ _ Hc). unfold refs.
    by rewrite !decide_False by done. }
  apply subseteq_size in Hsub. rewrite size_list_to_set in Hsub by done.
  rewrite length_fmap, (bc_len _ _ _ _ _ _ H) in Hsub. lia.
Qed.

(** ** Changing one buffer

    Every operation ends in a state that differs in one buffer [i], which then
    caches block [blk]; the contents, the locked and the pinned blocks change
    at [blk] only. *)
Record bc_change (dev : Z) (V V' : Z -> list Z) (L L' : gmap Z nat) (P P' : gset Z) (pid : Z)
    (s : kstate) (i : nat) (b b' : buf) (s' : kstate) : Prop := {
  ch_bufs : k_bufs s' = <[i := b']> (k_bufs s);
  ch_lru : k_lru s' ≡ₚ k_lru s;
  ch_old : k_bufs s !! i = Some b;
  ch_dev : b_dev b' = dev;
  ch_size : length (b_data b') = Z.to_nat BSIZE;
  ch_fresh j c : j <> i -> ~ caches s dev j c (b_blockno b');
  ch_evict : b_dev b = dev -> b_blockno b = b_blockno b' \/ b_refcnt b = 0;
  ch_other blk : blk <> b_blockno b' ->
    L' !! blk = L !! blk /\ (blk ∈ P' <-> blk ∈ P) /\ V' blk = V blk /\
    disk_read (k_disk s') blk = disk_read (k_disk s) blk;
  ch_disk_size blk bs : k_disk s' !! blk = Some bs -> length bs = Z.to_nat BSIZE;
  ch_lock : match L' !! b_blockno b' with
            | Some j => j = i /\ b_lock b' = mkSlock true pid
            | None => sl_locked (b_lock b') = false
            end;
  ch_ref : b_refcnt b' = refs L' P' (b_blockno b');
  ch_valid : b_blockno b' ∈ dom L' \/ b_blockno b' ∈ P' -> b_valid b' = true;
  ch_view : b_valid b' = true -> b_data b' = V' (b_blockno b');
  ch_clean : b_blockno b' ∉ dom L' -> b_blockno b' ∉ P' ->
    V' (b_blockno b') = disk_read (k_disk s') (b_blockno b');
}.

Lemma refs_other L L' P P' blk :
  L' !! blk = L !! blk -> (blk ∈ P' <-> blk ∈ P) -> refs L' P' blk = refs L P blk.
Proof.
  intros HL HP. unfold refs. f_equal; apply decide_ext; [|done].
  rewrite !elem_of_dom. by rewrite HL.
Qed.

Lemma bc_update dev V V' L L' P P' pid s i b b' s' :
  bc dev V L P pid s -> bc_change dev V V' L L' P P' pid s i b b' s' -> bc dev V' L' P' pid s'.
Proof.
  intros H C. destruct C as [Hbs Hlru Hold Hdev Hsize Hfresh Hevict Hoth Hds Hlock Href Hval Hview Hcl].
  set (blk0 := b_blockno b') in *.
  assert (Hlt := lookup_lt_Some _ _ _ Hold).
  assert (Hc : forall j c blk, caches s' dev j c blk <->
    (j = i /\ c = b' /\ blk = blk0) \/ (j <> i /\ blk <> blk0 /\ caches s dev j c blk)).
  { intros j c blk. unfold caches. rewrite Hbs. destruct (decide (j = i)) as [->|Hne].
    - rewrite list_lookup_insert_eq by done. naive_solver.
    - rewrite list_lookup_insert_ne by done. split; [|naive_solver].
      intros (H1 & H2 & H3). right. split_and!; try done. intros ->.
      by apply (Hfresh j c Hne). }
  assert (Hkeep : forall j c blk, blk <> blk0 -> refs L P blk <> 0 -> caches s dev j c blk ->
            caches s' dev j c blk).
  { intros j c blk Hne Hr Hj. apply Hc. right. split_and!; try done. intros ->.
    assert (c = b) as -> by (destruct Hj as (? & _); congruence).
    destruct Hj as (Hj & Hd & Hb). destruct (Hevict Hd) as [?|Hz]; [congruence|].
    rewrite (bc_ref _ _ _ _ _ _ H i b blk) in Hz by done. done. }
  constructor.
  - apply H.
  - by rewrite Hbs, length_insert, (bc_len _ _ _ _ _ _ H).
  - rewrite Hlru. apply H.
  - intros j c. rewrite Hbs. intros [(<- & <- & _)|[_ Hj]]%list_lookup_insert_Some; [done|].
    by eapply (bc_size _ _ _ _ _ _ H).
  - done.
  - intros j c. rewrite Hbs. intros [(<- & <- & _)|[_ Hj]]%list_lookup_insert_Some; [done|].
    by eapply (bc_unused _ _ _ _ _ _ H).
  - intros j j' c c' blk Hj Hj'. apply Hc in Hj, Hj'.
    destruct Hj as [(-> & -> & ->)|(? & ? & Hj)], Hj' as [(-> & -> & ?)|(? & ? & Hj')]; try done.
    by eapply (bc_uniq _ _ _ _ _ _ H).
  - intros j c blk Hj. apply Hc in Hj as [(-> & -> & ->)|(? & Hne & Hj)].
    + destruct (L' !! blk0); naive_solver.
    + destruct (Hoth _ Hne) as (-> & _). by eapply (bc_lock _ _ _ _ _ _ H).
  - intros j c blk Hj. apply Hc in Hj as [(-> & -> & ->)|(? & Hne & Hj)]; [done|].
    destruct (Hoth _ Hne) as (HL & HP & _). rewrite (refs_other L L' P P') by done.
    by eapply (bc_ref _ _ _ _ _ _ H).
  - intros blk j Hj. destruct (decide (blk = blk0)) as [->|Hne].
    + rewrite Hj in Hlock. destruct Hlock as [-> _]. exists b'. split; [apply Hc; by left|].
      apply Hval. left. apply elem_of_dom. by eexists.
    + destruct (Hoth _ Hne) as (HL & _). rewrite HL in Hj.
      destruct (bc_locked _ _ _ _ _ _ H _ _ Hj) as (c & Hcj & Hv). exists c.
      split; [|done]. apply Hkeep; [done| |done]. intros Hz. apply refs_zero in Hz as [Hz _].
      apply Hz, elem_of_dom. by eexists.
  - intros blk HP. destruct (decide (blk = blk0)) as [->|Hne].
    + exists i, b'. split; [apply Hc; by left|]. apply Hval. by right.
    + destruct (Hoth _ Hne) as (_ & HP' & _). apply HP' in HP.
      destruct (bc_pinned _ _ _ _ _ _ H _ HP) as (j & c & Hcj & Hv). exists j, c.
      split; [|done]. apply Hkeep; [done| |done]. by intros [_ Hz]%refs_zero.
  - intros j c blk Hj Hv. apply Hc in Hj as [(-> & -> & ->)|(? & Hne & Hj)]; [by apply Hview|].
    destruct (Hoth _ Hne) as (_ & _ & -> & _). by eapply (bc_view _ _ _ _ _ _ H).
  - intros blk HL HP. destruct (decide (blk = blk0)) as [->|Hne]; [by apply Hcl|].
    destruct (Hoth _ Hne) as (HL' & HP' & -> & ->). apply (bc_clean _ _ _ _ _ _ H).
    + rewrite elem_of_dom in HL |- *. by rewrite HL' in HL.
    + by rewrite <- HP'.
Qed.

(** ** bget *)

(** The tests of the two scans of bget. *)
Definition is_block (s : kstate) (dev blk : Z) (i : nat) : bool :=
  match k_bufs s !! i with
  | Some b => (b_dev b =? dev) && (b_blockno b =? blk)
  | None => false
  end.

Definition is_free (s : kstate) (i : nat) : bool :=
  match k_bufs s !! i with Some b => b_refcnt b =? 0 | None => false end.

Lemma find_some_elem {A} (f : A -> bool) l x : List.find f l = Some x -> x ∈ l /\ f x = true.
Proof. intros [H1 H2]%List.find_some. split; [by apply list_elem_of_In|done]. Qed.

Lemma find_none_elem {A} (f : A -> bool) l x : List.find f l = None -> x ∈ l -> f x = false.
Proof. intros H Hx. eapply List.find_none; [exact H|by apply list_elem_of_In]. Qed.

Lemma find_is_Some {A} (f : A -> bool) l x :
  x ∈ l -> f x = true -> exists y, List.find f l = Some y.
Proof.
  intros Hx Hf. destruct (List.find f l) eqn:E; [eauto|].
  by rewrite (find_none_elem _ _ _ E Hx) in Hf.
Qed.

Lemma elem_of_rev {A} (l : list A) x : x ∈ rev l <-> x ∈ l.
Proof. by rewrite !list_elem_of_In, <- List.in_rev. Qed.

(** Taking the lock of buffer [i] at the end of bget. *)
Lemma bget_take s i b1 h p pp :
  running p pp h s -> h = [] -> (i < length (k_bufs s))%nat -> sl_locked (b_lock b1) = false ->
  ((release LBcache;; acquiresleep (SBuf i);; mret (Some i))
    (set_k_bufs (<[i := b1]> (k_bufs s)) (set_k_held [LBcache] s))) =
  Ret (Some i) (set_k_bufs (<[i := set_b_lock (mkSlock true (p_pid pp)) b1]> (k_bufs s)) s).
Proof.
  intros Hrun -> Hi Hb. pose proof (run_held _ _ _ _ Hrun) as Hh. mred.
  rewrite (release_eq _ _ []) by (done || set_solver). mred.
  set (s1 := set_k_held [] _).
  assert (Hs1 : s1 = set_k_bufs (<[i := b1]> (k_bufs s)) s).
  { unfold s1. destruct s. simpl in *. by subst. }
  rewrite (acquiresleep_eq (SBuf i) (b_lock b1) p pp []).
  - simpl. rewrite Hs1. simpl. rewrite list_lookup_insert_eq by done.
    by rewrite list_insert_insert_eq.
  - rewrite Hs1. by apply (running_ext _ _ _ s).
  - apply not_elem_of_nil.
  - rewrite Hs1. simpl. by rewrite list_lookup_insert_eq.
  - done.
Qed.

Section bget.
  Context (dev blk : Z) (s : kstate) (p : nat) (pp : proc).
  Hypothesis Hrun : running p pp [] s.
  Hypothesis Hlru : forall i, i ∈ k_lru s -> is_Some (k_bufs s !! i).

Lemma bget_acquire : acquire LBcache s = Ret tt (set_k_held [LBcache] s).
Proof using Hrun.
  pose proof (run_held _ _ _ _ Hrun) as Hh.
  rewrite acquire_eq; rewrite Hh; [done|apply not_elem_of_nil].
Qed.

Lemma is_block_get i b :
  k_bufs s !! i = Some b -> is_block s dev blk i = (b_dev b =? dev) && (b_blockno b =? blk).
Proof. unfold is_block. by intros ->. Qed.

Lemma is_free_get i b : k_bufs s !! i = Some b -> is_free s i = (b_refcnt b =? 0).
Proof. unfold is_free. by intros ->. Qed.

Lemma bget_hit i b :
  List.find (is_block s dev blk) (k_lru s) = Some i -> k_bufs s !! i = Some b ->
  sl_locked (b_lock b) = false ->
  bget dev blk s =
    Ret i (set_k_bufs (<[i := set_b_lock (mkSlock true (p_pid pp))
                              (set_b_refcnt (u32 (b_refcnt b + 1)) b)]> (k_bufs s)) s).
Proof using Hrun Hlru.
  intros Hf Hb Hl. pose proof (find_some_elem _ _ _ Hf) as [_ Ht].
  rewrite (is_block_get _ _ Hb) in Ht.
  unfold bget. mred. rewrite bget_acquire. mred. simpl k_lru.
  match goal with |- obind _ (forl _ ?body _) = Ret _ ?sf =>
    rewrite (forl_scan_eq (is_block s dev blk) body (k_lru s) (set_k_held [LBcache] s) i (Ret (Some i) sf))
  end; [done| |done| |done].
  - intros x Hx Htx. destruct (Hlru x Hx) as [c Hcx]. mred. rewrite (get_buf_eq _ _ c) by done.
    rewrite (is_block_get _ _ Hcx) in Htx. mred. by rewrite Htx.
  - mred. rewrite (get_buf_eq _ _ b) by done. mred. rewrite Ht. mred.
    rewrite (upd_buf_eq _ _ b) by done. mred.
    eapply (bget_take s i); [done..| |done]. by eapply lookup_lt_Some.
Qed.

Lemma scan_skips x :
  x ∈ k_lru s -> is_block s dev blk x = false ->
  exists c, k_bufs s !! x = Some c /\ (b_dev c =? dev) && (b_blockno c =? blk) = false.
Proof using Hlru.
  intros Hx Ht. destruct (Hlru x Hx) as [c Hcx]. exists c. split; [done|].
  by rewrite (is_block_get _ _ Hcx) in Ht.
Qed.

Lemma bget_miss i b :
  List.find (is_block s dev blk) (k_lru s) = None ->
  List.find (is_free s) (rev (k_lru s)) = Some i -> k_bufs s !! i = Some b ->
  sl_locked (b_lock b) = false ->
  bget dev blk s =
    Ret i (set_k_bufs (<[i := mkBuf false (b_disk b) dev blk (mkSlock true (p_pid pp)) 1 (b_data b)]>
                         (k_bufs s)) s).
Proof using Hrun Hlru.
  intros Hn Hf Hb Hl. pose proof (find_some_elem _ _ _ Hf) as [_ Ht].
  rewrite (is_free_get _ _ Hb) in Ht. assert (Hlt := lookup_lt_Some _ _ _ Hb).
  unfold bget. mred. rewrite bget_acquire. mred. simpl k_lru.
  rewrite forl_none.
  2:{ intros x Hx. destruct (scan_skips x Hx (find_none_elem _ _ _ Hn Hx)) as (c & Hcx & Hc).
      mred. rewrite (get_buf_eq _ _ c) by done. mred. by rewrite Hc. }
  mred.
  match goal with |- obind _ (forl _ ?body _) = Ret _ ?sf =>
    rewrite (forl_scan_eq (is_free s) body (rev (k_lru s)) (set_k_held [LBcache] s) i (Ret (Some i) sf))
  end; [done| |done| |done].
  - intros x Hx Htx. destruct (Hlru x) as [c Hcx]; [by apply elem_of_rev|].
    mred. rewrite (get_buf_eq _ _ c) by done. rewrite (is_free_get _ _ Hcx) in Htx. mred. by rewrite Htx.
  - mred. rewrite (get_buf_eq _ _ b) by done. mred. rewrite Ht. mred.
    rewrite (upd_buf_eq _ _ b) by done. mred.
    rewrite (upd_buf_eq _ _ (set_b_dev dev b)) by (simpl; by rewrite list_lookup_insert_eq). mred.
    rewrite set_k_bufs_twice.
    rewrite (upd_buf_eq _ _ (set_b_blockno blk (set_b_dev dev b))) by (simpl; by rewrite list_lookup_insert_eq). mred.
    rewrite set_k_bufs_twice.
    rewrite (upd_buf_eq _ _ (set_b_valid false (set_b_blockno blk (set_b_dev dev b))))
      by (simpl; by rewrite list_lookup_insert_eq). mred.
    rewrite set_k_bufs_twice.
    exact (bget_take s i (set_b_refcnt 1 (set_b_valid false (set_b_blockno blk (set_b_dev dev b))))
             [] p pp Hrun eq_refl Hlt Hl).
Qed.

(** With every buffer referenced and the block not cached, bget panics. *)
Lemma bget_full :
  List.find (is_block s dev blk) (k_lru s) = None ->
  List.find (is_free s) (rev (k_lru s)) = None ->
  bget dev blk s = Panic "bget: no buffers".
Proof using Hrun Hlru.
  intros Hn Hf. unfold bget. mred. rewrite bget_acquire. mred. simpl k_lru.
  rewrite forl_none.
  2:{ intros x Hx. destruct (scan_skips x Hx (find_none_elem _ _ _ Hn Hx)) as (c & Hcx & Hc).
      mred. rewrite (get_buf_eq _ _ c) by done. mred. by rewrite Hc. }
  mred. rewrite forl_none; [done|]. intros x Hx.
  destruct (Hlru x) as [c Hcx]; [by apply elem_of_rev|].
  mred. rewrite (get_buf_eq _ _ c) by done. mred.
  pose proof (find_none_elem _ _ _ Hf Hx) as Hfr. rewrite (is_free_get _ _ Hcx) in Hfr.
  by rewrite Hfr.
Qed.
End bget.

(** ** The operations on the represented contents *)

(** The running process [p] with no spin-lock held, and the cache. *)
Record fs (dev : Z) (V : Z -> list Z) (L : gmap Z nat) (P : gset Z) (p : nat) (pp : proc)
    (s : kstate) : Prop := {
  fs_bc : bc dev V L P (p_pid pp) s;
  fs_run : running p pp [] s;
}.

Lemma bc_lru_ok dev V L P pid s :
  bc dev V L P pid s -> forall i, i ∈ k_lru s <-> is_Some (k_bufs s !! i).
Proof.
  intros H i. rewrite (bc_lru _ _ _ _ _ _ H), elem_of_seq, lookup_lt_is_Some.
  rewrite (bc_len _ _ _ _ _ _ H). lia.
Qed.

Lemma is_block_iff dev V L P pid s blk i :
  bc dev V L P pid s ->
  is_block s dev blk i = true <-> exists b, caches s dev i b blk.
Proof.
  intros _. unfold is_block, caches. destruct (k_bufs s !! i) as [b|].
  - rewrite andb_true_iff, !Z.eqb_eq. naive_solver.
  - naive_solver.
Qed.

(** The buffer bread returns, when bget gave [b1]. *)
Definition filled (s : kstate) (b1 : buf) : buf :=
  if b_valid b1 then b1
  else set_b_valid true (set_b_data (disk_read (k_disk s) (b_blockno b1)) b1).

Lemma bread_fill dev blk s i b1 :
  bget dev blk s = Ret i (set_k_bufs (<[i := b1]> (k_bufs s)) s) -> (i < length (k_bufs s))%nat ->
  bread dev blk s = Ret i (set_k_bufs (<[i := filled s b1]> (k_bufs s)) s).
Proof.
  intros Hg Hlt. unfold bread. mred. rewrite Hg. mred.
  rewrite (get_buf_eq _ _ b1) by (simpl; by rewrite list_lookup_insert_eq). mred.
  unfold filled. destruct (b_valid b1); mred; [done|]. unfold virtio_disk_rw. mred.
  rewrite (get_buf_eq _ _ b1) by (simpl; by rewrite list_lookup_insert_eq). mred.
  rewrite (upd_buf_eq _ _ b1) by (simpl; by rewrite list_lookup_insert_eq). mred.
  rewrite set_k_bufs_twice. simpl k_disk.
  rewrite (upd_buf_eq _ _ (set_b_data (disk_read (k_disk s) (b_blockno b1)) b1))
    by (simpl; by rewrite list_lookup_insert_eq). mred.
  by rewrite set_k_bufs_twice.
Qed.

Lemma disk_read_length d blk :
  (forall blk bs, d !! blk = Some bs -> length bs = Z.to_nat BSIZE) ->
  length (disk_read d blk) = Z.to_nat BSIZE.
Proof.
  intros H. unfold disk_read. destruct (d !! blk) eqn:E; [by eapply H|].
  apply length_replicate.
Qed.

(** Every block the cache represents has BSIZE bytes. *)
Lemma bc_view_length dev V L P pid s blk :
  bc dev V L P pid s -> length (V blk) = Z.to_nat BSIZE.
Proof.
  intros H. destruct (decide (blk ∈ dom L)) as [[i Hi]%elem_of_dom|HL].
  { destruct (bc_locked _ _ _ _ _ _ H _ _ Hi) as (b & Hb & Hv).
    rewrite <- (bc_view _ _ _ _ _ _ H _ _ _ Hb Hv). eapply H. apply Hb. }
  destruct (decide (blk ∈ P)) as [HP|HP].
  { destruct (bc_pinned _ _ _ _ _ _ H _ HP) as (i & b & Hb & Hv).
    rewrite <- (bc_view _ _ _ _ _ _ H _ _ _ Hb Hv). eapply H. apply Hb. }
  rewrite (bc_clean _ _ _ _ _ _ H) by done. apply disk_read_length, H.
Qed.

Lemma filled_fields s b1 :
  b_dev (filled s b1) = b_dev b1 /\ b_blockno (filled s b1) = b_blockno b1 /\
  b_lock (filled s b1) = b_lock b1 /\ b_refcnt (filled s b1) = b_refcnt b1 /\
  b_valid (filled s b1) = true.
Proof. unfold filled. by destruct (b_valid b1) eqn:E. Qed.

Lemma refs_locked L P blk i :
  L !! blk = None -> refs (<[blk := i]> L) P blk = refs L P blk + 1.
Proof.
  intros HL. unfold refs. rewrite decide_True by set_solver.
  rewrite (decide_False (P := blk ∈ dom L)) by (by apply not_elem_of_dom). lia.
Qed.

(** Locking block [blk] in buffer [i], whichever way bget found it. *)
Lemma bc_lock_buffer dev V L P pid s i b b1 blk :
  bc dev V L P pid s -> k_bufs s !! i = Some b -> L !! blk = None ->
  b_dev b1 = dev -> b_blockno b1 = blk -> b_lock b1 = mkSlock true pid ->
  length (b_data b1) = Z.to_nat BSIZE ->
  (forall j c, j <> i -> ~ caches s dev j c blk) ->
  (b_dev b = dev -> b_blockno b = blk \/ b_refcnt b = 0) ->
  b_refcnt b1 = refs L P blk + 1 ->
  (b_valid b1 = true -> b_data b1 = V blk) ->
  (b_valid b1 = false -> blk ∉ P) ->
  bc dev V (<[blk := i]> L) P pid (set_k_bufs (<[i := filled s b1]> (k_bufs s)) s).
Proof.
  intros H Hb HL Hd Hbl Hlk Hsz Hfr Hev Href Hview HP.
  destruct (filled_fields s b1) as (Fd & Fb & Fl & Fr & Fv).
  eapply (bc_update _ V V L _ P P pid s i b (filled s b1)); [done|].
  constructor; rewrite ?Fd, ?Fb, ?Fl, ?Fr, ?Fv, ?Hbl; try done.
  - unfold filled. destruct (b_valid b1) eqn:E; simpl; [done|]. apply disk_read_length, H.
  - intros blk' Hne. rewrite lookup_insert_ne by done. done.
  - apply H.
  - by rewrite lookup_insert_eq.
  - by rewrite refs_locked, Href.
  - intros _. unfold filled. destruct (b_valid b1) eqn:E; simpl; [by apply Hview|].
    rewrite Hbl. symmetry. apply (bc_clean _ _ _ _ _ _ H); [|by apply HP].
    by apply not_elem_of_dom.
  - set_solver.
Qed.

(** bread returns a locked buffer with the contents of the block, whether it
    was cached or not. *)
Lemma bread_spec dev V L P p pp s blk :
  fs dev V L P p pp s -> L !! blk = None -> blk ∈ P \/ (size (dom L ∪ P) < NBUF)%nat ->
  returns (bread dev blk s) (fun i s' =>
    fs dev V (<[blk := i]> L) P p pp s' /\ bio_frame s s').
Proof.
  intros [H Hrun] HL Hroom. pose proof (bc_lru_ok _ _ _ _ _ _ H) as Hlru.
  assert (Hl1 : forall i, i ∈ k_lru s -> is_Some (k_bufs s !! i)) by (intros i; apply Hlru).
  assert (Hfin : forall i b b1, k_bufs s !! i = Some b ->
    bget dev blk s = Ret i (set_k_bufs (<[i := b1]> (k_bufs s)) s) ->
    bc dev V (<[blk := i]> L) P (p_pid pp) (set_k_bufs (<[i := filled s b1]> (k_bufs s)) s) ->
    returns (bread dev blk s) (fun i s' =>
      fs dev V (<[blk := i]> L) P p pp s' /\ bio_frame s s')).
  { intros i b b1 Hb Hg Hbc. rewrite (bread_fill _ _ _ i b1) by (done || by eapply lookup_lt_Some).
    split; [split; [done|by apply (running_ext _ _ _ s)]|by destruct s]. }
  destruct (List.find (is_block s dev blk) (k_lru s)) as [i|] eqn:Hf.
  - pose proof (find_some_elem _ _ _ Hf) as [_ (b & Hc)%(is_block_iff _ _ _ _ _ _ _ _ H)].
    pose proof Hc as (Hb & Hd & Hbl).
    pose proof (bc_lock _ _ _ _ _ _ H _ _ _ Hc) as Hlk. rewrite HL in Hlk.
    pose proof (bc_ref _ _ _ _ _ _ H _ _ _ Hc) as Hrf. pose proof (refs_bounds L P blk).
    eapply Hfin; [exact Hb|by apply (bget_hit dev blk s p pp Hrun Hl1 i b)|].
    apply (bc_lock_buffer _ _ _ _ _ _ _ b); simpl; try done.
    + by eapply H.
    + intros j c Hj Hc'. by apply Hj, (bc_uniq _ _ _ _ _ _ H j i c b blk).
    + by left.
    + rewrite Hrf. unfold u32. rewrite Z.mod_small by lia. done.
    + by apply (bc_view _ _ _ _ _ _ H i).
    + intros Hv HP. destruct (bc_pinned _ _ _ _ _ _ H _ HP) as (j & c & Hcj & Hvj).
      assert (j = i) as -> by (by eapply (bc_uniq _ _ _ _ _ _ H)).
      destruct Hcj as (Hcj & _). congruence.
  - assert (Hnc : forall j c, ~ caches s dev j c blk).
    { intros j c Hc. assert (is_block s dev blk j = true) as Ht
        by (apply (is_block_iff _ _ _ _ _ _ _ _ H); eauto).
      rewrite (find_none_elem _ _ j Hf) in Ht; [done|]. apply Hlru. destruct Hc as (-> & _). eauto. }
    assert (HP : blk ∉ P).
    { intros HP. destruct (bc_pinned _ _ _ _ _ _ H _ HP) as (j & c & Hcj & _). by eapply Hnc. }
    destruct Hroom as [|Hroom]; [done|].
    destruct (bc_free_buffer _ _ _ _ _ _ H Hroom) as (i0 & b0 & Hb0 & Hz0).
    destruct (find_is_Some (is_free s) (rev (k_lru s)) i0) as [i Hfi].
    { apply elem_of_rev, Hlru. eauto. }
    { rewrite (is_free_get _ _ _ Hb0). by apply Z.eqb_eq. }
    pose proof (find_some_elem _ _ _ Hfi) as [Hi Hfr]. apply elem_of_rev, Hlru in Hi as [b Hb].
    rewrite (is_free_get _ _ _ Hb) in Hfr. apply Z.eqb_eq in Hfr.
    assert (Hlk : sl_locked (b_lock b) = false).
    { destruct (decide (b_dev b = dev)) as [Hd|Hd]; [|by eapply (bc_unused _ _ _ _ _ _ H)].
      assert (Hc : caches s dev i b (b_blockno b)) by done.
      pose proof (bc_lock _ _ _ _ _ _ H _ _ _ Hc) as Hlk.
      rewrite (bc_ref _ _ _ _ _ _ H _ _ _ Hc) in Hfr. apply refs_zero in Hfr as [Hn _].
      apply not_elem_of_dom in Hn. by rewrite Hn in Hlk. }
    eapply Hfin; [exact Hb|by apply (bget_miss dev blk s p pp Hrun Hl1 i b)|].
    apply (bc_lock_buffer _ _ _ _ _ _ _ b); simpl; try done.
    + by eapply H.
    + by right.
    + unfold refs. rewrite !decide_False; [done|done|by apply not_elem_of_dom].
Qed.

Lemma locked_buffer dev V L P pid s blk i :
  bc dev V L P pid s -> L !! blk = Some i ->
  exists b, k_bufs s !! i = Some b /\ b_dev b = dev /\ b_blockno b = blk /\ b_valid b = true /\
    b_lock b = mkSlock true pid /\ b_data b = V blk /\ b_refcnt b = refs L P blk /\
    (forall j c, j <> i -> ~ caches s dev j c blk).
Proof.
  intros H HL. destruct (bc_locked _ _ _ _ _ _ H _ _ HL) as (b & Hc & Hv).
  pose proof (bc_lock _ _ _ _ _ _ H _ _ _ Hc) as Hlk. rewrite HL in Hlk.
  pose proof (bc_ref _ _ _ _ _ _ H _ _ _ Hc). pose proof (bc_view _ _ _ _ _ _ H _ _ _ Hc Hv).
  pose proof Hc as (Hb & Hd & Hbl). exists b. split_and!; try done.
  intros j c Hj Hc'. by apply Hj, (bc_uniq _ _ _ _ _ _ H j i c b blk).
Qed.

(** Reading the data of a locked buffer. *)
Lemma bdata_eq dev V L P p pp s blk i :
  fs dev V L P p pp s -> L !! blk = Some i -> bdata i s = Ret (V blk) s.
Proof.
  intros [H _] HL. destruct (locked_buffer _ _ _ _ _ _ _ _ H HL) as (b & Hb & _ & _ & _ & _ & Hd & _).
  unfold bdata. mred. rewrite (get_buf_eq _ _ _ Hb). mred. by rewrite Hd.
Qed.

(** Changing the data of a locked buffer changes the represented contents. *)
Lemma set_bdata_spec dev V L P p pp s blk i d :
  fs dev V L P p pp s -> L !! blk = Some i -> length d = Z.to_nat BSIZE ->
  returns (set_bdata i d s) (fun _ s' => fs dev (<[blk := d]> V) L P p pp s' /\ bio_frame s s').
Proof.
  intros [H Hrun] HL Hd.
  destruct (locked_buffer _ _ _ _ _ _ _ _ H HL) as (b & Hb & Hdv & Hbl & Hv & Hlk & _ & Hrf & Hfr).
  unfold set_bdata. rewrite (upd_buf_eq _ _ _ _ Hb). split; [|by destruct s]. split.
  2: by apply (running_ext _ _ _ s).
  eapply (bc_update _ V _ L L P P _ s i b (set_b_data d b)); [done|].
  constructor; simpl; rewrite ?Hbl; try done.
  - by left.
  - intros blk' Hne. by rewrite fn_lookup_insert_ne.
  - apply H.
  - by rewrite HL.
  - intros _. by rewrite fn_lookup_insert.
  - intros Hn. exfalso. apply Hn, elem_of_dom. eauto.
Qed.

Lemma holding_buffer dev V L P p pp s blk i :
  fs dev V L P p pp s -> L !! blk = Some i -> holdingsleep (SBuf i) s = Ret true s.
Proof.
  intros [H Hrun] HL. destruct (locked_buffer _ _ _ _ _ _ _ _ H HL) as (b & Hb & _ & _ & _ & Hlk & _).
  rewrite (holdingsleep_eq (SBuf i) (mkSlock true (p_pid pp)) p pp); [|done|].
  - simpl. by rewrite Z.eqb_refl.
  - simpl. rewrite Hb. simpl. by rewrite Hlk.
Qed.

(** The state after a block write: the disk, and the trace of writes. *)
Definition wrote (blk : Z) (d : list Z) (s : kstate) : kstate :=
  set_k_dtrace (k_dtrace s ++ [(blk, d)]) (set_k_disk (<[blk := d]> (k_disk s)) s).

Lemma disk_read_insert d blk bs blk' :
  disk_read (<[blk := bs]> d) blk' = if decide (blk = blk') then bs else disk_read d blk'.
Proof.
  unfold disk_read. case_decide as Hd; [subst; by rewrite lookup_insert_eq|].
  by rewrite lookup_insert_ne.
Qed.

(** bwrite makes the disk agree with the cache on its block. *)
Lemma bwrite_spec dev V L P p pp s blk i :
  fs dev V L P p pp s -> L !! blk = Some i ->
  bwrite i s = Ret tt (wrote blk (V blk) s) /\ fs dev V L P p pp (wrote blk (V blk) s).
Proof.
  intros Hfs HL. pose proof Hfs as [H Hrun].
  destruct (locked_buffer _ _ _ _ _ _ _ _ H HL) as (b & Hb & Hdv & Hbl & Hv & Hlk & Hd & Hrf & Hfr).
  split.
  - unfold bwrite. mred. rewrite (holding_buffer _ _ _ _ _ _ _ _ _ Hfs HL). mred.
    unfold virtio_disk_rw. mred. rewrite (get_buf_eq _ _ _ Hb). mred. by rewrite Hbl, Hd.
  - split; [|by apply (running_ext _ _ _ s)].
    assert (Hb' : <[i := b]> (k_bufs s) = k_bufs s) by (by apply list_insert_id).
    eapply (bc_update _ V V L L P P _ s i b b); [done|].
    constructor; simpl; rewrite ?Hb', ?Hbl; try done.
    + by eapply H.
    + by left.
    + intros blk' Hne. rewrite disk_read_insert. by rewrite decide_False by done.
    + intros blk' bs. destruct (decide (blk = blk')) as [<-|].
      * rewrite lookup_insert_eq. intros [= <-]. by eapply bc_view_length.
      * rewrite lookup_insert_ne by done. apply H.
    + by rewrite HL.
    + intros Hn. exfalso. apply Hn, elem_of_dom. eauto.
Qed.

Lemma refs_unlocked L P blk i :
  L !! blk = Some i -> refs (delete blk L) P blk = refs L P blk - 1.
Proof.
  intros HL. unfold refs. rewrite (decide_False (P := blk ∈ dom (delete blk L))) by set_solver.
  rewrite (decide_True (P := blk ∈ dom L)) by (apply elem_of_dom; eauto). lia.
Qed.

Lemma move_to_front_perm i l : NoDup l -> i ∈ l -> move_to_front i l ≡ₚ l.
Proof.
  intros Hnd Hi. unfold move_to_front. induction Hnd as [|x l Hx Hnd IH]; [set_solver|].
  rewrite filter_cons. destruct (decide (x = i)) as [->|Hne].
  - rewrite decide_False by naive_solver. constructor.
    rewrite list_filter_all; [done|]. apply Forall_forall. intros y Hy ->. done.
  - rewrite decide_True by done. rewrite perm_swap. constructor. apply IH. set_solver.
Qed.

(** The second half of brelse: one reference less, and the front of the
    list when it was the last. *)
Lemma brelse_unref s i b p pp :
  running p pp [] s -> k_bufs s !! i = Some b ->
  (acquire LBcache;;
   upd_buf i (fun b => set_b_refcnt (u32 (b_refcnt b - 1)) b);;
   b ← get_buf i;
   when (b_refcnt b =? 0) (modify (fun s => set_k_lru (move_to_front i (k_lru s)) s));;
   release LBcache) s =
  Ret tt (set_k_lru (if u32 (b_refcnt b - 1) =? 0 then move_to_front i (k_lru s) else k_lru s)
    (set_k_bufs (<[i := set_b_refcnt (u32 (b_refcnt b - 1)) b]> (k_bufs s)) s)).
Proof.
  intros Hrun Hb. pose proof (run_held _ _ _ _ Hrun) as Hh. assert (Hlt := lookup_lt_Some _ _ _ Hb).
  mred. rewrite acquire_eq by (rewrite Hh; set_solver). mred.
  rewrite (upd_buf_eq _ _ b) by done. mred.
  rewrite (get_buf_eq _ _ (set_b_refcnt (u32 (b_refcnt b - 1)) b))
    by (simpl; by rewrite list_lookup_insert_eq). mred. simpl b_refcnt.
  destruct (u32 (b_refcnt b - 1) =? 0); mred;
    rewrite (release_eq _ _ []) by (simpl; rewrite ?Hh; set_solver);
    destruct s; simpl in *; by subst.
Qed.

(** brelse gives up the lock of a buffer whose contents are safe: pinned by
    the log, or the same as on disk. *)
Lemma brelse_spec dev V L P p pp s blk i :
  fs dev V L P p pp s -> L !! blk = Some i ->
  blk ∈ P \/ V blk = disk_read (k_disk s) blk ->
  returns (brelse i s) (fun _ s' => fs dev V (delete blk L) P p pp s' /\ bio_frame s s').
Proof.
  intros Hfs HL Hsafe. pose proof Hfs as [H Hrun].
  destruct (locked_buffer _ _ _ _ _ _ _ _ H HL) as (b & Hb & Hdv & Hbl & Hv & Hlk & Hd & Hrf & Hfr).
  assert (Hlt := lookup_lt_Some _ _ _ Hb).
  unfold brelse. mred. rewrite (holding_buffer _ _ _ _ _ _ _ _ _ Hfs HL). mred.
  apply returns_obind. eapply returns_mono.
  { apply (releasesleep_spec (SBuf i) (b_lock b) p pp); [done|]. simpl. by rewrite Hb. }
  cbn beta. intros _ s1 [Hf Hrun1]. simpl in Hf. rewrite Hb in Hf.
  set (b1 := set_b_lock (mkSlock false 0) b) in *.
  assert (Hb1 : k_bufs s1 !! i = Some b1).
  { rewrite Hf. simpl. by rewrite list_lookup_insert_eq. }
  eapply returns_ret; [exact (brelse_unref s1 i b1 p pp Hrun1 Hb1)|].
  set (b2 := set_b_refcnt (u32 (b_refcnt b1 - 1)) b1).
  assert (Hr : u32 (b_refcnt b1 - 1) = refs (delete blk L) P blk).
  { rewrite (refs_unlocked _ _ _ i HL). simpl. rewrite Hrf. unfold u32.
    assert (1 <= refs L P blk).
    { unfold refs. rewrite decide_True by (apply elem_of_dom; eauto). case_decide; lia. }
    pose proof (refs_bounds L P blk). rewrite Z.mod_small by lia. done. }
  split.
  2:{ unfold bio_frame. rewrite Hf. by destruct s. }
  split; [|by apply (running_ext _ _ _ s1)].
  eapply (bc_update _ V V L (delete blk L) P P _ s i b b2); [done|].
  constructor; simpl; rewrite ?Hbl; try done.
  - rewrite Hf. simpl. by rewrite list_insert_insert_eq.
  - assert (k_lru s1 = k_lru s) as -> by (by rewrite Hf).
    destruct (_ =? 0); [|done]. apply move_to_front_perm.
    + rewrite (bc_lru _ _ _ _ _ _ H). apply NoDup_seq.
    + apply (bc_lru_ok _ _ _ _ _ _ H). eauto.
  - by eapply H.
  - by left.
  - intros blk' Hne. rewrite lookup_delete_ne by done. by rewrite Hf.
  - rewrite Hf. apply H.
  - by rewrite lookup_delete_eq.
  - intros _ Hn. rewrite Hf. by destruct Hsafe.
Qed.

(** bpin and bunpin as one step: the reference count changes by [d]. *)
Lemma bpin_step s i b d (h : list lockid) :
  k_held s = h -> LBcache ∉ h -> k_bufs s !! i = Some b ->
  (acquire LBcache;; upd_buf i (fun b => set_b_refcnt (u32 (b_refcnt b + d)) b);;
   release LBcache) s =
  Ret tt (set_k_bufs (<[i := set_b_refcnt (u32 (b_refcnt b + d)) b]> (k_bufs s)) s).
Proof.
  intros <- Hn Hb. mred. rewrite acquire_eq by done. mred. rewrite (upd_buf_eq _ _ b) by done. mred.
  rewrite (release_eq _ _ (k_held s)) by done. by destruct s.
Qed.

Lemma bc_repin dev V L P P' pid s i b blk r :
  bc dev V L P pid s -> L !! blk = Some i -> k_bufs s !! i = Some b ->
  (forall blk', blk' <> blk -> blk' ∈ P' <-> blk' ∈ P) -> r = refs L P' blk ->
  bc dev V L P' pid (set_k_bufs (<[i := set_b_refcnt r b]> (k_bufs s)) s).
Proof.
  intros H HL Hb HP ->.
  destruct (locked_buffer _ _ _ _ _ _ _ _ H HL) as (b0 & Hb0 & Hdv & Hbl & Hv & Hlk & Hd & Hrf & Hfr).
  assert (b0 = b) as -> by congruence.
  eapply (bc_update _ V V L L P P' _ s i b (set_b_refcnt (refs L P' blk) b)); [done|].
  constructor; simpl; rewrite ?Hbl; try done.
  - by eapply H.
  - by left.
  - intros blk' Hne. split_and!; try done; by apply HP.
  - apply H.
  - by rewrite HL.
  - intros Hn. exfalso. apply Hn, elem_of_dom. eauto.
Qed.

Lemma bpin_spec dev V L P p pp h s blk i :
  bc dev V L P (p_pid pp) s -> running p pp h s -> LBcache ∉ h ->
  L !! blk = Some i -> blk ∉ P ->
  returns (bpin i s) (fun _ s' =>
    bc dev V L ({[blk]} ∪ P) (p_pid pp) s' /\ running p pp h s' /\ bio_frame s s').
Proof.
  intros H Hrun Hh HL HP.
  destruct (locked_buffer _ _ _ _ _ _ _ _ H HL) as (b & Hb & _ & _ & _ & _ & _ & Hrf & _).
  eapply returns_ret; [eapply (bpin_step s i b 1 h); try done; by eapply run_held|].
  split_and!; [|by apply (running_ext _ _ _ s)|by destruct s].
  eapply bc_repin; try done; [set_solver|]. rewrite Hrf.
  unfold refs. rewrite (decide_False (P := blk ∈ P)), (decide_True (P := blk ∈ {[blk]} ∪ P)) by set_solver.
  unfold u32. rewrite Z.mod_small; case_decide; lia.
Qed.

Lemma bunpin_spec dev V L P p pp h s blk i :
  bc dev V L P (p_pid pp) s -> running p pp h s -> LBcache ∉ h ->
  L !! blk = Some i -> blk ∈ P ->
  returns (bunpin i s) (fun _ s' =>
    bc dev V L (P ∖ {[blk]}) (p_pid pp) s' /\ running p pp h s' /\ bio_frame s s').
Proof.
  intros H Hrun Hh HL HP.
  destruct (locked_buffer _ _ _ _ _ _ _ _ H HL) as (b & Hb & _ & _ & _ & _ & _ & Hrf & _).
  eapply returns_ret; [eapply (bpin_step s i b (-1) h); try done; by eapply run_held|].
  split_and!; [|by apply (running_ext _ _ _ s)|by destruct s].
  eapply bc_repin; try done; [set_solver|]. rewrite Hrf.
  unfold refs. rewrite (decide_True (P := blk ∈ P)), (decide_False (P := blk ∈ P ∖ {[blk]})) by set_solver.
  unfold u32. rewrite Z.mod_small; case_decide; lia.
Qed.

(** ** A fresh cache *)

(** A cache no block has been read into represents the disk. *)
Lemma bc_fresh dev pid s :
  dev <> 0 -> length (k_bufs s) = NBUF -> k_lru s ≡ₚ seq 0 NBUF ->
  Forall (fun b => b_dev b = 0 /\ b_refcnt b = 0 /\ sl_locked (b_lock b) = false /\
                 length (b_data b) = Z.to_nat BSIZE) (k_bufs s) ->
  map_Forall (fun _ bs => length bs = Z.to_nat BSIZE) (k_disk s) ->
  bc dev (disk_read (k_disk s)) ∅ ∅ pid s.
Proof.
  intros Hd Hl Hlru Hb Hk. rewrite Forall_lookup in Hb.
  assert (Hno : forall i b blk, ~ caches s dev i b blk).
  { intros i b blk (Hi & Hdev & _). destruct (Hb _ _ Hi) as [? _]. congruence. }
  constructor; try done.
  - intros i b Hi. by apply (Hb i).
  - intros i b Hi _. by destruct (Hb _ _ Hi) as (? & ? & ? & _).
  - intros i j b b' blk Hc. by apply Hno in Hc.
  - intros i b blk Hc. by apply Hno in Hc.
  - intros i b blk Hc. by apply Hno in Hc.
  - intros i b blk Hc. by apply Hno in Hc.
Qed.

(** ** What the users of the cache rely on *)

(** C6. bread(dev, blockno) returns a buffer for that block, locked by the caller,
    valid, with the block's current contents, whether the block was cached or
    had to be read; no block's contents and no other lock or pin changes, and
    nothing is written to disk. *)
Theorem bread_returns_contents dev V L P p pp s blk :
  fs dev V L P p pp s -> L !! blk = None -> blk ∈ P \/ (size (dom L ∪ P) < NBUF)%nat ->
  returns (bread dev blk s) (fun i s' =>
    (exists b, k_bufs s' !! i = Some b /\ b_dev b = dev /\ b_blockno b = blk /\ b_valid b = true /\
       b_lock b = mkSlock true (p_pid pp) /\ b_data b = V blk) /\
    fs dev V (<[blk := i]> L) P p pp s' /\ k_disk s' = k_disk s /\ k_dtrace s' = k_dtrace s).
Proof.
  intros Hfs HL Hroom. eapply returns_mono; [by eapply bread_spec|].
  cbn beta. intros i s' [Hfs' F]. pose proof Hfs' as [Hbc' _].
  split_and!; [|done|by rewrite F|by rewrite F].
  destruct (locked_buffer _ _ _ _ _ _ _ _ Hbc' (lookup_insert_eq L blk i)) as (b & Hb & H). exists b. naive_solver.
Qed.

(** When the block is not cached, bget recycles the unreferenced buffer that
    comes last in the list, the least recently used one, and panics exactly
    when there is none. *)
Theorem bget_recycles_lru dev blk s p pp :
  running p pp [] s -> (forall i, i ∈ k_lru s -> is_Some (k_bufs s !! i)) ->
  (forall i b, k_bufs s !! i = Some b -> b_refcnt b = 0 -> sl_locked (b_lock b) = false) ->
  (forall i b, k_bufs s !! i = Some b -> ~ (b_dev b = dev /\ b_blockno b = blk)) ->
  match List.find (is_free s) (rev (k_lru s)) with
  | Some i => returns (bget dev blk s) (fun r s' => r = i /\
      exists b, k_bufs s' !! i = Some b /\ b_dev b = dev /\ b_blockno b = blk /\
        b_valid b = false /\ b_refcnt b = 1 /\
        (forall j, j <> i -> k_bufs s' !! j = k_bufs s !! j) /\ k_lru s' = k_lru s)
  | None => bget dev blk s = Panic "bget: no buffers"
  end.
Proof.
  intros Hrun Hlru Hfree Hmiss.
  assert (Hn : List.find (is_block s dev blk) (k_lru s) = None).
  { destruct (List.find _ _) as [i|] eqn:Hf; [|done].
    pose proof (find_some_elem _ _ _ Hf) as [Hi Ht]. destruct (Hlru i Hi) as [b Hb].
    rewrite (is_block_get _ _ _ _ _ Hb) in Ht. apply andb_true_iff in Ht as [H1 H2].
    apply Z.eqb_eq in H1, H2. by destruct (Hmiss i b Hb). }
  destruct (List.find (is_free s) (rev (k_lru s))) as [i|] eqn:Hf; [|by eapply bget_full].
  pose proof (find_some_elem _ _ _ Hf) as [Hi Ht]. apply (elem_of_rev (k_lru s)) in Hi.
  destruct (Hlru i Hi) as [b Hb]. rewrite (is_free_get _ _ _ Hb) in Ht. apply Z.eqb_eq in Ht.
  rewrite (bget_miss dev blk s p pp Hrun Hlru i b); try done; [|by eapply Hfree].
  simpl. split; [done|]. rewrite list_lookup_insert_eq by (by eapply lookup_lt_Some).
  eexists. split_and!; try done. intros j Hj. by rewrite list_lookup_insert_ne.
Qed.
