(* ===== verification/DiskDriver.v ===== *)
(** * The disk driver: descriptors, requests and their completion

    [vq_wf v cs]: the descriptors in use are exactly those of the chains [cs],
    each chain linked as virtio_disk_rw links it, and the free ones are clear.
    A request takes three descriptors or none, is published with the command
    the caller asked for, and whatever runs while the driver sleeps, it
    returns only when its buffer has been served, with exactly its own
    descriptors freed. *)

From S2P Require Import Prelude State Spinlock CString Usercopy Kalloc Pages Proc ReadyQueue Sleeplock Sleeping Bio BufferCache Virtio.

(** ** Kernel steps of the driver *)

Lemma lift_Ret {A} (m : K A) s v a s' : m s = Ret a s' -> lift m (mkV s v) = Ret a (mkV s' v).
Proof. intros H. unfold lift. simpl. by rewrite H. Qed.

Lemma returns_lift {A} (m : K A) s v Q :
  returns (m s) Q -> returns (lift m (mkV s v)) (fun a v' => Q a (v_k v') /\ v_d v' = v).
Proof. unfold lift. simpl. destruct (m s); simpl; try done. Qed.

Lemma get_desc_eq s v i d : v_desc v !! i = Some d -> get_desc i (mkV s v) = Ret d (mkV s v).
Proof. intros H. unfold get_desc, getd. mred. simpl. by rewrite H. Qed.

Lemma upd_desc_eq s v i d f :
  v_desc v !! i = Some d -> upd_desc i f (mkV s v) = Ret tt (mkV s (set_v_desc (<[i := f d]> (v_desc v)) v)).
Proof. intros H. unfold upd_desc. mred. by rewrite (get_desc_eq _ _ _ _ H). Qed.

(** Two assignments to fields of one descriptor. *)
Lemma upd_desc_twice {A} i f g (k : M vstate A) v :
  (upd_desc i f;; upd_desc i g;; k) v = (upd_desc i (g ∘ f);; k) v.
Proof.
  destruct v as [s v]. destruct (v_desc v !! i) as [d|] eqn:E.
  - mred. rewrite !(upd_desc_eq _ _ _ d) by done. mred.
    rewrite (upd_desc_eq _ _ _ (f d)).
    + mred. unfold set_v_desc at 1. simpl. rewrite list_insert_insert_eq. done.
    + simpl. rewrite list_lookup_insert_eq; [done|]. by eapply lookup_lt_Some.
  - unfold upd_desc, get_desc, getd. mred. simpl. by rewrite E.
Qed.

Lemma upd_desc_twice_end i f g v : (upd_desc i f;; upd_desc i g) v = upd_desc i (g ∘ f) v.
Proof.
  destruct v as [s v]. destruct (v_desc v !! i) as [d|] eqn:E.
  - mred. rewrite !(upd_desc_eq _ _ _ d) by done. mred. rewrite (upd_desc_eq _ _ _ (f d)).
    + unfold set_v_desc at 1. simpl. rewrite list_insert_insert_eq. done.
    + simpl. rewrite list_lookup_insert_eq; [done|]. by eapply lookup_lt_Some.
  - unfold upd_desc, get_desc, getd. mred. simpl. by rewrite E.
Qed.

Lemma upd_desc_bind {A} s v i d f (k : M vstate A) :
  v_desc v !! i = Some d -> (upd_desc i f;; k) (mkV s v) = k (mkV s (set_v_desc (<[i := f d]> (v_desc v)) v)).
Proof. intros H. mred. by rewrite (upd_desc_eq _ _ _ _ _ H). Qed.

Lemma modd_bind {A} s v f (k : M vstate A) : (modd f;; k) (mkV s v) = k (mkV s (f v)).
Proof. done. Qed.

Lemma set_free_eq s v i x :
  (i < length (v_free v))%nat -> set_free i x (mkV s v) = Ret tt (mkV s (set_v_free (<[i := x]> (v_free v)) v)).
Proof.
  intros Hi. destruct (lookup_lt_is_Some_2 _ _ Hi) as [y Hy]. unfold set_free, get_free, getd. mred. simpl. by rewrite Hy.
Qed.

Lemma upd_info_eq s v i x f :
  v_info v !! i = Some x -> upd_info i f (mkV s v) = Ret tt (mkV s (set_v_info (<[i := f x]> (v_info v)) v)).
Proof. intros H. unfold upd_info, get_info, getd. mred. simpl. by rewrite H. Qed.

Lemma upd_info_bind {A} s v i x f (k : M vstate A) :
  v_info v !! i = Some x -> (upd_info i f;; k) (mkV s v) = k (mkV s (set_v_info (<[i := f x]> (v_info v)) v)).
Proof. intros H. mred. by rewrite (upd_info_eq _ _ _ _ _ H). Qed.

(** ** Chains *)

Definition chain : Type := nat * nat * nat.
Definition members (c : chain) : list nat := [c.1.1; c.1.2; c.2].
Definition in_use (cs : list chain) : list nat := concat (members <$> cs).

Lemma elem_of_in_use c cs j : c ∈ cs -> j ∈ members c -> j ∈ in_use cs.
Proof.
  intros Hc Hj. apply list_elem_of_In, in_concat. exists (members c).
  split; [apply list_elem_of_In; by apply list_elem_of_fmap_2|by apply list_elem_of_In].
Qed.

(** The descriptors of a chain, as virtio_disk_rw links them. *)
Definition linked (ds : list virtq_desc) (c : chain) : Prop :=
  exists d0 d1 d2, ds !! c.1.1 = Some d0 /\ ds !! c.1.2 = Some d1 /\ ds !! c.2 = Some d2 /\
    Z.land (d_flags d0) VRING_DESC_F_NEXT <> 0 /\ d_next d0 = Z.of_nat c.1.2 /\
    Z.land (d_flags d1) VRING_DESC_F_NEXT <> 0 /\ d_next d1 = Z.of_nat c.2 /\
    Z.land (d_flags d2) VRING_DESC_F_NEXT = 0.

(** The free map when the descriptors [U] are in use. *)
Definition free_map (U : list nat) : list bool := (fun i => bool_decide (i ∉ U)) <$> seq 0 NUM.

(** The descriptors [U] are in use, among them those of the chains [cs]. *)
Record vq_use (v : vdisk) (U : list nat) (cs : list chain) : Prop := {
  vq_desc : length (v_desc v) = NUM;
  vq_info : length (v_info v) = NUM;
  vq_ops : length (v_ops v) = NUM;
  vq_ring : length (av_ring (v_avail v)) = NUM;
  vq_avail : 0 <= av_idx (v_avail v) < 2 ^ 16;
  vq_nodup : NoDup U;
  vq_range i : i ∈ U -> (i < NUM)%nat;
  vq_free : v_free v = free_map U;
  vq_clear i : (i < NUM)%nat -> i ∉ U -> v_desc v !! i = Some zero_desc;
  vq_linked c : c ∈ cs -> linked (v_desc v) c;
  vq_chains i : i ∈ in_use cs -> i ∈ U;
}.

Definition vq_wf (v : vdisk) (cs : list chain) : Prop := vq_use v (in_use cs) cs.

Lemma free_map_lookup U i : (i < NUM)%nat -> free_map U !! i = Some (bool_decide (i ∉ U)).
Proof. intros Hi. unfold free_map. by rewrite list_lookup_fmap, lookup_seq_lt. Qed.

Lemma length_free_map U : length (free_map U) = NUM.
Proof. reflexivity. Qed.

Lemma free_map_insert U U' i x :
  (i < NUM)%nat -> x = bool_decide (i ∉ U') -> (forall j, j <> i -> j ∈ U <-> j ∈ U') ->
  <[i := x]> (free_map U) = free_map U'.
Proof.
  intros Hi -> Hj. apply list_eq. intros j. destruct (decide (j < NUM)%nat) as [Hlt|Hge].
  - rewrite (free_map_lookup U') by done. destruct (decide (j = i)) as [->|Hne].
    + by rewrite list_lookup_insert_eq.
    + rewrite list_lookup_insert_ne, free_map_lookup by done. f_equal. apply bool_decide_ext. by rewrite Hj.
  - rewrite !lookup_ge_None_2; [done|..]; rewrite ?length_insert, length_free_map; lia.
Qed.

(** ** alloc_desc and free_desc on the map of free descriptors *)

(** The first free descriptor. *)
Definition first_free (fr : list bool) : option nat := fst <$> list_find (eq true) fr.

Lemma alloc_desc_eq s v :
  length (v_free v) = NUM ->
  alloc_desc (mkV s v) =
    match first_free (v_free v) with
    | Some i => Ret (Z.of_nat i) (mkV s (set_v_free (<[i := false]> (v_free v)) v))
    | None => Ret (-1) (mkV s v)
    end.
Proof.
  intros Hl. destruct v as [ds av us fr ui inf ops rg]. simpl in *.
  do 8 (destruct fr as [|[] fr]; try discriminate Hl; try reflexivity).
  destruct fr; [|discriminate Hl]. reflexivity.
Qed.

Lemma first_free_Some U i :
  first_free (free_map U) = Some i -> (i < NUM)%nat /\ i ∉ U /\ forall j, (j < i)%nat -> j ∈ U.
Proof.
  unfold first_free. destruct (list_find _ _) as [[j x]|] eqn:E; [|done]. simpl. intros [= <-].
  apply list_find_Some in E as (Hj & Hx & Hlt). subst x.
  assert (HN : (j < NUM)%nat) by (apply lookup_lt_Some in Hj; by rewrite length_free_map in Hj).
  rewrite free_map_lookup in Hj by done. injection Hj as Hj. split_and!; [done|by apply bool_decide_eq_true in Hj|].
  intros k Hk. destruct (decide (k ∈ U)) as [|Hn]; [done|]. exfalso.
  apply (Hlt k true); [|done|done]. rewrite free_map_lookup by lia. by rewrite bool_decide_eq_true_2.
Qed.

Lemma first_free_None U : first_free (free_map U) = None -> (NUM <= length U)%nat.
Proof.
  unfold first_free. destruct (list_find _ _) as [[j x]|] eqn:E; [done|]. intros _.
  apply list_find_None in E. rewrite Forall_forall in E.
  change NUM with (length (seq 0 NUM)). apply submseteq_length, NoDup_submseteq; [apply NoDup_seq|].
  intros i Hi%elem_of_seq. destruct (decide (i ∈ U)) as [|Hn]; [done|]. exfalso. apply (E true); [|done].
  apply list_elem_of_lookup. exists i. rewrite free_map_lookup by lia. by rewrite bool_decide_eq_true_2.
Qed.

(** alloc_desc takes the lowest free descriptor. *)
Lemma alloc_desc_spec s v U cs :
  vq_use v U cs ->
  match first_free (free_map U) with
  | Some i => let v' := set_v_free (<[i := false]> (v_free v)) v in
      alloc_desc (mkV s v) = Ret (Z.of_nat i) (mkV s v') /\ (i < NUM)%nat /\ i ∉ U /\ vq_use v' (i :: U) cs
  | None => alloc_desc (mkV s v) = Ret (-1) (mkV s v) /\ (NUM <= length U)%nat
  end.
Proof.
  intros Hwf. pose proof Hwf as [Hd Hi Ho Hr Ha Hnd Hrg Hf Hc Hl Hch].
  pose proof (alloc_desc_eq s v) as E. rewrite Hf, length_free_map in E. specialize (E eq_refl).
  destruct (first_free (free_map U)) as [i|] eqn:Hff; [|split; [done|by apply first_free_None]].
  destruct (first_free_Some _ _ Hff) as (Hlt & Hn & _). cbv zeta. rewrite Hf. split; [done|]. split; [done|]. split; [done|].
  constructor; try done; simpl.
  - by constructor.
  - intros j [->|Hj]%elem_of_cons; [done|by apply Hrg].
  - apply free_map_insert; [done| |].
    + rewrite bool_decide_eq_false_2; [done|]. intros H. apply H. by left.
    + intros j Hj. rewrite elem_of_cons. naive_solver.
  - intros j Hj Hnj. apply Hc; [done|]. intros Hin. apply Hnj. by right.
  - intros j Hj. right. by apply Hch.
Qed.

(** free_desc of a descriptor that belongs to no chain. *)
Definition freed (i : nat) (v : vdisk) : vdisk :=
  set_v_free (<[i := true]> (v_free v)) (set_v_desc (<[i := zero_desc]> (v_desc v)) v).

Lemma vq_use_freed v i U cs : vq_use v (i :: U) cs -> i ∉ in_use cs -> vq_use (freed i v) U cs.
Proof.
  intros [Hd Hi Ho Hr Ha Hnd Hrg Hf Hc Hl Hch] Hn. apply NoDup_cons in Hnd as [Hni Hnd].
  assert (Hlt : (i < NUM)%nat) by (apply Hrg; by left).
  constructor; try done; simpl.
  - by rewrite length_insert.
  - intros j Hj. apply Hrg. by right.
  - rewrite Hf. apply free_map_insert; [done|by rewrite bool_decide_eq_true_2|].
    intros j Hj. rewrite elem_of_cons. naive_solver.
  - intros j Hj Hnj. destruct (decide (j = i)) as [->|Hne]; [by rewrite list_lookup_insert_eq by (by rewrite Hd)|].
    rewrite list_lookup_insert_ne by done. apply Hc; [done|]. rewrite elem_of_cons. naive_solver.
  - intros c Hc'. destruct (Hl c Hc') as (d0 & d1 & d2 & H0 & H1 & H2 & Hrest). exists d0, d1, d2.
    assert (Hin : forall j, j ∈ members c -> j <> i).
    { intros j Hj ->. apply Hn. by eapply elem_of_in_use. }
    rewrite !list_lookup_insert_ne; [done|..]; symmetry; apply Hin; unfold members; set_solver.
  - intros j Hj. specialize (Hch j Hj). apply elem_of_cons in Hch as [->|]; done.
Qed.

Lemma free_desc_spec s v i U cs p pp :
  vq_use v (i :: U) cs -> i ∉ in_use cs -> running p pp [LDisk] s ->
  returns (free_desc (Z.of_nat i) (mkV s v)) (fun _ v' =>
    v_d v' = freed i v /\ sched_frame s (v_k v') /\ running p pp [LDisk] (v_k v')).
Proof.
  intros Hwf Hn Hrun. pose proof (vq_range _ _ _ Hwf i ltac:(by left)) as Hlt.
  unfold free_desc. rewrite (proj2 (Z.leb_gt _ _)) by lia. rewrite (proj2 (Z.ltb_ge _ _)) by lia. rewrite Nat2Z.id.
  assert (Hfr : v_free v !! i = Some false).
  { rewrite (vq_free _ _ _ Hwf), free_map_lookup by done. rewrite bool_decide_eq_false_2; [done|]. intros H. apply H. by left. }
  destruct (lookup_lt_is_Some_2 (v_desc v) i) as [d Hd]; [by rewrite (vq_desc _ _ _ Hwf)|].
  unfold get_free, getd at 1. mred. simpl. rewrite Hfr. mred.
  change (returns ((upd_desc i (set_d_addr ANull);; upd_desc i (set_d_len 0);; upd_desc i (set_d_flags 0);;
    upd_desc i (set_d_next 0);; set_free i true;; lift (wakeup ChDisk)) (mkV s v)) (fun _ v' =>
    v_d v' = freed i v /\ sched_frame s (v_k v') /\ running p pp [LDisk] (v_k v'))).
  rewrite !upd_desc_twice. mred. rewrite (upd_desc_eq _ _ _ _ _ Hd). mred.
  rewrite set_free_eq by (simpl; rewrite (vq_free _ _ _ Hwf), length_free_map; done). mred.
  eapply returns_mono; [apply returns_lift, (wakeup_running s ChDisk p pp [LDisk]); [done|set_solver|set_solver]|].
  cbn beta. intros _ v' [[F Hr] ->]. done.
Qed.

(** Allocating and freeing again changes nothing. *)
Lemma freed_alloc v i U cs :
  vq_use v U cs -> (i < NUM)%nat -> i ∉ U -> freed i (set_v_free (<[i := false]> (v_free v)) v) = v.
Proof.
  intros Hwf Hi Hn. unfold freed, set_v_free, set_v_desc. simpl. rewrite list_insert_insert_eq.
  rewrite !list_insert_id; [by destruct v|..].
  - rewrite (vq_free _ _ _ Hwf), free_map_lookup by done. by rewrite bool_decide_eq_true_2.
  - by apply (vq_clear _ _ _ Hwf).
Qed.

Lemma freed_comm v i j : i <> j -> freed i (freed j v) = freed j (freed i v).
Proof.
  intros Hne. unfold freed, set_v_free, set_v_desc. simpl.
  by rewrite (list_insert_insert_ne (v_free v) i j), (list_insert_insert_ne (v_desc v) i j) by done.
Qed.

Lemma vq_use_perm v U U' cs : U ≡ₚ U' -> vq_use v U cs -> vq_use v U' cs.
Proof.
  intros HP [? ? ? ? ? Hnd Hrg Hf Hc Hl Hch]. assert (HU : forall x, x ∈ U <-> x ∈ U') by (intros; by rewrite HP).
  constructor; try done.
  - by rewrite <- HP.
  - intros x Hx. apply Hrg. by apply HU.
  - rewrite Hf. unfold free_map. apply list_fmap_ext. intros _ x _. apply bool_decide_ext. by rewrite HU.
  - intros x Hx Hnx. apply Hc; [done|]. by rewrite HU.
  - intros x Hx. apply HU. by apply Hch.
Qed.

Lemma sched_frame_refl s : sched_frame s s.
Proof. unfold sched_frame. by destruct s. Qed.
(** alloc3_desc is all or nothing: it takes three free descriptors, or, when
    fewer are free, leaves the driver's state exactly as it was. *)
Lemma alloc3_desc_spec s v U cs p pp :
  vq_use v U cs -> running p pp [LDisk] s ->
  returns (alloc3_desc (mkV s v)) (fun r v' =>
    sched_frame s (v_k v') /\ running p pp [LDisk] (v_k v') /\
    match r with
    | Some (a, b, c) => exists i j k, a = Z.of_nat i /\ b = Z.of_nat j /\ c = Z.of_nat k /\
        NoDup [i; j; k] /\ i ∉ U /\ j ∉ U /\ k ∉ U /\
        v_d v' = set_v_free (free_map (k :: j :: i :: U)) v /\ vq_use (v_d v') (k :: j :: i :: U) cs
    | None => v_d v' = v /\ (NUM < length U + 3)%nat
    end).
Proof.
  intros Hwf Hrun. unfold alloc3_desc. mred. pose proof (alloc_desc_spec s v U cs Hwf) as H0.
  destruct (first_free (free_map U)) as [i|]; cycle 1.
  { destruct H0 as [-> Hlen]. mred. change (-1 <? 0) with true. mred.
    split_and!; [apply sched_frame_refl|done|done|lia]. }
  destruct H0 as (-> & Hi & Hni & Hwf0). set (v0 := set_v_free _ v) in *. mred. rewrite (proj2 (Z.ltb_ge _ _)) by lia.
  assert (Hunused : forall x, x ∉ U -> x ∉ in_use cs) by (intros x Hx Hin; by apply Hx, (vq_chains _ _ _ Hwf)).
  pose proof (alloc_desc_spec s v0 _ cs Hwf0) as H1. mred.
  destruct (first_free (free_map (i :: U))) as [j|]; cycle 1.
  { destruct H1 as [-> Hlen]. mred. change (-1 <? 0) with true. mred.
    mspec (free_desc_spec s v0 i U cs p pp); [done|by apply Hunused|done|].
    cbn beta. intros _ v' (Hd & F & Hr). mred. split_and!; [done|done| |simpl in *; lia]. rewrite Hd. by eapply freed_alloc. }
  destruct H1 as (-> & Hj & Hnj & Hwf1). set (v1 := set_v_free _ v0) in *. mred. rewrite (proj2 (Z.ltb_ge _ _)) by lia.
  pose proof (alloc_desc_spec s v1 _ cs Hwf1) as H2. apply not_elem_of_cons in Hnj as [Hji HnjU]. mred.
  destruct (first_free (free_map (j :: i :: U))) as [k|]; cycle 1.
  { destruct H2 as [-> Hlen]. mred. change (-1 <? 0) with true. mred.
    assert (Hswap : vq_use v1 (i :: j :: U) cs).
    { eapply vq_use_perm; [apply perm_swap|done]. }
    mspec (free_desc_spec s v1 i (j :: U) cs p pp); [done|by apply Hunused|done|].
    cbn beta. intros _ [s2 v2] (Hd & F & Hr). simpl in *. subst v2.
    pose proof (vq_use_freed _ _ _ _ Hswap (Hunused _ Hni)) as Hwf2.
    mspec (free_desc_spec s2 (freed i v1) j U cs p pp); [done|by apply Hunused|done|].
    cbn beta. intros _ v' (Hd & F' & Hr'). mred. split_and!; [by eapply sched_frame_trans|done| |simpl in *; lia].
    rewrite Hd, freed_comm by done. change v1 with (set_v_free (<[j := false]> (v_free v0)) v0).
    rewrite (freed_alloc v0 j (i :: U) cs) by (done || set_solver). by apply (freed_alloc v i U cs). }
  destruct H2 as (-> & Hk & Hnk & Hwf2). mred. rewrite (proj2 (Z.ltb_ge _ _)) by lia. mred.
  rewrite !not_elem_of_cons in Hnk. split_and!; [apply sched_frame_refl|done|].
  exists i, j, k. split_and!; try done.
  - repeat constructor; set_solver.
  - tauto.
  - simpl. rewrite <- (vq_free _ _ _ Hwf2). done.
Qed.

(** free_chain frees the descriptors of the chain, in order. *)
Lemma free_chain_step s v i U cs p pp d :
  vq_use v (i :: U) cs -> i ∉ in_use cs -> running p pp [LDisk] s -> v_desc v !! i = Some d ->
  returns (free_chain_body (Z.of_nat i) (mkV s v))
    (fun r v' => r = (if Z.land (d_flags d) VRING_DESC_F_NEXT =? 0 then inr tt else inl (d_next d)) /\
      v_d v' = freed i v /\ sched_frame s (v_k v') /\ running p pp [LDisk] (v_k v')).
Proof.
  intros Hwf Hn Hrun Hd. unfold free_chain_body. rewrite (proj2 (Z.ltb_ge _ _)) by lia. rewrite Nat2Z.id. mred.
  rewrite (get_desc_eq _ _ _ _ Hd). mred. mspec (free_desc_spec s v i U cs p pp); [done..|].
  cbn beta. intros _ v' (Hd' & F & Hr). by destruct (Z.land _ _ =? 0).
Qed.

Lemma free_chain_spec s v c0 c1 c2 cs p pp :
  vq_wf v ((c0, c1, c2) :: cs) -> running p pp [LDisk] s ->
  returns (free_chain (Z.of_nat c0) (mkV s v)) (fun _ v' =>
    vq_wf (v_d v') cs /\ v_d v' = freed c2 (freed c1 (freed c0 v)) /\
    sched_frame s (v_k v') /\ running p pp [LDisk] (v_k v')).
Proof.
  intros Hwf Hrun. destruct (vq_linked _ _ _ Hwf (c0, c1, c2) ltac:(by left))
    as (d0 & d1 & d2 & H0 & H1 & H2 & Hf0 & Hn0 & Hf1 & Hn1 & Hf2). simpl in *.
  assert (Hwf' : vq_use v (c0 :: c1 :: c2 :: in_use cs) cs).
  { destruct Hwf as [? ? ? ? ? ? ? ? ? Hl Hch]. constructor; try done; [intros c Hc; apply Hl; by right|].
    intros i Hi. do 3 right. done. }
  pose proof (vq_nodup _ _ _ Hwf') as Hnd. rewrite !NoDup_cons, !elem_of_cons in Hnd.
  destruct Hnd as (Hx0 & Hx1 & Hx2 & _).
  assert (Hw1 : vq_use (freed c0 v) (c1 :: c2 :: in_use cs) cs) by (apply vq_use_freed; [done|tauto]).
  assert (Hw2 : vq_use (freed c1 (freed c0 v)) (c2 :: in_use cs) cs) by (apply vq_use_freed; [done|tauto]).
  unfold free_chain. cbn [loop NUM Nat.add]. apply returns_obind.
  eapply returns_mono; [eapply (free_chain_step s v c0 _ cs p pp d0); [done|tauto|done|done]|].
  cbn beta. intros r [s1 v1] (-> & Hd & F1 & Hr1). simpl in Hd, F1, Hr1. subst v1.
  rewrite (proj2 (Z.eqb_neq _ _) Hf0), Hn0. apply returns_obind.
  eapply returns_mono; [eapply (free_chain_step s1 _ c1 _ cs p pp d1); [done|tauto|done|]|].
  { simpl. rewrite list_lookup_insert_ne; [done|]. intros ->. tauto. }
  cbn beta. intros r [s2 v2] (-> & Hd & F2 & Hr2). simpl in Hd, F2, Hr2. subst v2.
  rewrite (proj2 (Z.eqb_neq _ _) Hf1), Hn1. apply returns_obind.
  eapply returns_mono; [eapply (free_chain_step s2 _ c2 (in_use cs) cs p pp d2); [done|tauto|done|]|].
  { simpl. rewrite !list_lookup_insert_ne; [done|..]; intros ->; tauto. }
  cbn beta. intros r [s3 v3] (-> & Hd & F3 & Hr3). simpl in Hd, F3, Hr3. subst v3.
  rewrite (proj2 (Z.eqb_eq _ _) Hf2). simpl. split_and!; [|done| |done].
  - by apply vq_use_freed; [|tauto].
  - eapply sched_frame_trans; [exact F1|]. by eapply sched_frame_trans.
Qed.

(** ** Requests *)

(** What the device reads from the chain that starts at descriptor [h]: the
    command, the sector, the buffer, and where the status goes. *)
Definition request (v : vdisk) (h : nat) : option (bool * Z * nat) :=
  d0 ← v_desc v !! h;
  d1 ← v_desc v !! Z.to_nat (d_next d0);
  d2 ← v_desc v !! Z.to_nat (d_next d1);
  match d_addr d0, d_addr d1, d_addr d2 with
  | AOps o, AData b, AStatus st =>
      r ← v_ops v !! o;
      if bool_decide (st = h) && (d_len d1 =? BSIZE) && (d_len d2 =? 1) &&
         Bool.eqb (negb (Z.land (d_flags d1) VRING_DESC_F_WRITE =? 0)) (br_type r =? VIRTIO_BLK_T_IN)
      then Some (br_type r =? VIRTIO_BLK_T_OUT, br_sector r, b) else None
  | _, _, _ => None
  end.

(** The descriptors format_request writes. *)
Definition header_desc (h i : nat) : virtq_desc := mkDesc (AOps h) SIZEOF_BLK_REQ VRING_DESC_F_NEXT (Z.of_nat i).
Definition data_desc (b : nat) (w : bool) (k : nat) : virtq_desc :=
  mkDesc (AData b) BSIZE (Z.lor (if w then 0 else VRING_DESC_F_WRITE) VRING_DESC_F_NEXT) (Z.of_nat k).
Definition status_desc (h : nat) : virtq_desc := mkDesc (AStatus h) 1 VRING_DESC_F_WRITE 0.

Definition formatted (b : nat) (w : bool) (sector : Z) (h i k : nat) (v : vdisk) : vdisk :=
  mkVdisk (<[k := status_desc h]> (<[i := data_desc b w k]> (<[h := header_desc h i]> (v_desc v))))
    (v_avail v) (v_used v) (v_free v) (v_used_idx v)
    (match v_info v !! h with Some x => <[h := mkInfo (in_b x) 0xff]> (v_info v) | None => v_info v end)
    (<[h := mkReq (if w then VIRTIO_BLK_T_OUT else VIRTIO_BLK_T_IN) 0 sector]> (v_ops v)) (v_regs v).

Lemma format_request_eq b w sector h i k s v :
  length (v_desc v) = NUM -> length (v_info v) = NUM -> NoDup [h; i; k] ->
  (h < NUM)%nat -> (i < NUM)%nat -> (k < NUM)%nat ->
  format_request b w sector h i k (mkV s v) = Ret tt (mkV s (formatted b w sector h i k v)).
Proof.
  intros Hd Hi Hnd Hh Hii Hk. rewrite !NoDup_cons, !not_elem_of_cons in Hnd. destruct Hnd as ((H1 & H2 & _) & (H3 & _) & _).
  destruct (lookup_lt_is_Some_2 (v_info v) h) as [x Hx]; [by rewrite Hi|].
  destruct (lookup_lt_is_Some_2 (v_desc v) h) as [d0 Hd0]; [by rewrite Hd|].
  destruct (lookup_lt_is_Some_2 (v_desc v) i) as [d1 Hd1]; [by rewrite Hd|].
  destruct (lookup_lt_is_Some_2 (v_desc v) k) as [d2 Hd2]; [by rewrite Hd|].
  unfold format_request. rewrite modd_bind, !upd_desc_twice, (upd_desc_bind _ _ _ d0) by done.
  rewrite !upd_desc_twice, (upd_desc_bind _ _ _ d1) by (simpl; by rewrite list_lookup_insert_ne).
  rewrite (upd_info_bind _ _ _ x) by done. rewrite !upd_desc_twice, upd_desc_twice_end.
  rewrite (upd_desc_eq _ _ _ d2) by (simpl; by rewrite !list_lookup_insert_ne).
  unfold formatted. rewrite Hx. reflexivity.
Qed.

Lemma request_formatted b w sector h i k v :
  length (v_desc v) = NUM -> length (v_ops v) = NUM -> NoDup [h; i; k] ->
  (h < NUM)%nat -> (i < NUM)%nat -> (k < NUM)%nat ->
  request (formatted b w sector h i k v) h = Some (w, sector, b).
Proof.
  intros Hd Ho Hnd Hh Hi Hk. rewrite !NoDup_cons, !not_elem_of_cons in Hnd. destruct Hnd as ((H1 & H2 & _) & (H3 & _) & _).
  unfold request, formatted. cbn [v_desc v_ops].
  rewrite !list_lookup_insert_ne, list_lookup_insert_eq by (congruence || lia). simpl.
  rewrite Nat2Z.id, (list_lookup_insert_ne _ k i), (list_lookup_insert_eq _ i) by (rewrite ?length_insert; (congruence || lia)). simpl.
  rewrite Nat2Z.id, (list_lookup_insert_eq _ k) by (rewrite ?length_insert; lia). simpl.
  rewrite list_lookup_insert_eq by lia. simpl. rewrite bool_decide_eq_true_2 by done. by destruct w.
Qed.

Lemma vq_wf_formatted b w sector h i k v cs :
  vq_use v (k :: i :: h :: in_use cs) cs -> vq_wf (formatted b w sector h i k v) ((h, i, k) :: cs).
Proof.
  intros Hwf. pose proof (vq_nodup _ _ _ Hwf) as Hnd. rewrite !NoDup_cons, !not_elem_of_cons in Hnd.
  destruct Hnd as ((K1 & K2 & K3) & (I1 & I2) & (H1 & Hn)).
  assert (Hr : forall x, x ∈ [h; i; k] -> (x < NUM)%nat) by (intros x Hx; apply (vq_range _ _ _ Hwf); set_solver).
  assert (Hh := Hr h ltac:(set_solver)). assert (Hi := Hr i ltac:(set_solver)). assert (Hk := Hr k ltac:(set_solver)).
  apply (vq_use_perm _ (k :: i :: h :: in_use cs)).
  { change (in_use ((h, i, k) :: cs)) with ([h; i; k] ++ in_use cs).
    change (k :: i :: h :: in_use cs) with ([k; i; h] ++ in_use cs). apply Permutation_app_tail.
    symmetry. apply (Permutation_rev [h; i; k]). }
  destruct Hwf as [Hd Hin Ho Hrg Ha Hnd Hrange Hf Hc Hl Hch]. constructor; try done; unfold formatted; cbn [v_desc v_info v_ops v_free v_avail].
  - by rewrite !length_insert.
  - destruct (v_info v !! h); [by rewrite length_insert|done].
  - by rewrite length_insert.
  - intros j Hj Hnj. rewrite !not_elem_of_cons in Hnj. rewrite !list_lookup_insert_ne by naive_solver.
    apply Hc; [done|]. by rewrite !not_elem_of_cons.
  - intros c [->|Hc']%elem_of_cons.
    + exists (header_desc h i), (data_desc b w k), (status_desc h). simpl.
      rewrite !list_lookup_insert_ne, !list_lookup_insert_eq, list_lookup_insert_ne, list_lookup_insert_eq
        by (rewrite ?length_insert; (congruence || lia)).
      split_and!; try done. by destruct w.
    + destruct (Hl c Hc') as (d0 & d1 & d2 & E0 & E1 & E2 & Hrest). exists d0, d1, d2.
      assert (Hm : forall j, j ∈ members c -> h <> j /\ i <> j /\ k <> j).
      { intros j Hj. pose proof (elem_of_in_use _ _ _ Hc' Hj) as Hju. split_and!; intros ->; done. }
      destruct (Hm c.1.1) as (? & ? & ?); [unfold members; set_solver|].
      destruct (Hm c.1.2) as (? & ? & ?); [unfold members; set_solver|].
      destruct (Hm c.2) as (? & ? & ?); [unfold members; set_solver|].
      by rewrite !list_lookup_insert_ne by done.
  - intros j Hj. change (in_use ((h, i, k) :: cs)) with (h :: i :: k :: in_use cs) in Hj. set_solver.
Qed.

(** ** Code that sleeps *)

(** At every switch [G] holds, and whatever resumption [R] allows, the rest
    does the same; it ends with [Q]. *)
Fixpoint yields {S A} (G : S -> Prop) (R : S -> S -> Prop) (o : outcome S A) (Q : A -> S -> Prop) : Prop :=
  match o with
  | Ret a s => Q a s
  | Swtch s k => G s /\ forall s', R s s' -> yields G R (k s') Q
  | OutOfFuel => True
  | _ => False
  end.

Section yields.
  Context {S : Type} (G : S -> Prop) (R : S -> S -> Prop).

Lemma yields_obind {A B} (f : A -> M S B) (o : outcome S A) Q :
  yields G R o (fun a s' => yields G R (f a s') Q) -> yields G R (obind f o) Q.
Proof. induction o; simpl; naive_solver. Qed.

Lemma yields_mono {A} (o : outcome S A) (P Q : A -> S -> Prop) :
  yields G R o P -> (forall a s, P a s -> Q a s) -> yields G R o Q.
Proof. intros H HPQ. induction o; simpl in *; naive_solver. Qed.

Lemma returns_yields {A} (o : outcome S A) (Q : A -> S -> Prop) : returns o Q -> yields G R o Q.
Proof. by destruct o. Qed.
End yields.

Lemma yields_lift_obind {A B} G R v (f : A -> K B) (o : outcome kstate A) Q :
  yields G R (lift_outcome v o) (fun a v' => yields G R (lift_outcome (v_d v') (f a (v_k v'))) Q) ->
  yields G R (lift_outcome v (obind f o)) Q.
Proof. revert v. induction o; intros v; simpl; naive_solver. Qed.

(** ** virtio_disk_rw *)

Section rw.
  Context (b : nat) (w : bool) (sector : Z).

(** The chain [c] carries the request to transfer buffer [b]; the other chains
    in flight are [cs]. *)
Record in_flight (v : vdisk) (c : chain) (cs : list chain) : Prop := {
  if_wf : vq_wf v (c :: cs);
  if_request : request v c.1.1 = Some (w, sector, b);
  if_buf : exists x, v_info v !! c.1.1 = Some x /\ in_b x = Some b;
}.

(** The buffer is marked as owned by the disk, its request is in flight. *)
Definition owned_by_disk (v : vstate) : Prop :=
  (exists c cs, in_flight (v_d v) c cs) /\
  exists x, k_bufs (v_k v) !! b = Some x /\ b_disk x = true.

(** What the rest of the system, the device included, may do meanwhile: start
    and finish other requests, serve this one, but not take its descriptors. *)
Definition driver_rely (v v' : vstate) : Prop :=
  resumed (v_k v) (v_k v') /\ is_Some (k_bufs (v_k v') !! b) /\
  forall c cs, in_flight (v_d v) c cs -> exists cs', in_flight (v_d v') c cs'.

Lemma wait_disk_yields n s v c cs p pp :
  running p pp [LDisk] s -> in_flight v c cs -> is_Some (k_bufs s !! b) ->
  yields owned_by_disk driver_rely
    (lift_outcome v (loop n (fun _ : unit =>
       x ← (x ← get_buf b; mret (b_disk x)); if x : bool then sleep (ChBuf b) LDisk;; mret (inl tt) else mret (inr tt)) tt s))
    (fun _ v' => exists cs' pp', in_flight (v_d v') c cs' /\ running p pp' [LDisk] (v_k v') /\
       exists x, k_bufs (v_k v') !! b = Some x /\ b_disk x = false).
Proof.
  revert s v cs pp. induction n as [|n IH]; intros s v cs pp Hrun Hfl [x Hx]; [done|].
  cbn [loop]. apply yields_lift_obind. mred. rewrite (get_buf_eq _ _ _ Hx). mred.
  destruct (b_disk x) eqn:Hd; [|simpl; exists cs, pp; by eauto].
  apply yields_lift_obind.
  destruct (sleep_switches s p pp (ChBuf b) LDisk Hrun ltac:(done)) as (s1 & k & -> & -> & Hk). simpl.
  assert (Hlt := lookup_lt_Some _ _ _ (run_proc _ _ _ _ Hrun)). split.
  { split; [by exists c, cs|by exists x]. }
  intros [s2 v2] [(p1 & pp1 & pp2 & Hc1 & Hp1 & Hrun2 & _) [Hb2 Hfl2]]. simpl in *.
  assert (p1 = p) as -> by (pose proof (run_cur _ _ _ _ Hrun); congruence).
  rewrite (Hk s2 pp2 Hrun2). simpl. destruct (Hfl2 c cs Hfl) as [cs' Hfl'].
  eapply yields_mono; [eapply (IH _ v2 cs' (set_p_chan None pp2)); [|done|done]|done].
  eapply running_set_held, running_upd; [done|done|apply Hrun2].
Qed.
End rw.

Lemma lift_bind {A B} (m : K A) (f : A -> M vstate B) s v a s' :
  m s = Ret a s' -> (x ← lift m; f x) (mkV s v) = f a (mkV s' v).
Proof. intros H. mred. by rewrite (lift_Ret _ _ _ _ _ H). Qed.

Lemma loop_S {S X R} n (body : X -> M S (X + R)) x :
  loop (Datatypes.S n) body x = (r ← body x; match r with inl x' => loop n body x' | inr v => mret v end).
Proof. done. Qed.

Definition published (h : nat) (av : virtq_avail) : virtq_avail :=
  mkAvail (u16 (av_idx av + 1)) (<[Z.to_nat (av_idx av mod Z.of_nat NUM) := Z.of_nat h]> (av_ring av)).

Lemma publish_eq h s v :
  publish h (mkV s v) = Ret tt (mkV s (set_v_regs ((VIRTIO_MMIO_QUEUE_NOTIFY, 0) :: v_regs v)
                                        (set_v_avail (published h (v_avail v)) v))).
Proof. done. Qed.

Lemma in_flight_published b w sector h i k v cs x rg :
  let v2 := formatted b w sector h i k v in
  vq_use v (k :: i :: h :: in_use cs) cs -> v_info v2 !! h = Some x -> NoDup [h; i; k] ->
  in_flight b w sector (set_v_regs rg (set_v_avail (published h (v_avail v2))
    (set_v_info (<[h := mkInfo (Some b) (in_status x)]> (v_info v2)) v2))) (h, i, k) cs.
Proof.
  intros v2 Hw Hx Hnd. pose proof (vq_wf_formatted b w sector h i k v cs Hw) as Hw2. fold v2 in Hw2.
  assert (HN : forall x, x ∈ [h; i; k] -> (x < NUM)%nat) by (intros y Hy; apply (vq_range _ _ _ Hw); set_solver).
  constructor.
  - destruct Hw2 as [? ? ? ? Ha ? ? ? ? ? ?]. constructor; try done; simpl.
    + by rewrite length_insert.
    + by rewrite length_insert.
    + apply Z.mod_pos_bound. done.
  - change (request v2 h = Some (w, sector, b)).
    apply request_formatted; [apply Hw|apply Hw|done|apply HN; set_solver..].
  - eexists. split; [simpl; apply list_lookup_insert_eq; by eapply lookup_lt_Some|done].
Qed.

(** Up to the wait. *)
Lemma virtio_disk_rw_submits s v cs b bu w p pp :
  let sector := u32 (b_blockno bu * 2) in
  vq_wf v cs -> (length (in_use cs) + 3 <= NUM)%nat -> running p pp [] s -> k_bufs s !! b = Some bu ->
  exists s1 v1 c, Virtio.virtio_disk_rw b w (mkV s v) = (wait_disk b;; finish_request (Z.of_nat c.1.1)) (mkV s1 v1) /\
    running p pp [LDisk] s1 /\ k_bufs s1 !! b = Some (set_b_disk true bu) /\
    in_flight b w sector v1 c cs /\ (forall i, i ∈ members c -> i ∉ in_use cs) /\
    v_avail v1 = published c.1.1 (v_avail v) /\ head (v_regs v1) = Some (VIRTIO_MMIO_QUEUE_NOTIFY, 0).
Proof.
  intros sector Hwf Hroom Hrun Hbu. unfold Virtio.virtio_disk_rw.
  rewrite (lift_bind _ _ _ _ _ _ (get_buf_eq _ _ _ Hbu)). change (BSIZE / 512) with 2. fold sector. cbv zeta.
  pose proof (run_held _ _ _ _ Hrun) as Hh.
  rewrite (lift_bind _ _ _ _ _ _ (acquire_eq LDisk s ltac:(rewrite Hh; set_solver))). rewrite Hh.
  set (s0 := set_k_held [LDisk] s). assert (Hrun0 : running p pp [LDisk] s0) by (by eapply running_set_held).
  destruct (returns_inv _ _ (alloc3_desc_spec s0 v _ cs p pp Hwf Hrun0)) as (r & [s1 v1] & Ha & F & Hrun1 & Hr).
  simpl in F, Hrun1, Hr. destruct r as [[[a0 a1] a2]|]; [|lia].
  destruct Hr as (h & i & k & -> & -> & -> & Hnd & Hh0 & Hi0 & Hk0 & Hv1 & Hw1).
  unfold WAKEUPS. rewrite loop_S. mred. rewrite Ha. mred. rewrite !Nat2Z.id.
  assert (HN : forall x, x ∈ [h; i; k] -> (x < NUM)%nat) by (intros x Hx; apply (vq_range _ _ _ Hw1); set_solver).
  rewrite format_request_eq; [|apply Hw1|apply Hw1|done|apply HN; set_solver..]. mred.
  assert (Hb1 : k_bufs s1 !! b = Some bu) by (by rewrite F).
  rewrite (lift_Ret _ _ _ _ _ (upd_buf_eq _ _ _ (set_b_disk true) Hb1)). mred.
  set (s2 := set_k_bufs _ s1). set (v2 := formatted b w sector h i k v1).
  destruct (lookup_lt_is_Some_2 (v_info v2) h) as [x Hx].
  { pose proof (vq_wf_formatted b w sector h i k v1 cs Hw1) as Hw2. fold v2 in Hw2. rewrite (vq_info _ _ _ Hw2). apply HN. set_solver. }
  rewrite (upd_info_eq _ _ _ _ _ Hx). mred. rewrite publish_eq. mred.
  set (v3 := set_v_regs _ _). exists s2, v3, (h, i, k).
  split; [reflexivity|]. assert (Hlt := lookup_lt_Some _ _ _ Hb1). assert (Hlx := lookup_lt_Some _ _ _ Hx). split_and!.
  - by apply (running_ext _ _ _ s1).
  - simpl. by rewrite list_lookup_insert_eq.
  - apply in_flight_published; [done|done|done].
  - intros y Hy. unfold members in Hy. simpl in Hy. rewrite !elem_of_cons in Hy.
    destruct Hy as [->|[->|[->|[]%elem_of_nil]]]; done.
  - unfold v3. simpl. by rewrite Hv1.
  - done.
Qed.

Lemma finish_request_spec b w sector s v c cs p pp :
  running p pp [LDisk] s -> in_flight b w sector v c cs ->
  returns (finish_request (Z.of_nat c.1.1) (mkV s v)) (fun _ v' =>
    vq_wf (v_d v') cs /\ running p pp [] (v_k v') /\ k_bufs (v_k v') = k_bufs s).
Proof.
  intros Hrun [Hwf _ (x & Hx & _)]. destruct c as [[c0 c1] c2]. simpl in *. unfold finish_request. rewrite Nat2Z.id.
  rewrite (upd_info_bind _ _ _ x) by done. set (v1 := set_v_info _ v).
  assert (Hwf1 : vq_wf v1 ((c0, c1, c2) :: cs)).
  { destruct Hwf. constructor; try done. simpl. by rewrite length_insert. }
  mspec (free_chain_spec s v1 c0 c1 c2 cs p pp); [done..|].
  cbn beta. intros _ [s2 v2] (Hwf2 & _ & F & Hrun2). simpl in *.
  rewrite (lift_Ret _ _ _ _ _ (release_eq _ _ [] (run_held _ _ _ _ Hrun2) ltac:(set_solver))).
  split_and!; [done|by eapply running_set_held|]. simpl. by rewrite F.
Qed.


(** ** virtio_disk_intr *)

(** The buffer of the [k]-th request the device has completed and the driver
    has not seen, when its status says success. *)
Definition completed (v : vdisk) (k : nat) : option nat :=
  id ← us_ring (v_used v) !! Z.to_nat ((v_used_idx v + Z.of_nat k) mod Z.of_nat NUM);
  x ← v_info v !! Z.to_nat id;
  if in_status x =? 0 then in_b x else None.

(** The buffers [bs] handed back to their users. *)
Definition returned (bs : list nat) (bufs : list buf) : list buf :=
  imap (fun b x => if decide (b ∈ bs) then set_b_disk false x else x) bufs.

Lemma returned_lookup bs bufs b :
  returned bs bufs !! b = (fun x => if decide (b ∈ bs) then set_b_disk false x else x) <$> bufs !! b.
Proof. unfold returned. by rewrite list_lookup_imap. Qed.

Lemma returned_nil bufs : returned [] bufs = bufs.
Proof. apply list_eq. intros b. rewrite returned_lookup. by destruct (bufs !! b). Qed.

Lemma returned_snoc bs b x bufs :
  returned bs bufs !! b = Some x -> <[b := set_b_disk false x]> (returned bs bufs) = returned (bs ++ [b]) bufs.
Proof.
  intros Hx. apply list_eq. intros j. rewrite (returned_lookup (bs ++ [b])). destruct (decide (j = b)) as [->|Hne].
  - rewrite list_lookup_insert_eq by (by eapply lookup_lt_Some). rewrite returned_lookup in Hx.
    destruct (bufs !! b) as [y|]; [|done]. simpl in *. injection Hx as <-. rewrite (decide_True (P := b ∈ bs ++ [b])) by set_solver.
    by case_decide.
  - rewrite list_lookup_insert_ne, returned_lookup by done. destruct (bufs !! j); [|done]. simpl. f_equal.
    destruct (decide (j ∈ bs)), (decide (j ∈ bs ++ [b])); done || set_solver.
Qed.

Lemma u16_mod_NUM a : u16 a mod Z.of_nat NUM = a mod Z.of_nat NUM.
Proof. unfold u16. apply Z.mod_mod_divide. by exists 8192. Qed.

Lemma intr_step_spec s v b x k bufs p pp :
  let v1 := set_v_used_idx (u16 (v_used_idx v + Z.of_nat k)) v in
  running p pp [LDisk] s -> completed v k = Some b -> k_bufs s = bufs -> bufs !! b = Some x ->
  u16 (v_used_idx v + Z.of_nat k) <> us_idx (v_used v) ->
  returns (intr_step (mkV s v1)) (fun r v' => r = inl tt /\ running p pp [LDisk] (v_k v') /\
    k_bufs (v_k v') = <[b := set_b_disk false x]> bufs /\
    v_d v' = set_v_used_idx (u16 (v_used_idx v + Z.of_nat (S k))) v).
Proof.
  intros v1 Hrun Hc Hbufs Hx Hne. unfold intr_step, getd. mred. cbn [v_d].
  change (v_used_idx v1) with (u16 (v_used_idx v + Z.of_nat k)). change (v_used v1) with (v_used v).
  rewrite (proj2 (Z.eqb_neq _ _) Hne), u16_mod_NUM. unfold completed in Hc.
  destruct (us_ring (v_used v) !! _) as [id|]; [|done]. simpl in Hc. mred.
  destruct (v_info v !! Z.to_nat id) as [y|] eqn:Hy; [|done]. simpl in Hc.
  unfold get_info, getd. mred. cbn [v_d]. change (v_info v1) with (v_info v). rewrite Hy. mred.
  destruct (in_status y =? 0); [|done]. rewrite Hc. mred. subst bufs.
  rewrite (lift_Ret _ _ _ _ _ (upd_buf_eq _ _ _ (set_b_disk false) Hx)). mred.
  mspec (returns_lift (wakeup (ChBuf b)) _ v1); [apply (wakeup_running _ _ p pp [LDisk]); [by apply (running_ext _ _ _ s)|set_solver..]|].
  cbn beta. intros _ [s2 v2] [[F Hr] Hv]. simpl in *. subst v2. unfold modd. mred. split_and!; [done|done|by rewrite F|].
  simpl. unfold v1, set_v_used_idx. simpl. f_equal. unfold u16. rewrite Zplus_mod_idemp_l. f_equal. lia.
Qed.

Lemma pending_after v n k :
  Z.of_nat n = pending v -> (k <= n)%nat ->
  pending (set_v_used_idx (u16 (v_used_idx v + Z.of_nat k)) v) = Z.of_nat (n - k).
Proof.
  unfold pending, u16. cbn [v_used v_used_idx set_v_used_idx]. intros Hn Hk.
  pose proof (Z.mod_pos_bound (us_idx (v_used v) - v_used_idx v) (2 ^ 16) ltac:(done)).
  rewrite Zminus_mod_idemp_r. replace (us_idx (v_used v) - (v_used_idx v + Z.of_nat k))
    with (us_idx (v_used v) - v_used_idx v - Z.of_nat k) by lia.
  rewrite <- Zminus_mod_idemp_l, <- Hn. rewrite Z.mod_small; lia.
Qed.

Lemma pending_all v n k :
  0 <= us_idx (v_used v) < 2 ^ 16 -> Z.of_nat n = pending v -> (k <= n)%nat ->
  u16 (v_used_idx v + Z.of_nat k) = us_idx (v_used v) <-> k = n.
Proof.
  intros Hu Hn Hk. pose proof (pending_after v n k Hn Hk) as H. unfold pending in H. cbn [v_used v_used_idx set_v_used_idx] in H.
  set (a := u16 (v_used_idx v + Z.of_nat k)) in *.
  assert (Ha : 0 <= a < 2 ^ 16) by (apply Z.mod_pos_bound; done). unfold u16 in H. split.
  - intros E. rewrite E, Z.sub_diag, Z.mod_0_l in H by done. lia.
  - intros ->. rewrite Nat.sub_diag in H. apply Z.mod_divide in H as [q Hq]; [|done]. nia.
Qed.

(** C25. virtio_disk_intr with the completed requests of buffers [bs], all of them
    successful: it returns, having handed back exactly these buffers and seen
    every completion, the rest of the driver's state unchanged. *)
Theorem virtio_disk_intr_returns_buffers R s v bs p pp :
  running p pp [] s -> 0 <= us_idx (v_used v) < 2 ^ 16 -> 0 <= v_used_idx v < 2 ^ 16 ->
  Z.of_nat (length bs) = pending v -> (forall k, (k < length bs)%nat -> completed v k = bs !! k) ->
  (forall b, b ∈ bs -> is_Some (k_bufs s !! b)) ->
  returns (virtio_disk_intr R (mkV s v)) (fun _ v' =>
    running p pp [] (v_k v') /\ k_bufs (v_k v') = returned bs (k_bufs s) /\
    v_d v' = set_v_used_idx (us_idx (v_used v))
      (set_v_regs ((VIRTIO_MMIO_INTERRUPT_ACK, u32 (Z.land (R VIRTIO_MMIO_INTERRUPT_STATUS) 3)) :: v_regs v) v)).
Proof.
  intros Hrun Hu Hi Hlen Hbs Hbufs. unfold virtio_disk_intr. mred.
  pose proof (run_held _ _ _ _ Hrun) as Hh.
  rewrite (lift_Ret _ _ _ _ _ (acquire_eq LDisk s ltac:(rewrite Hh; set_solver))). rewrite Hh.
  unfold reg_write, modd, getd. mred. cbn [v_k v_d]. set (v0 := set_v_regs _ v). set (s0 := set_k_held [LDisk] s).
  change (pending v0) with (pending v). rewrite <- Hlen, Nat2Z.id.
  assert (Hp : forall k, (k <= length bs)%nat -> u16 (v_used_idx v + Z.of_nat k) = us_idx (v_used v) <-> k = length bs)
    by (intros; by apply pending_all).
  assert (Hpk : forall k, (k <= length bs)%nat ->
    pending (set_v_used_idx (u16 (v_used_idx v + Z.of_nat k)) v0) = Z.of_nat (length bs - k)).
  { intros k Hk. rewrite <- (pending_after v (length bs) k Hlen Hk). done. }
  apply returns_obind. eapply returns_mono.
  { apply (loop_returns_state (fun _ v1 => exists k, (k <= length bs)%nat /\ running p pp [LDisk] (v_k v1) /\
        k_bufs (v_k v1) = returned (take k bs) (k_bufs s) /\
        v_d v1 = set_v_used_idx (u16 (v_used_idx v + Z.of_nat k)) v0)
      (fun _ v1 => Z.to_nat (pending (v_d v1))) (fun _ v1 => running p pp [LDisk] (v_k v1) /\ k_bufs (v_k v1) = returned bs (k_bufs s) /\
        v_d v1 = set_v_used_idx (us_idx (v_used v)) v0)).
    - exists O. split_and!; [lia|by eapply running_set_held|by rewrite returned_nil|].
      rewrite Z.add_0_r. unfold u16. rewrite Z.mod_small by done. by destruct v.
    - change (pending (v_d (mkV s0 v0))) with (pending v). lia.
    - intros [] [s1 v1] (k & Hk & Hr & Hb & Hv). simpl in Hr, Hb, Hv. subst v1.
      destruct (decide (k = length bs)) as [->|Hne].
      + unfold intr_step, getd. mred. cbn [v_d v_used v_used_idx set_v_used_idx v0 set_v_regs].
        rewrite (proj2 (Z.eqb_eq _ _)) by (by apply Hp). mred. rewrite firstn_all in Hb. simpl.
        by rewrite (proj2 (Hp (length bs) (Nat.le_refl _)) eq_refl).
      + destruct (lookup_lt_is_Some_2 bs k) as [b Hbk]; [lia|].
        destruct (Hbufs b) as [x Hx]; [by eapply list_elem_of_lookup_2|].
        destruct (returned (take k bs) (k_bufs s) !! b) as [y|] eqn:Hy; [|by rewrite returned_lookup, Hx in Hy].
        eapply returns_mono; [eapply (intr_step_spec s1 v0 b y k); [done| |exact Hb|exact Hy|]|].
        * change (completed v k = Some b). by rewrite Hbs by lia.
        * change (u16 (v_used_idx v + Z.of_nat k) <> us_idx (v_used v)). rewrite Hp by lia. done.
        * cbn beta. intros r [s2 v2] (-> & Hr2 & Hb2 & Hv2). simpl in Hr2, Hb2, Hv2. subst v2.
          change (v_used_idx v0) with (v_used_idx v) in *. cbn [v_d]. rewrite !Hpk by lia. split; [|lia].
          exists (S k). split_and!; [lia|done| |done].
          simpl. rewrite Hb2, (returned_snoc _ _ _ _ Hy). by rewrite <- (take_S_r _ _ _ Hbk). }
  cbn beta. intros _ [s1 v1] (Hr & Hb & Hv). simpl in *.
  rewrite (lift_Ret _ _ _ _ _ (release_eq _ _ [] (run_held _ _ _ _ Hr) ltac:(set_solver))).
  split_and!; [by eapply running_set_held|done|done].
Qed.

(** ** virtio_disk_init *)

(** The device is there, offers a long enough queue that is not in use, and
    accepts the features. *)
Record device_ok (R : Z -> Z) : Prop := {
  do_magic : R VIRTIO_MMIO_MAGIC_VALUE = 0x74726976;
  do_version : R VIRTIO_MMIO_VERSION = 2;
  do_id : R VIRTIO_MMIO_DEVICE_ID = 2;
  do_vendor : R VIRTIO_MMIO_VENDOR_ID = 0x554d4551;
  do_features : Z.land (R VIRTIO_MMIO_STATUS) VIRTIO_CONFIG_S_FEATURES_OK <> 0;
  do_ready : R VIRTIO_MMIO_QUEUE_READY = 0;
  do_max : Z.of_nat NUM <= R VIRTIO_MMIO_QUEUE_NUM_MAX;
}.

Lemma kalloc_page fl r s :
  free_list (r :: fl) s -> unlocked s -> kalloc s = Ret r (allocated_page r s) /\ r <> 0 /\
    free_list fl (allocated_page r s) /\ unlocked (allocated_page r s).
Proof.
  intros Hf Hu. rewrite (kalloc_eq (r :: fl)) by done. split; [done|].
  destruct (fl_page _ _ Hf r) as [_ Hb]; [by left|]. pose proof (fl_end _ _ Hf). split_and!; [unfold KERNBASE in *; lia|by apply allocated_page_spec|apply Hu..].
Qed.

Lemma set_all_free s v :
  length (v_free v) = NUM ->
  foreach (seq 0 NUM) (fun i => set_free i true) (mkV s v) = Ret tt (mkV s (set_v_free (replicate NUM true) v)).
Proof.
  intros Hl. destruct v as [ds av us fr ui inf ops rg]. simpl in Hl.
  do 8 (destruct fr as [|? fr]; [discriminate Hl|]). destruct fr; [reflexivity|discriminate Hl].
Qed.

Lemma reg_write64_bind {A} lo hi x s v (k : M vstate A) :
  (reg_write64 lo hi x;; k) (mkV s v) =
  k (mkV s (set_v_regs ((hi, u32 (Z.shiftr x 32)) :: (lo, u32 x) :: v_regs v) v)).
Proof. done. Qed.

Lemma init_queue_spec s v desc avail used status :
  length (v_free v) = NUM -> length (v_info v) = NUM -> length (v_ops v) = NUM ->
  returns (init_queue desc avail used status (mkV s v)) (fun _ v' =>
    vq_wf (v_d v') [] /\ v_free (v_d v') = replicate NUM true /\
    head (v_regs (v_d v')) = Some (VIRTIO_MMIO_STATUS, u32 (Z.lor status VIRTIO_CONFIG_S_DRIVER_OK)) /\
    v_k v' = s).
Proof.
  intros Hlf Hli Hlo. destruct v as [ds av us fr ui inf ops rg]. cbn [v_free v_info v_ops] in *.
  unfold init_queue, reg_write.
  repeat (first [rewrite modd_bind|rewrite reg_write64_bind]; cbn [set_v_desc set_v_avail set_v_used set_v_regs v_desc v_avail v_used v_free v_used_idx v_info v_ops v_regs]).
  mred.
  rewrite set_all_free by done. mred. split_and!; [|done|done|done].
  constructor; try done; [apply NoDup_nil_2|intros i Hi; by apply not_elem_of_nil in Hi| |
    intros c Hc; by apply not_elem_of_nil in Hc].
  intros i Hi _. by apply (lookup_replicate_2 NUM zero_desc).
Qed.

(** virtio_disk_init with three free pages and such a device: it returns with
    no request in flight and every descriptor free, and the device's last
    status has DRIVER_OK set. *)
Theorem virtio_disk_init_ready R s v fl pg1 pg2 pg3 :
  device_ok R -> free_list (pg1 :: pg2 :: pg3 :: fl) s -> unlocked s ->
  length (v_free v) = NUM -> length (v_info v) = NUM -> length (v_ops v) = NUM ->
  returns (virtio_disk_init R (mkV s v)) (fun _ v' =>
    vq_wf (v_d v') [] /\ v_free (v_d v') = replicate NUM true /\ free_list fl (v_k v') /\
    head (v_regs (v_d v')) =
      Some (VIRTIO_MMIO_STATUS, u32 (Z.lor (R VIRTIO_MMIO_STATUS) VIRTIO_CONFIG_S_DRIVER_OK))).
Proof.
  intros [H1 H2 H3 H4 H5 H6 H7] Hf Hu Hlf Hli Hlo.
  destruct (kalloc_page _ _ _ Hf Hu) as (E1 & N1 & Hf1 & Hu1).
  destruct (kalloc_page _ _ _ Hf1 Hu1) as (E2 & N2 & Hf2 & Hu2).
  destruct (kalloc_page _ _ _ Hf2 Hu2) as (E3 & N3 & Hf3 & Hu3).
  unfold virtio_disk_init. rewrite H1, H2, H3, H4, H6.
  rewrite (proj2 (Z.eqb_neq _ _) H5), (proj2 (Z.ltb_ge (R VIRTIO_MMIO_QUEUE_NUM_MAX) _) H7).
  rewrite (proj2 (Z.eqb_neq (R VIRTIO_MMIO_QUEUE_NUM_MAX) 0)) by (change (Z.of_nat NUM) with 8 in H7; lia).
  change (negb ((1953655158 =? 1953655158) && (2 =? 2) && (2 =? 2) && (1431127377 =? 1431127377))) with false.
  change (negb (0 =? 0)) with false. cbv iota zeta.
  unfold reg_write. rewrite !modd_bind.
  rewrite (lift_bind _ _ _ _ _ _ E1), (lift_bind _ _ _ _ _ _ E2), (lift_bind _ _ _ _ _ _ E3).
  rewrite (proj2 (Z.eqb_neq _ _) N1), (proj2 (Z.eqb_neq _ _) N2), (proj2 (Z.eqb_neq _ _) N3). cbn [orb].
  eapply returns_mono; [apply init_queue_spec; done|]. cbn beta. intros _ v' (Hw & Hfr & Hr & Hs).
  split_and!; [done|done|by rewrite Hs|done].
Qed.
