(* ===== verification/Log.v ===== *)
(** * Write-ahead log (kernel/log.c)

    begin_op/end_op transactions, log_write with absorption, commit and
    recovery.  The on-disk header is the block at log.start: a 32-bit count
    followed by the 32-bit home block numbers. *)

From S2P Require Import Prelude State Spinlock CString Sysargs Proc Sleeplock Bio.

(** 32-bit fields of a block. *)
Definition get32 (d : list Z) (off : Z) : Z := le_val (slice d (Z.to_nat off) 4).
Definition put32 (d : list Z) (off x : Z) : list Z := splice d (Z.to_nat off) (le_bytes 4 x).

(** log.lh.block[i] and log.lh.block[i] = x. *)
Definition lh_get (i : Z) : K Z :=
  l ← gets k_log;
  if 0 <=? i then deref (lh_block (log_lh l) !! Z.to_nat i) else undefined.
Definition lh_set (i x : Z) : K unit :=
  l ← gets k_log;
  if (0 <=? i) && (i <? Z.of_nat (length (lh_block (log_lh l)))) then
    modify (set_k_log (set_log_lh
      (set_lh_block (<[Z.to_nat i := x]> (lh_block (log_lh l))) (log_lh l)) l))
  else undefined.
Definition lh_set_n (n : Z) : K unit :=
  upd_log (fun l => set_log_lh (set_lh_n n (log_lh l)) l).

Definition install_trans (recovering : bool) : K unit :=
  l ← gets k_log;
  foreach (zrange 0 (lh_n (log_lh l))) (fun tail =>
    dst ← lh_get tail;
    when recovering (printf "recovering tail %d dst %d" [tail; dst]);;
    lbuf ← bread (log_dev l) (log_start l + tail + 1);
    dbuf ← bread (log_dev l) dst;
    d ← bdata lbuf;
    set_bdata dbuf d;;
    bwrite dbuf;;
    when (negb recovering) (bunpin dbuf);;
    brelse lbuf;;
    brelse dbuf).

Definition read_head : K unit :=
  l ← gets k_log;
  b ← bread (log_dev l) (log_start l);
  d ← bdata b;
  lh_set_n (s32 (get32 d 0));;
  foreach (zrange 0 (s32 (get32 d 0))) (fun i =>
    lh_set i (s32 (get32 d (4 + 4 * i))));;
  brelse b.

Definition write_head : K unit :=
  l ← gets k_log;
  b ← bread (log_dev l) (log_start l);
  d ← bdata b;
  set_bdata b (put32 d 0 (lh_n (log_lh l)));;
  foreach (zrange 0 (lh_n (log_lh l))) (fun i =>
    x ← lh_get i;
    d ← bdata b;
    set_bdata b (put32 d (4 + 4 * i) x));;
  bwrite b;;
  brelse b.

Definition recover_from_log : K unit :=
  read_head;;
  install_trans true;;
  lh_set_n 0;;
  write_head.

(** sizeof(struct logheader) = 4 + 4 * LOGBLOCKS. *)
Definition initlog (dev : Z) (sb : superblock) : K unit :=
  if BSIZE <=? 4 + 4 * LOGBLOCKS then panic "initlog: too big logheader" else
  upd_log (set_log_start (sb_logstart sb));;
  upd_log (set_log_dev dev);;
  recover_from_log.

(** The condition under which begin_op waits. *)
Definition log_full (l : logst) : bool :=
  LOGBLOCKS <? lh_n (log_lh l) + (log_outstanding l + 1) * MAXOPBLOCKS.

Definition begin_op : K unit :=
  acquire LLog;;
  loop WAKEUPS (fun _ : unit =>
    l ← gets k_log;
    if log_committing l then sleep ChLog LLog;; mret (inl tt)
    else if log_full l then sleep ChLog LLog;; mret (inl tt)
    else
      upd_log (fun l => set_log_outstanding (log_outstanding l + 1) l);;
      release LLog;;
      mret (inr tt)) tt.

Definition write_log : K unit :=
  l ← gets k_log;
  foreach (zrange 0 (lh_n (log_lh l))) (fun tail =>
    to ← bread (log_dev l) (log_start l + tail + 1);
    blk ← lh_get tail;
    from ← bread (log_dev l) blk;
    d ← bdata from;
    set_bdata to d;;
    bwrite to;;
    brelse from;;
    brelse to).

Definition commit : K unit :=
  l ← gets k_log;
  when (0 <? lh_n (log_lh l))
    (write_log;;
     write_head;;
     install_trans false;;
     lh_set_n 0;;
     write_head).

Definition end_op : K unit :=
  acquire LLog;;
  upd_log (fun l => set_log_outstanding (log_outstanding l - 1) l);;
  l ← gets k_log;
  if log_committing l then panic "log.committing" else
  do_commit ← (if log_outstanding l =? 0
               then upd_log (set_log_committing true);; mret true
               else wakeup ChLog;; mret false);
  release LLog;;
  if do_commit : bool then
    commit;;
    acquire LLog;;
    upd_log (set_log_committing false);;
    wakeup ChLog;;
    release LLog
  else mret tt.

Definition log_write (i : nat) : K unit :=
  acquire LLog;;
  l ← gets k_log;
  if LOGBLOCKS <=? lh_n (log_lh l) then panic "too big a transaction" else
  if log_outstanding l <? 1 then panic "log_write outside of trans" else
  b ← get_buf i;
  r ← forl (zrange 0 (lh_n (log_lh l))) (fun j =>
    x ← lh_get j; mret (if x =? b_blockno b then Some j else None));
  let j := default (lh_n (log_lh l)) r in
  lh_set j (b_blockno b);;
  when (j =? lh_n (log_lh l))
    (bpin i;; lh_set_n (lh_n (log_lh l) + 1));;
  release LLog.
