(* ===== verification/Wal.v ===== *)
(** * The write-ahead log: specification, commit and crash recovery

    log_write adds a block to the transaction (absorbing repeats), commit
    writes the transaction through the log, and recovery replays it.  The main
    theorem considers a crash after any number of the block writes of a
    commit: recovery then finds either the disk before the transaction or the
    disk after it, never a mixture. *)

From S2P Require Import Prelude State Spinlock CString Sysargs Proc ReadyQueue Sleeplock Sleeping Bio Log BufferCache.

(** ** 32-bit fields of a block *)

Lemma length_put32 d off x :
  0 <= off -> off + 4 <= Z.of_nat (length d) -> length (put32 d off x) = length d.
Proof. intros H1 H2. unfold put32. apply length_splice. rewrite length_le_bytes. lia. Qed.

Lemma get32_put32_same d off x :
  0 <= off -> off + 4 <= Z.of_nat (length d) -> get32 (put32 d off x) off = u32 x.
Proof.
  intros H1 H2. unfold get32, put32.
  pose proof (slice_splice_same d (Z.to_nat off) (le_bytes 4 x)) as H.
  rewrite length_le_bytes in H. rewrite H by lia. apply le_val_le_bytes.
Qed.

Lemma get32_put32_ne d off off' x :
  0 <= off -> 0 <= off' -> off + 4 <= Z.of_nat (length d) ->
  off + 4 <= off' \/ off' + 4 <= off -> get32 (put32 d off x) off' = get32 d off'.
Proof.
  intros H1 H2 H3 H4. unfold get32, put32. f_equal. apply slice_splice_disjoint.
  - rewrite length_le_bytes. lia.
  - rewrite length_le_bytes. lia.
Qed.

Lemma s32_small x : 0 <= x < 2 ^ 31 -> s32 x = x.
Proof. intros H. unfold s32, swrap. rewrite Z.mod_small by lia. lia. Qed.

(** ** The in-memory header *)

(** The log of [dev] starts at block [start], and the blocks of the current
    transaction are [blks]. *)
Record log_rep (dev start : Z) (blks : list Z) (l : logst) : Prop := {
  lr_dev : log_dev l = dev;
  lr_start : log_start l = start;
  lr_n : lh_n (log_lh l) = Z.of_nat (length blks);
  lr_cap : length (lh_block (log_lh l)) = Z.to_nat LOGBLOCKS;
  lr_blocks : take (length blks) (lh_block (log_lh l)) = blks;
  lr_nodup : NoDup blks;
  lr_room : (length blks <= Z.to_nat LOGBLOCKS)%nat;
}.

Lemma lr_lookup dev start blks l k x :
  log_rep dev start blks l -> blks !! k = Some x -> lh_block (log_lh l) !! k = Some x.
Proof.
  intros H Hk. rewrite <- (lr_blocks _ _ _ _ H) in Hk.
  by rewrite lookup_take_Some in Hk; destruct Hk.
Qed.

Lemma lh_get_eq dev start blks s k x :
  log_rep dev start blks (k_log s) -> blks !! k = Some x -> lh_get (Z.of_nat k) s = Ret x s.
Proof.
  intros H Hk. unfold lh_get. mred. rewrite (proj2 (Z.leb_le 0 _)) by lia.
  rewrite Nat2Z.id, (lr_lookup _ _ _ _ _ _ H Hk). done.
Qed.

Lemma lh_set_eq s i x :
  0 <= i < Z.of_nat (length (lh_block (log_lh (k_log s)))) ->
  lh_set i x s = Ret tt (set_k_log (set_log_lh (set_lh_block
    (<[Z.to_nat i := x]> (lh_block (log_lh (k_log s)))) (log_lh (k_log s))) (k_log s)) s).
Proof.
  intros H. unfold lh_set. mred.
  by rewrite (proj2 (Z.leb_le 0 i)), (proj2 (Z.ltb_lt i _)) by lia.
Qed.

(** ** log_write *)

Definition absorb (blk : Z) (blks : list Z) : list Z :=
  if decide (blk ∈ blks) then blks else blks ++ [blk].

Lemma absorb_set blk blks :
  list_to_set (absorb blk blks) =@{gset Z} {[blk]} ∪ list_to_set blks.
Proof. unfold absorb. case_decide; set_solver. Qed.

(** The scan of log_write for the block. *)
Lemma log_scan dev start blks s blk :
  log_rep dev start blks (k_log s) ->
  returns (forl (zrange 0 (Z.of_nat (length blks))) (fun j =>
      x ← lh_get j; mret (if x =? blk then Some j else None)) s)
    (fun r s' => s' = s /\
       match r with
       | Some j => 0 <= j /\ blks !! Z.to_nat j = Some blk
       | None => blk ∉ blks
       end).
Proof.
  intros H. apply (forl_zrange (fun i s1 => s1 = s /\ forall k, Z.of_nat k < i -> blks !! k <> Some blk)).
  - lia.
  - split; [done|]. lia.
  - intros s1 [-> Hno]. split; [done|]. intros [k Hk]%list_elem_of_lookup.
    apply (Hno k); [|done]. apply lookup_lt_Some in Hk. lia.
  - intros i s1 Hi [-> Hno]. destruct (lookup_lt_is_Some_2 blks (Z.to_nat i)) as [x Hx]; [lia|].
    mred. pose proof (lh_get_eq _ _ _ _ _ _ H Hx) as Hg. rewrite Z2Nat.id in Hg by lia.
    rewrite Hg. mred. destruct (Z.eqb_spec x blk) as [->|Hne].
    + split; [done|]. split; [lia|done].
    + split; [done|]. intros k Hk. destruct (decide (k = Z.to_nat i)) as [->|]; [congruence|].
      apply Hno. lia.
Qed.

Lemma fs_set_held dev V L P p pp s s' :
  bc dev V L P (p_pid pp) s -> running p pp [] s' -> k_bufs s' = k_bufs s ->
  k_lru s' = k_lru s -> k_disk s' = k_disk s -> fs dev V L P p pp s'.
Proof. intros H Hr Hb Hl Hd. split; [|done]. by apply (bc_ext _ _ _ _ _ s). Qed.

Lemma fs_set_log dev V L P p pp s l : fs dev V L P p pp s -> fs dev V L P p pp (set_k_log l s).
Proof. intros [H Hr]. split; [by apply (bc_ext _ _ _ _ _ s)|by apply (running_ext _ _ _ s)]. Qed.

Definition append_block (blk : Z) (l : logst) : logst :=
  set_log_lh (mkLogheader (lh_n (log_lh l) + 1)
    (<[Z.to_nat (lh_n (log_lh l)) := blk]> (lh_block (log_lh l)))) l.

Lemma log_rep_append dev start blks l blk :
  log_rep dev start blks l -> (length blks < Z.to_nat LOGBLOCKS)%nat -> blk ∉ blks ->
  log_rep dev start (blks ++ [blk]) (append_block blk l).
Proof.
  intros H Hlt Hn. pose proof (lr_n _ _ _ _ H) as Hln. pose proof (lr_cap _ _ _ _ H) as Hcap.
  constructor; simpl; try apply H.
  - rewrite length_app. simpl. lia.
  - by rewrite length_insert.
  - rewrite length_app, Nat.add_1_r, Hln, Nat2Z.id. simpl.
    rewrite (take_S_r _ _ blk) by (rewrite list_lookup_insert_eq; [done|lia]).
    rewrite take_insert_ge by lia. by rewrite (lr_blocks _ _ _ _ H).
  - apply NoDup_app. split_and!; [apply H|set_solver|apply NoDup_singleton].
  - rewrite length_app. simpl. lia.
Qed.

(** log_write records the block of a locked buffer in the transaction and
    pins it, once however often it is written. *)
Lemma log_write_spec dev start V L blks p pp s blk i :
  fs dev V L (list_to_set blks) p pp s -> log_rep dev start blks (k_log s) ->
  (length blks < Z.to_nat LOGBLOCKS)%nat -> 1 <= log_outstanding (k_log s) ->
  L !! blk = Some i ->
  returns (log_write i s) (fun _ s' => exists l',
    fs dev V L (list_to_set (absorb blk blks)) p pp s' /\
    log_rep dev start (absorb blk blks) l' /\ log_outstanding l' = log_outstanding (k_log s) /\
    log_committing l' = log_committing (k_log s) /\
    k_log s' = l' /\ bio_frame (set_k_log l' s) s').
Proof.
  intros [H Hrun] Hlr Hlt Hout HL. pose proof (run_held _ _ _ _ Hrun) as Hh.
  destruct (locked_buffer _ _ _ _ _ _ _ _ H HL) as (b & Hb & _ & Hbl & _).
  pose proof (lr_n _ _ _ _ Hlr) as Hn. pose proof (lr_cap _ _ _ _ Hlr) as Hcap.
  unfold log_write. mred. rewrite acquire_eq by (rewrite Hh; set_solver). mred. rewrite Hh.
  set (s1 := set_k_held [LLog] s). change (k_log s1) with (k_log s).
  rewrite (proj2 (Z.leb_gt _ _)) by lia. rewrite (proj2 (Z.ltb_ge _ _)) by lia. mred.
  rewrite (get_buf_eq _ _ b) by done. mred. rewrite Hbl, Hn.
  apply returns_obind. eapply returns_mono; [by apply (log_scan dev start blks s1 blk)|].
  cbn beta. intros r s2 [-> Hr]. mred. unfold absorb. destruct r as [j|]; cbn [default from_option id].
  - destruct Hr as [Hj Hx]. assert (Hlx := lookup_lt_Some _ _ _ Hx).
    rewrite decide_True by (by eapply list_elem_of_lookup_2).
    rewrite lh_set_eq by (simpl; lia). mred.
    assert (Hne : (j =? Z.of_nat (length blks)) = false) by lia. rewrite Hne. mred.
    rewrite (release_eq _ _ []) by (done || set_solver).
    rewrite list_insert_id by (by eapply lr_lookup).
    exists (k_log s). split_and!; try done.
    + eapply (fs_set_held _ _ _ _ _ _ s); try done.
      apply (running_ext _ _ _ (set_k_held [] s)); try done. by eapply running_set_held.
    + destruct s as [? ? ? ? ? ? ? ? ? ? ? ? l]. simpl. by destruct l as [? ? ? ? []].
    + unfold bio_frame. destruct s as [? ? ? ? ? ? ? ? ? ? ? ? l]. simpl in *. subst.
      by destruct l as [? ? ? ? []].
  - rewrite decide_False by done. rewrite lh_set_eq by (simpl; lia). mred.
    rewrite Z.eqb_refl. mred. set (s3 := set_k_log _ s1).
    apply returns_obind. apply returns_obind.
    eapply returns_mono.
    { apply (bpin_spec dev V L (list_to_set blks) p pp [LLog] s3 blk i).
      - by apply (bc_ext _ _ _ _ _ s).
      - apply (running_ext _ _ _ s1); try done. by eapply running_set_held.
      - set_solver.
      - done.
      - set_solver. }
    cbn beta. intros _ s4 (Hbc4 & Hrun4 & Hf4). unfold lh_set_n, upd_log. mred.
    assert (Hl4 : k_log s4 = k_log s3) by (by rewrite Hf4).
    pose proof (run_held _ _ _ _ Hrun4) as Hh4.
    cbn [returns]. rewrite (release_eq _ _ []) by (done || set_solver).
    exists (append_block blk (k_log s)).
    assert (Hk : set_log_lh (set_lh_n (Z.of_nat (length blks) + 1) (log_lh (k_log s4))) (k_log s4) =
                 append_block blk (k_log s)).
    { rewrite Hl4. unfold append_block. simpl. by rewrite Hn, Nat2Z.id. }
    split_and!.
    + assert (Hset : list_to_set (blks ++ [blk]) =@{gset Z} {[blk]} ∪ list_to_set blks) by set_solver.
      rewrite Hset.
      eapply (fs_set_held _ _ _ _ _ _ s4); try done.
      apply (running_ext _ _ _ (set_k_held [] s4)); try done. by eapply running_set_held.
    + by apply log_rep_append.
    + done.
    + done.
    + exact Hk.
    + unfold bio_frame. simpl. rewrite Hk. rewrite Hf4. destruct s. simpl in *. by subst.
Qed.

(** ** Block writes *)

Definition apply_trace (d : gmap Z (list Z)) (tr : list (Z * list Z)) : gmap Z (list Z) :=
  foldl (fun d w => <[w.1 := w.2]> d) d tr.

(** [s'] is [s] after the block writes [tr], up to the cache and what was
    printed. *)
Record wrote_all (tr : list (Z * list Z)) (s s' : kstate) : Prop := {
  wa_trace : k_dtrace s' = k_dtrace s ++ tr;
  wa_disk : k_disk s' = apply_trace (k_disk s) tr;
  wa_frame : bio_frame (set_k_out (k_out s') (set_k_dtrace (k_dtrace s') (set_k_disk (k_disk s') s))) s';
}.

Lemma wrote_none s s' : bio_frame s s' -> wrote_all [] s s'.
Proof.
  intros H. unfold bio_frame in H. constructor; [by rewrite H; simpl; rewrite app_nil_r|by rewrite H|].
  unfold bio_frame. rewrite H. by destruct s.
Qed.

Lemma wrote_one blk d s : wrote_all [(blk, d)] s (wrote blk d s).
Proof. constructor; [done|done|]. by destruct s. Qed.

Lemma wrote_trans t1 t2 s1 s2 s3 :
  wrote_all t1 s1 s2 -> wrote_all t2 s2 s3 -> wrote_all (t1 ++ t2) s1 s3.
Proof.
  intros [T1 D1 F1] [T2 D2 F2]. constructor.
  - by rewrite T2, T1, app_assoc.
  - rewrite D2, D1. unfold apply_trace. by rewrite foldl_app.
  - unfold bio_frame in *. rewrite F2. rewrite F1. by destruct s1.
Qed.

Lemma bio_frame_log s s' : bio_frame s s' -> k_log s' = k_log s.
Proof. intros F. by rewrite F. Qed.

Lemma wrote_log tr s s' : wrote_all tr s s' -> k_log s' = k_log s.
Proof. intros [_ _ F]. by rewrite F. Qed.

#[local] Hint Resolve wrote_none wrote_one : wal.

(** A cached state whose block [blk] was changed, then written: the steps
    every log routine takes on one block. *)
Lemma fill_and_write {A} dev V L P p pp s blk i d (k : K A) (Q : A -> kstate -> Prop) :
  fs dev V L P p pp s -> L !! blk = Some i -> length d = Z.to_nat BSIZE ->
  (forall s', fs dev (<[blk := d]> V) L P p pp s' -> wrote_all [(blk, d)] s s' -> returns (k s') Q) ->
  returns ((set_bdata i d;; bwrite i;; k) s) Q.
Proof.
  intros Hfs HL Hd Hk. mred. apply returns_obind.
  eapply returns_mono; [by eapply set_bdata_spec|]. cbn beta. intros _ s1 [Hfs1 Hf1]. mred.
  destruct (bwrite_spec _ _ _ _ _ _ _ _ _ Hfs1 HL) as [-> Hfs2]. mred.
  rewrite fn_lookup_insert in Hfs2 |- *. apply Hk; [done|].
  apply (wrote_trans [] [(blk, d)] s s1); auto with wal.
Qed.

Lemma brelse_wrote dev V L P p pp s blk i :
  fs dev V L P p pp s -> L !! blk = Some i ->
  blk ∈ P \/ V blk = disk_read (k_disk s) blk ->
  returns (brelse i s) (fun _ s' => fs dev V (delete blk L) P p pp s' /\ wrote_all [] s s').
Proof.
  intros Hfs HL Hs. eapply returns_mono; [by eapply brelse_spec|]. cbn beta.
  intros _ s1 [? ?]. auto with wal.
Qed.

Lemma bread_wrote dev V L P p pp s blk :
  fs dev V L P p pp s -> L !! blk = None -> blk ∈ P \/ (size (dom L ∪ P) < NBUF)%nat ->
  returns (bread dev blk s) (fun i s' =>
    fs dev V (<[blk := i]> L) P p pp s' /\ wrote_all [] s s').
Proof.
  intros Hfs HL Hs. eapply returns_mono; [by eapply bread_spec|]. cbn beta.
  intros i s1 [? ?]. auto with wal.
Qed.

Lemma unlock_two (a b : Z) (i j : nat) : delete a (delete b (<[b := j]> (<[a := i]> ∅))) = (∅ : gmap Z nat).
Proof.
  apply map_eq. intros c. rewrite lookup_empty.
  destruct (decide (c = a)) as [->|]; [by rewrite lookup_delete_eq|]. rewrite lookup_delete_ne by done.
  destruct (decide (c = b)) as [->|]; [by rewrite lookup_delete_eq|].
  by rewrite lookup_delete_ne, !lookup_insert_ne by done.
Qed.

Section wal.
  Context (dev start : Z) (p : nat) (pp : proc).

(** Outside the log's own blocks. *)
Definition home (b : Z) : Prop := b < start \/ start + LOGBLOCKS < b.

(** The writes that copy the transaction to the log. *)
Definition log_copies (V : Z -> list Z) (blks : list Z) : list (Z * list Z) :=
  imap (fun k blk => (start + Z.of_nat k + 1, V blk)) blks.

Lemma log_copies_lookup V blks k blk :
  blks !! k = Some blk -> log_copies V blks !! k = Some (start + Z.of_nat k + 1, V blk).
Proof. intros H. unfold log_copies. rewrite list_lookup_imap, H. done. Qed.

Lemma length_log_copies V blks : length (log_copies V blks) = length blks.
Proof. unfold log_copies. apply length_imap. Qed.

(** One iteration of write_log. *)
Lemma write_log_step V P s tail blk blks :
  fs dev V ∅ P p pp s -> log_rep dev start blks (k_log s) -> blks !! tail = Some blk ->
  blk ∈ P -> home blk -> start + Z.of_nat tail + 1 ∉ P -> (size P < NBUF)%nat ->
  returns ((to ← bread dev (start + Z.of_nat tail + 1);
            blk ← lh_get (Z.of_nat tail);
            from ← bread dev blk;
            d ← bdata from;
            set_bdata to d;;
            bwrite to;;
            brelse from;;
            brelse to) s)
    (fun _ s' => let to := start + Z.of_nat tail + 1 in
       fs dev (<[to := V blk]> V) ∅ P p pp s' /\ wrote_all [(to, V blk)] s s').
Proof.
  intros Hfs Hlr Hk HP Hhome Hto Hsz. set (to := start + Z.of_nat tail + 1) in *.
  assert (Hne : to <> blk) by congruence.
  mred. apply returns_obind. eapply returns_mono.
  { apply (bread_wrote dev V ∅ P p pp s to); [done|done|]. right. by rewrite dom_empty_L, union_empty_l_L. }
  cbn beta. intros i1 s1 [Hfs1 W1]. mred.
  rewrite (lh_get_eq dev start blks s1 tail blk) by (rewrite ?(wrote_log _ _ _ W1); done). mred.
  apply returns_obind. eapply returns_mono.
  { eapply (bread_wrote dev V _ P p pp s1 blk); [done| |by left]. by rewrite lookup_insert_ne. }
  cbn beta. intros i2 s2 [Hfs2 W2]. mred.
  rewrite (bdata_eq dev V _ P p pp s2 blk i2) by (done || by rewrite lookup_insert_eq). mred.
  eapply (fill_and_write dev V _ P p pp s2 to i1 (V blk)); [done| | |].
  { by rewrite lookup_insert_ne, lookup_insert_eq by done. }
  { destruct Hfs2 as [Hbc2 _]. by eapply bc_view_length. }
  intros s4 Hfs4 W4. mred. apply returns_obind. eapply returns_mono.
  { eapply (brelse_wrote _ _ _ _ _ _ _ blk i2); [done|by rewrite lookup_insert_eq|by left]. }
  cbn beta. intros _ s5 [Hfs5 W5]. eapply returns_mono.
  { eapply (brelse_wrote _ _ _ _ _ _ _ to i1); [done| |].
    - rewrite lookup_delete_ne, lookup_insert_ne, lookup_insert_eq by done. done.
    - right. rewrite fn_lookup_insert, (wa_disk _ _ _ W5), (wa_disk _ _ _ W4). simpl.
      rewrite disk_read_insert. by rewrite decide_True. }
  cbn beta. intros _ s6 [Hfs6 W6]. split.
  - by rewrite unlock_two in Hfs6.
  - pose proof (wrote_trans _ _ _ _ _ W1 (wrote_trans _ _ _ _ _ W2 (wrote_trans _ _ _ _ _ W4
      (wrote_trans _ _ _ _ _ W5 W6)))) as W. exact W.
Qed.
(** The blocks of the transaction are outside the log, within 32 bits, and
    leave a buffer free. *)
Record txn_ok (blks : list Z) : Prop := {
  txn_home blk : blk ∈ blks -> home blk;
  txn_range blk : blk ∈ blks -> 0 <= blk < 2 ^ 31;
  txn_len : (length blks < NBUF)%nat;
}.

Lemma log_block_not_home k : (k < Z.to_nat LOGBLOCKS)%nat -> ~ home (start + Z.of_nat k + 1).
Proof. unfold home, LOGBLOCKS, MAXOPBLOCKS. lia. Qed.

Lemma log_block_unpinned blks k :
  txn_ok blks -> (k < length blks)%nat -> start + Z.of_nat k + 1 ∉ (list_to_set blks : gset Z).
Proof.
  intros Ht Hk. rewrite elem_of_list_to_set. intros Hin%(txn_home _ Ht).
  apply (log_block_not_home k); [|done]. pose proof (txn_len _ Ht). unfold NBUF, LOGBLOCKS, MAXOPBLOCKS in *. lia.
Qed.

(** write_log copies every block of the transaction to the log. *)
Lemma write_log_spec V blks s :
  fs dev V ∅ (list_to_set blks) p pp s -> log_rep dev start blks (k_log s) -> txn_ok blks ->
  returns (write_log s) (fun _ s' => exists V',
    fs dev V' ∅ (list_to_set blks) p pp s' /\ wrote_all (log_copies V blks) s s' /\
    (forall b, home b -> V' b = V b) /\ V' start = V start /\
    (forall k blk, blks !! k = Some blk -> V' (start + Z.of_nat k + 1) = V blk)).
Proof.
  intros Hfs Hlr Ht. unfold write_log. mred.
  rewrite (lr_dev _ _ _ _ Hlr), (lr_start _ _ _ _ Hlr), (lr_n _ _ _ _ Hlr).
  assert (Hlen : (length blks < Z.to_nat LOGBLOCKS)%nat).
  { pose proof (txn_len _ Ht). unfold NBUF, LOGBLOCKS, MAXOPBLOCKS in *. lia. }
  pose (I := fun (n : nat) (s1 : kstate) => exists V1,
    fs dev V1 ∅ (list_to_set blks) p pp s1 /\ wrote_all (take n (log_copies V blks)) s s1 /\
    (forall b, home b -> V1 b = V b) /\ V1 start = V start /\
    (forall k blk, (k < n)%nat -> blks !! k = Some blk -> V1 (start + Z.of_nat k + 1) = V blk)).
  eapply returns_mono; [apply (foreach_upto I)|].
  - exists V. split_and!; try done; [|lia]. apply wrote_none, bio_frame_refl.
  - intros n s1 Hn (V1 & Hfs1 & W1 & Hh1 & Hs1 & Hk1).
    destruct (lookup_lt_is_Some_2 blks n Hn) as [blk Hblk].
    assert (Hin : blk ∈ blks) by (by eapply list_elem_of_lookup_2).
    eapply returns_mono.
    { apply (write_log_step V1 (list_to_set blks) s1 n blk blks); try done.
      - by rewrite (wrote_log _ _ _ W1).
      - by apply elem_of_list_to_set.
      - by apply (txn_home _ Ht).
      - by apply log_block_unpinned.
      - rewrite size_list_to_set by apply Hlr. apply (txn_len _ Ht). }
    cbn beta zeta. intros _ s2 [Hfs2 W2]. pose proof (txn_home _ Ht _ Hin) as Hhb.
    eexists. split; [exact Hfs2|]. split_and!.
    + erewrite take_S_r by (by apply log_copies_lookup).
      rewrite Hh1 in W2 by done. by eapply wrote_trans.
    + intros b Hb. rewrite fn_lookup_insert_ne; [by apply Hh1|]. intros <-.
      by apply (log_block_not_home n); [lia|].
    + rewrite fn_lookup_insert_ne; [done|lia].
    + intros k x Hk Hx. destruct (decide (k = n)) as [->|].
      * rewrite fn_lookup_insert. rewrite Hh1 by done. congruence.
      * rewrite fn_lookup_insert_ne by lia. apply Hk1; [lia|done].
  - intros u s1 (V1 & Hfs1 & W1 & Hh1 & Hs1 & Hk1). exists V1. split_and!; try done.
    + rewrite take_ge in W1 by (by rewrite length_log_copies). done.
    + intros k x Hx. apply (Hk1 k); [|done]. by apply lookup_lt_Some in Hx.
Qed.

(** ** The on-disk header *)

(** Block contents [d] are a log header listing [blks]. *)
Definition is_header (d : list Z) (blks : list Z) : Prop :=
  length d = Z.to_nat BSIZE /\ get32 d 0 = Z.of_nat (length blks) /\
  forall k blk, blks !! k = Some blk -> get32 d (4 + 4 * Z.of_nat k) = blk.

Lemma s32_header d blks :
  is_header d blks -> (length blks <= Z.to_nat LOGBLOCKS)%nat ->
  s32 (get32 d 0) = Z.of_nat (length blks).
Proof.
  intros (_ & -> & _) Hl. apply s32_small. unfold LOGBLOCKS, MAXOPBLOCKS in Hl. lia.
Qed.

(** write_head puts the in-memory header on disk. *)
Lemma write_head_spec V P blks s :
  fs dev V ∅ P p pp s -> log_rep dev start blks (k_log s) ->
  (forall blk, blk ∈ blks -> 0 <= blk < 2 ^ 31) -> start ∉ P -> (size P < NBUF)%nat ->
  returns (write_head s) (fun _ s' => exists H, is_header H blks /\
    fs dev (<[start := H]> V) ∅ P p pp s' /\ wrote_all [(start, H)] s s').
Proof.
  intros Hfs Hlr Hrng Hst Hsz. unfold write_head. mred.
  rewrite (lr_dev _ _ _ _ Hlr), (lr_start _ _ _ _ Hlr), (lr_n _ _ _ _ Hlr).
  assert (Hcap : (length blks <= 30)%nat) by (pose proof (lr_room _ _ _ _ Hlr); done).
  apply returns_obind. eapply returns_mono.
  { apply (bread_wrote dev V ∅ P p pp s start); [done|done|].
    right. by rewrite dom_empty_L, union_empty_l_L. }
  cbn beta. intros i s1 [Hfs1 W1]. mred.
  assert (HL : (<[start := i]> ∅ : gmap Z nat) !! start = Some i) by apply lookup_insert_eq.
  rewrite (bdata_eq _ _ _ _ _ _ _ _ _ Hfs1 HL). mred.
  assert (Hlen : Z.of_nat (length (V start)) = 1024).
  { destruct Hfs1 as [Hbc1 _]. by rewrite (bc_view_length _ _ _ _ _ _ start Hbc1). }
  apply returns_obind. eapply returns_mono.
  { eapply set_bdata_spec; [done|done|]. rewrite length_put32 by lia. unfold BSIZE. lia. }
  cbn beta. intros _ s2 [Hfs2 F2]. mred.
  pose (I := fun (n : nat) (s' : kstate) => exists d,
    fs dev (<[start := d]> V) (<[start := i]> ∅) P p pp s' /\ bio_frame s1 s' /\
    Z.of_nat (length d) = 1024 /\ get32 d 0 = Z.of_nat (length blks) /\
    forall k blk, (k < n)%nat -> blks !! k = Some blk -> get32 d (4 + 4 * Z.of_nat k) = blk).
  apply returns_obind. eapply returns_mono; [apply (foreach_upto I)|].
  - eexists. split; [exact Hfs2|]. split; [done|]. split; [rewrite length_put32; lia|]. split; [|lia].
    rewrite get32_put32_same by lia. unfold u32. rewrite Z.mod_small; lia.
  - intros n s3 Hn (d & Hfs3 & F3 & Hd & H0 & Hk). destruct (lookup_lt_is_Some_2 blks n Hn) as [blk Hblk].
    mred. rewrite (lh_get_eq dev start blks s3 n blk); [|by rewrite (bio_frame_log _ _ F3), (wrote_log _ _ _ W1)|done].
    mred. rewrite (bdata_eq _ _ _ _ _ _ _ _ _ Hfs3 HL). mred. rewrite fn_lookup_insert.
    eapply returns_mono.
    { eapply set_bdata_spec; [done|done|]. rewrite length_put32 by lia. unfold BSIZE. lia. }
    cbn beta. intros u s4 [[Hbc4 Hr4] F4]. eexists. split.
    { split; [|exact Hr4]. eapply bc_view_ext; [|exact Hbc4]. intros b. simpl.
      destruct (decide (b = start)) as [->|]; [by rewrite !fn_lookup_insert|].
      by rewrite !fn_lookup_insert_ne by done. }
    split; [by eapply bio_frame_trans|]. split; [rewrite length_put32; lia|].
    split; [rewrite get32_put32_ne by lia; done|].
    intros k x Hkn Hx. destruct (decide (k = n)) as [->|].
    + rewrite get32_put32_same by lia. rewrite Hblk in Hx. injection Hx as <-.
      assert (blk ∈ blks) as Hin%Hrng by (by eapply list_elem_of_lookup_2).
      unfold u32. rewrite Z.mod_small; lia.
    + rewrite get32_put32_ne by lia. apply Hk; [lia|done].
  - intros u s3 (d & Hfs3 & F3 & Hd & H0 & Hk). mred.
    destruct (bwrite_spec _ _ _ _ _ _ _ _ _ Hfs3 HL) as [-> Hfs4]. mred.
    rewrite fn_lookup_insert in *. eapply returns_mono.
    { eapply (brelse_wrote _ _ _ _ _ _ _ start i); [done..|]. right.
      rewrite fn_lookup_insert. simpl. rewrite disk_read_insert. by rewrite decide_True. }
    cbn beta. intros _ s5 [Hfs5 W5]. exists d. split_and!.
    + split_and!; [unfold BSIZE; lia|done|]. intros k blk Hx. apply (Hk k); [|done].
      by apply lookup_lt_Some in Hx.
    + by rewrite delete_insert_id in Hfs5.
    + apply (wrote_trans [] [(start, d)] s s3); [apply (wrote_trans [] [] s s1); auto with wal|].
      apply (wrote_trans [(start, d)] [] s3 (wrote start d s3)); auto with wal.
Qed.

(** ** Installing a transaction *)

Lemma fs_set_out V L P s o : fs dev V L P p pp s -> fs dev V L P p pp (set_k_out o s).
Proof. intros [H Hr]. split; [by apply (bc_ext _ _ _ _ _ s)|by apply (running_ext _ _ _ s)]. Qed.

Lemma wrote_out s o : wrote_all [] s (set_k_out o s).
Proof. constructor; [by rewrite app_nil_r|done|by destruct s]. Qed.

(** What is pinned after [blk] has been installed. *)
Definition unpinned (recovering : bool) (blk : Z) (P : gset Z) : gset Z :=
  if recovering then P else P ∖ {[blk]}.

(** bunpin(dbuf), skipped during recovery. *)
Lemma install_unpin (recovering : bool) V L P s blk i :
  fs dev V L P p pp s -> L !! blk = Some i -> recovering = false -> blk ∈ P ->
  returns (when (negb recovering) (bunpin i) s) (fun _ s' =>
    fs dev V L (unpinned recovering blk P) p pp s' /\ wrote_all [] s s').
Proof.
  intros [Hbc Hr] HL -> HP. simpl. eapply returns_mono; [eapply (bunpin_spec _ _ _ _ p pp []); try done; set_solver|].
  cbn beta. intros _ s' (Hbc' & Hr' & F). split; [by split|auto with wal].
Qed.

(** One iteration of install_trans. *)
Lemma install_step (recovering : bool) V P s tail blk blks :
  fs dev V ∅ P p pp s -> log_rep dev start blks (k_log s) -> blks !! tail = Some blk ->
  home blk -> (tail < Z.to_nat LOGBLOCKS)%nat -> start + Z.of_nat tail + 1 ∉ P ->
  (if recovering then P = ∅ else blk ∈ P) -> (size P < NBUF)%nat ->
  returns ((dst ← lh_get (Z.of_nat tail);
            when recovering (printf "recovering tail %d dst %d" [Z.of_nat tail; dst]);;
            lbuf ← bread dev (start + Z.of_nat tail + 1);
            dbuf ← bread dev dst;
            d ← bdata lbuf;
            set_bdata dbuf d;;
            bwrite dbuf;;
            when (negb recovering) (bunpin dbuf);;
            brelse lbuf;;
            brelse dbuf) s)
    (fun _ s' => let from := start + Z.of_nat tail + 1 in
       fs dev (<[blk := V from]> V) ∅ (unpinned recovering blk P) p pp s' /\
       wrote_all [(blk, V from)] s s').
Proof.
  intros Hfs Hlr Hk Hhome Htail Hfrom HP Hsz. set (from := start + Z.of_nat tail + 1) in *.
  assert (Hne : from <> blk) by (intros <-; by apply (log_block_not_home tail)).
  mred. rewrite (lh_get_eq dev start blks s tail blk) by done. mred.
  set (s0 := if recovering then set_k_out (k_out s ++ [("recovering tail %d dst %d"%string, [Z.of_nat tail; blk])]) s else s).
  replace (when recovering _ s) with (Ret tt s0 : outcome kstate unit) by (by destruct recovering).
  assert (Hfs0 : fs dev V ∅ P p pp s0) by (unfold s0; destruct recovering; [by apply fs_set_out|done]).
  assert (W0 : wrote_all [] s s0)
    by (unfold s0; destruct recovering; [apply wrote_out|apply wrote_none, bio_frame_refl]).
  mred. apply returns_obind. eapply returns_mono.
  { apply (bread_wrote dev V ∅ P p pp s0 from); [done|done|]. right. by rewrite dom_empty_L, union_empty_l_L. }
  cbn beta. intros i1 s1 [Hfs1 W1]. mred. apply returns_obind. eapply returns_mono.
  { eapply (bread_wrote dev V _ P p pp s1 blk); [done|by rewrite lookup_insert_ne|].
    destruct recovering; [|by left]. right. subst P. rewrite dom_insert_L, dom_empty_L, !union_empty_r_L.
    rewrite size_singleton. unfold NBUF. lia. }
  cbn beta. intros i2 s2 [Hfs2 W2]. mred.
  set (L := <[blk:=i2]> (<[from:=i1]> ∅) : gmap Z nat) in *.
  assert (HL1 : L !! from = Some i1) by (unfold L; by rewrite lookup_insert_ne, lookup_insert_eq).
  assert (HL2 : L !! blk = Some i2) by apply lookup_insert_eq.
  rewrite (bdata_eq _ _ _ _ _ _ _ _ _ Hfs2 HL1). mred.
  eapply (fill_and_write dev V L P p pp s2 blk i2 (V from)); [done|done| |].
  { destruct Hfs2 as [Hbc2 _]. by eapply bc_view_length. }
  intros s3 Hfs3 W3. mred. apply returns_obind.
  set (V' := <[blk:=V from]> V) in *.
  assert (Hst4 : returns (when (negb recovering) (bunpin i2) s3) (fun _ s' =>
    fs dev V' L (unpinned recovering blk P) p pp s' /\ wrote_all [] s3 s')).
  { destruct recovering; [|by apply install_unpin]. mred. split; [done|].
    apply wrote_none, bio_frame_refl. }
  eapply returns_mono; [exact Hst4|]. cbn beta. intros _ s4 [Hfs4 W4]. mred.
  pose proof (wrote_trans _ _ _ _ _ W1 (wrote_trans _ _ _ _ _ W2 (wrote_trans _ _ _ _ _ W3 W4))) as W14.
  simpl in W14.
  apply returns_obind. eapply returns_mono.
  { eapply (brelse_wrote _ _ _ _ _ _ _ from i1); [done|done|]. right.
    unfold V'. rewrite fn_lookup_insert_ne by done. rewrite (wa_disk _ _ _ W14). simpl.
    rewrite disk_read_insert, decide_False by done. destruct Hfs0 as [Hbc0 _].
    apply (bc_clean _ _ _ _ _ _ Hbc0); set_solver. }
  cbn beta. intros _ s5 [Hfs5 W5]. eapply returns_mono.
  { eapply (brelse_wrote _ _ _ _ _ _ _ blk i2); [done|by rewrite lookup_delete_ne|]. right.
    unfold V'. rewrite fn_lookup_insert, (wa_disk _ _ _ W5), (wa_disk _ _ _ W14). simpl.
    rewrite disk_read_insert. by rewrite decide_True. }
  cbn beta. intros _ s6 [Hfs6 W6]. split.
  - unfold L in Hfs6. rewrite delete_delete, unlock_two in Hfs6. done.
  - apply (wrote_trans [] _ _ _ _ W0 (wrote_trans _ [] _ _ _ W14 (wrote_trans [] [] _ _ _ W5 W6))).
Qed.

(** The writes that install the logged copies. *)
Definition home_copies (V : Z -> list Z) (blks : list Z) : list (Z * list Z) :=
  imap (fun k blk => (blk, V (start + Z.of_nat k + 1))) blks.

Lemma home_copies_lookup V blks k blk :
  blks !! k = Some blk -> home_copies V blks !! k = Some (blk, V (start + Z.of_nat k + 1)).
Proof. intros H. unfold home_copies. rewrite list_lookup_imap, H. done. Qed.

Lemma length_home_copies V blks : length (home_copies V blks) = length blks.
Proof. unfold home_copies. apply length_imap. Qed.

(** The pinned blocks when the first [n] have been installed. *)
Definition still_pinned (recovering : bool) (n : nat) (blks : list Z) : gset Z :=
  if recovering then ∅ else list_to_set (drop n blks).

Lemma still_pinned_step recovering n blks blk :
  NoDup blks -> blks !! n = Some blk ->
  unpinned recovering blk (still_pinned recovering n blks) = still_pinned recovering (S n) blks.
Proof.
  intros Hnd Hn. destruct recovering; [done|]. simpl.
  assert (Hnd' : NoDup (drop n blks)).
  { eapply sublist_NoDup; [exact Hnd|apply sublist_drop]. }
  rewrite (drop_S _ _ _ Hn) in Hnd' |- *. apply NoDup_cons in Hnd' as [Hnin _].
  set_solver.
Qed.

Lemma install_trans_spec (recovering : bool) V blks s :
  fs dev V ∅ (still_pinned recovering 0 blks) p pp s -> log_rep dev start blks (k_log s) ->
  (forall blk, blk ∈ blks -> home blk) -> (recovering = false -> (length blks < NBUF)%nat) ->
  returns (install_trans recovering s) (fun _ s' => exists V',
    fs dev V' ∅ ∅ p pp s' /\ wrote_all (home_copies V blks) s s' /\
    (forall k blk, blks !! k = Some blk -> V' blk = V (start + Z.of_nat k + 1)) /\
    (forall b, b ∉ blks -> V' b = V b)).
Proof.
  intros Hfs Hlr Hhome Hroom. unfold install_trans. mred.
  rewrite (lr_dev _ _ _ _ Hlr), (lr_start _ _ _ _ Hlr), (lr_n _ _ _ _ Hlr).
  pose proof (lr_nodup _ _ _ _ Hlr) as Hnd. pose proof (lr_room _ _ _ _ Hlr) as Hcap.
  pose (I := fun (n : nat) (s1 : kstate) => exists V1,
    fs dev V1 ∅ (still_pinned recovering n blks) p pp s1 /\
    wrote_all (take n (home_copies V blks)) s s1 /\
    (forall k blk, (k < n)%nat -> blks !! k = Some blk -> V1 blk = V (start + Z.of_nat k + 1)) /\
    (forall b, b ∉ take n blks -> V1 b = V b)).
  eapply returns_mono; [apply (foreach_upto I)|].
  - exists V. split_and!; try done; [|lia]. apply wrote_none, bio_frame_refl.
  - intros n s1 Hn (V1 & Hfs1 & W1 & Hin1 & Hout1).
    destruct (lookup_lt_is_Some_2 blks n Hn) as [blk Hblk].
    assert (Hbin : blk ∈ blks) by (by eapply list_elem_of_lookup_2).
    assert (Hfrom : forall b, b ∈ blks -> b <> start + Z.of_nat n + 1).
    { intros b Hb ->. apply Hhome, log_block_not_home in Hb; [done|lia]. }
    eapply returns_mono.
    { apply (install_step recovering V1 (still_pinned recovering n blks) s1 n blk blks); try done.
      - by rewrite (wrote_log _ _ _ W1).
      - by apply Hhome.
      - lia.
      - destruct recovering; simpl; [set_solver|]. rewrite elem_of_list_to_set.
        intros Hin. eapply Hfrom; [|done]. by eapply sublist_subseteq; [apply sublist_drop|].
      - destruct recovering; simpl; [done|]. rewrite elem_of_list_to_set.
        rewrite (drop_S _ _ _ Hblk). by left.
      - unfold still_pinned. destruct recovering; [rewrite size_empty; unfold NBUF; lia|].
        rewrite size_list_to_set by (eapply sublist_NoDup; [exact Hnd|apply sublist_drop]).
        rewrite length_drop. specialize (Hroom eq_refl). lia. }
    cbn beta zeta. intros u s2 [Hfs2 W2]. rewrite (still_pinned_step recovering n blks blk) in Hfs2 by done.
    assert (HV1 : V1 (start + Z.of_nat n + 1) = V (start + Z.of_nat n + 1)).
    { apply Hout1. intros Hin. eapply Hfrom; [|done]. by eapply sublist_subseteq; [apply sublist_take|]. }
    rewrite HV1 in *. eexists. split; [exact Hfs2|]. split_and!.
    + erewrite take_S_r by (by apply home_copies_lookup). by eapply wrote_trans.
    + intros k x Hk Hx. destruct (decide (x = blk)) as [->|].
      * rewrite fn_lookup_insert. by rewrite (NoDup_lookup _ _ _ _ Hnd Hx Hblk).
      * rewrite fn_lookup_insert_ne by done. apply Hin1; [|done].
        destruct (decide (k = n)) as [->|]; [congruence|lia].
    + intros b. rewrite (take_S_r _ _ blk) by done. intros Hb.
      rewrite fn_lookup_insert_ne by set_solver. apply Hout1. set_solver.
  - intros u s1 (V1 & Hfs1 & W1 & Hin1 & Hout1). exists V1. split_and!.
    + destruct recovering; simpl in Hfs1; [done|]. by rewrite drop_ge in Hfs1 by lia.
    + by rewrite take_ge in W1 by (by rewrite length_home_copies).
    + intros k blk Hk. apply Hin1; [|done]. by apply lookup_lt_Some in Hk.
    + intros b Hb. apply Hout1. by rewrite take_ge by lia.
Qed.

(** ** Recovery *)

(** The header a commit leaves: distinct home blocks within 32 bits. *)
Record logged_blocks (blks : list Z) : Prop := {
  lb_nodup : NoDup blks;
  lb_room : (length blks <= Z.to_nat LOGBLOCKS)%nat;
  lb_home blk : blk ∈ blks -> home blk;
  lb_range blk : blk ∈ blks -> 0 <= blk < 2 ^ 31;
}.

(** read_head loads the header: the fields of log.lh after [n] steps. *)
Definition loading (blks : list Z) (n : nat) (l0 l : logst) : Prop :=
  l = set_log_lh (log_lh l) l0 /\ lh_n (log_lh l) = Z.of_nat (length blks) /\
  length (lh_block (log_lh l)) = Z.to_nat LOGBLOCKS /\
  forall k blk, (k < n)%nat -> blks !! k = Some blk -> lh_block (log_lh l) !! k = Some blk.

Lemma loading_done blks l0 l :
  loading blks (length blks) l0 l -> logged_blocks blks ->
  log_dev l0 = dev -> log_start l0 = start -> log_rep dev start blks l.
Proof.
  intros (-> & Hn & Hcap & Hk) Hb <- <-. simpl in *.
  constructor; simpl; try done; try apply Hb.
  apply list_eq. intros k. destruct (decide (k < length blks)%nat) as [Hlt|].
  - rewrite lookup_take_lt by done. destruct (lookup_lt_is_Some_2 _ _ Hlt) as [x Hx].
    rewrite Hx. by apply Hk.
  - rewrite lookup_take_ge by lia. symmetry. apply lookup_ge_None. lia.
Qed.

Lemma lh_set_loading blks n l0 s blk :
  loading blks n l0 (k_log s) -> (length blks <= Z.to_nat LOGBLOCKS)%nat -> blks !! n = Some blk ->
  returns (lh_set (Z.of_nat n) blk s) (fun _ s' =>
    exists l', s' = set_k_log l' s /\ loading blks (S n) l0 l').
Proof.
  intros (Hl & Hn & Hcap & Hk) Hroom Hblk. assert (Hlt := lookup_lt_Some _ _ _ Hblk).
  rewrite lh_set_eq by lia. eexists. split; [reflexivity|]. unfold loading. simpl. split_and!.
  - by rewrite Hl.
  - done.
  - by rewrite length_insert.
  - intros k x Hkn Hx. rewrite Nat2Z.id. destruct (decide (k = n)) as [->|].
    + rewrite list_lookup_insert_eq by lia. congruence.
    + rewrite list_lookup_insert_ne by done. apply Hk; [lia|done].
Qed.

Lemma read_head_spec V blks s :
  fs dev V ∅ ∅ p pp s -> log_dev (k_log s) = dev -> log_start (k_log s) = start ->
  length (lh_block (log_lh (k_log s))) = Z.to_nat LOGBLOCKS ->
  is_header (V start) blks -> logged_blocks blks ->
  returns (read_head s) (fun _ s' =>
    fs dev V ∅ ∅ p pp s' /\ log_rep dev start blks (k_log s') /\
    log_outstanding (k_log s') = log_outstanding (k_log s) /\
    log_committing (k_log s') = log_committing (k_log s) /\
    wrote_all [] (set_k_log (k_log s') s) s').
Proof.
  intros Hfs Hdev Hstart Hcap Hh Hb. unfold read_head. mred. rewrite Hdev, Hstart.
  apply returns_obind. eapply returns_mono.
  { apply (bread_wrote dev V ∅ ∅ p pp s start); [done|done|]. right. by vm_compute; lia. }
  cbn beta. intros i s1 [Hfs1 W1]. mred.
  assert (HL : (<[start := i]> ∅ : gmap Z nat) !! start = Some i) by apply lookup_insert_eq.
  rewrite (bdata_eq _ _ _ _ _ _ _ _ _ Hfs1 HL). mred.
  pose proof (lb_room _ Hb) as Hroom. rewrite (s32_header _ blks) by done.
  unfold lh_set_n, upd_log. mred. pose proof (wrote_log _ _ _ W1) as Hl1.
  set (s2 := set_k_log _ s1).
  pose (I := fun (n : nat) (s' : kstate) => exists l', s' = set_k_log l' s1 /\ loading blks n (k_log s) l').
  apply returns_obind. eapply returns_mono; [apply (foreach_upto I)|].
  - eexists. split; [reflexivity|]. unfold loading. simpl. rewrite Hl1. split_and!; try done. lia.
  - intros n s3 Hn (l3 & -> & Hld). destruct (lookup_lt_is_Some_2 blks n Hn) as [blk Hblk].
    assert (Hx : s32 (get32 (V start) (4 + 4 * Z.of_nat n)) = blk).
    { destruct Hh as (_ & _ & Hh). rewrite (Hh n blk Hblk). apply s32_small, (lb_range _ Hb).
      by eapply list_elem_of_lookup_2. }
    rewrite Hx. eapply returns_mono; [by eapply lh_set_loading|].
    cbn beta. intros u s4 (l4 & -> & Hld4). by exists l4.
  - intros u s3 (l3 & -> & Hld). mred. eapply returns_mono.
    { eapply (brelse_wrote _ _ _ _ _ _ _ start i); [by apply fs_set_log|done|]. right.
      simpl. destruct Hfs as [Hbc _]. rewrite (wa_disk _ _ _ W1). simpl.
      apply (bc_clean _ _ _ _ _ _ Hbc); set_solver. }
    cbn beta. intros _ s4 [Hfs4 W4]. rewrite delete_insert_id in Hfs4 by done.
    pose proof (wrote_log _ _ _ W4) as Hl4. simpl in Hl4. rewrite Hl4.
    split_and!; [done|by eapply loading_done|by destruct Hld as [-> _]|by destruct Hld as [-> _]|].
    eapply (wrote_trans [] []); [|exact W4]. destruct W1 as [T1 D1 F1]. constructor; simpl.
    + done.
    + done.
    + unfold bio_frame in *. rewrite F1. by destruct s.
Qed.

Lemma wrote_set_log tr s s' l : wrote_all tr s s' -> wrote_all tr (set_k_log l s) (set_k_log l s').
Proof.
  intros [T D F]. constructor; simpl; try done. unfold bio_frame in *. rewrite F. by destruct s.
Qed.

Lemma set_k_log_twice l l' s : set_k_log l (set_k_log l' s) = set_k_log l s.
Proof. done. Qed.

(** log.lh.n = 0 empties the transaction. *)
Lemma log_rep_clear blks l :
  log_rep dev start blks l -> log_rep dev start [] (set_log_lh (set_lh_n 0 (log_lh l)) l).
Proof.
  intros H. constructor; simpl; try apply H; try done; [constructor|lia].
Qed.

Lemma start_not_home : ~ home start.
Proof. unfold home, LOGBLOCKS, MAXOPBLOCKS. lia. Qed.

(** Clearing the header at the end of commit and of recovery. *)
Lemma clear_head_spec V blks s :
  fs dev V ∅ ∅ p pp s -> log_rep dev start blks (k_log s) ->
  returns ((lh_set_n 0;; write_head) s) (fun _ s' => exists H0 l',
    is_header H0 [] /\ fs dev (<[start := H0]> V) ∅ ∅ p pp s' /\ k_log s' = l' /\
    log_rep dev start [] l' /\ log_outstanding l' = log_outstanding (k_log s) /\
    log_committing l' = log_committing (k_log s) /\
    wrote_all [(start, H0)] (set_k_log l' s) s').
Proof.
  intros Hfs Hlr. unfold lh_set_n, upd_log. mred. set (l' := set_log_lh _ _).
  eapply returns_mono.
  { apply (write_head_spec V ∅ [] (set_k_log l' s)); [by apply fs_set_log|by eapply log_rep_clear| |..].
    - set_solver.
    - set_solver.
    - rewrite size_empty. unfold NBUF. lia. }
  cbn beta. intros _ s' (H0 & Hh & Hfs' & W). exists H0, l'. split_and!; try done.
  - apply (wrote_log _ _ _ W).
  - by eapply log_rep_clear.
Qed.

(** recover_from_log installs the logged copies and clears the header. *)
Lemma recover_spec V blks s :
  fs dev V ∅ ∅ p pp s -> log_dev (k_log s) = dev -> log_start (k_log s) = start ->
  length (lh_block (log_lh (k_log s))) = Z.to_nat LOGBLOCKS ->
  is_header (V start) blks -> logged_blocks blks ->
  returns (recover_from_log s) (fun _ s' => exists V' H0 l',
    fs dev V' ∅ ∅ p pp s' /\ k_log s' = l' /\ log_rep dev start [] l' /\ is_header H0 [] /\
    V' start = H0 /\
    (forall k blk, blks !! k = Some blk -> V' blk = V (start + Z.of_nat k + 1)) /\
    (forall b, home b -> b ∉ blks -> V' b = V b) /\
    wrote_all (home_copies V blks ++ [(start, H0)]) (set_k_log l' s) s').
Proof.
  intros Hfs Hdev Hstart Hcap Hh Hb. unfold recover_from_log. mred. apply returns_obind.
  eapply returns_mono; [by apply (read_head_spec V blks)|].
  cbn beta. intros _ s1 (Hfs1 & Hlr1 & _ & _ & W1). mred. apply returns_obind.
  eapply returns_mono; [apply (install_trans_spec true V blks s1 Hfs1 Hlr1 (lb_home _ Hb)); done|].
  cbn beta. intros _ s2 (V2 & Hfs2 & W2 & Hin2 & Hout2). pose proof (wrote_log _ _ _ W2) as Hl2.
  eapply returns_mono; [by apply (clear_head_spec V2 blks s2); [|rewrite Hl2]|].
  cbn beta. intros _ s3 (H0 & l' & Hh0 & Hfs3 & Hl3 & Hlr3 & _ & _ & W3).
  eexists _, H0, l'. split; [exact Hfs3|]. split_and!; try done.
  - apply fn_lookup_insert.
  - intros k blk Hk. rewrite fn_lookup_insert_ne; [by apply Hin2|].
    intros <-. apply start_not_home, (lb_home _ Hb). by eapply list_elem_of_lookup_2.
  - intros b Hhb Hn. rewrite fn_lookup_insert_ne; [by apply Hout2|]. intros <-. by apply start_not_home.
  - eapply wrote_trans; [|exact W3]. apply (wrote_set_log _ _ _ l') in W1, W2.
    rewrite set_k_log_twice in W1. exact (wrote_trans _ _ _ _ _ W1 W2).
Qed.

(** initlog, the same from the superblock. *)
Lemma initlog_spec V blks sb s :
  fs dev V ∅ ∅ p pp s -> sb_logstart sb = start ->
  length (lh_block (log_lh (k_log s))) = Z.to_nat LOGBLOCKS ->
  is_header (V start) blks -> logged_blocks blks ->
  returns (initlog dev sb s) (fun _ s' => exists V' H0,
    fs dev V' ∅ ∅ p pp s' /\ log_rep dev start [] (k_log s') /\ is_header H0 [] /\
    (forall k blk, blks !! k = Some blk -> V' blk = V (start + Z.of_nat k + 1)) /\
    (forall b, home b -> b ∉ blks -> V' b = V b) /\
    k_dtrace s' = k_dtrace s ++ home_copies V blks ++ [(start, H0)] /\
    k_disk s' = apply_trace (k_disk s) (home_copies V blks ++ [(start, H0)])).
Proof.
  intros Hfs Hsb Hcap Hh Hb. unfold initlog. rewrite (proj2 (Z.leb_gt BSIZE _)) by done.
  unfold upd_log. mred. rewrite Hsb. eapply returns_mono.
  { apply (recover_spec V blks); try done. by apply fs_set_log, fs_set_log. }
  cbn beta. intros _ s' (V' & H0 & l' & Hfs' & Hl & Hlr & Hh0 & _ & Hin & Hout & W).
  exists V', H0. rewrite Hl. split_and!; try done.
  - apply (wa_trace _ _ _ W).
  - apply (wa_disk _ _ _ W).
Qed.

(** ** Commit *)

(** The block writes of a commit: copies to the log, the header, copies to
    the home locations, the empty header. *)
Definition commit_trace (V : Z -> list Z) (blks : list Z) (H H0 : list Z) : list (Z * list Z) :=
  log_copies V blks ++ (start, H) :: ((fun b => (b, V b)) <$> blks) ++ [(start, H0)].

Lemma home_copies_logged V V1 blks :
  (forall k blk, blks !! k = Some blk -> V1 (start + Z.of_nat k + 1) = V blk) ->
  home_copies V1 blks = (fun b => (b, V b)) <$> blks.
Proof.
  intros H. apply list_eq. intros k. unfold home_copies. rewrite list_lookup_imap, list_lookup_fmap.
  destruct (blks !! k) eqn:E; [|done]. simpl. by rewrite (H _ _ E).
Qed.

Lemma commit_spec V blks s :
  fs dev V ∅ (list_to_set blks) p pp s -> log_rep dev start blks (k_log s) -> txn_ok blks ->
  blks <> [] ->
  returns (commit s) (fun _ s' => exists V' H H0 l',
    fs dev V' ∅ ∅ p pp s' /\ k_log s' = l' /\ log_rep dev start [] l' /\
    log_outstanding l' = log_outstanding (k_log s) /\
    log_committing l' = log_committing (k_log s) /\
    is_header H blks /\ is_header H0 [] /\ V' start = H0 /\ (forall b, home b -> V' b = V b) /\
    wrote_all (commit_trace V blks H H0) (set_k_log l' s) s').
Proof.
  intros Hfs Hlr Ht Hne. unfold commit. mred. rewrite (lr_n _ _ _ _ Hlr).
  assert (Hpos : (0 <? Z.of_nat (length blks)) = true) by (apply Z.ltb_lt; destruct blks; [done|rewrite length_cons; lia]).
  rewrite Hpos. mred. apply returns_obind.
  eapply returns_mono; [by apply (write_log_spec V blks s)|].
  cbn beta. intros _ s1 (V1 & Hfs1 & W1 & Hh1 & Hs1 & Hk1). mred.
  pose proof (wrote_log _ _ _ W1) as Hl1. apply returns_obind. eapply returns_mono.
  { apply (write_head_spec V1 (list_to_set blks) blks s1); [done|by rewrite Hl1|apply Ht| |].
    - rewrite elem_of_list_to_set. intros Hin%(txn_home _ Ht). by apply start_not_home.
    - rewrite size_list_to_set by apply Hlr. apply Ht. }
  cbn beta. intros _ s2 (H & Hh & Hfs2 & W2). pose proof (wrote_log _ _ _ W2) as Hl2.
  set (V2 := <[start:=H]> V1) in *. mred. apply returns_obind.
  assert (Hk2 : forall k blk, blks !! k = Some blk -> V2 (start + Z.of_nat k + 1) = V blk).
  { intros k blk Hk. unfold V2. rewrite fn_lookup_insert_ne by lia. by apply Hk1. }
  eapply returns_mono.
  { apply (install_trans_spec false V2 blks s2); [done|by rewrite Hl2, Hl1|apply Ht|]. intros _. apply Ht. }
  cbn beta. intros _ s3 (V3 & Hfs3 & W3 & Hin3 & Hout3). pose proof (wrote_log _ _ _ W3) as Hl3.
  rewrite (home_copies_logged V V2) in W3 by done.
  eapply returns_mono; [apply (clear_head_spec V3 blks s3); [done|by rewrite Hl3, Hl2, Hl1]|].
  cbn beta. intros _ s4 (H0 & l' & Hh0 & Hfs4 & Hl4 & Hlr4 & Ho4 & Hc4 & W4).
  eexists _, H, H0, l'. split; [exact Hfs4|]. split_and!; try done.
  - by rewrite Ho4, Hl3, Hl2, Hl1.
  - by rewrite Hc4, Hl3, Hl2, Hl1.
  - apply fn_lookup_insert.
  - intros b Hb. rewrite fn_lookup_insert_ne by (intros <-; by apply start_not_home).
    destruct (decide (b ∈ blks)) as [[k Hk]%list_elem_of_lookup|Hn].
    + by rewrite (Hin3 _ _ Hk), (Hk2 _ _ Hk).
    + rewrite (Hout3 _ Hn). unfold V2. rewrite fn_lookup_insert_ne by (intros <-; by apply start_not_home).
      by apply Hh1.
  - unfold commit_trace. apply (wrote_set_log _ _ _ l') in W1, W2, W3.
    exact (wrote_trans _ _ _ _ _ W1 (wrote_trans _ _ _ _ _ W2 (wrote_trans _ _ _ _ _ W3 W4))).
Qed.

End wal.

(** ** Crashes *)

Lemma disk_read_trace_out d tr b :
  b ∉ tr.*1 -> disk_read (apply_trace d tr) b = disk_read d b.
Proof.
  revert d. induction tr as [|[a x] tr IH]; intros d Hb; [done|]. simpl in *.
  rewrite IH by set_solver. simpl. rewrite disk_read_insert. rewrite decide_False; set_solver.
Qed.

Lemma disk_read_trace_in d tr b x :
  NoDup tr.*1 -> (b, x) ∈ tr -> disk_read (apply_trace d tr) b = x.
Proof.
  revert d. induction tr as [|[a y] tr IH]; intros d Hnd Hin; [set_solver|]. simpl in *.
  apply NoDup_cons in Hnd as [Hna Hnd]. apply elem_of_cons in Hin as [[= -> ->]|Hin].
  - rewrite disk_read_trace_out by done. rewrite disk_read_insert. by rewrite decide_True.
  - by apply IH.
Qed.

Lemma apply_trace_app d t1 t2 : apply_trace d (t1 ++ t2) = apply_trace (apply_trace d t1) t2.
Proof. unfold apply_trace. by rewrite foldl_app. Qed.

Section crash.
  Context (dev start : Z).

Lemma log_copies_dom V blks b :
  (length blks <= Z.to_nat LOGBLOCKS)%nat ->
  b ∈ (log_copies start V blks).*1 -> ~ home start b /\ b <> start.
Proof.
  intros Hl Hin. apply list_elem_of_lookup in Hin as [k Hk].
  unfold log_copies in Hk. rewrite list_lookup_fmap, list_lookup_imap in Hk.
  destruct (blks !! k) eqn:E; [|done]. injection Hk as <-. apply lookup_lt_Some in E. split; [|lia].
  apply log_block_not_home. lia.
Qed.

Lemma log_copies_NoDup V blks : NoDup (log_copies start V blks).*1.
Proof.
  apply NoDup_alt. intros i j x. unfold log_copies. rewrite !list_lookup_fmap, !list_lookup_imap.
  destruct (blks !! i), (blks !! j); simpl; naive_solver lia.
Qed.

(** The log holds the transaction once write_log is done. *)
Lemma log_copies_read d V blks k blk :
  blks !! k = Some blk ->
  disk_read (apply_trace d (log_copies start V blks)) (start + Z.of_nat k + 1) = V blk.
Proof.
  intros Hk. apply disk_read_trace_in; [apply log_copies_NoDup|].
  eapply list_elem_of_lookup_2. by apply log_copies_lookup.
Qed.

Lemma fmap_pair_fst (V : Z -> list Z) blks : ((fun b => (b, V b)) <$> blks).*1 = blks.
Proof. rewrite <- list_fmap_compose. by rewrite list_fmap_id. Qed.

Lemma home_writes_read d V blks b :
  NoDup blks ->
  disk_read (apply_trace d ((fun b => (b, V b)) <$> blks)) b =
    if decide (b ∈ blks) then V b else disk_read d b.
Proof.
  intros Hnd. case_decide as Hb.
  - apply disk_read_trace_in; [by rewrite fmap_pair_fst|].
    apply list_elem_of_fmap. by exists b.
  - apply disk_read_trace_out. by rewrite fmap_pair_fst.
Qed.

(** A machine that restarts on the disk [d]: an empty cache, and process [p]
    running the mount. *)
Record rebooted (d : gmap Z (list Z)) (p : nat) (pp : proc) (s : kstate) : Prop := {
  rb_fs : fs dev (disk_read d) ∅ ∅ p pp s;
  rb_disk : k_disk s = d;
  rb_cap : length (lh_block (log_lh (k_log s))) = Z.to_nat LOGBLOCKS;
}.

(** What recovery makes of a disk whose log holds [blks]. *)
Lemma recovers d p pp s sb blks :
  rebooted d p pp s -> sb_logstart sb = start ->
  is_header (disk_read d start) blks -> logged_blocks start blks ->
  returns (initlog dev sb s) (fun _ s' =>
    (forall k blk, blks !! k = Some blk ->
       disk_read (k_disk s') blk = disk_read d (start + Z.of_nat k + 1)) /\
    (forall b, home start b -> b ∉ blks -> disk_read (k_disk s') b = disk_read d b)).
Proof.
  intros [Hfs Hd Hcap] Hsb Hh Hb. eapply returns_mono; [by eapply initlog_spec|].
  cbn beta. intros _ s' (V' & H0 & [Hbc _] & _ & _ & Hin & Hout & _).
  assert (Hv : forall b, disk_read (k_disk s') b = V' b).
  { intros b. symmetry. apply (bc_clean _ _ _ _ _ _ Hbc); set_solver. }
  split; intros; rewrite Hv; eauto.
Qed.

Lemma logged_nil : logged_blocks start [].
Proof. constructor; [constructor|simpl; lia|set_solver..]. Qed.

Lemma txn_logged blks l : log_rep dev start blks l -> txn_ok start blks -> logged_blocks start blks.
Proof. intros Hl Ht. constructor; [apply Hl|apply Hl|apply Ht..]. Qed.

(** The three stages of a commit that a crash can fall in. *)
Lemma commit_prefix V blks H H0 n :
  let tr := commit_trace start V blks H H0 in
  (exists m, take n tr = take m (log_copies start V blks)) \/
  (exists m, take n tr = log_copies start V blks ++ (start, H) :: take m ((fun b => (b, V b)) <$> blks)) \/
  take n tr = tr.
Proof.
  intros tr. unfold tr, commit_trace. rewrite take_app.
  set (a := log_copies start V blks).
  destruct (decide (n <= length a)%nat) as [|Hn].
  { left. exists n. replace (n - length a)%nat with O by lia. simpl. by rewrite app_nil_r. }
  rewrite (take_ge a) by lia. destruct (n - length a)%nat as [|m] eqn:E; [lia|]. simpl.
  rewrite take_app. set (c := (fun b => (b, V b)) <$> blks).
  destruct (decide (m <= length c)%nat) as [|Hm].
  - right. left. exists m. replace (m - length c)%nat with O by lia. simpl. by rewrite app_nil_r.
  - right. right. rewrite (take_ge c) by lia. by rewrite (take_ge [_]) by (simpl; lia).
Qed.
Lemma elem_of_fst_take {A B} (l : list (A * B)) n x : x ∈ (take n l).*1 -> x ∈ l.*1.
Proof. intros H. rewrite <- (take_drop n l), fmap_app. set_solver. Qed.

(** Stage 1: the home blocks and the header are as before. *)
Lemma stage1_read d V blks m b :
  (length blks <= Z.to_nat LOGBLOCKS)%nat -> home start b \/ b = start ->
  disk_read (apply_trace d (take m (log_copies start V blks))) b = disk_read d b.
Proof.
  intros Hl Hb. apply disk_read_trace_out.
  intros Hin%elem_of_fst_take. apply log_copies_dom in Hin; [|done]. naive_solver.
Qed.

(** Stage 2: the header lists the transaction, which the log holds. *)
Lemma stage2_read d V blks H m :
  logged_blocks start blks ->
  let d' := apply_trace d (log_copies start V blks ++ (start, H) :: take m ((fun b => (b, V b)) <$> blks)) in
  disk_read d' start = H /\
  (forall k blk, blks !! k = Some blk -> disk_read d' (start + Z.of_nat k + 1) = V blk) /\
  (forall b, home start b -> b ∉ blks -> disk_read d' b = disk_read d b).
Proof.
  intros Hb d'. unfold d'. rewrite apply_trace_app. simpl.
  assert (Hnot : forall b, b ∉ blks -> b ∉ (take m ((fun b => (b, V b)) <$> blks)).*1).
  { intros b Hn Hin%elem_of_fst_take. by rewrite fmap_pair_fst in Hin. }
  assert (Hst : forall b, ~ home start b -> b ∉ blks) by (intros b Hn Hin; by apply Hn, (lb_home _ _ Hb)).
  split_and!.
  - rewrite disk_read_trace_out by (by apply Hnot, Hst, start_not_home).
    rewrite disk_read_insert. by rewrite decide_True.
  - intros k blk Hk. assert (Hlt := lookup_lt_Some _ _ _ Hk). pose proof (lb_room _ _ Hb).
    rewrite disk_read_trace_out by (apply Hnot, Hst, log_block_not_home; lia).
    rewrite disk_read_insert, decide_False by lia. by apply log_copies_read.
  - intros b Hh Hn. rewrite disk_read_trace_out by (by apply Hnot).
    rewrite disk_read_insert, decide_False by (intros <-; by apply (start_not_home start)).
    apply disk_read_trace_out. intros Hin%log_copies_dom; [naive_solver|apply Hb].
Qed.

(** Stage 3: everything is in place and the header is empty. *)
Lemma stage3_read d V blks H H0 :
  logged_blocks start blks ->
  let d' := apply_trace d (commit_trace start V blks H H0) in
  disk_read d' start = H0 /\
  (forall b, home start b -> disk_read d' b = if decide (b ∈ blks) then V b else disk_read d b).
Proof.
  intros Hb d'. unfold d', commit_trace.
  pose proof (stage2_read d V blks H (length blks) Hb) as (_ & _ & Hout).
  rewrite take_ge in Hout by (by rewrite length_fmap).
  rewrite app_comm_cons, app_assoc, apply_trace_app. simpl. split.
  - rewrite disk_read_insert. by rewrite decide_True.
  - intros b Hh. rewrite disk_read_insert, decide_False by (intros <-; by apply (start_not_home start)).
    case_decide as Hin; [|by apply Hout]. rewrite apply_trace_app. simpl.
    rewrite home_writes_read by apply Hb. by rewrite decide_True.
Qed.

End crash.

(** C1. A crash at any point of a commit is harmless: after [n] of its block
    writes, recovery ends on the home blocks as they were before the
    transaction, or as the transaction leaves them; the latter once the
    commit is complete. *)
Theorem commit_crash_safe dev start V blks p pp s sb :
  fs dev V ∅ (list_to_set blks) p pp s -> log_rep dev start blks (k_log s) -> txn_ok start blks ->
  is_header (disk_read (k_disk s) start) [] -> sb_logstart sb = start ->
  returns (commit s) (fun _ s' => exists tr,
    k_dtrace s' = k_dtrace s ++ tr /\ k_disk s' = apply_trace (k_disk s) tr /\
    forall n p' pp' s0, rebooted dev (apply_trace (k_disk s) (take n tr)) p' pp' s0 ->
      returns (initlog dev sb s0) (fun _ s1 =>
        ((forall b, home start b -> disk_read (k_disk s1) b = disk_read (k_disk s) b) \/
         (forall b, home start b -> disk_read (k_disk s1) b = V b)) /\
        ((length tr <= n)%nat -> forall b, home start b -> disk_read (k_disk s1) b = V b))).
Proof.
  intros Hfs Hlr Ht Hclean Hsb. pose proof (txn_logged _ _ _ _ Hlr Ht) as Hb.
  assert (HV : forall b, b ∉ blks -> V b = disk_read (k_disk s) b).
  { intros b Hn. destruct Hfs as [Hbc _]. apply (bc_clean _ _ _ _ _ _ Hbc); set_solver. }
  destruct (decide (blks = [])) as [->|Hne].
  { unfold commit. mred. rewrite (lr_n _ _ _ _ Hlr). simpl. exists []. split_and!; [by rewrite app_nil_r|done|].
    intros n p' pp' s0 Hrb. rewrite take_nil in Hrb.
    eapply returns_mono; [by eapply recovers; [| | |apply logged_nil]|].
    cbn beta. intros _ s1 [_ Hout]. split; [left|intros _]; intros b Hh; rewrite Hout by set_solver; [done|].
    symmetry. apply HV. set_solver. }
  eapply returns_mono; [by eapply commit_spec|].
  cbn beta. intros _ s' (V' & H & H0 & l' & _ & _ & _ & _ & _ & HH & HH0 & _ & _ & W).
  exists (commit_trace start V blks H H0). split_and!; [apply W|apply W|].
  intros n p' pp' s0 Hrb.
  destruct (commit_prefix start V blks H H0 n) as [[m Hm]|[[m Hm]|Hm]]; rewrite Hm in Hrb.
  - eapply returns_mono.
    { eapply recovers; [exact Hrb|done| |apply logged_nil]. rewrite stage1_read; [done|apply Hb|by right]. }
    cbn beta. intros _ s1 [_ Hout].
    assert (Hold : forall b, home start b -> disk_read (k_disk s1) b = disk_read (k_disk s) b).
    { intros b Hh. rewrite Hout by set_solver. apply stage1_read; [apply Hb|by left]. }
    split; [by left|]. intros Hlen. exfalso.
    apply (f_equal length) in Hm. rewrite !length_take, length_log_copies in Hm.
    unfold commit_trace in Hm, Hlen. rewrite !length_app in *. simpl in *.
    rewrite length_log_copies, length_app, length_fmap in *. simpl in *. lia.
  - destruct (stage2_read start (k_disk s) V blks H m Hb) as (R0 & Rin & Rout).
    eapply returns_mono; [eapply recovers; [exact Hrb|done| |exact Hb]; by rewrite R0|].
    cbn beta. intros _ s1 [Hin Hout].
    assert (Hnew : forall b, home start b -> disk_read (k_disk s1) b = V b); [|by auto].
    intros b Hh. destruct (decide (b ∈ blks)) as [[k Hk]%list_elem_of_lookup|Hn].
    + by rewrite (Hin _ _ Hk), (Rin _ _ Hk).
    + by rewrite (Hout b Hh Hn), (Rout b Hh Hn), HV.
  - destruct (stage3_read start (k_disk s) V blks H H0 Hb) as (R0 & Rh).
    eapply returns_mono; [eapply recovers; [exact Hrb|done| |apply logged_nil]; by rewrite R0|].
    cbn beta. intros _ s1 [_ Hout].
    assert (Hnew : forall b, home start b -> disk_read (k_disk s1) b = V b); [|by auto].
    intros b Hh. rewrite Hout, (Rh b Hh) by set_solver. case_decide; [done|]. by rewrite HV.
Qed.

(** C2. Recovery itself may be interrupted: after any number of its writes, a new
    recovery ends on the same home blocks. *)
Theorem recovery_crash_safe dev start d blks p pp s sb :
  rebooted dev d p pp s -> sb_logstart sb = start ->
  is_header (disk_read d start) blks -> logged_blocks start blks ->
  returns (initlog dev sb s) (fun _ s' => exists tr,
    k_dtrace s' = k_dtrace s ++ tr /\
    forall n p' pp' s0, rebooted dev (apply_trace d (take n tr)) p' pp' s0 ->
      returns (initlog dev sb s0) (fun _ s1 =>
        forall b, home start b -> disk_read (k_disk s1) b = disk_read (k_disk s') b)).
Proof.
  intros Hrb Hsb Hh Hb. pose proof Hrb as [Hfs Hd Hcap].
  pose proof (recovers dev start d p pp s sb blks Hrb Hsb Hh Hb) as Hrec.
  pose proof (initlog_spec dev start p pp _ blks sb s Hfs Hsb Hcap Hh Hb) as Hini.
  apply returns_inv in Hini as ([] & s' & Hrun & V' & H0 & _ & _ & HH0 & _ & _ & Htr & Hdk).
  rewrite Hrun in Hrec |- *. simpl in Hrec |- *. destruct Hrec as [Hin Hout].
  rewrite Hd in Hdk. set (V := disk_read d) in *.
  exists (home_copies start V blks ++ [(start, H0)]). split; [done|]. intros n p' pp' s0 Hrb0.
  set (hc := home_copies start V blks) in *.
  assert (Hfst : hc.*1 = blks).
  { unfold hc, home_copies. apply list_eq. intros k. rewrite list_lookup_fmap, list_lookup_imap.
    by destruct (blks !! k). }
  destruct (decide (n <= length hc)%nat) as [Hn|Hn].
  - rewrite take_app_le in Hrb0 by done.
    assert (Hlow : forall b, ~ home start b -> disk_read (apply_trace d (take n hc)) b = V b).
    { intros b Hb0. apply disk_read_trace_out. intros Hi%elem_of_fst_take. rewrite Hfst in Hi.
      by apply Hb0, (lb_home _ _ Hb). }
    eapply returns_mono.
    { eapply recovers; [exact Hrb0|done| |exact Hb]. rewrite Hlow by apply start_not_home. done. }
    cbn beta. intros _ s1 [Hin1 Hout1] b Hhb.
    destruct (decide (b ∈ blks)) as [[k Hk]%list_elem_of_lookup|Hnb].
    + rewrite (Hin1 _ _ Hk), (Hin _ _ Hk). apply Hlow, log_block_not_home.
      apply lookup_lt_Some in Hk. pose proof (lb_room _ _ Hb). lia.
    + rewrite (Hout1 b Hhb Hnb), (Hout b Hhb Hnb). apply disk_read_trace_out.
      intros Hi%elem_of_fst_take. by rewrite Hfst in Hi.
  - rewrite take_ge in Hrb0 by (rewrite length_app; simpl; lia). rewrite <- Hdk in Hrb0.
    eapply returns_mono.
    { eapply recovers; [exact Hrb0|done| |apply logged_nil]. rewrite Hdk, apply_trace_app. simpl.
      rewrite disk_read_insert, decide_True; done. }
    cbn beta. intros _ s1 [_ Hout1] b Hhb. apply Hout1; [done|set_solver].
Qed.

(** ** begin_op, end_op and the limits of a transaction *)

(** The log has room for the blocks logged so far and for the most that each
    outstanding operation may still add. *)
Definition log_reserved (l : logst) : Prop :=
  lh_n (log_lh l) + log_outstanding l * MAXOPBLOCKS <= LOGBLOCKS.

(** A transaction is open. *)
Definition in_transaction (l : logst) : Prop := 1 <= log_outstanding l.


Lemma log_rep_outstanding dev start blks l n :
  log_rep dev start blks l -> log_rep dev start blks (set_log_outstanding n l).
Proof. intros []. by constructor. Qed.

(** begin_op with room in the log and no commit under way does not wait. *)
Lemma begin_op_eq p pp s :
  running p pp [] s -> log_committing (k_log s) = false -> log_full (k_log s) = false ->
  begin_op s = Ret tt (set_k_log (set_log_outstanding (log_outstanding (k_log s) + 1) (k_log s)) s).
Proof.
  intros Hrun Hc Hf. unfold begin_op. mred. pose proof (run_held _ _ _ _ Hrun) as Hh.
  rewrite acquire_eq by (rewrite Hh; set_solver). mred. rewrite Hh. unfold WAKEUPS. simpl loop. mred.
  change (k_log (set_k_held _ s)) with (k_log s). rewrite Hc, Hf. unfold upd_log. mred.
  rewrite (release_eq _ _ []) by (done || set_solver). mred. destruct s. simpl in *. by subst.
Qed.

(** log_write refuses a block beyond the log, and a write outside any
    operation. *)
Theorem log_write_guards i s :
  LLog ∉ k_held s ->
  (LOGBLOCKS <= lh_n (log_lh (k_log s)) -> log_write i s = Panic "too big a transaction") /\
  (lh_n (log_lh (k_log s)) < LOGBLOCKS -> ~ in_transaction (k_log s) ->
     log_write i s = Panic "log_write outside of trans").
Proof.
  intros Hh. unfold log_write. mred. rewrite acquire_eq by done. mred.
  change (k_log (set_k_held _ s)) with (k_log s). split.
  - intros H. by rewrite (proj2 (Z.leb_le _ _) H).
  - intros H1 H2. by rewrite (proj2 (Z.leb_gt _ _) H1), (proj2 (Z.ltb_lt _ _) (proj1 (Z.nle_gt _ _) H2)).
Qed.

(** The last end_op commits: the transaction is on disk, nothing is pinned
    and the log is empty and open again. *)
Lemma end_op_commits dev start V blks p pp s :
  fs dev V ∅ (list_to_set blks) p pp s -> log_rep dev start blks (k_log s) -> txn_ok start blks ->
  log_outstanding (k_log s) = 1 -> log_committing (k_log s) = false ->
  returns (end_op s) (fun _ s' => exists V',
    fs dev V' ∅ ∅ p pp s' /\ log_rep dev start [] (k_log s') /\
    log_outstanding (k_log s') = 0 /\ log_committing (k_log s') = false /\
    (forall b, home start b -> V' b = V b) /\
    (forall b, home start b -> disk_read (k_disk s') b = V b)).
Proof.
  intros Hfs Hlr Ht Hout Hcom. pose proof Hfs as [Hbc Hrun]. pose proof (run_held _ _ _ _ Hrun) as Hh.
  unfold end_op, upd_log. mred. rewrite acquire_eq by (rewrite Hh; set_solver). mred. rewrite Hh.
  cbn [k_log set_k_log set_k_held log_committing log_outstanding set_log_outstanding].
  rewrite Hcom, Hout. change (1 - 1 =? 0) with true. mred.
  rewrite (release_eq _ _ []) by (done || set_solver). mred.
  set (l1 := set_log_committing true (set_log_outstanding (1 - 1) (k_log s))).
  match goal with |- context [commit ?s1] => set (s2 := s1) end.
  assert (Hfs2 : fs dev V ∅ (list_to_set blks) p pp s2).
  { split; [by apply (bc_ext _ _ _ _ _ s)|].
    apply (running_ext _ _ _ (set_k_held [] s)); try done. by eapply running_set_held. }
  assert (Hlr2 : log_rep dev start blks (k_log s2)) by (destruct Hlr; by constructor).
  assert (Hcm : returns (commit s2) (fun _ s' => exists V',
    fs dev V' ∅ ∅ p pp s' /\ log_rep dev start [] (k_log s') /\ log_outstanding (k_log s') = 0 /\
    (forall b, home start b -> V' b = V b))).
  { destruct (decide (blks = [])) as [->|Hne].
    - unfold commit. mred. rewrite (lr_n _ _ _ _ Hlr2). simpl. exists V. done.
    - eapply returns_mono; [by eapply commit_spec|]. cbn beta.
      intros _ s' (V' & H & H0 & l' & Hfs' & Hl' & Hlr' & Ho' & _ & _ & _ & _ & HV' & _).
      exists V'. rewrite Hl'. split_and!; try done. }
  apply returns_obind. eapply returns_mono; [exact Hcm|]. cbn beta.
  intros _ s3 (V' & Hfs3 & Hlr3 & Ho3 & HV3). pose proof Hfs3 as [Hbc3 Hrun3].
  pose proof (run_held _ _ _ _ Hrun3) as Hh3. mred. rewrite acquire_eq by (rewrite Hh3; set_solver). mred.
  rewrite Hh3. apply returns_obind. eapply returns_mono.
  { apply (wakeup_running _ _ p pp [LLog]); [|set_solver..].
    apply (running_ext _ _ _ (set_k_held [LLog] s3)); try done. by eapply running_set_held. }
  cbn beta. intros _ s4 [F4 Hrun4]. pose proof (run_held _ _ _ _ Hrun4) as Hh4.
  rewrite (release_eq _ _ []) by (done || set_solver). unfold sched_frame in F4. exists V'.
  assert (Hdisk : k_disk s4 = k_disk s3) by (by rewrite F4). simpl.
  assert (Hk4 : k_log s4 = set_log_committing false (k_log s3)) by (by rewrite F4).
  rewrite Hk4. split_and!; try done.
  - split; [|by eapply running_set_held].
    apply (bc_ext _ _ _ _ _ s3); simpl; try (by rewrite F4). done.
  - destruct Hlr3; by constructor.
  - intros b Hb. rewrite Hdisk, <- HV3 by done. symmetry. apply (bc_clean _ _ _ _ _ _ Hbc3); set_solver.
Qed.
