(* ===== verification/Transaction.v ===== *)
(** * Operations inside a transaction

    Between begin_op and end_op the file system sees the disk as a map from
    block numbers to contents [V]; it may have blocks locked ([L]) and has
    logged the blocks [blks].  Nothing reaches the disk before the commit. *)

From S2P Require Import Prelude State Spinlock CString Sysargs Proc ReadyQueue Sleeplock Sleeping Bio BufferCache Log Wal.

Record op (dev start : Z) (V : Z -> list Z) (L : gmap Z nat) (blks : list Z) (p : nat) (pp : proc)
    (s : kstate) : Prop := {
  op_fs : fs dev V L (list_to_set blks) p pp s;
  op_log : log_rep dev start blks (k_log s);
  op_open : 1 <= log_outstanding (k_log s);
}.

(** Everything but the cache, the log header, the process table, the queue and
    the output is as in [s]; in particular the disk. *)
Record op_frame (s s' : kstate) : Prop := {
  of_frame : s' = set_k_bufs (k_bufs s') (set_k_lru (k_lru s') (set_k_procs (k_procs s')
               (set_k_rq (k_rq s') (set_k_log (k_log s') (set_k_out (k_out s') s)))));
  of_outstanding : log_outstanding (k_log s') = log_outstanding (k_log s);
  of_committing : log_committing (k_log s') = log_committing (k_log s);
}.

Lemma op_frame_refl s : op_frame s s.
Proof. constructor; [by destruct s|done|done]. Qed.

Lemma op_frame_trans s1 s2 s3 : op_frame s1 s2 -> op_frame s2 s3 -> op_frame s1 s3.
Proof.
  intros [F1 O1 C1] [F2 O2 C2]. constructor; [|congruence|congruence].
  rewrite F2. rewrite F1. by destruct s1.
Qed.

Lemma bio_op_frame s s' : bio_frame s s' -> op_frame s s'.
Proof.
  intros F. pose proof (bio_frame_log _ _ F) as Hl.
  constructor; [|by rewrite Hl|by rewrite Hl]. rewrite F. by destruct s.
Qed.

Lemma of_disk s s' : op_frame s s' -> k_disk s' = k_disk s.
Proof. intros [F _ _]. by rewrite F. Qed.
Lemma of_sb s s' : op_frame s s' -> k_sb s' = k_sb s.
Proof. intros [F _ _]. by rewrite F. Qed.
Lemma of_itable s s' : op_frame s s' -> k_itable s' = k_itable s.
Proof. intros [F _ _]. by rewrite F. Qed.
Lemma of_mem s s' : op_frame s s' -> k_mem s' = k_mem s.
Proof. intros [F _ _]. by rewrite F. Qed.

Create HintDb op.
#[export] Hint Resolve op_frame_refl bio_op_frame : op.
#[export] Hint Extern 5 (op_frame _ _) => (eapply op_frame_trans; eassumption) : op.

(** [safe_at V blks s blk]: releasing block [blk] loses nothing. *)
Definition safe_at (V : Z -> list Z) (blks : list Z) (s : kstate) (blk : Z) : Prop :=
  blk ∈ blks \/ V blk = disk_read (k_disk s) blk.

Section op.
  Context (dev start : Z) (p : nat) (pp : proc).

Lemma op_safe V L blks s blk :
  op dev start V L blks p pp s -> L !! blk = None -> safe_at V blks s blk.
Proof.
  intros [[Hbc _] _ _] HL. unfold safe_at. destruct (decide (blk ∈ blks)); [by left|]. right.
  apply (bc_clean _ _ _ _ _ _ Hbc); [by apply not_elem_of_dom|set_solver].
Qed.

Lemma op_view_length V L blks s blk :
  op dev start V L blks p pp s -> length (V blk) = Z.to_nat BSIZE.
Proof. intros [[Hbc _] _ _]. by eapply bc_view_length. Qed.

Lemma op_len V L blks s : op dev start V L blks p pp s -> (length blks <= Z.to_nat LOGBLOCKS)%nat.
Proof. intros [_ Hl _]. apply Hl. Qed.

(** The rest of the state (the output, memory, the inode table) is irrelevant. *)
Lemma op_ext V L blks s s' :
  k_bufs s' = k_bufs s -> k_lru s' = k_lru s -> k_disk s' = k_disk s -> k_cur s' = k_cur s ->
  k_procs s' = k_procs s -> k_rq s' = k_rq s -> k_held s' = k_held s -> k_log s' = k_log s ->
  op dev start V L blks p pp s -> op dev start V L blks p pp s'.
Proof.
  intros Hb Hl Hd Hc Hp Hq Hh Hlg [[Hbc Hr] Hlr Ho]. constructor; [|by rewrite Hlg|by rewrite Hlg].
  constructor; [by apply (bc_ext _ _ _ _ _ s)|by apply (running_ext _ _ _ s)].
Qed.

Lemma op_view_ext V V' L blks s :
  (forall b, V b = V' b) -> op dev start V L blks p pp s -> op dev start V' L blks p pp s.
Proof. intros HV [[Hbc Hr] Hlr Ho]. constructor; [|done|done]. constructor; [|done]. by eapply bc_view_ext. Qed.

Lemma op_held V L blks s : op dev start V L blks p pp s -> k_held s = [].
Proof. intros Hop. apply Hop. Qed.

Lemma op_printf V L blks s fmt args :
  op dev start V L blks p pp s ->
  returns (printf fmt args s) (fun _ s' => op dev start V L blks p pp s' /\ op_frame s s').
Proof.
  intros Hop. unfold printf. mred. split; [by apply (op_ext _ _ _ s)|].
  constructor; [by destruct s|done|done].
Qed.

(** The buffers a transaction keeps busy. *)
Lemma op_room V L blks s :
  op dev start V L blks p pp s -> (size (dom L ∪ list_to_set blks : gset Z) <= size (dom L) + length blks)%nat.
Proof.
  intros Hop. rewrite size_union_alt. apply Nat.add_le_mono_l.
  rewrite <- (size_list_to_set (C := gset Z) blks) by apply (op_log _ _ _ _ _ _ _ _ Hop).
  apply subseteq_size. set_solver.
Qed.

Lemma op_bread V L blks s blk :
  op dev start V L blks p pp s -> L !! blk = None ->
  (size (dom L) + length blks < NBUF)%nat ->
  returns (bread dev blk s) (fun i s' =>
    op dev start V (<[blk := i]> L) blks p pp s' /\ op_frame s s' /\ safe_at V blks s' blk).
Proof.
  intros Hop HL Hroom. pose proof Hop as [Hfs Hlr Ho]. eapply returns_mono.
  { apply (bread_spec dev V L (list_to_set blks) p pp s blk Hfs HL). right.
    pose proof (op_room V L blks s Hop). lia. }
  cbn beta. intros i s' [Hfs' F]. pose proof (bio_frame_log _ _ F) as Hl.
  pose proof (bio_op_frame _ _ F) as F'.
  split; [constructor; [done|by rewrite Hl|by rewrite Hl]|]. split; [done|].
  pose proof (op_safe V L blks s blk Hop HL) as Hs. unfold safe_at. by rewrite (of_disk _ _ F').
Qed.

Lemma op_bdata V L blks s blk i :
  op dev start V L blks p pp s -> L !! blk = Some i -> bdata i s = Ret (V blk) s.
Proof. intros [Hfs _ _] HL. by eapply bdata_eq. Qed.

Lemma op_set_bdata V L blks s blk i d :
  op dev start V L blks p pp s -> L !! blk = Some i -> length d = Z.to_nat BSIZE ->
  returns (set_bdata i d s) (fun _ s' => op dev start (<[blk := d]> V) L blks p pp s' /\ op_frame s s').
Proof.
  intros [Hfs Hlr Ho] HL Hd. eapply returns_mono; [by eapply set_bdata_spec|].
  cbn beta. intros _ s' [Hfs' F]. pose proof (bio_frame_log _ _ F) as Hl.
  split; [constructor; [done|by rewrite Hl|by rewrite Hl]|auto with op].
Qed.

Lemma op_log_write V L blks s blk i :
  op dev start V L blks p pp s -> L !! blk = Some i -> (length blks < Z.to_nat LOGBLOCKS)%nat ->
  returns (log_write i s) (fun _ s' =>
    op dev start V L (absorb blk blks) p pp s' /\ op_frame s s').
Proof.
  intros [Hfs Hlr Ho] HL Hn. eapply returns_mono; [by eapply log_write_spec|].
  cbn beta. intros _ s' (l' & Hfs' & Hlr' & Ho' & Hc' & Hl' & F). split.
  - constructor; [done|by rewrite Hl'|by rewrite Hl', Ho'].
  - constructor; [|by rewrite Hl'|by rewrite Hl']. unfold bio_frame in F. rewrite Hl'.
    rewrite F. by destruct s.
Qed.

Lemma op_brelse V L blks s blk i :
  op dev start V L blks p pp s -> L !! blk = Some i -> safe_at V blks s blk ->
  returns (brelse i s) (fun _ s' => op dev start V (delete blk L) blks p pp s' /\ op_frame s s').
Proof.
  intros [Hfs Hlr Ho] HL Hs. eapply returns_mono.
  { eapply brelse_spec; [done|done|]. destruct Hs; [left; set_solver|by right]. }
  cbn beta. intros _ s' [Hfs' F]. pose proof (bio_frame_log _ _ F) as Hl.
  split; [constructor; [done|by rewrite Hl|by rewrite Hl]|auto with op].
Qed.

Lemma elem_of_absorb blk blks b : b ∈ absorb blk blks <-> b = blk \/ b ∈ blks.
Proof. unfold absorb. case_decide; [set_solver|]. rewrite elem_of_app, list_elem_of_singleton. tauto. Qed.

Lemma length_absorb blk blks : (length (absorb blk blks) <= S (length blks))%nat.
Proof. unfold absorb. case_decide; [lia|]. rewrite length_app. simpl. lia. Qed.

(** The pattern set; log_write; brelse on a locked block. *)
Lemma op_update V L blks s blk i d :
  op dev start V L blks p pp s -> L !! blk = Some i -> length d = Z.to_nat BSIZE ->
  (length blks < Z.to_nat LOGBLOCKS)%nat ->
  returns ((set_bdata i d;; log_write i;; brelse i) s) (fun _ s' =>
    op dev start (<[blk := d]> V) (delete blk L) (absorb blk blks) p pp s' /\ op_frame s s').
Proof.
  intros Hop HL Hd Hn. mred. apply returns_obind. eapply returns_mono; [by eapply op_set_bdata|].
  cbn beta. intros _ s1 [Hop1 F1]. mred. apply returns_obind.
  eapply returns_mono; [by eapply op_log_write|].
  cbn beta. intros _ s2 [Hop2 F2]. eapply returns_mono.
  { eapply op_brelse; [done|done|]. left. rewrite elem_of_absorb. by left. }
  cbn beta. intros _ s3 [Hop3 F3]. split; [done|].
  eapply op_frame_trans; [exact F1|]. by eapply op_frame_trans.
Qed.
End op.
