(* ===== verification/Fs.v ===== *)
(** * File system (kernel/fs.c): blocks, inodes, content, directories, paths *)

From S2P Require Import Prelude State Spinlock CString Sysargs Proc Sleeplock Bio Log Usercopy.

(** fs.h macros. *)
Definition IBLOCK (i : Z) (sb : superblock) : Z := i / IPB + sb_inodestart sb.
Definition BBLOCK (b : Z) (sb : superblock) : Z := b / BPB + sb_bmapstart sb.

(** ** On-disk structures *)

Record dinode := mkDinode {
  di_type : Z; di_major : Z; di_minor : Z; di_nlink : Z; di_size : Z; di_addrs : list Z }.

Definition dinode_bytes (di : dinode) : list Z :=
  le_bytes 2 (di_type di) ++ le_bytes 2 (di_major di) ++ le_bytes 2 (di_minor di) ++
  le_bytes 2 (di_nlink di) ++ le_bytes 4 (di_size di) ++
  concat (le_bytes 4 <$> di_addrs di).

Definition get16s (bs : list Z) (off : nat) : Z := s16 (le_val (slice bs off 2)).

Definition dinode_decode (bs : list Z) : dinode :=
  mkDinode (get16s bs 0) (get16s bs 2) (get16s bs 4) (get16s bs 6)
    (le_val (slice bs 8 4))
    ((fun j => le_val (slice bs (12 + 4 * j) 4)) <$> seq 0 13).

(** The slot of inode [inum] in its block. *)
Definition dinode_off (inum : Z) : nat := Z.to_nat (inum mod IPB * SIZEOF_DINODE).
Definition block_dinode (d : list Z) (inum : Z) : dinode :=
  dinode_decode (slice d (dinode_off inum) (Z.to_nat SIZEOF_DINODE)).
Definition block_set_dinode (d : list Z) (inum : Z) (di : dinode) : list Z :=
  splice d (dinode_off inum) (dinode_bytes di).

(** struct dirent: a 16-bit inode number and the name. *)
Definition de_inum (de : list Z) : Z := le_val (take 2 de).
Definition de_name (de : list Z) : list Z := drop 2 de.
Definition mk_dirent (inum : Z) (name : list Z) : list Z := le_bytes 2 inum ++ name.

Definition sb_decode (d : list Z) : superblock :=
  mkSuperblock (get32 d 0) (get32 d 4) (get32 d 8) (get32 d 12)
    (get32 d 16) (get32 d 20) (get32 d 24) (get32 d 28).

Definition readsb (dev : Z) : K unit :=
  bp ← bread dev 1;
  d ← bdata bp;
  modify (set_k_sb (sb_decode d));;
  brelse bp.

(** ** Blocks *)

Definition bzero (dev bno : Z) : K unit :=
  bp ← bread dev bno;
  set_bdata bp zero_block;;
  log_write bp;;
  brelse bp.

(** The body of the loop over the bits of one bitmap block. *)
Definition balloc_bit (dev : Z) (bp : nat) (b bi : Z) : K (option Z) :=
  d ← bdata bp;
  x ← deref (d !! Z.to_nat (bi / 8));
  let m := Z.shiftl 1 (bi mod 8) in
  if Z.land x m =? 0 then
    set_bdata bp (<[Z.to_nat (bi / 8) := Z.lor x m]> d);;
    log_write bp;;
    brelse bp;;
    bzero dev (b + bi);;
    mret (Some (b + bi))
  else mret None.

Definition balloc (dev : Z) : K Z :=
  sb ← gets k_sb;
  r ← forl (zstep 0 (sb_size sb) BPB) (fun b =>
    bp ← bread dev (BBLOCK b sb);
    r ← forl (zrange 0 (Z.min BPB (sb_size sb - b))) (balloc_bit dev bp b);
    match r with
    | Some v => mret (Some v)
    | None => brelse bp;; mret None
    end);
  match r with
  | Some v => mret v
  | None => printf "balloc: out of blocks" [];; mret 0
  end.

Definition bfree (dev b : Z) : K unit :=
  sb ← gets k_sb;
  bp ← bread dev (BBLOCK b sb);
  let bi := b mod BPB in
  let m := Z.shiftl 1 (bi mod 8) in
  d ← bdata bp;
  x ← deref (d !! Z.to_nat (bi / 8));
  if Z.land x m =? 0 then panic "freeing free block" else
  set_bdata bp (<[Z.to_nat (bi / 8) := Z.ldiff x m]> d);;
  log_write bp;;
  brelse bp.

(** ** Inodes *)

Definition iinit : K unit := foreach (seq 0 NINODE) (fun i => initsleeplock (SInode i)).

Definition iget (dev inum : Z) : K nat :=
  acquire LItable;;
  r ← loop (S NINODE) (fun '(i, empty) =>
    if (i <? NINODE)%nat then
      ip ← get_inode i;
      if (0 <? i_ref ip) && (i_dev ip =? dev) && (i_inum ip =? inum) then
        upd_inode i (fun ip => set_i_ref (i_ref ip + 1) ip);;
        release LItable;;
        mret (inr (inl i))
      else
        let empty := match empty with
                     | None => if i_ref ip =? 0 then Some i else None
                     | Some e => Some e
                     end in
        mret (inl (S i, empty))
    else mret (inr (inr empty))) (O, None);
  match r with
  | inl i => mret i
  | inr None => panic "iget: no inodes"
  | inr (Some ip) =>
      upd_inode ip (set_i_dev dev);;
      upd_inode ip (set_i_inum inum);;
      upd_inode ip (set_i_ref 1);;
      upd_inode ip (set_i_valid false);;
      release LItable;;
      mret ip
  end.

Definition ialloc (dev type : Z) : K (option nat) :=
  sb ← gets k_sb;
  r ← forl (zrange 1 (sb_ninodes sb)) (fun inum =>
    bp ← bread dev (IBLOCK inum sb);
    d ← bdata bp;
    if di_type (block_dinode d inum) =? 0 then
      set_bdata bp (block_set_dinode d inum (mkDinode type 0 0 0 0 (replicate 13 0)));;
      log_write bp;;
      brelse bp;;
      ip ← iget dev inum;
      mret (Some ip)
    else brelse bp;; mret None);
  match r with
  | Some ip => mret (Some ip)
  | None => printf "ialloc: no inodes" [];; mret None
  end.

Definition inode_dinode (ip : inode) : dinode :=
  mkDinode (i_type ip) (i_major ip) (i_minor ip) (i_nlink ip) (i_size ip) (i_addrs ip).

Definition iupdate (i : nat) : K unit :=
  ip ← get_inode i;
  sb ← gets k_sb;
  bp ← bread (i_dev ip) (IBLOCK (i_inum ip) sb);
  d ← bdata bp;
  ip ← get_inode i;
  set_bdata bp (block_set_dinode d (i_inum ip) (inode_dinode ip));;
  log_write bp;;
  brelse bp.

Definition idup (i : nat) : K nat :=
  acquire LItable;;
  upd_inode i (fun ip => set_i_ref (i_ref ip + 1) ip);;
  release LItable;;
  mret i.

(** ip->type = dip->type; ...; memmove(ip->addrs, dip->addrs, ...). *)
Definition load_dinode (di : dinode) (ip : inode) : inode :=
  set_i_addrs (di_addrs di) (set_i_size (di_size di) (set_i_nlink (di_nlink di)
    (set_i_minor (di_minor di) (set_i_major (di_major di) (set_i_type (di_type di) ip))))).

Definition ilock (i : nat) : K unit :=
  ip ← get_inode i;
  if i_ref ip <? 1 then panic "ilock" else
  acquiresleep (SInode i);;
  ip ← get_inode i;
  if i_valid ip then mret tt else
  sb ← gets k_sb;
  bp ← bread (i_dev ip) (IBLOCK (i_inum ip) sb);
  d ← bdata bp;
  upd_inode i (load_dinode (block_dinode d (i_inum ip)));;
  brelse bp;;
  upd_inode i (set_i_valid true);;
  ip ← get_inode i;
  if i_type ip =? 0 then panic "ilock: no type" else mret tt.

Definition iunlock (i : nat) : K unit :=
  h ← holdingsleep (SInode i);
  ip ← get_inode i;
  if negb h || (i_ref ip <? 1) then panic "iunlock" else
  releasesleep (SInode i).

(** ** Inode content *)

(** The j-th entry of an indirect block. *)
Definition ind_get (d : list Z) (j : Z) : Z := get32 d (4 * j).
Definition ind_set (d : list Z) (j x : Z) : list Z := put32 d (4 * j) x.

Definition set_addr (i : nat) (n : nat) (addr : Z) : K unit :=
  upd_inode i (fun ip => set_i_addrs (<[n := addr]> (i_addrs ip)) ip).

(** The part of bmap that works on the indirect block at [addr]. *)
Definition bmap_indirect (dev addr bn : Z) : K Z :=
  bp ← bread dev addr;
  a ← bdata bp;
  addr ← (if ind_get a bn =? 0 then
            addr ← balloc dev;
            (if addr =? 0 then mret tt else
               a ← bdata bp;
               set_bdata bp (ind_set a bn addr);;
               log_write bp);;
            mret addr
          else mret (ind_get a bn));
  brelse bp;;
  mret addr.

Definition bmap (i : nat) (bn : Z) : K Z :=
  ip ← get_inode i;
  if bn <? NDIRECT then
    addr ← deref (i_addrs ip !! Z.to_nat bn);
    if addr =? 0 then
      addr ← balloc (i_dev ip);
      if addr =? 0 then mret 0 else
      set_addr i (Z.to_nat bn) addr;;
      mret addr
    else mret addr
  else
  let bn := bn - NDIRECT in
  if bn <? NINDIRECT then
    addr ← deref (i_addrs ip !! Z.to_nat NDIRECT);
    addr ← (if addr =? 0 then
              addr ← balloc (i_dev ip);
              (if addr =? 0 then mret tt else set_addr i (Z.to_nat NDIRECT) addr);;
              mret addr
            else mret addr);
    if addr =? 0 then mret 0 else bmap_indirect (i_dev ip) addr bn
  else panic "bmap: out of range".

(** The bodies of the two loops of itrunc. *)
Definition itrunc_direct (i : nat) (n : nat) : K unit :=
  ip ← get_inode i;
  addr ← deref (i_addrs ip !! n);
  if addr =? 0 then mret tt else
  bfree (i_dev ip) addr;;
  set_addr i n 0.

Definition itrunc_indirect (dev : Z) (a : list Z) (j : Z) : K unit :=
  if ind_get a j =? 0 then mret tt else bfree dev (ind_get a j).

Definition itrunc (i : nat) : K unit :=
  foreach (seq 0 (Z.to_nat NDIRECT)) (itrunc_direct i);;
  ip ← get_inode i;
  ind ← deref (i_addrs ip !! Z.to_nat NDIRECT);
  (if ind =? 0 then mret tt else
     bp ← bread (i_dev ip) ind;
     a ← bdata bp;
     foreach (zrange 0 NINDIRECT) (itrunc_indirect (i_dev ip) a);;
     brelse bp;;
     bfree (i_dev ip) ind;;
     set_addr i (Z.to_nat NDIRECT) 0);;
  upd_inode i (set_i_size 0);;
  iupdate i.

Definition iput (i : nat) : K unit :=
  acquire LItable;;
  ip ← get_inode i;
  (if (i_ref ip =? 1) && i_valid ip && (i_nlink ip =? 0) then
     acquiresleep (SInode i);;
     release LItable;;
     itrunc i;;
     upd_inode i (set_i_type 0);;
     iupdate i;;
     upd_inode i (set_i_valid false);;
     releasesleep (SInode i);;
     acquire LItable
   else mret tt);;
  upd_inode i (fun ip => set_i_ref (i_ref ip - 1) ip);;
  release LItable.

Definition iunlockput (i : nat) : K unit := iunlock i;; iput i.

Definition ireclaim (dev : Z) : K unit :=
  sb ← gets k_sb;
  foreach (zrange 1 (sb_ninodes sb)) (fun inum =>
    bp ← bread dev (IBLOCK inum sb);
    d ← bdata bp;
    let dip := block_dinode d inum in
    ip ← (if negb (di_type dip =? 0) && (di_nlink dip =? 0) then
            printf "ireclaim: orphaned inode %d" [inum];;
            ip ← iget dev inum;
            mret (Some ip)
          else mret None);
    brelse bp;;
    match ip with
    | Some ip => begin_op;; ilock ip;; iunlock ip;; iput ip;; end_op
    | None => mret tt
    end).

Definition fsinit (dev : Z) : K unit :=
  readsb dev;;
  sb ← gets k_sb;
  if negb (sb_magic sb =? FSMAGIC) then panic "invalid file system" else
  initlog dev sb;;
  ireclaim dev.

(** stat.h: struct stat. *)
Record stat := mkStat { st_dev : Z; st_ino : Z; st_type : Z; st_nlink : Z; st_size : Z }.

Definition stati (i : nat) : K stat :=
  ip ← get_inode i;
  mret (mkStat (i_dev ip) (i_inum ip) (i_type ip) (i_nlink ip) (i_size ip)).

(** KLOCAL slots of the locals of this file. *)
Definition LOC_dirlookup_de : Z := KLOCAL 0.
Definition LOC_dirlink_de : Z := KLOCAL 1.

Section content.
  Context `{UC : UserCopy}.

(** The copying loop of readi on (tot, off, dst). *)
Definition readi_loop (i : nat) (user_dst : bool) (n : Z) : Z * Z * Z -> K (Z * Z * Z + Z) :=
  fun '(tot, off, dst) =>
    if negb (tot <? n) then mret (inr tot) else
    addr ← bmap i (off / BSIZE);
    if addr =? 0 then mret (inr tot) else
    ip ← get_inode i;
    bp ← bread (i_dev ip) addr;
    let m := Z.min (n - tot) (BSIZE - off mod BSIZE) in
    d ← bdata bp;
    r ← either_copyout user_dst dst (slice d (Z.to_nat (off mod BSIZE)) (Z.to_nat m));
    if r =? -1 then brelse bp;; mret (inr (-1)) else
    brelse bp;;
    mret (inl (tot + m, u32 (off + m), u64 (dst + m))).

Definition readi (i : nat) (user_dst : bool) (dst off n : Z) : K Z :=
  ip ← get_inode i;
  if (i_size ip <? off) || (u32 (off + n) <? off) then mret 0 else
  let n := if i_size ip <? u32 (off + n) then i_size ip - off else n in
  tot ← loop (Z.to_nat n + 1) (readi_loop i user_dst n) (0, off, dst);
  mret (s32 tot).

(** The copying loop of writei on (tot, off, src); it leaves tot and off. *)
Definition writei_loop (i : nat) (user_src : bool) (n : Z)
    : Z * Z * Z -> K (Z * Z * Z + Z * Z) :=
  fun '(tot, off, src) =>
    if negb (tot <? n) then mret (inr (tot, off)) else
    addr ← bmap i (off / BSIZE);
    if addr =? 0 then mret (inr (tot, off)) else
    ip ← get_inode i;
    bp ← bread (i_dev ip) addr;
    let m := Z.min (n - tot) (BSIZE - off mod BSIZE) in
    rb ← either_copyin user_src src m;
    d ← bdata bp;
    set_bdata bp (splice d (Z.to_nat (off mod BSIZE)) rb.2);;
    if rb.1 =? -1 then brelse bp;; mret (inr (tot, off)) else
    log_write bp;;
    brelse bp;;
    mret (inl (tot + m, u32 (off + m), u64 (src + m))).

Definition writei (i : nat) (user_src : bool) (src off n : Z) : K Z :=
  ip ← get_inode i;
  if (i_size ip <? off) || (u32 (off + n) <? off) then mret (-1) else
  if MAXFILE * BSIZE <? u32 (off + n) then mret (-1) else
  r ← loop (Z.to_nat n + 1) (writei_loop i user_src n) (0, off, src);
  let '(tot, off) := r in
  ip ← get_inode i;
  (if i_size ip <? off then upd_inode i (set_i_size off) else mret tt);;
  iupdate i;;
  mret (s32 tot).

(** ** Directories *)

Definition namecmp (s t : list Z) : K Z := deref (strncmp s t (Z.to_nat DIRSIZ)).

(** readi of one directory entry into the local at [loc]. *)
Definition read_dirent (dp : nat) (loc off : Z) (msg : string) : K (list Z) :=
  r ← readi dp false loc off SIZEOF_DIRENT;
  if negb (r =? SIZEOF_DIRENT) then panic msg else
  kread loc (Z.to_nat SIZEOF_DIRENT).

(** dirlookup(dp, name, poff): the inode and the offset stored at *poff. *)
Definition dirlookup (dp : nat) (name : list Z) : K (option (nat * Z)) :=
  ip ← get_inode dp;
  if negb (i_type ip =? T_DIR) then panic "dirlookup not DIR" else
  forl (zstep 0 (i_size ip) SIZEOF_DIRENT) (fun off =>
    de ← read_dirent dp LOC_dirlookup_de off "dirlookup read";
    if de_inum de =? 0 then mret None else
    c ← namecmp name (de_name de);
    if c =? 0 then
      ip ← get_inode dp;
      next ← iget (i_dev ip) (de_inum de);
      mret (Some (next, off))
    else mret None).

Definition dirlink (dp : nat) (name : list Z) (inum : Z) : K Z :=
  r ← dirlookup dp name;
  match r with
  | Some (ip, _) => iput ip;; mret (-1)
  | None =>
      ip ← get_inode dp;
      r ← forl (zstep 0 (i_size ip) SIZEOF_DIRENT) (fun off =>
        de ← read_dirent dp LOC_dirlink_de off "dirlink read";
        mret (if de_inum de =? 0 then Some off else None));
      (* with no free entry the loop variable ends at the size rounded up *)
      let off := default ((i_size ip + SIZEOF_DIRENT - 1) / SIZEOF_DIRENT * SIZEOF_DIRENT) r in
      nm ← deref (strncpy_bytes name (Z.to_nat DIRSIZ));
      kwrite LOC_dirlink_de (mk_dirent (u16 inum) nm);;
      n ← writei dp false LOC_dirlink_de off SIZEOF_DIRENT;
      if negb (n =? SIZEOF_DIRENT) then mret (-1) else mret 0
  end.

(** ** Paths *)

Definition SLASH : Z := 47.

Fixpoint skip_slashes (path : list Z) : list Z :=
  match path with
  | c :: path' => if c =? SLASH then skip_slashes path' else path
  | [] => []
  end.

(** The element up to the next slash or NUL, and the path from there. *)
Fixpoint take_elem (path : list Z) : list Z * list Z :=
  match path with
  | c :: path' =>
      if (c =? SLASH) || (c =? 0) then ([], path)
      else let '(e, rest) := take_elem path' in (c :: e, rest)
  | [] => ([], [])
  end.

(** skipelem(path, name): [None] when there is no element; otherwise the
    rest of the path and the new contents of the buffer [name]. *)
Definition skipelem (path name : list Z) : option (list Z * list Z) :=
  match skip_slashes path with
  | c :: p =>
      if c =? 0 then None
      else
        let '(s, rest) := take_elem (c :: p) in
        let name :=
          if (Z.to_nat DIRSIZ <=? length s)%nat then splice name 0 (take (Z.to_nat DIRSIZ) s)
          else splice name 0 (s ++ [0]) in
        Some (skip_slashes rest, name)
  | [] => None
  end.

(** char name[DIRSIZ], before it is written. *)
Definition new_name : list Z := replicate (Z.to_nat DIRSIZ) 0.

(** One iteration of the loop of namex on (ip, path, name). *)
Definition namex_step (nameiparent : bool)
    : nat * list Z * list Z -> K (nat * list Z * list Z + option nat * list Z) :=
  fun '(ip, path, name) =>
    match skipelem path name with
    | None =>
        if nameiparent then iput ip;; mret (inr (None, name))
        else mret (inr (Some ip, name))
    | Some (path, name) =>
        ilock ip;;
        x ← get_inode ip;
        if negb (i_type x =? T_DIR) then iunlockput ip;; mret (inr (None, name)) else
        c ← deref (path !! O);
        if nameiparent && (c =? 0) then iunlock ip;; mret (inr (Some ip, name)) else
        next ← dirlookup ip name;
        match next with
        | None => iunlockput ip;; mret (inr (None, name))
        | Some (next, _) => iunlockput ip;; mret (inl (next, path, name))
        end
    end.

Definition namex (path : list Z) (nameiparent : bool) (name : list Z)
    : K (option nat * list Z) :=
  c ← deref (path !! O);
  ip ← (if c =? SLASH then iget ROOTDEV ROOTINO
        else p ← myproc; pp ← get_proc p; cwd ← deref (p_cwd pp); idup cwd);
  loop (S (length path)) (namex_step nameiparent) (ip, path, name).

Definition namei (path : list Z) : K (option nat) :=
  r ← namex path false new_name; mret r.1.

Definition nameiparent (path : list Z) : K (option nat * list Z) := namex path true new_name.

End content.
