(* ===== verification/Path.v ===== *)
(** * Path names: skipelem against splitting at slashes

    The reference reading of a path is the list of its non-empty elements
    between slashes.  Following skipelem from the start of a path yields
    exactly these, each cut to the DIRSIZ bytes a directory entry holds. *)

From S2P Require Import Prelude State Spinlock CString Sysargs Proc Sleeplock Bio Log Usercopy Fs.

(** ** Reference *)

(** The characters of the string up to its NUL. *)
Fixpoint chars (path : list Z) : list Z :=
  match path with
  | c :: path' => if c =? 0 then [] else c :: chars path'
  | [] => []
  end.

(** Splitting at slashes; the result is never empty. *)
Fixpoint split_slash (l : list Z) : list (list Z) :=
  match l with
  | [] => [[]]
  | c :: l' =>
      if c =? SLASH then [] :: split_slash l'
      else match split_slash l' with
           | e :: es => (c :: e) :: es
           | [] => [[c]]
           end
  end.

Definition path_elems (path : list Z) : list (list Z) :=
  filter (.≠ []) (split_slash (chars path)).

(** The names skipelem produces one after another. *)
Fixpoint skipelems (fuel : nat) (path name : list Z) : list (list Z) :=
  match fuel with
  | O => []
  | S fuel' =>
      match skipelem path name with
      | None => []
      | Some (path', name') => cname name' (Z.to_nat DIRSIZ) :: skipelems fuel' path' name'
      end
  end.

(** A C string: it has a NUL. *)
Definition terminated (path : list Z) : Prop := 0 ∈ path.

(** ** The two scanning loops *)

Lemma skip_slashes_length path : (length (skip_slashes path) <= length path)%nat.
Proof. induction path as [|c path IH]; simpl; [lia|]. destruct (c =? SLASH); simpl; lia. Qed.

Lemma skip_slashes_terminated path : terminated path -> terminated (skip_slashes path).
Proof.
  unfold terminated. induction path as [|c path IH]; [done|]. simpl. intros H.
  destruct (Z.eqb_spec c SLASH) as [->|]; [|done]. apply IH.
  apply elem_of_cons in H as [?|?]; [done|done].
Qed.

Lemma skip_slashes_elems path : path_elems (skip_slashes path) = path_elems path.
Proof.
  induction path as [|c path IH]; [done|]. simpl. destruct (Z.eqb_spec c SLASH) as [->|]; [|done].
  rewrite IH. unfold path_elems. simpl. by rewrite filter_cons_False by naive_solver.
Qed.

Lemma skip_slashes_head path c p : skip_slashes path = c :: p -> c <> SLASH.
Proof.
  induction path as [|a path IH]; [done|]. simpl. destruct (Z.eqb_spec a SLASH); [done|].
  by intros [= <- <-].
Qed.

Lemma split_slash_cons l : exists e es, split_slash l = e :: es.
Proof.
  induction l as [|c l (e & es & IH)]; simpl; [eauto|]. rewrite IH. destruct (c =? SLASH); eauto.
Qed.

(** take_elem cuts the string at the first slash. *)
Lemma take_elem_spec path e rest :
  take_elem path = (e, rest) -> terminated path ->
  Forall (fun c => c <> 0 /\ c <> SLASH) e /\ terminated rest /\
  (length e + length rest = length path)%nat /\
  (exists c r, rest = c :: r /\ (c = SLASH \/ c = 0)) /\
  exists es, split_slash (chars path) = e :: es /\
    filter (.≠ []) es = path_elems rest.
Proof.
  unfold terminated. revert e rest. induction path as [|c path IH]; intros e rest; [set_solver|].
  simpl. destruct (Z.eqb_spec c SLASH) as [->|Hs]; simpl.
  { intros [= <- <-] Ht. split_and!; try done; [by eexists _, _; eauto|].
    eexists. split; [done|]. unfold path_elems. simpl.
    by rewrite filter_cons_False by naive_solver. }
  destruct (Z.eqb_spec c 0) as [->|Hz]; simpl.
  { intros [= <- <-] Ht. split_and!; try done; [by eexists _, _; eauto|]. by exists []. }
  destruct (take_elem path) as [e' rest'] eqn:E. intros [= <- <-] Ht.
  apply elem_of_cons in Ht as [?|Ht]; [done|].
  destruct (IH e' rest' eq_refl Ht) as (H1 & H2 & H3 & H4 & es & H5 & H6).
  split_and!; try done.
  - by constructor.
  - simpl. lia.
  - exists es. rewrite H5. by destruct (Z.eqb_spec c SLASH).
Qed.

(** ** The name buffer *)

Lemma cname_nonzero e n r :
  Forall (fun c => c <> 0 /\ c <> SLASH) e -> (length e < n)%nat -> cname (e ++ 0 :: r) n = e.
Proof.
  intros He. revert n. induction He as [|c e [Hc _] _ IH]; intros [|n] Hn; simpl in *; try lia; [done|].
  destruct (Z.eqb_spec c 0); [done|]. rewrite IH by lia. done.
Qed.

Lemma cname_full e n r :
  Forall (fun c => c <> 0 /\ c <> SLASH) e -> length e = n -> cname (e ++ r) n = e.
Proof.
  intros He. revert n. induction He as [|c e [Hc _] _ IH]; intros [|n] Hn; simpl in *; try lia; [by destruct r|].
  destruct (Z.eqb_spec c 0); [done|]. rewrite IH by lia. done.
Qed.

(** What skipelem leaves in a DIRSIZ-byte buffer: the element, cut. *)
Lemma skipelem_name (name e : list Z) :
  length name = Z.to_nat DIRSIZ -> Forall (fun c => c <> 0 /\ c <> SLASH) e ->
  let name' := if (Z.to_nat DIRSIZ <=? length e)%nat then splice name 0 (take (Z.to_nat DIRSIZ) e)
               else splice name 0 (e ++ [0]) in
  length name' = Z.to_nat DIRSIZ /\ cname name' (Z.to_nat DIRSIZ) = take (Z.to_nat DIRSIZ) e.
Proof.
  intros Hn He name'. unfold name'. destruct (Nat.leb_spec (Z.to_nat DIRSIZ) (length e)) as [Hl|Hl].
  - split; [rewrite length_splice; [done|rewrite length_take; lia]|].
    unfold splice. simpl. apply cname_full; [by apply Forall_take|]. rewrite length_take. lia.
  - split; [rewrite length_splice; [done|rewrite length_app; simpl; lia]|].
    unfold splice. simpl. rewrite <- app_assoc. simpl. rewrite cname_nonzero by done.
    by rewrite take_ge by lia.
Qed.

(** ** skipelem and namex's traversal *)

Lemma skipelem_step path name :
  terminated path -> length name = Z.to_nat DIRSIZ ->
  match skipelem path name with
  | None => path_elems path = []
  | Some (path', name') => exists e,
      path_elems path = e :: path_elems path' /\ cname name' (Z.to_nat DIRSIZ) = take (Z.to_nat DIRSIZ) e /\
      terminated path' /\ length name' = Z.to_nat DIRSIZ /\ (length path' < length path)%nat /\
      (forall c p, path' = c :: p -> c <> SLASH)
  end.
Proof.
  intros Ht Hn. unfold skipelem. rewrite <- skip_slashes_elems.
  pose proof (skip_slashes_terminated _ Ht) as Ht1. pose proof (skip_slashes_length path) as Hl1.
  destruct (skip_slashes path) as [|c p] eqn:E; [done|].
  pose proof (skip_slashes_head _ _ _ E) as Hc. destruct (Z.eqb_spec c 0) as [->|Hz]; [done|].
  destruct (take_elem (c :: p)) as [e rest] eqn:Et.
  destruct (take_elem_spec _ _ _ Et Ht1) as (He & Ht2 & Hlen & _ & es & Hs & Hf).
  assert (Hne : e <> []).
  { simpl in Et. destruct (Z.eqb_spec c SLASH); [done|]. destruct (Z.eqb_spec c 0); [done|].
    simpl in Et. destruct (take_elem p). by injection Et as <- _. }
  destruct (skipelem_name name e Hn He) as [Hnl Hnc]. exists e. split_and!; try done.
  - unfold path_elems at 1. rewrite Hs, filter_cons_True by done. by rewrite Hf, skip_slashes_elems.
  - by apply skip_slashes_terminated.
  - pose proof (skip_slashes_length rest). destruct e; [done|]. simpl in Hlen, Hl1. lia.
  - intros c' p'. apply skip_slashes_head.
Qed.

(** Repeating skipelem, as namex does, visits exactly the non-empty
    slash-separated elements of the path, in order, each cut to DIRSIZ bytes;
    it ends, and the rest it returns never starts with a slash. *)
Theorem skipelem_visits_elements path name fuel :
  terminated path -> length name = Z.to_nat DIRSIZ -> (length path <= fuel)%nat ->
  skipelems fuel path name = take (Z.to_nat DIRSIZ) <$> path_elems path /\
  forall path' name' c p, skipelem path name = Some (path', name') -> path' = c :: p -> c <> SLASH.
Proof.
  intros Ht Hn Hf. split.
  - revert path name Ht Hn Hf. induction fuel as [|fuel IH]; intros path name Ht Hn Hf.
    { destruct path; [by apply not_elem_of_nil in Ht|simpl in Hf; lia]. }
    simpl. pose proof (skipelem_step path name Ht Hn) as Hs.
    destruct (skipelem path name) as [[path' name']|]; [|by rewrite Hs].
    destruct Hs as (e & -> & -> & Ht' & Hn' & Hl & _). simpl. f_equal. apply IH; [done|done|lia].
  - intros path' name' c p Hs. pose proof (skipelem_step path name Ht Hn) as H. rewrite Hs in H.
    destruct H as (e & _ & _ & _ & _ & _ & H). apply H.
Qed.

(** The examples of the comment above skipelem. *)
Example skipelem_examples :
  skipelem (cstr "a/bb/c") new_name = Some (cstr "bb/c", cstr "a" ++ replicate 12 0) /\
  skipelem (cstr "///a//bb") new_name = Some (cstr "bb", cstr "a" ++ replicate 12 0) /\
  skipelem (cstr "a") new_name = Some (cstr "", cstr "a" ++ replicate 12 0) /\
  skipelem (cstr "") new_name = None /\ skipelem (cstr "////") new_name = None.
Proof. vm_compute. done. Qed.
