(* ===== verification/Bitmap.v ===== *)
(** * Block allocation: the free bitmap

    balloc finds the lowest free block, marks it and zeroes it; bfree clears
    one mark.  [used sb V b] is the bit of block [b] in the represented
    contents [V]. *)

From S2P Require Import Prelude State Spinlock CString Sysargs Proc ReadyQueue Sleeplock Sleeping Bio BufferCache Log Wal Transaction Usercopy Fs.

(** ** Bits of a block *)

Definition bit (d : list Z) (bi : Z) : bool := Z.testbit (d !!! Z.to_nat (bi / 8)) (bi mod 8).

Definition used (sb : superblock) (V : Z -> list Z) (b : Z) : bool :=
  bit (V (BBLOCK b sb)) (b mod BPB).

Lemma land_bit_zero x k : 0 <= k -> (Z.land x (Z.shiftl 1 k) =? 0) = negb (Z.testbit x k).
Proof.
  intros Hk. rewrite Z.shiftl_1_l. destruct (Z.testbit x k) eqn:E; simpl.
  - apply Z.eqb_neq. intros H. apply (f_equal (fun z => Z.testbit z k)) in H.
    rewrite Z.land_spec, Z.pow2_bits_true, E, Z.bits_0 in H by done. done.
  - apply Z.eqb_eq, Z.bits_inj'. intros n Hn. rewrite Z.land_spec, Z.bits_0.
    destruct (decide (n = k)) as [->|].
    + by rewrite E.
    + rewrite Z.pow2_bits_false by done. apply andb_false_r.
Qed.

Lemma testbit_set x k j :
  0 <= k -> Z.testbit (Z.lor x (Z.shiftl 1 k)) j = (j =? k) || Z.testbit x j.
Proof.
  intros Hk. rewrite Z.lor_spec, Z.shiftl_1_l. destruct (Z.eqb_spec j k) as [->|].
  - rewrite Z.pow2_bits_true by done. by rewrite orb_true_r.
  - rewrite Z.pow2_bits_false by done. by rewrite orb_false_r.
Qed.

Lemma testbit_clear x k j :
  0 <= k -> 0 <= j -> Z.testbit (Z.ldiff x (Z.shiftl 1 k)) j = negb (j =? k) && Z.testbit x j.
Proof.
  intros Hk Hj. rewrite Z.ldiff_spec, Z.shiftl_1_l by done. destruct (Z.eqb_spec j k) as [->|].
  - rewrite Z.pow2_bits_true by done. by rewrite andb_false_r.
  - rewrite Z.pow2_bits_false by done. by rewrite andb_true_r.
Qed.

(** Changing one byte of a block changes the bits in it. *)
Lemma bit_insert d bi bi' x :
  0 <= bi < BPB -> 0 <= bi' < BPB -> length d = Z.to_nat BSIZE ->
  bit (<[Z.to_nat (bi / 8) := x]> d) bi' =
    if decide (bi' / 8 = bi / 8) then Z.testbit x (bi' mod 8) else bit d bi'.
Proof.
  unfold BPB, BSIZE. intros H H' Hd. unfold bit.
  assert (0 <= bi / 8 < 1024) by (split; [apply Z.div_pos|apply Z.div_lt_upper_bound]; lia).
  assert (0 <= bi' / 8) by (apply Z.div_pos; lia).
  case_decide as E.
  - rewrite E. by rewrite list_lookup_total_insert_eq by lia.
  - by rewrite list_lookup_total_insert_ne by lia.
Qed.

Lemma same_bit bi bi' : bi' / 8 = bi / 8 -> (bi' mod 8 =? bi mod 8) = (bi' =? bi).
Proof.
  intros E. pose proof (Z.div_mod bi 8). pose proof (Z.div_mod bi' 8).
  destruct (Z.eqb_spec bi' bi) as [->|]; [by rewrite Z.eqb_refl|]. apply Z.eqb_neq. lia.
Qed.

Definition set_bit (d : list Z) (bi : Z) : list Z :=
  <[Z.to_nat (bi / 8) := Z.lor (d !!! Z.to_nat (bi / 8)) (Z.shiftl 1 (bi mod 8))]> d.
Definition clear_bit (d : list Z) (bi : Z) : list Z :=
  <[Z.to_nat (bi / 8) := Z.ldiff (d !!! Z.to_nat (bi / 8)) (Z.shiftl 1 (bi mod 8))]> d.

Lemma bit_set_bit d bi bi' :
  0 <= bi < BPB -> 0 <= bi' < BPB -> length d = Z.to_nat BSIZE ->
  bit (set_bit d bi) bi' = (bi' =? bi) || bit d bi'.
Proof.
  intros H H' Hd. unfold set_bit. rewrite bit_insert by done. pose proof (Z.mod_pos_bound bi 8).
  case_decide as E.
  - rewrite testbit_set by lia. rewrite same_bit by done. unfold bit. by rewrite E.
  - destruct (Z.eqb_spec bi' bi) as [->|]; done.
Qed.

Lemma bit_clear_bit d bi bi' :
  0 <= bi < BPB -> 0 <= bi' < BPB -> length d = Z.to_nat BSIZE ->
  bit (clear_bit d bi) bi' = negb (bi' =? bi) && bit d bi'.
Proof.
  intros H H' Hd. unfold clear_bit. rewrite bit_insert by done.
  pose proof (Z.mod_pos_bound bi 8). pose proof (Z.mod_pos_bound bi' 8).
  case_decide as E.
  - rewrite testbit_clear by lia. rewrite same_bit by done. unfold bit. by rewrite E.
  - destruct (Z.eqb_spec bi' bi) as [->|]; done.
Qed.

Lemma byte_lookup (d : list Z) bi :
  0 <= bi < BPB -> length d = Z.to_nat BSIZE ->
  d !! Z.to_nat (bi / 8) = Some (d !!! Z.to_nat (bi / 8)).
Proof.
  unfold BPB, BSIZE. intros H Hd. apply list_lookup_lookup_total_lt.
  assert (bi / 8 < 1024) by (apply Z.div_lt_upper_bound; lia). lia.
Qed.

(** ** bfree *)

Section bitmap.
  Context (dev start : Z) (p : nat) (pp : proc).

Lemma bfree_spec V L blks s b :
  op dev start V L blks p pp s ->
  L !! BBLOCK b (k_sb s) = None -> (size (dom L) + length blks < NBUF)%nat ->
  (length blks < Z.to_nat LOGBLOCKS)%nat ->
  if used (k_sb s) V b then
    returns (bfree dev b s) (fun _ s' =>
      let bm := BBLOCK b (k_sb s) in
      op dev start (<[bm := clear_bit (V bm) (b mod BPB)]> V) L (absorb bm blks) p pp s' /\ op_frame s s')
  else bfree dev b s = Panic "freeing free block".
Proof.
  intros Hop HL Hroom Hlog. set (bm := BBLOCK b (k_sb s)) in *.
  pose proof (Z.mod_pos_bound b BPB ltac:(done)) as Hbi. set (bi := b mod BPB) in *.
  pose proof (Z.mod_pos_bound bi 8 ltac:(lia)) as Hm.
  pose proof (op_bread _ _ _ _ _ _ _ _ bm Hop HL Hroom) as Hrd.
  apply returns_inv in Hrd as (i & s1 & Hr1 & Hop1 & F1 & _).
  assert (HL1 : <[bm := i]> L !! bm = Some i) by apply lookup_insert_eq.
  pose proof (op_view_length _ _ _ _ _ _ _ _ bm Hop) as Hlen.
  assert (Hrun : bfree dev b s =
    (if negb (bit (V bm) bi) then panic "freeing free block" else
       set_bdata i (clear_bit (V bm) bi);; log_write i;; brelse i) s1).
  { unfold bfree. mred. fold bm. rewrite Hr1. mred.
    rewrite (op_bdata _ _ _ _ _ _ _ _ _ _ Hop1 HL1). mred.
    fold bi. rewrite (byte_lookup _ bi) by done. mred. rewrite land_bit_zero by lia.
    unfold bit. by destruct (Z.testbit _ _). }
  unfold used. fold bm bi. rewrite Hrun. destruct (bit (V bm) bi) eqn:E; [|done]. simpl negb. cbv iota.
  eapply returns_mono.
  { eapply op_update; [exact Hop1|exact HL1| |done]. unfold clear_bit. by rewrite length_insert. }
  cbn beta zeta. intros _ s2 [Hop2 F2]. rewrite delete_insert_id in Hop2 by done. split; [done|].
  by eapply op_frame_trans.
Qed.

(** ** balloc *)

Lemma bzero_spec V L blks s b :
  op dev start V L blks p pp s ->
  L !! b = None -> (size (dom L) + length blks < NBUF)%nat ->
  (length blks < Z.to_nat LOGBLOCKS)%nat ->
  returns (bzero dev b s) (fun _ s' =>
    op dev start (<[b := zero_block]> V) L (absorb b blks) p pp s' /\ op_frame s s').
Proof.
  intros Hop HL Hroom Hlog. unfold bzero. mspec op_bread; [done|done|done|].
  intros i s1 (Hop1 & F1 & _). eapply returns_mono.
  { eapply op_update; [exact Hop1|apply lookup_insert_eq|apply length_replicate|done]. }
  cbn beta. intros _ s2 [Hop2 F2]. rewrite delete_insert_id in Hop2 by done. split; [done|].
  by eapply op_frame_trans.
Qed.

(** The lowest block whose bit is clear. *)
Definition first_free (sb : superblock) (V : Z -> list Z) (b : Z) : Prop :=
  0 <= b < sb_size sb /\ used sb V b = false /\ forall b', 0 <= b' < b -> used sb V b' = true.

(** The contents after block [b] is marked and zeroed. *)
Definition allocated (sb : superblock) (V : Z -> list Z) (b : Z) : Z -> list Z :=
  let bm := BBLOCK b sb in
  <[b := zero_block]> (<[bm := set_bit (V bm) (b mod BPB)]> V).

Lemma zfind_first (f : Z -> bool) a b x :
  List.find f (zrange a b) = Some x -> a <= x < b /\ f x = true /\ forall y, a <= y < x -> f y = false.
Proof.
  remember (Z.to_nat (b - a)) as n eqn:Hn. revert a Hn. induction n as [|n IH]; intros a Hn H.
  { by rewrite zrange_nil in H by lia. }
  rewrite zrange_cons in H by lia. simpl in H. destruct (f a) eqn:E.
  - injection H as ->. split_and!; [lia|lia|done|lia].
  - apply IH in H as (H1 & H2 & H3); [|lia]. split_and!; [lia|lia|done|].
    intros y Hy. destruct (decide (y = a)) as [->|]; [done|]. apply H3. lia.
Qed.

Lemma BBLOCK_chunk sb x bi : x mod BPB = 0 -> 0 <= bi < BPB -> BBLOCK (x + bi) sb = BBLOCK x sb.
Proof.
  intros Hx Hbi. unfold BBLOCK. apply Z.div_exact in Hx; [|done]. f_equal.
  rewrite Hx. replace (BPB * (x / BPB) + bi) with (x / BPB * BPB + bi) by lia.
  rewrite Z.div_add_l by done. rewrite (Z.div_small bi) by done. rewrite (Z.mul_comm BPB).
  rewrite Z.div_mul by done. lia.
Qed.

Lemma mod_chunk x bi : x mod BPB = 0 -> 0 <= bi < BPB -> (x + bi) mod BPB = bi.
Proof. intros Hx Hbi. rewrite Z.add_mod, Hx by done. rewrite Z.add_0_l, Z.mod_mod by done. by apply Z.mod_small. Qed.

Lemma used_chunk sb V x bi :
  x mod BPB = 0 -> 0 <= bi < BPB -> used sb V (x + bi) = bit (V (BBLOCK x sb)) bi.
Proof. intros. unfold used. by rewrite BBLOCK_chunk, mod_chunk. Qed.

Lemma balloc_bit_used V L blks s x bi i :
  op dev start V L blks p pp s -> L !! BBLOCK x (k_sb s) = Some i ->
  x mod BPB = 0 -> 0 <= bi < BPB -> used (k_sb s) V (x + bi) = true ->
  balloc_bit dev i x bi s = Ret None s.
Proof.
  intros Hop HL Hx Hbi Hu. rewrite used_chunk in Hu by done. unfold balloc_bit. mred.
  rewrite (op_bdata _ _ _ _ _ _ _ _ _ _ Hop HL). mred.
  rewrite byte_lookup by (done || by eapply op_view_length). mred.
  pose proof (Z.mod_pos_bound bi 8 ltac:(lia)).
  rewrite land_bit_zero by lia. unfold bit in Hu. by rewrite Hu.
Qed.

Lemma balloc_bit_free V L blks s x bi i :
  let b := x + bi in
  op dev start V (<[BBLOCK x (k_sb s) := i]> L) blks p pp s -> L !! BBLOCK x (k_sb s) = None ->
  x mod BPB = 0 -> 0 <= bi < BPB -> used (k_sb s) V b = false -> L !! b = None ->
  (size (dom L) + length blks + 1 < NBUF)%nat -> (length blks + 1 < Z.to_nat LOGBLOCKS)%nat ->
  returns (balloc_bit dev i x bi s) (fun r s' =>
    r = Some b /\
    op dev start (allocated (k_sb s) V b) L (absorb b (absorb (BBLOCK b (k_sb s)) blks)) p pp s' /\
    op_frame s s').
Proof.
  intros b Hop HL Hx Hbi Hu HLb Hroom Hlog. subst b. rewrite used_chunk in Hu by done.
  unfold allocated. rewrite BBLOCK_chunk, mod_chunk by done. set (bm := BBLOCK x (k_sb s)) in *.
  assert (HL1 : <[bm := i]> L !! bm = Some i) by apply lookup_insert_eq.
  pose proof (op_view_length _ _ _ _ _ _ _ _ bm Hop) as Hlen.
  unfold balloc_bit. mred. rewrite (op_bdata _ _ _ _ _ _ _ _ _ _ Hop HL1). mred.
  rewrite byte_lookup by done. mred. pose proof (Z.mod_pos_bound bi 8 ltac:(lia)).
  rewrite land_bit_zero by lia. unfold bit in Hu. rewrite Hu. mred. fold (set_bit (V bm) bi).
  mspec op_set_bdata; [exact Hop|exact HL1|unfold set_bit; by rewrite length_insert|].
  cbn beta. intros _ s1 [Hop1 F1]. mspec op_log_write; [exact Hop1|exact HL1|lia|].
  cbn beta. intros _ s2 [Hop2 F2]. mspec op_brelse; [exact Hop2|exact HL1|left; rewrite elem_of_absorb; by left|].
  cbn beta. intros _ s3 [Hop3 F3]. rewrite delete_insert_id in Hop3 by done.
  pose proof (length_absorb bm blks).
  mspec bzero_spec; [exact Hop3|exact HLb|lia|lia|].
  cbn beta. intros _ s4 [Hop4 F4]. split_and!; [done|done|].
  eapply op_frame_trans; [exact F1|]. eapply op_frame_trans; [exact F2|]. eauto with op.
Qed.

(** What balloc needs: bitmap blocks and free blocks are not locked by the
    caller, and the log and the cache have room for two more blocks. *)
Record balloc_pre (V : Z -> list Z) (L : gmap Z nat) (blks : list Z) (s : kstate) : Prop := {
  bp_op : op dev start V L blks p pp s;
  bp_bitmap : forall b, 0 <= b < sb_size (k_sb s) -> L !! BBLOCK b (k_sb s) = None;
  bp_free : forall b, 0 <= b < sb_size (k_sb s) -> used (k_sb s) V b = false -> L !! b = None;
  bp_room : (size (dom L) + length blks + 1 < NBUF)%nat;
  bp_log : (length blks + 1 < Z.to_nat LOGBLOCKS)%nat;
}.

(** One bitmap block of the search. *)
Lemma balloc_chunk V L blks s x :
  balloc_pre V L blks s -> 0 <= x < sb_size (k_sb s) -> x mod BPB = 0 ->
  let sb := k_sb s in
  returns ((bp ← bread dev (BBLOCK x sb);
            r ← forl (zrange 0 (Z.min BPB (sb_size sb - x))) (balloc_bit dev bp x);
            match r with Some v => mret (Some v) | None => brelse bp;; mret None end) s)
    (fun r s' => op_frame s s' /\
       match r with
       | Some b => x <= b < sb_size sb /\ used sb V b = false /\
           (forall b', x <= b' < b -> used sb V b' = true) /\
           op dev start (allocated sb V b) L (absorb b (absorb (BBLOCK b sb) blks)) p pp s'
       | None => op dev start V L blks p pp s' /\
           (forall b', x <= b' < x + BPB -> b' < sb_size sb -> used sb V b' = true)
       end).
Proof.
  intros [Hop Hbm Hfr Hroom Hlog] Hx Hal sb. fold sb in Hbm, Hfr, Hx. mspec op_bread; [exact Hop|by apply Hbm|lia|].
  cbn beta. intros i s1 (Hop1 & F1 & Hsafe). pose proof (of_sb _ _ F1) as Hsb.
  assert (HL1 : <[BBLOCK x sb := i]> L !! BBLOCK x (k_sb s1) = Some i)
    by (rewrite Hsb; apply lookup_insert_eq).
  apply returns_obind.
  apply (forl_scan (fun bi => negb (used sb V (x + bi)))).
  - intros bi Hbi%elem_of_zrange Hu. apply negb_false_iff in Hu.
    eapply balloc_bit_used; [exact Hop1|done|done|lia|by rewrite Hsb].
  - intros bi (Hbi & Hu%negb_true_iff & Hlow)%zfind_first. eapply returns_mono.
    { eapply (balloc_bit_free V L); [by rewrite Hsb|rewrite Hsb; by apply Hbm|done|lia|by rewrite Hsb| |lia|lia].
      apply Hfr; [lia|done]. }
    cbn beta. intros r s2 (-> & Hop2 & F2). rewrite Hsb in Hop2. split; [done|].
    split; [by eapply op_frame_trans|]. split_and!; [lia|lia|done| |done].
    intros b' Hb'. rewrite <- (Zplus_minus x b'). apply negb_false_iff, Hlow. lia.
  - intros Hn. mspec op_brelse; [exact Hop1|apply lookup_insert_eq|exact Hsafe|].
    cbn beta. intros _ s2 [Hop2 F2]. rewrite delete_insert_id in Hop2 by (by apply Hbm).
    split; [by eapply op_frame_trans|]. split; [done|]. intros b' Hb' Hlt.
    rewrite <- (Zplus_minus x b').
    apply negb_false_iff, (find_none_elem _ _ (b' - x) Hn), elem_of_zrange. lia.
Qed.

(** The C scan: chunk after chunk, it stops at the lowest free block. *)
Lemma balloc_spec V L blks s :
  balloc_pre V L blks s ->
  returns (balloc dev s) (fun b s' => op_frame s s' /\
    ((first_free (k_sb s) V b /\
      op dev start (allocated (k_sb s) V b) L (absorb b (absorb (BBLOCK b (k_sb s)) blks)) p pp s')
     \/ (b = 0 /\ (forall b', 0 <= b' < sb_size (k_sb s) -> used (k_sb s) V b' = true) /\
         op dev start V L blks p pp s'))).
Proof.
  intros Hpre. unfold balloc. mred. apply returns_obind. set (sb := k_sb s).
  apply (forl_zstep (fun x s1 => op_frame s s1 /\ op dev start V L blks p pp s1 /\
    forall b', 0 <= b' < x -> b' < sb_size sb -> used sb V b' = true)); [done| | |].
  - split_and!; [apply op_frame_refl|apply Hpre|intros; lia].
  - intros x s1 _ _ Hx (F1 & Hop1 & Hu). mspec op_printf; [exact Hop1|].
    cbn beta. intros _ s2 [Hop2 F2].
    split; [by eapply op_frame_trans|]. right. split_and!; [done|fold sb; intros; apply Hu; lia|done].
  - intros x s1 Hx Hal (F1 & Hop1 & Hu). rewrite Z.sub_0_r in Hal. pose proof (of_sb _ _ F1) as Hsb.
    destruct Hpre as [_ Hbm Hfr Hroom Hlog].
    assert (Hpre1 : balloc_pre V L blks s1) by (constructor; rewrite ?Hsb; done).
    pose proof (balloc_chunk V L blks s1 x Hpre1) as Hch. rewrite Hsb in Hch. fold sb in Hch.
    eapply returns_mono; [by apply Hch|].
    cbn beta. intros [b|] s2 (F2 & H2).
    + destruct H2 as (Hb & Hub & Hlow & Hop2). split; [by eapply op_frame_trans|]. left.
      split; [|done]. unfold first_free. fold sb. split_and!; [lia|lia|done|]. intros b' Hb'.
      destruct (decide (b' < x)); [apply Hu; lia|apply Hlow; lia].
    + destruct H2 as (Hop2 & Hch2). split_and!; [by eapply op_frame_trans|done|].
      intros b' Hb' Hlt. destruct (decide (b' < x)); [apply Hu; lia|apply Hch2; lia].
Qed.

Lemma same_block b b' sb :
  BBLOCK b' sb = BBLOCK b sb -> (b' mod BPB =? b mod BPB) = (b' =? b).
Proof.
  unfold BBLOCK. intros E.
  pose proof (Z.div_mod b BPB ltac:(done)). pose proof (Z.div_mod b' BPB ltac:(done)).
  destruct (Z.eqb_spec b' b) as [->|]; [by rewrite Z.eqb_refl|]. apply Z.eqb_neq. nia.
Qed.

Lemma cleared_used V L blks s b b' :
  op dev start V L blks p pp s ->
  used (k_sb s) (<[BBLOCK b (k_sb s) := clear_bit (V (BBLOCK b (k_sb s))) (b mod BPB)]> V) b' =
    negb (b' =? b) && used (k_sb s) V b'.
Proof.
  intros Hop. unfold used.
  pose proof (Z.mod_pos_bound b BPB ltac:(done)) as H1.
  pose proof (Z.mod_pos_bound b' BPB ltac:(done)) as H2.
  destruct (decide (BBLOCK b' (k_sb s) = BBLOCK b (k_sb s))) as [E|E].
  - rewrite E, fn_lookup_insert, bit_clear_bit by (done || by eapply op_view_length).
    by rewrite (same_block _ _ _ E).
  - rewrite fn_lookup_insert_ne by done. by destruct (Z.eqb_spec b' b) as [->|].
Qed.

(** After an allocation the block is marked, the other marks are as before. *)
Lemma allocated_used V L blks s b b' :
  op dev start V L blks p pp s -> BBLOCK b' (k_sb s) <> b ->
  used (k_sb s) (allocated (k_sb s) V b) b' = (b' =? b) || used (k_sb s) V b'.
Proof.
  intros Hop Hne. unfold used, allocated. rewrite fn_lookup_insert_ne by done.
  pose proof (Z.mod_pos_bound b BPB ltac:(done)) as H1.
  pose proof (Z.mod_pos_bound b' BPB ltac:(done)) as H2.
  destruct (decide (BBLOCK b' (k_sb s) = BBLOCK b (k_sb s))) as [E|E].
  - rewrite E, fn_lookup_insert, bit_set_bit by (done || by eapply op_view_length).
    by rewrite (same_block _ _ _ E).
  - rewrite fn_lookup_insert_ne by done. by destruct (Z.eqb_spec b' b) as [->|].
Qed.

(** balloc returns the lowest block whose bit is clear: the block is then
    marked, zeroed and logged, no other block changes its mark (but those whose
    bitmap block was just allocated), and nothing else changes.  When every
    block is in use it returns 0 and changes nothing.  In both cases it returns:
    no panic, no write to the disk. *)
Theorem balloc_lowest_free V L blks s :
  balloc_pre V L blks s ->
  returns (balloc dev s) (fun b s' => op_frame s s' /\
    ((first_free (k_sb s) V b /\
      op dev start (allocated (k_sb s) V b) L (absorb b (absorb (BBLOCK b (k_sb s)) blks)) p pp s' /\
      allocated (k_sb s) V b b = zero_block /\
      (forall b', BBLOCK b' (k_sb s) <> b ->
         used (k_sb s) (allocated (k_sb s) V b) b' = (b' =? b) || used (k_sb s) V b'))
     \/ (b = 0 /\ (forall b', 0 <= b' < sb_size (k_sb s) -> used (k_sb s) V b' = true) /\
         op dev start V L blks p pp s'))).
Proof.
  intros Hpre. eapply returns_mono; [by apply balloc_spec|].
  cbn beta. intros b s' (F & [[Hf Hop]|H]); (split; [done|]); [left|by right].
  split_and!; [done|done| |].
  - unfold allocated. by rewrite fn_lookup_insert.
  - intros b' Hne. eapply allocated_used; [apply Hpre|done].
Qed.

(** bfree of an allocated block clears its mark, keeps every other mark and
    every other block, and logs the bitmap block; freeing a free block
    panics. *)
Theorem bfree_clears_mark V L blks s b :
  op dev start V L blks p pp s ->
  L !! BBLOCK b (k_sb s) = None -> (size (dom L) + length blks < NBUF)%nat ->
  (length blks < Z.to_nat LOGBLOCKS)%nat ->
  if used (k_sb s) V b then
    returns (bfree dev b s) (fun _ s' => exists V',
      op dev start V' L (absorb (BBLOCK b (k_sb s)) blks) p pp s' /\ op_frame s s' /\
      (forall blk, blk <> BBLOCK b (k_sb s) -> V' blk = V blk) /\
      (forall b', used (k_sb s) V' b' = negb (b' =? b) && used (k_sb s) V b'))
  else bfree dev b s = Panic "freeing free block".
Proof.
  intros Hop HL Hroom Hlog. pose proof (bfree_spec V L blks s b Hop HL Hroom Hlog) as H.
  destruct (used (k_sb s) V b); [|done]. eapply returns_mono; [exact H|].
  cbn beta zeta. intros _ s' [Hop' F]. eexists. split_and!; [exact Hop'|done| |].
  - intros blk Hne. by rewrite fn_lookup_insert_ne.
  - intros b'. by eapply cleared_used.
Qed.

End bitmap.
