(* ===== verification/Inodes.v ===== *)
(** * Inodes: encoding, the inode table, and the on-disk copy

    The dinode encoding round-trips; the inode table keeps one entry per inode
    in use; iupdate writes a locked inode through the log and ilock reads it
    back. *)

From S2P Require Import Prelude State Spinlock CString Sysargs Proc ReadyQueue Sleeplock Sleeping Bio BufferCache Log Wal Transaction Usercopy Fs.

(** ** struct dinode as bytes *)

Definition is_s16 (x : Z) : Prop := -2 ^ 15 <= x < 2 ^ 15.
Definition is_u32 (x : Z) : Prop := 0 <= x < 2 ^ 32.

Record dinode_ok (di : dinode) : Prop := {
  dok_type : is_s16 (di_type di);
  dok_major : is_s16 (di_major di);
  dok_minor : is_s16 (di_minor di);
  dok_nlink : is_s16 (di_nlink di);
  dok_size : is_u32 (di_size di);
  dok_addrs : length (di_addrs di) = 13%nat;
  dok_addr : Forall is_u32 (di_addrs di);
}.

Lemma slice_app_r l1 l2 off n :
  (length l1 <= off)%nat -> slice (l1 ++ l2) off n = slice l2 (off - length l1) n.
Proof. intros H. unfold slice. by rewrite drop_app_ge. Qed.

Lemma slice_app_l l1 l2 n : length l1 = n -> slice (l1 ++ l2) 0 n = l1.
Proof. intros <-. unfold slice. by rewrite drop_0, take_app_length. Qed.

Lemma s16_le_bytes x : is_s16 x -> s16 (le_val (le_bytes 2 x)) = x.
Proof.
  unfold is_s16. intros H. rewrite le_val_le_bytes. unfold s16, swrap.
  change (2 ^ (8 * Z.of_nat 2)) with 65536. change (2 ^ (16 - 1)) with 32768. change (2 ^ 16) with 65536.
  rewrite Zplus_mod_idemp_l. rewrite Z.mod_small by lia. lia.
Qed.

Lemma u32_le_bytes x : is_u32 x -> le_val (le_bytes 4 x) = x.
Proof. unfold is_u32. intros H. rewrite le_val_le_bytes. by apply Z.mod_small. Qed.

Lemma slice_words (xs : list Z) j x :
  xs !! j = Some x -> slice (concat (le_bytes 4 <$> xs)) (4 * j) 4 = le_bytes 4 x.
Proof.
  revert j. induction xs as [|y xs IH]; intros [|j] Hj; try done.
  - injection Hj as ->. rewrite fmap_cons. by apply (slice_app_l (le_bytes 4 x)), length_le_bytes.
  - rewrite fmap_cons, concat_cons. rewrite slice_app_r by (rewrite length_le_bytes; lia).
    rewrite length_le_bytes. replace (4 * S j - 4)%nat with (4 * j)%nat by lia. by apply IH.
Qed.

Lemma length_words (xs : list Z) : length (concat (le_bytes 4 <$> xs)) = (4 * length xs)%nat.
Proof. induction xs as [|x xs IH]; [done|]. rewrite fmap_cons, concat_cons, length_app, length_le_bytes, IH, length_cons. lia. Qed.

Lemma length_dinode_bytes di :
  length (di_addrs di) = 13%nat -> length (dinode_bytes di) = Z.to_nat SIZEOF_DINODE.
Proof.
  intros H. unfold dinode_bytes. rewrite !length_app, !length_le_bytes, length_words, H. done.
Qed.

Lemma decode_words (xs : list Z) :
  length xs = 13%nat -> Forall is_u32 xs ->
  ((fun j => le_val (slice (concat (le_bytes 4 <$> xs)) (4 * j) 4)) <$> seq 0 13) = xs.
Proof.
  intros Hl Hx. rewrite Forall_lookup in Hx. apply list_eq. intros j. rewrite list_lookup_fmap.
  destruct (xs !! j) as [x|] eqn:E.
  - assert (j < 13)%nat by (rewrite <- Hl; by eapply lookup_lt_Some).
    rewrite lookup_seq_lt by done. cbn [fmap option_fmap option_map]. rewrite Nat.add_0_l.
    rewrite (slice_words _ _ _ E), u32_le_bytes by (by eapply Hx). done.
  - apply lookup_ge_None in E. by rewrite lookup_seq_ge by lia.
Qed.

Lemma dinode_decode_bytes di : dinode_ok di -> dinode_decode (dinode_bytes di) = di.
Proof.
  intros [Ht Hma Hmi Hn Hs Hl Ha]. destruct di as [ty ma mi nl sz ad]. simpl in *.
  unfold dinode_decode, dinode_bytes, get16s. simpl di_type. simpl di_major. simpl di_minor.
  simpl di_nlink. simpl di_size. simpl di_addrs.
  repeat first [rewrite slice_app_l by apply length_le_bytes
               |rewrite slice_app_r by (rewrite length_le_bytes; lia); rewrite length_le_bytes; simpl Nat.sub].
  rewrite !s16_le_bytes, u32_le_bytes by done. f_equal.
  etransitivity; [|by apply (decode_words ad)]. apply list_fmap_ext. intros _ j _. f_equal.
Qed.

(** The slot of an inode lies within its block, and slots do not overlap. *)
Lemma dinode_off_fits inum : (dinode_off inum + Z.to_nat SIZEOF_DINODE <= Z.to_nat BSIZE)%nat.
Proof.
  unfold dinode_off. pose proof (Z.mod_pos_bound inum IPB ltac:(done)).
  unfold IPB, BSIZE, SIZEOF_DINODE in *. change (1024 / 64) with 16 in *. lia.
Qed.

Lemma dinode_off_disjoint i j :
  IBLOCK i (mkSuperblock 0 0 0 0 0 0 0 0) = IBLOCK j (mkSuperblock 0 0 0 0 0 0 0 0) -> i <> j ->
  (dinode_off i + Z.to_nat SIZEOF_DINODE <= dinode_off j \/
   dinode_off j + Z.to_nat SIZEOF_DINODE <= dinode_off i)%nat.
Proof.
  unfold IBLOCK, dinode_off. simpl sb_inodestart. intros E Hne.
  pose proof (Z.mod_pos_bound i IPB ltac:(done)). pose proof (Z.mod_pos_bound j IPB ltac:(done)).
  pose proof (Z.div_mod i IPB ltac:(done)). pose proof (Z.div_mod j IPB ltac:(done)).
  assert (i mod IPB <> j mod IPB) by (intros E'; apply Hne; nia).
  unfold IPB, SIZEOF_DINODE in *. lia.
Qed.

Lemma length_block_set_dinode d inum di :
  length d = Z.to_nat BSIZE -> length (di_addrs di) = 13%nat ->
  length (block_set_dinode d inum di) = Z.to_nat BSIZE.
Proof.
  intros Hd Ha. unfold block_set_dinode. rewrite length_splice; [done|].
  rewrite (length_dinode_bytes _ Ha), Hd. apply dinode_off_fits.
Qed.

Lemma block_dinode_set_same d inum di :
  length d = Z.to_nat BSIZE -> dinode_ok di -> block_dinode (block_set_dinode d inum di) inum = di.
Proof.
  intros Hd Hdi. unfold block_dinode, block_set_dinode.
  rewrite <- (length_dinode_bytes di) by apply Hdi. rewrite slice_splice_same.
  - by apply dinode_decode_bytes.
  - rewrite (length_dinode_bytes di) by apply Hdi. rewrite Hd. apply dinode_off_fits.
Qed.

Lemma block_dinode_set_other d i j di sb :
  length d = Z.to_nat BSIZE -> length (di_addrs di) = 13%nat -> IBLOCK i sb = IBLOCK j sb -> i <> j ->
  block_dinode (block_set_dinode d i di) j = block_dinode d j.
Proof.
  intros Hd Ha E Hne. unfold block_dinode, block_set_dinode. f_equal. apply slice_splice_disjoint.
  - rewrite (length_dinode_bytes _ Ha), Hd. apply dinode_off_fits.
  - rewrite (length_dinode_bytes _ Ha).
    destruct (dinode_off_disjoint i j); [unfold IBLOCK in *; simpl; lia|done|by right|by left].
Qed.

(** What the contents [V] say of inode [inum]. *)
Definition disk_inode (sb : superblock) (V : Z -> list Z) (inum : Z) : dinode :=
  block_dinode (V (IBLOCK inum sb)) inum.
Definition put_inode (sb : superblock) (V : Z -> list Z) (inum : Z) (di : dinode) : Z -> list Z :=
  <[IBLOCK inum sb := block_set_dinode (V (IBLOCK inum sb)) inum di]> V.

Lemma disk_inode_put sb V i j di :
  length (V (IBLOCK i sb)) = Z.to_nat BSIZE -> dinode_ok di ->
  disk_inode sb (put_inode sb V i di) j = if decide (j = i) then di else disk_inode sb V j.
Proof.
  intros Hd Hdi. unfold disk_inode, put_inode. case_decide as E.
  - subst j. rewrite fn_lookup_insert. by apply block_dinode_set_same.
  - destruct (decide (IBLOCK j sb = IBLOCK i sb)) as [Eb|Eb].
    + rewrite Eb, fn_lookup_insert. eapply block_dinode_set_other; [done|apply Hdi|by symmetry|done].
    + by rewrite fn_lookup_insert_ne.
Qed.

(** ** The inode table *)

Lemma get_inode_eq s i ip : k_itable s !! i = Some ip -> get_inode i s = Ret ip s.
Proof. intros H. unfold get_inode. mred. by rewrite H. Qed.

Lemma upd_inode_eq s i ip f :
  k_itable s !! i = Some ip -> upd_inode i f s = Ret tt (set_k_itable (<[i := f ip]> (k_itable s)) s).
Proof. intros H. unfold upd_inode. mred. by rewrite (get_inode_eq _ _ _ H). Qed.

Lemma set_k_itable_twice i x y s :
  set_k_itable (<[i := y]> (k_itable (set_k_itable (<[i := x]> (k_itable s)) s)))
    (set_k_itable (<[i := x]> (k_itable s)) s) = set_k_itable (<[i := y]> (k_itable s)) s.
Proof. unfold set_k_itable. simpl. by rewrite list_insert_insert_eq. Qed.

(** Entry [i] is in use for inode [inum] of [dev]. *)
Definition holds_inode (dev inum : Z) (ip : inode) : bool :=
  (0 <? i_ref ip) && (i_dev ip =? dev) && (i_inum ip =? inum).

Record it_wf (s : kstate) : Prop := {
  it_len : length (k_itable s) = NINODE;
  it_ref i ip : k_itable s !! i = Some ip -> 0 <= i_ref ip;
  it_uniq i j ip jp dev inum : k_itable s !! i = Some ip -> k_itable s !! j = Some jp ->
    holds_inode dev inum ip = true -> holds_inode dev inum jp = true -> i = j;
}.

Definition entry_is (s : kstate) (f : inode -> bool) (i : nat) : bool :=
  match k_itable s !! i with Some ip => f ip | None => false end.

(** The entry iget finds, and the first one it could recycle. *)
Definition cached_entry (s : kstate) (dev inum : Z) : option nat :=
  List.find (entry_is s (holds_inode dev inum)) (seq 0 NINODE).
Definition free_entry (s : kstate) : option nat :=
  List.find (entry_is s (fun ip => i_ref ip =? 0)) (seq 0 NINODE).

Definition fresh_inode (dev inum : Z) (ip : inode) : inode :=
  set_i_valid false (set_i_ref 1 (set_i_inum inum (set_i_dev dev ip))).

Lemma find_app {A} (f : A -> bool) l1 l2 :
  List.find f (l1 ++ l2) = match List.find f l1 with Some x => Some x | None => List.find f l2 end.
Proof. induction l1 as [|x l1 IH]; [done|]. simpl. by destruct (f x). Qed.

Lemma entry_is_eq s f i ip : k_itable s !! i = Some ip -> entry_is s f i = f ip.
Proof. intros H. unfold entry_is. by rewrite H. Qed.

Lemma iget_eq dev inum s :
  length (k_itable s) = NINODE -> LItable ∉ k_held s ->
  iget dev inum s =
    match cached_entry s dev inum with
    | Some i => match k_itable s !! i with
                | Some ip => Ret i (set_k_itable (<[i := set_i_ref (i_ref ip + 1) ip]> (k_itable s)) s)
                | None => UB
                end
    | None =>
        match free_entry s with
        | Some i => match k_itable s !! i with
                    | Some ip => Ret i (set_k_itable (<[i := fresh_inode dev inum ip]> (k_itable s)) s)
                    | None => UB
                    end
        | None => Panic "iget: no inodes"
        end
    end.
Proof.
  intros Hlen Hh. unfold iget. mred. rewrite acquire_eq by done. mred.
  set (s1 := set_k_held _ s).
  lazymatch goal with |- obind ?f (loop ?n ?body ?x ?st) = _ =>
    assert (Hloop : returns (loop n body x st) (fun r s' =>
      match r with
      | inl i => cached_entry s dev inum = Some i /\ exists ip, k_itable s !! i = Some ip /\
          s' = set_k_itable (<[i := set_i_ref (i_ref ip + 1) ip]> (k_itable s)) s
      | inr e => cached_entry s dev inum = None /\ e = free_entry s /\ s' = s1
      end))
  end.
  { apply (loop_returns (fun '(i, e) s2 => s2 = s1 /\ (i <= NINODE)%nat /\
        List.find (entry_is s (holds_inode dev inum)) (seq 0 i) = None /\
        e = List.find (entry_is s (fun ip => i_ref ip =? 0)) (seq 0 i))
      (fun '(i, _) => NINODE - i)%nat); [split_and!; done || lia|lia|].
    intros [i e] s2 (-> & Hi & Hn & He). destruct (Nat.ltb_spec i NINODE) as [Hlt|Hge].
    - destruct (lookup_lt_is_Some_2 (k_itable s) i) as [ip Hip]; [by rewrite Hlen|].
      mred. rewrite (get_inode_eq s1 _ _ Hip). mred. fold (holds_inode dev inum ip).
      assert (Hseq : seq 0 NINODE = seq 0 i ++ i :: seq (S i) (NINODE - S i)).
      { replace NINODE with (i + S (NINODE - S i))%nat at 1 by lia. by rewrite seq_app. }
      destruct (holds_inode dev inum ip) eqn:Hm; mred.
      + rewrite (upd_inode_eq s1 _ ip) by done. mred.
        rewrite (release_eq _ _ (k_held s)) by done. mred. split.
        * unfold cached_entry. rewrite Hseq, find_app, Hn. simpl. by rewrite (entry_is_eq _ _ _ _ Hip), Hm.
        * exists ip. split; [done|]. unfold s1. by destruct s.
      + split_and!; [done|lia| | |lia].
        * rewrite seq_S, find_app, Hn. simpl. by rewrite (entry_is_eq _ _ _ _ Hip), Hm.
        * rewrite seq_S, find_app, <- He. destruct e; [done|]. simpl.
          rewrite (entry_is_eq _ _ _ _ Hip). done.
    - mred. assert (i = NINODE) by lia. subst i. done. }
  apply returns_inv in Hloop as ([i|e] & s2 & -> & H2); mred.
  - destruct H2 as (-> & ip & -> & ->). done.
  - destruct H2 as (-> & -> & ->). destruct (free_entry s) as [i|] eqn:Hf; [|done].
    destruct (k_itable s !! i) as [ip|] eqn:Hip.
    2:{ apply List.find_some in Hf as [_ Hf]. unfold entry_is in Hf. by rewrite Hip in Hf. }
    assert (Hi : (i < length (k_itable s))%nat) by (by eapply lookup_lt_Some).
    mred. rewrite (upd_inode_eq s1 _ ip) by done. mred.
    do 3 (erewrite upd_inode_eq by (simpl; by rewrite list_lookup_insert_eq);
      rewrite set_k_itable_twice; mred).
    rewrite (release_eq _ _ (k_held s)) by done. mred. by f_equal.
Qed.

Lemma cached_entry_Some s dev inum i :
  cached_entry s dev inum = Some i -> exists ip, k_itable s !! i = Some ip /\ holds_inode dev inum ip = true.
Proof.
  intros [_ H]%List.find_some. unfold entry_is in H. destruct (k_itable s !! i) as [ip|]; [by exists ip|done].
Qed.

Lemma free_entry_Some s i :
  free_entry s = Some i -> exists ip, k_itable s !! i = Some ip /\ i_ref ip = 0.
Proof.
  intros [_ H]%List.find_some. unfold entry_is in H. destruct (k_itable s !! i) as [ip|]; [|done].
  exists ip. split; [done|lia].
Qed.

Lemma find_entry_None s f i ip :
  length (k_itable s) = NINODE -> List.find (entry_is s f) (seq 0 NINODE) = None ->
  k_itable s !! i = Some ip -> f ip = false.
Proof.
  intros Hl Hn Hi. rewrite <- (entry_is_eq _ f _ _ Hi). apply (find_none_elem _ _ _ Hn), elem_of_seq.
  apply lookup_lt_Some in Hi. lia.
Qed.

(** Replacing one entry by one that holds nothing new, or something no other
    entry holds, keeps the table well formed. *)
Lemma it_wf_insert s i ip' :
  it_wf s -> 0 <= i_ref ip' ->
  (forall dev inum j jp, holds_inode dev inum ip' = true -> j <> i -> k_itable s !! j = Some jp ->
     holds_inode dev inum jp = false) ->
  it_wf (set_k_itable (<[i := ip']> (k_itable s)) s).
Proof.
  intros [Hl Hr Hu] Hr' Hfresh. constructor; simpl.
  - by rewrite length_insert.
  - intros j jp [(_ & <- & _)|[_ Hj]]%list_lookup_insert_Some; [done|by eapply Hr].
  - intros j k jp kp dev inum Hj Hk Hhj Hhk.
    apply list_lookup_insert_Some in Hj as [(<- & <- & _)|[Hne Hj]],
      Hk as [(<- & <- & _)|[Hne' Hk]]; [done| | |by eapply Hu].
    + rewrite (Hfresh _ _ _ _ Hhj (not_eq_sym Hne') Hk) in Hhk. done.
    + rewrite (Hfresh _ _ _ _ Hhk (not_eq_sym Hne) Hj) in Hhj. done.
Qed.

Lemma holds_inode_spec dev inum ip :
  holds_inode dev inum ip = true <-> 0 < i_ref ip /\ i_dev ip = dev /\ i_inum ip = inum.
Proof. unfold holds_inode. rewrite !andb_true_iff, Z.ltb_lt, !Z.eqb_eq. tauto. Qed.

(** iget returns the one table entry of the inode: an inode already in use
    gets one more reference and keeps its contents, an inode not in use takes
    the first free entry with one reference and must be read from disk; every
    other entry is unchanged and no inode ever has two entries.  iget panics
    exactly when the inode is not in use and every entry is. *)
Theorem iget_one_entry dev inum s :
  it_wf s -> LItable ∉ k_held s ->
  match iget dev inum s with
  | Ret i s' => it_wf s' /\ exists ip ip',
      k_itable s !! i = Some ip /\ s' = set_k_itable (<[i := ip']> (k_itable s)) s /\
      holds_inode dev inum ip' = true /\
      ((holds_inode dev inum ip = true /\ ip' = set_i_ref (i_ref ip + 1) ip) \/
       (i_ref ip = 0 /\ i_ref ip' = 1 /\ i_valid ip' = false /\
        forall j jp, k_itable s !! j = Some jp -> holds_inode dev inum jp = false))
  | Panic _ => forall j jp, k_itable s !! j = Some jp -> 0 < i_ref jp /\ holds_inode dev inum jp = false
  | _ => False
  end.
Proof.
  intros Hwf Hh. rewrite iget_eq by (done || apply Hwf). pose proof Hwf as [Hl Hr Hu].
  destruct (cached_entry s dev inum) as [i|] eqn:Hc.
  - apply cached_entry_Some in Hc as (ip & Hip & Hm). rewrite Hip.
    pose proof (proj1 (holds_inode_spec _ _ _) Hm) as (H1 & H2 & H3). split.
    + apply it_wf_insert; [done|simpl; lia|]. intros d n j jp (_ & Hd & Hn)%holds_inode_spec Hne Hj.
      apply not_true_is_false. intros Hjp. apply Hne. eapply Hu; [exact Hj|exact Hip|exact Hjp|].
      apply holds_inode_spec. done.
    + exists ip, (set_i_ref (i_ref ip + 1) ip). split_and!; [done|done| |by left].
      apply holds_inode_spec. simpl. lia.
  - assert (Hno' : forall j jp, k_itable s !! j = Some jp -> holds_inode dev inum jp = false)
      by (intros j jp; by apply find_entry_None).
    destruct (free_entry s) as [i|] eqn:Hf.
    + apply free_entry_Some in Hf as (ip & Hip & Hz). rewrite Hip. split.
      * apply it_wf_insert; [done|simpl; lia|]. intros d n j jp (_ & Hd & Hn)%holds_inode_spec Hne Hj.
        simpl in Hd, Hn. subst. by eapply Hno'.
      * exists ip, (fresh_inode dev inum ip). split_and!; [done|done| |right; done].
        apply holds_inode_spec. simpl. lia.
    + intros j jp Hj. split; [|by eapply Hno'].
      pose proof (find_entry_None s (fun ip => i_ref ip =? 0) _ _ Hl Hf Hj) as Hz. simpl in Hz.
      specialize (Hr _ _ Hj). lia.
Qed.

(** ** iupdate and ilock *)

(** [op_frame], with the inode table free to change too. *)
Definition in_frame (s s' : kstate) : Prop := op_frame (set_k_itable (k_itable s') s) s'.

Lemma op_in_frame s s' : op_frame s s' -> in_frame s s'.
Proof. intros F. unfold in_frame. rewrite (of_itable _ _ F). by destruct s. Qed.

Lemma in_frame_trans s1 s2 s3 : in_frame s1 s2 -> in_frame s2 s3 -> in_frame s1 s3.
Proof.
  intros [F1 O1 C1] [F2 O2 C2]. constructor; [|simpl in *; congruence|simpl in *; congruence].
  rewrite F2. rewrite F1. by destruct s1.
Qed.

Lemma in_frame_itable T s : in_frame s (set_k_itable T s).
Proof. unfold in_frame. apply op_frame_refl. Qed.

Lemma if_sb s s' : in_frame s s' -> k_sb s' = k_sb s.
Proof. intros [F _ _]. by rewrite F. Qed.
Lemma if_disk s s' : in_frame s s' -> k_disk s' = k_disk s.
Proof. intros [F _ _]. by rewrite F. Qed.
Lemma if_held s s' : in_frame s s' -> k_held s' = k_held s.
Proof. intros [F _ _]. by rewrite F. Qed.

(** The in-memory inode once ilock has made it valid. *)
Definition loaded (sb : superblock) (V : Z -> list Z) (ip : inode) : inode :=
  if i_valid ip then ip else set_i_valid true (load_dinode (disk_inode sb V (i_inum ip)) ip).

Lemma inode_dinode_load di ip : inode_dinode (load_dinode di ip) = di.
Proof. by destruct di. Qed.

Section inodes.
  Context (dev start : Z) (p : nat) (pp : proc).

Lemma op_itable V L blks s T :
  op dev start V L blks p pp s -> op dev start V L blks p pp (set_k_itable T s).
Proof. by apply op_ext. Qed.

Lemma iupdate_spec V L blks s i ip :
  op dev start V L blks p pp s -> k_itable s !! i = Some ip -> i_dev ip = dev ->
  length (i_addrs ip) = 13%nat -> L !! IBLOCK (i_inum ip) (k_sb s) = None ->
  (size (dom L) + length blks < NBUF)%nat -> (length blks < Z.to_nat LOGBLOCKS)%nat ->
  returns (iupdate i s) (fun _ s' =>
    op dev start (put_inode (k_sb s) V (i_inum ip) (inode_dinode ip)) L
       (absorb (IBLOCK (i_inum ip) (k_sb s)) blks) p pp s' /\ op_frame s s').
Proof.
  intros Hop Hip Hdev Hadr HL Hroom Hlog. unfold iupdate. mred.
  rewrite (get_inode_eq _ _ _ Hip). mred. rewrite Hdev. set (ib := IBLOCK _ _) in *.
  mspec op_bread; [exact Hop|exact HL|lia|]. cbn beta. intros b s1 (Hop1 & F1 & _).
  assert (HL1 : <[ib := b]> L !! ib = Some b) by apply lookup_insert_eq.
  mred. rewrite (op_bdata _ _ _ _ _ _ _ _ _ _ Hop1 HL1). mred.
  rewrite (get_inode_eq s1 i ip) by (by rewrite (of_itable _ _ F1)). mred.
  eapply returns_mono.
  { eapply op_update; [exact Hop1|exact HL1| |exact Hlog].
    apply length_block_set_dinode; [by eapply op_view_length|done]. }
  cbn beta. intros _ s2 [Hop2 F2]. rewrite delete_insert_id in Hop2 by done.
  split; [done|]. by eapply op_frame_trans.
Qed.

Lemma acquiresleep_inode V L blks s i ip :
  op dev start V L blks p pp s -> k_itable s !! i = Some ip -> sl_locked (i_lock ip) = false ->
  acquiresleep (SInode i) s =
    Ret tt (set_k_itable (<[i := set_i_lock (mkSlock true (p_pid pp)) ip]> (k_itable s)) s).
Proof.
  intros Hop Hip Hl. rewrite (acquiresleep_eq _ (i_lock ip) p pp []).
  - simpl. by rewrite Hip.
  - apply Hop.
  - apply not_elem_of_nil.
  - simpl. by rewrite Hip.
  - done.
Qed.

(** ilock of a free inode: locked, and read from disk unless it is valid. *)
Lemma ilock_spec V L blks s i ip :
  op dev start V L blks p pp s -> k_itable s !! i = Some ip -> i_dev ip = dev ->
  0 < i_ref ip -> sl_locked (i_lock ip) = false -> L !! IBLOCK (i_inum ip) (k_sb s) = None ->
  (size (dom L) + length blks < NBUF)%nat ->
  (i_valid ip = true \/ di_type (disk_inode (k_sb s) V (i_inum ip)) <> 0) ->
  returns (ilock i s) (fun _ s' =>
    op dev start V L blks p pp s' /\ in_frame s s' /\
    k_itable s' = <[i := set_i_lock (mkSlock true (p_pid pp)) (loaded (k_sb s) V ip)]> (k_itable s)).
Proof.
  intros Hop Hip Hdev Href Hlk HL Hroom Hty. assert (Hlt := lookup_lt_Some _ _ _ Hip).
  unfold ilock. mred. rewrite (get_inode_eq _ _ _ Hip). mred.
  destruct (Z.ltb_spec (i_ref ip) 1) as [Hl|_]; [lia|]. mred.
  rewrite (acquiresleep_inode _ _ _ _ _ _ Hop Hip Hlk). mred.
  set (ip1 := set_i_lock (mkSlock true (p_pid pp)) ip). set (s1 := set_k_itable _ s).
  assert (Hip1 : k_itable s1 !! i = Some ip1) by (simpl; by rewrite list_lookup_insert_eq).
  assert (Hop1 : op dev start V L blks p pp s1) by (by apply op_itable).
  rewrite (get_inode_eq _ _ _ Hip1). mred. change (i_valid ip1) with (i_valid ip).
  unfold loaded. destruct (i_valid ip) eqn:Hv.
  { split_and!; [done|apply in_frame_itable|done]. }
  destruct Hty as [|Hty]; [done|]. mred. change (i_inum ip1) with (i_inum ip).
  change (i_dev ip1) with (i_dev ip). change (k_sb s1) with (k_sb s). rewrite Hdev.
  set (ib := IBLOCK _ _) in *. mspec op_bread; [exact Hop1|exact HL|lia|].
  cbn beta. intros b s2 (Hop2 & F2 & Hsafe).
  assert (HL2 : <[ib := b]> L !! ib = Some b) by apply lookup_insert_eq.
  mred. rewrite (op_bdata _ _ _ _ _ _ _ _ _ _ Hop2 HL2). mred.
  pose proof (of_itable _ _ F2) as Ht2.
  rewrite (upd_inode_eq s2 i ip1) by (by rewrite Ht2). mred.
  fold (disk_inode (k_sb s) V (i_inum ip)). set (di := disk_inode _ _ _) in *.
  set (s3 := set_k_itable _ s2).
  assert (Hop3 : op dev start V (<[ib := b]> L) blks p pp s3) by (by apply op_itable).
  mspec op_brelse; [exact Hop3|exact HL2|done|]. cbn beta. intros _ s4 [Hop4 F4].
  rewrite delete_insert_id in Hop4 by done.
  assert (Ht4 : k_itable s4 = <[i := load_dinode di ip1]> (k_itable s)).
  { rewrite (of_itable _ _ F4). simpl. rewrite Ht2. simpl. by rewrite list_insert_insert_eq. }
  mred. erewrite (upd_inode_eq s4) by (rewrite Ht4; by rewrite list_lookup_insert_eq). mred.
  erewrite get_inode_eq by (simpl; rewrite list_lookup_insert_eq; [done|by rewrite Ht4, length_insert]).
  mred. change (i_type (set_i_valid true (load_dinode di ip1))) with (di_type di).
  apply Z.eqb_neq in Hty. rewrite Hty. mred.
  split_and!; [by apply op_itable| |].
  - apply (in_frame_trans _ s1); [apply in_frame_itable|].
    apply (in_frame_trans _ s2); [by apply op_in_frame|].
    apply (in_frame_trans _ s3); [apply in_frame_itable|].
    apply (in_frame_trans _ s4); [by apply op_in_frame|apply in_frame_itable].
  - simpl. rewrite Ht4, list_insert_insert_eq. done.
Qed.

(** iupdate changes exactly its inode on disk, and ilock of any entry for
    that inode that is not valid reads back what iupdate wrote. *)
Theorem iupdate_ilock_roundtrip V L blks s i ip :
  op dev start V L blks p pp s -> k_itable s !! i = Some ip -> i_dev ip = dev ->
  dinode_ok (inode_dinode ip) -> L !! IBLOCK (i_inum ip) (k_sb s) = None ->
  (size (dom L) + length blks < NBUF)%nat -> (length blks < Z.to_nat LOGBLOCKS)%nat ->
  returns (iupdate i s) (fun _ s' => exists V' blks',
    op dev start V' L blks' p pp s' /\ op_frame s s' /\
    (forall n, disk_inode (k_sb s) V' n =
       if decide (n = i_inum ip) then inode_dinode ip else disk_inode (k_sb s) V n) /\
    (forall blk, blk <> IBLOCK (i_inum ip) (k_sb s) -> V' blk = V blk) /\
    forall L2 blks2 s2 j jp,
      op dev start V' L2 blks2 p pp s2 -> k_sb s2 = k_sb s -> k_itable s2 !! j = Some jp ->
      holds_inode dev (i_inum ip) jp = true -> i_valid jp = false -> sl_locked (i_lock jp) = false ->
      i_type ip <> 0 -> L2 !! IBLOCK (i_inum ip) (k_sb s) = None ->
      (size (dom L2) + length blks2 < NBUF)%nat ->
      returns (ilock j s2) (fun _ s3 => op dev start V' L2 blks2 p pp s3 /\
        exists jp', k_itable s3 !! j = Some jp' /\ inode_dinode jp' = inode_dinode ip /\
          i_valid jp' = true /\ i_lock jp' = mkSlock true (p_pid pp))).
Proof.
  intros Hop Hip Hdev Hok HL Hroom Hlog. eapply returns_mono; [eapply iupdate_spec; try done; apply Hok|].
  cbn beta. intros _ s' [Hop' F]. eexists _, _. split; [exact Hop'|]. split; [done|].
  assert (Hdi : forall n, disk_inode (k_sb s) (put_inode (k_sb s) V (i_inum ip) (inode_dinode ip)) n =
    if decide (n = i_inum ip) then inode_dinode ip else disk_inode (k_sb s) V n).
  { intros n. apply disk_inode_put; [by eapply op_view_length|done]. }
  split; [done|]. split; [intros blk Hb; unfold put_inode; by rewrite fn_lookup_insert_ne|].
  intros L2 blks2 s2 j jp Hop2 Hsb Hjp (Href & Hjd & Hji)%holds_inode_spec Hv Hlk Hty HL2 Hroom2.
  specialize (Hdi (i_inum ip)). rewrite decide_True in Hdi by done.
  eapply returns_mono.
  { eapply (ilock_spec _ _ _ s2 j jp); rewrite ?Hsb, ?Hji; try done. right. by rewrite Hdi. }
  cbn beta. intros _ s3 (Hop3 & _ & Ht). split; [done|]. eexists. rewrite Ht. split.
  { by rewrite list_lookup_insert_eq by (by eapply lookup_lt_Some). }
  unfold loaded. rewrite Hv, Hsb, Hji, Hdi. split_and!; [|done|done]. by destruct ip.
Qed.

Lemma iput_eq V L blks s i ip :
  op dev start V L blks p pp s -> k_itable s !! i = Some ip ->
  (i_ref ip =? 1) && i_valid ip && (i_nlink ip =? 0) = false ->
  iput i s = Ret tt (set_k_itable (<[i := set_i_ref (i_ref ip - 1) ip]> (k_itable s)) s).
Proof.
  intros Hop Hip Hc. pose proof (run_held _ _ _ _ (fs_run _ _ _ _ _ _ _ (op_fs _ _ _ _ _ _ _ _ Hop))) as Hh.
  unfold iput. mred. rewrite acquire_eq by (rewrite Hh; set_solver). mred. rewrite Hh.
  rewrite (get_inode_eq _ _ ip) by done. mred. rewrite Hc. mred.
  rewrite (upd_inode_eq _ _ ip) by done. mred. rewrite (release_eq _ _ []) by (done || set_solver).
  f_equal. destruct s. simpl in *. by subst.
Qed.
End inodes.
