(* ===== verification/Truncate.v ===== *)
(** * Truncation: itrunc and the last iput

    itrunc frees every block of the file and leaves an empty inode on disk;
    the last reference to an unlinked inode frees the inode as well. *)

From S2P Require Import Prelude State Spinlock CString Sysargs Proc ReadyQueue Sleeplock Sleeping Bio BufferCache Log Wal Transaction Usercopy Fs Bitmap Inodes.

(** ** Freeing a list of blocks *)

Definition free_block (sb : superblock) (V : Z -> list Z) (b : Z) : Z -> list Z :=
  <[BBLOCK b sb := clear_bit (V (BBLOCK b sb)) (b mod BPB)]> V.
Definition free_blocks (sb : superblock) (V : Z -> list Z) (bs : list Z) : Z -> list Z :=
  foldl (free_block sb) V bs.

Lemma free_blocks_app sb V bs1 bs2 : free_blocks sb V (bs1 ++ bs2) = free_blocks sb (free_blocks sb V bs1) bs2.
Proof. apply foldl_app. Qed.

Lemma length_free_blocks sb V bs blk : length (free_blocks sb V bs blk) = length (V blk).
Proof.
  revert V. induction bs as [|b bs IH]; intros V; [done|]. simpl. rewrite IH. unfold free_block.
  destruct (decide (blk = BBLOCK b sb)) as [->|].
  - rewrite fn_lookup_insert. unfold clear_bit. by rewrite length_insert.
  - by rewrite fn_lookup_insert_ne.
Qed.

Lemma free_blocks_other sb V bs blk :
  (forall b, b ∈ bs -> BBLOCK b sb <> blk) -> free_blocks sb V bs blk = V blk.
Proof.
  revert V. induction bs as [|b bs IH]; intros V H; [done|]. simpl. rewrite IH.
  - unfold free_block. rewrite fn_lookup_insert_ne; [done|]. apply H. by left.
  - intros b' Hb'. apply H. by right.
Qed.

Lemma used_free_block sb V b b' :
  length (V (BBLOCK b sb)) = Z.to_nat BSIZE ->
  used sb (free_block sb V b) b' = negb (b' =? b) && used sb V b'.
Proof.
  intros Hl. unfold used, free_block.
  pose proof (Z.mod_pos_bound b BPB ltac:(done)) as H1.
  pose proof (Z.mod_pos_bound b' BPB ltac:(done)) as H2.
  destruct (decide (BBLOCK b' sb = BBLOCK b sb)) as [E|E].
  - rewrite E, fn_lookup_insert, bit_clear_bit by done. by rewrite (same_block _ _ _ E).
  - rewrite fn_lookup_insert_ne by done. by destruct (Z.eqb_spec b' b) as [->|].
Qed.

Lemma used_free_blocks sb V bs b' :
  (forall blk, length (V blk) = Z.to_nat BSIZE) ->
  used sb (free_blocks sb V bs) b' = bool_decide (b' ∉ bs) && used sb V b'.
Proof.
  revert V. induction bs as [|b bs IH]; intros V Hl.
  - rewrite bool_decide_eq_true_2; [done|apply not_elem_of_nil].
  - change (free_blocks sb V (b :: bs)) with (free_blocks sb (free_block sb V b) bs). rewrite IH.
    + rewrite used_free_block by done. destruct (Z.eqb_spec b' b) as [->|Hne]; simpl.
      * rewrite andb_false_r, bool_decide_eq_false_2 by (intros H; apply H; by left). done.
      * f_equal. apply bool_decide_ext. rewrite not_elem_of_cons. tauto.
    + intros blk. rewrite <- (Hl blk). apply (length_free_blocks sb V [b]).
Qed.

(** The nonzero entries of a block list. *)
Definition nonzero (l : list Z) : list Z := filter (fun a => a <> 0) l.

Lemma nonzero_snoc l a : nonzero (l ++ [a]) = if decide (a = 0) then nonzero l else nonzero l ++ [a].
Proof.
  unfold nonzero. rewrite list_filter_app. case_decide as E.
  - rewrite filter_cons_False by tauto. by rewrite filter_nil, app_nil_r.
  - by rewrite filter_cons_True.
Qed.

(** The entries of an indirect block. *)
Definition indirect_blocks (d : list Z) : list Z := ind_get d <$> zrange 0 NINDIRECT.

(** The blocks of an inode: direct ones, those of its indirect block, and the
    indirect block itself. *)
Definition direct (ip : inode) : list Z := take (Z.to_nat NDIRECT) (i_addrs ip).
Definition indirect (ip : inode) : Z := i_addrs ip !!! Z.to_nat NDIRECT.
Definition file_blocks (V : Z -> list Z) (ip : inode) : list Z :=
  nonzero (direct ip) ++
  if decide (indirect ip = 0) then [] else nonzero (indirect_blocks (V (indirect ip))) ++ [indirect ip].

(** ** The log grows by at most the bitmap block *)

Definition logs_bitmap (bm : Z) (blks blks' : list Z) : Prop := blks' = blks \/ blks' = absorb bm blks.

Lemma absorb_absorb bm blks : absorb bm (absorb bm blks) = absorb bm blks.
Proof. unfold absorb at 1. rewrite decide_True; [done|]. rewrite elem_of_absorb. by left. Qed.

Lemma logs_bitmap_absorb bm blks blks' :
  logs_bitmap bm blks blks' -> absorb bm blks' = absorb bm blks.
Proof. intros [->| ->]; [done|apply absorb_absorb]. Qed.

Lemma logs_bitmap_length bm blks blks' :
  logs_bitmap bm blks blks' -> (length blks' <= S (length blks))%nat.
Proof. intros [->| ->]; [lia|apply length_absorb]. Qed.

Section truncate.
  Context (dev start : Z) (p : nat) (pp : proc).

(** What freeing blocks needs: they are in use, distinct, and share the bitmap
    block [bm] (a file system of at most BPB blocks has one), which is not
    locked; the log has room for it. *)
Record free_pre (bm : Z) (V : Z -> list Z) (L : gmap Z nat) (blks bs : list Z) (sb : superblock) : Prop := {
  fp_bm b : b ∈ bs -> BBLOCK b sb = bm;
  fp_used b : b ∈ bs -> used sb V b = true;
  fp_nodup : NoDup bs;
  fp_unlocked : L !! bm = None;
  fp_room : (size (dom L) + S (length blks) < NBUF)%nat;
  fp_log : (S (length blks) < Z.to_nat LOGBLOCKS)%nat;
}.

(** One more block of the list. *)
Lemma bfree_next bm V L blks blks1 sb bs1 b bs2 s :
  free_pre bm V L blks (bs1 ++ b :: bs2) sb -> k_sb s = sb ->
  op dev start (free_blocks sb V bs1) L blks1 p pp s -> logs_bitmap bm blks blks1 ->
  (forall blk, length (V blk) = Z.to_nat BSIZE) ->
  returns (bfree dev b s) (fun _ s' =>
    op dev start (free_blocks sb V (bs1 ++ [b])) L (absorb bm blks) p pp s' /\ op_frame s s').
Proof.
  intros [Hbm Hu Hnd HL Hroom Hlog] Hsb Hop Hlb Hlen.
  assert (Hb : b ∈ bs1 ++ b :: bs2) by (apply elem_of_app; right; by left).
  pose proof (logs_bitmap_length _ _ _ Hlb) as Hl1.
  assert (Hused : used sb (free_blocks sb V bs1) b = true).
  { rewrite used_free_blocks by done. rewrite (Hu b Hb), andb_true_r. apply bool_decide_eq_true_2.
    apply NoDup_app in Hnd as (_ & Hnd & _). intros Hin. apply (Hnd b Hin). by left. }
  pose proof (bfree_spec dev start p pp _ L blks1 s b Hop) as H. rewrite Hsb, Hused, (Hbm b Hb) in H.
  eapply returns_mono; [apply H; [done|lia|lia]|]. cbn beta zeta. intros _ s' [Hop' F]. split; [|done].
  rewrite (logs_bitmap_absorb _ _ _ Hlb) in Hop'. rewrite free_blocks_app. simpl. unfold free_block.
  by rewrite (Hbm b Hb).
Qed.

Lemma nonzero_split l n a :
  l !! n = Some a -> a <> 0 -> nonzero l = nonzero (take n l) ++ a :: nonzero (drop (S n) l).
Proof.
  intros Hn Ha. rewrite <- (take_drop_middle _ _ _ Hn) at 1. unfold nonzero.
  rewrite list_filter_app. by rewrite filter_cons_True.
Qed.

Lemma nonzero_take_S l n a :
  l !! n = Some a ->
  nonzero (take (S n) l) = if decide (a = 0) then nonzero (take n l) else nonzero (take n l) ++ [a].
Proof. intros Hn. by rewrite (take_S_r _ _ _ Hn), nonzero_snoc. Qed.

(** The inode after its first [n] addresses are cleared. *)
Definition cleared (n : nat) (ip : inode) : inode :=
  set_i_addrs (replicate n 0 ++ drop n (i_addrs ip)) ip.

Lemma cleared_lookup n ip a :
  i_addrs ip !! n = Some a -> i_addrs (cleared n ip) !! n = Some a.
Proof.
  intros H. simpl. rewrite lookup_app_r by (rewrite length_replicate; lia).
  rewrite length_replicate, Nat.sub_diag, lookup_drop, Nat.add_0_r. done.
Qed.

Lemma cleared_S n ip a :
  i_addrs ip !! n = Some a ->
  cleared (S n) ip = set_i_addrs (<[n := 0]> (i_addrs (cleared n ip))) (cleared n ip).
Proof.
  intros H. unfold cleared. simpl. unfold set_i_addrs. simpl. f_equal.
  rewrite insert_app_r_alt by (rewrite length_replicate; lia).
  rewrite length_replicate, Nat.sub_diag, (drop_S _ _ _ H). simpl.
  by rewrite app_comm_cons, replicate_cons_app, <- app_assoc.
Qed.

Lemma cleared_S_zero n ip : i_addrs ip !! n = Some 0 -> cleared (S n) ip = cleared n ip.
Proof.
  intros H. rewrite (cleared_S _ _ _ H). rewrite list_insert_id; [by destruct ip|].
  by apply cleared_lookup.
Qed.

(** The first loop: the direct blocks. *)
Lemma itrunc_direct_spec bm V L blks sb rest i ip s :
  let T := k_itable s in
  op dev start V L blks p pp s -> k_sb s = sb -> T !! i = Some ip -> i_dev ip = dev ->
  length (i_addrs ip) = 13%nat -> free_pre bm V L blks (nonzero (direct ip) ++ rest) sb ->
  returns (foreach (seq 0 (Z.to_nat NDIRECT)) (itrunc_direct i) s) (fun _ s' => exists blks1,
    logs_bitmap bm blks blks1 /\ op dev start (free_blocks sb V (nonzero (direct ip))) L blks1 p pp s' /\
    in_frame s s' /\ k_itable s' = <[i := cleared (Z.to_nat NDIRECT) ip]> T).
Proof.
  intros T Hop Hsb Hip Hdev Hlen Hpre. assert (Hlt := lookup_lt_Some _ _ _ Hip).
  apply (foreach_seq (fun n s1 => exists blks1,
    logs_bitmap bm blks blks1 /\ op dev start (free_blocks sb V (nonzero (take n (i_addrs ip)))) L blks1 p pp s1 /\
    in_frame s s1 /\ k_itable s1 = <[i := cleared n ip]> T)).
  { exists blks. split_and!; [by left|done|apply op_in_frame, op_frame_refl|].
    unfold cleared. simpl. rewrite drop_0, list_insert_id; [done|]. rewrite Hip. by destruct ip. }
  intros n s1 Hn (blks1 & Hlb & Hop1 & F1 & Ht). rewrite Nat.add_0_l in Hn.
  change (Z.to_nat NDIRECT) with 12%nat in *.
  destruct (lookup_lt_is_Some_2 (i_addrs ip) n) as [a Ha]; [lia|].
  unfold itrunc_direct. mred.
  rewrite (get_inode_eq s1 i (cleared n ip)) by (by rewrite Ht, list_lookup_insert_eq). mred.
  rewrite (cleared_lookup _ _ _ Ha). mred. rewrite (nonzero_take_S _ _ _ Ha).
  destruct (Z.eqb_spec a 0) as [->|Hne].
  { rewrite decide_True by done. exists blks1. split_and!; [done|done|done|].
    by rewrite (cleared_S_zero _ _ Ha). }
  rewrite decide_False by done. change (i_dev (cleared n ip)) with (i_dev ip). rewrite Hdev. mred.
  assert (Hdn : direct ip !! n = Some a) by (unfold direct; rewrite lookup_take_lt; [done|by change (Z.to_nat NDIRECT) with 12%nat; lia]).
  assert (Htk : take n (direct ip) = take n (i_addrs ip))
    by (unfold direct; rewrite take_take; f_equal; change (Z.to_nat NDIRECT) with 12%nat; lia).
  rewrite (nonzero_split _ _ _ Hdn Hne), Htk, <- app_assoc in Hpre. simpl in Hpre.
  mspec (bfree_next bm V L blks blks1 sb); [exact Hpre|by rewrite (if_sb _ _ F1)|exact Hop1|done|by intros; eapply op_view_length|].
  cbn beta. intros _ s2 [Hop2 F2]. unfold set_addr.
  rewrite (upd_inode_eq s2 i (cleared n ip)) by (by rewrite (of_itable _ _ F2), Ht, list_lookup_insert_eq).
  exists (absorb bm blks). split_and!; [by right|by apply op_itable| |].
  - apply (in_frame_trans _ s1); [done|]. apply (in_frame_trans _ s2); [by apply op_in_frame|apply in_frame_itable].
  - simpl. rewrite (of_itable _ _ F2), Ht, list_insert_insert_eq. by rewrite (cleared_S _ _ _ Ha).
Qed.

(** The second loop: the entries of the indirect block, which stays locked. *)
Lemma itrunc_indirect_spec bm V L blks blks0 sb bs1 a rest s :
  op dev start (free_blocks sb V bs1) L blks0 p pp s -> k_sb s = sb -> logs_bitmap bm blks blks0 ->
  (forall blk, length (V blk) = Z.to_nat BSIZE) ->
  free_pre bm V L blks (bs1 ++ nonzero (indirect_blocks a) ++ rest) sb ->
  returns (foreach (zrange 0 NINDIRECT) (itrunc_indirect dev a) s) (fun _ s' => exists blks1,
    logs_bitmap bm blks blks1 /\
    op dev start (free_blocks sb V (bs1 ++ nonzero (indirect_blocks a))) L blks1 p pp s' /\ op_frame s s').
Proof.
  intros Hop Hsb Hlb Hlen Hpre. eapply returns_mono.
  { apply (foreach_zrange (fun n s1 => exists blks1, logs_bitmap bm blks blks1 /\
      op dev start (free_blocks sb V (bs1 ++ nonzero (take (Z.to_nat n) (indirect_blocks a)))) L blks1 p pp s1 /\
      op_frame s s1)); [done| |].
    - exists blks0. rewrite take_0. unfold nonzero. rewrite filter_nil, app_nil_r.
      split_and!; [done|done|apply op_frame_refl].
    - intros n s1 Hn (blks1 & Hlb1 & Hop1 & F1).
      assert (Ha : indirect_blocks a !! Z.to_nat n = Some (ind_get a n)).
      { unfold indirect_blocks, zrange. rewrite !list_lookup_fmap, lookup_seq_lt by lia. simpl.
        f_equal. f_equal. lia. }
      replace (Z.to_nat (n + 1)) with (S (Z.to_nat n)) by lia. rewrite (nonzero_take_S _ _ _ Ha).
      unfold itrunc_indirect. destruct (Z.eqb_spec (ind_get a n) 0) as [E|E].
      { rewrite decide_True by done. exists blks1. done. }
      rewrite decide_False by done. rewrite app_assoc.
      rewrite (nonzero_split _ _ _ Ha E), <- (app_assoc _ (_ :: _)), app_assoc in Hpre. simpl in Hpre.
      eapply returns_mono; [eapply (bfree_next bm V L blks blks1 sb); [exact Hpre|by rewrite (of_sb _ _ F1)|done..]|].
      cbn beta. intros _ s2 [Hop2 F2]. exists (absorb bm blks). split_and!; [by right|done|by eapply op_frame_trans]. }
  cbn beta. intros _ s1 H. rewrite take_ge in H; [done|].
  unfold indirect_blocks, zrange. by rewrite !length_fmap, length_seq.
Qed.

Definition truncated (ip : inode) : inode := set_i_size 0 (set_i_addrs (replicate 13 0) ip).

(** What itrunc needs of the inode [ip] it truncates. *)
Record trunc_pre (bm : Z) (V : Z -> list Z) (L : gmap Z nat) (blks : list Z) (sb : superblock) (ip : inode)
    : Prop := {
  tp_dev : i_dev ip = dev;
  tp_addrs : length (i_addrs ip) = 13%nat;
  tp_blocks b : b ∈ file_blocks V ip -> BBLOCK b sb = bm /\ used sb V b = true /\ b <> bm /\ L !! b = None;
  tp_nodup : NoDup (file_blocks V ip);
  tp_bitmap : L !! bm = None;
  tp_iblock : L !! IBLOCK (i_inum ip) sb = None;
  tp_room : (size (dom L) + length blks + 2 < NBUF)%nat;
  tp_log : (length blks + 2 < Z.to_nat LOGBLOCKS)%nat;
}.

Lemma trunc_free_pre bm V L L' blks sb ip :
  trunc_pre bm V L blks sb ip -> L' !! bm = None -> (size (dom L') <= S (size (dom L)))%nat ->
  free_pre bm V L' blks (file_blocks V ip) sb.
Proof.
  intros [Hd Ha Hb Hn Hbm Hib Hr Hl] HL' Hs. constructor; try done; try lia; intros b Hin; by destruct (Hb b Hin) as (? & ? & _).
Qed.

Lemma addrs_split ip :
  length (i_addrs ip) = 13%nat -> i_addrs ip !! Z.to_nat NDIRECT = Some (indirect ip).
Proof. intros H. apply list_lookup_lookup_total_lt. rewrite H. change (Z.to_nat NDIRECT) with 12%nat. lia. Qed.

Lemma cleared_13 ip :
  length (i_addrs ip) = 13%nat -> indirect ip = 0 ->
  cleared (Z.to_nat NDIRECT) ip = set_i_addrs (replicate 13 0) ip.
Proof.
  intros Hl Hz. pose proof (addrs_split _ Hl) as Ha. rewrite Hz in Ha.
  rewrite <- (cleared_S_zero _ _ Ha). unfold cleared. f_equal. change (S (Z.to_nat NDIRECT)) with 13%nat.
  by rewrite drop_ge, app_nil_r by lia.
Qed.

Lemma set_cleared ip :
  length (i_addrs ip) = 13%nat ->
  set_i_addrs (<[Z.to_nat NDIRECT := 0]> (i_addrs (cleared (Z.to_nat NDIRECT) ip))) (cleared (Z.to_nat NDIRECT) ip)
    = set_i_addrs (replicate 13 0) ip.
Proof.
  intros Hl. pose proof (addrs_split _ Hl) as Ha. rewrite <- (cleared_S _ _ _ Ha). unfold cleared. f_equal.
  change (S (Z.to_nat NDIRECT)) with 13%nat. by rewrite drop_ge, app_nil_r by lia.
Qed.

Lemma logs_bitmap_mono bm blks blks' b : logs_bitmap bm blks blks' -> b ∈ blks -> b ∈ blks'.
Proof. intros [->| ->] Hb; [done|]. rewrite elem_of_absorb. by right. Qed.

(** The second half of itrunc: the indirect block [ind]. *)
Lemma itrunc_ind_spec bm V L blks blks1 sb ip s (k : K unit) Q :
  let bs1 := nonzero (direct ip) in let ind := indirect ip in
  op dev start V L blks p pp s -> forall s1,
  trunc_pre bm V L blks sb ip -> ind <> 0 -> in_frame s s1 -> k_sb s1 = sb ->
  op dev start (free_blocks sb V bs1) L blks1 p pp s1 -> logs_bitmap bm blks blks1 ->
  (forall s', op dev start (free_blocks sb V (file_blocks V ip)) L (absorb bm blks) p pp s' ->
     op_frame s1 s' -> returns (k s') Q) ->
  returns ((bp ← bread dev ind;
            a ← bdata bp;
            foreach (zrange 0 NINDIRECT) (itrunc_indirect dev a);;
            brelse bp;;
            bfree dev ind;; k) s1) Q.
Proof.
  intros bs1 ind Hop s1 Hpre Hind F1 Hsb Hop1 Hlb Hk.
  assert (Hfb : file_blocks V ip = bs1 ++ nonzero (indirect_blocks (V ind)) ++ [ind]).
  { unfold file_blocks. by rewrite decide_False. }
  assert (Hin : ind ∈ file_blocks V ip) by (rewrite Hfb, !elem_of_app, list_elem_of_singleton; tauto).
  destruct (tp_blocks _ _ _ _ _ _ Hpre _ Hin) as (Hbmi & Hui & Hne & HLi).
  pose proof (logs_bitmap_length _ _ _ Hlb). pose proof (tp_room _ _ _ _ _ _ Hpre).
  assert (Hlen : forall blk, length (V blk) = Z.to_nat BSIZE) by (intros; by eapply op_view_length).
  assert (Hother : forall bs, (forall b, b ∈ bs -> b ∈ file_blocks V ip) -> free_blocks sb V bs ind = V ind).
  { intros bs Hbs. apply free_blocks_other. intros b Hb E.
    destruct (tp_blocks _ _ _ _ _ _ Hpre b (Hbs b Hb)) as (E' & _). congruence. }
  mspec op_bread; [exact Hop1|exact HLi|lia|]. cbn beta. intros i s2 (Hop2 & F2 & _).
  assert (HL2 : <[ind := i]> L !! ind = Some i) by apply lookup_insert_eq.
  mred. rewrite (op_bdata _ _ _ _ _ _ _ _ _ _ Hop2 HL2). mred.
  rewrite Hother by (intros b; rewrite Hfb, !elem_of_app; tauto).
  assert (Hfp : free_pre bm V (<[ind := i]> L) blks (file_blocks V ip) sb).
  { eapply trunc_free_pre; [exact Hpre| |].
    - rewrite lookup_insert_ne by done. by apply (tp_bitmap _ _ _ _ _ _ Hpre).
    - rewrite dom_insert, size_union_alt, size_singleton.
      pose proof (subseteq_size (dom L ∖ {[ind]}) (dom L)) as Hs. specialize (Hs ltac:(set_solver)). lia. }
  rewrite Hfb in Hfp. mspec (itrunc_indirect_spec bm V _ blks blks1 sb bs1);
    [exact Hop2|by rewrite (of_sb _ _ F2)|done|done|exact Hfp|].
  cbn beta. intros _ s3 (blks3 & Hlb3 & Hop3 & F3). pose proof (op_frame_trans _ _ _ F2 F3) as F23.
  mspec op_brelse; [exact Hop3|exact HL2| |].
  { unfold safe_at. rewrite Hother by (intros b; rewrite Hfb, !elem_of_app; tauto).
    rewrite (of_disk _ _ F23), (if_disk _ _ F1).
    destruct (op_safe _ _ _ _ _ _ _ _ ind Hop HLi) as [Hs|Hs]; [left|by right].
    exact (logs_bitmap_mono _ _ _ _ Hlb3 Hs). }
  cbn beta. intros _ s4 [Hop4 F4]. rewrite delete_insert_id in Hop4 by done.
  pose proof (op_frame_trans _ _ _ F23 F4) as F24.
  assert (Hfp' : free_pre bm V L blks (file_blocks V ip) sb).
  { eapply trunc_free_pre; [exact Hpre|exact (tp_bitmap _ _ _ _ _ _ Hpre)|lia]. }
  rewrite Hfb, app_assoc in Hfp'.
  mspec (bfree_next bm V L blks blks3 sb); [exact Hfp'|by rewrite (of_sb _ _ F24)|done..|].
  cbn beta. intros _ s5 [Hop5 F5]. apply Hk; [by rewrite Hfb, app_assoc|by eapply op_frame_trans].
Qed.

(** Both halves of itrunc: all blocks freed, all addresses cleared. *)
Lemma itrunc_blocks bm V L blks s i ip (k : K unit) Q :
  op dev start V L blks p pp s -> k_itable s !! i = Some ip -> trunc_pre bm V L blks (k_sb s) ip ->
  (forall s' blks1, op dev start (free_blocks (k_sb s) V (file_blocks V ip)) L blks1 p pp s' ->
     logs_bitmap bm blks blks1 -> in_frame s s' ->
     k_itable s' = <[i := set_i_addrs (replicate 13 0) ip]> (k_itable s) -> returns (k s') Q) ->
  returns ((foreach (seq 0 (Z.to_nat NDIRECT)) (itrunc_direct i);;
            ip ← get_inode i;
            ind ← deref (i_addrs ip !! Z.to_nat NDIRECT);
            (if ind =? 0 then mret tt else
               bp ← bread (i_dev ip) ind;
               a ← bdata bp;
               foreach (zrange 0 NINDIRECT) (itrunc_indirect (i_dev ip) a);;
               brelse bp;;
               bfree (i_dev ip) ind;;
               set_addr i (Z.to_nat NDIRECT) 0);; k) s) Q.
Proof.
  intros Hop Hip Hpre Hk. assert (Hlt := lookup_lt_Some _ _ _ Hip).
  pose proof Hpre as [Hdev Hlen _ _ Hbm _ _ _].
  assert (Hfp : free_pre bm V L blks (file_blocks V ip) (k_sb s)) by (eapply trunc_free_pre; [done|done|lia]).
  mspec (itrunc_direct_spec bm V L blks (k_sb s) _ i ip s); [done..|exact Hfp|].
  cbn beta. intros _ s1 (blks1 & Hlb & Hop1 & F1 & Ht). mred.
  rewrite (get_inode_eq s1 i (cleared (Z.to_nat NDIRECT) ip)) by (by rewrite Ht, list_lookup_insert_eq). mred.
  rewrite (cleared_lookup _ _ _ (addrs_split _ Hlen)). mred.
  change (i_dev (cleared _ ip)) with (i_dev ip). rewrite Hdev.
  destruct (Z.eqb_spec (indirect ip) 0) as [Hz|Hnz].
  { mred. apply (Hk _ blks1); [|done|done|by rewrite Ht, cleared_13].
    unfold file_blocks. by rewrite decide_True, app_nil_r. }
  apply returns_obind. eapply (itrunc_ind_spec bm V L blks blks1 (k_sb s) ip s); try done.
  { by rewrite (if_sb _ _ F1). }
  intros s2 Hop2 F2. unfold set_addr.
  rewrite (upd_inode_eq s2 i (cleared (Z.to_nat NDIRECT) ip)) by (by rewrite (of_itable _ _ F2), Ht, list_lookup_insert_eq).
  simpl returns. apply (Hk _ (absorb bm blks)); [by apply op_itable|by right| |].
  - apply (in_frame_trans _ s1); [done|]. apply (in_frame_trans _ s2); [by apply op_in_frame|apply in_frame_itable].
  - simpl. rewrite (of_itable _ _ F2), Ht, list_insert_insert_eq. by rewrite <- set_cleared.
Qed.

Lemma itrunc_spec bm V L blks s i ip :
  op dev start V L blks p pp s -> k_itable s !! i = Some ip -> trunc_pre bm V L blks (k_sb s) ip ->
  returns (itrunc i s) (fun _ s' => exists blks1, logs_bitmap bm blks blks1 /\
    op dev start (put_inode (k_sb s) (free_blocks (k_sb s) V (file_blocks V ip)) (i_inum ip)
                    (inode_dinode (truncated ip))) L
       (absorb (IBLOCK (i_inum ip) (k_sb s)) blks1) p pp s' /\
    in_frame s s' /\ k_itable s' = <[i := truncated ip]> (k_itable s)).
Proof.
  intros Hop Hip Hpre. assert (Hlt := lookup_lt_Some _ _ _ Hip). unfold itrunc.
  eapply (itrunc_blocks bm V L blks s i ip); [done..|].
  intros s1 blks1 Hop1 Hlb F1 Ht. mred.
  rewrite (upd_inode_eq s1 i (set_i_addrs (replicate 13 0) ip)) by (by rewrite Ht, list_lookup_insert_eq). mred.
  fold (truncated ip). set (s2 := set_k_itable _ s1).
  assert (Ht2 : k_itable s2 = <[i := truncated ip]> (k_itable s))
    by (simpl; by rewrite Ht, list_insert_insert_eq).
  pose proof (logs_bitmap_length _ _ _ Hlb). destruct Hpre as [Hdev Hlen _ _ _ Hib Hroom Hlog].
  assert (Hsb : k_sb s2 = k_sb s) by apply (if_sb _ _ F1).
  eapply returns_mono.
  { eapply (iupdate_spec dev start p pp _ L blks1 s2 i (truncated ip));
      [by apply op_itable|by rewrite Ht2, list_lookup_insert_eq|done|done|by rewrite Hsb|lia|lia]. }
  cbn beta. rewrite Hsb. intros _ s3 [Hop3 F3]. exists blks1. split_and!; [done|done| |].
  - apply (in_frame_trans _ s1); [done|]. apply (in_frame_trans _ s2); [apply in_frame_itable|by apply op_in_frame].
  - by rewrite (of_itable _ _ F3).
Qed.

(** The contents after the file is truncated: marks and inodes. *)
Lemma truncated_used sb V ip di b :
  (forall blk, length (V blk) = Z.to_nat BSIZE) -> BBLOCK b sb <> IBLOCK (i_inum ip) sb ->
  used sb (put_inode sb (free_blocks sb V (file_blocks V ip)) (i_inum ip) di) b =
    bool_decide (b ∉ file_blocks V ip) && used sb V b.
Proof.
  intros Hlen Hne. rewrite <- used_free_blocks by done. unfold used, put_inode.
  by rewrite fn_lookup_insert_ne by done.
Qed.

Lemma truncated_disk_inode sb V bm ip di n :
  (forall blk, length (V blk) = Z.to_nat BSIZE) -> dinode_ok di ->
  (forall b, b ∈ file_blocks V ip -> BBLOCK b sb = bm) -> IBLOCK n sb <> bm ->
  disk_inode sb (put_inode sb (free_blocks sb V (file_blocks V ip)) (i_inum ip) di) n =
    if decide (n = i_inum ip) then di else disk_inode sb V n.
Proof.
  intros Hlen Hdi Hbm Hne. rewrite disk_inode_put by (by rewrite ?length_free_blocks).
  case_decide; [done|]. unfold disk_inode. rewrite free_blocks_other; [done|].
  intros b Hb. rewrite (Hbm b Hb). done.
Qed.

Lemma dinode_ok_truncated ip ty :
  dinode_ok (inode_dinode ip) -> is_s16 ty -> dinode_ok (inode_dinode (set_i_type ty (truncated ip))).
Proof.
  intros [] Hty. constructor; simpl in *; try done. change (Forall is_u32 (replicate 13 0)). by apply Forall_replicate.
Qed.

(** itrunc frees exactly the blocks of the file (direct blocks, the blocks its
    indirect block names, and the indirect block), empties the inode in memory
    and on disk, and leaves every other inode's disk copy as it was; it returns,
    inside the transaction, without writing to the disk. *)
Theorem itrunc_frees_file bm V L blks s i ip :
  op dev start V L blks p pp s -> k_itable s !! i = Some ip -> trunc_pre bm V L blks (k_sb s) ip ->
  dinode_ok (inode_dinode ip) ->
  returns (itrunc i s) (fun _ s' => exists V' blks',
    op dev start V' L blks' p pp s' /\ in_frame s s' /\ (length blks' <= length blks + 2)%nat /\
    k_itable s' = <[i := truncated ip]> (k_itable s) /\
    (forall b, BBLOCK b (k_sb s) <> IBLOCK (i_inum ip) (k_sb s) ->
       used (k_sb s) V' b = bool_decide (b ∉ file_blocks V ip) && used (k_sb s) V b) /\
    (forall n, IBLOCK n (k_sb s) <> bm -> disk_inode (k_sb s) V' n =
       if decide (n = i_inum ip) then inode_dinode (truncated ip) else disk_inode (k_sb s) V n)).
Proof.
  intros Hop Hip Hpre Hok. eapply returns_mono; [by eapply itrunc_spec|].
  cbn beta. intros _ s' (blks1 & Hlb & Hop' & F & Ht).
  assert (Hlen : forall blk, length (V blk) = Z.to_nat BSIZE) by (intros; by eapply op_view_length).
  eexists _, _. split; [exact Hop'|]. split_and!; [done| |done| |].
  - pose proof (logs_bitmap_length _ _ _ Hlb).
    pose proof (length_absorb (IBLOCK (i_inum ip) (k_sb s)) blks1). lia.
  - intros b Hb. by apply truncated_used.
  - intros n Hn. apply (truncated_disk_inode _ _ bm); [done| | |done].
    + apply (dinode_ok_truncated ip (i_type ip) Hok). apply (dok_type _ Hok).
    + intros b Hb. by apply (tp_blocks _ _ _ _ _ _ Hpre).
Qed.

(** ** The last iput *)

Lemma op_sched V L blks s s' :
  op dev start V L blks p pp s -> sched_frame s s' -> running p pp [] s' ->
  op dev start V L blks p pp s' /\ op_frame s s'.
Proof.
  intros [[Hbc Hr] Hlr Ho] F Hrun. unfold sched_frame in F. split.
  - constructor; [|by rewrite F|by rewrite F]. constructor; [|done]. apply (bc_ext _ _ _ _ _ s); [by rewrite F..|done].
  - apply bio_op_frame. by apply sched_bio_frame.
Qed.

Lemma put_inode_twice sb V n d1 d2 :
  length (V (IBLOCK n sb)) = Z.to_nat BSIZE -> length (di_addrs d1) = 13%nat -> length (di_addrs d2) = 13%nat ->
  forall blk, put_inode sb (put_inode sb V n d1) n d2 blk = put_inode sb V n d2 blk.
Proof.
  intros Hl H1 H2 blk. unfold put_inode. destruct (decide (blk = IBLOCK n sb)) as [->|Hne].
  - rewrite !fn_lookup_insert. unfold block_set_dinode. apply splice_splice_same.
    + by rewrite !length_dinode_bytes.
    + rewrite length_dinode_bytes by done. rewrite Hl. apply dinode_off_fits.
  - by rewrite !fn_lookup_insert_ne.
Qed.

(** The entry after the last iput. *)
Definition dropped (ip : inode) : inode :=
  set_i_ref 0 (set_i_lock (mkSlock false 0) (set_i_valid false (set_i_type 0 (truncated ip)))).

(** The code between release and the second acquire: the inode is locked. *)
Lemma iput_free_spec bm V L blks s i ip (k : K unit) Q :
  op dev start V L blks p pp s -> k_itable s !! i = Some ip -> trunc_pre bm V L blks (k_sb s) ip ->
  i_lock ip = mkSlock true (p_pid pp) ->
  (forall s' blks1, logs_bitmap bm blks blks1 ->
    op dev start (put_inode (k_sb s) (free_blocks (k_sb s) V (file_blocks V ip)) (i_inum ip)
                    (inode_dinode (set_i_type 0 (truncated ip)))) L
       (absorb (IBLOCK (i_inum ip) (k_sb s)) blks1) p pp s' ->
    in_frame s s' ->
    k_itable s' = <[i := set_i_lock (mkSlock false 0) (set_i_valid false (set_i_type 0 (truncated ip)))]> (k_itable s) ->
    returns (k s') Q) ->
  returns ((itrunc i;;
            upd_inode i (set_i_type 0);;
            iupdate i;;
            upd_inode i (set_i_valid false);;
            releasesleep (SInode i);;
            k) s) Q.
Proof.
  intros Hop Hip Hpre Hlk Hk. assert (Hlt := lookup_lt_Some _ _ _ Hip).
  mspec itrunc_spec; [done..|exact Hpre|]. cbn beta. intros _ s1 (blks1 & Hlb & Hop1 & F1 & Ht1).
  pose proof (logs_bitmap_length _ _ _ Hlb). destruct Hpre as [Hdev Hlen _ _ _ Hib Hroom Hlog].
  set (ib := IBLOCK (i_inum ip) (k_sb s)) in *. pose proof (length_absorb ib blks1).
  mred. rewrite (upd_inode_eq s1 i (truncated ip)) by (by rewrite Ht1, list_lookup_insert_eq). mred.
  set (ip2 := set_i_type 0 (truncated ip)). set (s2 := set_k_itable _ s1).
  assert (Ht2 : k_itable s2 = <[i := ip2]> (k_itable s)) by (simpl; by rewrite Ht1, list_insert_insert_eq).
  assert (Hsb : k_sb s2 = k_sb s) by apply (if_sb _ _ F1).
  mspec (iupdate_spec dev start p pp _ L _ s2 i ip2);
    [by apply op_itable|by rewrite Ht2, list_lookup_insert_eq|done|done|by rewrite Hsb|lia|lia|].
  cbn beta. rewrite Hsb. fold ib. rewrite absorb_absorb. intros _ s3 [Hop3 F3].
  pose proof (of_itable _ _ F3) as Ht3. rewrite Ht2 in Ht3. mred.
  rewrite (upd_inode_eq s3 i ip2) by (by rewrite Ht3, list_lookup_insert_eq). mred.
  set (s4 := set_k_itable _ s3).
  assert (Ht4 : k_itable s4 = <[i := set_i_valid false ip2]> (k_itable s))
    by (simpl; by rewrite Ht3, list_insert_insert_eq).
  assert (Hi4 : k_itable s4 !! i = Some (set_i_valid false ip2)) by (by rewrite Ht4, list_lookup_insert_eq).
  eapply (op_itable _ _ _ _ _ _ _ _ (k_itable s4)) in Hop3. change (set_k_itable _ s3) with s4 in Hop3.
  apply returns_obind.
  eapply returns_mono; [apply (releasesleep_spec (SInode i) (i_lock ip) p pp); [apply Hop3|]|].
  { unfold slk_of. by rewrite Hi4. }
  assert (Hput : slk_put (SInode i) (mkSlock false 0) s4 =
    set_k_itable (<[i := set_i_lock (mkSlock false 0) (set_i_valid false ip2)]> (k_itable s4)) s4)
    by (unfold slk_put; by rewrite Hi4).
  cbn beta. rewrite Hput. intros _ s5 [F5 Hrun5].
  eapply (op_itable _ _ _ _ _ _ _ _ (<[i := set_i_lock (mkSlock false 0) (set_i_valid false ip2)]> (k_itable s4))) in Hop3.
  destruct (op_sched _ _ _ _ _ Hop3 F5 Hrun5) as [Hop5 Fr5]. apply (Hk s5 blks1 Hlb).
  - eapply op_view_ext; [|exact Hop5]. apply put_inode_twice; [|done|done].
    rewrite length_free_blocks. by eapply op_view_length.
  - apply (in_frame_trans _ s1); [done|]. apply (in_frame_trans _ s2); [apply in_frame_itable|].
    apply (in_frame_trans _ s3); [by apply op_in_frame|]. apply (in_frame_trans _ s4); [apply in_frame_itable|].
    eapply in_frame_trans; [|by apply op_in_frame]. apply in_frame_itable.
  - rewrite (of_itable _ _ Fr5), Ht4. apply list_insert_insert_eq.
Qed.

(** C35. iput of the last reference to an inode with no links: the file's blocks
    and the inode itself are free on disk (its type is 0 there), the table entry
    can be reused, and every other inode's disk copy is unchanged. *)
Theorem iput_last_frees_inode bm V L blks s i ip :
  op dev start V L blks p pp s -> k_itable s !! i = Some ip -> trunc_pre bm V L blks (k_sb s) ip ->
  dinode_ok (inode_dinode ip) ->
  i_ref ip = 1 -> i_valid ip = true -> i_nlink ip = 0 -> sl_locked (i_lock ip) = false ->
  returns (iput i s) (fun _ s' => exists V' blks',
    op dev start V' L blks' p pp s' /\ in_frame s s' /\ (length blks' <= length blks + 2)%nat /\
    k_itable s' = <[i := dropped ip]> (k_itable s) /\
    (forall b, BBLOCK b (k_sb s) <> IBLOCK (i_inum ip) (k_sb s) ->
       used (k_sb s) V' b = bool_decide (b ∉ file_blocks V ip) && used (k_sb s) V b) /\
    (forall n, IBLOCK n (k_sb s) <> bm -> disk_inode (k_sb s) V' n =
       if decide (n = i_inum ip) then inode_dinode (dropped ip) else disk_inode (k_sb s) V n)).
Proof.
  intros Hop Hip Hpre Hok Href Hv Hnl Hlk. assert (Hlt := lookup_lt_Some _ _ _ Hip).
  pose proof (op_held _ _ _ _ _ _ _ _ Hop) as Hh.
  unfold iput. mred. rewrite acquire_eq by (rewrite Hh; set_solver). mred. rewrite Hh.
  rewrite (get_inode_eq _ _ ip) by done. mred. rewrite Href, Hv, Hnl.
  change ((1 =? 1) && true && (0 =? 0)) with true. mred.
  assert (Hrun : running p pp [] s) by apply Hop. set (sh := set_k_held [LItable] s).
  assert (Hips : k_itable sh !! i = Some ip) by done.
  rewrite (acquiresleep_eq _ (i_lock ip) p pp [LItable]);
    [|by eapply running_set_held|set_solver|unfold slk_of; by rewrite Hips|done].
  mred. set (ip1 := set_i_lock (mkSlock true (p_pid pp)) ip).
  assert (Hput : slk_put (SInode i) (mkSlock true (p_pid pp)) sh =
    set_k_held [LItable] (set_k_itable (<[i := ip1]> (k_itable s)) s)) by (unfold slk_put; by rewrite Hips).
  rewrite Hput. rewrite (release_eq _ _ []) by (done || set_solver). mred.
  set (s1 := set_k_held [] _).
  assert (Es1 : s1 = set_k_itable (<[i := ip1]> (k_itable s)) s) by (unfold s1; destruct s; simpl in *; by subst).
  rewrite Es1. clear s1 Es1. apply returns_obind.
  assert (Hpre1 : trunc_pre bm V L blks (k_sb s) ip1) by (by destruct Hpre; constructor).
  eapply (iput_free_spec bm V L blks _ i ip1);
    [by apply op_itable|simpl; by rewrite list_lookup_insert_eq|exact Hpre1|done|].
  simpl k_sb. intros s2 blks1 Hlb Hop2 F2 Ht2. simpl in Ht2. rewrite list_insert_insert_eq in Ht2.
  pose proof (op_held _ _ _ _ _ _ _ _ Hop2) as Hh2.
  rewrite acquire_eq by (rewrite Hh2; set_solver). simpl returns. rewrite Hh2. mred.
  erewrite upd_inode_eq by (simpl; rewrite Ht2; by rewrite list_lookup_insert_eq). mred.
  rewrite (release_eq _ _ []) by (done || set_solver).
  apply (returns_ret _ _ tt (set_k_itable (<[i := dropped ip]> (k_itable s)) s2)).
  { f_equal. simpl k_itable. rewrite Ht2, list_insert_insert_eq. unfold dropped. simpl i_ref. rewrite Href.
    destruct s2; simpl in *; by subst. }
  assert (Hlen : forall blk, length (V blk) = Z.to_nat BSIZE) by (intros; by eapply op_view_length).
  eexists _, _. split; [by apply op_itable|]. split_and!; [| |done| |].
  - apply (in_frame_trans _ (set_k_itable (<[i := ip1]> (k_itable s)) s)); [apply in_frame_itable|].
    eapply in_frame_trans; [exact F2|apply in_frame_itable].
  - pose proof (logs_bitmap_length _ _ _ Hlb).
    pose proof (length_absorb (IBLOCK (i_inum ip) (k_sb s)) blks1). simpl i_inum. lia.
  - intros b Hb. by apply (truncated_used _ _ ip).
  - intros n Hn. apply (truncated_disk_inode _ _ bm ip); [done| | |done].
    + by apply (dinode_ok_truncated ip 0 Hok).
    + intros b Hb. by apply (tp_blocks _ _ _ _ _ _ Hpre).
Qed.

End truncate.
