(* ===== verification/Content.v ===== *)
(** * File contents: bmap, readi and writei

    An inode and the block contents determine the bytes of the file, holes
    reading as zero.  bmap finds or allocates the block of an offset without
    changing the bytes; readi copies them out; writei replaces a range of them
    and leaves every other block of the disk alone. *)

From S2P Require Import Prelude State Spinlock CString Sysargs Proc ReadyQueue Sleeplock Sleeping Bio BufferCache Log Wal Transaction Usercopy Fs Bitmap Inodes Truncate.

(** ** The bytes of a file *)

Definition blk_addr (V : Z -> list Z) (ip : inode) (bn : Z) : Z :=
  if bn <? NDIRECT then i_addrs ip !!! Z.to_nat bn
  else if indirect ip =? 0 then 0 else ind_get (V (indirect ip)) (bn - NDIRECT).

Definition byte_at (V : Z -> list Z) (ip : inode) (o : Z) : Z :=
  let a := blk_addr V ip (o / BSIZE) in
  if a =? 0 then 0 else V a !!! Z.to_nat (o mod BSIZE).

Definition file_bytes (V : Z -> list Z) (ip : inode) (off n : Z) : list Z :=
  byte_at V ip <$> zrange off (off + n).

Definition owns (V : Z -> list Z) (ip : inode) (a : Z) : Prop :=
  a <> 0 /\ (a = indirect ip \/ exists bn, 0 <= bn < MAXFILE /\ blk_addr V ip bn = a).

(** The file system as seen from one locked inode: its blocks are marked,
    distinct and unlocked; one bitmap block [bm] covers the disk; blocks that
    are free are neither locked nor metadata. *)
Record file_ok (dev bm : Z) (V : Z -> list Z) (L : gmap Z nat) (sb : superblock) (ip : inode) : Prop := {
  fo_dev : i_dev ip = dev;
  fo_len : length (i_addrs ip) = 13%nat;
  fo_own a : owns V ip a ->
    0 <= a < sb_size sb /\ used sb V a = true /\ L !! a = None /\ a <> bm /\ a <> IBLOCK (i_inum ip) sb;
  fo_inj i j : 0 <= i < MAXFILE -> 0 <= j < MAXFILE ->
    blk_addr V ip i = blk_addr V ip j -> blk_addr V ip i <> 0 -> i = j;
  fo_ind i : 0 <= i < MAXFILE -> blk_addr V ip i <> 0 -> blk_addr V ip i <> indirect ip;
  fo_one b : 0 <= b < sb_size sb -> BBLOCK b sb = bm;
  fo_free b : 0 <= b < sb_size sb -> used sb V b = false ->
    L !! b = None /\ b <> bm /\ b <> IBLOCK (i_inum ip) sb /\ 0 < b < 2 ^ 32;
  fo_bm : L !! bm = None;
  fo_ib : L !! IBLOCK (i_inum ip) sb = None;
  fo_meta : bm <> IBLOCK (i_inum ip) sb;
}.

(** ** Indirect blocks *)

Lemma ind_get_set_same d j x :
  length d = Z.to_nat BSIZE -> 0 <= j < NINDIRECT -> 0 <= x < 2 ^ 32 -> ind_get (ind_set d j x) j = x.
Proof.
  intros Hd Hj Hx. unfold ind_get, ind_set. rewrite get32_put32_same.
  - by apply Z.mod_small.
  - lia.
  - rewrite Hd. unfold NINDIRECT, BSIZE in *. change (1024 / 4) with 256 in *. lia.
Qed.

Lemma ind_get_set_ne d j k x :
  length d = Z.to_nat BSIZE -> 0 <= j < NINDIRECT -> 0 <= k -> j <> k ->
  ind_get (ind_set d j x) k = ind_get d k.
Proof.
  intros Hd Hj Hk Hne. unfold ind_get, ind_set. apply get32_put32_ne; [lia|lia| |lia].
  rewrite Hd. unfold NINDIRECT, BSIZE in *. change (1024 / 4) with 256 in *. lia.
Qed.

Lemma length_ind_set d j x :
  length d = Z.to_nat BSIZE -> 0 <= j < NINDIRECT -> length (ind_set d j x) = Z.to_nat BSIZE.
Proof.
  intros Hd Hj. unfold ind_set. rewrite length_put32; [done|lia|].
  rewrite Hd. unfold NINDIRECT, BSIZE in *. change (1024 / 4) with 256 in *. lia.
Qed.

Lemma slice_replicate n x off k : (off + k <= n)%nat -> slice (replicate n x) off k = replicate k x.
Proof. intros H. unfold slice. rewrite drop_replicate, take_replicate. f_equal. lia. Qed.

Lemma ind_get_zero j : 0 <= j < NINDIRECT -> ind_get zero_block j = 0.
Proof.
  intros Hj. unfold ind_get, get32, zero_block. rewrite slice_replicate; [done|].
  unfold NINDIRECT, BSIZE in *. change (1024 / 4) with 256 in *. lia.
Qed.

Lemma zero_block_at i : zero_block !!! i = 0.
Proof.
  unfold zero_block. destruct (decide (i < Z.to_nat BSIZE)%nat).
  - apply list_lookup_total_correct. by apply lookup_replicate.
  - rewrite list_lookup_total_alt, lookup_ge_None_2; [done|]. rewrite length_replicate. lia.
Qed.

(** ** Changes that keep the contents *)

Lemma blk_addr_ext V V' ip bn :
  (indirect ip <> 0 -> V' (indirect ip) = V (indirect ip)) -> blk_addr V' ip bn = blk_addr V ip bn.
Proof.
  intros H. unfold blk_addr. destruct (bn <? NDIRECT); [done|].
  destruct (Z.eqb_spec (indirect ip) 0); [done|]. by rewrite H.
Qed.

Lemma blk_range o : 0 <= o < MAXFILE * BSIZE -> 0 <= o / BSIZE < MAXFILE.
Proof. intros H. split; [apply Z.div_pos|apply Z.div_lt_upper_bound]; unfold BSIZE in *; lia. Qed.

Lemma owns_addr V ip bn : 0 <= bn < MAXFILE -> blk_addr V ip bn <> 0 -> owns V ip (blk_addr V ip bn).
Proof. intros Hb Hne. split; [done|]. right. eauto. Qed.

Lemma owns_indirect V ip : indirect ip <> 0 -> owns V ip (indirect ip).
Proof. intros H. split; [done|by left]. Qed.

Lemma byte_at_ext V V' ip o :
  0 <= o < MAXFILE * BSIZE -> (forall a, owns V ip a -> V' a = V a) -> byte_at V' ip o = byte_at V ip o.
Proof.
  intros Ho H. unfold byte_at.
  rewrite (blk_addr_ext V V') by (intros Hi; apply H; by apply owns_indirect).
  destruct (Z.eqb_spec (blk_addr V ip (o / BSIZE)) 0); [done|]. rewrite H; [done|].
  apply owns_addr; [by apply blk_range|done].
Qed.

Lemma owns_ext V V' ip a :
  (indirect ip <> 0 -> V' (indirect ip) = V (indirect ip)) -> owns V' ip a <-> owns V ip a.
Proof.
  intros H. unfold owns. split; intros [Ha [Hi|(bn & Hbn & E)]]; (split; [done|]); [by left|right|by left|right];
    exists bn; by rewrite (blk_addr_ext V V') in * by done.
Qed.

Section content.
  Context (dev bm : Z) (L : gmap Z nat) (sb : superblock).

(** Contents that agree on the blocks of the file and on the marks. *)
Lemma file_ok_ext V V' ip :
  file_ok dev bm V L sb ip -> (forall a, owns V ip a -> V' a = V a) ->
  (forall b, 0 <= b < sb_size sb -> used sb V b = true -> used sb V' b = true) ->
  (forall b, 0 <= b < sb_size sb -> used sb V' b = false -> used sb V b = false) ->
  file_ok dev bm V' L sb ip.
Proof.
  intros [Hd Hl Ho Hi Hn H1 Hf Hb Hib Hm] HV Hu Hu'.
  assert (HVi : indirect ip <> 0 -> V' (indirect ip) = V (indirect ip)) by (intros; by apply HV, owns_indirect).
  constructor; try done.
  - intros a Ha. apply (owns_ext V V' ip a HVi) in Ha. destruct (Ho a Ha) as (R & U & Lk & N1 & N2).
    split_and!; try done; [lia|lia|by apply Hu].
  - intros i j. rewrite !(blk_addr_ext V V' ip _ HVi). apply Hi.
  - intros i. rewrite !(blk_addr_ext V V' ip _ HVi). apply Hn.
  - intros b Hb0 Hub. apply Hf; [done|by apply Hu'].
Qed.

(** Marking and zeroing a free block. *)
Lemma file_ok_allocated V ip b :
  file_ok dev bm V L sb ip -> (forall blk, length (V blk) = Z.to_nat BSIZE) ->
  0 <= b < sb_size sb -> used sb V b = false ->
  let V' := allocated sb V b in
  file_ok dev bm V' L sb ip /\ (forall a, owns V ip a -> V' a = V a) /\ ~ owns V ip b /\
  V' b = zero_block /\ used sb V' b = true.
Proof.
  intros Hok Hlen Hb Hu V'. pose proof Hok as [Hd Hl Ho Hi Hn H1 Hf Hbm Hib Hm].
  destruct (Hf b Hb Hu) as (Lb & Nbm & Nib & Hb0).
  assert (Hbm' : bm <> b) by done.
  assert (Hused : forall b', 0 <= b' < sb_size sb -> used sb V' b' = (b' =? b) || used sb V b').
  { intros b' Hb'. unfold V', allocated. unfold used. rewrite (H1 b Hb), (H1 b' Hb').
    rewrite fn_lookup_insert_ne by done. rewrite fn_lookup_insert.
    pose proof (Z.mod_pos_bound b BPB ltac:(done)). pose proof (Z.mod_pos_bound b' BPB ltac:(done)).
    rewrite bit_set_bit by done. f_equal. apply (same_block _ _ sb). by rewrite H1, H1. }
  assert (Hnown : ~ owns V ip b) by (intros Hw; destruct (Ho b Hw) as (_ & U & _); congruence).
  assert (HVa : forall a, owns V ip a -> V' a = V a).
  { intros a Ha. unfold V', allocated. rewrite (H1 b Hb). destruct (Ho a Ha) as (_ & _ & _ & N1 & _).
    rewrite fn_lookup_insert_ne by (intros ->; done). by rewrite fn_lookup_insert_ne. }
  split_and!; try done.
  - apply (file_ok_ext V); try done.
    + intros b' Hb' U. rewrite Hused by done. by rewrite U, orb_true_r.
    + intros b' Hb'. rewrite Hused by done. by intros [_ ?]%orb_false_iff.
  - unfold V', allocated. by rewrite fn_lookup_insert.
  - rewrite Hused by done. by rewrite Z.eqb_refl.
Qed.

(** Linking a fresh zero block [b] somewhere into the file: what is needed of
    the new address map [f'], which differs from the old one at [bn] only. *)
Lemma file_ok_link V V' ip ip' bn b :
  file_ok dev bm V L sb ip -> i_dev ip' = i_dev ip -> i_inum ip' = i_inum ip ->
  length (i_addrs ip') = 13%nat -> indirect ip' = indirect ip ->
  0 <= bn < MAXFILE -> blk_addr V ip bn = 0 -> blk_addr V' ip' bn = b ->
  (forall k, 0 <= k < MAXFILE -> k <> bn -> blk_addr V' ip' k = blk_addr V ip k) ->
  0 < b < sb_size sb -> ~ owns V ip b -> L !! b = None -> b <> bm -> b <> IBLOCK (i_inum ip) sb ->
  used sb V b = true -> (forall c, 0 <= c < sb_size sb -> used sb V' c = used sb V c) ->
  file_ok dev bm V' L sb ip'.
Proof.
  intros [Hd Hl Ho Hi Hn H1 Hf Hbm Hib Hm] Ed Ei Hl' Eind Hbn Hz Hb Hk Hbr Hno Lb Nbm Nib Hub Hu.
  assert (Hown : forall a, owns V' ip' a -> a = b \/ owns V ip a).
  { intros a [Ha [->|(k & Hkr & E)]].
    - right. split; [done|]. left. by rewrite Eind.
    - destruct (decide (k = bn)) as [->|Hne]; [left; congruence|]. right. split; [done|]. right.
      exists k. split; [done|]. by rewrite <- Hk. }
  assert (Hneq : forall k, 0 <= k < MAXFILE -> k <> bn -> blk_addr V ip k <> b).
  { intros k Hkr Hne E. apply Hno. split; [lia|]. right. by exists k. }
  constructor; rewrite ?Ei; try done; [congruence| | | |].
  - intros a [->|Ha]%Hown; [split_and!; try done; [lia|lia|rewrite Hu; [done|lia]]|].
    destruct (Ho a Ha) as (R & U & Lk & N1 & N2). split_and!; try done; [lia|lia|by rewrite Hu by lia].
  - intros i j Hir Hjr. destruct (decide (i = bn)) as [->|Hib'], (decide (j = bn)) as [->|Hjb]; [done|..].
    + rewrite (Hk j), Hb by done. intros E _. by destruct (Hneq j Hjr Hjb).
    + rewrite (Hk i), Hb by done. intros E _. by destruct (Hneq i Hir Hib').
    + rewrite (Hk i), (Hk j) by done. by apply Hi.
  - intros i Hir. destruct (decide (i = bn)) as [->|Hne].
    + rewrite Hb, Eind. intros Hb0 E. apply Hno. split; [done|by left].
    + rewrite Hk, Eind by done. by apply Hn.
  - intros b' Hb'. rewrite Hu by done. by apply Hf.
Qed.

End content.

(** ** Growing a file *)

(** From [V], [ip] to [V'], [ip']: the file may have more blocks and its bytes
    are now [B]; the blocks that were in use, but for the bitmap and the file's
    own, are as before. *)
Record evolved (dev bm : Z) (L : gmap Z nat) (sb : superblock) (B : Z -> Z) (V : Z -> list Z) (ip : inode)
    (V' : Z -> list Z) (ip' : inode) : Prop := {
  gr_same : ip' = set_i_addrs (i_addrs ip') ip;
  gr_ok : file_ok dev bm V' L sb ip';
  gr_bytes o : 0 <= o < MAXFILE * BSIZE -> byte_at V' ip' o = B o;
  gr_other blk : 0 <= blk < sb_size sb -> used sb V blk = true -> blk <> bm -> ~ owns V ip blk ->
    V' blk = V blk /\ ~ owns V' ip' blk;
  gr_used b : 0 <= b < sb_size sb -> used sb V b = true -> used sb V' b = true;
  gr_keep k : 0 <= k < MAXFILE -> blk_addr V ip k <> 0 -> blk_addr V' ip' k = blk_addr V ip k;
  gr_ind : indirect ip <> 0 -> indirect ip' = indirect ip;
}.

(** The bytes are unchanged. *)
Definition grown dev bm L sb V ip V' ip' : Prop := evolved dev bm L sb (byte_at V ip) V ip V' ip'.

Lemma grown_refl dev bm L sb V ip : file_ok dev bm V L sb ip -> grown dev bm L sb V ip V ip.
Proof. intros H. constructor; try done. by destruct ip. Qed.

Lemma evolved_trans dev bm L sb B B1 B2 V ip V1 ip1 V2 ip2 :
  evolved dev bm L sb B1 V ip V1 ip1 -> evolved dev bm L sb B2 V1 ip1 V2 ip2 ->
  (forall o, 0 <= o < MAXFILE * BSIZE -> B2 o = B o) -> evolved dev bm L sb B V ip V2 ip2.
Proof.
  intros [S1 O1 B1' D1 U1 K1 I1] [S2 O2 B2' D2 U2 K2 I2] HB. constructor; try done.
  - rewrite S2 at 1. rewrite S1. by destruct ip.
  - intros o Ho. by rewrite B2', HB.
  - intros blk Hr Hu Hne Hno. destruct (D1 blk Hr Hu Hne Hno) as [E1 N1].
    destruct (D2 blk) as [E2 N2]; [done|by apply U1|done|done|]. split; [congruence|done].
  - intros b Hr Hu. apply U2; [done|]. by apply U1.
  - intros k Hk Hne. rewrite K2, K1; try done. by rewrite K1.
  - intros Hne. rewrite I2, I1; try done. by rewrite I1.
Qed.

Lemma grown_trans dev bm L sb V ip V1 ip1 V2 ip2 :
  grown dev bm L sb V ip V1 ip1 -> grown dev bm L sb V1 ip1 V2 ip2 -> grown dev bm L sb V ip V2 ip2.
Proof. intros H1 H2. eapply evolved_trans; [exact H1|exact H2|]. apply H1. Qed.

Section growing.
  Context (dev bm : Z) (L : gmap Z nat) (sb : superblock).

(** Marking and zeroing a block that is not linked yet. *)
Lemma grown_allocated V ip b :
  file_ok dev bm V L sb ip -> (forall blk, length (V blk) = Z.to_nat BSIZE) ->
  0 <= b < sb_size sb -> used sb V b = false -> grown dev bm L sb V ip (allocated sb V b) ip.
Proof.
  intros Hok Hlen Hb Hu.
  destruct (file_ok_allocated dev bm L sb V ip b Hok Hlen Hb Hu) as (Hok' & HVa & Hno & Hz & Hub).
  assert (Hind : indirect ip <> 0 -> allocated sb V b (indirect ip) = V (indirect ip))
    by (intros; by apply HVa, owns_indirect).
  constructor; try done; [by destruct ip|..].
  - intros o Ho. by apply byte_at_ext.
  - intros blk Hr Hu' Hne Hno'. split; [|by rewrite (owns_ext V) by done].
    unfold allocated. rewrite (fo_one _ _ _ _ _ _ Hok b Hb).
    rewrite fn_lookup_insert_ne by congruence. by rewrite fn_lookup_insert_ne.
  - intros b' Hr Hu'. destruct (fo_free _ _ _ _ _ _ Hok b Hb Hu) as (_ & Nbm & _). unfold used, allocated in *. rewrite (fo_one _ _ _ _ _ _ Hok b Hb), (fo_one _ _ _ _ _ _ Hok b' Hr) in *.
    rewrite fn_lookup_insert_ne, fn_lookup_insert by done.
    pose proof (Z.mod_pos_bound b BPB ltac:(done)). pose proof (Z.mod_pos_bound b' BPB ltac:(done)).
    rewrite bit_set_bit by done. by rewrite Hu', orb_true_r.
  - intros k _ _. by apply blk_addr_ext.
Qed.

(** Linking a marked zero block at block number [bn]. *)
Lemma grown_link V V' ip ip' bn b :
  file_ok dev bm V L sb ip -> ip' = set_i_addrs (i_addrs ip') ip ->
  length (i_addrs ip') = 13%nat -> indirect ip' = indirect ip ->
  0 <= bn < MAXFILE -> blk_addr V ip bn = 0 -> blk_addr V' ip' bn = b ->
  (forall k, 0 <= k < MAXFILE -> k <> bn -> blk_addr V' ip' k = blk_addr V ip k) ->
  (forall blk, ~ (blk = indirect ip /\ blk <> 0) -> V' blk = V blk) ->
  0 < b < sb_size sb -> ~ owns V ip b -> L !! b = None -> b <> bm -> b <> IBLOCK (i_inum ip) sb ->
  used sb V b = true -> V b = zero_block ->
  file_ok dev bm V' L sb ip' /\
  (forall o, 0 <= o < MAXFILE * BSIZE -> byte_at V' ip' o = byte_at V ip o) /\
  (forall a, owns V' ip' a -> a = b \/ owns V ip a) /\
  (forall c, 0 <= c < sb_size sb -> used sb V' c = used sb V c).
Proof.
  intros Hok E Hl' Eind Hbn Hz Hb Hk HV Hbr Hno Lb Nbm Nib Hub Hzero.
  assert (Hu : forall c, 0 <= c < sb_size sb -> used sb V' c = used sb V c).
  { intros c Hc. unfold used. rewrite (fo_one _ _ _ _ _ _ Hok c Hc). rewrite HV; [done|].
    intros [Ei Hn]. destruct (fo_own _ _ _ _ _ _ Hok bm) as (_ & _ & _ & N & _); [|done]. split; [done|by left]. }
  assert (Hown : forall a, owns V' ip' a -> a = b \/ owns V ip a).
  { intros a [Ha [->|(k & Hkr & Ek)]].
    - right. split; [done|]. left. by rewrite Eind.
    - destruct (decide (k = bn)) as [->|Hne]; [left; congruence|]. right. split; [done|]. right.
      exists k. split; [done|]. by rewrite <- Hk. }
  split_and!; [|..|done|done].
  - apply (file_ok_link dev bm L sb V V' ip ip' bn b); try done; by rewrite E.
  - intros o Ho. pose proof (blk_range o Ho) as Hr. unfold byte_at.
    destruct (decide (o / BSIZE = bn)) as [->|Hne].
    + rewrite Hb, Hz, (proj2 (Z.eqb_neq b 0)) by lia. simpl.
      rewrite HV; [by rewrite Hzero, zero_block_at|]. intros [-> _]. apply Hno. split; [lia|by left].
    + rewrite Hk by done. destruct (Z.eqb_spec (blk_addr V ip (o / BSIZE)) 0) as [|Hnz]; [done|].
      rewrite HV; [done|]. intros [Ei _]. revert Ei. by apply (fo_ind _ _ _ _ _ _ Hok).
Qed.

(** Linking the (zeroed) indirect block. *)
Lemma grown_indirect V ip b :
  let ip' := set_i_addrs (<[Z.to_nat NDIRECT := b]> (i_addrs ip)) ip in
  file_ok dev bm V L sb ip -> indirect ip = 0 ->
  0 < b < sb_size sb -> ~ owns V ip b -> L !! b = None -> b <> bm -> b <> IBLOCK (i_inum ip) sb ->
  used sb V b = true -> V b = zero_block ->
  file_ok dev bm V L sb ip' /\ indirect ip' = b /\
  (forall k, 0 <= k < MAXFILE -> blk_addr V ip' k = blk_addr V ip k) /\
  (forall a, owns V ip' a -> a = b \/ owns V ip a).
Proof.
  intros ip' Hok Hi0 Hbr Hno Lb Nbm Nib Hub Hzero. pose proof Hok as [Hd Hl Ho Hi Hn H1 Hf Hbm Hib Hm].
  assert (Hind : indirect ip' = b).
  { unfold indirect, ip'. simpl. apply list_lookup_total_insert_eq. rewrite Hl. change (Z.to_nat NDIRECT) with 12%nat. lia. }
  assert (Hk : forall k, 0 <= k < MAXFILE -> blk_addr V ip' k = blk_addr V ip k).
  { intros k Hkr. unfold blk_addr. destruct (Z.ltb_spec k NDIRECT) as [Hlt|Hge].
    - unfold ip'. simpl. rewrite list_lookup_total_insert_ne; [done|]. unfold NDIRECT in *. lia.
    - rewrite Hind, Hi0, (proj2 (Z.eqb_neq b 0)) by lia. change (0 =? 0) with true. cbv iota.
      rewrite Hzero. apply ind_get_zero. unfold MAXFILE in *. lia. }
  assert (Hown : forall a, owns V ip' a -> a = b \/ owns V ip a).
  { intros a [Ha [->|(k & Hkr & Ek)]]; [left; by rewrite Hind|]. right. split; [done|]. right.
    exists k. split; [done|]. by rewrite <- Hk. }
  split_and!; try done. constructor; try done.
  - unfold ip'. simpl. by rewrite length_insert.
  - intros a [->|Ha]%Hown; [split_and!; try done; lia|by apply Ho].
  - intros i j Hir Hjr. rewrite !Hk by done. by apply Hi.
  - intros i Hir. rewrite Hk, Hind by done. intros Hnz E. apply Hno. rewrite <- E. by apply owns_addr.
Qed.
End growing.

(** ** bmap *)

Section bmap.
  Context (dev start : Z) (p : nat) (pp : proc) (bm : Z).

Lemma balloc_file V L L0 blks s ip :
  file_ok dev bm V L (k_sb s) ip -> op dev start V L0 blks p pp s -> L0 !! bm = None ->
  (forall b, 0 <= b < sb_size (k_sb s) -> used (k_sb s) V b = false -> L0 !! b = None) ->
  (size (dom L0) + length blks + 1 < NBUF)%nat -> (length blks + 1 < Z.to_nat LOGBLOCKS)%nat ->
  returns (balloc dev s) (fun b s' => op_frame s s' /\
    ((b = 0 /\ (forall c, 0 <= c < sb_size (k_sb s) -> used (k_sb s) V c = true) /\ op dev start V L0 blks p pp s') \/
     (0 < b < sb_size (k_sb s) /\ used (k_sb s) V b = false /\
      op dev start (allocated (k_sb s) V b) L0 (absorb b (absorb bm blks)) p pp s'))).
Proof.
  intros Hok Hop Hbm Hfree Hroom Hlog. eapply returns_mono.
  { apply (balloc_spec dev start p pp V L0 blks s). constructor; try done.
    intros b Hb. by rewrite (fo_one _ _ _ _ _ _ Hok b Hb). }
  cbn beta. intros b s' (F & [(Hf & Hop')|(-> & Hall & Hop')]); (split; [done|]); [right|by left].
  destruct Hf as (Hb & Hu & _). rewrite (fo_one _ _ _ _ _ _ Hok b Hb) in Hop'.
  destruct (fo_free _ _ _ _ _ _ Hok b Hb Hu) as (_ & _ & _ & Hb0). split_and!; [lia|lia|done|done].
Qed.

(** [logs blks blks' bs]: besides [blks], only blocks of [bs] were logged. *)
Definition logs (blks blks' bs : list Z) : Prop := forall b, b ∈ blks' -> b <> 0 -> b ∈ blks \/ b ∈ bs.

Lemma logs_refl blks bs : logs blks blks bs.
Proof. intros b Hb _. by left. Qed.

Lemma logs_absorb blks blks' bs b : logs blks blks' bs -> b ∈ bs -> logs blks (absorb b blks') bs.
Proof. intros H Hb x. rewrite elem_of_absorb. intros [->|Hx] Hn; [by right|by apply H]. Qed.

Lemma logs_length V L blks blks' bs s :
  op dev start V L blks' p pp s -> logs blks blks' bs -> (length blks' <= S (length blks + length bs))%nat.
Proof.
  intros Hop H. rewrite <- length_app. change (S (length (blks ++ bs))) with (length (0 :: blks ++ bs)).
  apply submseteq_length, NoDup_submseteq; [apply Hop|]. intros b Hb.
  destruct (decide (b = 0)) as [->|Hn]; [by left|]. right. apply elem_of_app. by apply H.
Qed.

(** The outcome of bmap for block [bn] of the inode [ip] in entry [i]. *)
Definition bmapped (V : Z -> list Z) (L : gmap Z nat) (blks : list Z) (s : kstate) (i : nat) (ip : inode)
    (bn a : Z) (s' : kstate) : Prop :=
  exists V' blks' ip', op dev start V' L blks' p pp s' /\ in_frame s s' /\
    k_itable s' = <[i := ip']> (k_itable s) /\ grown dev bm L (k_sb s) V ip V' ip' /\
    logs blks blks' [bm; indirect ip'; blk_addr V' ip' bn] /\
    ((a = 0 /\ forall b, 0 <= b < sb_size (k_sb s) -> used (k_sb s) V' b = true) \/
     (a <> 0 /\ blk_addr V' ip' bn = a)).

Lemma bmapped_same V L blks s s' i ip bn :
  op dev start V L blks p pp s' -> op_frame s s' -> k_itable s !! i = Some ip ->
  file_ok dev bm V L (k_sb s) ip ->
  blk_addr V ip bn <> 0 -> bmapped V L blks s i ip bn (blk_addr V ip bn) s'.
Proof.
  intros Hop F Hip Hok Hne. exists V, blks, ip. split_and!; [done|by apply op_in_frame| |by apply grown_refl|apply logs_refl|by right].
  rewrite (of_itable _ _ F). by rewrite list_insert_id.
Qed.

Lemma bmapped_full V L blks s s' i ip bn :
  op dev start V L blks p pp s' -> op_frame s s' -> k_itable s !! i = Some ip ->
  file_ok dev bm V L (k_sb s) ip -> (forall b, 0 <= b < sb_size (k_sb s) -> used (k_sb s) V b = true) ->
  bmapped V L blks s i ip bn 0 s'.
Proof.
  intros Hop F Hip Hok Hall. exists V, blks, ip.
  split_and!; [done|by apply op_in_frame| |by apply grown_refl|apply logs_refl|by left].
  rewrite (of_itable _ _ F). by rewrite list_insert_id.
Qed.

Lemma absorb2_length b blks : (length (absorb b (absorb bm blks)) <= length blks + 2)%nat.
Proof. pose proof (length_absorb b (absorb bm blks)). pose proof (length_absorb bm blks). lia. Qed.

(** What is known of a block balloc just returned. *)
Lemma fresh_block V L sb ip b :
  file_ok dev bm V L sb ip -> (forall blk, length (V blk) = Z.to_nat BSIZE) ->
  0 < b < sb_size sb -> used sb V b = false ->
  L !! b = None /\ b <> bm /\ b <> IBLOCK (i_inum ip) sb /\ 0 < b < 2 ^ 32 /\
  let V' := allocated sb V b in
  grown dev bm L sb V ip V' ip /\ file_ok dev bm V' L sb ip /\ (forall a, owns V ip a -> V' a = V a) /\
  ~ owns V' ip b /\ V' b = zero_block /\ used sb V' b = true /\ (forall k, blk_addr V' ip k = blk_addr V ip k).
Proof.
  intros Hok Hlen Hb Hu. destruct (fo_free _ _ _ _ _ _ Hok b ltac:(lia) Hu) as (Lb & Nbm & Nib & Hb0).
  destruct (file_ok_allocated dev bm L sb V ip b Hok Hlen ltac:(lia) Hu) as (Hok' & HVa & Hno & Hz & Hub).
  assert (Hi : indirect ip <> 0 -> allocated sb V b (indirect ip) = V (indirect ip))
    by (intros; by apply HVa, owns_indirect).
  do 3 (split; [done|]). split; [done|]. cbv zeta. split; [apply grown_allocated; [done|done|lia|done]|].
  split_and!; try done.
  - by rewrite (owns_ext V) by done.
  - intros k. by apply blk_addr_ext.
Qed.

(** Linking the block balloc just returned at block number [bn]. *)
Lemma grown_linked V L sb ip V' ip' bn b :
  file_ok dev bm V L sb ip -> (forall blk, length (V blk) = Z.to_nat BSIZE) ->
  0 < b < sb_size sb -> used sb V b = false ->
  ip' = set_i_addrs (i_addrs ip') ip -> length (i_addrs ip') = 13%nat -> indirect ip' = indirect ip ->
  0 <= bn < MAXFILE -> blk_addr V ip bn = 0 -> blk_addr V' ip' bn = b ->
  (forall k, 0 <= k < MAXFILE -> k <> bn -> blk_addr V' ip' k = blk_addr V ip k) ->
  (forall blk, ~ (blk = indirect ip /\ blk <> 0) -> V' blk = allocated sb V b blk) ->
  grown dev bm L sb V ip V' ip'.
Proof.
  intros Hok Hlen Hb Hu E Hl' Eind Hbn Hz Hbv Hk HV.
  destruct (fresh_block V L sb ip b Hok Hlen Hb Hu) as (Lb & Nbm & Nib & Hb0 & Hgr & Hok1 & HVa & Hno & Hzero & Hub & Hadr).
  set (V1 := allocated sb V b) in *.
  destruct (grown_link dev bm L sb V1 V' ip ip' bn b) as (Hok' & Hby & Hown & Hu'); try done.
  { by rewrite Hadr. }
  { intros k Hkr Hne. by rewrite Hadr, Hk. }
  constructor; try done.
  - intros o Ho. rewrite Hby by done. by apply (gr_bytes _ _ _ _ _ _ _ _ _ Hgr).
  - intros blk Hr Hub' Hne Hnown. destruct (gr_other _ _ _ _ _ _ _ _ _ Hgr blk Hr Hub' Hne Hnown) as [E1 N1].
    split.
    + rewrite HV; [done|]. intros [Ei H0]. apply Hnown. split; [done|by left].
    + intros [->|Ha]%Hown; [congruence|done].
  - intros c Hc Huc. rewrite Hu' by done. by apply (gr_used _ _ _ _ _ _ _ _ _ Hgr).
  - intros k Hkr Hne. destruct (decide (k = bn)) as [->|Hkn]; [done|by apply Hk].
Qed.

Lemma size_dom_insert (L : gmap Z nat) k x : (size (dom (<[k := x]> L)) <= S (size (dom L)))%nat.
Proof.
  rewrite dom_insert, size_union_alt, size_singleton.
  pose proof (subseteq_size (dom L ∖ {[k]}) (dom L)) as Hs. specialize (Hs ltac:(set_solver)). lia.
Qed.

(** The address of an entry of the indirect block. *)
Lemma blk_addr_ind V ip bn :
  NDIRECT <= bn -> indirect ip <> 0 -> blk_addr V ip bn = ind_get (V (indirect ip)) (bn - NDIRECT).
Proof.
  intros Hbn Hi. unfold blk_addr. rewrite (proj2 (Z.ltb_ge _ _)) by lia.
  by rewrite (proj2 (Z.eqb_neq _ _)).
Qed.

Lemma blk_addr_dir V ip bn : bn < NDIRECT -> blk_addr V ip bn = i_addrs ip !!! Z.to_nat bn.
Proof. intros Hbn. unfold blk_addr. by rewrite (proj2 (Z.ltb_lt _ _)). Qed.

(** Linking a fresh block in the indirect block. *)
Lemma grown_ind_set V L sb ip bn b :
  file_ok dev bm V L sb ip -> (forall blk, length (V blk) = Z.to_nat BSIZE) ->
  0 < b < sb_size sb -> used sb V b = false ->
  NDIRECT <= bn < MAXFILE -> indirect ip <> 0 -> blk_addr V ip bn = 0 ->
  let V' := <[indirect ip := ind_set (V (indirect ip)) (bn - NDIRECT) b]> (allocated sb V b) in
  grown dev bm L sb V ip V' ip /\ blk_addr V' ip bn = b.
Proof.
  intros Hok Hlen Hb Hu Hbn Hi Hz V'. set (ind := indirect ip) in *.
  destruct (fo_free _ _ _ _ _ _ Hok b ltac:(lia) Hu) as (_ & _ & _ & Hb0).
  assert (HV' : V' ind = ind_set (V ind) (bn - NDIRECT) b) by apply fn_lookup_insert.
  assert (Hj : 0 <= bn - NDIRECT < NINDIRECT) by (unfold MAXFILE in *; lia).
  assert (Hbv : blk_addr V' ip bn = b).
  { rewrite blk_addr_ind by lia. fold ind. rewrite HV'. by apply ind_get_set_same; [|..|lia]. }
  split; [|done]. apply (grown_linked V L sb ip V' ip bn b); try done; [by destruct ip|apply Hok|unfold NDIRECT in *; lia|..].
  - intros k Hk Hne. destruct (Z.lt_ge_cases k NDIRECT) as [Hlt|Hge]; [by rewrite !blk_addr_dir|].
    rewrite !blk_addr_ind by done. fold ind. rewrite HV'. apply ind_get_set_ne; [done|done|lia|lia].
  - intros blk Hn. unfold V'. rewrite fn_lookup_insert_ne; [done|]. intros <-. by apply Hn.
Qed.

(** Linking a fresh block as a direct block. *)
Lemma grown_direct V L sb ip bn b :
  file_ok dev bm V L sb ip -> (forall blk, length (V blk) = Z.to_nat BSIZE) ->
  0 < b < sb_size sb -> used sb V b = false ->
  0 <= bn < NDIRECT -> blk_addr V ip bn = 0 ->
  let ip' := set_i_addrs (<[Z.to_nat bn := b]> (i_addrs ip)) ip in
  grown dev bm L sb V ip (allocated sb V b) ip' /\ blk_addr (allocated sb V b) ip' bn = b.
Proof.
  intros Hok Hlen Hb Hu Hbn Hz ip'. pose proof (fo_len _ _ _ _ _ _ Hok) as Hl.
  destruct (fresh_block V L sb ip b Hok Hlen Hb Hu) as (_ & _ & _ & _ & _ & _ & HVa & _ & _ & _ & Hadr).
  assert (Hind : indirect ip' = indirect ip).
  { unfold indirect, ip'. simpl. apply list_lookup_total_insert_ne. unfold NDIRECT in *. lia. }
  assert (Hbv : blk_addr (allocated sb V b) ip' bn = b).
  { rewrite blk_addr_dir by lia. unfold ip'. simpl. apply list_lookup_total_insert_eq. unfold NDIRECT in *. lia. }
  split; [|done]. apply (grown_linked V L sb ip _ ip' bn b); try done.
  - unfold ip'. simpl. by rewrite length_insert.
  - change MAXFILE with (NDIRECT + 256). lia.
  - intros k Hk Hne. rewrite <- Hadr. unfold blk_addr. rewrite Hind. destruct (k <? NDIRECT); [|done].
    unfold ip'. simpl. apply list_lookup_total_insert_ne. lia.
Qed.

(** The indirect part of bmap, the inode being unchanged. *)
Lemma bmap_indirect_spec V L blks s i ip bn :
  op dev start V L blks p pp s -> k_itable s !! i = Some ip -> file_ok dev bm V L (k_sb s) ip ->
  NDIRECT <= bn < MAXFILE -> indirect ip <> 0 ->
  (size (dom L) + length blks + 3 < NBUF)%nat -> (length blks + 3 < Z.to_nat LOGBLOCKS)%nat ->
  returns (bmap_indirect dev (indirect ip) (bn - NDIRECT) s) (bmapped V L blks s i ip bn).
Proof.
  intros Hop Hip Hok Hbn Hi Hroom Hlog. set (ind := indirect ip) in *.
  destruct (fo_own _ _ _ _ _ _ Hok ind (owns_indirect _ _ Hi)) as (Hir & Hui & Li & Nbm & _).
  assert (Hlen : forall blk, length (V blk) = Z.to_nat BSIZE) by (intros; by eapply op_view_length).
  pose proof (blk_addr_ind V ip bn ltac:(lia) Hi) as Hadr. fold ind in Hadr. unfold bmap_indirect.
  mspec op_bread; [exact Hop|exact Li|lia|]. cbn beta. intros bp s1 (Hop1 & F1 & Hs1).
  assert (HL1 : <[ind := bp]> L !! ind = Some bp) by apply lookup_insert_eq.
  pose proof (size_dom_insert L ind bp) as Hsz. set (L1 := <[ind := bp]> L) in *.
  mred. rewrite (op_bdata _ _ _ _ _ _ _ _ _ _ Hop1 HL1). mred. rewrite <- Hadr.
  destruct (Z.eqb_spec (blk_addr V ip bn) 0) as [Hz|Hnz].
  2:{ mspec op_brelse; [exact Hop1|exact HL1|exact Hs1|]. cbn beta. intros _ s2 [Hop2 F2]. mred.
      unfold L1 in Hop2. rewrite delete_insert_id in Hop2 by done. apply bmapped_same; try done.
      by eapply op_frame_trans. }
  apply returns_obind. rewrite <- (of_sb _ _ F1) in Hok.
  mspec (balloc_file V L L1 blks s1 ip); [exact Hok|exact Hop1|..|lia|lia|].
  { unfold L1. rewrite lookup_insert_ne by done. exact (fo_bm _ _ _ _ _ _ Hok). }
  { intros b Hb Hu. unfold L1. rewrite lookup_insert_ne.
    - by apply (fo_free _ _ _ _ _ _ Hok).
    - intros <-. rewrite (of_sb _ _ F1) in Hu. congruence. }
  cbn beta. rewrite (of_sb _ _ F1) in *. intros b s2 (F2 & [(-> & Hall & Hop2)|(Hb & Hu & Hop2)]).
  - mred. change (0 =? 0) with true. mred.
    mspec op_brelse; [exact Hop2|exact HL1| |].
    { unfold safe_at. by rewrite (of_disk _ _ F2). }
    cbn beta. intros _ s3 [Hop3 F3]. mred. unfold L1 in Hop3. rewrite delete_insert_id in Hop3 by done.
    apply bmapped_full; try done. eapply op_frame_trans; [exact F1|]. by eapply op_frame_trans.
  - mred. rewrite (proj2 (Z.eqb_neq b 0)) by lia.
    destruct (grown_ind_set V L (k_sb s) ip bn b) as [Hgr Hbv]; try done. fold ind in Hgr, Hbv.
    assert (HVi : allocated (k_sb s) V b ind = V ind).
    { destruct (fresh_block V L (k_sb s) ip b Hok Hlen Hb Hu) as (_ & _ & _ & _ & _ & _ & HVa & _).
      by apply HVa, owns_indirect. }
    mred. rewrite (op_bdata _ _ _ _ _ _ _ _ _ _ Hop2 HL1). mred. rewrite HVi.
    pose proof (absorb2_length b blks) as Hl2. apply returns_obind.
    mspec op_set_bdata; [exact Hop2|exact HL1| |].
    { apply length_ind_set; [done|unfold MAXFILE in *; lia]. }
    cbn beta. intros _ s3 [Hop3 F3]. eapply returns_mono; [eapply op_log_write; [exact Hop3|exact HL1|lia]|].
    cbn beta. intros _ s4 [Hop4 F4]. mspec op_brelse; [exact Hop4|exact HL1| |].
    { left. rewrite elem_of_absorb. by left. }
    cbn beta. intros _ s5 [Hop5 F5]. mred. unfold L1 in Hop5. rewrite delete_insert_id in Hop5 by done.
    eexists _, _, ip. split_and!; [exact Hop5| | |exact Hgr| |right; split; [lia|done]].
    + apply op_in_frame. eapply op_frame_trans; [exact F1|]. eapply op_frame_trans; [exact F2|].
      eapply op_frame_trans; [exact F3|]. by eapply op_frame_trans.
    + assert (F15 : op_frame s s5) by eauto 6 using op_frame_trans.
      rewrite (of_itable _ _ F15). by rewrite list_insert_id.
    + rewrite Hbv. fold ind. repeat (apply logs_absorb; [|set_solver]). apply logs_refl.
Qed.

Lemma addrs_lookup (ip : inode) n :
  length (i_addrs ip) = 13%nat -> (n < 13)%nat -> i_addrs ip !! n = Some (i_addrs ip !!! n).
Proof. intros Hl Hn. apply list_lookup_lookup_total_lt. lia. Qed.

Lemma bmap_direct_spec V L blks s i ip bn :
  op dev start V L blks p pp s -> k_itable s !! i = Some ip -> file_ok dev bm V L (k_sb s) ip ->
  0 <= bn < NDIRECT ->
  (size (dom L) + length blks + 3 < NBUF)%nat -> (length blks + 3 < Z.to_nat LOGBLOCKS)%nat ->
  returns (bmap i bn s) (bmapped V L blks s i ip bn).
Proof.
  intros Hop Hip Hok Hbn Hroom Hlog. pose proof (fo_len _ _ _ _ _ _ Hok) as Hl.
  assert (Hlt := lookup_lt_Some _ _ _ Hip).
  assert (Hlen : forall blk, length (V blk) = Z.to_nat BSIZE) by (intros; by eapply op_view_length).
  unfold bmap. mred. rewrite (get_inode_eq _ _ _ Hip). mred. rewrite (proj2 (Z.ltb_lt _ _)) by lia.
  rewrite addrs_lookup by (unfold NDIRECT in *; lia). mred. rewrite <- (blk_addr_dir V) by lia.
  destruct (Z.eqb_spec (blk_addr V ip bn) 0) as [Hz|Hnz]; [|apply bmapped_same; eauto with op].
  rewrite (fo_dev _ _ _ _ _ _ Hok).
  mspec (balloc_file V L L blks s ip); [done|done|exact (fo_bm _ _ _ _ _ _ Hok)|..|lia|lia|].
  { intros b Hb Hu. by apply (fo_free _ _ _ _ _ _ Hok). }
  cbn beta. intros b s1 (F1 & [(-> & Hall & Hop1)|(Hb & Hu & Hop1)]).
  { change (0 =? 0) with true. mred. by apply bmapped_full. }
  rewrite (proj2 (Z.eqb_neq b 0)) by lia. destruct (grown_direct V L (k_sb s) ip bn b) as [Hgr Hbv]; try done.
  unfold set_addr. mred. rewrite (upd_inode_eq s1 i ip) by (by rewrite (of_itable _ _ F1)). mred.
  eexists _, _, _. split_and!; [by apply op_itable| | |exact Hgr| |right; split; [lia|done]].
  - apply (in_frame_trans _ s1); [by apply op_in_frame|apply in_frame_itable].
  - simpl. by rewrite (of_itable _ _ F1).
  - rewrite Hbv. repeat (apply logs_absorb; [|set_solver]). apply logs_refl.
Qed.

(** The indirect block just allocated and linked. *)
Lemma grown_ind_block V L sb ip b :
  let ip' := set_i_addrs (<[Z.to_nat NDIRECT := b]> (i_addrs ip)) ip in
  file_ok dev bm V L sb ip -> (forall blk, length (V blk) = Z.to_nat BSIZE) ->
  0 < b < sb_size sb -> used sb V b = false -> indirect ip = 0 ->
  grown dev bm L sb V ip (allocated sb V b) ip' /\ indirect ip' = b.
Proof.
  intros ip' Hok Hlen Hb Hu Hi0.
  destruct (fresh_block V L sb ip b Hok Hlen Hb Hu) as (Lb & Nbm & Nib & Hb0 & Hgr & Hok1 & HVa & Hno & Hzero & Hub & Hadr).
  destruct (grown_indirect dev bm L sb (allocated sb V b) ip b) as (Hok' & Hind & Hk & Hown); try done.
  split; [|done]. constructor; try done.
  - intros o Ho. rewrite <- (gr_bytes _ _ _ _ _ _ _ _ _ Hgr o Ho). unfold byte_at.
    unfold ip'. by rewrite Hk by (by apply blk_range).
  - intros blk Hr Hu' Hne Hno'. destruct (gr_other _ _ _ _ _ _ _ _ _ Hgr blk Hr Hu' Hne Hno') as [E1 N1].
    split; [done|]. intros [->|Ha]%Hown; [congruence|done].
  - apply (gr_used _ _ _ _ _ _ _ _ _ Hgr).
  - intros k Hkr _. unfold ip'. by rewrite Hk.
Qed.


(** What bmap does after a first step that grew the file. *)
Lemma bmapped_after V L blks s s1 V1 blks1 i ip ip1 bn a s' :
  in_frame s s1 -> k_itable s1 = <[i := ip1]> (k_itable s) -> grown dev bm L (k_sb s) V ip V1 ip1 ->
  logs blks blks1 [bm; indirect ip1] -> indirect ip1 <> 0 ->
  bmapped V1 L blks1 s1 i ip1 bn a s' -> bmapped V L blks s i ip bn a s'.
Proof.
  intros F Ht Hgr Hlg Hi (V2 & blks2 & ip2 & Hop & F2 & Ht2 & Hgr2 & Hlg2 & Hres).
  rewrite (if_sb _ _ F) in *. exists V2, blks2, ip2.
  split_and!; [done|by eapply in_frame_trans| |by eapply grown_trans| |done].
  - by rewrite Ht2, Ht, list_insert_insert_eq.
  - rewrite <- (gr_ind _ _ _ _ _ _ _ _ _ Hgr2 Hi) in Hlg. intros b Hb Hn.
    destruct (Hlg2 b Hb Hn) as [Hb1|Hb1]; [|set_solver].
    destruct (Hlg b Hb1 Hn); set_solver.
Qed.

Lemma bmap_spec V L blks s i ip bn :
  op dev start V L blks p pp s -> k_itable s !! i = Some ip -> file_ok dev bm V L (k_sb s) ip ->
  0 <= bn < MAXFILE ->
  (size (dom L) + length blks + 5 < NBUF)%nat -> (length blks + 5 < Z.to_nat LOGBLOCKS)%nat ->
  returns (bmap i bn s) (bmapped V L blks s i ip bn).
Proof.
  intros Hop Hip Hok Hbn Hroom Hlog. pose proof (fo_len _ _ _ _ _ _ Hok) as Hl.
  assert (Hlt := lookup_lt_Some _ _ _ Hip).
  destruct (Z.lt_ge_cases bn NDIRECT) as [Hd|Hd]; [apply bmap_direct_spec; (done || lia)|].
  assert (Hlen : forall blk, length (V blk) = Z.to_nat BSIZE) by (intros; by eapply op_view_length).
  unfold bmap. mred. rewrite (get_inode_eq _ _ _ Hip). mred. rewrite (proj2 (Z.ltb_ge _ _)) by lia.
  rewrite (proj2 (Z.ltb_lt _ _)) by (unfold MAXFILE in *; lia).
  rewrite addrs_lookup by (done || change (Z.to_nat NDIRECT) with 12%nat; lia). fold (indirect ip). mred.
  rewrite (fo_dev _ _ _ _ _ _ Hok). destruct (Z.eqb_spec (indirect ip) 0) as [Hz|Hnz].
  2:{ mred. rewrite (proj2 (Z.eqb_neq _ _)) by done. apply bmap_indirect_spec; (done || lia). }
  apply returns_obind. mspec (balloc_file V L L blks s ip); [done|done|exact (fo_bm _ _ _ _ _ _ Hok)|..|lia|lia|].
  { intros b Hb Hu. by apply (fo_free _ _ _ _ _ _ Hok). }
  cbn beta. intros b s1 (F1 & [(-> & Hall & Hop1)|(Hb & Hu & Hop1)]).
  { change (0 =? 0) with true. mred. by apply bmapped_full. }
  rewrite (proj2 (Z.eqb_neq b 0)) by lia. unfold set_addr. mred.
  rewrite (upd_inode_eq s1 i ip) by (by rewrite (of_itable _ _ F1)). mred.
  cbn [returns]. rewrite (proj2 (Z.eqb_neq b 0)) by lia. destruct (grown_ind_block V L (k_sb s) ip b) as [Hgr Hind]; try done.
  set (ip1 := set_i_addrs _ ip) in *. set (s2 := set_k_itable _ s1).
  assert (F2 : in_frame s s2) by (apply (in_frame_trans _ s1); [by apply op_in_frame|apply in_frame_itable]).
  assert (Ht2 : k_itable s2 = <[i := ip1]> (k_itable s)) by (simpl; by rewrite (of_itable _ _ F1)).
  pose proof (absorb2_length b blks). eapply returns_mono.
  { pose proof (bmap_indirect_spec (allocated (k_sb s) V b) L (absorb b (absorb bm blks)) s2 i ip1 bn) as H1.
    rewrite Hind, (if_sb _ _ F2) in H1. apply H1; [by apply op_itable| |apply Hgr|by split; [|apply Hbn]|lia|lia|lia].
    by rewrite Ht2, list_lookup_insert_eq. }
  intros a s3 Hres. eapply (bmapped_after _ _ _ s s2); try done; [|lia].
  rewrite Hind. repeat (apply logs_absorb; [|set_solver]). apply logs_refl.
Qed.
End bmap.
