(* ===== verification/ReadWrite.v ===== *)
(** * readi and writei

    readi delivers the bytes of a file and needs no transaction; writei, in a
    transaction, replaces a range of the bytes, extends the size and changes
    no other block of the disk.  Both are proved against the interface of the
    user copies: what is assumed of either_copyout is that the bytes it is
    given arrive, of either_copyin that it yields the bytes of the source. *)

From S2P Require Import Prelude State Spinlock CString Sysargs Proc ReadyQueue Sleeplock Sleeping Bio BufferCache Log Wal Transaction Usercopy Fs Bitmap Inodes Truncate Content.

(** ** The copies *)

Section either_frames.
  Context `{UC : UserCopy}.

Lemma frames_either_copyout ud dst bs : frames (either_copyout ud dst bs).
Proof.
  unfold either_copyout, kwrite. destruct ud; [|solve_frames].
  apply frames_bind; [apply frames_myproc|intros p]. apply frames_bind; [apply frames_get_proc|intros pp].
  intros s r s'. apply ucopyout_frame.
Qed.

Lemma frames_either_copyin us src n : frames (either_copyin us src n).
Proof.
  unfold either_copyin, kread. destruct us; [|solve_frames].
  apply frames_bind; [apply frames_myproc|intros p]. apply frames_bind; [apply frames_get_proc|intros pp].
  intros s r s'. apply ucopyin_frame.
Qed.
End either_frames.

(** Everything but the cache, the process table, the queue and user memory is
    as in [s]. *)
Definition read_frame (s s' : kstate) : Prop :=
  exists m f r, bio_frame (set_k_mem m (set_k_freelist f (set_k_refcount r s))) s'.

Lemma bio_read_frame s s' : bio_frame s s' -> read_frame s s'.
Proof. intros F. exists (k_mem s), (k_freelist s), (k_refcount s). by destruct s. Qed.

Lemma user_read_frame s s' : user_same s s' -> read_frame s s'.
Proof. intros (m & f & r & ->). exists m, f, r. apply bio_frame_refl. Qed.

Lemma read_frame_trans s1 s2 s3 : read_frame s1 s2 -> read_frame s2 s3 -> read_frame s1 s3.
Proof.
  intros (m & f & r & F) (m' & f' & r' & F'). exists m', f', r'. eapply bio_frame_trans; [|exact F'].
  unfold bio_frame in *. rewrite F. by destruct s1.
Qed.

Lemma read_frame_itable s s' : read_frame s s' -> k_itable s' = k_itable s.
Proof. intros (m & f & r & F). by rewrite F. Qed.
Lemma read_frame_disk s s' : read_frame s s' -> k_disk s' = k_disk s.
Proof. intros (m & f & r & F). by rewrite F. Qed.

Lemma bio_frame_same_user s s' : bio_frame s s' -> same_user s s'.
Proof. intros F. unfold same_user. by rewrite F. Qed.

Lemma fs_user dev V L P p pp s s' : user_same s s' -> fs dev V L P p pp s -> fs dev V L P p pp s'.
Proof.
  intros (m & f & r & ->) [Hbc Hrun]. constructor; [by apply (bc_ext _ _ _ _ _ s)|by apply (running_ext _ _ _ s)].
Qed.

Lemma u64_add_l a b : u64 (u64 a + b) = u64 (a + b).
Proof. unfold u64. apply Zplus_mod_idemp_l. Qed.

(** ** Bytes of a range *)

Lemma file_bytes_app V ip off m n :
  0 <= m -> 0 <= n -> file_bytes V ip off (m + n) = file_bytes V ip off m ++ file_bytes V ip (off + m) n.
Proof.
  intros Hm Hn. unfold file_bytes. rewrite (zrange_app off (off + m)) by lia. rewrite fmap_app.
  by replace (off + (m + n)) with (off + m + n) by lia.
Qed.

(** Offsets in the same block. *)
Lemma same_chunk o off m :
  off <= o < off + m -> off mod BSIZE + m <= BSIZE ->
  o / BSIZE = off / BSIZE /\ o mod BSIZE = off mod BSIZE + (o - off).
Proof.
  intros Ho Hm. pose proof (Z.div_mod off BSIZE ltac:(done)). pose proof (Z.mod_pos_bound off BSIZE ltac:(done)).
  assert (E : o = BSIZE * (off / BSIZE) + (off mod BSIZE + (o - off))) by lia.
  split; [symmetry; eapply Z.div_unique_pos; [|exact E]; lia|symmetry; eapply Z.mod_unique_pos; [|exact E]; lia].
Qed.

(** What lies in one block. *)
Lemma file_bytes_chunk V ip off m :
  let a := blk_addr V ip (off / BSIZE) in
  0 <= off -> 0 <= m -> off mod BSIZE + m <= BSIZE -> a <> 0 -> length (V a) = Z.to_nat BSIZE ->
  file_bytes V ip off m = slice (V a) (Z.to_nat (off mod BSIZE)) (Z.to_nat m).
Proof.
  intros a Hoff Hm Hfit Ha Hlen. pose proof (Z.mod_pos_bound off BSIZE ltac:(done)).
  apply list_eq_same_length with (Z.to_nat m); [..|].
  - unfold slice. rewrite length_take, length_drop. lia.
  - unfold file_bytes. rewrite length_fmap, length_zrange. lia.
  - intros j x y Hj. unfold file_bytes, slice. rewrite list_lookup_fmap, zrange_lookup by lia. simpl. intros [= <-].
    rewrite lookup_take_lt, lookup_drop by lia. unfold byte_at.
    destruct (same_chunk (off + Z.of_nat j) off m) as [-> ->]; [lia|done|].
    fold a. rewrite (proj2 (Z.eqb_neq _ _) Ha). intros Hy. apply list_lookup_total_correct. rewrite <- Hy. f_equal. lia.
Qed.

(** ** readi *)

Lemma fs_safe dev V L P p pp s blk :
  fs dev V L P p pp s -> L !! blk = None -> blk ∈ P \/ V blk = disk_read (k_disk s) blk.
Proof.
  intros [Hbc _] HL. destruct (decide (blk ∈ P)) as [Hp|Hp]; [by left|right].
  by apply (bc_clean _ _ _ _ _ _ Hbc); [apply not_elem_of_dom|].
Qed.

Section read.
  Context `{UC : UserCopy} (dev : Z) (V : Z -> list Z) (L : gmap Z nat) (P : gset Z) (p : nat) (pp : proc).

(** A file with every block of its first [n] bytes present, none locked. *)
Record file_readable (ip : inode) (n : Z) : Prop := {
  ra_dev : i_dev ip = dev;
  ra_len : length (i_addrs ip) = 13%nat;
  ra_unlocked a : owns V ip a -> L !! a = None;
  ra_present o : 0 <= o < n -> blk_addr V ip (o / BSIZE) <> 0;
  ra_max : n <= MAXFILE * BSIZE;
}.

(** bmap of a block that is there. *)
Lemma bmap_present s i ip bn :
  fs dev V L P p pp s -> k_itable s !! i = Some ip -> i_dev ip = dev -> length (i_addrs ip) = 13%nat ->
  (forall a, owns V ip a -> L !! a = None) -> (size (dom L ∪ P) < NBUF)%nat ->
  0 <= bn < MAXFILE -> blk_addr V ip bn <> 0 ->
  returns (bmap i bn s) (fun a s' => a = blk_addr V ip bn /\ fs dev V L P p pp s' /\ bio_frame s s').
Proof.
  intros Hfs Hip Hdev Hlen HL Hroom Hbn Ha. unfold bmap. mred. rewrite (get_inode_eq _ _ _ Hip). mred.
  destruct (Z.ltb_spec bn NDIRECT) as [Hd|Hd].
  { rewrite addrs_lookup by (unfold NDIRECT in *; lia). mred. rewrite (blk_addr_dir V) in * by done.
    rewrite (proj2 (Z.eqb_neq _ _) Ha). split_and!; [done|done|apply bio_frame_refl]. }
  rewrite (proj2 (Z.ltb_lt _ _)) by (unfold MAXFILE in *; lia).
  rewrite addrs_lookup by (done || change (Z.to_nat NDIRECT) with 12%nat; lia). fold (indirect ip). mred.
  assert (Hi : indirect ip <> 0).
  { intros E. apply Ha. unfold blk_addr. by rewrite (proj2 (Z.ltb_ge _ _)), E. }
  rewrite (proj2 (Z.eqb_neq _ _) Hi). mred. rewrite (proj2 (Z.eqb_neq _ _) Hi), Hdev.
  pose proof (HL _ (owns_indirect V ip Hi)) as Li. unfold bmap_indirect.
  mspec bread_spec; [exact Hfs|exact Li|by right|]. cbn beta. intros bp s1 [Hfs1 F1].
  mred. rewrite (bdata_eq _ _ _ _ _ _ _ _ _ Hfs1 (lookup_insert_eq _ _ _)). mred.
  rewrite (blk_addr_ind V) in * by done. rewrite (proj2 (Z.eqb_neq _ _) Ha). mred.
  mspec brelse_spec; [exact Hfs1|apply lookup_insert_eq| |].
  { destruct (fs_safe _ _ _ _ _ _ _ _ Hfs Li) as [?|E]; [by left|right]. rewrite E. by rewrite F1. }
  cbn beta. intros _ s2 [Hfs2 F2]. mred. rewrite delete_insert_id in Hfs2 by done.
  split_and!; [done|done|by eapply bio_frame_trans].
Qed.

Section deliver.
  (* [D bs s]: the bytes [bs] have arrived at [dst] *)
  Context (ud : bool) (dst : Z) (D : list Z -> kstate -> Prop).
  Hypothesis D_same : forall bs s s', same_user s s' -> D bs s -> D bs s'.
  Hypothesis D_copyout : forall bs d s, running p pp [] s -> D bs s ->
    returns (either_copyout ud (u64 (dst + Z.of_nat (length bs))) d s) (fun r s' => r = 0 /\ D (bs ++ d) s').

Lemma readi_step i ip n off tot s :
  fs dev V L P p pp s -> k_itable s !! i = Some ip -> file_readable ip (off + n) -> (size (dom L ∪ P) < NBUF)%nat ->
  0 <= off -> off + n < 2 ^ 32 -> 0 <= tot < n -> D (file_bytes V ip off tot) s ->
  returns (readi_loop i ud n (tot, off + tot, u64 (dst + tot)) s) (fun r s' => exists m, 0 < m <= n - tot /\
    r = inl (tot + m, off + (tot + m), u64 (dst + (tot + m))) /\
    fs dev V L P p pp s' /\ read_frame s s' /\ D (file_bytes V ip off (tot + m)) s').
Proof using D_same D_copyout.
  intros Hfs Hip Hra Hroom Hoff Hov Htot HD. destruct Hra as [Hdev Hlen HL Hpre Hmax].
  set (o := off + tot). pose proof (Z.mod_pos_bound o BSIZE ltac:(done)) as Hom.
  assert (Hbn : 0 <= o / BSIZE < MAXFILE) by (apply blk_range; unfold o; lia).
  assert (Ha : blk_addr V ip (o / BSIZE) <> 0) by (apply Hpre; unfold o; lia).
  pose proof (HL _ (owns_addr V ip _ Hbn Ha)) as La. set (a := blk_addr V ip (o / BSIZE)) in *.
  unfold readi_loop. rewrite (proj2 (Z.ltb_lt _ _)) by lia. mred.
  mspec (bmap_present s i ip (o / BSIZE)); [done..|]. cbn beta. intros ? s1 (-> & Hfs1 & F1). fold a.
  rewrite (proj2 (Z.eqb_neq _ _) Ha). mred.
  rewrite (get_inode_eq s1 i ip) by (by rewrite F1). mred. rewrite Hdev.
  mspec bread_spec; [exact Hfs1|exact La|by right|]. cbn beta. intros bp s2 [Hfs2 F2].
  mred. rewrite (bdata_eq _ _ _ _ _ _ _ _ _ Hfs2 (lookup_insert_eq _ _ _)). mred.
  set (m := Z.min (n - tot) (BSIZE - o mod BSIZE)).
  pose proof (bio_frame_trans _ _ _ F1 F2) as F12.
  replace (slice (V a) _ _) with (file_bytes V ip o m)
    by (apply file_bytes_chunk; [unfold o; lia|lia|lia|done|by eapply bc_view_length; apply Hfs]).
  assert (Hlb : length (file_bytes V ip off tot) = Z.to_nat tot).
  { unfold file_bytes. rewrite length_fmap, length_zrange. f_equal. lia. }
  pose proof (D_copyout (file_bytes V ip off tot) (file_bytes V ip o m) s2) as HC.
  rewrite Hlb, Z2Nat.id in HC by lia.
  destruct (returns_inv _ _ (HC ltac:(apply Hfs2) ltac:(by apply (D_same _ s); [apply bio_frame_same_user|])))
    as (r & s3 & Hc & -> & HD3). rewrite Hc. mred. change (0 =? -1) with false.
  pose proof (frames_either_copyout _ _ _ _ _ _ Hc) as U3.
  mspec brelse_spec; [by eapply fs_user|apply lookup_insert_eq| |].
  { destruct (fs_safe _ _ _ _ _ _ _ _ Hfs La) as [?|E]; [by left|right]. rewrite E.
    rewrite (read_frame_disk _ _ (user_read_frame _ _ U3)). by rewrite F12. }
  cbn beta. intros _ s4 [Hfs4 F4]. mred. rewrite delete_insert_id in Hfs4 by done.
  exists m. split_and!; [lia|lia| |done|..].
  - rewrite u64_add_l. replace (u32 (o + m)) with (off + (tot + m)) by (unfold u32; rewrite Z.mod_small; lia).
    by replace (dst + tot + m) with (dst + (tot + m)) by lia.
  - eapply read_frame_trans; [apply bio_read_frame, F12|]. eapply read_frame_trans; [by apply user_read_frame|by apply bio_read_frame].
  - rewrite file_bytes_app by lia. by apply (D_same _ s3); [apply bio_frame_same_user|].
Qed.

Lemma readi_spec i ip off n s :
  let k := if off + n <? 2 ^ 32 then Z.max 0 (Z.min n (i_size ip - off)) else 0 in
  fs dev V L P p pp s -> k_itable s !! i = Some ip -> file_readable ip (i_size ip) -> (size (dom L ∪ P) < NBUF)%nat ->
  0 <= off < 2 ^ 32 -> 0 <= n < 2 ^ 32 -> 0 <= dst < 2 ^ 64 -> 0 <= i_size ip -> D [] s ->
  returns (readi i ud dst off n s) (fun r s' =>
    r = k /\ D (file_bytes V ip off k) s' /\ fs dev V L P p pp s' /\ read_frame s s').
Proof using D_same D_copyout.
  intros k Hfs Hip Hra Hroom Hoff Hn Hdst Hsz HD. unfold readi. mred.
  rewrite (get_inode_eq _ _ _ Hip). mred.
  assert (Hmax : i_size ip < 2 ^ 31) by (pose proof (ra_max _ _ Hra); by apply (Z.le_lt_trans _ (MAXFILE * BSIZE))).
  assert (Hnil : forall x, file_bytes V ip x 0 = []) by (intros x; unfold file_bytes; by rewrite zrange_nil by lia).
  assert (Hzero : k = 0 -> D (file_bytes V ip off k) s /\ fs dev V L P p pp s /\ read_frame s s).
  { intros ->. rewrite Hnil. split_and!; [done|done|apply bio_read_frame, bio_frame_refl]. }
  assert (Hcond : (i_size ip <? off) || (u32 (off + n) <? off) = true /\ k = 0 \/
                  (i_size ip <? off) || (u32 (off + n) <? off) = false /\ off <= i_size ip /\ off + n < 2 ^ 32 /\
                  u32 (off + n) = off + n /\ k = Z.min n (i_size ip - off)).
  { unfold k. destruct (Z.ltb_spec (off + n) (2 ^ 32)) as [Hlt|Hge].
    - unfold u32. rewrite Z.mod_small by lia. destruct (Z.ltb_spec (i_size ip) off); [left; simpl; lia|].
      right. rewrite (proj2 (Z.ltb_ge _ _)) by lia. split_and!; [done|lia..].
    - left. assert (E : u32 (off + n) = off + n - 2 ^ 32)
        by (unfold u32; symmetry; apply Z.mod_unique_pos with 1; lia).
      rewrite E, (proj2 (Z.ltb_lt (off + n - 2 ^ 32) off)) by lia. by rewrite orb_true_r. }
  destruct Hcond as [[-> Hk]|(-> & Hle & Hov & Hu & Hk)]; [mred; split; [done|by apply Hzero]|].
  rewrite Hu. replace (if i_size ip <? off + n then i_size ip - off else n) with k
    by (rewrite Hk; destruct (Z.ltb_spec (i_size ip) (off + n)); lia).
  apply returns_obind.
  apply (loop_returns (fun x s1 => exists tot, 0 <= tot <= k /\ x = (tot, off + tot, u64 (dst + tot)) /\
      fs dev V L P p pp s1 /\ read_frame s s1 /\ D (file_bytes V ip off tot) s1)
    (fun x => Z.to_nat (k - x.1.1))).
  - exists 0. split_and!; [lia|lia| |done|apply bio_read_frame, bio_frame_refl|by rewrite Hnil].
    rewrite !Z.add_0_r. unfold u64. by rewrite Z.mod_small.
  - simpl. lia.
  - intros x s1 (tot & Htot & -> & Hfs1 & F1 & HD1). destruct (decide (tot = k)) as [->|Hne].
    + unfold readi_loop. rewrite (proj2 (Z.ltb_ge _ _)) by lia. mred. split_and!; [|done|done|done].
      apply s32_small. lia.
    + eapply returns_mono; [eapply (readi_step i ip k off tot s1); try done; try lia|].
      * by rewrite (read_frame_itable _ _ F1).
      * destruct Hra as [? ? ? Hp Hm]. constructor; try done; [intros o Ho; apply Hp; lia|lia].
      * cbn beta. intros r s2 (m & Hm & -> & Hfs2 & F2 & HD2). simpl. split; [|lia].
        exists (tot + m). split_and!; [lia|lia|done|done|by eapply read_frame_trans|done].
Qed.

End deliver.
End read.

(** ** writei *)

Lemma splice_lookup_total (d xs : list Z) k j :
  (k + length xs <= length d)%nat -> (j < length d)%nat ->
  splice d k xs !!! j = if decide (k <= j < k + length xs)%nat then xs !!! (j - k)%nat else d !!! j.
Proof.
  intros Hfit Hj. unfold splice. rewrite !list_lookup_total_alt. case_decide as Hc.
  - rewrite lookup_app_r by (rewrite length_take; lia). rewrite length_take, Nat.min_l by lia.
    by rewrite lookup_app_l by lia.
  - destruct (decide (j < k)%nat) as [Hlt|Hge].
    + rewrite lookup_app_l by (rewrite length_take; lia). by rewrite lookup_take_lt.
    + rewrite lookup_app_r by (rewrite length_take; lia). rewrite length_take, Nat.min_l by lia.
      rewrite lookup_app_r by lia. rewrite lookup_drop. do 2 f_equal. lia.
Qed.

(** The bytes after [xs] is written at [off]. *)
Definition overwritten (B : Z -> Z) (off : Z) (xs : list Z) (o : Z) : Z :=
  if (off <=? o) && (o <? off + Z.of_nat (length xs)) then xs !!! Z.to_nat (o - off) else B o.

Lemma overwritten_nil B off o : overwritten B off [] o = B o.
Proof. unfold overwritten. simpl. rewrite Z.add_0_r. by destruct (Z.leb_spec off o), (Z.ltb_spec o off); try lia. Qed.

Lemma overwritten_app B off xs ys o :
  overwritten (overwritten B off xs) (off + Z.of_nat (length xs)) ys o = overwritten B off (xs ++ ys) o.
Proof.
  unfold overwritten. rewrite length_app, Nat2Z.inj_add, Z.add_assoc, !list_lookup_total_alt.
  destruct (Z.leb_spec (off + Z.of_nat (length xs)) o), (Z.ltb_spec o (off + Z.of_nat (length xs) + Z.of_nat (length ys))),
    (Z.leb_spec off o), (Z.ltb_spec o (off + Z.of_nat (length xs))); simpl; try lia; try done.
  - rewrite lookup_app_r by lia. do 2 f_equal. lia.
  - by rewrite lookup_app_l by lia.
Qed.

(** Writing a chunk of one block of the file. *)
Lemma evolved_chunk dev bm L sb V ip off xs :
  let a := blk_addr V ip (off / BSIZE) in
  let V' := <[a := splice (V a) (Z.to_nat (off mod BSIZE)) xs]> V in
  file_ok dev bm V L sb ip -> (forall blk, length (V blk) = Z.to_nat BSIZE) ->
  0 <= off -> off / BSIZE < MAXFILE -> off mod BSIZE + Z.of_nat (length xs) <= BSIZE -> a <> 0 ->
  evolved dev bm L sb (overwritten (byte_at V ip) off xs) V ip V' ip.
Proof.
  intros a V' Hok Hlen Hoff Hmax Hfit Ha. pose proof (Z.mod_pos_bound off BSIZE ltac:(done)) as Hom.
  assert (Hbn : 0 <= off / BSIZE < MAXFILE) by (split; [by apply Z.div_pos|done]).
  pose proof (owns_addr V ip _ Hbn Ha) as Hown. destruct (fo_own _ _ _ _ _ _ Hok a Hown) as (Har & Hua & La & Nbm & Nib).
  pose proof (fo_ind _ _ _ _ _ _ Hok _ Hbn Ha) as Hni. fold a in Hni.
  assert (HV' : forall b, b <> a -> V' b = V b) by (intros b Hb; unfold V'; by rewrite fn_lookup_insert_ne).
  assert (Hind : indirect ip <> 0 -> V' (indirect ip) = V (indirect ip)) by (intros _; by apply HV').
  assert (Hadr : forall k, blk_addr V' ip k = blk_addr V ip k) by (intros; by apply blk_addr_ext).
  assert (Hu : forall b, 0 <= b < sb_size sb -> used sb V' b = used sb V b).
  { intros b Hb. unfold used. rewrite (fo_one _ _ _ _ _ _ Hok b Hb). by rewrite HV'. }
  constructor; try done.
  - by destruct ip.
  - pose proof Hok as [Hd Hl Ho Hi Hn H1 Hf Hb Hib Hm]. constructor; try done.
    + intros b. rewrite (owns_ext V V') by done. intros Hb'. destruct (Ho b Hb') as (R & U & ?). by rewrite Hu.
    + intros i j. rewrite !Hadr. apply Hi.
    + intros i. rewrite !Hadr. apply Hn.
    + intros b Hbr. rewrite Hu by done. by apply Hf.
  - intros o Ho. pose proof (blk_range o Ho) as Hor. unfold byte_at, overwritten. rewrite Hadr.
    pose proof (Z.mod_pos_bound o BSIZE ltac:(done)) as Hoo.
    destruct (decide (o / BSIZE = off / BSIZE)) as [E|E].
    + rewrite E. fold a. rewrite (proj2 (Z.eqb_neq _ _) Ha). unfold V'. rewrite fn_lookup_insert.
      pose proof (Z.div_mod o BSIZE ltac:(done)). pose proof (Z.div_mod off BSIZE ltac:(done)). rewrite E in *.
      rewrite splice_lookup_total by (rewrite Hlen; lia).
      destruct (Z.leb_spec off o), (Z.ltb_spec o (off + Z.of_nat (length xs))); simpl; case_decide; try lia; try done.
      f_equal. lia.
    + assert (Hout : (off <=? o) && (o <? off + Z.of_nat (length xs)) = false).
      { destruct (Z.leb_spec off o), (Z.ltb_spec o (off + Z.of_nat (length xs))); try done.
        destruct (same_chunk o off (Z.of_nat (length xs))); [lia|done|done]. }
      rewrite Hout. destruct (Z.eqb_spec (blk_addr V ip (o / BSIZE)) 0) as [|Hnz]; [done|].
      rewrite HV'; [done|]. intros Ea. apply E. by apply (fo_inj _ _ _ _ _ _ Hok).
  - intros blk Hr Hub Hne Hno. rewrite (owns_ext V V') by done. split; [|done]. apply HV'. by intros ->.
  - intros b Hb. by rewrite Hu.
Qed.

(** Everything but the cache, the log header, the process table, the queue,
    the output, the inode table and user memory is as in [s]. *)
Definition write_frame (s s' : kstate) : Prop :=
  exists m f r, in_frame (set_k_mem m (set_k_freelist f (set_k_refcount r s))) s'.

Lemma in_write_frame s s' : in_frame s s' -> write_frame s s'.
Proof. intros F. exists (k_mem s), (k_freelist s), (k_refcount s). by destruct s. Qed.

Lemma user_write_frame s s' : user_same s s' -> write_frame s s'.
Proof. intros (m & f & r & ->). exists m, f, r. apply op_in_frame, op_frame_refl. Qed.

Lemma write_frame_trans s1 s2 s3 : write_frame s1 s2 -> write_frame s2 s3 -> write_frame s1 s3.
Proof.
  intros (m & f & r & F) (m' & f' & r' & F'). exists m', f', r'. eapply in_frame_trans; [|exact F'].
  destruct F as [F O C]. constructor; [|exact O|exact C]. clear - F. destruct s1, s2. cbn in F. injection F as; subst. reflexivity.
Qed.

Lemma write_frame_sb s s' : write_frame s s' -> k_sb s' = k_sb s.
Proof. intros (m & f & r & F). by rewrite (if_sb _ _ F). Qed.
Lemma write_frame_disk s s' : write_frame s s' -> k_disk s' = k_disk s.
Proof. intros (m & f & r & F). by rewrite (if_disk _ _ F). Qed.

Lemma in_frame_same_user s s' : in_frame s s' -> same_user s s'.
Proof. intros [F _ _]. unfold same_user. by rewrite F. Qed.

Lemma user_same_itable s s' : user_same s s' -> k_itable s' = k_itable s.
Proof. by intros (m & f & r & ->). Qed.

(** The blocks writei may log, the inode's apart: the bitmap, the indirect
    block and the blocks of the range. *)
Definition touched (bm off n : Z) (V : Z -> list Z) (ip : inode) : list Z :=
  bm :: indirect ip :: (blk_addr V ip <$> zrange (off / BSIZE) ((off + n - 1) / BSIZE + 1)).

Definition nblocks (off n : Z) : nat := Z.to_nat ((off + n - 1) / BSIZE + 1 - off / BSIZE).

Lemma length_touched bm off n V ip : length (touched bm off n V ip) = S (S (nblocks off n)).
Proof. unfold touched. simpl. by rewrite length_fmap, length_zrange. Qed.

Lemma elem_of_touched bm off n V ip o :
  off <= o < off + n -> blk_addr V ip (o / BSIZE) ∈ touched bm off n V ip.
Proof.
  intros Ho. unfold touched. do 2 right. apply list_elem_of_fmap_2, elem_of_zrange. split.
  - apply Z.div_le_mono; [done|lia].
  - assert (o / BSIZE <= (off + n - 1) / BSIZE) by (apply Z.div_le_mono; [done|lia]). lia.
Qed.

Section write.
  Context `{UC : UserCopy} (dev start : Z) (p : nat) (pp : proc) (bm : Z) (L : gmap Z nat).

Lemma op_user V blks s s' : user_same s s' -> op dev start V L blks p pp s -> op dev start V L blks p pp s'.
Proof. intros (m & f & r & ->). by apply op_ext. Qed.

Lemma logs_evolved sb B off n V ip V' ip' blks blks1 :
  evolved dev bm L sb B V ip V' ip' -> 0 <= off -> off + n <= MAXFILE * BSIZE ->
  logs blks blks1 (touched bm off n V ip) -> logs blks blks1 (touched bm off n V' ip').
Proof.
  intros Hev Hoff Hmax Hl b Hb Hn. destruct (Hl b Hb Hn) as [?|Hin]; [by left|right].
  unfold touched in *. apply elem_of_cons in Hin as [->|Hin]; [by left|right].
  apply elem_of_cons in Hin as [->|Hin]; [rewrite <- (gr_ind _ _ _ _ _ _ _ _ _ Hev Hn); by left|right].
  apply list_elem_of_fmap in Hin as (k & -> & Hk). apply list_elem_of_fmap. exists k. split; [|done].
  apply elem_of_zrange in Hk. symmetry. apply (gr_keep _ _ _ _ _ _ _ _ _ Hev); [|done].
  assert (0 <= off / BSIZE) by (by apply Z.div_pos).
  assert ((off + n - 1) / BSIZE < MAXFILE) by (apply Z.div_lt_upper_bound; unfold BSIZE in *; lia). lia.
Qed.

Section store.
  (* the bytes [bs] at [src], in the memory of the process or of the kernel *)
  Context (us : bool) (src : Z) (bs : list Z) (J : kstate -> Prop).
  Hypothesis J_same : forall s s', same_user s s' -> J s -> J s'.
  Hypothesis J_copyin : forall k m s, 0 <= k -> 0 <= m -> k + m <= Z.of_nat (length bs) -> running p pp [] s -> J s ->
    returns (either_copyin us (u64 (src + k)) m s) (fun r s' => r = (0, slice bs (Z.to_nat k) (Z.to_nat m)) /\ J s').

(** After [tot] bytes of writei. *)
Record writing (V : Z -> list Z) (blks : list Z) (s : kstate) (i : nat) (ip : inode) (off tot : Z)
    (V1 : Z -> list Z) (blks1 : list Z) (ip1 : inode) (s1 : kstate) : Prop := {
  wg_tot : 0 <= tot <= Z.of_nat (length bs);
  wg_op : op dev start V1 L blks1 p pp s1;
  wg_frame : write_frame s s1;
  wg_itable : k_itable s1 = <[i := ip1]> (k_itable s);
  wg_bytes : evolved dev bm L (k_sb s) (overwritten (byte_at V ip) off (take (Z.to_nat tot) bs)) V ip V1 ip1;
  wg_logs : logs blks blks1 (touched bm off (Z.of_nat (length bs)) V1 ip1);
  wg_src : J s1;
}.

Definition disk_full (sb : superblock) (V : Z -> list Z) : Prop :=
  forall b, 0 <= b < sb_size sb -> used sb V b = true.

(** bmap in the loop. *)
Lemma writing_bmap V blks s i ip off tot V1 blks1 ip1 s1 :
  let n := Z.of_nat (length bs) in
  writing V blks s i ip off tot V1 blks1 ip1 s1 -> (i < length (k_itable s))%nat -> 0 <= off -> off + n <= MAXFILE * BSIZE -> tot < n ->
  (size (dom L) + length blks + nblocks off n + 8 < NBUF)%nat ->
  (length blks + nblocks off n + 8 < Z.to_nat LOGBLOCKS)%nat ->
  returns (bmap i ((off + tot) / BSIZE) s1) (fun a s2 => exists V2 blks2 ip2,
    writing V blks s i ip off tot V2 blks2 ip2 s2 /\
    ((a = 0 /\ disk_full (k_sb s) V2) \/ (a <> 0 /\ a = blk_addr V2 ip2 ((off + tot) / BSIZE)))).
Proof using J_same.
  intros n [Ht Hop F1 Hit Hev Hlg HJ] Hi Hoff Hmax Htn Hroom Hlog.
  pose proof (logs_length _ _ _ _ _ _ _ _ _ _ Hop Hlg) as Hl1. rewrite length_touched in Hl1. fold n in Hl1.
  assert (Hbn : 0 <= (off + tot) / BSIZE < MAXFILE) by (apply blk_range; lia).
  eapply returns_mono.
  { apply (bmap_spec dev start p pp bm V1 L blks1 s1 i ip1 _ Hop); [by rewrite Hit, list_lookup_insert_eq| |done|lia|lia].
    rewrite (write_frame_sb _ _ F1). apply Hev. }
  intros a s2 (V2 & blks2 & ip2 & Hop2 & F2 & Hit2 & Hgr & Hlg2 & Hres). rewrite (write_frame_sb _ _ F1) in *.
  exists V2, blks2, ip2. split; [|by destruct Hres as [?|[? <-]]; [left|right]].
  constructor; [done|done| | | | |].
  - eapply write_frame_trans; [exact F1|by apply in_write_frame].
  - by rewrite Hit2, Hit, list_insert_insert_eq.
  - eapply evolved_trans; [exact Hev|exact Hgr|]. apply Hev.
  - pose proof (logs_evolved _ _ off n _ _ _ _ _ _ Hgr Hoff Hmax Hlg) as Hlg'. intros b Hb Hn.
    destruct (Hlg2 b Hb Hn) as [Hb1|Hb1]; [by apply Hlg'|right].
    rewrite !elem_of_cons in Hb1. destruct Hb1 as [->|[->|[->|[]%elem_of_nil]]].
    + by left.
    + by right; left.
    + apply elem_of_touched. lia.
  - apply (J_same s1); [|done]. by apply in_frame_same_user.
Qed.

Lemma slice_take (l : list Z) a b : take a l ++ slice l a b = take (a + b) l.
Proof. unfold slice. by rewrite take_take_drop. Qed.

Lemma overwritten_ext B B' off xs o : B o = B' o -> overwritten B off xs o = overwritten B' off xs o.
Proof. intros E. unfold overwritten. by rewrite E. Qed.

(** The chunk of [m] bytes at [off + tot] is in its block. *)
Lemma writing_chunk V blks s i ip off tot m V2 blks2 ip2 s2 s' :
  let n := Z.of_nat (length bs) in let o := off + tot in
  let a := blk_addr V2 ip2 (o / BSIZE) in let xs := slice bs (Z.to_nat tot) (Z.to_nat m) in
  let V' := <[a := splice (V2 a) (Z.to_nat (o mod BSIZE)) xs]> V2 in
  writing V blks s i ip off tot V2 blks2 ip2 s2 -> 0 <= off -> off + n <= MAXFILE * BSIZE ->
  0 < m <= n - tot -> o mod BSIZE + m <= BSIZE -> a <> 0 ->
  op dev start V' L (absorb a blks2) p pp s' -> write_frame s2 s' -> k_itable s' = k_itable s2 -> J s' ->
  writing V blks s i ip off (tot + m) V' (absorb a blks2) ip2 s'.
Proof using Type.
  intros n o a xs V' [Ht Hop F Hit Hev Hlg HJ] Hoff Hmax Hm Hfit Ha Hop' F' Hit' HJ'.
  assert (Hxs : length xs = Z.to_nat m) by (apply length_slice; lia).
  assert (Hbn : 0 <= o / BSIZE < MAXFILE) by (apply blk_range; lia).
  assert (Hevc : evolved dev bm L (k_sb s) (overwritten (byte_at V2 ip2) o xs) V2 ip2 V' ip2).
  { apply evolved_chunk; [apply Hev|intros; by eapply op_view_length|lia|lia|rewrite Hxs; lia|done]. }
  constructor; [lia|done|by eapply write_frame_trans|congruence| | |done].
  - eapply evolved_trans; [exact Hev|exact Hevc|]. intros x Hx.
    rewrite (overwritten_ext _ _ _ _ _ (gr_bytes _ _ _ _ _ _ _ _ _ Hev x Hx)).
    replace o with (off + Z.of_nat (length (take (Z.to_nat tot) bs))) by (rewrite length_take; lia).
    rewrite overwritten_app. unfold xs. rewrite slice_take. do 2 f_equal. lia.
  - apply logs_absorb; [by eapply logs_evolved|].
    pose proof (elem_of_touched bm off n V' ip2 o ltac:(lia)) as Hin.
    by rewrite (gr_keep _ _ _ _ _ _ _ _ _ Hevc _ Hbn Ha) in Hin.
Qed.

(** One iteration of the loop of writei. *)
Lemma writei_step V blks s i ip off tot V1 blks1 ip1 s1 :
  let n := Z.of_nat (length bs) in
  writing V blks s i ip off tot V1 blks1 ip1 s1 -> (i < length (k_itable s))%nat -> i_dev ip = dev ->
  0 <= off -> off + n <= MAXFILE * BSIZE -> tot < n ->
  (size (dom L) + length blks + nblocks off n + 8 < NBUF)%nat ->
  (length blks + nblocks off n + 8 < Z.to_nat LOGBLOCKS)%nat ->
  returns (writei_loop i us n (tot, off + tot, u64 (src + tot)) s1) (fun r s2 => exists V2 blks2 ip2,
    (exists m, 0 < m /\ r = inl (tot + m, off + (tot + m), u64 (src + (tot + m))) /\
      writing V blks s i ip off (tot + m) V2 blks2 ip2 s2) \/
    (r = inr (tot, off + tot) /\ writing V blks s i ip off tot V2 blks2 ip2 s2 /\ disk_full (k_sb s) V2)).
Proof using J_same J_copyin.
  intros n Hw Hi Hdev Hoff Hmax Htn Hroom Hlog. set (o := off + tot).
  pose proof (Z.mod_pos_bound o BSIZE ltac:(done)) as Hom. pose proof (wg_tot _ _ _ _ _ _ _ _ _ _ _ Hw) as Ht.
  unfold writei_loop. rewrite (proj2 (Z.ltb_lt _ _)) by lia. mred.
  mspec (writing_bmap V blks s i ip off tot V1 blks1 ip1 s1); [done..|]. fold o.
  cbn beta. intros a s2 (V2 & blks2 & ip2 & Hw2 & [[-> Hfull]|[Ha ->]]).
  { change (0 =? 0) with true. mred. exists V2, blks2, ip2. by right. }
  clear Hw V1 blks1 ip1. pose proof Hw2 as [_ Hop2 F2 Hit2 Hev2 Hlg2 HJ2].
  pose proof (logs_length _ _ _ _ _ _ _ _ _ _ Hop2 Hlg2) as Hl2. rewrite length_touched in Hl2. fold n in Hl2.
  assert (Hbn : 0 <= o / BSIZE < MAXFILE) by (apply blk_range; lia).
  pose proof (gr_ok _ _ _ _ _ _ _ _ _ Hev2) as Hok2.
  destruct (fo_own _ _ _ _ _ _ Hok2 _ (owns_addr V2 ip2 _ Hbn Ha)) as (_ & _ & La & _ & _).
  set (a := blk_addr V2 ip2 (o / BSIZE)) in *. rewrite (proj2 (Z.eqb_neq _ _) Ha). mred.
  rewrite (get_inode_eq s2 i ip2) by (by rewrite Hit2, list_lookup_insert_eq). mred. rewrite (fo_dev _ _ _ _ _ _ Hok2).
  mspec op_bread; [exact Hop2|exact La|lia|]. cbn beta. intros bp s3 (Hop3 & F3 & _). mred.
  set (m := Z.min (n - tot) (BSIZE - o mod BSIZE)).
  destruct (returns_inv _ _ (J_copyin tot m s3 ltac:(lia) ltac:(lia) ltac:(lia) ltac:(apply Hop3)
    ltac:(apply (J_same s2); [by apply in_frame_same_user, op_in_frame|done]))) as (r & s4 & Hc & -> & HJ4).
  rewrite Hc. mred. pose proof (frames_either_copyin _ _ _ _ _ _ Hc) as U4.
  assert (Hop4 : op dev start V2 (<[a := bp]> L) blks2 p pp s4) by (destruct U4 as (? & ? & ? & ->); by apply (op_ext _ _ _ _ _ _ _ s3)).
  set (xs := slice bs (Z.to_nat tot) (Z.to_nat m)).
  assert (Hxs : length xs = Z.to_nat m) by (apply length_slice; lia).
  assert (Hlen : forall blk, length (V2 blk) = Z.to_nat BSIZE) by (intros; by eapply op_view_length).
  rewrite (op_bdata _ _ _ _ _ _ _ _ _ _ Hop4 (lookup_insert_eq _ _ _)). mred. cbn [fst snd]. change (0 =? -1) with false.
  mspec op_set_bdata; [exact Hop4|apply lookup_insert_eq| |].
  { rewrite length_splice; [done|]. rewrite Hlen, Hxs. lia. }
  cbn beta. intros _ s5 [Hop5 F5]. mspec op_log_write; [exact Hop5|apply lookup_insert_eq|lia|].
  cbn beta. intros _ s6 [Hop6 F6]. mspec op_brelse; [exact Hop6|apply lookup_insert_eq| |].
  { left. rewrite elem_of_absorb. by left. }
  cbn beta. intros _ s7 [Hop7 F7]. mred. rewrite delete_insert_id in Hop7 by done.
  assert (F47 : op_frame s4 s7) by eauto using op_frame_trans.
  eexists _, _, ip2. left. exists m. split_and!; [lia| |].
  - rewrite u64_add_l. replace (u32 (o + m)) with (off + (tot + m))
      by (unfold u32; rewrite Z.mod_small; [lia|]; change (MAXFILE * BSIZE) with 274432 in *; lia).
    by replace (src + tot + m) with (src + (tot + m)) by lia.
  - eapply writing_chunk; try done; fold o n; [lia|lia| | |].
    + eapply write_frame_trans; [apply in_write_frame, op_in_frame, F3|].
      eapply write_frame_trans; [by apply user_write_frame|by apply in_write_frame, op_in_frame].
    + by rewrite (of_itable _ _ F47), (user_same_itable _ _ U4), (of_itable _ _ F3).
    + apply (J_same s4); [|done]. by apply in_frame_same_user, op_in_frame.
Qed.

(** What writei leaves: [k] bytes of [bs] written at [off]. *)
Record wrote (V : Z -> list Z) (s : kstate) (i : nat) (ip : inode) (off k : Z) (V' : Z -> list Z) (ip' : inode)
    (s' : kstate) : Prop := {
  wr_count : 0 <= k <= Z.of_nat (length bs);
  wr_itable : k_itable s' = <[i := ip']> (k_itable s);
  wr_same : ip' = set_i_addrs (i_addrs ip') (set_i_size (Z.max (i_size ip) (off + k)) ip);
  wr_ok : file_ok dev bm V' L (k_sb s) ip';
  wr_bytes o : 0 <= o < MAXFILE * BSIZE ->
    byte_at V' ip' o = overwritten (byte_at V ip) off (take (Z.to_nat k) bs) o;
  wr_disk : disk_inode (k_sb s) V' (i_inum ip) = inode_dinode ip';
  wr_other blk : 0 <= blk < sb_size (k_sb s) -> used (k_sb s) V blk = true ->
    blk <> bm -> blk <> IBLOCK (i_inum ip) (k_sb s) -> ~ owns V ip blk -> V' blk = V blk;
  wr_all : k = Z.of_nat (length bs) \/ disk_full (k_sb s) V';
}.

Lemma dinode_ok_grown V sb ip ip' sz :
  dinode_ok (inode_dinode ip) -> file_ok dev bm V L sb ip' -> sb_size sb <= 2 ^ 32 ->
  ip' = set_i_addrs (i_addrs ip') (set_i_size sz ip) -> is_u32 sz -> dinode_ok (inode_dinode ip').
Proof using Type.
  intros [] Hok Hsb E Hsz. pose proof (fo_len _ _ _ _ _ _ Hok) as Hl.
  assert (Ed : inode_dinode ip' = mkDinode (i_type ip) (i_major ip) (i_minor ip) (i_nlink ip) sz (i_addrs ip'))
    by (rewrite E at 1; done).
  rewrite Ed. constructor; try done. cbn [di_addrs].
  apply Forall_lookup. intros j a Ha. pose proof (lookup_lt_Some _ _ _ Ha) as Hj.
  destruct (decide (a = 0)) as [->|Hn]; [done|]. apply list_lookup_total_correct in Ha.
  assert (Hown : owns V ip' a).
  { split; [done|]. destruct (decide (j = 12%nat)) as [->|Hne]; [left; done|right].
    exists (Z.of_nat j). split; [change MAXFILE with 268; lia|]. rewrite blk_addr_dir by (unfold NDIRECT; lia).
    by rewrite Nat2Z.id. }
  destruct (fo_own _ _ _ _ _ _ Hok a Hown) as (Hr & _). unfold is_u32. lia.
Qed.

Lemma file_ok_size V sb ip sz : file_ok dev bm V L sb ip -> file_ok dev bm V L sb (set_i_size sz ip).
Proof using Type. intros []. by constructor. Qed.

(** Storing the inode in its block changes neither the marks nor the file. *)
Lemma put_inode_other V sb ip di :
  file_ok dev bm V L sb ip ->
  let V' := put_inode sb V (i_inum ip) di in
  file_ok dev bm V' L sb ip /\ (forall o, 0 <= o < MAXFILE * BSIZE -> byte_at V' ip o = byte_at V ip o) /\
  (forall b, 0 <= b < sb_size sb -> used sb V' b = used sb V b).
Proof using Type.
  intros Hok V'. assert (HV : forall a, owns V ip a -> V' a = V a).
  { intros a Ha. destruct (fo_own _ _ _ _ _ _ Hok a Ha) as (_ & _ & _ & _ & N).
    unfold V', put_inode. by rewrite fn_lookup_insert_ne. }
  assert (Hu : forall b, 0 <= b < sb_size sb -> used sb V' b = used sb V b).
  { intros b Hb. unfold used. rewrite (fo_one _ _ _ _ _ _ Hok b Hb). unfold V', put_inode.
    by rewrite fn_lookup_insert_ne by (intros E; exact (fo_meta _ _ _ _ _ _ Hok (eq_sym E))). }
  split_and!; [|intros o Ho; by apply byte_at_ext|done].
  apply (file_ok_ext _ _ _ _ V); [done|done|intros b Hb; by rewrite Hu..].
Qed.

Lemma set_size_eq {A} s i ip sz (k : K A) :
  k_itable s !! i = Some ip ->
  (ip ← get_inode i; (if i_size ip <? sz then upd_inode i (set_i_size sz) else mret tt);; k) s =
  k (set_k_itable (<[i := set_i_size (Z.max (i_size ip) sz) ip]> (k_itable s)) s).
Proof using Type.
  intros Hip. mred. rewrite (get_inode_eq _ _ _ Hip). mred. destruct (Z.ltb_spec (i_size ip) sz).
  - rewrite (upd_inode_eq _ _ _ _ Hip). mred. by rewrite Z.max_r by lia.
  - mred. rewrite Z.max_l by lia. f_equal. rewrite list_insert_id; [by destruct s|]. rewrite Hip. by destruct ip.
Qed.

(** Writing the inode back. *)
Lemma writing_finish V blks s i ip off tot V1 blks1 ip1 s1 :
  let n := Z.of_nat (length bs) in
  writing V blks s i ip off tot V1 blks1 ip1 s1 -> (i < length (k_itable s))%nat ->
  0 <= off -> off + n <= MAXFILE * BSIZE -> dinode_ok (inode_dinode ip) -> sb_size (k_sb s) <= 2 ^ 32 ->
  (size (dom L) + length blks + nblocks off n + 8 < NBUF)%nat ->
  (length blks + nblocks off n + 8 < Z.to_nat LOGBLOCKS)%nat ->
  tot = n \/ disk_full (k_sb s) V1 ->
  returns ((ip ← get_inode i;
            (if i_size ip <? off + tot then upd_inode i (set_i_size (off + tot)) else mret tt);;
            iupdate i;;
            mret (s32 tot)) s1) (fun r s' => r = tot /\ J s' /\ write_frame s s' /\ exists V' blks' ip',
    op dev start V' L blks' p pp s' /\ wrote V s i ip off tot V' ip' s').
Proof using J_same.
  intros n [Ht Hop F Hit Hev Hlg HJ] Hi Hoff Hmax Hdi Hsb Hroom Hlog Hend.
  pose proof (logs_length _ _ _ _ _ _ _ _ _ _ Hop Hlg) as Hl. rewrite length_touched in Hl. fold n in Hl.
  pose proof (gr_ok _ _ _ _ _ _ _ _ _ Hev) as Hok1. pose proof (gr_same _ _ _ _ _ _ _ _ _ Hev) as Hsame.
  assert (Hsz1 : i_size ip1 = i_size ip) by (by rewrite Hsame). assert (Hin1 : i_inum ip1 = i_inum ip) by (by rewrite Hsame).
  set (sz := Z.max (i_size ip) (off + tot)). set (ip' := set_i_size sz ip1).
  rewrite (set_size_eq _ _ ip1) by (by rewrite Hit, list_lookup_insert_eq). rewrite Hsz1. fold sz. fold ip'. mred.
  set (s2 := set_k_itable _ s1).
  assert (Hit2 : k_itable s2 = <[i := ip']> (k_itable s)) by (simpl; by rewrite Hit, list_insert_insert_eq).
  assert (Hok' : file_ok dev bm V1 L (k_sb s) ip') by (by apply file_ok_size).
  assert (Hsb2 : k_sb s2 = k_sb s) by apply (write_frame_sb _ _ F).
  mspec (iupdate_spec dev start p pp V1 L blks1 s2 i ip');
    [by apply op_itable|by rewrite Hit2, list_lookup_insert_eq|apply Hok'|apply Hok'|rewrite Hsb2; exact (fo_ib _ _ _ _ _ _ Hok')|lia|lia|].
  rewrite Hsb2. cbn beta. intros _ s3 [Hop3 F3]. mred.
  destruct (put_inode_other V1 (k_sb s) ip' (inode_dinode ip') Hok') as (Hok3 & Hby3 & Hu3).
  assert (F23 : in_frame s1 s3) by (apply (in_frame_trans _ s2); [apply in_frame_itable|by apply op_in_frame]).
  change (MAXFILE * BSIZE) with 274432 in *.
  split_and!; [apply s32_small; lia|by apply (J_same s1); [apply in_frame_same_user|]|
    by eapply write_frame_trans; [|apply in_write_frame]|].
  eexists _, _, ip'. split; [exact Hop3|]. constructor; try done.
  - by rewrite (of_itable _ _ F3).
  - unfold ip'. rewrite Hsame at 1. done.
  - intros o Ho. rewrite Hby3 by done. rewrite <- (gr_bytes _ _ _ _ _ _ _ _ _ Hev o Ho). done.
  - rewrite <- Hin1. change (i_inum ip1) with (i_inum ip'). rewrite disk_inode_put, decide_True; [done|done|by eapply op_view_length|].
    apply (dinode_ok_grown V1 (k_sb s) ip ip' sz); try done.
    + unfold ip'. by rewrite Hsame at 1.
    + destruct Hdi. unfold is_u32 in *. simpl in *. lia.
  - intros blk Hr Hub Hne Hni Hno. destruct (gr_other _ _ _ _ _ _ _ _ _ Hev blk Hr Hub Hne Hno) as [<- _].
    unfold put_inode. change (i_inum ip') with (i_inum ip1). rewrite Hin1. by rewrite fn_lookup_insert_ne.
  - destruct Hend as [?|Hf]; [by left|right]. intros b Hb. rewrite Hu3 by done. by apply Hf.
Qed.

(** The tests at the top of writei. *)
Lemma writei_range off n size :
  0 <= off < 2 ^ 32 -> 0 <= n < 2 ^ 32 ->
  ((size <? off) || (u32 (off + n) <? off) || (MAXFILE * BSIZE <? u32 (off + n))) =
    negb ((off <=? size) && (off + n <=? MAXFILE * BSIZE)).
Proof using Type.
  intros Hoff Hn. change (MAXFILE * BSIZE) with 274432. change (2 ^ 32) with 4294967296 in *.
  destruct (Z.lt_ge_cases (off + n) 4294967296) as [Hlt|Hge].
  - assert (E : u32 (off + n) = off + n) by (apply Z.mod_small; change (2 ^ 32) with 4294967296; lia).
    rewrite E. destruct (Z.ltb_spec size off), (Z.ltb_spec (off + n) off), (Z.ltb_spec 274432 (off + n)),
      (Z.leb_spec off size), (Z.leb_spec (off + n) 274432); simpl; lia.
  - assert (E : u32 (off + n) = off + n - 4294967296)
      by (unfold u32; symmetry; apply Z.mod_unique_pos with 1; change (2 ^ 32) with 4294967296; lia).
    rewrite E, (proj2 (Z.ltb_lt (off + n - 4294967296) off)) by lia. rewrite orb_true_r.
    rewrite (proj2 (Z.leb_gt (off + n) 274432)) by lia. by rewrite andb_false_r.
Qed.

(** C19. writei of the bytes [bs] at offset [off].  Past the end of the file, or
    beyond the largest file, it returns -1 and changes nothing.  Otherwise it
    writes a prefix of [bs] of the length it returns, all of it unless the disk
    is full: these bytes of the file change and no others, the size grows to
    cover them, the inode is stored on the disk, and no block in use that is
    not the file's, the bitmap or the inode's changes. *)
Theorem writei_replaces V blks s i ip off :
  let n := Z.of_nat (length bs) in
  let ok := (off <=? i_size ip) && (off + n <=? MAXFILE * BSIZE) in
  op dev start V L blks p pp s -> k_itable s !! i = Some ip -> file_ok dev bm V L (k_sb s) ip ->
  dinode_ok (inode_dinode ip) -> sb_size (k_sb s) <= 2 ^ 32 ->
  0 <= off < 2 ^ 32 -> n < 2 ^ 32 -> 0 <= src < 2 ^ 64 -> J s ->
  (ok = true -> (size (dom L) + length blks + nblocks off n + 8 < NBUF)%nat /\
                (length blks + nblocks off n + 8 < Z.to_nat LOGBLOCKS)%nat) ->
  returns (writei i us src off n s) (fun r s' =>
    if ok then J s' /\ write_frame s s' /\ exists V' blks' ip',
      op dev start V' L blks' p pp s' /\ wrote V s i ip off r V' ip' s'
    else r = -1 /\ s' = s).
Proof using J_same J_copyin.
  intros n ok Hop Hip Hok Hdi Hsb Hoff Hn Hsrc HJ Hroom. assert (Hi := lookup_lt_Some _ _ _ Hip).
  pose proof (writei_range off n (i_size ip) Hoff ltac:(lia)) as Hr. fold ok in Hr. unfold writei. mred.
  rewrite (get_inode_eq _ _ _ Hip). mred.
  destruct (_ || (u32 (off + n) <? off)); [by apply eq_sym, negb_true_iff in Hr as ->|].
  destruct (_ <? u32 (off + n)); [by apply eq_sym, negb_true_iff in Hr as ->|].
  symmetry in Hr. apply negb_false_iff in Hr. destruct (Hroom Hr) as [Hr1 Hr2]. rewrite Hr.
  apply andb_true_iff in Hr as [Hle Hmax]. apply Z.leb_le in Hle, Hmax.
  apply returns_obind. eapply returns_mono.
  { apply (loop_returns (fun x s1 => exists tot V1 blks1 ip1, x = (tot, off + tot, u64 (src + tot)) /\
        writing V blks s i ip off tot V1 blks1 ip1 s1) (fun x => Z.to_nat (n - x.1.1))
      (fun r s1 => exists tot V1 blks1 ip1, r = (tot, off + tot) /\ writing V blks s i ip off tot V1 blks1 ip1 s1 /\
        (tot = n \/ disk_full (k_sb s) V1))).
    - exists 0, V, blks, ip. rewrite !Z.add_0_r. split; [unfold u64; by rewrite Z.mod_small|].
      constructor; [lia|done|apply in_write_frame, op_in_frame, op_frame_refl|by rewrite list_insert_id| |apply logs_refl|done].
      rewrite take_0. eapply evolved_trans; [by apply grown_refl|by apply grown_refl|].
      intros o _. symmetry. apply overwritten_nil.
    - simpl. lia.
    - intros x s1 (tot & V1 & blks1 & ip1 & -> & Hw). pose proof (wg_tot _ _ _ _ _ _ _ _ _ _ _ Hw) as Ht.
      destruct (decide (tot = n)) as [->|Hne].
      + unfold writei_loop. rewrite (proj2 (Z.ltb_ge _ _)) by lia. mred. exists n, V1, blks1, ip1. by split_and!; [| |left].
      + eapply returns_mono; [eapply (writei_step V blks s i ip off tot V1 blks1 ip1 s1); try done; try lia; apply Hok|].
        cbn beta. intros r s2 (V2 & blks2 & ip2 & [(m & Hm & -> & Hw2)|(-> & Hw2 & Hf)]).
        * split; [by exists (tot + m), V2, blks2, ip2|]. pose proof (wg_tot _ _ _ _ _ _ _ _ _ _ _ Hw2). simpl. lia.
        * exists tot, V2, blks2, ip2. by split_and!; [| |right]. }
  cbn beta. intros r s1 (tot & V1 & blks1 & ip1 & -> & Hw & Hend).
  eapply returns_mono; [eapply (writing_finish V blks s i ip off tot V1 blks1 ip1 s1); try done; lia|].
  cbn beta. by intros r s' (-> & ? & ? & ?).
Qed.
End store.
End write.
