(* ===== verification/Icache.v ===== *)
(** * The inode cache: references and locks

    The entries of itable seen as a count of references per inode number.
    iget, idup, ilock, iunlock and iput are specified on that count, with the
    invariant that a valid entry agrees with the inode on disk and that at
    most one entry is locked by the running process. *)

From S2P Require Import Prelude State Spinlock CString Sysargs Proc ReadyQueue Sleeplock Sleeping Bio BufferCache Log Wal Transaction Usercopy Fs Bitmap Inodes Truncate.

Section icache.
  Context (dev start : Z) (p : nat) (pp : proc).

(** The references to inode [n], and the entry that holds it. *)
Definition iref (s : kstate) (n : Z) : Z :=
  match cached_entry s dev n with
  | Some i => match k_itable s !! i with Some ip => i_ref ip | None => 0 end
  | None => 0
  end.
Definition entry (n : Z) (i : nat) (s : kstate) : Prop :=
  exists ip, k_itable s !! i = Some ip /\ holds_inode dev n ip = true.

(** [lk] is the entry locked by the running process. *)
Record icache (V : Z -> list Z) (lk : option nat) (s : kstate) : Prop := {
  ic_wf : it_wf s;
  ic_dev i ip : k_itable s !! i = Some ip -> 0 < i_ref ip -> i_dev ip = dev;
  ic_coh i ip : k_itable s !! i = Some ip -> 0 < i_ref ip -> i_valid ip = true ->
    inode_dinode ip = disk_inode (k_sb s) V (i_inum ip);
  ic_lock i ip : k_itable s !! i = Some ip ->
    if decide (lk = Some i) then i_lock ip = mkSlock true (p_pid pp) else sl_locked (i_lock ip) = false;
  ic_locked i : lk = Some i -> exists ip, k_itable s !! i = Some ip /\ 0 < i_ref ip /\ i_valid ip = true;
}.

(** ** Counting references *)

Lemma iref_entry s i ip n : it_wf s -> k_itable s !! i = Some ip -> holds_inode dev n ip = true -> iref s n = i_ref ip.
Proof.
  intros Hwf Hi Hh. unfold iref. destruct (cached_entry s dev n) as [j|] eqn:Hc.
  - apply cached_entry_Some in Hc as (jp & Hj & Hm). rewrite Hj.
    assert (j = i) as -> by (by eapply (it_uniq _ Hwf)). congruence.
  - exfalso. pose proof (find_entry_None _ _ _ _ (it_len _ Hwf) Hc Hi) as Hf. simpl in Hf. congruence.
Qed.

Lemma iref_none s n : (forall i ip, k_itable s !! i = Some ip -> holds_inode dev n ip = false) -> iref s n = 0.
Proof.
  intros Hno. unfold iref. destruct (cached_entry s dev n) as [j|] eqn:Hc; [|done].
  apply cached_entry_Some in Hc as (jp & Hj & Hm). rewrite (Hno _ _ Hj) in Hm. done.
Qed.

Lemma iref_cases s n : it_wf s ->
  (exists i ip, k_itable s !! i = Some ip /\ holds_inode dev n ip = true /\ iref s n = i_ref ip /\ 0 < iref s n) \/
  (iref s n = 0 /\ forall i ip, k_itable s !! i = Some ip -> holds_inode dev n ip = false).
Proof.
  intros Hwf. destruct (cached_entry s dev n) as [j|] eqn:Hc.
  - left. apply cached_entry_Some in Hc as (jp & Hj & Hm). exists j, jp. rewrite (iref_entry _ _ _ _ Hwf Hj Hm).
    split_and!; [done|done|done|]. apply holds_inode_spec in Hm. lia.
  - right. split; [unfold iref; by rewrite Hc|]. intros i ip. by apply find_entry_None; [apply Hwf|].
Qed.

Lemma iref_nonneg s n : it_wf s -> 0 <= iref s n.
Proof. intros Hwf. destruct (iref_cases s n Hwf) as [(? & ? & _ & _ & _ & H)|[H _]]; lia. Qed.

Lemma entry_iref s i n : it_wf s -> entry n i s -> 0 < iref s n.
Proof.
  intros Hwf (ip & Hi & Hh). rewrite (iref_entry _ _ _ _ Hwf Hi Hh). apply holds_inode_spec in Hh. lia.
Qed.

(** One entry changes. *)
Lemma iref_insert s s' i ip ip' n :
  it_wf s -> it_wf s' -> k_itable s !! i = Some ip -> k_itable s' = <[i := ip']> (k_itable s) ->
  iref s' n = if holds_inode dev n ip' then i_ref ip' else if holds_inode dev n ip then 0 else iref s n.
Proof.
  intros Hwf Hwf' Hi Ht. pose proof (lookup_lt_Some _ _ _ Hi) as Hlt.
  destruct (holds_inode dev n ip') eqn:H'; [apply (iref_entry s' i); [done|by rewrite Ht, list_lookup_insert_eq|done]|].
  assert (Hoth : forall j jp, k_itable s' !! j = Some jp -> holds_inode dev n jp = true -> j <> i /\ k_itable s !! j = Some jp).
  { intros j jp Hj Hh. rewrite Ht in Hj. destruct (decide (j = i)) as [->|]; [rewrite list_lookup_insert_eq in Hj by done; congruence|].
    by rewrite list_lookup_insert_ne in Hj. }
  destruct (holds_inode dev n ip) eqn:H0.
  - apply iref_none. intros j jp Hj. destruct (holds_inode dev n jp) eqn:Hh; [|done]. destruct (Hoth _ _ Hj Hh) as [Hne Hj0].
    destruct Hne. by eapply (it_uniq _ Hwf).
  - destruct (iref_cases s n Hwf) as [(j & jp & Hj & Hh & E & _)|[E Hno]].
    + assert (Hne : j <> i) by (intros ->; congruence). rewrite E. apply (iref_entry s' j); [done| |done].
      by rewrite Ht, list_lookup_insert_ne.
    + rewrite E. apply iref_none. intros j jp Hj. destruct (holds_inode dev n jp) eqn:Hh; [|done].
      destruct (Hoth _ _ Hj Hh) as [_ Hj0]. by rewrite (Hno _ _ Hj0) in Hh.
Qed.

(** An entry changes without changing which inode it holds. *)
Lemma iref_update s s' i ip ip' n :
  it_wf s -> it_wf s' -> k_itable s !! i = Some ip -> k_itable s' = <[i := ip']> (k_itable s) ->
  0 < i_ref ip -> 0 <= i_ref ip' -> i_dev ip' = i_dev ip -> i_inum ip' = i_inum ip ->
  iref s' n = if holds_inode dev n ip then i_ref ip' else iref s n.
Proof.
  intros Hwf Hwf' Hi Ht H1 H2 Hd Hn. rewrite (iref_insert s s' i ip ip') by done. unfold holds_inode. rewrite Hd, Hn.
  rewrite (proj2 (Z.ltb_lt 0 (i_ref ip))) by done. destruct ((i_dev ip =? dev) && (i_inum ip =? n)) eqn:E; simpl in *.
  - rewrite E. destruct (Z.ltb_spec 0 (i_ref ip')); simpl; rewrite ?E; [done|lia].
  - destruct (0 <? i_ref ip'); simpl; by rewrite ?E.
Qed.

(** Only the table matters. *)
Lemma icache_ext V lk s s' : icache V lk s -> k_itable s' = k_itable s -> k_sb s' = k_sb s -> icache V lk s'.
Proof.
  intros [[H1 H2 H3] H4 H5 H6 H7] Ht Hsb. constructor; [constructor|..]; rewrite ?Ht, ?Hsb; done.
Qed.
Lemma iref_ext s s' n : k_itable s' = k_itable s -> iref s' n = iref s n.
Proof. intros Ht. unfold iref, cached_entry, entry_is. by rewrite Ht. Qed.
Lemma entry_ext s s' n i : k_itable s' = k_itable s -> entry n i s -> entry n i s'.
Proof. intros Ht. unfold entry. by rewrite Ht. Qed.

(** ** Room in the table *)

Definition in_use (s : kstate) : list inode := filter (fun ip => 0 < i_ref ip) (k_itable s).
Definition nused (s : kstate) : nat := length (in_use s).

Lemma free_entry_exists s : it_wf s -> (nused s < NINODE)%nat -> is_Some (free_entry s).
Proof.
  intros Hwf Hlt. destruct (free_entry s) as [i|] eqn:Hf; [eauto|exfalso].
  assert (Hall : Forall (fun ip => 0 < i_ref ip) (k_itable s)).
  { apply Forall_lookup. intros i ip Hi. pose proof (find_entry_None _ _ _ _ (it_len _ Hwf) Hf Hi) as Hz. simpl in Hz.
    pose proof (it_ref _ Hwf _ _ Hi). lia. }
  unfold nused, in_use in Hlt. rewrite list_filter_all in Hlt by done. rewrite (it_len _ Hwf) in Hlt. lia.
Qed.

Lemma in_use_spec V lk s n : icache V lk s -> n ∈ i_inum <$> in_use s <-> 0 < iref s n.
Proof.
  intros Hic. pose proof (ic_wf _ _ _ Hic) as Hwf. rewrite list_elem_of_fmap. unfold in_use. setoid_rewrite list_elem_of_filter. split.
  - intros (ip & -> & Href & Hin). apply list_elem_of_lookup in Hin as [i Hi].
    rewrite (iref_entry _ i ip); [done|done|done|]. apply holds_inode_spec. split_and!; [done|by eapply ic_dev|done].
  - intros Hpos. destruct (iref_cases s n Hwf) as [(i & ip & Hi & Hh & _)|[E _]]; [|lia].
    apply holds_inode_spec in Hh as (H1 & H2 & H3). exists ip. split_and!; [done|done|]. by eapply list_elem_of_lookup_2.
Qed.

Lemma in_use_nodup V lk s : icache V lk s -> NoDup (i_inum <$> in_use s).
Proof.
  intros Hic. pose proof (ic_wf _ _ _ Hic) as Hwf. unfold in_use.
  assert (Hu : forall i j ip jp, k_itable s !! i = Some ip -> k_itable s !! j = Some jp -> 0 < i_ref ip -> 0 < i_ref jp ->
    i_inum ip = i_inum jp -> i = j).
  { intros i j ip jp Hi Hj H1 H2 E. apply (it_uniq _ Hwf i j ip jp dev (i_inum ip)); [done|done|..]; apply holds_inode_spec;
      split_and!; (done || by eapply ic_dev). }
  clear -Hu. induction (k_itable s) as [|x T IH]; [by constructor|].
  assert (HT : NoDup (i_inum <$> filter (fun ip => 0 < i_ref ip) T)).
  { apply IH. intros i j ip jp Hi Hj H1 H2 E. pose proof (Hu (S i) (S j) ip jp Hi Hj H1 H2 E). lia. }
  rewrite filter_cons. case_decide as Hx; [|done]. rewrite fmap_cons. constructor; [|done].
  intros (y & E & (Hy & [j Hj]%list_elem_of_lookup)%list_elem_of_filter)%list_elem_of_fmap.
  pose proof (Hu O (S j) x y eq_refl Hj Hx Hy E). lia.
Qed.

(** How many entries are in use depends on the references alone. *)
Lemma nused_mono V V' lk lk' s s' (E : list Z) :
  icache V lk s -> icache V' lk' s' -> (forall n, 0 < iref s' n -> 0 < iref s n \/ n ∈ E) -> (nused s' <= nused s + length E)%nat.
Proof.
  intros H H' Hsub. unfold nused. rewrite <- (length_fmap i_inum), <- (length_fmap i_inum (in_use s)), <- length_app.
  apply submseteq_length, NoDup_submseteq; [by eapply in_use_nodup|]. intros n Hn. apply elem_of_app.
  rewrite (in_use_spec V lk s) by done. rewrite (in_use_spec V' lk' s') in Hn by done. by apply Hsub.
Qed.

(** ** Changing one entry *)

(** A change of an entry in use that keeps its inode. *)
Lemma icache_update V lk lk' s s' i ip ip' :
  icache V lk s -> k_itable s !! i = Some ip -> k_itable s' = <[i := ip']> (k_itable s) -> k_sb s' = k_sb s ->
  0 < i_ref ip -> 0 <= i_ref ip' -> i_dev ip' = i_dev ip -> i_inum ip' = i_inum ip ->
  (i_valid ip' = true -> inode_dinode ip' = disk_inode (k_sb s) V (i_inum ip)) ->
  (forall j, j <> i -> lk' = Some j <-> lk = Some j) ->
  (if decide (lk' = Some i) then i_lock ip' = mkSlock true (p_pid pp) /\ 0 < i_ref ip' /\ i_valid ip' = true
   else sl_locked (i_lock ip') = false) ->
  icache V lk' s'.
Proof.
  intros [Hwf Hdev Hcoh Hlk Hlkd] Hi Ht Hsb Hr Hr' Hd Hn Hv Ho Hlk'.
  pose proof (lookup_lt_Some _ _ _ Hi) as Hlt.
  assert (Hlook : forall j jp, k_itable s' !! j = Some jp -> (j = i /\ jp = ip') \/ (j <> i /\ k_itable s !! j = Some jp)).
  { intros j jp Hj. rewrite Ht in Hj. destruct (decide (j = i)) as [->|]; [left|right].
    - rewrite list_lookup_insert_eq in Hj by done. by injection Hj as ->.
    - by rewrite list_lookup_insert_ne in Hj. }
  constructor.
  - constructor.
    + rewrite Ht, length_insert. apply Hwf.
    + intros j jp Hj. destruct (Hlook _ _ Hj) as [[-> ->]|[? ?]]; [done|by eapply it_ref].
    + assert (Hh : forall j jp d n, k_itable s' !! j = Some jp -> holds_inode d n jp = true ->
        exists jp0, k_itable s !! j = Some jp0 /\ holds_inode d n jp0 = true).
      { intros j jp d n Hj Hh. destruct (Hlook _ _ Hj) as [[-> ->]|[? ?]]; [|eauto]. exists ip. split; [done|].
        apply holds_inode_spec in Hh as (? & ? & ?). apply holds_inode_spec. split_and!; [done|congruence..]. }
      intros j k jp kp d n Hj Hk Hhj Hhk. destruct (Hh _ _ _ _ Hj Hhj) as (? & ? & ?), (Hh _ _ _ _ Hk Hhk) as (? & ? & ?).
      by eapply (it_uniq _ Hwf).
  - intros j jp Hj Hrj. destruct (Hlook _ _ Hj) as [[-> ->]|[? ?]]; [rewrite Hd; by eapply Hdev|by eapply Hdev].
  - intros j jp Hj Hrj Hvj. rewrite Hsb. destruct (Hlook _ _ Hj) as [[-> ->]|[? ?]]; [rewrite Hn; by apply Hv|by eapply Hcoh].
  - intros j jp Hj. destruct (Hlook _ _ Hj) as [[-> ->]|[Hne Hj0]].
    + case_decide; [apply Hlk'|done].
    + specialize (Hlk _ _ Hj0). specialize (Ho j Hne). destruct (decide (lk = Some j)), (decide (lk' = Some j)); done || tauto.
  - intros j Hj. destruct (decide (j = i)) as [->|Hne].
    + rewrite decide_True in Hlk' by done. exists ip'. rewrite Ht, list_lookup_insert_eq by done. split; [done|]. apply Hlk'.
    + apply (Ho j Hne) in Hj. destruct (Hlkd j Hj) as (jp & Hjp & ?). exists jp. by rewrite Ht, list_lookup_insert_ne.
Qed.

(** A free entry is recycled. *)
Lemma icache_recycle V lk s i ip n :
  icache V lk s -> k_itable s !! i = Some ip -> i_ref ip = 0 -> iref s n = 0 ->
  icache V lk (set_k_itable (<[i := fresh_inode dev n ip]> (k_itable s)) s).
Proof.
  intros Hic Hi Hz Hno. pose proof Hic as [Hwf Hdev Hcoh Hlk Hlkd]. pose proof (lookup_lt_Some _ _ _ Hi) as Hlt.
  assert (Hnone : forall j jp, k_itable s !! j = Some jp -> holds_inode dev n jp = false).
  { destruct (iref_cases s n Hwf) as [(? & ? & _ & _ & _ & ?)|[_ H]]; [lia|exact H]. }
  assert (Hlook : forall j jp, <[i := fresh_inode dev n ip]> (k_itable s) !! j = Some jp ->
    (j = i /\ jp = fresh_inode dev n ip) \/ (j <> i /\ k_itable s !! j = Some jp)).
  { intros j jp Hj. destruct (decide (j = i)) as [->|]; [left|right].
    - rewrite list_lookup_insert_eq in Hj by done. by injection Hj as <-.
    - by rewrite list_lookup_insert_ne in Hj. }
  constructor.
  - apply it_wf_insert; [done|simpl; lia|]. intros d m j jp (_ & Hd & Hn)%holds_inode_spec Hne Hj.
    simpl in Hd, Hn. subst. by eapply Hnone.
  - intros j jp Hj Hr. destruct (Hlook _ _ Hj) as [[-> ->]|[? ?]]; [done|by eapply Hdev].
  - intros j jp Hj Hr Hv. destruct (Hlook _ _ Hj) as [[-> ->]|[? ?]]; [done|by eapply Hcoh].
  - intros j jp Hj. destruct (Hlook _ _ Hj) as [[-> ->]|[_ Hj0]]; [exact (Hlk i ip Hi)|exact (Hlk j jp Hj0)].
  - intros j Hj. destruct (Hlkd j Hj) as (jp & Hjp & Hr & Hv). exists jp. split; [|done]. simpl.
    rewrite list_lookup_insert_ne; [done|]. intros ->. rewrite Hjp in Hi. injection Hi as ->. lia.
Qed.

(** ** The operations *)

Lemma entry_other V lk s s' i ip ip' n j :
  icache V lk s -> k_itable s !! i = Some ip -> k_itable s' = <[i := ip']> (k_itable s) ->
  i_dev ip' = i_dev ip -> i_inum ip' = i_inum ip -> (0 < i_ref ip -> 0 < i_ref ip') -> entry n j s -> entry n j s'.
Proof.
  intros Hic Hi Ht Hd Hn Hr (jp & Hj & Hh). destruct (decide (j = i)) as [->|].
  - exists ip'. rewrite Ht, list_lookup_insert_eq by (by eapply lookup_lt_Some). split; [done|].
    assert (jp = ip) as -> by congruence. apply holds_inode_spec in Hh as (? & ? & ?). apply holds_inode_spec. split_and!; [auto|congruence..].
  - exists jp. by rewrite Ht, list_lookup_insert_ne.
Qed.

(** One more, or one fewer, reference to an inode in use. *)
Lemma icache_ref V lk s i ip n d :
  icache V lk s -> k_itable s !! i = Some ip -> holds_inode dev n ip = true -> 0 <= i_ref ip + d -> (0 < i_ref ip + d \/ lk <> Some i) ->
  let s' := set_k_itable (<[i := set_i_ref (i_ref ip + d) ip]> (k_itable s)) s in
  icache V lk s' /\ forall m, iref s' m = iref s m + if decide (m = n) then d else 0.
Proof.
  intros Hic Hi Hm Hpos Hlk s'. pose proof (proj1 (holds_inode_spec _ _ _) Hm) as (Hr & Hd & Hn).
  assert (Hic' : icache V lk s').
  { apply (icache_update V lk lk s s' i ip (set_i_ref (i_ref ip + d) ip)); try done; [intros Hv; exact (ic_coh _ _ _ Hic i ip Hi Hr Hv)|].
    pose proof (ic_lock _ _ _ Hic i ip Hi) as Hl. destruct (decide (lk = Some i)) as [E|E]; [|done].
    destruct (ic_locked _ _ _ Hic i E) as (ip0 & Hi0 & _ & Hv). rewrite Hi in Hi0. injection Hi0 as <-.
    split_and!; [done| |done]. destruct Hlk; [done|congruence]. }
  split; [done|]. intros m. rewrite (iref_update s s' i ip (set_i_ref (i_ref ip + d) ip)) by (done || apply Hic || apply Hic').
  destruct (holds_inode dev m ip) eqn:Hhm.
  - pose proof (proj1 (holds_inode_spec _ _ _) Hhm) as (_ & _ & E). rewrite decide_True by congruence.
    by rewrite (iref_entry s i ip m (ic_wf _ _ _ Hic) Hi Hhm).
  - rewrite decide_False; [lia|]. intros ->. congruence.
Qed.

Lemma iget_cache V lk s n :
  icache V lk s -> k_held s = [] -> 0 < iref s n \/ (nused s < NINODE)%nat ->
  returns (iget dev n s) (fun j s' => entry n j s' /\ icache V lk s' /\ (exists T, s' = set_k_itable T s) /\
    (forall m, iref s' m = iref s m + if decide (m = n) then 1 else 0) /\ forall m i, entry m i s -> entry m i s').
Proof.
  intros Hic Hh Hroom. pose proof (ic_wf _ _ _ Hic) as Hwf. rewrite iget_eq by (apply Hwf || (rewrite Hh; set_solver)).
  destruct (cached_entry s dev n) as [j|] eqn:Hc.
  - apply cached_entry_Some in Hc as (jp & Hj & Hm). rewrite Hj. pose proof (proj1 (holds_inode_spec _ _ _) Hm) as (Hr & Hd & Hn).
    pose proof (lookup_lt_Some _ _ _ Hj) as Hlt. destruct (icache_ref V lk s j jp n 1 Hic Hj Hm ltac:(lia) ltac:(lia)) as [Hic' Href].
    simpl. assert (Hent : forall m i, entry m i s -> entry m i (set_k_itable (<[j := set_i_ref (i_ref jp + 1) jp]> (k_itable s)) s)).
    { intros m i. eapply entry_other; [exact Hic|exact Hj|done|done|done|simpl; lia]. }
    split_and!; [|done|eauto|done|done]. apply Hent. by exists jp.
  - assert (Hz : iref s n = 0) by (unfold iref; by rewrite Hc). destruct Hroom as [?|Hroom]; [lia|].
    destruct (free_entry_exists s Hwf Hroom) as [j Hf]. rewrite Hf. apply free_entry_Some in Hf as (jp & Hj & Hrz). rewrite Hj.
    pose proof (lookup_lt_Some _ _ _ Hj) as Hlt. pose proof (icache_recycle V lk s j jp n Hic Hj Hrz Hz) as Hic'. simpl.
    split_and!; [|done|eauto| |].
    + exists (fresh_inode dev n jp). simpl. rewrite list_lookup_insert_eq by done. split; [done|]. by apply holds_inode_spec.
    + intros m. rewrite (iref_insert s _ j jp (fresh_inode dev n jp)) by (done || apply Hic'). unfold holds_inode. simpl. rewrite Hrz, Z.eqb_refl.
      simpl. destruct (Z.eqb_spec n m) as [->|]; [rewrite decide_True by done; lia|rewrite decide_False by congruence; lia].
    + intros m i (ip & Hi & Hm). exists ip. simpl. rewrite list_lookup_insert_ne; [done|]. intros ->.
      rewrite Hi in Hj. injection Hj as ->. apply holds_inode_spec in Hm. lia.
Qed.

Lemma loaded_fields l d ip :
  let ip' := set_i_lock l (set_i_valid true (load_dinode d ip)) in
  i_ref ip' = i_ref ip /\ i_dev ip' = i_dev ip /\ i_inum ip' = i_inum ip /\ i_valid ip' = true /\ inode_dinode ip' = d.
Proof. by destruct d. Qed.

(** ilock: the entry is locked, valid, and the inode is the one on disk. *)
Lemma ilock_cache V L blks s i n :
  op dev start V L blks p pp s -> icache V None s -> entry n i s -> L !! IBLOCK n (k_sb s) = None ->
  (size (dom L) + length blks < NBUF)%nat -> di_type (disk_inode (k_sb s) V n) <> 0 ->
  returns (ilock i s) (fun _ s' => op dev start V L blks p pp s' /\ in_frame s s' /\ icache V (Some i) s' /\
    (forall m, iref s' m = iref s m) /\ forall m j, entry m j s -> entry m j s').
Proof.
  intros Hop Hic (ip & Hi & Hm) HL Hroom Hty. pose proof (proj1 (holds_inode_spec _ _ _) Hm) as (Hr & Hd & Hn). subst n.
  pose proof (ic_lock _ _ _ Hic i ip Hi) as Hlk. rewrite decide_False in Hlk by done. pose proof (lookup_lt_Some _ _ _ Hi) as Hlt.
  eapply returns_mono; [apply (ilock_spec dev start p pp V L blks s i ip); try done; by right|]. cbn beta. intros _ s' (Hop' & F & Ht).
  set (ip' := set_i_lock _ _) in Ht.
  assert (Hsame : i_ref ip' = i_ref ip /\ i_dev ip' = i_dev ip /\ i_inum ip' = i_inum ip /\ i_valid ip' = true /\
    inode_dinode ip' = disk_inode (k_sb s) V (i_inum ip)).
  { unfold ip', loaded. destruct (i_valid ip) eqn:Hv.
    - split_and!; [done..|exact (ic_coh _ _ _ Hic i ip Hi Hr Hv)].
    - apply loaded_fields. }
  destruct Hsame as (E1 & E2 & E3 & E4 & E5).
  assert (Hic' : icache V (Some i) s').
  { apply (icache_update V None (Some i) s s' i ip ip'); try done; [by apply (if_sb _ _ F)|lia|..].
    - intros j Hj. split; congruence.
    - rewrite decide_True by done. split_and!; [done|lia|done]. }
  split_and!; [done|done|done| |].
  - intros m. rewrite (iref_update s s' i ip ip') by (done || lia || apply Hic || apply Hic').
    destruct (holds_inode dev m ip) eqn:Hhm; [|done]. rewrite (iref_entry s i ip m (ic_wf _ _ _ Hic) Hi Hhm). lia.
  - intros m j. eapply entry_other; [exact Hic|exact Hi|exact Ht|done|done|lia].
Qed.

(** What a locked entry holds. *)
Lemma locked_inode V s i n :
  icache V (Some i) s -> entry n i s ->
  exists ip, k_itable s !! i = Some ip /\ i_dev ip = dev /\ i_inum ip = n /\ 0 < i_ref ip /\
    i_lock ip = mkSlock true (p_pid pp) /\ inode_dinode ip = disk_inode (k_sb s) V n.
Proof.
  intros Hic (ip & Hi & (Hr & Hd & Hn)%holds_inode_spec). destruct (ic_locked _ _ _ Hic i eq_refl) as (ip0 & Hi0 & _ & Hv).
  assert (ip0 = ip) as -> by congruence. exists ip. pose proof (ic_lock _ _ _ Hic i ip Hi) as Hl. rewrite decide_True in Hl by done.
  split_and!; try done. rewrite <- Hn. exact (ic_coh _ _ _ Hic i ip Hi Hr Hv).
Qed.

Lemma iunlock_cache V L blks s i :
  op dev start V L blks p pp s -> icache V (Some i) s ->
  returns (iunlock i s) (fun _ s' => op dev start V L blks p pp s' /\ in_frame s s' /\ icache V None s' /\
    (forall m, iref s' m = iref s m) /\ forall m j, entry m j s -> entry m j s').
Proof.
  intros Hop Hic. destruct (ic_locked _ _ _ Hic i eq_refl) as (ip & Hi & Hr & Hv).
  pose proof (ic_lock _ _ _ Hic i ip Hi) as Hl. rewrite decide_True in Hl by done.
  pose proof (fs_run _ _ _ _ _ _ _ (op_fs _ _ _ _ _ _ _ _ Hop)) as Hrun. unfold iunlock. mred.
  rewrite (holdingsleep_eq (SInode i) (i_lock ip) p pp) by (done || (simpl; by rewrite Hi)). mred. rewrite (get_inode_eq _ _ _ Hi). mred.
  rewrite Hl. simpl. rewrite Z.eqb_refl. simpl. rewrite (proj2 (Z.ltb_ge _ _)) by lia.
  eapply returns_mono; [apply (releasesleep_spec (SInode i) (i_lock ip) p pp); [done|simpl; by rewrite Hi]|].
  cbn beta. intros _ s' [F Hrun']. unfold slk_put in F. rewrite Hi in F. set (ip' := set_i_lock _ ip) in F.
  set (s1 := set_k_itable _ s) in F. assert (Hop1 : op dev start V L blks p pp s1) by (by apply op_itable).
  destruct (op_sched _ _ _ _ _ _ _ _ _ Hop1 F Hrun') as [Hop' Fr].
  assert (Ht : k_itable s' = <[i := ip']> (k_itable s)) by (by rewrite (of_itable _ _ Fr)).
  assert (Hic' : icache V None s').
  { apply (icache_update V (Some i) None s s' i ip ip'); try done; [by rewrite (of_sb _ _ Fr)|simpl; lia|..].
    - intros _. exact (ic_coh _ _ _ Hic i ip Hi Hr Hv).
    - intros j Hj. split; congruence. }
  split_and!; [done| |done| |].
  - apply (in_frame_trans _ s1); [apply in_frame_itable|by apply op_in_frame].
  - intros m. rewrite (iref_update s s' i ip ip') by (done || (simpl; lia) || apply Hic || apply Hic').
    destruct (holds_inode dev m ip) eqn:Hhm; [|done]. by rewrite (iref_entry s i ip m (ic_wf _ _ _ Hic) Hi Hhm).
  - intros m j. by eapply entry_other; [exact Hic|exact Hi|exact Ht|..].
Qed.

(** iput of an inode with links drops the reference and nothing else. *)
Lemma iput_cache V L blks s i n :
  op dev start V L blks p pp s -> icache V None s -> entry n i s -> di_nlink (disk_inode (k_sb s) V n) <> 0 ->
  returns (iput i s) (fun _ s' => op dev start V L blks p pp s' /\ in_frame s s' /\ icache V None s' /\
    (forall m, iref s' m = iref s m - if decide (m = n) then 1 else 0) /\
    forall m j, entry m j s -> m <> n \/ 1 < iref s n -> entry m j s').
Proof.
  intros Hop Hic (ip & Hi & Hm) Hnl. pose proof (proj1 (holds_inode_spec _ _ _) Hm) as (Hr & Hd & Hn). pose proof (lookup_lt_Some _ _ _ Hi) as Hlt.
  pose proof (iref_entry s i ip n (ic_wf _ _ _ Hic) Hi Hm) as Eref.
  rewrite (iput_eq dev start p pp V L blks s i ip Hop Hi).
  2:{ destruct (i_valid ip) eqn:Hv; [|by rewrite andb_false_r]. pose proof (ic_coh _ _ _ Hic i ip Hi Hr Hv) as Hc.
      rewrite Hn in Hc. apply (f_equal di_nlink) in Hc. change (di_nlink (inode_dinode ip)) with (i_nlink ip) in Hc. rewrite (proj2 (Z.eqb_neq (i_nlink ip) 0)) by congruence. apply andb_false_r. }
  destruct (icache_ref V None s i ip n (-1) Hic Hi Hm ltac:(lia) ltac:(by right)) as [Hic' Href]. simpl.
  change (i_ref ip - 1) with (i_ref ip + -1). split_and!; [by apply op_itable|apply in_frame_itable|done| |].
  - intros m. rewrite Href. case_decide; lia.
  - intros m j (jp & Hj & Hh) Hne. destruct (decide (j = i)) as [->|].
    + assert (jp = ip) as -> by congruence. exists (set_i_ref (i_ref ip + -1) ip). simpl. rewrite list_lookup_insert_eq by done. split; [done|].
      apply holds_inode_spec in Hh as (? & ? & ?). apply holds_inode_spec. simpl. split_and!; [|done|done].
      destruct Hne as [Hne|Hne]; [congruence|lia].
    + exists jp. simpl. by rewrite list_lookup_insert_ne.
Qed.

Lemma iunlockput_cache V L blks s i n :
  op dev start V L blks p pp s -> icache V (Some i) s -> entry n i s -> di_nlink (disk_inode (k_sb s) V n) <> 0 ->
  returns (iunlockput i s) (fun _ s' => op dev start V L blks p pp s' /\ in_frame s s' /\ icache V None s' /\
    (forall m, iref s' m = iref s m - if decide (m = n) then 1 else 0) /\
    forall m j, entry m j s -> m <> n \/ 1 < iref s n -> entry m j s').
Proof.
  intros Hop Hic Hent Hnl. unfold iunlockput. mred. eapply returns_obind, returns_mono; [by apply iunlock_cache|].
  cbn beta. intros _ s1 (Hop1 & F1 & Hic1 & Hr1 & He1).
  eapply returns_mono; [apply (iput_cache V L blks s1 i n Hop1 Hic1 (He1 _ _ Hent)); by rewrite (if_sb _ _ F1)|].
  cbn beta. intros _ s2 (Hop2 & F2 & Hic2 & Hr2 & He2). split_and!; [done|by eapply in_frame_trans|done| |].
  - intros m. by rewrite Hr2, Hr1.
  - intros m j Hm Hc. apply He2; [by apply He1|]. by rewrite Hr1.
Qed.

Lemma idup_cache V s i n :
  icache V None s -> k_held s = [] -> entry n i s ->
  returns (idup i s) (fun j s' => j = i /\ icache V None s' /\ (exists T, s' = set_k_itable T s) /\
    (forall m, iref s' m = iref s m + if decide (m = n) then 1 else 0) /\ forall m j, entry m j s -> entry m j s').
Proof.
  intros Hic Hh (ip & Hi & Hm). pose proof (proj1 (holds_inode_spec _ _ _) Hm) as (Hr & Hd & Hn).
  unfold idup. mred. rewrite acquire_eq by (rewrite Hh; set_solver). mred. rewrite Hh.
  rewrite (upd_inode_eq _ _ ip) by done. mred. rewrite (release_eq _ _ []) by (done || set_solver). mred.
  destruct (icache_ref V None s i ip n 1 Hic Hi Hm ltac:(lia) ltac:(lia)) as [Hic' Href].
  set (s' := set_k_itable _ s) in Hic', Href. replace (set_k_held [] _) with s' by (unfold s'; destruct s; simpl in *; by subst).
  simpl. split_and!; [done|done|by eexists|done|]. intros m j. eapply entry_other; [exact Hic|exact Hi|done|done|done|simpl; lia].
Qed.
End icache.
