(* ===== verification/Dir.v ===== *)
(** * Directories

    dirlookup finds the first entry of a directory with the name asked for,
    as a search through the bytes of the file. *)

From S2P Require Import Prelude State Spinlock CString Sysargs Proc ReadyQueue Sleeplock Sleeping Bio BufferCache Log Wal Transaction Usercopy Fs Bitmap Inodes Truncate Content ReadWrite Icache.

(** ** Reading into kernel memory *)

Lemma read_frame_sb s s' : read_frame s s' -> k_sb s' = k_sb s.
Proof. intros (m & f & r & F). by rewrite F. Qed.
Lemma read_frame_log s s' : read_frame s s' -> k_log s' = k_log s.
Proof. intros (m & f & r & F). by rewrite F. Qed.
Lemma read_write_frame s s' : read_frame s s' -> write_frame s s'.
Proof. intros (m & f & r & F). exists m, f, r. by apply op_in_frame, bio_op_frame. Qed.

Definition at_kernel (dst : Z) (bs : list Z) (s : kstate) : Prop :=
  Z.of_nat (length bs) <= 2 ^ 20 -> mem_read (k_mem s) dst (length bs) = bs.

Section kernel_read.
  Context `{UC : UserCopy} (dev start : Z) (V : Z -> list Z) (L : gmap Z nat) (blks : list Z) (p : nat) (pp : proc).

Lemma at_kernel_same dst bs s s' : same_user s s' -> at_kernel dst bs s -> at_kernel dst bs s'.
Proof. intros (Hm & _) H. unfold at_kernel. by rewrite Hm. Qed.

Lemma at_kernel_copyout dst bs d s :
  0 <= dst < 2 ^ 63 -> at_kernel dst bs s ->
  returns (either_copyout false (u64 (dst + Z.of_nat (length bs))) d s) (fun r s' => r = 0 /\ at_kernel dst (bs ++ d) s').
Proof.
  intros Hd H. unfold either_copyout, kwrite. mred. simpl. split; [done|]. intros Hl. rewrite length_app in *.
  unfold at_kernel in H. change (2 ^ 20) with 1048576 in *. change (2 ^ 63) with 9223372036854775808 in Hd.
  unfold u64. rewrite Z.mod_small by (change (2 ^ 64) with 18446744073709551616; lia).
  cbn [k_mem set_k_mem]. rewrite mem_read_app, mem_read_write_same. f_equal.
  rewrite mem_read_write_disjoint by lia. apply H. lia.
Qed.

(** readi of [n] bytes that are there, to a kernel address. *)
Lemma readi_kernel i ip dst off n s :
  op dev start V L blks p pp s -> k_itable s !! i = Some ip -> file_readable dev V L ip (i_size ip) ->
  (size (dom L) + length blks < NBUF)%nat -> 0 <= dst < 2 ^ 63 -> 0 <= off -> 0 <= n <= 2 ^ 20 -> 0 <= i_size ip ->
  off <= i_size ip ->
  let k := Z.min n (i_size ip - off) in
  returns (readi i false dst off n s) (fun r s' => r = k /\ mem_read (k_mem s') dst (Z.to_nat k) = file_bytes V ip off k /\
    op dev start V L blks p pp s' /\ read_frame s s').
Proof.
  intros Hop Hi Hra Hroom Hd Hoff Hn Hsz Hle k. pose proof (ra_max _ _ _ _ _ Hra) as Hmax. change (MAXFILE * BSIZE) with 274432 in Hmax.
  change (2 ^ 63) with 9223372036854775808 in Hd. change (2 ^ 20) with 1048576 in Hn.
  assert (Hrm : (size (dom L ∪ list_to_set blks : gset Z) < NBUF)%nat).
  { pose proof (op_room dev start p pp V L blks s Hop). lia. }
  eapply returns_mono.
  - apply (readi_spec dev V L (list_to_set blks) p pp false dst (at_kernel dst)
      (at_kernel_same dst) (fun bs d s _ => at_kernel_copyout dst bs d s ltac:(done)) i ip off n s);
      try done; [apply Hop|change (2 ^ 32) with 4294967296; lia..|].
    change (2 ^ 64) with 18446744073709551616. lia.
  - cbn beta. intros r s' (-> & HD & Hfs & F). rewrite (proj2 (Z.ltb_lt _ _)) in * by (change (2 ^ 32) with 4294967296; lia).
    rewrite Z.max_r in * by lia. fold k in HD |- *.
    assert (Hlen : length (file_bytes V ip off k) = Z.to_nat k) by (unfold file_bytes; rewrite length_fmap, length_zrange; f_equal; lia).
    split_and!; [done| | |done].
    + rewrite <- Hlen. apply HD. rewrite Hlen. change (2 ^ 20) with 1048576. lia.
    + destruct Hop as [_ H1 H2]. constructor; [done|..]; by rewrite (read_frame_log _ _ F).
Qed.
End kernel_read.

(** ** Searching a directory *)

(** The entry [de] is in use and has the name [name], of at most DIRSIZ
    bytes. *)
Definition is_named (name de : list Z) : bool :=
  negb (de_inum de =? 0) && bool_decide (name = cname (de_name de) (Z.to_nat DIRSIZ)).

Definition entry_at (V : Z -> list Z) (ip : inode) (off : Z) : list Z := file_bytes V ip off SIZEOF_DIRENT.

(** The offset of the first entry with the name. *)
Definition dir_find (V : Z -> list Z) (ip : inode) (name : list Z) : option Z :=
  List.find (fun off => is_named name (entry_at V ip off)) (zstep 0 (i_size ip) SIZEOF_DIRENT).

Record dir_ok (dev : Z) (V : Z -> list Z) (L : gmap Z nat) (ip : inode) : Prop := {
  do_type : i_type ip = T_DIR;
  do_readable : file_readable dev V L ip (i_size ip);
  do_size : 0 <= i_size ip;
  do_whole : i_size ip mod SIZEOF_DIRENT = 0;
}.

Lemma length_entry_at V ip off : length (entry_at V ip off) = 16%nat.
Proof. unfold entry_at, file_bytes, SIZEOF_DIRENT. rewrite length_fmap, length_zrange. lia. Qed.

(** namecmp of a name and an entry decides equality. *)
Lemma namecmp_eq name de s :
  readable name (Z.to_nat DIRSIZ) -> length de = 16%nat ->
  exists r, namecmp name (de_name de) s = Ret r s /\ (r =? 0) = bool_decide (cname name (Z.to_nat DIRSIZ) = cname (de_name de) (Z.to_nat DIRSIZ)).
Proof.
  intros Hn Hd. assert (Hr : readable (de_name de) (Z.to_nat DIRSIZ))
    by (apply readable_length; unfold de_name, DIRSIZ; rewrite length_drop; lia).
  destruct (strncmp_total _ _ _ Hn Hr) as [r E]. exists r. unfold namecmp. rewrite E. split; [done|].
  apply strncmp_eq_iff in E. case_bool_decide as Hb; [by rewrite (proj2 E Hb)|]. apply Z.eqb_neq. tauto.
Qed.

Section dirlookup.
  Context `{UC : UserCopy} (dev start : Z) (V : Z -> list Z) (L : gmap Z nat) (blks : list Z) (p : nat) (pp : proc).

Lemma read_dirent_spec i ip loc off msg s :
  op dev start V L blks p pp s -> k_itable s !! i = Some ip -> dir_ok dev V L ip -> (size (dom L) + length blks < NBUF)%nat ->
  0 <= loc < 2 ^ 63 -> 0 <= off < i_size ip -> off mod SIZEOF_DIRENT = 0 ->
  returns (read_dirent i loc off msg s) (fun de s' =>
    de = entry_at V ip off /\ op dev start V L blks p pp s' /\ read_frame s s').
Proof.
  intros Hop Hi [Hty Hra Hsz Hw] Hroom Hloc Hoff Hmod. unfold read_dirent. mred.
  assert (Hfit : off + SIZEOF_DIRENT <= i_size ip).
  { unfold SIZEOF_DIRENT in *. apply Z.mod_divide in Hmod as [a ->], Hw as [b Hb]; lia. }
  eapply returns_obind, returns_mono; [apply (readi_kernel dev start V L blks p pp i ip loc off SIZEOF_DIRENT s); try done; unfold SIZEOF_DIRENT in *; lia|].
  cbn beta. rewrite Z.min_l by lia. intros r s1 (-> & Hm & Hop1 & F). rewrite Z.eqb_refl. unfold kread. mred. simpl. by rewrite Hm.
Qed.

(** dirlookup: the first entry with the name, if any, and its inode. *)
Lemma dirlookup_spec i ip lk name s :
  op dev start V L blks p pp s -> icache dev pp V lk s -> k_itable s !! i = Some ip -> dir_ok dev V L ip ->
  (size (dom L) + length blks < NBUF)%nat -> readable name (Z.to_nat DIRSIZ) -> i_dev ip = dev ->
  (forall off, dir_find V ip (cname name (Z.to_nat DIRSIZ)) = Some off -> 0 < iref dev s (de_inum (entry_at V ip off)) \/ (nused s < NINODE)%nat) ->
  returns (dirlookup i name s) (fun r s' => op dev start V L blks p pp s' /\ write_frame s s' /\ icache dev pp V lk s' /\
    (forall m j, entry dev m j s -> entry dev m j s') /\
    match dir_find V ip (cname name (Z.to_nat DIRSIZ)) with
    | None => r = None /\ forall m, iref dev s' m = iref dev s m
    | Some off => exists j, r = Some (j, off) /\ entry dev (de_inum (entry_at V ip off)) j s' /\
        forall m, iref dev s' m = iref dev s m + if decide (m = de_inum (entry_at V ip off)) then 1 else 0
    end).
Proof.
  intros Hop Hic Hi Hdir Hroom Hname Hdev Hfree. unfold dirlookup. mred. rewrite (get_inode_eq _ _ _ Hi). mred.
  rewrite (do_type _ _ _ _ Hdir). simpl.
  apply (forl_zstep (fun x s1 => op dev start V L blks p pp s1 /\ read_frame s s1 /\
    List.find (fun off => is_named (cname name (Z.to_nat DIRSIZ)) (entry_at V ip off)) (zstep x (i_size ip) SIZEOF_DIRENT) = dir_find V ip (cname name (Z.to_nat DIRSIZ)))).
  - done.
  - split_and!; [done|apply bio_read_frame, bio_frame_refl|done].
  - intros x s' Hx Hm Hle (Hop' & F & Hf). rewrite zstep_nil in Hf by (done || lia). simpl in Hf. rewrite <- Hf.
    assert (Ht : k_itable s' = k_itable s) by (by apply read_frame_itable).
    split_and!; [done|by apply read_write_frame|by eapply icache_ext; [..|exact (read_frame_sb _ _ F)]| | |].
    + intros m j. by apply entry_ext.
    + done.
    + intros m. by apply iref_ext.
  - intros x s1 Hx Hm (Hop1 & F & Hf). rewrite Z.sub_0_r in Hm. pose proof (read_frame_itable _ _ F) as Ht.
    rewrite zstep_cons in Hf by (done || lia). cbn [List.find] in Hf. mred.
    eapply returns_obind, returns_mono; [apply (read_dirent_spec i ip LOC_dirlookup_de x _ s1); try done; by rewrite Ht|].
    cbn beta. intros de s2 (-> & Hop2 & F2). pose proof (read_frame_trans _ _ _ F F2) as F02. pose proof (read_frame_itable _ _ F02) as Ht2.
    unfold is_named at 1 in Hf. destruct (de_inum (entry_at V ip x) =? 0) eqn:Ez; [simpl in *; by split_and!|].
    destruct (namecmp_eq name (entry_at V ip x) s2 Hname (length_entry_at V ip x)) as (r & Hc & Er). mred. rewrite Hc. mred. rewrite Er.
    simpl in Hf. case_bool_decide as Hb; [|simpl; by split_and!]. rewrite <- Hf in Hfree |- *. clear Hf.
    mred. rewrite (get_inode_eq s2 i ip) by (by rewrite Ht2). mred. rewrite Hdev. set (n := de_inum (entry_at V ip x)) in *.
    assert (Hic2 : icache dev pp V lk s2) by (by eapply icache_ext; [exact Hic|exact Ht2|exact (read_frame_sb _ _ F02)]).
    eapply returns_obind, returns_mono; [apply (iget_cache dev pp V lk s2 n Hic2)|].
    + apply (run_held _ _ _ _ (fs_run _ _ _ _ _ _ _ (op_fs _ _ _ _ _ _ _ _ Hop2))).
    + unfold nused, in_use. rewrite (iref_ext dev s s2 n Ht2), Ht2. by apply Hfree.
    + cbn beta. intros j s3 (Hent & Hic3 & [T ->] & Href & Hpres). mred. simpl. split_and!; [by apply op_itable| |done| |].
      * eapply write_frame_trans; [by apply read_write_frame|]. apply in_write_frame, in_frame_itable.
      * intros m k Hm'. apply Hpres. by eapply entry_ext.
      * exists j. split_and!; [done|done|]. intros m. rewrite Href. by rewrite (iref_ext dev s s2 m Ht2).
Qed.
End dirlookup.
