(* ===== verification/Namei.v ===== *)
(** * Path names

    namei and nameiparent against the walk through the directory tree on disk:
    the inode they return is the one the path leads to, and on every path,
    failing ones included, no reference is lost or kept beyond it. *)

From S2P Require Import Prelude State Spinlock CString Sysargs Proc ReadyQueue Sleeplock Sleeping Bio BufferCache Log Wal Transaction Usercopy Fs Bitmap Inodes Truncate Content ReadWrite Icache Dir Path.

(** ** The reference *)

Section tree.
  Context (dev : Z) (sb : superblock) (V : Z -> list Z) (L : gmap Z nat).

(** Inode [n] as ilock loads it. *)
Definition node (n : Z) : inode := load_dinode (disk_inode sb V n) (set_i_inum n (set_i_dev dev zero_inode)).

(** The inode the directory [n] has under [name]. *)
Definition child (n : Z) (name : list Z) : option Z :=
  off ← dir_find V (node n) name; Some (de_inum (entry_at V (node n) off)).

(** Following the elements of a path from inode [n]; with [parent], up to
    the directory of the last one. *)
Fixpoint resolve (parent : bool) (n : Z) (elems : list (list Z)) : option Z :=
  match elems with
  | [] => if parent then None else Some n
  | e :: es =>
      if negb (i_type (node n) =? T_DIR) then None
      else if parent && bool_decide (es = []) then Some n
      else n' ← child n (take (Z.to_nat DIRSIZ) e); resolve parent n' es
  end.

(** [live] is a set of inodes in use: their types and link counts are not 0,
    and the entries of directories among them lead to others. *)
Record tree_ok (live : Z -> Prop) : Prop := {
  tr_type n : live n -> di_type (disk_inode sb V n) <> 0;
  tr_nlink n : live n -> di_nlink (disk_inode sb V n) <> 0;
  tr_block n : live n -> L !! IBLOCK n sb = None;
  tr_dir n : live n -> i_type (node n) = T_DIR -> dir_ok dev V L (node n);
  tr_child n name n' : live n -> i_type (node n) = T_DIR -> child n name = Some n' -> live n';
}.

Lemma node_fields n : i_dev (node n) = dev /\ i_inum (node n) = n.
Proof. done. Qed.

Lemma node_dinode n : inode_dinode (node n) = disk_inode sb V n.
Proof. apply inode_dinode_load. Qed.
End tree.

(** The contents of a file depend on its size and addresses only. *)
Lemma blk_addr_same V ip ip' bn : i_addrs ip' = i_addrs ip -> blk_addr V ip' bn = blk_addr V ip bn.
Proof. intros H. unfold blk_addr, indirect. by rewrite H. Qed.

Lemma entry_at_same V ip ip' off : i_addrs ip' = i_addrs ip -> entry_at V ip' off = entry_at V ip off.
Proof. intros H. unfold entry_at, file_bytes. apply list_fmap_ext. intros _ o _. unfold byte_at. by rewrite (blk_addr_same V ip ip'). Qed.

Lemma dir_find_same V ip ip' name : i_size ip' = i_size ip -> i_addrs ip' = i_addrs ip -> dir_find V ip' name = dir_find V ip name.
Proof.
  intros Hs Ha. unfold dir_find. rewrite Hs. generalize (zstep 0 (i_size ip) SIZEOF_DIRENT) as l.
  induction l as [|x l IH]; [done|]. simpl. by rewrite (entry_at_same V ip ip'), IH.
Qed.

Lemma file_readable_same dev V L ip ip' n :
  i_dev ip' = i_dev ip -> i_addrs ip' = i_addrs ip -> file_readable dev V L ip n -> file_readable dev V L ip' n.
Proof.
  intros Hd Ha [H1 H2 H3 H4 H5]. constructor; rewrite ?Hd, ?Ha; try done.
  - intros a Ho. apply H3. revert Ho. unfold owns, indirect. rewrite Ha. by setoid_rewrite (blk_addr_same V ip ip' _ Ha).
  - intros o Ho. rewrite (blk_addr_same V ip ip') by done. by apply H4.
Qed.

Lemma dir_ok_same dev V L ip ip' :
  i_dev ip' = i_dev ip -> inode_dinode ip' = inode_dinode ip -> dir_ok dev V L ip -> dir_ok dev V L ip'.
Proof.
  intros Hd E [H1 H2 H3 H4]. destruct ip, ip'. injection E as. simpl in *. subst. constructor; simpl in *; try done.
  eapply file_readable_same; [..|exact H2]; done.
Qed.

(** After skipelem the path is at its end exactly when no element is left. *)
Lemma path_end path :
  terminated path -> (forall c p, path = c :: p -> c <> SLASH) ->
  exists c p, path = c :: p /\ (c =? 0) = bool_decide (path_elems path = []).
Proof.
  intros Ht Hs. destruct path as [|c p]; [by apply not_elem_of_nil in Ht|]. exists c, p. split; [done|]. specialize (Hs c p eq_refl).
  unfold path_elems. simpl. destruct (Z.eqb_spec c 0) as [->|Hc]; [by rewrite bool_decide_true|]. rewrite bool_decide_false; [done|].
  simpl. rewrite (proj2 (Z.eqb_neq c SLASH)) by done. destruct (split_slash_cons (chars p)) as (e & es & ->).
  rewrite filter_cons_True by done. done.
Qed.

(** ** namex *)

Section namex.
  Context `{UC : UserCopy} (dev start : Z) (V : Z -> list Z) (L : gmap Z nat) (blks : list Z) (p : nat) (pp : proc).
  Context (s : kstate) (live : Z -> Prop).
  Context (Hic : icache dev pp V None s) (Htree : tree_ok dev (k_sb s) V L live).
  Context (Hbufs : (size (dom L) + length blks < NBUF)%nat) (Hroom : (nused s + 2 <= NINODE)%nat).

(** The walk has arrived with one reference, to inode [n] at entry [i]. *)
Record arrived (s1 : kstate) (i : nat) (n : Z) : Prop := {
  ar_op : op dev start V L blks p pp s1;
  ar_frame : write_frame s s1;
  ar_ic : icache dev pp V None s1;
  ar_entry : entry dev n i s1;
  ar_ref m : iref dev s1 m = iref dev s m + if decide (m = n) then 1 else 0;
  ar_keep m j : entry dev m j s -> entry dev m j s1;
}.

(** The walk has ended with a reference to the result alone, or with none. *)
Definition ended (o : option Z) (r : option nat) (s1 : kstate) : Prop :=
  match o with
  | Some n => exists i, r = Some i /\ arrived s1 i n
  | None => r = None /\ op dev start V L blks p pp s1 /\ write_frame s s1 /\ icache dev pp V None s1 /\
      (forall m, iref dev s1 m = iref dev s m) /\ forall m j, entry dev m j s -> entry dev m j s1
  end.

Lemma arrived_sb s1 i n : arrived s1 i n -> k_sb s1 = k_sb s.
Proof. intros H. apply write_frame_sb, (ar_frame _ _ _ H). Qed.

Lemma arrived_room s1 i n : arrived s1 i n -> (nused s1 < NINODE)%nat.
Proof using Type*.
  intros [_ _ Hi1 _ Hr _]. pose proof (nused_mono dev pp V V None None s s1 [n] Hic Hi1) as H. simpl in H.
  enough (nused s1 <= nused s + 1)%nat by lia. apply H. intros m Hm. rewrite Hr in Hm.
  destruct (decide (m = n)) as [->|]; [right; set_solver|left; lia].
Qed.

(** The references the walk started with outlive the one it drops. *)
Lemma keep_entries s1 s3 s4 i n :
  arrived s1 i n -> (forall m j, entry dev m j s1 -> entry dev m j s3) -> (iref dev s1 n <= iref dev s3 n) ->
  (forall m j, entry dev m j s3 -> m <> n \/ 1 < iref dev s3 n -> entry dev m j s4) ->
  forall m j, entry dev m j s -> entry dev m j s4.
Proof using Hic.
  intros Ha H13 Hle H34 m j Hm. apply H34; [by apply H13, (ar_keep _ _ _ Ha)|]. destruct (decide (m = n)) as [->|]; [right|by left].
  pose proof (entry_iref dev s j n (ic_wf _ _ _ _ _ Hic) Hm) as Hp. rewrite (ar_ref _ _ _ Ha), decide_True in Hle by done.
  clear - Hle Hp. lia.
Qed.

(** Dropping the reference ends a failed walk. *)
Lemma drop_ref s1 s2 i n :
  arrived s1 i n -> op dev start V L blks p pp s2 -> write_frame s1 s2 -> icache dev pp V None s2 ->
  (forall m, iref dev s2 m = iref dev s1 m - if decide (m = n) then 1 else 0) ->
  (forall m j, entry dev m j s -> entry dev m j s2) -> ended None None s2.
Proof.
  intros Ha Hop2 F2 Hic2 Hr2 Hk. split_and!; [done|done| |done| |done].
  - eapply write_frame_trans; [apply (ar_frame _ _ _ Ha)|done].
  - intros m. rewrite Hr2, (ar_ref _ _ _ Ha). apply Z.add_simpl_r.
Qed.

(** The inode as the walk finds it locked. *)
Lemma locked_node s1 s2 i n :
  arrived s1 i n -> k_sb s2 = k_sb s1 -> icache dev pp V (Some i) s2 -> entry dev n i s2 ->
  exists ip, k_itable s2 !! i = Some ip /\ i_dev ip = dev /\ inode_dinode ip = inode_dinode (node dev (k_sb s) V n).
Proof.
  intros Ha Hsb Hic2 Hent. destruct (locked_inode dev pp V s2 i n Hic2 Hent) as (ip & Hi & Hd & _ & _ & _ & E).
  exists ip. rewrite node_dinode, E, Hsb, (arrived_sb _ _ _ Ha). done.
Qed.

(** Looking the next element up and moving to it. *)
Lemma namex_next s1 s2 i n ip name :
  arrived s1 i n -> live n -> op dev start V L blks p pp s2 -> in_frame s1 s2 -> icache dev pp V (Some i) s2 -> entry dev n i s2 ->
  (forall m, iref dev s2 m = iref dev s1 m) -> (forall m j, entry dev m j s1 -> entry dev m j s2) ->
  k_itable s2 !! i = Some ip -> i_dev ip = dev ->
  inode_dinode ip = inode_dinode (node dev (k_sb s) V n) -> i_type ip = T_DIR -> readable name (Z.to_nat DIRSIZ) ->
  returns (dirlookup i name s2) (fun r s3 =>
    returns (iunlockput i s3) (fun _ s4 => match child dev (k_sb s) V n (cname name (Z.to_nat DIRSIZ)) with
      | Some n' => exists j off, r = Some (j, off) /\ arrived s4 j n'
      | None => r = None /\ ended None None s4
      end)).
Proof using Type*.
  intros Ha Hlive Hop2 F2 Hic2 Hent2 Hr2 He2 Hi Hd Edi Hty Hname. set (nd := node dev (k_sb s) V n) in *.
  assert (Ety : i_type nd = T_DIR) by (apply (f_equal di_type) in Edi; change (i_type ip = i_type nd) in Edi; congruence).
  assert (Esz : i_size nd = i_size ip) by (apply (f_equal di_size) in Edi; by symmetry).
  assert (Ead : i_addrs nd = i_addrs ip) by (apply (f_equal di_addrs) in Edi; by symmetry).
  pose proof (tr_dir _ _ _ _ _ Htree n Hlive Ety) as Hdir. apply (dir_ok_same _ _ _ nd ip Hd Edi) in Hdir.
  assert (Hsb2 : k_sb s2 = k_sb s) by (by rewrite (if_sb _ _ F2), (arrived_sb _ _ _ Ha)).
  eapply returns_mono; [apply (dirlookup_spec dev start V L blks p pp i ip (Some i) name s2); try done|].
  { intros off _. right. pose proof (nused_mono dev pp V V None (Some i) s1 s2 [] (ar_ic _ _ _ Ha) Hic2) as H. simpl in H.
    pose proof (arrived_room _ _ _ Ha). enough (nused s2 <= nused s1 + 0)%nat by lia. apply H. intros m. rewrite Hr2. by left. }
  cbn beta. intros r s3 (Hop3 & F3 & Hic3 & Hpres & Hr). pose proof (write_frame_sb _ _ F3) as Hsb3.
  eapply returns_mono; [apply (iunlockput_cache dev start p pp V L blks s3 i n Hop3 Hic3 (Hpres _ _ Hent2))|].
  { rewrite Hsb3, Hsb2. by apply (tr_nlink _ _ _ _ _ Htree). }
  cbn beta. intros _ s4 (Hop4 & F4 & Hic4 & Hr4 & He4).
  assert (F14 : write_frame s1 s4) by (eapply write_frame_trans; [by apply in_write_frame|]; eapply write_frame_trans; [exact F3|by apply in_write_frame]).
  assert (Hkeep : iref dev s2 n <= iref dev s3 n -> forall m j, entry dev m j s -> entry dev m j s4).
  { intros Hle. eapply (keep_entries s1 s3 s4 i n Ha); [by intros; apply Hpres, He2|by rewrite <- (Hr2 n)|exact He4]. }
  unfold child. fold nd. rewrite (dir_find_same V ip nd) by done. destruct (dir_find V ip _) as [off|]; simpl.
  - rewrite (entry_at_same V ip nd) by done. destruct Hr as (j & -> & Hej & Hr3). set (n' := de_inum _) in *. exists j, off. split; [done|].
    constructor; [done| |done| | |].
    + eapply write_frame_trans; [apply (ar_frame _ _ _ Ha)|done].
    + apply He4; [done|]. destruct (decide (n' = n)) as [E|]; [right|by left]. rewrite Hr3, Hr2, (ar_ref _ _ _ Ha), decide_True, decide_True by done.
      pose proof (iref_nonneg dev s n (ic_wf _ _ _ _ _ Hic)). lia.
    + intros m. rewrite Hr4, Hr3, Hr2, (ar_ref _ _ _ Ha). lia.
    + apply Hkeep. rewrite Hr3. case_decide; lia.
  - destruct Hr as [-> Hr3]. split; [done|]. eapply drop_ref; [exact Ha|done|done|done| |].
    + intros m. by rewrite Hr4, Hr3, Hr2.
    + apply Hkeep. by rewrite Hr3.
Qed.

(** One round of the loop: the walk ends, or moves on with less path left. *)
Lemma namex_step_spec parent s1 i n path name :
  arrived s1 i n -> live n -> terminated path -> length name = Z.to_nat DIRSIZ ->
  returns (namex_step parent (i, path, name) s1) (fun r s2 => match r with
    | inr (o, name') => ended (resolve dev (k_sb s) V parent n (path_elems path)) o s2 /\
        (parent = true -> o <> None -> exists e, path_elems path = [e] /\ cname name' (Z.to_nat DIRSIZ) = take (Z.to_nat DIRSIZ) e)
    | inl (i', path', name') => exists n' e, path_elems path = e :: path_elems path' /\ (parent = true -> path_elems path' <> []) /\
        arrived s2 i' n' /\ live n' /\ terminated path' /\ length name' = Z.to_nat DIRSIZ /\ (length path' < length path)%nat /\
        resolve dev (k_sb s) V parent n' (path_elems path') = resolve dev (k_sb s) V parent n (path_elems path)
    end).
Proof using Type*.
  intros Ha Hlive Hterm Hlen. pose proof (arrived_sb _ _ _ Ha) as Hsb. unfold namex_step. pose proof (skipelem_step path name Hterm Hlen) as Hsk.
  destruct (skipelem path name) as [[path' name']|].
  2:{ rewrite Hsk. destruct parent; mred; simpl; [|split; [|done]; by exists i].
      eapply returns_obind, returns_mono; [apply (iput_cache dev start p pp V L blks s1 i n); try apply Ha; rewrite Hsb; by apply (tr_nlink _ _ _ _ _ Htree)|].
      cbn beta. intros _ s2 (Hop2 & F2 & Hic2 & Hr2 & He2). simpl. split; [|done]. eapply drop_ref; [exact Ha|done|by apply in_write_frame|done|done|].
      eapply (keep_entries s1 s1 s2 i n Ha); done. }
  destruct Hsk as (e & He & Hnm & Hterm' & Hlen' & Hlt & Hns). mred.
  eapply returns_obind, returns_mono; [apply (ilock_cache dev start p pp V L blks s1 i n); try apply Ha; try done; rewrite Hsb; by apply Htree|].
  cbn beta. intros _ s2 (Hop2 & F2 & Hic2 & Hr2 & He2). pose proof (He2 _ _ (ar_entry _ _ _ Ha)) as Hent2.
  destruct (locked_node s1 s2 i n Ha (if_sb _ _ F2) Hic2 Hent2) as (ip & Hi & Hd & Edi).
  mred. rewrite (get_inode_eq _ _ _ Hi). mred.
  assert (Ety : i_type ip = i_type (node dev (k_sb s) V n)) by (apply (f_equal di_type) in Edi; exact Edi).
  assert (Hnl : di_nlink (disk_inode (k_sb s2) V n) <> 0) by (rewrite (if_sb _ _ F2), Hsb; by apply (tr_nlink _ _ _ _ _ Htree)).
  assert (Hfin : forall s3, op dev start V L blks p pp s3 -> in_frame s2 s3 -> icache dev pp V None s3 ->
    (forall m, iref dev s3 m = iref dev s2 m - if decide (m = n) then 1 else 0) ->
    (forall m j, entry dev m j s2 -> m <> n \/ 1 < iref dev s2 n -> entry dev m j s3) -> ended None None s3).
  { intros s3 Hop3 F3 Hic3 Hr3 He3. eapply drop_ref; [exact Ha|done| |done| |].
    - eapply write_frame_trans; by apply in_write_frame.
    - intros m. by rewrite Hr3, Hr2.
    - eapply (keep_entries s1 s2 s3 i n Ha); [done|by rewrite Hr2|done]. }
  rewrite He. cbn [resolve]. rewrite <- Ety. destruct (i_type ip =? T_DIR) eqn:Hdirb; cbn [negb].
  2:{ mred. eapply returns_obind, returns_mono; [by apply (iunlockput_cache dev start p pp V L blks s2 i n)|].
      cbn beta. intros _ s3 (Hop3 & F3 & Hic3 & Hr3 & He3). mred. simpl. split; [by apply Hfin|done]. }
  destruct (path_end path' Hterm' Hns) as (c & p' & Ep & Ec). rewrite Ep. simpl lookup. mred. rewrite <- Ep. rewrite Ec.
  destruct (parent && bool_decide (path_elems path' = [])) eqn:Hpar.
  { mred. eapply returns_obind, returns_mono; [by apply (iunlock_cache dev start p pp V L blks s2 i)|].
    cbn beta. intros _ s3 (Hop3 & F3 & Hic3 & Hr3 & He3). mred. simpl. split.
    - exists i. split; [done|]. constructor; [done| |done|by apply He3| |by intros m j Hm; apply He3, He2, (ar_keep _ _ _ Ha)].
      + eapply write_frame_trans; [apply (ar_frame _ _ _ Ha)|]. eapply write_frame_trans; by apply in_write_frame.
      + intros m. by rewrite Hr3, Hr2, (ar_ref _ _ _ Ha).
    - intros _ _. exists e. apply andb_true_iff in Hpar as [_ Hp%bool_decide_eq_true]. by rewrite Hp. }
  mred. eapply returns_obind, returns_mono; [eapply (namex_next s1 s2 i n ip name'); try done|].
  { by apply Z.eqb_eq. } { apply readable_length. lia. }
  cbn beta. rewrite Hnm. intros r s3 Hput. apply Z.eqb_eq in Hdirb. rewrite Ety in Hdirb.
  destruct (child dev (k_sb s) V n (take (Z.to_nat DIRSIZ) e)) as [n'|] eqn:Hch; cbn [mbind option_bind].
  - destruct r as [[j off]|]; mred; (eapply returns_obind, returns_mono; [exact Hput|]); cbn beta; [|by intros _ s4 (? & ? & ? & _)].
    intros _ s4 (j' & off' & [= -> ->] & Ha4). mred. simpl. exists n', e. split_and!; try done.
    + intros ->. simpl in Hpar. by apply bool_decide_eq_false in Hpar.
    + by eapply (tr_child _ _ _ _ _ Htree n).
  - destruct r as [[j off]|]; mred; (eapply returns_obind, returns_mono; [exact Hput|]); cbn beta; [by intros _ s4 [? _]|].
    intros _ s4 [_ He4]. mred. simpl. by split.
Qed.

(** Where the path starts: the root, or the current directory. *)
Definition starts_at (path : list Z) (n : Z) : Prop :=
  match path with
  | [] => False
  | c :: _ => if c =? SLASH then dev = ROOTDEV /\ n = ROOTINO else exists i, p_cwd pp = Some i /\ entry dev n i s
  end.

Context (Hop : op dev start V L blks p pp s).

Lemma namex_start path n :
  starts_at path n -> returns ((c ← deref (path !! O);
    if c =? SLASH then iget ROOTDEV ROOTINO
    else p ← myproc; pp ← get_proc p; cwd ← deref (p_cwd pp); idup cwd) s) (fun i s1 => arrived s1 i n).
Proof using Type*.
  intros Hst. destruct path as [|c path]; [done|]. simpl. pose proof (fs_run _ _ _ _ _ _ _ (op_fs _ _ _ _ _ _ _ _ Hop)) as Hrun.
  simpl in Hst. destruct (c =? SLASH).
  - destruct Hst as [Hd ->]. rewrite <- Hd.
    eapply returns_mono; [apply (iget_cache dev pp V None s ROOTINO Hic (run_held _ _ _ _ Hrun)); right; lia|].
    cbn beta. intros i s1 (He & Hi & [T ->] & Hr & Hk). constructor; [by apply op_itable|apply in_write_frame, in_frame_itable|done..].
  - destruct Hst as (ci & Hcwd & Hent). unfold myproc. mred. rewrite (run_cur _ _ _ _ Hrun). mred.
    rewrite (get_proc_eq _ p pp) by apply Hrun. mred. rewrite Hcwd. mred.
    eapply returns_mono; [apply (idup_cache dev pp V s ci n Hic (run_held _ _ _ _ Hrun) Hent)|].
    cbn beta. intros i s1 (-> & Hi & [T ->] & Hr & Hpres).
    constructor; [by apply op_itable|apply in_write_frame, in_frame_itable|done|by apply Hpres|done|done].
Qed.

Lemma namex_spec parent path name n :
  starts_at path n -> live n -> terminated path -> length name = Z.to_nat DIRSIZ ->
  returns (namex path parent name s) (fun r s' =>
    ended (resolve dev (k_sb s) V parent n (path_elems path)) r.1 s' /\
    (parent = true -> r.1 <> None -> exists e, last (path_elems path) = Some e /\ cname r.2 (Z.to_nat DIRSIZ) = take (Z.to_nat DIRSIZ) e)).
Proof using Type*.
  intros Hst Hlive Hterm Hlen. pose proof (namex_start path n Hst) as Hs0. unfold namex. mred. mred in Hs0.
  destruct (path !! O) as [c|]; [|done]. mred. mred in Hs0. eapply returns_obind, returns_mono; [exact Hs0|]. cbn beta. intros i s1 Ha.
  apply (loop_returns (fun x s2 => exists n', arrived s2 x.1.1 n' /\ live n' /\ terminated x.1.2 /\ length x.2 = Z.to_nat DIRSIZ /\
      resolve dev (k_sb s) V parent n' (path_elems x.1.2) = resolve dev (k_sb s) V parent n (path_elems path) /\
      (parent = true -> last (path_elems x.1.2) = last (path_elems path))) (fun x => length x.1.2)).
  - exists n. split_and!; done.
  - simpl. lia.
  - intros [[i1 path1] name1] s2 (n1 & Ha1 & Hl1 & Ht1 & Hn1 & Hw & Hlast). simpl in Ha1, Ht1, Hn1, Hw, Hlast.
    eapply returns_mono; [by apply (namex_step_spec parent s2 i1 n1 path1 name1)|]. cbn beta. intros [[[i2 path2] name2]|[o name2]] s3.
    + intros (n2 & e & E & Hp & Ha2 & Hl2 & Ht2 & Hn2 & Hlt & Hw2). simpl. split; [|lia]. exists n2. rewrite Hw2, Hw. split_and!; try done.
      intros Hpar. rewrite <- (Hlast Hpar), E. specialize (Hp Hpar). by destruct (path_elems path2).
    + intros [He Hname]. simpl. rewrite <- Hw. split; [done|]. intros Hpar Ho. destruct (Hname Hpar Ho) as (e & E & Hc).
      exists e. by rewrite <- (Hlast Hpar), E.
Qed.

(** C18. namei and nameiparent on any C string: namei returns the inode the path leads
    to on disk, from the root or the current directory, and 0 when an element is
    missing or something on the way is not a directory; nameiparent returns the
    directory of the last element, with that element, cut to DIRSIZ bytes, in
    name.  The result carries one new reference; every other reference count is
    as before on every path, failing ones included, nothing stays locked, and
    nothing on disk changes. *)
Theorem namei_resolves path n :
  starts_at path n -> live n -> terminated path ->
  returns (namei path s) (fun r s' => ended (resolve dev (k_sb s) V false n (path_elems path)) r s') /\
  returns (nameiparent path s) (fun r s' => ended (resolve dev (k_sb s) V true n (path_elems path)) r.1 s' /\
    (r.1 <> None -> exists e, last (path_elems path) = Some e /\ cname r.2 (Z.to_nat DIRSIZ) = take (Z.to_nat DIRSIZ) e)).
Proof using Type*.
  intros Hst Hl Ht. split.
  - unfold namei. mred. eapply returns_obind, returns_mono; [by apply (namex_spec false path new_name n)|]. cbn beta. intros r s' [H _]. done.
  - eapply returns_mono; [by apply (namex_spec true path new_name n)|]. cbn beta. intros r s' [H1 H2]. split; [done|]. by apply H2.
Qed.
End namex.

(** A walk stays among the inodes in use. *)
Lemma resolve_live dev sb V L live parent elems : forall n n',
  tree_ok dev sb V L live -> live n -> resolve dev sb V parent n elems = Some n' -> live n'.
Proof.
  induction elems as [|e es IH]; intros n n' Htree Hl Hw; cbn [resolve] in Hw; [destruct parent; congruence|].
  destruct (i_type (node dev sb V n) =? T_DIR) eqn:Ht; [|done]. apply Z.eqb_eq in Ht. cbn [negb] in Hw. destruct (parent && _); [congruence|].
  destruct (child dev sb V n _) as [n1|] eqn:Hc; [|done]. cbn [mbind option_bind] in Hw. eapply IH; [done| |done].
  by eapply (tr_child _ _ _ _ _ Htree n).
Qed.
