(* ===== verification/Mkfs.v ===== *)
(** * The tool that builds the disk image (mkfs/mkfs.c)

    The image is a map from the sectors of the file to their bytes; reading
    a sector past its end fails.  Integers in the image are little-endian: xint
    and xshort turn a host integer into one whose bytes in memory are in that
    order, so the bytes of a struct dinode whose fields went through them are
    those of [dinode_bytes].  The host's system calls succeed, and
    die() and a failed assert() are [Panic]. *)

From S2P Require Import Prelude State CString Sysargs Proc Sleeplock Bio Log Fs.

Definition NINODES : Z := 200.

Definition nbitmap : Z := FSSIZE / BPB + 1.
Definition ninodeblocks : Z := NINODES / IPB + 1.
Definition nlog : Z := LOGBLOCKS + 1.
Definition nmeta : Z := 2 + nlog + ninodeblocks + nbitmap.
Definition nblocks : Z := FSSIZE - nmeta.

(** The superblock main() fills in. *)
Definition mkfs_sb : superblock :=
  mkSuperblock FSMAGIC FSSIZE nblocks NINODES nlog 2 (2 + nlog) (2 + nlog + ninodeblocks).

Definition sb_bytes (sb : superblock) : list Z :=
  concat (le_bytes 4 <$> [sb_magic sb; sb_size sb; sb_nblocks sb; sb_ninodes sb; sb_nlog sb;
                          sb_logstart sb; sb_inodestart sb; sb_bmapstart sb]).

Record mkst := mkMk { mk_img : gmap Z (list Z); mk_freeinode : Z; mk_freeblock : Z }.

Definition wsect (sec : Z) (buf : list Z) : M mkst unit :=
  modify (fun s => mkMk (<[sec := buf]> (mk_img s)) (mk_freeinode s) (mk_freeblock s)).

Definition rsect (sec : Z) : M mkst (list Z) :=
  img ← gets mk_img;
  match img !! sec with Some buf => mret buf | None => panic "read" end.

Definition winode (inum : Z) (ip : dinode) : M mkst unit :=
  let bn := IBLOCK inum mkfs_sb in
  buf ← rsect bn;
  wsect bn (block_set_dinode buf inum ip).

Definition rinode (inum : Z) : M mkst dinode :=
  let bn := IBLOCK inum mkfs_sb in
  buf ← rsect bn;
  mret (block_dinode buf inum).

(** freeblock++ *)
Definition take_block : M mkst Z :=
  b ← gets mk_freeblock;
  modify (fun s => mkMk (mk_img s) (mk_freeinode s) (u32 (b + 1)));;
  mret b.

Definition ialloc (type : Z) : M mkst Z :=
  inum ← gets mk_freeinode;
  modify (fun s => mkMk (mk_img s) (u32 (inum + 1)) (mk_freeblock s));;
  winode inum (mkDinode type 0 0 1 0 (replicate 13 0));;
  mret inum.

(** Bits 0 .. used-1 of the bitmap. *)
Definition balloc (used : Z) : M mkst unit :=
  if negb (used <? BPB) then panic "assert used < BPB" else
  let buf := fold_left (fun buf i =>
               <[Z.to_nat (i / 8) := Z.lor (buf !!! Z.to_nat (i / 8)) (Z.shiftl 1 (i mod 8))]> buf)
               (zrange 0 used) zero_block in
  wsect (sb_bmapstart mkfs_sb) buf.

Definition set_di_addr (n : Z) (x : Z) (d : dinode) : dinode :=
  mkDinode (di_type d) (di_major d) (di_minor d) (di_nlink d) (di_size d) (<[Z.to_nat n := x]> (di_addrs d)).
Definition set_di_size (x : Z) (d : dinode) : dinode :=
  mkDinode (di_type d) (di_major d) (di_minor d) (di_nlink d) x (di_addrs d).

(** The sector of block [fbn] of the file, allocated if need be. *)
Definition file_sector (din : dinode) (fbn : Z) : M mkst (dinode * Z) :=
  if fbn <? NDIRECT then
    a ← deref (di_addrs din !! Z.to_nat fbn);
    if a =? 0 then b ← take_block; mret (set_di_addr fbn b din, b) else mret (din, a)
  else
    i ← deref (di_addrs din !! Z.to_nat NDIRECT);
    din ← (if i =? 0 then b ← take_block; mret (set_di_addr NDIRECT b din) else mret din);
    i ← deref (di_addrs din !! Z.to_nat NDIRECT);
    indirect ← rsect i;
    if ind_get indirect (fbn - NDIRECT) =? 0 then
      b ← take_block;
      wsect i (ind_set indirect (fbn - NDIRECT) b);;
      mret (din, b)
    else mret (din, ind_get indirect (fbn - NDIRECT)).

(** One iteration of the loop of iappend: [p] is what is left to append. *)
Definition iappend_step (x : dinode * Z * list Z) : M mkst (dinode * Z * list Z + dinode * Z) :=
  let '(din, off, p) := x in
  if (length p =? 0)%nat then mret (inr (din, off)) else
  let fbn := off / BSIZE in
  if negb (fbn <? MAXFILE) then panic "assert fbn < MAXFILE" else
  r ← file_sector din fbn;
  let '(din, sec) := r in
  let n1 := Z.min (Z.of_nat (length p)) ((fbn + 1) * BSIZE - off) in
  buf ← rsect sec;
  wsect sec (splice buf (Z.to_nat (off - fbn * BSIZE)) (take (Z.to_nat n1) p));;
  mret (inl (din, off + n1, drop (Z.to_nat n1) p)).

Definition iappend (inum : Z) (xs : list Z) : M mkst unit :=
  din ← rinode inum;
  r ← loop (S (length xs)) iappend_step (din, di_size din, xs);
  let '(din, off) := r in
  winode inum (set_di_size off din).

(** ** main *)

(** struct dirent with the name padded to DIRSIZ bytes. *)
Definition dirent_of (inum : Z) (name : list Z) : list Z :=
  mk_dirent inum (take (Z.to_nat DIRSIZ) (name ++ replicate (Z.to_nat DIRSIZ) 0)).

Definition user_prefix : list Z := [117; 115; 101; 114; 47].
Definition UNDERSCORE : Z := 95.

(** The name a file gets in the image: without "user/" and a leading _. *)
Definition drop_prefix (pre s : list Z) : list Z :=
  if decide (take (length pre) s = pre) then drop (length pre) s else s.

(** One file of the command line: its name and what read() delivers, block by
    block; [None] if it cannot be opened. *)
Definition add_file (rootino : Z) (f : list Z * option (list (list Z))) : M mkst unit :=
  let shortname := drop_prefix user_prefix f.1 in
  if bool_decide (SLASH ∈ shortname) then panic "assert no slash" else
  match f.2 with
  | None => panic "open"
  | Some chunks =>
      let shortname := drop_prefix [UNDERSCORE] shortname in
      if negb (Z.of_nat (length shortname) <=? DIRSIZ) then panic "assert strlen <= DIRSIZ" else
      inum ← ialloc T_FILE;
      iappend rootino (dirent_of (u16 inum) shortname);;
      foreach chunks (iappend inum)
  end.

Definition main (files : list (list Z * option (list (list Z)))) : M mkst unit :=
  modify (fun s => mkMk (mk_img s) (mk_freeinode s) nmeta);;
  foreach (zrange 0 FSSIZE) (fun i => wsect i zero_block);;
  wsect 1 (sb_bytes mkfs_sb ++ replicate (Z.to_nat BSIZE - 32) 0);;
  rootino ← ialloc T_DIR;
  if negb (rootino =? ROOTINO) then panic "assert rootino == ROOTINO" else
  iappend rootino (dirent_of rootino [46]);;
  iappend rootino (dirent_of rootino [46; 46]);;
  foreach files (add_file rootino);;
  din ← rinode rootino;
  winode rootino (set_di_size ((di_size din / BSIZE + 1) * BSIZE) din);;
  used ← gets mk_freeblock;
  balloc used.

(** mkfs starts with an empty image, freeinode = 1 and freeblock = 0. *)
Definition mkfs (files : list (list Z * option (list (list Z)))) : outcome mkst unit :=
  main files (mkMk ∅ 1 0).
