(* ===== verification/Image.v ===== *)
(** * The disk image: files are laid out and read back

    The state of mkfs seen as the kernel will see it: the inodes of the image
    have disjoint data blocks between the metadata and freeblock, and the
    kernel's view of a file ([byte_at] of Content.v) gives the bytes appended
    to it. *)

From S2P Require Import Prelude State Spinlock CString Sysargs Proc ReadyQueue Sleeplock Sleeping Bio BufferCache Log Wal Transaction Usercopy Fs Bitmap Inodes Truncate Content ReadWrite Mkfs.

(** The inode the kernel loads from [d], and the contents of the image. *)
Definition ino (d : dinode) : inode := load_dinode d zero_inode.
Definition mview (s : mkst) : Z -> list Z := disk_read (mk_img s).

Definition nblk (size : Z) : Z := (size + BSIZE - 1) / BSIZE.

(** The blocks of a file with [nb] data blocks, the indirect block included. *)
Definition blocks (nb : Z) : Z := if NDIRECT <? nb then nb + 1 else nb.

(** Every sector of the image is in the file. *)
Definition full (s : mkst) : Prop := forall b, 0 <= b < FSSIZE -> is_Some (mk_img s !! b).

Lemma rsect_full s sec : full s -> 0 <= sec < FSSIZE -> rsect sec s = Ret (mview s sec) s.
Proof.
  intros Hf Hs. unfold rsect. mred. destruct (Hf sec Hs) as [buf E]. rewrite E. mred. unfold mview, disk_read. by rewrite E.
Qed.

Lemma rsect_bind {B} s sec (k : list Z -> M mkst B) :
  full s -> 0 <= sec < FSSIZE -> (buf ← rsect sec; k buf) s = k (mview s sec) s.
Proof. intros Hf Hs. mred. by rewrite rsect_full. Qed.

Lemma full_insert s sec buf fi fb : full s -> full (mkMk (<[sec := buf]> (mk_img s)) fi fb).
Proof. intros Hf b Hb. simpl. destruct (decide (b = sec)) as [->|]; [rewrite lookup_insert_eq; eauto|rewrite lookup_insert_ne by done; by apply Hf]. Qed.

Lemma blocks_step fbn : 0 <= fbn -> blocks (fbn + 1) = blocks fbn + (if decide (fbn = NDIRECT) then 2 else 1).
Proof. intros H. unfold blocks. destruct (Z.ltb_spec NDIRECT fbn), (Z.ltb_spec NDIRECT (fbn + 1)); case_decide; lia. Qed.

Lemma blocks_mono a b : a <= b -> blocks a <= blocks b.
Proof. intros H. unfold blocks. destruct (Z.ltb_spec NDIRECT a), (Z.ltb_spec NDIRECT b); lia. Qed.

Lemma nblk_mono a b : a <= b -> nblk a <= nblk b.
Proof. intros H. unfold nblk. apply Z.div_le_mono; [done|lia]. Qed.

(** The file [d] has its first [nb] blocks, all below [fb]. *)
Record laid (V : Z -> list Z) (fb : Z) (d : dinode) (nb : Z) : Prop := {
  la_ok : dinode_ok d;
  la_nb : 0 <= nb <= MAXFILE;
  la_some bn : 0 <= bn < nb -> nmeta <= blk_addr V (ino d) bn < fb;
  la_none bn : nb <= bn < MAXFILE -> blk_addr V (ino d) bn = 0;
  la_ind : if NDIRECT <? nb then nmeta <= indirect (ino d) < fb else indirect (ino d) = 0;
  la_inj i j : 0 <= i < nb -> 0 <= j < nb -> blk_addr V (ino d) i = blk_addr V (ino d) j -> i = j;
  la_ne i : 0 <= i < nb -> blk_addr V (ino d) i <> indirect (ino d);
}.

(** The image with inodes 1 .. n-1 and their contents [F]; past the end of
    its contents a file reads as zeroes. *)
Record img (V : Z -> list Z) (fb : Z) (D : Z -> dinode) (F : Z -> list Z) (n : Z) : Prop := {
  img_fb : nmeta <= fb;
  img_len b : length (V b) = Z.to_nat BSIZE;
  img_zero b : fb <= b -> V b = zero_block;
  img_laid i : 1 <= i < n -> laid V fb (D i) (nblk (Z.of_nat (length (F i))));
  img_bytes i o : 1 <= i < n -> 0 <= o < MAXFILE * BSIZE -> byte_at V (ino (D i)) o = F i !!! Z.to_nat o;
  img_disj i j a : 1 <= i < n -> 1 <= j < n -> i <> j -> owns V (ino (D i)) a -> owns V (ino (D j)) a -> False;
}.

Lemma nmeta_pos : 0 < nmeta. Proof. done. Qed.

Lemma ino_addr d n : 0 <= n -> i_addrs (ino d) !!! Z.to_nat n = di_addrs d !!! Z.to_nat n.
Proof. done. Qed.

Lemma laid_owns V fb d nb a :
  laid V fb d nb -> owns V (ino d) a ->
  nmeta <= a < fb /\ ((exists bn, 0 <= bn < nb /\ blk_addr V (ino d) bn = a) \/ (NDIRECT < nb /\ a = indirect (ino d))).
Proof.
  intros Hl [Ha [Hi|(bn & Hbn & E)]].
  - pose proof (la_ind _ _ _ _ Hl) as Hx. destruct (Z.ltb_spec NDIRECT nb); [|congruence]. subst a. split; [done|]. by right.
  - destruct (decide (bn < nb)).
    + pose proof (la_some _ _ _ _ Hl bn ltac:(lia)). subst a. split; [lia|]. left. exists bn. split; [lia|done].
    + rewrite (la_none _ _ _ _ Hl bn) in E by lia. congruence.
Qed.

Lemma laid_ext V V' fb fb' d nb :
  (indirect (ino d) <> 0 -> V' (indirect (ino d)) = V (indirect (ino d))) -> fb <= fb' -> laid V fb d nb -> laid V' fb' d nb.
Proof.
  intros HVi Hfb Hl. destruct Hl as [H1 H2 H3 H4 H5 H6 H7]. constructor; try done.
  - intros bn Hbn. rewrite (blk_addr_ext V V') by done. specialize (H3 bn Hbn). lia.
  - intros bn Hbn. rewrite (blk_addr_ext V V') by done. by apply H4.
  - destruct (NDIRECT <? nb); lia.
  - intros i j Hi Hj. rewrite !(blk_addr_ext V V') by done. by apply H6.
  - intros i Hi. rewrite (blk_addr_ext V V') by done. by apply H7.
Qed.

(** What finding or allocating the block [fbn] changes. *)
Record grew (V : Z -> list Z) (fb : Z) (d : dinode) (nb fbn : Z) (V' : Z -> list Z) (fb' : Z) (d' : dinode) (sec : Z) : Prop := {
  gr_laid : laid V' fb' d' (fbn + 1);
  gr_fb : fb' = fb + (blocks (fbn + 1) - blocks nb);
  gr_nb : nb = fbn \/ nb = fbn + 1;
  gr_sec : blk_addr V' (ino d') fbn = sec;
  gr_addr bn : 0 <= bn < fbn -> blk_addr V' (ino d') bn = blk_addr V (ino d) bn;
  gr_old : blk_addr V (ino d) fbn = 0 \/ blk_addr V (ino d) fbn = sec;
  gr_new : blk_addr V (ino d) fbn = 0 -> V' sec = zero_block;
  gr_same b : indirect (ino d') = 0 \/ b <> indirect (ino d') -> V' b = V b;
  gr_len b : length (V' b) = Z.to_nat BSIZE;
  gr_zero b : fb' <= b -> V' b = zero_block;
  gr_owns a : owns V' (ino d') a -> owns V (ino d) a \/ fb <= a < fb';
  gr_fields : di_type d' = di_type d /\ di_major d' = di_major d /\ di_minor d' = di_minor d /\ di_nlink d' = di_nlink d /\ di_size d' = di_size d;
}.

Lemma gr_grows V fb d nb fbn V' fb' d' sec : grew V fb d nb fbn V' fb' d' sec -> fb <= fb'.
Proof. intros Hg. rewrite (gr_fb _ _ _ _ _ _ _ _ _ Hg). pose proof (blocks_mono nb (fbn + 1)). destruct (gr_nb _ _ _ _ _ _ _ _ _ Hg); lia. Qed.

Lemma addr_lookup d n : dinode_ok d -> 0 <= n <= NDIRECT -> di_addrs d !! Z.to_nat n = Some (di_addrs d !!! Z.to_nat n).
Proof. intros Hd Hn. apply list_lookup_lookup_total_lt. rewrite (dok_addrs _ Hd). unfold NDIRECT in Hn. lia. Qed.

Lemma blk_direct V d bn : bn < NDIRECT -> blk_addr V (ino d) bn = di_addrs d !!! Z.to_nat bn.
Proof. intros H. unfold blk_addr. by rewrite (proj2 (Z.ltb_lt _ _)). Qed.

Lemma blk_indirect V d bn : NDIRECT <= bn -> indirect (ino d) <> 0 ->
  blk_addr V (ino d) bn = ind_get (V (indirect (ino d))) (bn - NDIRECT).
Proof. intros H Hi. unfold blk_addr. rewrite (proj2 (Z.ltb_ge _ _)) by done. by rewrite (proj2 (Z.eqb_neq _ _)). Qed.

(** A block the file has is found. *)
Lemma file_sector_old s fb d nb fbn :
  full s -> fb <= FSSIZE -> laid (mview s) fb d nb -> 0 <= fbn < nb -> file_sector d fbn s = Ret (d, blk_addr (mview s) (ino d) fbn) s.
Proof.
  intros Hfull Hfs Hl Hf. pose proof (la_some _ _ _ _ Hl fbn Hf) as Ha. pose proof nmeta_pos. pose proof (la_ok _ _ _ _ Hl) as Hd.
  unfold file_sector. destruct (Z.ltb_spec fbn NDIRECT) as [Hlt|Hge].
  - rewrite (blk_direct _ _ _ Hlt) in *. rewrite (addr_lookup d fbn Hd ltac:(lia)). mred.
    by rewrite (proj2 (Z.eqb_neq _ _)) by lia.
  - pose proof (la_ind _ _ _ _ Hl) as Hi. rewrite (proj2 (Z.ltb_lt NDIRECT nb)) in Hi by lia.
    rewrite (blk_indirect _ _ _ Hge) in * by lia. rewrite (addr_lookup d NDIRECT Hd ltac:(unfold NDIRECT; lia)). mred.
    change (di_addrs d !!! Z.to_nat NDIRECT) with (indirect (ino d)). rewrite (proj2 (Z.eqb_neq (indirect _) 0)) by lia. mred.
    rewrite (addr_lookup d NDIRECT Hd ltac:(unfold NDIRECT; lia)). mred.
    change (di_addrs d !!! Z.to_nat NDIRECT) with (indirect (ino d)). rewrite (rsect_full s) by (done || lia). mred.
    by rewrite (proj2 (Z.eqb_neq (ind_get _ _) 0)) by lia.
Qed.

Lemma dinode_ok_addr d n x : dinode_ok d -> is_u32 x -> dinode_ok (set_di_addr n x d).
Proof.
  intros [H1 H2 H3 H4 H5 H6 H7] Hx. constructor; try done; simpl; [by rewrite length_insert|]. by apply Forall_insert.
Qed.

Lemma set_addr_same d n x : dinode_ok d -> 0 <= n <= NDIRECT -> di_addrs (set_di_addr n x d) !!! Z.to_nat n = x.
Proof. intros Hd Hn. simpl. apply list_lookup_total_insert_eq. rewrite (dok_addrs _ Hd). unfold NDIRECT in *. lia. Qed.

Lemma set_addr_other d n m x : 0 <= n -> 0 <= m -> n <> m -> di_addrs (set_di_addr n x d) !!! Z.to_nat m = di_addrs d !!! Z.to_nat m.
Proof. intros Hn Hm Hne. simpl. apply list_lookup_total_insert_ne. lia. Qed.

Section new_block.
  Context (V : Z -> list Z) (fb : Z) (d : dinode) (fbn : Z).
  Context (Hl : laid V fb d fbn) (Hlen : forall b, length (V b) = Z.to_nat BSIZE) (Hzero : forall b, fb <= b -> V b = zero_block).
  Context (Hfb : nmeta <= fb /\ fb + 3 < 2 ^ 32) (Hfbn : 0 <= fbn < MAXFILE).

(** A new direct block. *)
Lemma grew_direct : fbn < NDIRECT -> grew V fb d fbn fbn V (fb + 1) (set_di_addr fbn fb d) fb.
Proof using Type*.
  intros Hlt. pose proof (la_ok _ _ _ _ Hl) as Hd. pose proof nmeta_pos.
  assert (Hi : indirect (ino d) = 0) by (pose proof (la_ind _ _ _ _ Hl) as Hi; by rewrite (proj2 (Z.ltb_ge _ _)) in Hi by lia).
  assert (Hi' : indirect (ino (set_di_addr fbn fb d)) = 0) by (rewrite <- Hi; apply set_addr_other; unfold NDIRECT in *; lia).
  assert (Hsec : blk_addr V (ino (set_di_addr fbn fb d)) fbn = fb) by (rewrite blk_direct by done; apply set_addr_same; [done|lia]).
  assert (Haddr : forall bn, 0 <= bn -> bn <> fbn -> blk_addr V (ino (set_di_addr fbn fb d)) bn = blk_addr V (ino d) bn).
  { intros bn Hbn Hne. unfold blk_addr at 1 2. rewrite Hi, Hi'. destruct (bn <? NDIRECT); [|done]. apply set_addr_other; lia. }
  assert (Hall : forall bn, 0 <= bn < fbn + 1 -> nmeta <= blk_addr V (ino (set_di_addr fbn fb d)) bn < fb + 1).
  { intros bn Hbn. destruct (decide (bn = fbn)) as [->|]; [lia|]. rewrite Haddr by lia. pose proof (la_some _ _ _ _ Hl bn ltac:(lia)). lia. }
  constructor; try done; try lia.
  - constructor.
    + apply dinode_ok_addr; [done|]. unfold is_u32. lia.
    + lia.
    + done.
    + intros bn Hbn. rewrite Haddr by lia. apply (la_none _ _ _ _ Hl). lia.
    + by rewrite (proj2 (Z.ltb_ge _ _)) by lia.
    + intros i j Hi0 Hj0 E. destruct (decide (i = fbn)) as [->|], (decide (j = fbn)) as [->|]; [done|..].
      * rewrite Hsec, Haddr in E by lia. pose proof (la_some _ _ _ _ Hl j ltac:(lia)). lia.
      * rewrite Hsec, Haddr in E by lia. pose proof (la_some _ _ _ _ Hl i ltac:(lia)). lia.
      * rewrite !Haddr in E by lia. apply (la_inj _ _ _ _ Hl); lia.
    + intros i Hi0. specialize (Hall i Hi0). lia.
  - rewrite blocks_step, decide_False by lia. lia.
  - intros bn Hbn. apply Haddr; lia.
  - left. apply (la_none _ _ _ _ Hl). lia.
  - intros _. apply Hzero. lia.
  - intros b Hb. apply Hzero. lia.
  - intros a [Ha [E|(bn & Hbn & E)]]; [congruence|]. destruct (decide (bn = fbn)) as [->|]; [right; lia|].
    rewrite Haddr in E by lia. left. split; [done|]. right. eauto.
Qed.

(** The inode with its indirect block, the existing one or a new one. *)
Record indirected (d1 : dinode) (i fb1 : Z) : Prop := {
  in_ok : dinode_ok d1;
  in_ind : indirect (ino d1) = i;
  in_range : nmeta <= i < fb1;
  in_fb : fb1 = if decide (fbn = NDIRECT) then fb + 1 else fb;
  in_addr bn : 0 <= bn < MAXFILE -> blk_addr V (ino d1) bn = blk_addr V (ino d) bn;
  in_ne bn : 0 <= bn < fbn -> blk_addr V (ino d) bn <> i;
  in_owned : owns V (ino d) i \/ fb <= i < fb1;
  in_fields : di_type d1 = di_type d /\ di_major d1 = di_major d /\ di_minor d1 = di_minor d /\ di_nlink d1 = di_nlink d /\ di_size d1 = di_size d;
}.

Lemma indirect_old : NDIRECT < fbn -> indirected d (indirect (ino d)) fb.
Proof using Type*.
  intros Hlt. pose proof (la_ind _ _ _ _ Hl) as Hi. rewrite (proj2 (Z.ltb_lt _ _)) in Hi by done. pose proof nmeta_pos.
  constructor; try done; [apply Hl|rewrite decide_False; lia| |].
  - intros bn Hbn. by apply (la_ne _ _ _ _ Hl).
  - left. apply owns_indirect. lia.
Qed.

Lemma indirect_new : fbn = NDIRECT -> indirected (set_di_addr NDIRECT fb d) fb (fb + 1).
Proof using Type*.
  intros E. pose proof (la_ind _ _ _ _ Hl) as Hi. rewrite (proj2 (Z.ltb_ge _ _)) in Hi by lia. pose proof nmeta_pos.
  pose proof (la_ok _ _ _ _ Hl) as Hd.
  assert (Hind : indirect (ino (set_di_addr NDIRECT fb d)) = fb) by (apply set_addr_same; [done|unfold NDIRECT; lia]).
  constructor; try done; [apply dinode_ok_addr; [done|unfold is_u32; lia]|lia|by rewrite decide_True| | |right; lia].
  - intros bn Hbn. destruct (Z.ltb_spec bn NDIRECT) as [Hlt|Hge].
    + rewrite !blk_direct by done. apply set_addr_other; unfold NDIRECT in *; lia.
    + rewrite (blk_indirect _ (set_di_addr _ _ _)) by (rewrite ?Hind; lia). rewrite Hind, Hzero by lia.
      rewrite ind_get_zero by (unfold MAXFILE in Hbn; lia). symmetry. apply (la_none _ _ _ _ Hl). lia.
  - intros bn Hbn. pose proof (la_some _ _ _ _ Hl bn Hbn). lia.
Qed.

Lemma grew_indirect V' d1 i fb1 :
  NDIRECT <= fbn -> indirected d1 i fb1 ->
  (forall b, V' b = if decide (b = i) then ind_set (V i) (fbn - NDIRECT) fb1 else V b) ->
  grew V fb d fbn fbn V' (fb1 + 1) d1 fb1.
Proof using Type*.
  intros Hge [Hok Hind Hr0 Hr1 Ha Hne Hown Hf] HV. pose proof nmeta_pos.
  assert (Hr : nmeta <= i < fb1 /\ fb <= fb1 <= fb + 1) by (case_decide; lia). assert (Hi0 : indirect (ino d1) <> 0) by lia.
  assert (Hj : 0 <= fbn - NDIRECT < NINDIRECT) by (unfold MAXFILE in Hfbn; lia).
  assert (Hsec : blk_addr V' (ino d1) fbn = fb1).
  { rewrite blk_indirect by done. rewrite Hind, HV, decide_True by done. apply ind_get_set_same; [done|done|lia]. }
  assert (Haddr : forall bn, 0 <= bn < MAXFILE -> bn <> fbn -> blk_addr V' (ino d1) bn = blk_addr V (ino d) bn).
  { intros bn Hbn Hnf. rewrite <- Ha by done. destruct (Z.ltb_spec bn NDIRECT) as [Hlt|Hge']; [by rewrite !blk_direct|].
    rewrite !blk_indirect by done. rewrite Hind, HV, decide_True by done. apply ind_get_set_ne; [done|done|lia|lia]. }
  assert (Hall : forall bn, 0 <= bn < fbn -> nmeta <= blk_addr V' (ino d1) bn < fb /\ blk_addr V' (ino d1) bn <> i).
  { intros bn Hbn. rewrite Haddr by lia. pose proof (la_some _ _ _ _ Hl bn Hbn). split; [done|by apply Hne]. }
  constructor; try done; try lia.
  - constructor; [done|lia|..].
    + intros bn Hbn. destruct (decide (bn = fbn)) as [->|]; [lia|]. destruct (Hall bn ltac:(lia)). lia.
    + intros bn Hbn. rewrite Haddr by lia. apply (la_none _ _ _ _ Hl). lia.
    + rewrite (proj2 (Z.ltb_lt _ _)), Hind by lia. lia.
    + intros x y Hx Hy E. destruct (decide (x = fbn)) as [->|], (decide (y = fbn)) as [->|]; [done|..].
      * rewrite Hsec in E. destruct (Hall y ltac:(lia)). lia.
      * rewrite Hsec in E. destruct (Hall x ltac:(lia)). lia.
      * rewrite !Haddr in E by lia. apply (la_inj _ _ _ _ Hl); lia.
    + intros x Hx. rewrite Hind. destruct (decide (x = fbn)) as [->|]; [lia|]. apply Hall. lia.
  - rewrite blocks_step by lia. case_decide; lia.
  - intros bn Hbn. apply Haddr; lia.
  - left. apply (la_none _ _ _ _ Hl). lia.
  - intros _. rewrite HV, decide_False by lia. apply Hzero. lia.
  - intros b Hb. rewrite HV, decide_False by (destruct Hb; congruence). done.
  - intros b. rewrite HV. destruct (decide (b = i)); [|done]. by apply length_ind_set.
  - intros b Hb. rewrite HV, decide_False by lia. apply Hzero. lia.
  - intros a [Ha0 [E|(bn & Hbn & E)]]; [subst a; rewrite Hind; destruct Hown; [by left|right; lia]|].
    destruct (decide (bn = fbn)) as [->|]; [right; lia|]. rewrite Haddr in E by lia. left. split; [done|]. right. eauto.
Qed.
End new_block.

(** file_sector: what it returns and how the image grows. *)
Lemma file_sector_spec s d fbn nb :
  full s -> laid (mview s) (mk_freeblock s) d nb -> nb = fbn \/ nb = fbn + 1 -> 0 <= fbn < MAXFILE ->
  (forall b, length (mview s b) = Z.to_nat BSIZE) -> (forall b, mk_freeblock s <= b -> mview s b = zero_block) ->
  nmeta <= mk_freeblock s -> mk_freeblock s + (blocks (fbn + 1) - blocks nb) <= FSSIZE ->
  returns (file_sector d fbn s) (fun r s' => mk_freeinode s' = mk_freeinode s /\ full s' /\
    grew (mview s) (mk_freeblock s) d nb fbn (mview s') (mk_freeblock s') r.1 r.2).
Proof.
  intros Hfull Hl Hnb Hf Hlen Hz Hfb0 Hfb1. pose proof nmeta_pos. destruct Hnb as [->| ->].
  2:{ rewrite (file_sector_old s (mk_freeblock s) d (fbn + 1) fbn Hfull ltac:(lia) Hl) by lia. simpl. split_and!; [done|done|].
      pose proof (la_some _ _ _ _ Hl fbn ltac:(lia)).
      constructor; try done; [lia|by right|by right|lia|]. intros a Ha. by left. }
  pose proof (la_ok _ _ _ _ Hl) as Hd. pose proof (la_none _ _ _ _ Hl fbn ltac:(lia)) as H0. rewrite blocks_step in Hfb1 by lia.
  assert (Hfb : nmeta <= mk_freeblock s /\ mk_freeblock s + 3 < 2 ^ 32) by (unfold FSSIZE in Hfb1; case_decide; lia).
  unfold file_sector, take_block, wsect. destruct (Z.ltb_spec fbn NDIRECT) as [Hlt|Hge].
  - rewrite (addr_lookup d fbn Hd) by lia. mred. rewrite blk_direct in H0 by done. rewrite H0. mred. simpl. split_and!; [done|done|].
    rewrite u32_small by lia. by apply grew_direct.
  - rewrite (addr_lookup d NDIRECT Hd) by (unfold NDIRECT; lia). mred.
    change (di_addrs d !!! Z.to_nat NDIRECT) with (indirect (ino d)). pose proof (la_ind _ _ _ _ Hl) as Hi.
    destruct (Z.ltb_spec NDIRECT fbn) as [Hgt|Hle].
    + rewrite decide_False in Hfb1 by lia.
      rewrite (proj2 (Z.eqb_neq (indirect (ino d)) 0)) by lia. mred. rewrite (addr_lookup d NDIRECT Hd) by (unfold NDIRECT; lia). mred.
      change (di_addrs d !!! Z.to_nat NDIRECT) with (indirect (ino d)). rewrite blk_indirect in H0 by lia.
      rewrite (rsect_full s) by (done || lia). mred. rewrite H0. simpl. split_and!; [done|by apply full_insert|].
      rewrite u32_small by lia. eapply grew_indirect; try done; [by apply indirect_old|].
      intros b. unfold mview. simpl. rewrite disk_read_insert. repeat case_decide; congruence.
    + rewrite decide_True in Hfb1 by lia. rewrite Hi, Z.eqb_refl. mred. rewrite (addr_lookup (set_di_addr _ _ _) NDIRECT) by
        (try (apply dinode_ok_addr; [done|unfold is_u32; lia]); unfold NDIRECT; lia). mred.
      rewrite set_addr_same by (done || (unfold NDIRECT; lia)). rewrite rsect_full by (done || lia). mred.
      change (mview (mkMk _ _ _) (mk_freeblock s)) with (mview s (mk_freeblock s)).
      rewrite (Hz (mk_freeblock s)) by lia. rewrite ind_get_zero by (unfold MAXFILE in Hf; lia). simpl. split_and!; [done|by apply full_insert|].
      rewrite !(u32_small (mk_freeblock s + 1)), u32_small by lia.
      eapply grew_indirect; try done; [apply indirect_new; [done..|lia]|].
      intros b. rewrite (Hz (mk_freeblock s)) by lia. unfold mview. simpl. rewrite disk_read_insert. repeat case_decide; congruence.
Qed.

(** ** Appending *)

Lemma nblk_cases off fbn : 0 <= off -> fbn = off / BSIZE -> nblk off = fbn \/ nblk off = fbn + 1.
Proof. intros H ->. unfold nblk, BSIZE. pose proof (Z.div_mod off 1024). pose proof (Z.mod_pos_bound off 1024).
  destruct (decide (off mod 1024 = 0)).
  - left. symmetry. apply (Z.div_unique _ _ _ 1023); lia.
  - right. symmetry. apply (Z.div_unique _ _ _ (off mod 1024 - 1)); lia.
Qed.

Lemma nblk_after off fbn k : 0 <= off -> fbn = off / BSIZE -> 0 < k -> off mod BSIZE + k <= BSIZE -> nblk (off + k) = fbn + 1.
Proof.
  intros H -> Hk Hfit. unfold nblk, BSIZE in *. pose proof (Z.div_mod off 1024). pose proof (Z.mod_pos_bound off 1024).
  symmetry. apply (Z.div_unique _ _ _ (off mod 1024 + k - 1)); lia.
Qed.

Section append.
  Context (V : Z -> list Z) (fb : Z) (D : Z -> dinode) (F : Z -> list Z) (n inum : Z).
  Context (Himg : img V fb D F n) (Hinum : 1 <= inum < n).
  Context (nb fbn : Z) (V1 : Z -> list Z) (fb1 : Z) (d' : dinode) (sec : Z) (Hg : grew V fb (D inum) nb fbn V1 fb1 d' sec).
  Context (c : list Z) (Hc : c <> []).
  Context (Hfbn : fbn = Z.of_nat (length (F inum)) / BSIZE) (Hfit : Z.of_nat (length (F inum)) mod BSIZE + Z.of_nat (length c) <= BSIZE).
  Context (V2 : Z -> list Z).
  Context (HV2 : forall b, V2 b = if decide (b = sec) then splice (V1 sec) (Z.to_nat (Z.of_nat (length (F inum)) mod BSIZE)) c else V1 b).

Let off := Z.of_nat (length (F inum)).

Lemma app_sec : nmeta <= sec < fb1 /\ sec <> indirect (ino d') /\ owns V1 (ino d') sec.
Proof using Type*.
  pose proof (gr_laid _ _ _ _ _ _ _ _ _ Hg) as Hl. pose proof (gr_sec _ _ _ _ _ _ _ _ _ Hg) as Es. pose proof nmeta_pos.
  assert (Hf0 : 0 <= fbn) by (rewrite Hfbn; apply Z.div_pos; unfold BSIZE; lia).
  pose proof (la_some _ _ _ _ Hl fbn ltac:(lia)) as Hs. pose proof (la_ne _ _ _ _ Hl fbn ltac:(lia)) as Hn. rewrite Es in *.
  split_and!; [lia|lia|done|]. rewrite <- Es. apply owns_addr; [|lia]. pose proof (la_nb _ _ _ _ Hl). lia.
Qed.

(** Blocks of other files are untouched. *)
Lemma app_other a : a < fb -> (owns V (ino (D inum)) a -> False) -> V2 a = V a.
Proof using Type*.
  intros Ha Hno. destruct app_sec as (Hs & Hsi & Hso).
  assert (Hns : forall x, owns V1 (ino d') x -> a <> x).
  { intros x Hx ->. destruct (gr_owns _ _ _ _ _ _ _ _ _ Hg x Hx); [done|lia]. }
  rewrite HV2, decide_False by (by apply Hns). apply (gr_same _ _ _ _ _ _ _ _ _ Hg).
  destruct (decide (indirect (ino d') = 0)) as [E|E]; [by left|]. right. apply Hns. by apply owns_indirect.
Qed.

Lemma app_indirect : indirect (ino d') <> 0 -> V2 (indirect (ino d')) = V1 (indirect (ino d')).
Proof using Type*. intros H. destruct app_sec as (_ & Hsi & _). by rewrite HV2, decide_False. Qed.

Lemma app_others j : 1 <= j < n -> j <> inum -> forall a, owns V (ino (D j)) a -> V2 a = V a.
Proof using Type*.
  intros Hj Hne a Ha. destruct (laid_owns _ _ _ _ _ (img_laid _ _ _ _ _ Himg j Hj) Ha) as [Hr _].
  apply app_other; [lia|]. intros Ho. by apply (img_disj _ _ _ _ _ Himg j inum a).
Qed.

(** A block of the file before the one written to, and what was in that one. *)
Lemma app_block bn : 0 <= bn < fbn -> nmeta <= blk_addr V (ino (D inum)) bn -> V2 (blk_addr V (ino (D inum)) bn) = V (blk_addr V (ino (D inum)) bn).
Proof using Type*.
  intros Hbn Ha. pose proof nmeta_pos. pose proof (gr_laid _ _ _ _ _ _ _ _ _ Hg) as Hl. pose proof (gr_sec _ _ _ _ _ _ _ _ _ Hg) as Es.
  assert (Hne : blk_addr V (ino (D inum)) bn <> sec).
  { rewrite <- (gr_addr _ _ _ _ _ _ _ _ _ Hg), <- Es by lia. intros Eq. enough (bn = fbn) by lia. apply (la_inj _ _ _ _ Hl); [lia|lia|done]. }
  rewrite HV2, decide_False by done. apply (gr_same _ _ _ _ _ _ _ _ _ Hg). right.
  rewrite <- (gr_addr _ _ _ _ _ _ _ _ _ Hg) by lia. apply (la_ne _ _ _ _ Hl). lia.
Qed.

Lemma app_old k : V1 sec !!! k = if blk_addr V (ino (D inum)) fbn =? 0 then 0 else V (blk_addr V (ino (D inum)) fbn) !!! k.
Proof using Type*.
  destruct app_sec as (Hs & Hsi & Hso). destruct (Z.eqb_spec (blk_addr V (ino (D inum)) fbn) 0) as [E|E].
  - rewrite (gr_new _ _ _ _ _ _ _ _ _ Hg E). apply zero_block_at.
  - destruct (gr_old _ _ _ _ _ _ _ _ _ Hg) as [?|Eo]; [done|]. rewrite Eo, (gr_same _ _ _ _ _ _ _ _ _ Hg); [done|]. by right.
Qed.

(** The bytes of the file after the write: those of [c] where it went. *)
Lemma app_byte o : 0 <= o < MAXFILE * BSIZE ->
  byte_at V2 (ino d') o = if decide (off <= o < off + Z.of_nat (length c)) then c !!! Z.to_nat (o - off) else byte_at V (ino (D inum)) o.
Proof using Type*.
  intros Ho. destruct app_sec as (Hs & Hsi & Hso). pose proof nmeta_pos. pose proof (gr_laid _ _ _ _ _ _ _ _ _ Hg) as Hl.
  pose proof (gr_sec _ _ _ _ _ _ _ _ _ Hg) as Es. pose proof (gr_len _ _ _ _ _ _ _ _ _ Hg sec) as Hlen.
  pose proof (img_laid _ _ _ _ _ Himg inum Hinum) as Hl0. pose proof (blk_range o Ho) as Hbr.
  assert (Hoff : off = BSIZE * fbn + off mod BSIZE /\ 0 <= off mod BSIZE < BSIZE)
    by (unfold off; rewrite Hfbn; split; [apply Z.div_mod; done|by apply Z.mod_pos_bound]).
  assert (Ho2 : o = BSIZE * (o / BSIZE) + o mod BSIZE /\ 0 <= o mod BSIZE < BSIZE) by (split; [by apply Z.div_mod|by apply Z.mod_pos_bound]).
  fold off in Hfit. destruct (nblk_cases off fbn ltac:(lia) Hfbn) as [Hnb|Hnb]; fold off in Hl0; rewrite Hnb in Hl0; clear Hnb.
  all: unfold byte_at; rewrite (blk_addr_ext V1 V2) by apply app_indirect.
  all: destruct (Z.lt_trichotomy (o / BSIZE) fbn) as [Hlt|[E|Hgt]].
  1, 4: rewrite (gr_addr _ _ _ _ _ _ _ _ _ Hg) by lia; pose proof (la_some _ _ _ _ Hl0 (o / BSIZE) ltac:(lia)) as Ha;
    rewrite (proj2 (Z.eqb_neq _ 0)), decide_False by (unfold BSIZE in *; lia);
    by rewrite app_block by lia.
  1, 3: rewrite E in *; rewrite Es, (proj2 (Z.eqb_neq sec 0)), HV2, decide_True by (done || lia);
    rewrite splice_lookup_total by (rewrite Hlen; unfold off, BSIZE in *; lia).
  1, 2: destruct (decide (off <= o < off + Z.of_nat (length c))) as [Hin|Hout];
    [rewrite decide_True by (unfold off, BSIZE in *; lia); f_equal; unfold off, BSIZE in *; lia
    |rewrite decide_False by (unfold off, BSIZE in *; lia); apply app_old].
  all: rewrite (la_none _ _ _ _ Hl), (la_none _ _ _ _ Hl0), decide_False by (unfold BSIZE in *; lia); done.
Qed.

Lemma app_bytes o : 0 <= o < MAXFILE * BSIZE -> byte_at V2 (ino d') o = (F inum ++ c) !!! Z.to_nat o.
Proof using Type*.
  intros Ho. rewrite app_byte, (img_bytes _ _ _ _ _ Himg) by done. unfold off. case_decide.
  - rewrite lookup_total_app_r by lia. f_equal. lia.
  - rewrite !list_lookup_total_alt. destruct (decide (o < off)); unfold off in *.
    + by rewrite lookup_app_l by lia.
    + rewrite !lookup_ge_None_2; [done|rewrite length_app; lia|lia].
Qed.

Lemma app_img : img V2 fb1 (<[inum := d']> D) (<[inum := F inum ++ c]> F) n.
Proof using Type*.
  destruct app_sec as (Hs & Hsi & Hso). pose proof (gr_grows _ _ _ _ _ _ _ _ _ Hg) as Hfb1. pose proof (img_fb _ _ _ _ _ Himg) as Hfb0.
  assert (Hcl : (0 < length c)%nat) by (destruct c; [done|simpl; lia]).
  assert (Hown : forall a, owns V2 (ino d') a -> owns V (ino (D inum)) a \/ fb <= a).
  { intros a Ha. apply (owns_ext V1 V2) in Ha; [|apply app_indirect]. destruct (gr_owns _ _ _ _ _ _ _ _ _ Hg a Ha); [by left|right; lia]. }
  assert (Hownj : forall j a, 1 <= j < n -> j <> inum -> owns V2 (ino (D j)) a -> owns V (ino (D j)) a /\ a < fb).
  { intros j a Hj Hne Ha. apply (owns_ext V V2) in Ha.
    - split; [done|]. destruct (laid_owns _ _ _ _ _ (img_laid _ _ _ _ _ Himg j Hj) Ha). lia.
    - intros Hi. apply (app_others j Hj Hne). by apply owns_indirect. }
  constructor.
  - lia.
  - intros b. rewrite HV2. case_decide; [|apply (gr_len _ _ _ _ _ _ _ _ _ Hg)].
    rewrite length_splice; rewrite (gr_len _ _ _ _ _ _ _ _ _ Hg); [done|].
    pose proof (Z.mod_pos_bound (Z.of_nat (length (F inum))) BSIZE ltac:(done)). lia.
  - intros b Hb. rewrite HV2, decide_False by lia. by apply (gr_zero _ _ _ _ _ _ _ _ _ Hg).
  - intros j Hj. destruct (decide (j = inum)) as [->|Hne].
    + rewrite !fn_lookup_insert. rewrite length_app, Nat2Z.inj_add, (nblk_after _ fbn) by (done || lia).
      eapply laid_ext; [apply app_indirect|reflexivity|apply (gr_laid _ _ _ _ _ _ _ _ _ Hg)].
    + rewrite !fn_lookup_insert_ne by done. eapply laid_ext; [|apply Hfb1|by apply (img_laid _ _ _ _ _ Himg)].
      intros Hi. apply (app_others j Hj Hne). by apply owns_indirect.
  - intros j o Hj Ho. destruct (decide (j = inum)) as [->|Hne].
    + rewrite !fn_lookup_insert in *. by apply app_bytes.
    + rewrite !fn_lookup_insert_ne in * by done. rewrite <- (img_bytes _ _ _ _ _ Himg j o Hj Ho).
      apply byte_at_ext; [done|by apply app_others].
  - intros i j a Hi Hj Hij. destruct (decide (i = inum)) as [->|Hni], (decide (j = inum)) as [->|Hnj]; [done|..];
      rewrite ?fn_lookup_insert, ?fn_lookup_insert_ne by done; intros H1 H2.
    + destruct (Hownj j a Hj Hnj H2) as [H2' ?], (Hown a H1) as [H1'|?]; [|lia]. by apply (img_disj _ _ _ _ _ Himg inum j a).
    + destruct (Hownj i a Hi Hni H1) as [H1' ?], (Hown a H2) as [H2'|?]; [|lia]. by apply (img_disj _ _ _ _ _ Himg i inum a).
    + destruct (Hownj i a Hi Hni H1), (Hownj j a Hj Hnj H2). by apply (img_disj _ _ _ _ _ Himg i j a).
Qed.
End append.

Lemma img_change V fb D D' F F' n :
  img V fb D F n -> (forall i, 1 <= i < n -> D' i = D i) -> (forall i, 1 <= i < n -> F' i = F i) -> img V fb D' F' n.
Proof.
  intros [H1 H2 H3 H4 H5 H6] HD HF. constructor; try done.
  - intros i Hi. rewrite HD, HF by done. by apply H4.
  - intros i o Hi. rewrite HD, HF by done. by apply H5.
  - intros i j a Hi Hj. rewrite !HD by done. by apply H6.
Qed.

(** Changes of the metadata blocks do not matter to the files. *)
Lemma img_meta V V' fb D F n :
  (forall b, nmeta <= b -> V' b = V b) -> (forall b, length (V' b) = Z.to_nat BSIZE) -> img V fb D F n -> img V' fb D F n.
Proof.
  intros HV Hlen [H1 H2 H3 H4 H5 H6]. pose proof nmeta_pos.
  assert (Hown : forall i a, 1 <= i < n -> owns V (ino (D i)) a -> V' a = V a).
  { intros i a Hi Ha. destruct (laid_owns _ _ _ _ _ (H4 i Hi) Ha). apply HV. lia. }
  assert (Hind : forall i, 1 <= i < n -> indirect (ino (D i)) <> 0 -> V' (indirect (ino (D i))) = V (indirect (ino (D i)))).
  { intros i Hi Hne. apply (Hown i _ Hi). by apply owns_indirect. }
  constructor; try done.
  - intros b Hb. rewrite HV by lia. by apply H3.
  - intros i Hi. eapply laid_ext; [by apply Hind|reflexivity|by apply H4].
  - intros i o Hi Ho. rewrite <- (H5 i o Hi Ho). apply byte_at_ext; [done|by eauto].
  - intros i j a Hi Hj Hij Ha Hb. apply (owns_ext V V') in Ha, Hb; eauto.
Qed.

Definition same_fields (d d' : dinode) : Prop :=
  di_type d' = di_type d /\ di_major d' = di_major d /\ di_minor d' = di_minor d /\ di_nlink d' = di_nlink d /\ di_size d' = di_size d.

(** What appending may change besides the files. *)
Record mk_frame (k : Z) (s s' : mkst) : Prop := {
  mf_inode : mk_freeinode s' = mk_freeinode s;
  mf_block : mk_freeblock s' = mk_freeblock s + k;
  mf_full : full s';
  mf_meta b : b < nmeta -> mview s' b = mview s b;
}.

(** The blocks appending [p] to a file that holds [l] takes. *)
Definition more (l p : list Z) : Z := blocks (nblk (Z.of_nat (length (l ++ p)))) - blocks (nblk (Z.of_nat (length l))).

Lemma more_nil l : more l [] = 0.
Proof. unfold more. rewrite app_nil_r. lia. Qed.

Lemma more_app l c p : more l (c ++ p) = more l c + more (l ++ c) p.
Proof. unfold more. rewrite <- app_assoc. lia. Qed.

Lemma more_nonneg l p : 0 <= more l p.
Proof. unfold more. rewrite length_app. pose proof (blocks_mono (nblk (Z.of_nat (length l))) (nblk (Z.of_nat (length l + length p)))).
  pose proof (nblk_mono (Z.of_nat (length l)) (Z.of_nat (length l + length p))). lia. Qed.

(** The first block alone takes no more than all. *)
Lemma more_first l p : p <> [] ->
  blocks (Z.of_nat (length l) / BSIZE + 1) - blocks (nblk (Z.of_nat (length l))) <= more l p.
Proof.
  intros Hp. unfold more. enough (Z.of_nat (length l) / BSIZE + 1 <= nblk (Z.of_nat (length (l ++ p)))) as H
    by (apply blocks_mono in H; lia).
  rewrite length_app. destruct p as [|x p]; [done|]. simpl. unfold nblk, BSIZE.
  rewrite <- Z.div_add by lia. apply Z.div_le_mono; lia.
Qed.

Lemma iappend_step_spec s D F n inum p :
  full s -> img (mview s) (mk_freeblock s) D F n -> 1 <= inum < n -> p <> [] ->
  Z.of_nat (length (F inum)) + Z.of_nat (length p) <= MAXFILE * BSIZE -> mk_freeblock s + more (F inum) p <= FSSIZE ->
  returns (iappend_step (D inum, Z.of_nat (length (F inum)), p) s) (fun r s' => exists d' c p',
    r = inl (d', Z.of_nat (length (F inum ++ c)), p') /\ p = c ++ p' /\ c <> [] /\
    img (mview s') (mk_freeblock s') (<[inum := d']> D) (<[inum := F inum ++ c]> F) n /\
    mk_frame (more (F inum) c) s s' /\ same_fields (D inum) d').
Proof.
  intros Hfull Himg Hi Hp Hsz Hfb. set (off := Z.of_nat (length (F inum))) in *. unfold iappend_step.
  assert (Hpl : (0 < length p)%nat) by (destruct p; [done|simpl; lia]).
  rewrite (proj2 (Nat.eqb_neq _ _)) by lia. pose proof (blk_range off ltac:(lia)) as Hbr.
  rewrite (proj2 (Z.ltb_lt _ _)) by lia. mred.
  pose proof (img_laid _ _ _ _ _ Himg inum Hi) as Hl. fold off in Hl.
  eapply returns_obind, returns_mono; [eapply (file_sector_spec s (D inum) (off / BSIZE)); [done|exact Hl|..]|].
  - apply nblk_cases; [lia|done].
  - done.
  - apply (img_len _ _ _ _ _ Himg).
  - apply (img_zero _ _ _ _ _ Himg).
  - apply (img_fb _ _ _ _ _ Himg).
  - pose proof (more_first (F inum) p Hp). unfold off. lia.
  - cbn beta. intros [d' sec] s1 (Hino & Hfull1 & Hg). cbn [fst snd] in Hg. pose proof (gr_fb _ _ _ _ _ _ _ _ _ Hg) as Hfb1.
    pose proof (more_first (F inum) p Hp) as Hmf. fold off in Hmf. pose proof nmeta_pos.
    pose proof (gr_laid _ _ _ _ _ _ _ _ _ Hg) as Hl'. pose proof (la_some _ _ _ _ Hl' (off / BSIZE) ltac:(lia)) as Hs.
    rewrite (gr_sec _ _ _ _ _ _ _ _ _ Hg) in Hs. mred. rewrite rsect_full by (done || lia). unfold wsect. mred.
    set (n1 := Z.min (Z.of_nat (length p)) ((off / BSIZE + 1) * BSIZE - off)).
    pose proof (Z.div_mod off BSIZE ltac:(done)) as Hdm. pose proof (Z.mod_pos_bound off BSIZE ltac:(done)) as Hmb.
    assert (Hn1 : 0 < n1 <= Z.of_nat (length p) /\ off mod BSIZE + n1 <= BSIZE) by (unfold n1, BSIZE in *; lia).
    set (c := take (Z.to_nat n1) p). assert (Hc : Z.of_nat (length c) = n1) by (unfold c; rewrite length_take; lia).
    simpl. exists d', c, (drop (Z.to_nat n1) p). split_and!.
    + rewrite length_app, Nat2Z.inj_add. fold off. by rewrite Hc.
    + unfold c. by rewrite take_drop.
    + intros E. rewrite E in Hc. simpl in Hc. lia.
    + eapply app_img; eauto.
      * intros E. rewrite E in Hc. simpl in Hc. lia.
      * fold off. lia.
      * intros b. unfold mview at 1. simpl. rewrite disk_read_insert. fold off. unfold mview.
        replace (off - off / BSIZE * BSIZE) with (off mod BSIZE) by lia. repeat case_decide; congruence.
    + constructor; simpl; [done| |by apply full_insert|].
      * rewrite Hfb1. unfold more. rewrite length_app, Nat2Z.inj_add. fold off.
        rewrite (nblk_after off (off / BSIZE)) by (done || lia). done.
      * intros b Hb. unfold mview at 1. simpl. rewrite disk_read_insert. rewrite decide_False by lia. apply (gr_same _ _ _ _ _ _ _ _ _ Hg).
        pose proof (la_ind _ _ _ _ Hl') as Hind. destruct (NDIRECT <? _); [right; lia|by left].
    + apply (gr_fields _ _ _ _ _ _ _ _ _ Hg).
Qed.

Lemma iappend_loop D F n inum m p : forall s,
  full s -> img (mview s) (mk_freeblock s) D F n -> 1 <= inum < n -> (length p < m)%nat ->
  Z.of_nat (length (F inum)) + Z.of_nat (length p) <= MAXFILE * BSIZE -> mk_freeblock s + more (F inum) p <= FSSIZE ->
  returns (loop m iappend_step (D inum, Z.of_nat (length (F inum)), p) s) (fun r s' => exists d',
    r = (d', Z.of_nat (length (F inum ++ p))) /\ img (mview s') (mk_freeblock s') (<[inum := d']> D) (<[inum := F inum ++ p]> F) n /\
    mk_frame (more (F inum) p) s s' /\ same_fields (D inum) d').
Proof.
  revert D F p. induction m as [|m IH]; intros D F p s Hfull Himg Hi Hm Hsz Hfb; [lia|]. cbn [loop]. mred.
  destruct (decide (p = [])) as [->|Hne].
  - simpl. exists (D inum). rewrite app_nil_r. split_and!; [done| |by constructor; [|rewrite more_nil; lia| |]|done].
    eapply img_change; [exact Himg|..]; intros j _; destruct (decide (j = inum)) as [->|]; by rewrite ?fn_lookup_insert, ?fn_lookup_insert_ne.
  - eapply returns_obind, returns_mono; [apply (iappend_step_spec s D F n inum p); try done; lia|]. cbn beta.
    intros r s1 (d1 & c & p' & -> & -> & Hc & Himg1 & [Hf1 Hf2 Hff Hf3] & Hsf). assert (Hcl : (0 < length c)%nat) by (destruct c; [done|simpl; lia]).
    rewrite length_app in Hm, Hsz. rewrite more_app in Hfb.
    pose proof (IH (<[inum := d1]> D) (<[inum := F inum ++ c]> F) p' s1 Hff Himg1 Hi) as Hrec. rewrite !fn_lookup_insert in Hrec.
    eapply returns_mono; [apply Hrec; rewrite ?length_app; lia|]. cbn beta.
    intros r s2 (d2 & -> & Himg2 & [Hg1 Hg2 Hgf Hg3] & Hsf2). exists d2. rewrite <- app_assoc in *. split_and!; [done| | |].
    + eapply img_change; [exact Himg2|..]; intros j _; destruct (decide (j = inum)) as [->|]; by rewrite ?fn_lookup_insert, ?fn_lookup_insert_ne.
    + constructor; [congruence|rewrite more_app; lia|done|]. intros b Hb. by rewrite Hg3, Hf3.
    + unfold same_fields in *. intuition congruence.
Qed.

(** The image built so far: its inodes, as they are on disk, hold [F]. *)
Record img_ok (s : mkst) (F : Z -> list Z) : Prop := {
  io_img : img (mview s) (mk_freeblock s) (disk_inode mkfs_sb (mview s)) F (mk_freeinode s);
  io_size i : 1 <= i < mk_freeinode s -> di_size (disk_inode mkfs_sb (mview s) i) = Z.of_nat (length (F i));
  io_full : full s;
  io_inodes : 1 <= mk_freeinode s <= NINODES;
}.

Lemma IBLOCK_range i : 0 <= i <= NINODES -> 33 <= IBLOCK i mkfs_sb < 46.
Proof.
  intros H. unfold IBLOCK. change (sb_inodestart mkfs_sb) with 33. change IPB with 16. unfold NINODES in H.
  pose proof (Z.div_pos i 16). pose proof (Z.div_lt_upper_bound i 16 13). lia.
Qed.

(** winode stores the inode and touches nothing else. *)
Lemma winode_spec s inum d :
  full s -> dinode_ok d -> 0 <= inum <= NINODES -> (forall b, length (mview s b) = Z.to_nat BSIZE) ->
  returns (winode inum d s) (fun _ s' => full s' /\ mk_freeinode s' = mk_freeinode s /\ mk_freeblock s' = mk_freeblock s /\
    (forall b, b <> IBLOCK inum mkfs_sb -> mview s' b = mview s b) /\ (forall b, length (mview s' b) = Z.to_nat BSIZE) /\
    forall i, disk_inode mkfs_sb (mview s') i = if decide (i = inum) then d else disk_inode mkfs_sb (mview s) i).
Proof.
  intros Hfull Hd Hi Hlen. unfold winode. pose proof (IBLOCK_range inum Hi). rewrite rsect_bind by (done || (unfold FSSIZE; lia)).
  unfold wsect. mred. simpl.
  assert (HV : forall b, mview (mkMk (<[IBLOCK inum mkfs_sb := block_set_dinode (mview s (IBLOCK inum mkfs_sb)) inum d]> (mk_img s))
                 (mk_freeinode s) (mk_freeblock s)) b = put_inode mkfs_sb (mview s) inum d b).
  { intros b. unfold mview at 1, put_inode. simpl. rewrite disk_read_insert. case_decide as E.
    - subst b. by rewrite fn_lookup_insert.
    - by rewrite fn_lookup_insert_ne. }
  split_and!; [by apply full_insert|done|done| | |].
  - intros b Hb. rewrite HV. unfold put_inode. by rewrite fn_lookup_insert_ne.
  - intros b. rewrite HV. unfold put_inode. destruct (decide (b = IBLOCK inum mkfs_sb)) as [->|].
    + rewrite fn_lookup_insert. apply length_block_set_dinode; [done|apply Hd].
    + by rewrite fn_lookup_insert_ne.
  - intros i. rewrite <- (disk_inode_put mkfs_sb (mview s) inum i d); [|done|done]. unfold disk_inode. by rewrite HV.
Qed.

(** Only the addresses of an inode matter to its contents. *)
Lemma laid_addrs V fb d d' nb : dinode_ok d' -> di_addrs d' = di_addrs d -> laid V fb d nb -> laid V fb d' nb.
Proof.
  intros Hd E [H1 H2 H3 H4 H5 H6 H7].
  assert (Hb : forall bn, blk_addr V (ino d') bn = blk_addr V (ino d) bn) by (intros; unfold blk_addr, indirect; simpl; by rewrite E).
  assert (Hi : indirect (ino d') = indirect (ino d)) by (unfold indirect; simpl; by rewrite E).
  constructor; try done; intros *; rewrite ?Hb, ?Hi; auto.
Qed.

Lemma img_inode V fb D F n inum d d' :
  dinode_ok d' -> di_addrs d' = di_addrs d -> img V fb (<[inum := d]> D) F n -> img V fb (<[inum := d']> D) F n.
Proof.
  intros Hd E [H1 H2 H3 H4 H5 H6].
  assert (Hb : forall bn, blk_addr V (ino d') bn = blk_addr V (ino d) bn) by (intros; unfold blk_addr, indirect; simpl; by rewrite E).
  assert (Hown : forall i a, owns V (ino ((<[inum := d']> D) i)) a -> owns V (ino ((<[inum := d]> D) i)) a).
  { intros i a. destruct (decide (i = inum)) as [->|]; [rewrite !fn_lookup_insert|by rewrite !fn_lookup_insert_ne].
    unfold owns, indirect. simpl. rewrite E. by setoid_rewrite Hb. }
  constructor; try done.
  - intros i Hi. specialize (H4 i Hi). destruct (decide (i = inum)) as [->|]; [rewrite fn_lookup_insert in *|by rewrite fn_lookup_insert_ne in *].
    by eapply laid_addrs.
  - intros i o Hi Ho. rewrite <- (H5 i o Hi Ho). destruct (decide (i = inum)) as [->|]; [rewrite !fn_lookup_insert|by rewrite !fn_lookup_insert_ne].
    unfold byte_at. by rewrite Hb.
  - intros i j a Hi Hj Hij Ha Hb'. by apply (H6 i j a); auto.
Qed.

(** iappend() appends: the file holds its old bytes followed by the new
    ones, as the kernel reads them; every other file, the other inodes and the
    rest of the metadata are unchanged, the inode keeps its type and link
    count, and the blocks taken are the next free ones. *)
Lemma iappend_appends s F inum xs :
  img_ok s F -> 1 <= inum < mk_freeinode s ->
  Z.of_nat (length (F inum)) + Z.of_nat (length xs) <= MAXFILE * BSIZE ->
  mk_freeblock s + more (F inum) xs <= FSSIZE ->
  returns (iappend inum xs s) (fun _ s' =>
    img_ok s' (<[inum := F inum ++ xs]> F) /\ mk_freeinode s' = mk_freeinode s /\
    mk_freeblock s' = mk_freeblock s + more (F inum) xs /\
    (forall b, b < nmeta -> b <> IBLOCK inum mkfs_sb -> mview s' b = mview s b) /\
    (forall i, i <> inum -> 0 <= i <= NINODES -> disk_inode mkfs_sb (mview s') i = disk_inode mkfs_sb (mview s) i) /\
    di_type (disk_inode mkfs_sb (mview s') inum) = di_type (disk_inode mkfs_sb (mview s) inum) /\
    di_nlink (disk_inode mkfs_sb (mview s') inum) = di_nlink (disk_inode mkfs_sb (mview s) inum)).
Proof.
  intros [Himg Hsize Hfull Hino] Hi Hsz Hfb. pose proof (IBLOCK_range inum ltac:(lia)) as Hib.
  unfold iappend, rinode. mred. rewrite rsect_full by (done || (unfold FSSIZE; lia)). mred.
  change (block_dinode (mview s (IBLOCK inum mkfs_sb)) inum) with (disk_inode mkfs_sb (mview s) inum).
  rewrite Hsize by done. eapply returns_obind, returns_mono; [apply (iappend_loop _ F (mk_freeinode s) inum (S (length xs)) xs); done || lia|].
  cbn beta. intros r s1 (d & -> & Himg1 & [Hf1 Hf2 Hff Hf3] & Hsf). destruct Hsf as (Hty & _ & _ & Hnl & _).
  pose proof (la_ok _ _ _ _ (img_laid _ _ _ _ _ Himg1 inum Hi)) as Hd. rewrite fn_lookup_insert in Hd.
  set (d' := set_di_size (Z.of_nat (length (F inum ++ xs))) d).
  assert (Hd' : dinode_ok d').
  { destruct Hd. constructor; try done. simpl. unfold is_u32, d'. simpl. rewrite length_app.
    change (MAXFILE * BSIZE) with 274432 in Hsz. lia. }
  eapply returns_mono; [apply (winode_spec s1 inum d' Hff Hd'); [lia|apply (img_len _ _ _ _ _ Himg1)]|]. cbn beta.
  intros _ s2 (Hgf & Hg1 & Hg2 & Hg3 & Hg4 & Hg5).
  assert (Hold : forall i, i <> inum -> 0 <= i <= NINODES -> disk_inode mkfs_sb (mview s2) i = disk_inode mkfs_sb (mview s) i).
  { intros i Hne Hr. rewrite Hg5, decide_False by done. unfold disk_inode. rewrite Hf3; [done|].
    pose proof (IBLOCK_range i Hr). change nmeta with 47. lia. }
  split_and!.
  - constructor.
    + rewrite Hg1, Hg2, Hf1. eapply (img_meta (mview s1)).
      * intros b Hb. apply Hg3. change nmeta with 47 in Hb. lia.
      * done.
      * eapply (img_change _ _ _ _ _ _ _ (img_inode _ _ _ _ _ _ d d' Hd' eq_refl Himg1)).
        -- intros i Hr. destruct (decide (i = inum)) as [->|]; [by rewrite Hg5, decide_True, fn_lookup_insert|].
           rewrite fn_lookup_insert_ne by done. apply Hold; [done|lia].
        -- done.
    + rewrite Hg1, Hf1. intros i Hr. destruct (decide (i = inum)) as [->|]; [by rewrite Hg5, decide_True, fn_lookup_insert|].
      rewrite fn_lookup_insert_ne, Hold by (done || lia). by apply Hsize.
    + done.
    + rewrite Hg1, Hf1. done.
  - congruence.
  - lia.
  - intros b Hb Hne. by rewrite Hg3, Hf3.
  - done.
  - rewrite Hg5, decide_True by done. exact Hty.
  - rewrite Hg5, decide_True by done. exact Hnl.
Qed.
