(* ===== verification/FsImage.v ===== *)
(** * The disk image mkfs builds

    The whole run of mkfs: the image it leaves holds the superblock, a root
    directory with an entry per file, and the files, each in an inode
    of its own; the bitmap marks exactly the blocks in use, and every inode
    satisfies what the kernel's file operations require ([file_ok] of
    Content.v). *)

From S2P Require Import Prelude State Spinlock CString Sysargs Proc ReadyQueue Sleeplock Sleeping Bio BufferCache Log Wal Transaction Usercopy Fs Bitmap Inodes Truncate Content ReadWrite Mkfs Image.

(** ** The image under construction

    [G] lists the inodes made so far, from inode 1 on, with type and
    contents. *)

Definition contents (G : list (Z * list Z)) (i : Z) : list Z := (G !!! Z.to_nat (i - 1)).2.

Definition total (G : list (Z * list Z)) : Z :=
  foldr (fun x t => blocks (nblk (Z.of_nat (length x.2))) + t) 0 G.

Definition super_block : list Z := sb_bytes mkfs_sb ++ replicate (Z.to_nat BSIZE - 32) 0.

Record built (s : mkst) (G : list (Z * list Z)) : Prop := {
  bu_img : img_ok s (contents G);
  bu_count : mk_freeinode s = 1 + Z.of_nat (length G);
  bu_free : mk_freeblock s = nmeta + total G;
  bu_type i x : G !! i = Some x ->
    di_type (disk_inode mkfs_sb (mview s) (1 + Z.of_nat i)) = x.1 /\ di_nlink (disk_inode mkfs_sb (mview s) (1 + Z.of_nat i)) = 1;
  bu_unused i : mk_freeinode s <= i <= NINODES -> di_type (disk_inode mkfs_sb (mview s) i) = 0;
  bu_super : mview s 1 = super_block;
}.

Lemma total_app G x : total (G ++ [x]) = total G + blocks (nblk (Z.of_nat (length x.2))).
Proof. induction G as [|y G IH]; simpl; [|fold (total G); fold (total (G ++ [x])); rewrite IH]; lia. Qed.

Lemma total_insert G i ty ty' l xs : G !! i = Some (ty, l) -> total (<[i := (ty', l ++ xs)]> G) = total G + more l xs.
Proof.
  revert i. induction G as [|y G IH]; intros [|i] H; simplify_eq/=; fold (total G).
  - unfold more. lia.
  - fold (total (<[i := (ty', l ++ xs)]> G)). rewrite (IH i H). lia.
Qed.

Lemma contents_lookup G i x : G !! i = Some x -> contents G (1 + Z.of_nat i) = x.2.
Proof.
  intros H. unfold contents. replace (Z.to_nat _) with i by lia. by rewrite (list_lookup_total_correct _ _ _ H).
Qed.

Lemma img_ok_ext s F F' : (forall i, 1 <= i < mk_freeinode s -> F' i = F i) -> img_ok s F -> img_ok s F'.
Proof.
  intros HF [H1 H2 H3 H4]. constructor; try done; [by eapply img_change|]. intros i Hi. rewrite HF by done. by apply H2.
Qed.

(** ** ialloc *)

Definition fresh_dinode (type : Z) : dinode := mkDinode type 0 0 1 0 (replicate 13 0).

Lemma fresh_ok ty : is_s16 ty -> dinode_ok (fresh_dinode ty).
Proof.
  intros H. constructor; try done. apply Forall_replicate. unfold is_u32. lia.
Qed.

Lemma fresh_addr V ty bn : 0 <= bn < MAXFILE -> blk_addr V (ino (fresh_dinode ty)) bn = 0.
Proof.
  intros Hb. unfold blk_addr. destruct (Z.ltb_spec bn NDIRECT); [|done].
  unfold ino. cbn -[replicate]. apply (lookup_total_replicate_2 (A := Z)). unfold NDIRECT in *. lia.
Qed.

Lemma fresh_laid V fb ty : is_s16 ty -> laid V fb (fresh_dinode ty) 0.
Proof.
  intros H. constructor; try done; try lia; [by apply fresh_ok|]. intros bn Hb. by apply fresh_addr.
Qed.

Lemma fresh_owns V ty a : owns V (ino (fresh_dinode ty)) a -> False.
Proof. intros [Ha [E|(bn & Hbn & E)]]; [done|]. rewrite fresh_addr in E by done. congruence. Qed.

Lemma img_new V fb D F n ty :
  img V fb D F n -> is_s16 ty -> img V fb (<[n := fresh_dinode ty]> D) (<[n := []]> F) (n + 1).
Proof.
  intros [H1 H2 H3 H4 H5 H6] Hty.
  constructor; try done.
  - intros i Hi. destruct (decide (i = n)) as [->|]; [rewrite !fn_lookup_insert; by apply fresh_laid|].
    rewrite !fn_lookup_insert_ne by done. apply H4. lia.
  - intros i o Hi Ho. destruct (decide (i = n)) as [->|].
    + rewrite !fn_lookup_insert. unfold byte_at. by rewrite fresh_addr by (by apply blk_range).
    + rewrite !fn_lookup_insert_ne by done. apply H5; [lia|done].
  - intros i j a Hi Hj Hij. destruct (decide (i = n)) as [->|]; [rewrite fn_lookup_insert; by intros ?%fresh_owns|].
    destruct (decide (j = n)) as [->|]; [rewrite fn_lookup_insert; by intros _ ?%fresh_owns|].
    rewrite !fn_lookup_insert_ne by done. apply H6; lia.
Qed.

Lemma ialloc_built s G ty :
  built s G -> is_s16 ty -> Z.of_nat (length G) + 2 <= NINODES ->
  returns (ialloc ty s) (fun r s' => r = 1 + Z.of_nat (length G) /\ built s' (G ++ [(ty, [])])).
Proof.
  intros [[Himg Hsz Hfull Hino] Hn Hfb Hty Hun Hsup] H16 Hle. unfold ialloc. mred. rewrite u32_small by (unfold NINODES in *; lia).
  set (n := mk_freeinode s) in *. set (s1 := mkMk _ _ _).
  eapply returns_obind, returns_mono; [apply (winode_spec s1 n (fresh_dinode ty)); [done|by apply fresh_ok|lia|apply (img_len _ _ _ _ _ Himg)]|].
  cbn beta. intros _ s2 (Hf2 & Hg1 & Hg2 & Hg3 & Hg4 & Hg5). simpl in Hg1, Hg2.
  change (mview s1) with (mview s) in *. pose proof (IBLOCK_range n ltac:(lia)) as Hib.
  assert (HF : forall i, 1 <= i < n + 1 -> contents (G ++ [(ty, [])]) i = (<[n := []]> (contents G) : Z -> list Z) i).
  { intros i Hi. unfold contents. destruct (decide (i = n)) as [->|].
    - rewrite fn_lookup_insert, Hn. replace (Z.to_nat _) with (length G) by lia. by rewrite list_lookup_total_middle.
    - rewrite fn_lookup_insert_ne by done. rewrite lookup_total_app_l by lia. done. }
  simpl. split; [done|]. constructor.
  - constructor.
    + rewrite Hg1, Hg2. apply (img_meta (mview s)); [|done|].
      * intros b Hb. apply Hg3. change nmeta with 47 in Hb. lia.
      * eapply img_change; [exact (img_new _ _ _ _ _ ty Himg H16)| |by intros; apply HF].
        intros i Hi. rewrite Hg5. case_decide as E; [by rewrite E, fn_lookup_insert|by rewrite fn_lookup_insert_ne].
    + rewrite Hg1. intros i Hi. rewrite Hg5, HF by done. case_decide as E; [by rewrite E, fn_lookup_insert|].
      rewrite fn_lookup_insert_ne by done. apply Hsz. lia.
    + done.
    + lia.
  - rewrite Hg1, length_app. simpl. lia.
  - rewrite Hg2, total_app, Hfb. change (blocks _) with 0. lia.
  - intros i x [H|[Hlen H]]%lookup_app_Some.
    + rewrite Hg5, decide_False; [by apply Hty|]. apply lookup_lt_Some in H. lia.
    + apply list_lookup_singleton_Some in H as [Hi <-]. rewrite Hg5, decide_True by lia. done.
  - intros i Hi. rewrite Hg5, decide_False by lia. apply Hun. lia.
  - rewrite Hg3 by lia. done.
Qed.

Lemma iappend_built s G i ty l xs :
  built s G -> G !! i = Some (ty, l) -> Z.of_nat (length l) + Z.of_nat (length xs) <= MAXFILE * BSIZE ->
  nmeta + total G + more l xs <= FSSIZE ->
  returns (iappend (1 + Z.of_nat i) xs s) (fun _ s' => built s' (<[i := (ty, l ++ xs)]> G)).
Proof.
  intros [Himg Hn Hfb Hty Hun Hsup] Hi Hsz Htot. pose proof (lookup_lt_Some _ _ _ Hi) as Hlt.
  pose proof (contents_lookup _ _ _ Hi) as Hc. simpl in Hc. pose proof (io_inodes _ _ Himg) as Hin.
  eapply returns_mono; [apply (iappend_appends s (contents G) (1 + Z.of_nat i) xs Himg); rewrite ?Hc; lia|].
  cbn beta. rewrite Hc. intros _ s' (Himg' & Hg1 & Hg2 & Hg3 & Hg4 & Hg5 & Hg6).
  pose proof (IBLOCK_range (1 + Z.of_nat i) ltac:(lia)) as Hib. constructor.
  - eapply img_ok_ext; [|exact Himg']. intros j Hj. unfold contents. destruct (decide (j = 1 + Z.of_nat i)) as [->|].
    + rewrite fn_lookup_insert. replace (Z.to_nat _) with i by lia. by rewrite list_lookup_total_insert_eq.
    + rewrite fn_lookup_insert_ne by done. rewrite list_lookup_total_insert_ne by lia. done.
  - rewrite length_insert. lia.
  - rewrite (total_insert _ _ ty _ l) by done. lia.
  - intros j x Hj. destruct (decide (j = i)) as [->|].
    + rewrite list_lookup_insert_eq in Hj by done. injection Hj as <-. cbn [fst]. rewrite Hg5, Hg6. by apply (Hty i (ty, l)).
    + rewrite list_lookup_insert_ne in Hj by done. pose proof (lookup_lt_Some _ _ _ Hj). rewrite Hg4 by lia. by apply Hty.
  - intros j Hj. rewrite Hg4 by lia. apply Hun. lia.
  - rewrite Hg3 by (change nmeta with 47; lia). done.
Qed.

(** Writing the file a block at a time writes it all. *)
Lemma iappend_chunks G i ty chunks : forall s l,
  built s (<[i := (ty, l)]> G) -> (i < length G)%nat -> Z.of_nat (length (l ++ concat chunks)) <= MAXFILE * BSIZE ->
  nmeta + total (<[i := (ty, l ++ concat chunks)]> G) <= FSSIZE ->
  returns (foreach chunks (iappend (1 + Z.of_nat i)) s) (fun _ s' => built s' (<[i := (ty, l ++ concat chunks)]> G)).
Proof.
  induction chunks as [|c cs IH]; intros s l Hb Hi Hsz Htot; simpl in *; [by rewrite app_nil_r|].
  assert (Hl : (<[i := (ty, l)]> G) !! i = Some (ty, l)) by (by apply list_lookup_insert_eq).
  assert (Ht : forall xs, total (<[i := (ty, l ++ xs)]> G) = total (<[i := (ty, l)]> G) + more l xs).
  { intros xs. rewrite <- (total_insert _ i ty ty l xs Hl). by rewrite list_insert_insert_eq. }
  rewrite Ht, more_app in Htot. pose proof (more_nonneg (l ++ c) (concat cs)). rewrite !length_app in Hsz.
  eapply returns_obind, returns_mono; [apply (iappend_built s _ i ty l c Hb Hl); lia|].
  cbn beta. intros _ s1 H1. rewrite list_insert_insert_eq in H1.
  eapply returns_mono; [apply (IH s1 (l ++ c) H1 Hi)|].
  - rewrite !length_app. lia.
  - rewrite <- app_assoc, Ht, more_app. lia.
  - cbn beta. intros _ s2. by rewrite <- app_assoc.
Qed.

(** ** The files of the command line *)

Definition short_name (f : list Z * option (list (list Z))) : list Z :=
  drop_prefix [UNDERSCORE] (drop_prefix user_prefix f.1).

(** What a file holds. *)
Definition data_of (f : list Z * option (list (list Z))) : list Z := concat (default [] f.2).

(** The file can be opened and its name fits in a directory entry. *)
Definition acceptable (f : list Z * option (list (list Z))) : bool :=
  bool_decide (is_Some f.2) && negb (bool_decide (SLASH ∈ drop_prefix user_prefix f.1)) &&
  (Z.of_nat (length (short_name f)) <=? DIRSIZ) && (Z.of_nat (length (data_of f)) <=? MAXFILE * BSIZE).

(** The directory entries of the files, from inode [n] on. *)
Fixpoint entries (n : Z) (fs : list (list Z * option (list (list Z)))) : list Z :=
  match fs with
  | [] => []
  | f :: fs' => dirent_of n (short_name f) ++ entries (n + 1) fs'
  end.

Definition file_nodes (fs : list (list Z * option (list (list Z)))) : list (Z * list Z) := (fun f => (T_FILE, data_of f)) <$> fs.

Lemma blocks_nonneg l : 0 <= blocks (nblk (Z.of_nat l)).
Proof. pose proof (blocks_mono 0 (nblk (Z.of_nat l))) as H. change (blocks 0) with 0 in H. apply H. unfold nblk. apply Z.div_pos; unfold BSIZE; lia. Qed.

Lemma total_nonneg G : 0 <= total G.
Proof. induction G as [|x G IH]; simpl; [lia|]. fold (total G). pose proof (blocks_nonneg (length x.2)). lia. Qed.

Lemma total_join G H : total (G ++ H) = total G + total H.
Proof. induction G as [|x G IH]; simpl; [lia|]. fold (total G) (total (G ++ H)). rewrite IH. lia. Qed.

(** The blocks of part of the image are no more than those of all. *)
Lemma total_grows ty r a X Y : total ((ty, r) :: X) <= total ((ty, r ++ a) :: X ++ Y).
Proof.
  simpl. fold (total X) (total (X ++ Y)). rewrite total_join. pose proof (more_nonneg r a). pose proof (total_nonneg Y).
  unfold more in *. lia.
Qed.

Lemma length_dirent n name : length (dirent_of n name) = 16%nat.
Proof. unfold dirent_of, mk_dirent. rewrite length_app, length_le_bytes, length_take, length_app, length_replicate. unfold DIRSIZ. lia. Qed.

Lemma length_entries n fs : length (entries n fs) = (16 * length fs)%nat.
Proof. revert n. induction fs as [|f fs IH]; intros n; [done|]. cbn [entries]. rewrite length_app, length_dirent, IH. simpl. lia. Qed.

Lemma add_file_built s r X f :
  built s ((T_DIR, r) :: X) -> acceptable f = true -> Z.of_nat (length X) + 3 <= NINODES ->
  (length r <= 16 * (length X + 2))%nat ->
  nmeta + total ((T_DIR, r ++ dirent_of (2 + Z.of_nat (length X)) (short_name f)) :: X ++ [(T_FILE, data_of f)]) <= FSSIZE ->
  returns (add_file ROOTINO f s) (fun _ s' =>
    built s' ((T_DIR, r ++ dirent_of (2 + Z.of_nat (length X)) (short_name f)) :: X ++ [(T_FILE, data_of f)])).
Proof.
  intros Hb Hacc HX Hr Htot. unfold acceptable in Hacc. rewrite !andb_true_iff, negb_true_iff in Hacc.
  destruct Hacc as [[[Hopen Hslash] Hname] Hsz]. apply bool_decide_eq_true in Hopen as [chunks Hch].
  unfold data_of in *. rewrite Hch in *. simpl in Hsz, Htot. apply Z.leb_le in Hsz.
  unfold add_file. rewrite Hslash, Hch. fold (short_name f). rewrite Hname. cbn [negb].
  set (n := 2 + Z.of_nat (length X)) in *. set (de := dirent_of n (short_name f)) in *.
  eapply returns_obind, returns_mono; [apply (ialloc_built s _ T_FILE Hb); [done|simpl; lia]|].
  cbn beta. intros i s1 [-> H1]. replace (1 + Z.of_nat (length _)) with n by (simpl; lia).
  replace (u16 n) with n by (symmetry; apply Z.mod_small; unfold n, NINODES in *; lia). fold de.
  assert (Hde : length de = 16%nat) by apply length_dirent.
  pose proof (total_grows T_DIR (r ++ de) [] X [(T_FILE, concat chunks)]) as Hg. rewrite app_nil_r in Hg.
  eapply returns_obind, returns_mono;
    [apply (iappend_built s1 (((T_DIR, r) :: X) ++ [(T_FILE, [])]) 0 T_DIR r de H1 eq_refl)|].
  - rewrite Hde. change (MAXFILE * BSIZE) with 274432. unfold NINODES in *. lia.
  - rewrite total_app. change (blocks (nblk _)) with 0. rewrite Z.add_0_r.
    rewrite <- Z.add_assoc, <- (total_insert ((T_DIR, r) :: X) 0 T_DIR T_DIR r de eq_refl). simpl in *. lia.
  - cbn beta. intros _ s2 H2. simpl in H2.
    pose proof (iappend_chunks ((T_DIR, r ++ de) :: X ++ [(T_FILE, [])]) (S (length X)) T_FILE chunks s2 []) as H3.
    assert (Hins : forall x : Z * list Z, <[S (length X) := x]> ((T_DIR, r ++ de) :: X ++ [(T_FILE, [])]) = (T_DIR, r ++ de) :: X ++ [x]).
    { intros x. simpl. f_equal. rewrite insert_app_r_alt, Nat.sub_diag by done. done. }
    rewrite !Hins in H3. replace (1 + Z.of_nat (S (length X))) with n in H3 by lia. apply H3; [done| |done|done].
    simpl. rewrite length_app. simpl. lia.
Qed.

Lemma add_files_built fs : forall s r X,
  built s ((T_DIR, r) :: X) -> Forall (fun f => acceptable f = true) fs -> Z.of_nat (length X + length fs) + 2 <= NINODES ->
  (length r <= 16 * (length X + 2))%nat ->
  nmeta + total ((T_DIR, r ++ entries (2 + Z.of_nat (length X)) fs) :: X ++ file_nodes fs) <= FSSIZE ->
  returns (foreach fs (add_file ROOTINO) s) (fun _ s' =>
    built s' ((T_DIR, r ++ entries (2 + Z.of_nat (length X)) fs) :: X ++ file_nodes fs)).
Proof.
  induction fs as [|f fs IH]; intros s r X Hb Hacc HX Hr Htot.
  { cbn [entries file_nodes fmap list_fmap] in *. by rewrite !app_nil_r in *. }
  apply Forall_cons in Hacc as [Hf Hfs]. cbn [foreach entries length] in *. unfold file_nodes in *. rewrite fmap_cons in *. fold (file_nodes fs) in *.
  rewrite app_assoc in *. rewrite (cons_middle _ X (file_nodes fs)), app_assoc in *.
  set (de := dirent_of _ (short_name f)) in *. set (x := (T_FILE, data_of f)) in *.
  pose proof (total_grows T_DIR (r ++ de) (entries (2 + Z.of_nat (length X) + 1) fs) (X ++ [x]) (file_nodes fs)).
  mred. eapply returns_obind, returns_mono; [apply (add_file_built s r X f Hb Hf); fold de x; lia|].
  cbn beta. fold de x. intros _ s1 H1. specialize (IH s1 (r ++ de) (X ++ [x]) H1 Hfs).
  assert (Hde : length de = 16%nat) by apply length_dirent.
  rewrite !length_app in IH. cbn [length] in IH.
  replace (2 + Z.of_nat (length X + 1)) with (2 + Z.of_nat (length X) + 1) in IH by lia. apply IH; lia || done.
Qed.

(** ** The first steps of main *)

Lemma zero_inode_free i : 0 <= i <= NINODES -> di_type (block_dinode zero_block i) = 0.
Proof.
  intros Hi. unfold block_dinode, dinode_off. change IPB with 16. pose proof (Z.mod_pos_bound i 16 ltac:(lia)) as Hm.
  assert (Hin : i mod 16 ∈ zrange 0 16) by (by apply elem_of_zrange). revert Hin. generalize (i mod 16) as j.
  apply Forall_forall. repeat (constructor; [vm_compute; reflexivity|]). constructor.
Qed.

(** The blank image: all sectors zero. *)
Record blank (k : Z) (s : mkst) : Prop := {
  bl_full b : 0 <= b < k -> is_Some (mk_img s !! b);
  bl_zero b : mview s b = zero_block;
  bl_inode : mk_freeinode s = 1;
  bl_block : mk_freeblock s = nmeta;
}.

Lemma zeroing s : blank 0 s -> returns (foreach (zrange 0 FSSIZE) (fun i => wsect i zero_block) s) (fun _ s' => blank FSSIZE s').
Proof.
  intros H0. apply (foreach_zrange blank); [done|done|]. intros i s1 Hi [H1 H2 H3 H4]. unfold wsect. simpl. constructor; simpl; try done.
  - intros b Hb. destruct (decide (b = i)) as [->|]; [rewrite lookup_insert_eq; eauto|]. rewrite lookup_insert_ne by done. apply H1. lia.
  - intros b. unfold mview. simpl. rewrite disk_read_insert. case_decide; [done|apply H2].
Qed.

Lemma super_built s : blank FSSIZE s -> returns (wsect 1 super_block s) (fun _ s' => built s' []).
Proof.
  intros [H1 H2 H3 H4]. unfold wsect. simpl. set (s' := mkMk _ _ _).
  assert (HV : forall b, mview s' b = if decide (b = 1) then super_block else zero_block).
  { intros b. unfold mview, s'. simpl. rewrite disk_read_insert. repeat case_decide; try congruence; apply H2. }
  assert (Hl : length super_block = Z.to_nat BSIZE) by (vm_compute; reflexivity).
  constructor.
  - constructor; simpl; rewrite ?H3; [|lia|by apply full_insert|unfold NINODES; lia].
    constructor; rewrite ?H4; try lia.
    + intros b. rewrite HV. by case_decide.
    + intros b Hb. change nmeta with 47 in Hb. rewrite HV, decide_False by lia. done.
  - done.
  - simpl. rewrite H4. done.
  - done.
  - intros i Hi. simpl in Hi. rewrite H3 in Hi. unfold disk_inode. pose proof (IBLOCK_range i ltac:(lia)).
    rewrite HV, decide_False by lia. apply zero_inode_free. lia.
  - rewrite HV. by rewrite decide_True.
Qed.

(** ** The inodes of the finished image *)

Definition dir_contents (fs : list (list Z * option (list (list Z)))) : list Z :=
  (dirent_of ROOTINO [46] ++ dirent_of ROOTINO [46; 46]) ++ entries 2 fs.

Definition nodes (fs : list (list Z * option (list (list Z)))) : list (Z * list Z) := (T_DIR, dir_contents fs) :: file_nodes fs.

Definition root_size (fs : list (list Z * option (list (list Z)))) : Z := (Z.of_nat (length (dir_contents fs)) / BSIZE + 1) * BSIZE.

Lemma length_dir_contents fs : length (dir_contents fs) = (16 * (2 + length fs))%nat.
Proof. unfold dir_contents. rewrite !length_app, !length_dirent, length_entries. lia. Qed.

(** mkfs up to the last file, and [k] after it. *)
Lemma main_files s fs (k : Z -> M mkst unit) Q :
  built s [] -> Forall (fun f => acceptable f = true) fs -> Z.of_nat (length fs) + 2 <= NINODES -> nmeta + total (nodes fs) <= FSSIZE ->
  (forall s', built s' (nodes fs) -> returns (k ROOTINO s') Q) ->
  returns ((rootino ← ialloc T_DIR;
            if negb (rootino =? ROOTINO) then panic "assert rootino == ROOTINO" else
            iappend rootino (dirent_of rootino [46]);; iappend rootino (dirent_of rootino [46; 46]);;
            foreach fs (add_file rootino);; k rootino) s) Q.
Proof.
  intros Hb Hacc Hn Htot Hk. mred. eapply returns_obind, returns_mono; [by apply (ialloc_built s [] T_DIR Hb)|].
  cbn beta. intros r s1 [-> H1]. cbn [length app] in H1. change (1 + Z.of_nat 0) with ROOTINO. cbn [Z.eqb Pos.eqb negb ROOTINO].
  pose proof (total_grows T_DIR (dirent_of ROOTINO [46] ++ dirent_of ROOTINO [46; 46]) (entries 2 fs) [] (file_nodes fs)) as Hg.
  change (total _ <= total _) with (1 <= total (nodes fs)) in Hg.
  mred. eapply returns_obind, returns_mono; [apply (iappend_built s1 _ 0 T_DIR [] (dirent_of 1 [46]) H1 eq_refl)|].
  { by vm_compute. } { unfold FSSIZE in *. change (nmeta + _ + _) with 48. change nmeta with 47 in Htot. lia. }
  cbn beta. intros _ s2 H2.
  eapply returns_obind, returns_mono; [apply (iappend_built s2 _ 0 T_DIR (dirent_of 1 [46]) (dirent_of 1 [46; 46]) H2 eq_refl)|].
  { by vm_compute. } { unfold FSSIZE in *. change (nmeta + _ + _) with 48. change nmeta with 47 in Htot. lia. }
  cbn beta. intros _ s3 H3. eapply returns_obind, returns_mono; [apply (add_files_built fs s3 _ [] H3 Hacc)|].
  - simpl. lia.
  - done.
  - exact Htot.
  - cbn beta. intros _ s4 H4. by apply Hk.
Qed.

(** ** The bitmap *)

Lemma bitmap_bits k : (k <= Z.to_nat BPB)%nat ->
  let d := fold_left set_bit (zrange 0 (Z.of_nat k)) zero_block in
  length d = Z.to_nat BSIZE /\ forall bi, 0 <= bi < BPB -> bit d bi = (bi <? Z.of_nat k).
Proof.
  induction k as [|k IH]; intros Hk d.
  { split; [done|]. intros bi Hbi. unfold d, bit. simpl. rewrite zero_block_at, Z.bits_0. symmetry. apply Z.ltb_ge. lia. }
  destruct (IH ltac:(lia)) as [Hlen Hbit]. unfold d. rewrite Nat2Z.inj_succ, <- Z.add_1_r, zrange_snoc, fold_left_app by lia.
  cbn [fold_left]. split; [unfold set_bit; by rewrite length_insert|].
  intros bi Hbi. rewrite bit_set_bit, Hbit by (done || lia).
  destruct (Z.eqb_spec bi (Z.of_nat k)), (Z.ltb_spec bi (Z.of_nat k)), (Z.ltb_spec bi (Z.of_nat k + 1)); done || lia.
Qed.

(** The inode the kernel has in memory after reading inode [i]. *)
Definition kload (dev i : Z) (d : dinode) : inode := load_dinode d (set_i_inum i (set_i_dev dev zero_inode)).
Definition kinode (dev : Z) (V : Z -> list Z) (i : Z) : inode := kload dev i (disk_inode mkfs_sb V i).

(** Its device and number do not matter to its contents. *)
Lemma kload_addr V dev i d bn : blk_addr V (kload dev i d) bn = blk_addr V (ino d) bn.
Proof. done. Qed.
Lemma kload_indirect dev i d : indirect (kload dev i d) = indirect (ino d).
Proof. done. Qed.
Lemma kload_owns V dev i d a : owns V (kload dev i d) a -> owns V (ino d) a.
Proof. done. Qed.
Lemma kinode_owns V dev i a : owns V (kinode dev V i) a -> owns V (ino (disk_inode mkfs_sb V i)) a.
Proof. apply kload_owns. Qed.
Lemma kload_byte V dev i d o : byte_at V (kload dev i d) o = byte_at V (ino d) o.
Proof. done. Qed.

(** The finished image of the files [fs]. *)
Record fs_image (V : Z -> list Z) (fs : list (list Z * option (list (list Z)))) : Prop := {
  fi_super : sb_decode (V 1) = mkfs_sb;
  fi_node i x : nodes fs !! i = Some x ->
    let d := disk_inode mkfs_sb V (1 + Z.of_nat i) in
    di_type d = x.1 /\ di_nlink d = 1 /\ di_size d = (if (i =? 0)%nat then root_size fs else Z.of_nat (length x.2));
  fi_bytes i x o : nodes fs !! i = Some x -> 0 <= o < MAXFILE * BSIZE ->
    byte_at V (kinode ROOTDEV V (1 + Z.of_nat i)) o = x.2 !!! Z.to_nat o;
  fi_free i : Z.of_nat (length (nodes fs)) < i <= NINODES -> di_type (disk_inode mkfs_sb V i) = 0;
  fi_bitmap b : 0 <= b < FSSIZE -> used mkfs_sb V b = (b <? nmeta + total (nodes fs));
  fi_ok i : (i < length (nodes fs))%nat ->
    file_ok ROOTDEV (sb_bmapstart mkfs_sb) V ∅ mkfs_sb (kinode ROOTDEV V (1 + Z.of_nat i));
  fi_disjoint i j a : (i < length (nodes fs))%nat -> (j < length (nodes fs))%nat -> i <> j ->
    owns V (kinode ROOTDEV V (1 + Z.of_nat i)) a -> owns V (kinode ROOTDEV V (1 + Z.of_nat j)) a -> False;
}.

Section finished.
  Context (V : Z -> list Z) (G : list (Z * list Z)).
  Context (Himg : img V (nmeta + total G) (disk_inode mkfs_sb V) (contents G) (1 + Z.of_nat (length G))).
  Context (Htot : nmeta + total G <= FSSIZE) (Hn : Z.of_nat (length G) < NINODES).
  Context (Hbm : forall b, 0 <= b < FSSIZE -> used mkfs_sb V b = (b <? nmeta + total G)).

(** What the kernel requires of an inode. *)
Lemma finished_ok i : 1 <= i <= Z.of_nat (length G) -> file_ok ROOTDEV (sb_bmapstart mkfs_sb) V ∅ mkfs_sb (kinode ROOTDEV V i).
Proof using Type*.
  intros Hi. pose proof (img_laid _ _ _ _ _ Himg i ltac:(lia)) as Hl. set (nb := nblk _) in Hl. unfold kinode.
  set (d := disk_inode mkfs_sb V i) in *. clearbody d.
  pose proof (IBLOCK_range i ltac:(lia)) as Hib. change nmeta with 47 in *. change (sb_bmapstart mkfs_sb) with 46. unfold FSSIZE in *.
  assert (Hin : forall bn, 0 <= bn < MAXFILE -> blk_addr V (ino d) bn <> 0 -> 0 <= bn < nb).
  { intros bn Hbn Ha. destruct (decide (bn < nb)); [lia|]. destruct Ha. apply (la_none _ _ _ _ Hl). lia. }
  constructor; try done.
  - apply (dok_addrs _ (la_ok _ _ _ _ Hl)).
  - intros a Ha%kload_owns. change (i_inum _) with i. destruct (laid_owns _ _ _ _ _ Hl Ha) as [Hr _]. change nmeta with 47 in Hr.
    change (sb_size mkfs_sb) with 2000. split_and!; try lia; [|done]. rewrite Hbm by lia. apply Z.ltb_lt. lia.
  - intros j k Hj Hk. rewrite !kload_addr. intros E Hne. apply (la_inj _ _ _ _ Hl); [by apply Hin|apply Hin; [done|congruence]|done].
  - intros j Hj. rewrite kload_addr, kload_indirect. intros Hne. apply (la_ne _ _ _ _ Hl). by apply Hin.
  - intros b Hb. unfold BBLOCK. change (sb_size mkfs_sb) with 2000 in Hb. change BPB with 8192. rewrite Z.div_small by lia. done.
  - intros b Hb Hu. change (sb_size mkfs_sb) with 2000 in Hb. rewrite Hbm in Hu by lia. apply Z.ltb_ge in Hu. pose proof (total_nonneg G).
    change (i_inum _) with i. split_and!; [done|lia..].
  - change (i_inum _) with i. lia.
Qed.
End finished.

(** The last steps of main: the root directory's size and the bitmap. *)
Record ended (V V2 : Z -> list Z) (fs : list (list Z * option (list (list Z)))) : Prop := {
  en_bm : V2 46 = fold_left set_bit (zrange 0 (nmeta + total (nodes fs))) zero_block;
  en_inode i : 0 <= i <= NINODES -> disk_inode mkfs_sb V2 i =
    if decide (i = 1) then set_di_size (root_size fs) (disk_inode mkfs_sb V 1) else disk_inode mkfs_sb V i;
  en_other b : b <> 46 -> b <> 33 -> V2 b = V b;
  en_len b : length (V2 b) = Z.to_nat BSIZE;
  en_dinode : dinode_ok (set_di_size (root_size fs) (disk_inode mkfs_sb V 1));
}.

Lemma root_size_small fs : Z.of_nat (length fs) + 2 <= NINODES -> 0 <= root_size fs < 5000.
Proof.
  intros Hn. unfold root_size. rewrite length_dir_contents. unfold BSIZE, NINODES in *.
  assert (Z.of_nat (16 * (2 + length fs)) / 1024 < 4) by (apply Z.div_lt_upper_bound; lia).
  pose proof (Z.div_pos (Z.of_nat (16 * (2 + length fs))) 1024). lia.
Qed.

Lemma length_nodes fs : length (nodes fs) = S (length fs).
Proof. unfold nodes, file_nodes. simpl. by rewrite length_fmap. Qed.

Lemma bitmap_of fs : nmeta + total (nodes fs) <= FSSIZE ->
  let d := fold_left set_bit (zrange 0 (nmeta + total (nodes fs))) zero_block in
  length d = Z.to_nat BSIZE /\ forall bi, 0 <= bi < BPB -> bit d bi = (bi <? nmeta + total (nodes fs)).
Proof.
  intros Htot. pose proof (total_nonneg (nodes fs)). change nmeta with 47 in *.
  pose proof (bitmap_bits (Z.to_nat (47 + total (nodes fs)))) as H'. rewrite Z2Nat.id in H' by lia. apply H'.
  unfold FSSIZE in Htot. change BPB with 8192. lia.
Qed.

Lemma main_end s fs :
  built s (nodes fs) -> Z.of_nat (length fs) + 2 <= NINODES -> nmeta + total (nodes fs) <= FSSIZE ->
  returns ((din ← rinode ROOTINO; winode ROOTINO (set_di_size ((di_size din / BSIZE + 1) * BSIZE) din);;
            used ← gets mk_freeblock; balloc used) s) (fun _ s' => ended (mview s) (mview s') fs).
Proof.
  intros [[Himg Hsz Hfull Hin] Hc Hfb Hty Hun Hsup] Hn Htot. unfold rinode. mred. rewrite rsect_full by done. mred.
  change (block_dinode (mview s (IBLOCK ROOTINO mkfs_sb)) ROOTINO) with (disk_inode mkfs_sb (mview s) 1).
  pose proof (length_nodes fs) as Hlen. rewrite Hsz by lia. change (contents (nodes fs) 1) with (dir_contents fs). fold (root_size fs).
  set (d' := set_di_size (root_size fs) (disk_inode mkfs_sb (mview s) 1)). pose proof (root_size_small fs Hn) as Hrs.
  assert (Hd' : dinode_ok d').
  { destruct (la_ok _ _ _ _ (img_laid _ _ _ _ _ Himg 1 ltac:(lia))). constructor; try done. unfold is_u32. simpl. lia. }
  eapply returns_obind, returns_mono; [apply (winode_spec s 1 d' Hfull Hd'); [done|apply (img_len _ _ _ _ _ Himg)]|]. cbn beta.
  intros _ s1 (Hf1 & Hg1 & Hg2 & Hg3 & Hg4 & Hg5). mred. unfold balloc. rewrite Hg2, Hfb.
  rewrite (proj2 (Z.ltb_lt _ _)) by (unfold FSSIZE in Htot; change BPB with 8192; lia). cbn [negb].
  change (fold_left _ _ zero_block) with (fold_left set_bit (zrange 0 (nmeta + total (nodes fs))) zero_block).
  destruct (bitmap_of fs Htot) as [Hbl _]. unfold wsect, modify, returns. set (s2 := mkMk _ _ _).
  assert (HV : forall b, mview s2 b = if decide (b = 46) then fold_left set_bit (zrange 0 (nmeta + total (nodes fs))) zero_block else mview s1 b).
  { intros b. unfold mview, s2. cbn [mk_img]. rewrite disk_read_insert. change (sb_bmapstart mkfs_sb) with 46. repeat case_decide; congruence. }
  constructor.
  - by rewrite HV.
  - intros i Hi. fold d'. rewrite <- Hg5. unfold disk_inode. pose proof (IBLOCK_range i Hi). rewrite HV, decide_False by lia. done.
  - intros b Hb1 Hb2. rewrite HV, decide_False by done. by apply Hg3.
  - intros b. rewrite HV. by case_decide.
  - done.
Qed.

Section image.
  Context (s : mkst) (V : Z -> list Z) (fs : list (list Z * option (list (list Z)))).
  Context (Hb : built s (nodes fs)) (He : ended (mview s) V fs).
  Context (Hn : Z.of_nat (length fs) + 2 <= NINODES) (Htot : nmeta + total (nodes fs) <= FSSIZE).

Lemma ended_img : img V (nmeta + total (nodes fs)) (disk_inode mkfs_sb V) (contents (nodes fs)) (1 + Z.of_nat (length (nodes fs))).
Proof using Type*.
  destruct Hb as [[Himg Hsz Hfull Hin] Hc Hfb Hty Hun Hsup]. rewrite <- Hfb, <- Hc. pose proof (length_nodes fs).
  apply (img_meta (mview s)); [|apply He|].
  - intros b Hb'. change nmeta with 47 in Hb'. apply (en_other _ _ _ He); lia.
  - eapply img_change; [apply (img_inode _ _ (disk_inode mkfs_sb (mview s)) _ _ 1 (disk_inode mkfs_sb (mview s) 1) _ (en_dinode _ _ _ He) eq_refl)| |done].
    + eapply img_change; [exact Himg| |done]. intros i Hi.
      destruct (decide (i = 1)) as [->|]; [by rewrite fn_lookup_insert|by rewrite fn_lookup_insert_ne].
    + intros i Hi. rewrite (en_inode _ _ _ He) by lia. case_decide as E; [by rewrite E, fn_lookup_insert|by rewrite fn_lookup_insert_ne].
Qed.

Lemma ended_bitmap b : 0 <= b < FSSIZE -> used mkfs_sb V b = (b <? nmeta + total (nodes fs)).
Proof using Type*.
  intros Hb'. unfold used, BBLOCK. change BPB with 8192. unfold FSSIZE in *. rewrite Z.div_small, Z.mod_small by lia.
  change (0 + sb_bmapstart mkfs_sb) with 46. rewrite (en_bm _ _ _ He). apply (bitmap_of fs Htot). change BPB with 8192. lia.
Qed.

Lemma ended_image : fs_image V fs.
Proof using Type*.
  pose proof ended_img as Himg. pose proof (length_nodes fs) as Hlen. destruct Hb as [Hok Hc Hfb Hty Hun Hsup].
  constructor.
  - rewrite (en_other _ _ _ He) by done. rewrite Hsup. by vm_compute.
  - intros i x Hx d. pose proof (lookup_lt_Some _ _ _ Hx). destruct (Hty i x Hx) as [Ht1 Ht2]. unfold d. rewrite (en_inode _ _ _ He) by lia.
    destruct i as [|i]; [rewrite decide_True by done; by split_and!|]. rewrite decide_False by lia. split_and!; [done|done|].
    rewrite (io_size _ _ Hok) by lia. by rewrite (contents_lookup _ _ _ Hx).
  - intros i x o Hx Ho. pose proof (lookup_lt_Some _ _ _ Hx). pose proof (img_bytes _ _ _ _ _ Himg (1 + Z.of_nat i) o ltac:(lia) Ho) as Hi.
    unfold kinode. rewrite kload_byte, Hi. by rewrite (contents_lookup _ _ _ Hx).
  - intros i Hi. rewrite (en_inode _ _ _ He), decide_False by lia. apply Hun. lia.
  - apply ended_bitmap.
  - intros i Hi. eapply finished_ok; [exact Himg|done|lia|apply ended_bitmap|lia].
  - intros i j a Hi Hj Hij Ha Hb'. apply kinode_owns in Ha, Hb'.
    apply (img_disj _ _ _ _ _ Himg (1 + Z.of_nat i) (1 + Z.of_nat j) a ltac:(lia) ltac:(lia) ltac:(lia) Ha Hb').
Qed.
End image.

(** The conditions under which mkfs succeeds: every file is acceptable, the
    inodes suffice and the blocks fit. *)
Definition fits (fs : list (list Z * option (list (list Z)))) : bool :=
  forallb acceptable fs && (Z.of_nat (length fs) + 2 <=? NINODES) && (nmeta + total (nodes fs) <=? FSSIZE).

