(* ===== verification/Console.v ===== *)
(** * Console and UART (kernel/console.c, kernel/uart.c)

    The line-editing input ring of the console and the transmit half of the
    UART.  Bytes written to the UART's THR are appended to the kernel output;
    what the device reports (its line status, the bytes it received) is an
    argument of the interrupt handlers. *)

From S2P Require Import Prelude State Spinlock CString Sysargs Proc Usercopy.

Definition INPUT_BUF_SIZE : Z := 128.
Definition BACKSPACE : Z := 0x100.
(** C(x) = x - '@'. *)
Definition C_P : Z := 80 - 64.
Definition C_U : Z := 85 - 64.
Definition C_H : Z := 72 - 64.
Definition C_D : Z := 68 - 64.
Definition DEL : Z := 0x7f.
Definition NL : Z := 10.
Definition CR : Z := 13.

(** WriteReg(THR, c). *)
Definition write_thr (c : Z) : K unit := printf "%c" [u8 c].

Definition uartputc_sync (c : Z) : K unit := write_thr c.

Definition consputc (c : Z) : K unit :=
  if c =? BACKSPACE then uartputc_sync 8;; uartputc_sync 32;; uartputc_sync 8
  else uartputc_sync c.

Definition uartwrite (buf : list Z) : K unit :=
  acquire LTx;;
  foreach buf (fun c =>
    sleep_while (gets k_tx_busy) ChTx LTx;;
    write_thr c;;
    modify (set_k_tx_busy true));;
  release LTx.

Definition procstate_num (st : procstate) : Z :=
  match st with
  | UNUSED => 0 | USED => 1 | SLEEPING => 2 | RUNNABLE => 3 | RUNNING => 4 | ZOMBIE => 5
  end.

Definition procdump : K unit :=
  printf "" [];;
  foreach (seq 0 NPROC) (fun p =>
    pp ← get_proc p;
    if bool_decide (p_state pp = UNUSED) then mret tt
    else printf "%d %s %s" (p_pid pp :: procstate_num (p_state pp) :: p_name pp)).

(** cons.buf[x % INPUT_BUF_SIZE] and the assignment to it. *)
Definition cons_get (x : Z) : K Z :=
  c ← gets k_cons; deref (c_buf c !! Z.to_nat (x mod INPUT_BUF_SIZE)).
Definition cons_put (x v : Z) : K unit :=
  modify (fun s => set_k_cons
    (set_c_buf (<[Z.to_nat (x mod INPUT_BUF_SIZE) := u8 v]> (c_buf (k_cons s))) (k_cons s)) s).
Definition upd_cons (f : cons -> cons) : K unit :=
  modify (fun s => set_k_cons (f (k_cons s)) s).

(** The erase step shared by ^U and backspace. *)
Definition cons_erase : K unit :=
  upd_cons (fun c => set_c_e (u32 (c_e c - 1)) c);; consputc BACKSPACE.

Definition consoleintr (c : Z) : K unit :=
  acquire LCons;;
  (if c =? C_P then procdump
   else if c =? C_U then
     loop (S (Z.to_nat INPUT_BUF_SIZE)) (fun _ : unit =>
       k ← gets k_cons;
       if c_e k =? c_w k then mret (inr tt) else
       x ← cons_get (u32 (c_e k - 1));
       if x =? NL then mret (inr tt) else cons_erase;; mret (inl tt)) tt
   else if (c =? C_H) || (c =? DEL) then
     k ← gets k_cons;
     when (negb (c_e k =? c_w k)) cons_erase
   else
     k ← gets k_cons;
     if negb (c =? 0) && (u32 (c_e k - c_r k) <? INPUT_BUF_SIZE) then
       let c := if c =? CR then NL else c in
       consputc c;;
       cons_put (c_e k) c;;
       upd_cons (fun k => set_c_e (u32 (c_e k + 1)) k);;
       k ← gets k_cons;
       if (c =? NL) || (c =? C_D) || (u32 (c_e k - c_r k) =? INPUT_BUF_SIZE) then
         upd_cons (fun k => set_c_w (c_e k) k);;
         wakeup ChCons
       else mret tt
     else mret tt);;
  release LCons.

(** uartintr(): the line status says whether the transmitter is idle and the
    receive FIFO holds [input]. *)
Definition uartintr (tx_idle : bool) (input : list Z) : K unit :=
  acquire LTx;;
  (if tx_idle then modify (set_k_tx_busy false);; wakeup ChTx else mret tt);;
  release LTx;;
  foreach input consoleintr.

Section console.
  Context `{UC : UserCopy}.

Definition consolewrite (user_src : bool) (src n : Z) : K Z :=
  loop (Z.to_nat n + 1) (fun i =>
    if negb (i <? n) then mret (inr i) else
    let nn := Z.min 32 (n - i) in
    rb ← either_copyin user_src (u64 (src + i)) nn;
    if rb.1 =? -1 then mret (inr i) else
    uartwrite rb.2;;
    mret (inl (i + nn))) 0.

(** One wait of consoleread: false when the process was killed. *)
Definition cons_wait : K bool :=
  loop WAKEUPS (fun _ : unit =>
    k ← gets k_cons;
    if negb (c_r k =? c_w k) then mret (inr true) else
    p ← myproc;
    kd ← killed p;
    if kd : bool then mret (inr false) else
    sleep ChCons LCons;; mret (inl tt)) tt.

Definition consoleread (user_dst : bool) (dst n : Z) : K Z :=
  let target := n in
  acquire LCons;;
  r ← loop (Z.to_nat n + 1) (fun '(dst, n) =>
    if negb (0 <? n) then mret (inr (Some n)) else
    ok ← cons_wait;
    if negb ok then release LCons;; mret (inr None) else
    k ← gets k_cons;
    c ← cons_get (c_r k);
    upd_cons (fun k => set_c_r (u32 (c_r k + 1)) k);;
    if c =? C_D then
      when (n <? target) (upd_cons (fun k => set_c_r (u32 (c_r k - 1)) k));;
      mret (inr (Some n))
    else
      e ← either_copyout user_dst dst [c];
      if e =? -1 then mret (inr (Some n)) else
      if c =? NL then mret (inr (Some (n - 1)))
      else mret (inl (u64 (dst + 1), n - 1))) (dst, n);
  match r with
  | None => mret (-1)
  | Some n => release LCons;; mret (target - n)
  end.

End console.
