(* ===== verification/Pipe.v ===== *)
(** * Pipes (kernel/pipe.c)

    A pipe lives in the page kalloc returned for it; [k_pipes] holds the
    struct at that address.  pipealloc is in File.v, with filealloc and
    fileclose it calls. *)

From S2P Require Import Prelude State Spinlock CString Sysargs Proc Kalloc Usercopy.

Definition PIPESIZE : Z := 512.

Definition get_pipe (pi : Z) : K pipe := t ← gets k_pipes; deref (t !! pi).
Definition upd_pipe (pi : Z) (f : pipe -> pipe) : K unit :=
  x ← get_pipe pi; modify (fun s => set_k_pipes (<[pi := f x]> (k_pipes s)) s).

Definition pipeclose (pi : Z) (writable : bool) : K unit :=
  acquire (LPipe pi);;
  (if writable then upd_pipe pi (set_pi_writeopen false);; wakeup (ChPipeRead pi)
   else upd_pipe pi (set_pi_readopen false);; wakeup (ChPipeWrite pi));;
  x ← get_pipe pi;
  if negb (pi_readopen x) && negb (pi_writeopen x) then
    release (LPipe pi);;
    kfree pi
  else release (LPipe pi).

(** pi->data[pi->nwrite++ % PIPESIZE] = ch. *)
Definition pipe_put (ch : Z) (x : pipe) : pipe :=
  set_pi_nwrite (u32 (pi_nwrite x + 1))
    (set_pi_data (<[Z.to_nat (pi_nwrite x mod PIPESIZE) := ch]> (pi_data x)) x).

Section pipe.
  Context `{UC : UserCopy}.

(** One iteration of the loop of pipewrite on i. *)
Definition pipewrite_step (pr : nat) (pi addr n : Z) (i : Z) : K (Z + Z) :=
  if negb (i <? n) then
    wakeup (ChPipeRead pi);; release (LPipe pi);; mret (inr i) else
  x ← get_pipe pi;
  kd ← (if pi_readopen x then killed pr else mret true);
  if kd : bool then release (LPipe pi);; mret (inr (-1)) else
  if pi_nwrite x =? u32 (pi_nread x + PIPESIZE) then
    wakeup (ChPipeRead pi);;
    sleep (ChPipeWrite pi) (LPipe pi);;
    mret (inl i)
  else
    pp ← get_proc pr;
    rb ← ucopyin (p_pagetable pp) (u64 (addr + i)) 1;
    if rb.1 =? -1 then
      wakeup (ChPipeRead pi);; release (LPipe pi);; mret (inr i) else
    ch ← deref (rb.2 !! O);
    upd_pipe pi (pipe_put ch);;
    mret (inl (i + 1)).

Definition pipewrite (pi addr n : Z) : K Z :=
  pr ← myproc;
  acquire (LPipe pi);;
  loop (Z.to_nat n + 1 + WAKEUPS) (pipewrite_step pr pi addr n) 0.

(** The wait loop of piperead: false when the process was killed. *)
Definition piperead_wait (pr : nat) (pi : Z) : K bool :=
  loop WAKEUPS (fun _ : unit =>
    x ← get_pipe pi;
    if (pi_nread x =? pi_nwrite x) && pi_writeopen x then
      kd ← killed pr;
      if kd : bool then release (LPipe pi);; mret (inr false) else
      sleep (ChPipeRead pi) (LPipe pi);; mret (inl tt)
    else mret (inr true)) tt.

(** The copy loop of piperead on i. *)
Definition piperead_step (pr : nat) (pi addr n : Z) (i : Z) : K (Z + Z) :=
  if negb (i <? n) then mret (inr i) else
  x ← get_pipe pi;
  if pi_nread x =? pi_nwrite x then mret (inr i) else
  ch ← deref (pi_data x !! Z.to_nat (pi_nread x mod PIPESIZE));
  upd_pipe pi (fun x => set_pi_nread (u32 (pi_nread x + 1)) x);;
  pp ← get_proc pr;
  e ← ucopyout (p_pagetable pp) (u64 (addr + i)) [ch];
  if e =? -1 then mret (inr i) else mret (inl (i + 1)).

Definition piperead (pi addr n : Z) : K Z :=
  pr ← myproc;
  acquire (LPipe pi);;
  ok ← piperead_wait pr pi;
  if negb ok then mret (-1) else
  i ← loop (Z.to_nat n + 1) (piperead_step pr pi addr n) 0;
  wakeup (ChPipeWrite pi);;
  release (LPipe pi);;
  mret i.

End pipe.
