(* ===== verification/PipeQueue.v ===== *)
(** * Pipes as queues

    The ring buffer of a pipe, with its two 32-bit counters that wrap around,
    represents a queue of at most PIPESIZE bytes: pipewrite appends to it and
    piperead takes from its front. *)

From S2P Require Import Prelude State Spinlock CString Sysargs Proc ReadyQueue Sleeping Kalloc Usercopy Pipe.

(** ** The queue of a pipe *)

Definition pipe_len (x : pipe) : Z := u32 (pi_nwrite x - pi_nread x).

Record pipe_wf (x : pipe) : Prop := {
  pw_data : length (pi_data x) = Z.to_nat PIPESIZE;
  pw_nread : 0 <= pi_nread x < 2 ^ 32;
  pw_nwrite : 0 <= pi_nwrite x < 2 ^ 32;
  pw_len : pipe_len x <= PIPESIZE;
}.

Definition pipe_at (x : pipe) (i : Z) : Z := pi_data x !!! Z.to_nat ((pi_nread x + i) mod PIPESIZE).
Definition queue (x : pipe) : list Z := pipe_at x <$> zrange 0 (pipe_len x).

Lemma pipe_len_range x : 0 <= pipe_len x < 2 ^ 32.
Proof. unfold pipe_len, u32. apply Z.mod_pos_bound. done. Qed.

Lemma length_queue x : Z.of_nat (length (queue x)) = pipe_len x.
Proof. unfold queue. rewrite length_fmap, length_zrange. pose proof (pipe_len_range x). lia. Qed.

(** The counters wrap together with the index: PIPESIZE divides 2^32. *)
Lemma mod_pipesize a : u32 a mod PIPESIZE = a mod PIPESIZE.
Proof.
  unfold u32, PIPESIZE. apply Z.mod_mod_divide. by exists 8388608.
Qed.

Lemma u32_add_l a b : u32 (u32 a + b) = u32 (a + b).
Proof. unfold u32. apply Zplus_mod_idemp_l. Qed.
Lemma u32_sub_r a b : u32 (a - u32 b) = u32 (a - b).
Proof. unfold u32. apply Zminus_mod_idemp_r. Qed.
Lemma u32_sub_l a b : u32 (u32 a - b) = u32 (a - b).
Proof. unfold u32. apply Zminus_mod_idemp_l. Qed.
(** The tests of the source say full and empty. *)
Lemma pipe_full x : pipe_wf x -> (pi_nwrite x =? u32 (pi_nread x + PIPESIZE)) = (pipe_len x =? PIPESIZE).
Proof.
  intros [_ Hr Hw _]. unfold pipe_len. apply eq_bool_prop_intro. rewrite !Is_true_true, !Z.eqb_eq. split.
  - intros ->. rewrite u32_sub_l. replace (pi_nread x + PIPESIZE - pi_nread x) with PIPESIZE by lia. done.
  - intros <-. rewrite Z.add_comm, u32_add_l. rewrite u32_small; lia.
Qed.

Lemma pipe_empty x : pipe_wf x -> (pi_nread x =? pi_nwrite x) = (pipe_len x =? 0).
Proof.
  intros [_ Hr Hw _]. unfold pipe_len. apply eq_bool_prop_intro. rewrite !Is_true_true, !Z.eqb_eq. split.
  - intros ->. by rewrite Z.sub_diag.
  - intros E. assert (H : u32 (u32 (pi_nwrite x - pi_nread x) + pi_nread x) = u32 (pi_nread x)) by (by rewrite E).
    rewrite u32_add_l, !u32_small in H; lia.
Qed.

(** pi->data[pi->nwrite++ % PIPESIZE] = ch appends. *)
Lemma queue_put ch x :
  pipe_wf x -> pipe_len x <> PIPESIZE ->
  pipe_wf (pipe_put ch x) /\ queue (pipe_put ch x) = queue x ++ [ch].
Proof.
  intros [Hd Hr Hw Hl] Hne. pose proof (pipe_len_range x) as H0.
  assert (Hlen : pipe_len (pipe_put ch x) = pipe_len x + 1).
  { unfold pipe_len in *. simpl. rewrite u32_sub_l.
    replace (pi_nwrite x + 1 - pi_nread x) with (pi_nwrite x - pi_nread x + 1) by lia.
    rewrite <- u32_add_l. apply u32_small. unfold PIPESIZE in *. change (2 ^ 32) with 4294967296 in *. lia. }
  assert (Hnw : pi_nwrite x mod PIPESIZE = (pi_nread x + pipe_len x) mod PIPESIZE).
  { unfold pipe_len. rewrite <- (mod_pipesize (pi_nread x + _)), Z.add_comm, u32_add_l, mod_pipesize.
    f_equal. lia. }
  split.
  - constructor; [simpl; by rewrite length_insert|done|simpl; apply Z.mod_pos_bound; done|lia].
  - unfold queue. rewrite Hlen, zrange_snoc by lia. rewrite fmap_app. simpl. f_equal; [|f_equal].
    + apply list_fmap_ext. intros _ i Hi%list_elem_of_lookup_2%elem_of_zrange. unfold pipe_at. simpl.
      rewrite list_lookup_total_insert_ne; [done|]. rewrite Hnw.
      pose proof (Z.mod_pos_bound (pi_nread x + pipe_len x) PIPESIZE ltac:(done)).
      pose proof (Z.mod_pos_bound (pi_nread x + i) PIPESIZE ltac:(done)).
      intros E. assert (Em : (pi_nread x + pipe_len x) mod PIPESIZE = (pi_nread x + i) mod PIPESIZE) by lia.
      pose proof (Z.div_mod (pi_nread x + pipe_len x) PIPESIZE ltac:(done)).
      pose proof (Z.div_mod (pi_nread x + i) PIPESIZE ltac:(done)). unfold PIPESIZE in *. nia.
    + unfold pipe_at. simpl. rewrite Hnw. apply list_lookup_total_insert_eq. rewrite Hd.
      pose proof (Z.mod_pos_bound (pi_nread x + pipe_len x) PIPESIZE ltac:(done)). lia.
Qed.

Definition pipe_next (x : pipe) : pipe := set_pi_nread (u32 (pi_nread x + 1)) x.

(** ch = pi->data[pi->nread++ % PIPESIZE] takes the first byte. *)
Lemma queue_take x :
  pipe_wf x -> pipe_len x <> 0 ->
  exists ch, pi_data x !! Z.to_nat (pi_nread x mod PIPESIZE) = Some ch /\
    queue x = ch :: queue (pipe_next x) /\ pipe_wf (pipe_next x).
Proof.
  intros [Hd Hr Hw Hl] Hne. pose proof (pipe_len_range x) as H0.
  assert (Hlen : pipe_len (pipe_next x) = pipe_len x - 1).
  { unfold pipe_len in *. simpl. rewrite u32_sub_r.
    replace (pi_nwrite x - (pi_nread x + 1)) with (pi_nwrite x - pi_nread x + (-1)) by lia.
    rewrite <- u32_add_l. rewrite u32_small; lia. }
  pose proof (Z.mod_pos_bound (pi_nread x) PIPESIZE ltac:(done)) as Hm.
  exists (pipe_at x 0). split_and!.
  - unfold pipe_at. rewrite Z.add_0_r. apply list_lookup_lookup_total_lt. lia.
  - unfold queue. rewrite zrange_cons by lia. simpl. f_equal. rewrite Hlen.
    unfold zrange. rewrite <- !list_fmap_compose.
    replace (Z.to_nat (pipe_len x - (0 + 1))) with (Z.to_nat (pipe_len x - 1 - 0)) by lia.
    apply list_fmap_ext. intros _ i _. unfold pipe_at. simpl. do 2 f_equal.
    rewrite <- (mod_pipesize (u32 _ + _)), u32_add_l, mod_pipesize. f_equal. lia.
  - constructor; [done|simpl; apply Z.mod_pos_bound; done|done|lia].
Qed.

(** ** The operations *)

Lemma get_pipe_eq s pi x : k_pipes s !! pi = Some x -> get_pipe pi s = Ret x s.
Proof. intros H. unfold get_pipe. mred. by rewrite H. Qed.

Lemma upd_pipe_eq s pi x f :
  k_pipes s !! pi = Some x -> upd_pipe pi f s = Ret tt (set_k_pipes (<[pi := f x]> (k_pipes s)) s).
Proof. intros H. unfold upd_pipe. mred. by rewrite (get_pipe_eq _ _ _ H). Qed.

Lemma killed_eq p pp h s :
  running p pp h s -> LProc p ∉ h -> killed p s = Ret (p_killed pp) s.
Proof.
  intros [Hc Hp _ _ Hh] Hn. unfold killed. mred. rewrite acquire_eq by (by rewrite Hh). mred.
  rewrite (get_proc_eq _ p pp) by done. mred. rewrite (release_eq _ _ h) by (by rewrite ?Hh).
  mred. f_equal. destruct s. simpl in *. by subst.
Qed.

(** Pipe [pi] is [x] and the other pipes are those of [s0]. *)
Definition pipe_is (s0 : kstate) (pi : Z) (x : pipe) (s : kstate) : Prop :=
  k_pipes s = <[pi := x]> (k_pipes s0).

Lemma pipe_is_lookup s0 pi x s : pipe_is s0 pi x s -> k_pipes s !! pi = Some x.
Proof. unfold pipe_is. intros ->. apply lookup_insert_eq. Qed.

Lemma pipe_is_upd s0 pi x y s :
  pipe_is s0 pi x s -> pipe_is s0 pi y (set_k_pipes (<[pi := y]> (k_pipes s)) s).
Proof. unfold pipe_is. intros E. simpl. rewrite E. apply insert_insert_eq. Qed.

Lemma sched_frame_pipes s s' : sched_frame s s' -> k_pipes s' = k_pipes s /\ same_user s s'.
Proof. intros F. unfold same_user. by rewrite F. Qed.

Lemma user_same_running p pp h s s' : user_same s s' -> running p pp h s -> running p pp h s'.
Proof. intros (m & f & r & ->). by apply running_ext. Qed.

Lemma user_same_pipes s s' : user_same s s' -> k_pipes s' = k_pipes s.
Proof. by intros (m & f & r & ->). Qed.

(** wakeup(chan); release(&pi->lock); return r. *)
Lemma wakeup_release {A} p pp pi ch s (r : A) (Q : A -> kstate -> Prop) :
  running p pp [LPipe pi] s ->
  (forall s', k_pipes s' = k_pipes s -> same_user s s' -> running p pp [] s' -> Q r s') ->
  returns ((wakeup ch;; release (LPipe pi);; mret r) s) Q.
Proof.
  intros Hrun HQ. mspec wakeup_running; [exact Hrun|set_solver|set_solver|].
  cbn beta. intros _ s1 [F Hrun1]. mred.
  rewrite (release_eq _ _ []) by (rewrite ?(run_held _ _ _ _ Hrun1); done || set_solver). mred.
  destruct (sched_frame_pipes _ _ F) as [Hp Hu]. apply HQ; [done|exact Hu|by eapply running_set_held].
Qed.

Section write.
  Context `{UC : UserCopy} (pt addr : Z) (src : list Z) (J : kstate -> Prop).
  Hypothesis J_same : forall s s', same_user s s' -> J s -> J s'.
  Hypothesis J_copyin : forall i b s, src !! i = Some b -> J s ->
    returns (ucopyin pt (u64 (addr + Z.of_nat i)) 1 s) (fun r s' => r = (0, [b]) /\ J s').

(** One iteration with room in the pipe. *)
Lemma pipewrite_step_spec p pp pi s0 x s i :
  running p pp [LPipe pi] s -> p_pagetable pp = pt -> p_killed pp = false ->
  pipe_is s0 pi x s -> pipe_wf x -> pi_readopen x = true -> J s ->
  (i < length src)%nat -> pipe_len x <> PIPESIZE ->
  returns (pipewrite_step p pi addr (Z.of_nat (length src)) (Z.of_nat i) s) (fun r s' =>
    exists b, src !! i = Some b /\ r = inl (Z.of_nat (S i)) /\ running p pp [LPipe pi] s' /\ J s' /\
      pipe_is s0 pi (pipe_put b x) s').
Proof using J_same J_copyin.
  intros Hrun Hpt Hk Hpi Hwf Hro HJ Hi Hroom. unfold pipewrite_step.
  rewrite (proj2 (Z.ltb_lt _ _)) by lia. mred.
  rewrite (get_pipe_eq _ _ _ (pipe_is_lookup _ _ _ _ Hpi)). mred. rewrite Hro.
  rewrite (killed_eq _ _ _ _ Hrun) by set_solver. mred. rewrite Hk, (pipe_full _ Hwf).
  rewrite (proj2 (Z.eqb_neq _ _) Hroom). mred.
  rewrite (get_proc_eq _ p pp) by apply Hrun. mred. rewrite Hpt.
  destruct (lookup_lt_is_Some_2 src i Hi) as [b Hb].
  destruct (returns_inv _ _ (J_copyin i b s Hb HJ)) as (r & s1 & Hc & -> & HJ1). rewrite Hc. mred.
  apply ucopyin_frame in Hc. simpl.
  assert (Hpi1 : pipe_is s0 pi x s1) by (unfold pipe_is; by rewrite (user_same_pipes _ _ Hc)).
  rewrite (upd_pipe_eq _ _ _ _ (pipe_is_lookup _ _ _ _ Hpi1)). mred.
  exists b. split_and!; [done|f_equal; lia| | |by apply (pipe_is_upd _ _ x)].
  - apply (running_ext _ _ _ s1); try done. by eapply user_same_running.
  - by apply (J_same s1).
Qed.

(** C22. pipewrite of bytes that fit appends them to the queue, in order, and
    returns their number; no other pipe changes. *)
Theorem pipewrite_appends p pp pi x s :
  running p pp [] s -> p_pagetable pp = pt -> p_killed pp = false ->
  k_pipes s !! pi = Some x -> pipe_wf x -> pi_readopen x = true -> J s ->
  Z.of_nat (length (queue x) + length src) <= PIPESIZE ->
  returns (pipewrite pi addr (Z.of_nat (length src)) s) (fun r s' =>
    r = Z.of_nat (length src) /\ running p pp [] s' /\ J s' /\
    exists x', pipe_is s pi x' s' /\ pipe_wf x' /\ queue x' = queue x ++ src).
Proof using J_same J_copyin.
  intros Hrun Hpt Hk Hpi Hwf Hro HJ Hroom. unfold pipewrite, myproc. mred.
  rewrite (run_cur _ _ _ _ Hrun). mred.
  rewrite acquire_eq by (rewrite (run_held _ _ _ _ Hrun); set_solver). mred.
  rewrite (run_held _ _ _ _ Hrun).
  apply (loop_returns (fun i s1 => exists n x1, i = Z.of_nat n /\ (n <= length src)%nat /\
      running p pp [LPipe pi] s1 /\ J s1 /\ pipe_is s pi x1 s1 /\ pipe_wf x1 /\
      pi_readopen x1 = true /\ queue x1 = queue x ++ take n src)
    (fun i => Z.to_nat (Z.of_nat (length src) - i))).
  - exists O, x. split_and!; try done; [lia|by eapply running_set_held|by apply (J_same s)| |by rewrite app_nil_r].
    unfold pipe_is. simpl. by rewrite insert_id.
  - lia.
  - intros i s1 (n & x1 & -> & Hn & Hrun1 & HJ1 & Hpi1 & Hwf1 & Hro1 & Hq1).
    destruct (decide (n = length src)) as [->|Hne].
    + unfold pipewrite_step. rewrite (proj2 (Z.ltb_ge _ _)) by lia.
      apply (wakeup_release p pp); [done|]. intros s2 Hp2 Hu2 Hrun2. split_and!; [done|done|by apply (J_same s1)|].
      exists x1. unfold pipe_is. rewrite Hp2. rewrite firstn_all in Hq1. done.
    + assert (Hlen : pipe_len x1 <> PIPESIZE).
      { rewrite <- length_queue, Hq1, length_app, length_take. lia. }
      eapply returns_mono; [apply (pipewrite_step_spec p pp pi s x1 s1 n); try done; lia|].
      cbn beta. intros r s2 (b & Hb & -> & Hrun2 & HJ2 & Hpi2). split; [|lia].
      destruct (queue_put b x1 Hwf1 Hlen) as [Hwf2 Hq2]. exists (S n), (pipe_put b x1).
      split_and!; try done; [lia|]. rewrite Hq2, Hq1, <- app_assoc. f_equal. by rewrite (take_S_r _ _ _ Hb).
Qed.
End write.

Section read.
  (* [D bs s]: the bytes [bs] have been delivered at [addr] *)
  Context `{UC : UserCopy} (pt addr : Z) (D : list Z -> kstate -> Prop).
  Hypothesis D_same : forall bs s s', same_user s s' -> D bs s -> D bs s'.
  Hypothesis D_copyout : forall bs b s, D bs s ->
    returns (ucopyout pt (u64 (addr + Z.of_nat (length bs))) [b] s) (fun e s' => e = 0 /\ D (bs ++ [b]) s').

(** One iteration with a byte in the pipe. *)
Lemma piperead_step_spec p pp pi s0 x s n bs :
  running p pp [LPipe pi] s -> p_pagetable pp = pt ->
  pipe_is s0 pi x s -> pipe_wf x -> D bs s -> Z.of_nat (length bs) < n -> pipe_len x <> 0 ->
  returns (piperead_step p pi addr n (Z.of_nat (length bs)) s) (fun r s' =>
    exists b q, queue x = b :: q /\ r = inl (Z.of_nat (S (length bs))) /\ running p pp [LPipe pi] s' /\
      D (bs ++ [b]) s' /\ pipe_is s0 pi (pipe_next x) s' /\ pipe_wf (pipe_next x) /\ queue (pipe_next x) = q).
Proof using D_same D_copyout.
  intros Hrun Hpt Hpi Hwf HD Hi Hne. unfold piperead_step.
  rewrite (proj2 (Z.ltb_lt _ _)) by lia. mred.
  rewrite (get_pipe_eq _ _ _ (pipe_is_lookup _ _ _ _ Hpi)). mred.
  rewrite (pipe_empty _ Hwf), (proj2 (Z.eqb_neq _ _) Hne).
  destruct (queue_take x Hwf Hne) as (b & Hb & Hq & Hwf'). rewrite Hb. mred.
  rewrite (upd_pipe_eq _ _ _ _ (pipe_is_lookup _ _ _ _ Hpi)). mred. fold (pipe_next x).
  set (s1 := set_k_pipes _ s).
  rewrite (get_proc_eq s1 p pp) by apply Hrun. mred. rewrite Hpt.
  assert (HD1 : D bs s1) by (by apply (D_same _ s)).
  destruct (returns_inv _ _ (D_copyout bs b s1 HD1)) as (e & s2 & Hc & -> & HD2). rewrite Hc. mred.
  apply ucopyout_frame in Hc. change (0 =? -1) with false. mred.
  exists b, (queue (pipe_next x)). split_and!; try done; [f_equal; lia| |].
  - apply (user_same_running _ _ _ s1); [done|]. by apply (running_ext _ _ _ s).
  - unfold pipe_is. rewrite (user_same_pipes _ _ Hc). by apply (pipe_is_upd _ _ x).
Qed.

(** The copy loop of piperead. *)
Lemma piperead_loop_spec p pp pi s0 x s n :
  running p pp [LPipe pi] s -> p_pagetable pp = pt ->
  pipe_is s0 pi x s -> pipe_wf x -> D [] s -> 0 <= n ->
  returns (loop (Z.to_nat n + 1) (piperead_step p pi addr n) 0 s) (fun r s' =>
    exists k x', r = Z.of_nat k /\ k = Nat.min (Z.to_nat n) (length (queue x)) /\ running p pp [LPipe pi] s' /\
      D (take k (queue x)) s' /\ pipe_is s0 pi x' s' /\ pipe_wf x' /\ queue x' = drop k (queue x)).
Proof using D_same D_copyout.
  intros Hrun Hpt Hpi Hwf HD Hn.
  apply (loop_returns (fun i s1 => exists k x1, i = Z.of_nat k /\ (k <= Z.to_nat n)%nat /\ (k <= length (queue x))%nat /\
      running p pp [LPipe pi] s1 /\ D (take k (queue x)) s1 /\ pipe_is s0 pi x1 s1 /\ pipe_wf x1 /\
      queue x1 = drop k (queue x)) (fun i => Z.to_nat (n - i))).
  - exists O, x. split_and!; try done; lia.
  - lia.
  - intros i s1 (k & x1 & -> & Hk & Hkq & Hrun1 & HD1 & Hpi1 & Hwf1 & Hq1).
    pose proof (length_queue x1) as Hl. rewrite Hq1, length_drop in Hl.
    destruct (decide (k = Z.to_nat n)) as [->|Hkn].
    { unfold piperead_step. rewrite (proj2 (Z.ltb_ge _ _)) by lia. mred.
      exists (Z.to_nat n), x1. split_and!; try done. lia. }
    destruct (decide (k = length (queue x))) as [->|Hkl].
    { unfold piperead_step. rewrite (proj2 (Z.ltb_lt _ _)) by lia. mred.
      rewrite (get_pipe_eq _ _ _ (pipe_is_lookup _ _ _ _ Hpi1)). mred.
      rewrite (pipe_empty _ Hwf1), (proj2 (Z.eqb_eq _ _)) by lia. mred.
      exists (length (queue x)), x1. split_and!; try done. lia. }
    assert (Hlk : length (take k (queue x)) = k) by (rewrite length_take; lia).
    eapply returns_mono.
    { rewrite <- Hlk at 1. apply (piperead_step_spec p pp pi s0 x1 s1 n); [done..|lia|lia]. }
    cbn beta. rewrite Hlk. intros r s2 (b & q & Hbq & -> & Hrun2 & HD2 & Hpi2 & Hwf2 & Hq2).
    rewrite Hq1 in Hbq. assert (Hb : queue x !! k = Some b).
    { rewrite <- (Nat.add_0_r k), <- lookup_drop, Hbq. done. }
    split; [|lia]. exists (S k), (pipe_next x1). split_and!; try done; [lia|lia| |].
    + by rewrite (take_S_r _ _ _ Hb).
    + rewrite Hq2. rewrite (drop_S _ _ _ Hb) in Hbq. by injection Hbq.
Qed.

End read.
