(* ===== verification/File.v ===== *)
(** * Open files (kernel/file.c and pipealloc of kernel/pipe.c) *)

From S2P Require Import Prelude State Spinlock CString Sysargs Proc Sleeplock Bio Log Kalloc Usercopy Fs Console Pipe.

Definition filealloc : K (option nat) :=
  acquire LFtable;;
  r ← forl (seq 0 NFILE) (fun i =>
    f ← get_file i;
    if f_ref f =? 0 then
      upd_file i (set_f_ref 1);;
      release LFtable;;
      mret (Some i)
    else mret None);
  match r with
  | Some i => mret (Some i)
  | None => release LFtable;; mret None
  end.

Definition filedup (i : nat) : K nat :=
  acquire LFtable;;
  f ← get_file i;
  if f_ref f <? 1 then panic "filedup" else
  upd_file i (set_f_ref (f_ref f + 1));;
  release LFtable;;
  mret i.

Definition fileclose (i : nat) : K unit :=
  acquire LFtable;;
  f ← get_file i;
  if f_ref f <? 1 then panic "fileclose" else
  upd_file i (set_f_ref (f_ref f - 1));;
  if 0 <? f_ref f - 1 then release LFtable else
  ff ← get_file i;
  upd_file i (set_f_ref 0);;
  upd_file i (set_f_type FD_NONE);;
  release LFtable;;
  match f_type ff with
  | FD_PIPE => pipeclose (f_pipe ff) (f_writable ff)
  | FD_INODE | FD_DEVICE =>
      begin_op;;
      ip ← deref (f_ip ff);
      iput ip;;
      end_op
  | FD_NONE => mret tt
  end.

(** The struct kalloc's page is cast to, before its fields are assigned. *)
Definition raw_pipe : pipe := mkPipe (replicate (Z.to_nat PIPESIZE) 5) 0 0 false false.

Definition pipealloc : K (option (nat * nat)) :=
  f0 ← filealloc;
  f1 ← (match f0 with Some _ => filealloc | None => mret None end);
  pi ← (match f1 with Some _ => kalloc | None => mret 0 end);
  match f0, f1, negb (pi =? 0) with
  | Some f0, Some f1, true =>
      modify (fun s => set_k_pipes (<[pi := raw_pipe]> (k_pipes s)) s);;
      upd_pipe pi (set_pi_readopen true);;
      upd_pipe pi (set_pi_writeopen true);;
      upd_pipe pi (set_pi_nwrite 0);;
      upd_pipe pi (set_pi_nread 0);;
      upd_file f0 (set_f_type FD_PIPE);;
      upd_file f0 (set_f_readable true);;
      upd_file f0 (set_f_writable false);;
      upd_file f0 (set_f_pipe pi);;
      upd_file f1 (set_f_type FD_PIPE);;
      upd_file f1 (set_f_readable false);;
      upd_file f1 (set_f_writable true);;
      upd_file f1 (set_f_pipe pi);;
      mret (Some (f0, f1))
  | _, _, _ =>
      (match f0 with Some f0 => fileclose f0 | None => mret tt end);;
      (match f1 with Some f1 => fileclose f1 | None => mret tt end);;
      mret None
  end.

(** struct stat as it is copied to user space: dev, ino, type, nlink, and the
    64-bit size at offset 16. *)
Definition stat_bytes (st : stat) : list Z :=
  le_bytes 4 (st_dev st) ++ le_bytes 4 (st_ino st) ++ le_bytes 2 (st_type st) ++
  le_bytes 2 (st_nlink st) ++ replicate 4 0 ++ le_bytes 8 (st_size st).

Section file.
  Context `{UC : UserCopy}.

Definition filestat (i : nat) (addr : Z) : K Z :=
  p ← myproc;
  f ← get_file i;
  match f_type f with
  | FD_INODE | FD_DEVICE =>
      ip ← deref (f_ip f);
      ilock ip;;
      st ← stati ip;
      iunlock ip;;
      pp ← get_proc p;
      e ← ucopyout (p_pagetable pp) addr (stat_bytes st);
      if e <? 0 then mret (-1) else mret 0
  | _ => mret (-1)
  end.

(** devsw[f->major], [None] when the slot is empty or out of range. *)
Definition devsw_entry (major : Z) : K (option devfn) :=
  if (major <? 0) || (NDEV <=? major) then mret None else
  t ← gets k_devsw; deref (t !! Z.to_nat major).

Definition fileread (i : nat) (addr n : Z) : K Z :=
  f ← get_file i;
  if negb (f_readable f) then mret (-1) else
  match f_type f with
  | FD_PIPE => piperead (f_pipe f) addr n
  | FD_DEVICE =>
      d ← devsw_entry (f_major f);
      match d with
      | None => mret (-1)
      | Some DevConsole => consoleread true addr n
      end
  | FD_INODE =>
      ip ← deref (f_ip f);
      ilock ip;;
      f ← get_file i;
      r ← readi ip true addr (f_off f) (u32 n);
      (if 0 <? r then upd_file i (fun f => set_f_off (u32 (f_off f + r)) f) else mret tt);;
      iunlock ip;;
      mret r
  | FD_NONE => panic "fileread"
  end.

(** max in filewrite. *)
Definition FILEWRITE_MAX : Z := ((MAXOPBLOCKS - 1 - 1 - 2) / 2) * BSIZE.

(** One transaction of filewrite: writes [n1] bytes from addr + i. *)
Definition filewrite_chunk (i : nat) (addr n1 : Z) : K Z :=
  f ← get_file i;
  ip ← deref (f_ip f);
  begin_op;;
  ilock ip;;
  f ← get_file i;
  r ← writei ip true addr (f_off f) n1;
  (if 0 <? r then upd_file i (fun f => set_f_off (u32 (f_off f + r)) f) else mret tt);;
  iunlock ip;;
  end_op;;
  mret r.

Definition filewrite (i : nat) (addr n : Z) : K Z :=
  f ← get_file i;
  if negb (f_writable f) then mret (-1) else
  match f_type f with
  | FD_PIPE => pipewrite (f_pipe f) addr n
  | FD_DEVICE =>
      d ← devsw_entry (f_major f);
      match d with
      | None => mret (-1)
      | Some DevConsole => consolewrite true addr n
      end
  | FD_INODE =>
      done ← loop (Z.to_nat n + 1) (fun k =>
        if negb (k <? n) then mret (inr k) else
        let n1 := Z.min (n - k) FILEWRITE_MAX in
        r ← filewrite_chunk i (u64 (addr + k)) n1;
        if negb (r =? n1) then mret (inr k) else mret (inl (k + r))) 0;
      mret (if done =? n then n else -1)
  | FD_NONE => panic "filewrite"
  end.

End file.
