(* ===== verification/Sysfile.v ===== *)
(** * File-system system calls (kernel/sysfile.c, and fetchaddr, fetchstr and
    argstr of kernel/syscall.c) *)

From S2P Require Import Prelude State Spinlock CString Sysargs Proc Sleeplock Bio Log Kalloc Usercopy Fs Console Pipe File.

Definition LOC_target : Z := KLOCAL 2.
Definition LOC_isdirempty_de : Z := KLOCAL 3.
Definition LOC_unlink_de : Z := KLOCAL 4.
Definition LOC_symlink_target : Z := KLOCAL 5.

Section sysfile.
  Context `{UC : UserCopy}.

(** fetchaddr(addr, &x): the result and the value stored. *)
Definition fetchaddr (addr : Z) : K (Z * Z) :=
  p ← myproc;
  pp ← get_proc p;
  if (p_sz pp <=? addr) || (p_sz pp <? u64 (addr + 8)) then mret (-1, 0) else
  rb ← ucopyin (p_pagetable pp) addr 8;
  if negb (rb.1 =? 0) then mret (-1, 0) else mret (0, le_val rb.2).

(** fetchstr(addr, buf, max): the result and the bytes left in buf. *)
Definition fetchstr (addr max : Z) : K (Z * list Z) :=
  p ← myproc;
  pp ← get_proc p;
  rb ← ucopyinstr (p_pagetable pp) addr max;
  if rb.1 <? 0 then mret (-1, rb.2) else
  n ← deref (strlen rb.2);
  mret (Z.of_nat n, rb.2).

Definition argstr (n max : Z) : K (Z * list Z) :=
  addr ← argaddr n; fetchstr addr max.

(** argfd(n, &fd, &f): [None] for -1. *)
Definition argfd (n : Z) : K (option (Z * nat)) :=
  fd ← argint n;
  if (fd <? 0) || (Z.of_nat NOFILE <=? fd) then mret None else
  p ← myproc;
  pp ← get_proc p;
  f ← deref (p_ofile pp !! Z.to_nat fd);
  mret (match f with Some f => Some (fd, f) | None => None end).

(** p->ofile[fd] = f. *)
Definition set_ofile (fd : Z) (f : option nat) : K unit :=
  p ← myproc;
  upd_proc p (fun pp => set_p_ofile (<[Z.to_nat fd := f]> (p_ofile pp)) pp).

Definition fdalloc (f : nat) : K Z :=
  p ← myproc;
  r ← forl (zrange 0 (Z.of_nat NOFILE)) (fun fd =>
    pp ← get_proc p;
    x ← deref (p_ofile pp !! Z.to_nat fd);
    match x with
    | None => set_ofile fd (Some f);; mret (Some fd)
    | Some _ => mret None
    end);
  mret (default (-1) r).

Definition sys_dup : K Z :=
  r ← argfd 0;
  match r with
  | None => mret (-1)
  | Some (_, f) =>
      fd ← fdalloc f;
      if fd <? 0 then mret (-1) else
      filedup f;;
      mret fd
  end.

Definition sys_read : K Z :=
  p ← argaddr 1;
  n ← argint 2;
  r ← argfd 0;
  match r with None => mret (-1) | Some (_, f) => fileread f p n end.

Definition sys_write : K Z :=
  p ← argaddr 1;
  n ← argint 2;
  r ← argfd 0;
  match r with None => mret (-1) | Some (_, f) => filewrite f p n end.

Definition MAX_SYMLINK_DEPTH : Z := 10.

(** One iteration of the loop of follow_symlink on (ip, depth); [inr] leaves
    the loop: [inl] falls through to the depth check, [inr] returns 0. *)
Definition follow_step (nofollow : bool) : nat * Z -> K (nat * Z + ((nat * Z) + unit)) :=
  fun '(ip, depth) =>
    x ← get_inode ip;
    if negb ((i_type x =? T_SYMLINK) && negb nofollow && (depth <? MAX_SYMLINK_DEPTH))
    then mret (inr (inl (ip, depth))) else
    target_len ← readi ip false LOC_target 0 (MAXPATH - 1);
    if target_len <=? 0 then iunlockput ip;; mret (inr (inr tt)) else
    kwrite (LOC_target + target_len) [0];;
    iunlockput ip;;
    target ← kread LOC_target (Z.to_nat (target_len + 1));
    next ← namei target;
    match next with
    | None => mret (inr (inr tt))
    | Some next_ip => ilock next_ip;; mret (inl (next_ip, depth + 1))
    end.

Definition follow_symlink (ip : nat) (nofollow : bool) : K (option nat) :=
  r ← loop (S (Z.to_nat MAX_SYMLINK_DEPTH)) (follow_step nofollow) (ip, 0);
  match r with
  | inr _ => mret None
  | inl (ip, depth) =>
      if MAX_SYMLINK_DEPTH <=? depth then iunlockput ip;; mret None
      else mret (Some ip)
  end.

Definition sys_close : K Z :=
  r ← argfd 0;
  match r with
  | None => mret (-1)
  | Some (fd, f) => set_ofile fd None;; fileclose f;; mret 0
  end.

Definition sys_fstat : K Z :=
  st ← argaddr 1;
  r ← argfd 0;
  match r with None => mret (-1) | Some (_, f) => filestat f st end.

(** The exit at label bad of sys_link. *)
Definition link_bad (ip : nat) : K Z :=
  ilock ip;;
  upd_inode ip (fun x => set_i_nlink (s16 (i_nlink x - 1)) x);;
  iupdate ip;;
  iunlockput ip;;
  end_op;;
  mret (-1).

Definition sys_link : K Z :=
  old ← argstr 0 MAXPATH;
  if old.1 <? 0 then mret (-1) else
  new ← argstr 1 MAXPATH;
  if new.1 <? 0 then mret (-1) else
  begin_op;;
  ip ← namei old.2;
  match ip with
  | None => end_op;; mret (-1)
  | Some ip =>
      ilock ip;;
      x ← get_inode ip;
      if i_type x =? T_DIR then iunlockput ip;; end_op;; mret (-1) else
      upd_inode ip (fun x => set_i_nlink (s16 (i_nlink x + 1)) x);;
      iupdate ip;;
      iunlock ip;;
      dp ← nameiparent new.2;
      match dp with
      | (None, _) => link_bad ip
      | (Some dp, name) =>
          ilock dp;;
          xd ← get_inode dp;
          x ← get_inode ip;
          e ← (if negb (i_dev xd =? i_dev x) then mret (-1) else dirlink dp name (i_inum x));
          if e <? 0 then iunlockput dp;; link_bad ip else
          iunlockput dp;;
          iput ip;;
          end_op;;
          mret 0
      end
  end.

Definition isdirempty (dp : nat) : K bool :=
  ip ← get_inode dp;
  r ← forl (zstep (2 * SIZEOF_DIRENT) (i_size ip) SIZEOF_DIRENT) (fun off =>
    de ← read_dirent dp LOC_isdirempty_de off "isdirempty: readi";
    mret (if negb (de_inum de =? 0) then Some false else None));
  mret (default true r).

(** The exit at label bad of sys_unlink. *)
Definition unlink_bad (dp : nat) : K Z := iunlockput dp;; end_op;; mret (-1).

Definition sys_unlink : K Z :=
  path ← argstr 0 MAXPATH;
  if path.1 <? 0 then mret (-1) else
  begin_op;;
  dp ← nameiparent path.2;
  match dp with
  | (None, _) => end_op;; mret (-1)
  | (Some dp, name) =>
      ilock dp;;
      c1 ← namecmp name (cstr ".");
      c2 ← (if c1 =? 0 then mret 0 else namecmp name (cstr ".."));
      if (c1 =? 0) || (c2 =? 0) then unlink_bad dp else
      r ← dirlookup dp name;
      match r with
      | None => unlink_bad dp
      | Some (ip, off) =>
          ilock ip;;
          x ← get_inode ip;
          if i_nlink x <? 1 then panic "unlink: nlink < 1" else
          empty ← (if i_type x =? T_DIR then isdirempty ip else mret true);
          if negb empty then iunlockput ip;; unlink_bad dp else
          kwrite LOC_unlink_de (replicate (Z.to_nat SIZEOF_DIRENT) 0);;
          n ← writei dp false LOC_unlink_de off SIZEOF_DIRENT;
          if negb (n =? SIZEOF_DIRENT) then panic "unlink: writei" else
          x ← get_inode ip;
          (if i_type x =? T_DIR then
             upd_inode dp (fun x => set_i_nlink (s16 (i_nlink x - 1)) x);;
             iupdate dp
           else mret tt);;
          iunlockput dp;;
          upd_inode ip (fun x => set_i_nlink (s16 (i_nlink x - 1)) x);;
          iupdate ip;;
          iunlockput ip;;
          end_op;;
          mret 0
      end
  end.

(** The exit at label fail of create. *)
Definition create_fail (ip dp : nat) : K (option nat) :=
  upd_inode ip (set_i_nlink 0);;
  iupdate ip;;
  iunlockput ip;;
  iunlockput dp;;
  mret None.

Definition create (path : list Z) (type major minor : Z) : K (option nat) :=
  dp ← nameiparent path;
  match dp with
  | (None, _) => mret None
  | (Some dp, name) =>
      ilock dp;;
      r ← dirlookup dp name;
      match r with
      | Some (ip, _) =>
          iunlockput dp;;
          ilock ip;;
          x ← get_inode ip;
          if (type =? T_FILE) && ((i_type x =? T_FILE) || (i_type x =? T_DEVICE))
          then mret (Some ip)
          else iunlockput ip;; mret None
      | None =>
          xd ← get_inode dp;
          ip ← ialloc (i_dev xd) type;
          match ip with
          | None => iunlockput dp;; mret None
          | Some ip =>
              ilock ip;;
              upd_inode ip (set_i_major major);;
              upd_inode ip (set_i_minor minor);;
              upd_inode ip (set_i_nlink 1);;
              iupdate ip;;
              x ← get_inode ip;
              e ← (if type =? T_DIR then
                     e ← dirlink ip (cstr ".") (i_inum x);
                     if e <? 0 then mret e else
                     xd ← get_inode dp;
                     dirlink ip (cstr "..") (i_inum xd)
                   else mret 0);
              if e <? 0 then create_fail ip dp else
              e ← dirlink dp name (i_inum x);
              if e <? 0 then create_fail ip dp else
              (if type =? T_DIR then
                 upd_inode dp (fun x => set_i_nlink (s16 (i_nlink x + 1)) x);;
                 iupdate dp
               else mret tt);;
              iunlockput dp;;
              mret (Some ip)
          end
      end
  end.

(** omode & flag. *)
Definition flag (omode f : Z) : bool := negb (Z.land omode f =? 0).

(** The inode sys_open opens, locked; [None] where it has called end_op and
    returns -1. *)
Definition open_inode (path : list Z) (omode : Z) : K (option nat) :=
  if flag omode O_CREATE then
    ip ← create path T_FILE 0 0;
    match ip with
    | None => end_op;; mret None
    | Some ip => mret (Some ip)
    end
  else
    ip ← namei path;
    match ip with
    | None => end_op;; mret None
    | Some ip =>
        ilock ip;;
        ip ← follow_symlink ip (flag omode O_NOFOLLOW);
        match ip with
        | None => end_op;; mret None
        | Some ip =>
            x ← get_inode ip;
            if (i_type x =? T_DIR) && negb (omode =? O_RDONLY) then
              iunlockput ip;; end_op;; mret None
            else mret (Some ip)
        end
    end.

Definition sys_open : K Z :=
  omode ← argint 1;
  path ← argstr 0 MAXPATH;
  if path.1 <? 0 then mret (-1) else
  begin_op;;
  ip ← open_inode path.2 omode;
  match ip with
  | None => mret (-1)
  | Some ip =>
      x ← get_inode ip;
      if (i_type x =? T_DEVICE) && ((i_major x <? 0) || (NDEV <=? i_major x)) then
        iunlockput ip;; end_op;; mret (-1) else
      f ← filealloc;
      fd ← (match f with Some f => fdalloc f | None => mret (-1) end);
      match f, (0 <=? fd) with
      | Some f, true =>
          (if i_type x =? T_DEVICE then
             upd_file f (set_f_type FD_DEVICE);;
             upd_file f (set_f_major (i_major x))
           else
             upd_file f (set_f_type FD_INODE);;
             upd_file f (set_f_off 0));;
          upd_file f (set_f_ip (Some ip));;
          upd_file f (set_f_readable (negb (flag omode O_WRONLY)));;
          upd_file f (set_f_writable (flag omode O_WRONLY || flag omode O_RDWR));;
          (if flag omode O_TRUNC && (i_type x =? T_FILE) then itrunc ip else mret tt);;
          iunlock ip;;
          end_op;;
          mret fd
      | _, _ =>
          (match f with Some f => fileclose f | None => mret tt end);;
          iunlockput ip;;
          end_op;;
          mret (-1)
      end
  end.

Definition sys_mkdir : K Z :=
  begin_op;;
  path ← argstr 0 MAXPATH;
  ip ← (if path.1 <? 0 then mret None else create path.2 T_DIR 0 0);
  match ip with
  | None => end_op;; mret (-1)
  | Some ip => iunlockput ip;; end_op;; mret 0
  end.

Definition sys_mknod : K Z :=
  begin_op;;
  major ← argint 1;
  minor ← argint 2;
  path ← argstr 0 MAXPATH;
  ip ← (if path.1 <? 0 then mret None else create path.2 T_DEVICE (s16 major) (s16 minor));
  match ip with
  | None => end_op;; mret (-1)
  | Some ip => iunlockput ip;; end_op;; mret 0
  end.

Definition sys_chdir : K Z :=
  p ← myproc;
  begin_op;;
  path ← argstr 0 MAXPATH;
  ip ← (if path.1 <? 0 then mret None else namei path.2);
  match ip with
  | None => end_op;; mret (-1)
  | Some ip =>
      ilock ip;;
      x ← get_inode ip;
      if negb (i_type x =? T_DIR) then iunlockput ip;; end_op;; mret (-1) else
      iunlock ip;;
      pp ← get_proc p;
      cwd ← deref (p_cwd pp);
      iput cwd;;
      end_op;;
      upd_proc p (set_p_cwd (Some ip));;
      mret 0
  end.

Definition sys_pipe : K Z :=
  p ← myproc;
  fdarray ← argaddr 0;
  r ← pipealloc;
  match r with
  | None => mret (-1)
  | Some (rf, wf) =>
      fd0 ← fdalloc rf;
      fd1 ← (if fd0 <? 0 then mret (-1) else fdalloc wf);
      if (fd0 <? 0) || (fd1 <? 0) then
        (if 0 <=? fd0 then set_ofile fd0 None else mret tt);;
        fileclose rf;;
        fileclose wf;;
        mret (-1)
      else
      pp ← get_proc p;
      e ← ucopyout (p_pagetable pp) fdarray (le_bytes 4 fd0);
      e ← (if e <? 0 then mret e
           else ucopyout (p_pagetable pp) (u64 (fdarray + 4)) (le_bytes 4 fd1));
      if e <? 0 then
        set_ofile fd0 None;;
        set_ofile fd1 None;;
        fileclose rf;;
        fileclose wf;;
        mret (-1)
      else mret 0
  end.

Definition sys_symlink : K Z :=
  target ← argstr 0 MAXPATH;
  if target.1 <? 0 then mret (-1) else
  path ← argstr 1 MAXPATH;
  if path.1 <? 0 then mret (-1) else
  begin_op;;
  ip ← create path.2 T_SYMLINK 0 0;
  match ip with
  | None => end_op;; mret (-1)
  | Some ip =>
      kwrite LOC_symlink_target target.2;;
      len ← deref (strlen target.2);
      n ← writei ip false LOC_symlink_target 0 (Z.of_nat len);
      if negb (n =? Z.of_nat len) then iunlockput ip;; end_op;; mret (-1) else
      iunlockput ip;;
      end_op;;
      mret 0
  end.

End sysfile.
