(* ===== verification/Symlink.v ===== *)
(** * Symbolic links

    follow_symlink against the chain of links on disk: the inode it returns is
    the first one on the chain that is not a link, found within
    MAX_SYMLINK_DEPTH - 1 steps; a longer chain, and so every cycle, is
    refused, and no reference or lock is lost on any path. *)

From S2P Require Import Prelude State Spinlock CString Sysargs Proc ReadyQueue Sleeplock Sleeping Bio BufferCache Log Wal Transaction Usercopy Fs Bitmap Inodes Truncate Content ReadWrite Icache Dir Path Namei Sysfile.

Section chain.
  Context (dev : Z) (sb : superblock) (V : Z -> list Z) (cwd : Z).

Definition is_link (n : Z) : bool := i_type (node dev sb V n) =? T_SYMLINK.

(** The string follow_symlink reads from link [n]. *)
Definition link_target (n : Z) : list Z :=
  file_bytes V (node dev sb V n) 0 (Z.min (MAXPATH - 1) (i_size (node dev sb V n))) ++ [0].

(** Where the path leads, from the root or the current directory. *)
Definition lookup_path (path : list Z) : option Z :=
  resolve dev sb V false (if bool_decide (path !! O = Some SLASH) then ROOTINO else cwd) (path_elems path).

(** The end of the chain of links at [n], in fewer than [fuel] steps. *)
Fixpoint chase (fuel : nat) (n : Z) : option Z :=
  match fuel with
  | O => None
  | S fuel' =>
      if is_link n then
        if i_size (node dev sb V n) =? 0 then None else n' ← lookup_path (link_target n); chase fuel' n'
      else Some n
  end.
End chain.

Section follow.
  Context `{UC : UserCopy} (start : Z) (V : Z -> list Z) (L : gmap Z nat) (blks : list Z) (p : nat) (pp : proc).
  Context (s : kstate) (live : Z -> Prop) (cwd : Z) (ci : nat).
  Notation dev := ROOTDEV.
  Notation sb := (k_sb s).
  Context (Htree : tree_ok dev sb V L live) (Hroot : live ROOTINO) (Hcwd : live cwd).
  Context (Hcwd_dir : i_type (node dev sb V cwd) = T_DIR) (Hpcwd : p_cwd pp = Some ci).
  Context (Hlinks : forall n, live n -> is_link dev sb V n = true ->
    file_readable dev V L (node dev sb V n) (i_size (node dev sb V n)) /\ 0 <= i_size (node dev sb V n)).
  Context (Hbufs : (size (dom L) + length blks < NBUF)%nat) (Hroom : (nused s + 2 <= NINODE)%nat).

(** The link count of references: inode [a] was given up for [b]. *)
Definition moved (a b m : Z) : Z := iref dev s m - (if decide (m = a) then 1 else 0) + (if decide (m = b) then 1 else 0).
Definition given_up (a m : Z) : Z := iref dev s m - (if decide (m = a) then 1 else 0).

(** Inode [n] is locked at entry [i], its reference in exchange for that to [n0]. *)
Record locked_at (n0 : Z) (s1 : kstate) (i : nat) (n : Z) : Prop := {
  lk_op : op dev start V L blks p pp s1;
  lk_frame : write_frame s s1;
  lk_ic : icache dev pp V (Some i) s1;
  lk_entry : entry dev n i s1;
  lk_cwd : entry dev cwd ci s1;
  lk_ref m : iref dev s1 m = moved n0 n m;
}.

(** Nothing is locked and the reference to [n0] is gone. *)
Record let_go (n0 : Z) (s1 : kstate) : Prop := {
  lg_op : op dev start V L blks p pp s1;
  lg_frame : write_frame s s1;
  lg_ic : icache dev pp V None s1;
  lg_ref m : iref dev s1 m = given_up n0 m;
}.

Context (n0 : Z) (Hic : exists lk, icache dev pp V lk s).

(** iunlockput gives up the reference; the current directory keeps its own. *)
Lemma put_link s1 i n :
  locked_at n0 s1 i n -> live n ->
  returns (iunlockput i s1) (fun _ s2 => let_go n0 s2 /\ in_frame s1 s2 /\ (n <> cwd -> entry dev cwd ci s2)).
Proof using Htree.
  intros [Hop F Hi He Hc Hr] Hl.
  eapply returns_mono; [apply (iunlockput_cache dev start p pp V L blks s1 i n Hop Hi He); rewrite (write_frame_sb _ _ F); by apply Htree|].
  cbn beta. intros _ s2 (Hop2 & F2 & Hi2 & Hr2 & He2). split_and!; [|done|].
  - constructor; [done| |done|].
    + eapply write_frame_trans; [exact F|by apply in_write_frame].
    + intros m. rewrite Hr2, Hr. unfold moved. apply Z.add_simpl_r.
  - intros Hne. apply He2; [done|]. left. congruence.
Qed.

(** The path in the link is found from the root or the current directory. *)
Lemma lookup_link s1 path :
  let_go n0 s1 -> entry dev cwd ci s1 -> terminated path ->
  returns (namei path s1) (fun r s2 => match lookup_path dev sb V cwd path with
    | None => r = None /\ let_go n0 s2
    | Some n => exists i, r = Some i /\ op dev start V L blks p pp s2 /\ write_frame s1 s2 /\ icache dev pp V None s2 /\
        entry dev n i s2 /\ entry dev cwd ci s2 /\ (forall m, iref dev s2 m = iref dev s1 m + if decide (m = n) then 1 else 0) /\ live n
    end).
Proof using Type*.
  intros [Hop F Hi Hr] Hc Ht. destruct Hic as [lk Hic0]. pose proof (write_frame_sb _ _ F) as Hsb.
  assert (Hroom1 : (nused s1 + 2 <= NINODE)%nat).
  { pose proof (nused_mono dev pp V V lk None s s1 [] Hic0 Hi) as H. simpl in H. enough (nused s1 <= nused s + 0)%nat by lia.
    apply H. intros m Hm. left. rewrite Hr in Hm. unfold given_up in Hm. case_decide; lia. }
  set (st := if bool_decide (path !! O = Some SLASH) then ROOTINO else cwd).
  assert (Hlst : live st) by (unfold st; by case_bool_decide).
  assert (Hst : starts_at dev pp s1 path st).
  { unfold starts_at, st. destruct path as [|c path]; [by apply not_elem_of_nil in Ht|]. simpl.
    destruct (Z.eqb_spec c SLASH) as [->|Hne]; [by rewrite bool_decide_true|]. rewrite bool_decide_false by congruence. eauto. }
  rewrite <- Hsb in Htree. unfold namei. mred.
  eapply returns_obind, returns_mono; [apply (namex_spec dev start V L blks p pp s1 live Hi Htree Hbufs Hroom1 Hop false path new_name st); done|].
  cbn beta. intros [r nm] s2 [Hend _]. mred. simpl in Hend |- *. rewrite Hsb in Hend. unfold lookup_path. fold st.
  destruct (resolve dev sb V false st (path_elems path)) as [n|] eqn:Hw; simpl in Hend.
  - destruct Hend as (i & -> & [Hop2 F2 Hi2 He2 Hr2 Hk2]). exists i. split_and!; try done; [by apply Hk2|]. rewrite Hsb in Htree. by eapply resolve_live.
  - destruct Hend as (-> & Hop2 & F2 & Hi2 & Hr2 & _). split; [done|]. constructor; [done| |done|].
    + by eapply write_frame_trans.
    + intros m. by rewrite Hr2, Hr.
Qed.

(** The target of a link, in the kernel's buffer. *)
Lemma read_target s1 i n :
  locked_at n0 s1 i n -> live n -> is_link dev sb V n = true ->
  let k := Z.min (MAXPATH - 1) (i_size (node dev sb V n)) in
  returns (readi i false LOC_target 0 (MAXPATH - 1) s1) (fun r s2 => r = k /\ locked_at n0 s2 i n /\
    mem_read (k_mem s2) LOC_target (Z.to_nat k) = file_bytes V (node dev sb V n) 0 k).
Proof using Hlinks Hbufs.
  intros [Hop F Hi He Hc Hr] Hl Hk k. destruct (locked_inode dev pp V s1 i n Hi He) as (ip & Hip & Hd & _ & _ & _ & E).
  rewrite (write_frame_sb _ _ F), <- (node_dinode dev) in E.
  assert (Esz : i_size ip = i_size (node dev sb V n)) by (apply (f_equal di_size) in E; exact E).
  assert (Ead : i_addrs ip = i_addrs (node dev sb V n)) by (apply (f_equal di_addrs) in E; exact E).
  destruct (Hlinks n Hl Hk) as [Hra Hsz]. rewrite <- Esz in Hra, Hsz. unfold k. rewrite <- Esz.
  eapply returns_mono; [apply (readi_kernel dev start V L blks p pp i ip LOC_target 0 (MAXPATH - 1) s1 Hop Hip); try done|].
  { by eapply file_readable_same; [..|exact Hra]. }
  cbn beta. rewrite Z.sub_0_r. intros r s2 (-> & Hm & Hop2 & F2). split_and!; [done| |].
  - pose proof (read_frame_itable _ _ F2) as Ht. constructor; [done| | | | |].
    + eapply write_frame_trans; [exact F|by apply read_write_frame].
    + by eapply icache_ext; [exact Hi|exact Ht|exact (read_frame_sb _ _ F2)].
    + by eapply entry_ext.
    + by eapply entry_ext.
    + intros m. by rewrite (iref_ext dev s1 s2 m Ht).
  - rewrite Hm. unfold file_bytes. apply list_fmap_ext. intros _ o _. unfold byte_at. by rewrite (blk_addr_same V (node dev sb V n) ip).
Qed.

(** kwrite to a local changes memory only. *)
Lemma locked_kwrite s1 i n m : locked_at n0 s1 i n -> locked_at n0 (set_k_mem m s1) i n.
Proof.
  intros [Hop F Hi He Hc Hr].
  assert (U : user_same s1 (set_k_mem m s1)) by (exists m, (k_freelist s1), (k_refcount s1); by destruct s1).
  constructor; [by eapply op_user| |by eapply icache_ext|done|done|done].
  eapply write_frame_trans; [exact F|by apply user_write_frame].
Qed.

Lemma follow_step_spec nofollow s1 i n depth :
  locked_at n0 s1 i n -> live n -> 0 <= depth ->
  returns (follow_step nofollow (i, depth) s1) (fun r s2 =>
    if is_link dev sb V n && negb nofollow && (depth <? MAX_SYMLINK_DEPTH) then
      match (if i_size (node dev sb V n) =? 0 then None else lookup_path dev sb V cwd (link_target dev sb V n)) with
      | Some n' => exists i', r = inl (i', depth + 1) /\ locked_at n0 s2 i' n' /\ live n'
      | None => r = inr (inr tt) /\ let_go n0 s2
      end
    else r = inr (inl (i, depth)) /\ s2 = s1).
Proof using Type*.
  intros Hlk Hl Hd. unfold follow_step. destruct (locked_inode dev pp V s1 i n (lk_ic _ _ _ _ Hlk) (lk_entry _ _ _ _ Hlk)) as (ip & Hip & _ & _ & _ & _ & E).
  rewrite (write_frame_sb _ _ (lk_frame _ _ _ _ Hlk)), <- (node_dinode dev) in E.
  assert (Ety : (i_type ip =? T_SYMLINK) = is_link dev sb V n) by (apply (f_equal di_type) in E; unfold is_link; change (i_type ip = i_type (node dev sb V n)) in E; by rewrite E).
  mred. rewrite (get_inode_eq _ _ _ Hip). mred. rewrite Ety. destruct (is_link dev sb V n && negb nofollow && (depth <? MAX_SYMLINK_DEPTH)) eqn:Hgo; [|done].
  apply andb_true_iff in Hgo as [[Hlink Hnf]%andb_true_iff Hdep]. cbn [negb].
  pose proof (Hlinks n Hl Hlink) as [_ Hsz]. set (sz := i_size (node dev sb V n)) in *. set (k := Z.min (MAXPATH - 1) sz).
  eapply returns_obind, returns_mono; [by apply (read_target s1 i n)|]. fold sz k. cbn beta. intros r s2 (-> & Hlk2 & Hm). mred.
  destruct (Z.leb_spec k 0) as [Hk0|Hk0].
  - assert (sz = 0) as Hz by (unfold k, MAXPATH in Hk0; lia). rewrite Hz. simpl.
    eapply returns_obind, returns_mono; [by apply (put_link s2 i n)|]. cbn beta. intros _ s3 (Hg & _). mred. by split.
  - assert (sz =? 0 = false) as -> by (apply Z.eqb_neq; unfold k in Hk0; lia).
    unfold kwrite. mred. pose proof (locked_kwrite s2 i n (mem_write (k_mem s2) (LOC_target + k) [0]) Hlk2) as Hlk3. set (s3 := set_k_mem _ s2) in *.
    assert (Hcne : n <> cwd).
    { intros ->. unfold is_link in Hlink. rewrite Hcwd_dir in Hlink. done. }
    eapply returns_obind, returns_mono; [by apply (put_link s3 i n)|]. cbn beta. intros _ s4 (Hg & F4 & Hc4). specialize (Hc4 Hcne).
    unfold kread. mred. replace (mem_read (k_mem s4) LOC_target (Z.to_nat (k + 1))) with (link_target dev sb V n).
    2:{ destruct (in_frame_same_user _ _ F4) as (-> & _). unfold s3. cbn [k_mem set_k_mem]. unfold link_target. fold sz k.
        replace (Z.to_nat (k + 1)) with (Z.to_nat k + 1)%nat by lia. rewrite mem_read_app. f_equal.
        - rewrite mem_read_write_disjoint by lia. by rewrite Hm.
        - rewrite Z2Nat.id by lia. symmetry. apply (mem_read_write_same _ _ [0]). }
    eapply returns_obind, returns_mono; [apply (lookup_link s4 (link_target dev sb V n) Hg Hc4); unfold terminated, link_target; set_solver|].
    cbn beta. intros r s5 Hres. destruct (lookup_path dev sb V cwd (link_target dev sb V n)) as [n'|].
    + destruct Hres as (i' & -> & Hop5 & F5 & Hi5 & He5 & Hc5 & Hr5 & Hl'). mred.
      assert (Hsb5 : k_sb s5 = sb) by (by rewrite (write_frame_sb _ _ F5), (write_frame_sb _ _ (lg_frame _ _ Hg))).
      eapply returns_obind, returns_mono; [apply (ilock_cache dev start p pp V L blks s5 i' n'); try done; rewrite Hsb5; by apply Htree|].
      cbn beta. intros _ s6 (Hop6 & F6 & Hi6 & Hr6 & He6). mred. simpl. exists i'. split_and!; [done| |done]. constructor; [done| |done|by apply He6|by apply He6|].
      * eapply write_frame_trans; [apply (lg_frame _ _ Hg)|]. eapply write_frame_trans; [exact F5|by apply in_write_frame].
      * intros m. rewrite Hr6, Hr5, (lg_ref _ _ Hg). done.
    + destruct Hres as [-> Hg5]. mred. by split.
Qed.

(** C17. follow_symlink, called with the inode [n0] locked, ends: it returns the end
    of the chain of links at [n0], locked, when that is reached in fewer than
    MAX_SYMLINK_DEPTH steps (the inode itself with O_NOFOLLOW); otherwise it
    returns 0: the chain is too long or cyclic, a link is empty or leads
    nowhere.  The caller's reference to [n0] is exchanged for one to the result
    or given up, all other reference counts are unchanged, and nothing but the
    result stays locked. *)
Theorem follow_symlink_chases nofollow i :
  live n0 -> locked_at n0 s i n0 ->
  returns (follow_symlink i nofollow s) (fun r s' =>
    match (if nofollow then Some n0 else chase dev sb V cwd (Z.to_nat MAX_SYMLINK_DEPTH) n0) with
    | Some n => exists i', r = Some i' /\ locked_at n0 s' i' n
    | None => r = None /\ let_go n0 s'
    end).
Proof using Type*.
  intros Hl Hlk. unfold follow_symlink. mred.
  set (goal := if nofollow then Some n0 else chase dev sb V cwd (Z.to_nat MAX_SYMLINK_DEPTH) n0).
  eapply returns_obind, (loop_returns (fun x s1 => exists n, locked_at n0 s1 x.1 n /\ live n /\ 0 <= x.2 <= MAX_SYMLINK_DEPTH /\
      if nofollow then n = n0 /\ x.2 = 0 else chase dev sb V cwd (Z.to_nat (MAX_SYMLINK_DEPTH - x.2)) n = goal) (fun x => Z.to_nat (MAX_SYMLINK_DEPTH - x.2))).
  - exists n0. split_and!; [done|done|done|done|]. unfold goal. by destruct nofollow.
  - simpl. lia.
  - intros [i1 d] s1 (n & Hlk1 & Hl1 & Hd & Hgoal). cbn [fst snd] in *.
    eapply returns_mono; [apply (follow_step_spec nofollow s1 i1 n d Hlk1 Hl1); lia|]. cbn beta. intros r s2.
    destruct (Z.ltb_spec d MAX_SYMLINK_DEPTH) as [Hlt|Hge].
    + destruct nofollow.
      { rewrite andb_false_r. simpl. intros [-> ->]. rewrite (proj2 (Z.leb_gt _ _)) by done. mred. simpl. destruct Hgoal as [-> _]. unfold goal. eauto. }
      rewrite !andb_true_r. replace (Z.to_nat (MAX_SYMLINK_DEPTH - d)) with (S (Z.to_nat (MAX_SYMLINK_DEPTH - (d + 1)))) in Hgoal by lia.
      cbn [chase] in Hgoal. rewrite <- Hgoal. destruct (is_link dev sb V n).
      * destruct (i_size (node dev sb V n) =? 0); [intros [-> Hg]; mred; by split|].
        destruct (lookup_path dev sb V cwd (link_target dev sb V n)) as [n'|]; cbn [mbind option_bind]; [|intros [-> Hg]; mred; by split].
        intros (i' & -> & Hlk' & Hl'). cbn [fst snd]. split; [|lia]. exists n'. split_and!; try done; lia.
      * intros [-> ->]. rewrite (proj2 (Z.leb_gt _ _)) by done. mred. simpl. eauto.
    + rewrite andb_false_r. intros [-> ->]. rewrite (proj2 (Z.leb_le _ _)) by done. mred.
      assert (d = MAX_SYMLINK_DEPTH) as -> by lia. destruct nofollow; [by destruct Hgoal|]. rewrite Z.sub_diag in Hgoal. simpl in Hgoal. rewrite <- Hgoal.
      eapply returns_obind, returns_mono; [by apply (put_link s1 i1 n)|]. cbn beta. intros _ s3 (Hg & _). mred. by split.
Qed.
End follow.
