(* ===== verification/Lifecycle.v ===== *)
(** * Process life cycle (kernel/proc.c) and the kernel page table

    allocproc, freeproc, fork, exit, wait and the page tables they build.
    Addresses fixed by the linker (end, etext, trampoline, forkret) are fields
    of the state that nothing changes. *)

From S2P Require Import Prelude State Spinlock CString Usercopy Kalloc Vm Sysargs Proc Sleeplock Bio Log Fs Console Pipe File.

(** ** Kernel page table (vm.c: kvmmake, kvmmap, kvminit) *)

Definition kvmmap (kpgtbl va pa sz perm : Z) : K unit :=
  e ← mappages kpgtbl va sz pa perm;
  if negb (e =? 0) then panic "kvmmap" else mret tt.

Definition proc_mapstacks (kpgtbl : Z) : K unit :=
  foreach (seq 0 NPROC) (fun p =>
    pa ← kalloc;
    if pa =? 0 then panic "kalloc" else
    kvmmap kpgtbl (KSTACK p) pa PGSIZE (Z.lor PTE_R PTE_W)).

Definition UART0 : Z := 0x10000000.
Definition VIRTIO0 : Z := 0x10001000.
Definition PLIC : Z := 0x0c000000.

Definition kvmmake : K Z :=
  kpgtbl ← kalloc;
  fill_page kpgtbl 0;;
  kvmmap kpgtbl UART0 UART0 PGSIZE (Z.lor PTE_R PTE_W);;
  kvmmap kpgtbl VIRTIO0 VIRTIO0 PGSIZE (Z.lor PTE_R PTE_W);;
  kvmmap kpgtbl PLIC PLIC 0x4000000 (Z.lor PTE_R PTE_W);;
  etext ← gets k_etext;
  kvmmap kpgtbl KERNBASE KERNBASE (etext - KERNBASE) (Z.lor PTE_R PTE_X);;
  kvmmap kpgtbl etext etext (PHYSTOP - etext) (Z.lor PTE_R PTE_W);;
  tramp ← gets k_tramp;
  kvmmap kpgtbl TRAMPOLINE tramp PGSIZE (Z.lor PTE_R PTE_X);;
  proc_mapstacks kpgtbl;;
  mret kpgtbl.

Definition kvminit : K unit := t ← kvmmake; modify (set_k_kpgtbl t).

(** ** The process table *)

Definition procinit : K unit :=
  foreach (seq 0 NPROC) (fun p =>
    upd_proc p (set_p_state UNUSED);;
    upd_proc p (set_p_kstack (KSTACK p)));;
  foreach (seq 0 NMUTEX) (fun i =>
    upd_mutex i (set_mtx_locked false);;
    upd_mutex i (set_mtx_used false);;
    upd_mutex i (set_mtx_owner None));;
  rq_set_count 0.

Definition proc_pagetable (p : nat) : K Z :=
  pagetable ← uvmcreate;
  if pagetable =? 0 then mret 0 else
  tramp ← gets k_tramp;
  e ← mappages pagetable TRAMPOLINE PGSIZE tramp (Z.lor PTE_R PTE_X);
  if e <? 0 then uvmfree pagetable 0;; mret 0 else
  pp ← get_proc p;
  e ← mappages pagetable TRAPFRAME PGSIZE (p_trapframe pp) (Z.lor PTE_R PTE_W);
  if e <? 0 then
    uvmunmap pagetable TRAMPOLINE 1 false;;
    uvmfree pagetable 0;;
    mret 0
  else mret pagetable.

Definition proc_freepagetable (pagetable sz : Z) : K unit :=
  uvmunmap pagetable TRAMPOLINE 1 false;;
  uvmunmap pagetable TRAPFRAME 1 false;;
  uvmfree pagetable sz.

(** The end of freeproc: the fields of the entry are cleared. *)
Definition clear_entry (p : nat) : K unit :=
  upd_proc p (set_p_pagetable 0);;
  upd_proc p (set_p_sz 0);;
  upd_proc p (set_p_pid 0);;
  upd_proc p (set_p_parent None);;
  upd_proc p (fun x => set_p_name (<[O := 0]> (p_name x)) x);;
  upd_proc p (set_p_chan None);;
  upd_proc p (set_p_killed false);;
  upd_proc p (set_p_xstate 0);;
  upd_proc p (set_p_deadline 0);;
  upd_proc p (set_p_priority 0);;
  upd_proc p (set_p_start_time 0);;
  upd_proc p (set_p_in_rq false);;
  upd_proc p (set_p_state UNUSED).

Definition freeproc (p : nat) : K unit :=
  pp ← get_proc p;
  (if p_trapframe pp =? 0 then mret tt else kfree (p_trapframe pp));;
  upd_proc p (set_p_trapframe 0);;
  (if p_pagetable pp =? 0 then mret tt else proc_freepagetable (p_pagetable pp) (p_sz pp));;
  clear_entry p.

(** The entry found UNUSED is taken: a pid, the scheduling attributes at 0. *)
Definition alloc_entry (p : nat) : K unit :=
  pid ← allocpid;
  upd_proc p (set_p_pid pid);;
  upd_proc p (set_p_state USED);;
  upd_proc p (set_p_deadline 0);;
  upd_proc p (set_p_priority 0);;
  upd_proc p (set_p_start_time 0);;
  upd_proc p (set_p_in_rq false).

(** The process found UNUSED is initialised; returns with its lock held. *)
Definition allocproc_found (p : nat) : K (option nat) :=
  alloc_entry p;;
  tf ← kalloc;
  upd_proc p (set_p_trapframe tf);;
  if tf =? 0 then freeproc p;; release (LProc p);; mret None else
  pt ← proc_pagetable p;
  upd_proc p (set_p_pagetable pt);;
  if pt =? 0 then freeproc p;; release (LProc p);; mret None else
  ra ← gets k_forkret;
  upd_proc p (fun x => set_p_context (mkContext ra (p_kstack x + PGSIZE)) x);;
  mret (Some p).

Definition allocproc : K (option nat) :=
  r ← forl (seq 0 NPROC) (fun p =>
    acquire (LProc p);;
    pp ← get_proc p;
    if bool_decide (p_state pp = UNUSED) then mret (Some p)
    else release (LProc p);; mret None);
  match r with
  | None => mret None
  | Some p => allocproc_found p
  end.

Definition userinit : K unit :=
  p ← allocproc;
  modify (set_k_initproc p);;
  p ← deref p;
  ip ← namei (cstr "/");
  upd_proc p (set_p_cwd ip);;
  upd_proc p (set_p_state RUNNABLE);;
  rq_insert p;;
  release (LProc p).

Definition growproc (n : Z) : K Z :=
  p ← myproc;
  pp ← get_proc p;
  let sz := p_sz pp in
  if 0 <? n then
    sz' ← uvmalloc (p_pagetable pp) sz (u64 (sz + n)) PTE_W;
    if sz' =? 0 then mret (-1) else upd_proc p (set_p_sz sz');; mret 0
  else if n <? 0 then
    sz' ← uvmdealloc (p_pagetable pp) sz (u64 (sz + n));
    upd_proc p (set_p_sz sz');; mret 0
  else upd_proc p (set_p_sz sz);; mret 0.

Definition SIZEOF_TRAPFRAME : nat := 288.

(** The child is made runnable and queued. *)
Definition fork_start (np : nat) : K unit :=
  acquire (LProc np);;
  upd_proc np (set_p_state RUNNABLE);;
  rq_insert np;;
  release (LProc np).

Definition kfork : K Z :=
  p ← myproc;
  np ← allocproc;
  match np with
  | None => mret (-1)
  | Some np =>
      pp ← get_proc p;
      npp ← get_proc np;
      e ← uvmcopy (p_pagetable pp) (p_pagetable npp) (p_sz pp);
      if e <? 0 then freeproc np;; release (LProc np);; mret (-1) else
      upd_proc np (set_p_sz (p_sz pp));;
      modify (fun s => set_k_mem
        (memmove (k_mem s) (p_trapframe npp) (p_trapframe pp) SIZEOF_TRAPFRAME) s);;
      modify (fun s => set_k_mem (store64 (k_mem s) (p_trapframe npp + TF_A0) 0) s);;
      foreach (seq 0 NOFILE) (fun i =>
        pp ← get_proc p;
        f ← deref (p_ofile pp !! i);
        match f with
        | None => mret tt
        | Some f =>
            f ← filedup f;
            upd_proc np (fun x => set_p_ofile (<[i := Some f]> (p_ofile x)) x)
        end);;
      cwd ← deref (p_cwd pp);
      cwd ← idup cwd;
      upd_proc np (set_p_cwd (Some cwd));;
      npp ← get_proc np;
      nm ← deref (safestrcpy (p_name npp) (p_name pp) 16);
      upd_proc np (set_p_name nm);;
      upd_proc np (set_p_trace_mask (p_trace_mask pp));;
      upd_proc np (set_p_deadline (p_deadline pp));;
      upd_proc np (set_p_priority (p_priority pp));;
      npp ← get_proc np;
      let pid := p_pid npp in
      release (LProc np);;
      acquire LWait;;
      upd_proc np (set_p_parent (Some p));;
      release LWait;;
      fork_start np;;
      mret pid
  end.

Definition reparent (p : nat) : K unit :=
  foreach (seq 0 NPROC) (fun pp =>
    x ← get_proc pp;
    if bool_decide (p_parent x = Some p) then
      init ← gets k_initproc;
      upd_proc pp (set_p_parent init);;
      i ← deref init;
      wakeup (ChProc i)
    else mret tt).

(** The end of kexit: the process becomes a zombie and never returns. *)
Definition exit_sched (p : nat) (status : Z) : K unit :=
  acquire (LProc p);;
  pp ← get_proc p;
  when (bool_decide (p_state pp = RUNNABLE)) (rq_remove p);;
  upd_proc p (set_p_xstate status);;
  upd_proc p (set_p_state ZOMBIE);;
  release LWait;;
  sched;;
  panic "zombie exit".

(** kexit once the files are closed: the children go to init, the parent is
    woken, the memory is given back. *)
Definition exit_release (p : nat) (status : Z) : K unit :=
  acquire LWait;;
  reparent p;;
  pp ← get_proc p;
  (match p_parent pp with Some q => wakeup (ChProc q) | None => mret tt end);;
  proc_freepagetable (p_pagetable pp) (p_sz pp);;
  upd_proc p (set_p_pagetable 0);;
  upd_proc p (set_p_sz 0);;
  exit_sched p status.

Definition kexit (status : Z) : K unit :=
  p ← myproc;
  init ← gets k_initproc;
  if bool_decide (init = Some p) then panic "init exiting" else
  foreach (seq 0 NOFILE) (fun fd =>
    pp ← get_proc p;
    f ← deref (p_ofile pp !! fd);
    match f with
    | None => mret tt
    | Some f =>
        fileclose f;;
        upd_proc p (fun x => set_p_ofile (<[fd := None]> (p_ofile x)) x)
    end);;
  begin_op;;
  pp ← get_proc p;
  cwd ← deref (p_cwd pp);
  iput cwd;;
  end_op;;
  upd_proc p (set_p_cwd None);;
  exit_release p status.

(** One entry of the table in the scan of kwait: [inr (inr r)] returns [r]. *)
Definition kwait_step (p : nat) (addr : Z) (i : nat * bool) : K (nat * bool + (bool + Z)) :=
  let '(pp, havekids) := i in
  if negb (pp <? NPROC)%nat then mret (inr (inl havekids)) else
  x ← get_proc pp;
  if negb (bool_decide (p_parent x = Some p)) then mret (inl (S pp, havekids)) else
  acquire (LProc pp);;
  x ← get_proc pp;
  if bool_decide (p_state x = ZOMBIE) then
    let pid := p_pid x in
    me ← get_proc p;
    e ← (if addr =? 0 then mret 0
         else copyout (p_pagetable me) addr (le_bytes 4 (p_xstate x)));
    if e <? 0 then
      release (LProc pp);; release LWait;; mret (inr (inr (-1)))
    else
      freeproc pp;; release (LProc pp);; release LWait;; mret (inr (inr pid))
  else release (LProc pp);; mret (inl (S pp, true)).

(** One scan: [inr r] returns [r], [inl] says whether a child was seen. *)
Definition kwait_scan (p : nat) (addr : Z) : K (bool + Z) :=
  loop (S NPROC) (kwait_step p addr) (O, false).

(** A round of the endless loop of kwait. *)
Definition kwait_round (p : nat) (addr : Z) (_ : unit) : K (unit + Z) :=
  r ← kwait_scan p addr;
  match r with
  | inr v => mret (inr v)
  | inl havekids =>
      k ← (if havekids : bool then killed p else mret true);
      if k : bool then release LWait;; mret (inr (-1)) else
      sleep (ChProc p) LWait;; mret (inl tt)
  end.

Definition kwait (addr : Z) : K Z :=
  p ← myproc;
  acquire LWait;;
  loop WAKEUPS (kwait_round p addr) tt.
