(* ===== verification/Reclaim.v ===== *)
(** * Giving an address space back

    proc_freepagetable() on an address space represented as a tree of page
    tables (Aspace.v): every table page and every user page that nobody else
    maps goes to the free list, pages shared with other processes lose the
    references of this one and keep their contents, and nothing else changes. *)

From S2P Require Import Prelude State Spinlock CString Usercopy Kalloc Vm Pages Cow Aspace Uvm Isolation Lifecycle.

#[local] Opaque mem_write memmove mem_read load64 store64 filled.

Definition PTE_RWX : Z := Z.lor (Z.lor PTE_R PTE_W) PTE_X.

(** Pages of user memory: allocated, not tables, with a reference for each
    mapping. *)
Record user_page (fl : list Z) (T : tree) (sz : Z) (s : kstate) (pg : Z) : Prop := {
  up_page : is_page s pg;
  up_used : pg ∉ fl;
  up_table k : T !! k <> Some pg;
  up_ref : mappings T s pg sz <= refcount s pg
}.

(** ** uvmunmap() of all of the memory *)

Section unmap.
  Context (fl : list Z) (pt : Z) (T : tree) (sz : Z) (s : kstate).
  Context (Hpt : ptable pt T s) (Hfl : free_list fl s) (Hnf : not_free T fl) (Hun : unlocked s).
  Context (Hsz : 0 <= sz <= MAXVA) (Hal : sz mod PGSIZE = 0).
  Context (Hdata : forall va, upage sz va -> has (entry T s va) PTE_V = true -> user_page fl T sz s (PTE2PA (entry T s va))).

(** The pages below [a] have been unmapped. *)
Record unmapped (a : Z) (fl1 : list Z) (s1 : kstate) : Prop := {
  un_table : ptable pt T s1;
  un_free : free_list fl1 s1;
  un_nf : not_free T fl1;
  un_unlocked : unlocked s1;
  un_same : user_same s s1;
  un_low va : upage a va -> has (entry T s1 va) PTE_V = false;
  un_high va : upage MAXVA va -> a <= va -> entry T s1 va = entry T s va;
  un_word k t j : T !! k = Some t -> (length k <= 1)%nat -> 0 <= j < 512 -> load64 (k_mem s1) (t + 8 * j) = load64 (k_mem s) (t + 8 * j);
  un_ref pg : pg mod PGSIZE = 0 -> refcount s1 pg = refcount s pg - mappings T s pg a;
  un_fl pg : pg ∈ fl1 <-> pg ∈ fl \/ (0 < mappings T s pg a /\ refcount s pg = mappings T s pg a);
  un_mem x : ~ in_tree T x -> (forall pg, pg ∈ fl1 -> ~ in_page pg x) -> k_mem s1 !!! x = k_mem s !!! x
}.

Lemma mappings_zero pg : mappings T s pg 0 = 0.
Proof. done. Qed.

Lemma unmapped_start : unmapped 0 fl s.
Proof using Type*.
  constructor; try done.
  - intros va [H _]. lia.
  - intros pg _. rewrite mappings_zero. lia.
  - intros pg. rewrite mappings_zero. intuition lia.
Qed.

(** A page that is not mapped at [a]. *)
Lemma unmapped_skip a fl1 s1 : unmapped a fl1 s1 -> upage sz a -> has (entry T s a) PTE_V = false -> unmapped (a + PGSIZE) fl1 s1.
Proof using Hsz.
  intros [H1 H2 H3 H4 H5 H6 H7 H8 H9 H10 H11] [Ha Haa] HV.
  assert (Hm : forall pg, mappings T s pg (a + PGSIZE) = mappings T s pg a).
  { intros pg. rewrite mappings_step by (done || lia). rewrite decide_False by (intros [? ?]; congruence). lia. }
  constructor; try done.
  - intros va [Hva Hv]. destruct (decide (va = a)) as [->|Hne]; [rewrite H7 by (split; [lia|done] || lia); done|].
    apply H6. split; [|done]. pose proof (below_step a va Haa Hv). lia.
  - intros va Hva Hle. apply H7; [done|unfold PGSIZE in *; lia].
  - intros pg Hpg. rewrite Hm. by apply H9.
  - intros pg. rewrite Hm. apply H10.
Qed.

(** A mapped page loses the reference of this mapping. *)
Lemma mapped_ref a fl1 s1 : unmapped a fl1 s1 -> upage sz a -> has (entry T s a) PTE_V = true -> let pg := PTE2PA (entry T s a) in
  is_page s1 pg /\ pg ∉ fl1 /\ 1 <= refcount s1 pg.
Proof using Type*.
  intros Hu [Ha Haa] HV pg. destruct (Hdata a (conj Ha Haa) HV) as [Hp Hnin _ Hr]. fold pg in Hp, Hnin, Hr.
  assert (Hlt : mappings T s pg a + 1 <= mappings T s pg sz).
  { rewrite <- (mappings_mono T s pg (a + PGSIZE) sz) by (destruct (page_gap a sz); [done|done|lia|done|lia]).
    rewrite mappings_step, decide_True by (done || lia). done. }
  split_and!.
  - destruct (un_same _ _ _ Hu) as (m & f & r & ->). exact Hp.
  - rewrite (un_fl _ _ _ Hu). intros [?|[_ ?]]; [done|lia].
  - rewrite (un_ref _ _ _ Hu) by apply Hp. lia.
Qed.
(** Tables are not user pages. *)
Lemma tree_off_page a x : upage sz a -> has (entry T s a) PTE_V = true -> let pg := PTE2PA (entry T s a) in in_tree T x -> x < pg \/ pg + PGSIZE <= x.
Proof using Type*.
  intros Ha HV pg (k & t & Ht & Hx). destruct (Hdata a Ha HV) as [Hp _ Hnt _]. fold pg in Hp, Hnt.
  apply (disjoint_pages pg t); [apply Hp|by eapply ptable_align| |done]. intros ->. by apply (Hnt k).
Qed.

Lemma unmap_drop a fl1 s1 p : unmapped a fl1 s1 -> upage sz a -> has (entry T s a) PTE_V = true -> entry_at T a = Some p ->
  let pg := PTE2PA (entry T s a) in
  returns ((kfree pg;; pte_store p 0) s1) (fun _ s3 => exists fl2, unmapped (a + PGSIZE) fl2 s3).
Proof using Type*.
  intros Hu Ha HV Hat pg. destruct (mapped_ref a fl1 s1 Hu Ha HV) as (Hp1 & Hn1 & Hr1). fold pg in Hp1, Hn1, Hr1.
  destruct Hu as [H1 H2 H3 H4 H5 H6 H7 H8 H9 H10 H11]. apply returns_obind.
  eapply returns_mono; [by apply (kfree_drops_reference fl1 s1 pg H2 H4)|]. cbn beta. intros _ s2 (Hu2 & Hs2 & Hrp & Hf2 & Hro & Hm2).
  set (fl2 := if refcount s1 pg =? 1 then pg :: fl1 else fl1) in *.
  assert (Htree : forall x, in_tree T x -> k_mem s2 !!! x = k_mem s1 !!! x).
  { intros x Hx. apply Hm2. pose proof (tree_off_page a x Ha HV Hx) as Hd. fold pg in Hd. lia. }
  assert (He : k_end s2 = k_end s1) by (by destruct Hs2 as (m & f & r & ->)).
  assert (Hpt2 : ptable pt T s2) by (by eapply ptable_frame).
  assert (Hnf2 : not_free T fl2).
  { intros k t Ht Hin. unfold fl2 in Hin. destruct (_ =? 1); [|by apply (H3 k t)]. apply elem_of_cons in Hin as [->|Hin]; [|by apply (H3 k t)].
    by apply (up_table _ _ _ _ _ (Hdata a Ha HV) k). }
  unfold pte_store. mred. cbn [returns]. exists fl2. destruct Ha as [Ha Haa].
  assert (Hent : forall va, upage MAXVA va -> entry T (set_k_mem (store64 (k_mem s2) p 0) s2) va = if decide (va = a) then u64 0 else entry T s1 va).
  { intros va [Hva Hv]. rewrite (store_entry pt T s2 a p 0 Hpt2 Hat) by (done || lia). case_decide; [done|]. by apply entry_frame. }
  assert (Hmap : forall pg', mappings T s pg' (a + PGSIZE) = mappings T s pg' a + if decide (pg' = pg) then 1 else 0).
  { intros pg'. rewrite mappings_step by (done || lia). change (PTE2PA (entry T s a)) with pg. do 2 case_decide; naive_solver. }
  constructor.
  - by apply (store_ptable pt T s2 a p 0).
  - by apply (store_free pt T s2 a p 0 Hpt2 Hat).
  - done.
  - done.
  - trans s1; [done|]. trans s2; [done|]. by eexists _, _, _.
  - intros va [Hva Hv]. rewrite Hent by (split; [|done]; unfold PGSIZE in *; pose proof (page_gap a sz Haa Hal); unfold PGSIZE in *; lia).
    case_decide as E; [done|]. apply H6. split; [|done]. pose proof (below_step a va Haa Hv). lia.
  - intros va Hva Hle. rewrite Hent by done. rewrite decide_False by (unfold PGSIZE in *; lia). apply H7; [done|unfold PGSIZE in *; lia].
  - intros k t j Ht Hk Hj. rewrite <- (H8 k t j Ht Hk Hj). destruct (entry_at_word _ _ _ Hat) as (t0 & Ht0 & ->).
    assert (t0 <> t) by (intros ->; pose proof (pt_inj _ _ _ Hpt _ _ _ Ht Ht0) as ->; simpl in Hk; lia).
    cbn [k_mem set_k_mem]. apply load_other_page; [done|]. intros x Hx.
    rewrite (store_other_page _ t0 _ t) by (done || (by eapply ptable_align) || by apply PX_bounds). apply Htree. by exists k, t.
  - intros pg' Hpg'. rewrite refcount_set_mem, Hmap. pose proof (H9 pg' Hpg') as E. case_decide as Hd; [subst pg'; lia|]. rewrite Hro by done. lia.
  - intros pg'. rewrite Hmap. pose proof (H10 pg') as E. pose proof (H9 pg (proj1 Hp1)) as E9. unfold fl2. case_decide as Hd.
    + subst pg'. destruct (Z.eqb_spec (refcount s1 pg) 1) as [E1|E1]; [rewrite elem_of_cons|]; pose proof (up_used _ _ _ _ _ (Hdata a (conj Ha Haa) HV)) as Hnu; fold pg in Hnu.
      * split; [|by left]. intros _. right. unfold mappings in *. lia.
      * split; [done|]. intros [?|[_ ?]]; [done|lia].
    + rewrite Z.add_0_r, <- E. destruct (_ =? 1); [|done]. rewrite elem_of_cons. naive_solver.
  - intros x Hx Hfree. rewrite (store_mem pt T s2 a p 0 Hpt2 Hat) by done. unfold fl2 in Hfree. destruct (Z.eqb_spec (refcount s1 pg) 1) as [E1|E1].
    + rewrite Hm2; [apply H11; [done|]; intros q Hq; apply Hfree; by right|]. assert (Hnp : ~ in_page pg x) by (apply Hfree; by left). unfold in_page in Hnp. lia.
    + rewrite Hm2 by (right; right; lia). by apply H11.
Qed.
Lemma uvmunmap_all : returns (uvmunmap pt 0 (sz / PGSIZE) true s) (fun _ s1 => exists fl1, unmapped sz fl1 s1).
Proof using Type*.
  unfold uvmunmap. change (negb (0 mod PGSIZE =? 0)) with false. mred.
  replace (0 + sz / PGSIZE * PGSIZE) with sz by (pose proof (Z.div_mod sz PGSIZE ltac:(done)); lia).
  eapply returns_mono; [apply (foreach_zstep (fun a s1 => exists fl1, unmapped a fl1 s1)); [done|exists fl; apply unmapped_start|]|].
  - intros a s1 Ha Haa [fl1 Hu]. rewrite Z.sub_0_r in Haa. assert (Hup : upage sz a) by done.
    mred. rewrite (walk_tree pt T) by (apply Hu || lia). mred. pose proof (un_high _ _ _ Hu a ltac:(split; [lia|done]) ltac:(lia)) as He.
    destruct (entry_at T a) as [p|] eqn:Hat; cbn [from_option id].
    + destruct (entry_at_word _ _ _ Hat) as (t & Ht & Hpt'). pose proof (ptable_pos _ _ _ _ _ Hpt Ht). pose proof (PX_bounds 0 a ltac:(lia)).
      rewrite (proj2 (Z.eqb_neq p 0)) by lia. unfold pte_load. mred. unfold entry at 1 in He. rewrite Hat in He. rewrite He.
      destruct (has (entry T s a) PTE_V) eqn:HV; mred; [by apply (unmap_drop a fl1 s1 p)|]. exists fl1. by apply unmapped_skip.
    + mred. change (0 =? 0) with true. mred. exists fl1. apply unmapped_skip; [done|done|]. by rewrite (entry_invalid_missing _ _ _ Hat).
  - cbn beta. intros _ s1 (x & H1 & H2 & H3 & H4 & fl1 & Hu). exists fl1. rewrite Z.sub_0_r in H3.
    replace sz with x; [done|]. destruct (decide (x = sz)); [done|]. destruct (page_gap x sz); try done; unfold PGSIZE in *; lia.
Qed.
End unmap.

(** ** freewalk() *)

(** Below node [k] every table is as the tree says and maps no page. *)
Definition bare (T : tree) (k : list Z) (s : kstate) : Prop :=
  forall l t j, T !! (l ++ k) = Some t -> 0 <= j < 512 ->
    let w := load64 (k_mem s) (t + 8 * j) in
    match T !! (j :: l ++ k) with
    | Some t' => has w PTE_V = true /\ has w PTE_RWX = false /\ PTE2PA w = t'
    | None => has w PTE_V = false
    end.

(** The pages of the tables below node [k]. *)
Definition below (T : tree) (k : list Z) (pg : Z) : Prop := exists l, T !! (l ++ k) = Some pg.

Section freewalk.
  Context (T : tree).
  Context (Hinj : forall k k' t, T !! k = Some t -> T !! k' = Some t -> k = k').
  Context (Hup : forall j k t, T !! (j :: k) = Some t -> 0 <= j < 512 /\ (length k <= 1)%nat /\ is_Some (T !! k)).

Lemma below_child j k pg : below T (j :: k) pg -> below T k pg.
Proof using Type. intros [l Hl]. exists (l ++ [j]). by rewrite <- app_assoc. Qed.

Lemma below_split k pg : below T k pg -> T !! k = Some pg \/ exists j, 0 <= j < 512 /\ below T (j :: k) pg.
Proof using Hup.
  intros [l Hl]. destruct l as [|j l _] using rev_ind; [by left|]. right. exists j. rewrite <- app_assoc in Hl. simpl in Hl. split; [|by exists l].
  revert pg Hl. induction l as [|i l IH]; intros pg Hl; simpl in Hl; [by apply Hup in Hl as [? _]|].
  apply Hup in Hl as (_ & _ & [t Ht]). by apply (IH t).
Qed.

(** Different children have different tables. *)
Lemma below_disjoint j j' k pg : below T (j :: k) pg -> below T (j' :: k) pg -> j = j'.
Proof using Hinj.
  intros [l Hl] [l' Hl']. pose proof (Hinj _ _ _ Hl Hl') as E. apply (f_equal reverse) in E.
  rewrite !reverse_app, !reverse_cons, <- !app_assoc in E. apply app_inv_head in E. by injection E.
Qed.

Lemma below_self j k pg : T !! k = Some pg -> ~ below T (j :: k) pg.
Proof using Hinj.
  intros Hk [l Hl]. pose proof (Hinj _ _ _ Hk Hl) as E. apply (f_equal length) in E. rewrite length_app in E. simpl in E. lia.
Qed.
Lemma below_root j k pg : below T (j :: k) pg -> is_Some (T !! (j :: k)).
Proof using Hup.
  intros [l Hl]. revert pg Hl. induction l as [|i l IH]; intros pg Hl; simpl in Hl; [by eexists|].
  apply Hup in Hl as (_ & _ & [t Ht]). by apply (IH t).
Qed.

(** What freewalk() of node [k] leaves: its tables are free. *)
Record released (P : Z -> Prop) (fl : list Z) (s : kstate) (fl' : list Z) (s' : kstate) : Prop := {
  rl_free : free_list fl' s';
  rl_unlocked : unlocked s';
  rl_same : user_same s s';
  rl_fl pg : pg ∈ fl' <-> pg ∈ fl \/ P pg;
  rl_ref pg : pg mod PGSIZE = 0 -> ~ P pg -> refcount s' pg = refcount s pg
}.

Section node.
  Context (k : list Z) (t : Z) (fl : list Z) (s : kstate).
  Context (Ht : T !! k = Some t) (Hbare : bare T k s) (Hfl : free_list fl s) (Hun : unlocked s).
  Context (Hpages : forall pg, below T k pg -> is_page s pg /\ pg ∉ fl /\ refcount s pg = 1).

(** The children before [i] have been freed and unlinked. *)
Definition freed_before (i pg : Z) : Prop := exists j, 0 <= j < i /\ below T (j :: k) pg.

Record walked (i : Z) (fl1 : list Z) (s1 : kstate) : Prop := {
  wk_rel : released (freed_before i) fl s fl1 s1;
  wk_mem x : (forall pg, freed_before i pg -> ~ in_page pg x) -> x < t \/ t + 8 * i <= x -> k_mem s1 !!! x = k_mem s !!! x
}.

Lemma walked_start : walked 0 fl s.
Proof using Type*.
  assert (Hno : forall pg, ~ freed_before 0 pg) by (intros pg (j & ? & _); lia).
  constructor; [constructor|]; try done. intros pg. pose proof (Hno pg). tauto.
Qed.

Lemma freed_before_step i pg : 0 <= i -> freed_before (i + 1) pg <-> freed_before i pg \/ below T (i :: k) pg.
Proof using Type.
  intros Hi. split.
  - intros (j & Hj & Hb). destruct (decide (j = i)) as [->|]; [by right|]. left. exists j. split; [lia|done].
  - intros [(j & Hj & Hb)|Hb]; [exists j|exists i]; (split; [lia|done]).
Qed.

(** A child that is not there. *)
Lemma walked_skip i fl1 s1 : walked i fl1 s1 -> 0 <= i -> T !! (i :: k) = None -> walked (i + 1) fl1 s1.
Proof using Hup.
  intros [[H1 H2 H3 H4 H5] H6] Hi Hnone.
  assert (E : forall pg, freed_before (i + 1) pg <-> freed_before i pg).
  { intros pg. rewrite freed_before_step by done. split; [|by left]. intros [?|[? Hb]%below_root]; [done|congruence]. }
  constructor; [constructor|]; try done.
  - intros pg. rewrite E. apply H4.
  - intros pg Hal Hn. apply H5; [done|]. by rewrite <- E.
  - intros x Hx Hr. apply H6; [intros pg; rewrite <- E; apply Hx|lia].
Qed.

(** Table [t] is not among its children, and neither is a child among the others. *)
Lemma table_kept i x : in_page t x -> forall pg, freed_before i pg -> ~ in_page pg x.
Proof using Type*.
  intros Hx pg (j & Hj & Hb) Hpx. destruct (Hpages pg (below_child _ _ _ Hb)) as [[Hal _] _].
  destruct (Hpages t ltac:(by exists [])) as [[Hal' _] _].
  assert (pg = t) as ->; [|by eapply below_self].
  destruct (decide (pg = t)); [done|]. destruct (page_gap pg t); try done; unfold in_page, PGSIZE in *; lia.
Qed.

Lemma child_kept i q x : below T (i :: k) q -> in_page q x -> (forall pg, freed_before i pg -> ~ in_page pg x) /\ (x < t \/ t + 8 * 512 <= x).
Proof using Type*.
  intros Hq Hx. destruct (Hpages q (below_child _ _ _ Hq)) as [[Hal _] _]. split.
  - intros pg (j & Hj & Hb) Hpx. destruct (Hpages pg (below_child _ _ _ Hb)) as [[Hal' _] _].
    assert (pg = q) as -> by (destruct (decide (pg = q)); [done|]; destruct (page_gap pg q); try done; unfold in_page, PGSIZE in *; lia).
    pose proof (below_disjoint _ _ _ _ Hq Hb). lia.
  - destruct (Hpages t ltac:(by exists [])) as [[Hal' _] _]. assert (q <> t) by (intros ->; by eapply below_self).
    destruct (page_gap q t); try done; unfold in_page, PGSIZE in *; lia.
Qed.

Lemma child_ready i fl1 s1 : walked i fl1 s1 -> 0 <= i < 512 ->
  bare T (i :: k) s1 /\ forall pg, below T (i :: k) pg -> is_page s1 pg /\ pg ∉ fl1 /\ refcount s1 pg = 1.
Proof using Type*.
  intros [[H1 H2 H3 H4 H5] H6] Hi. split.
  - intros l q j Hq Hj. replace (l ++ i :: k) with ((l ++ [i]) ++ k) in * by (by rewrite <- app_assoc).
    rewrite (load_other_page (k_mem s)); [by apply Hbare|done|]. intros x Hx.
    destruct (child_kept i q x) as [Hc Hr]; [exists l; by rewrite <- app_assoc in Hq|done|]. apply H6; [done|lia].
  - intros pg Hb. destruct (Hpages pg (below_child _ _ _ Hb)) as (Hp & Hn & Hr).
    assert (Hnf : ~ freed_before i pg) by (intros (j & Hj & Hb'); pose proof (below_disjoint _ _ _ _ Hb Hb'); lia).
    split_and!; [by destruct H3 as (m & f & r & ->)|rewrite H4; tauto|]. rewrite H5 by (apply Hp || done). done.
Qed.

(** A child was freed and its entry cleared. *)
Lemma walked_child i fl1 s1 fl2 s2 : walked i fl1 s1 -> 0 <= i < 512 -> released (below T (i :: k)) fl1 s1 fl2 s2 ->
  (forall x, (forall pg, below T (i :: k) pg -> ~ in_page pg x) -> k_mem s2 !!! x = k_mem s1 !!! x) ->
  walked (i + 1) fl2 (set_k_mem (store64 (k_mem s2) (t + 8 * i) 0) s2).
Proof using Type*.
  intros [[H1 H2 H3 H4 H5] H6] Hi [J1 J2 J3 J4 J5] J6. destruct (Hpages t ltac:(by exists [])) as ([Hal Hb] & Hnt & _).
  assert (Hnt2 : t ∉ fl2).
  { rewrite J4, H4. intros [[?|(j & _ & Hj)]|Hj]; [done|by eapply below_self|by eapply below_self]. }
  constructor; [constructor|].
  - apply free_list_set_mem; [done|]. eapply (chain_other_page _ _ s2 _ _ t); [done|done|apply J1| |apply J1].
    intros x Hx. apply store64_other. unfold PGSIZE in *. lia.
  - done.
  - trans s1; [done|]. trans s2; [done|]. by eexists _, _, _.
  - intros pg. rewrite J4, H4, freed_before_step by lia. tauto.
  - intros pg Hpg Hn. rewrite freed_before_step in Hn by lia. rewrite refcount_set_mem, J5, H5 by tauto. done.
  - intros x Hx Hr. cbn [k_mem set_k_mem]. rewrite store64_other by lia. rewrite J6.
    + apply H6; [|lia]. intros pg Hpg. apply Hx. rewrite freed_before_step by lia. by left.
    + intros pg Hpg. apply Hx. rewrite freed_before_step by lia. by right.
Qed.

(** The table itself goes last. *)
Lemma walked_end fl1 s1 : walked 512 fl1 s1 ->
  returns (kfree t s1) (fun _ s2 => exists fl2, released (below T k) fl s fl2 s2 /\
    forall x, (forall pg, below T k pg -> ~ in_page pg x) -> k_mem s2 !!! x = k_mem s !!! x).
Proof using Type*.
  intros [[H1 H2 H3 H4 H5] H6]. destruct (Hpages t ltac:(by exists [])) as (Hp & Hnt & Hr).
  assert (Hnb : ~ freed_before 512 t) by (intros (j & _ & Hj); by eapply below_self).
  assert (Hr1 : refcount s1 t = 1) by (rewrite H5; [done|apply Hp|done]).
  assert (Ebelow : forall pg, below T k pg <-> pg = t \/ freed_before 512 pg).
  { intros pg. split.
    - intros Hb. destruct (below_split k pg Hb) as [?|(j & Hj & Hb')]; [left; congruence|right; by exists j].
    - intros [->|(j & _ & Hj)]; [by exists []|by eapply below_child]. }
  eapply returns_mono; [apply (kfree_drops_reference fl1 s1 t H1 H2); [by destruct H3 as (m & f & r & ->)|rewrite H4; tauto|lia]|].
  cbn beta. intros _ s2 (Hu2 & Hs2 & Hr2 & Hf2 & Hro & Hm2). rewrite Hr1 in Hf2. exists (t :: fl1). split; [constructor|]; try done.
  - by trans s1.
  - intros pg. rewrite elem_of_cons, H4, Ebelow. tauto.
  - intros pg Hal Hn. rewrite Ebelow in Hn. rewrite Hro by tauto. apply H5; tauto.
  - intros x Hx. assert (Hxt : ~ in_page t x) by (apply Hx, Ebelow; by left). unfold in_page in Hxt.
    rewrite Hm2 by lia. apply H6; [|unfold PGSIZE in *; lia]. intros pg Hpg. apply Hx, Ebelow. by right.
Qed.

End node.

(** freewalk() frees the tables of a node and everything below it. *)
Lemma freewalk_spec levels k t fl s :
  T !! k = Some t -> (length k + levels = 3)%nat -> bare T k s -> free_list fl s -> unlocked s ->
  (forall pg, below T k pg -> is_page s pg /\ pg ∉ fl /\ refcount s pg = 1) ->
  returns (freewalk levels t s) (fun _ s' => exists fl', released (below T k) fl s fl' s' /\
    forall x, (forall pg, below T k pg -> ~ in_page pg x) -> k_mem s' !!! x = k_mem s !!! x).
Proof using Type*.
  revert k t fl s. induction levels as [|levels IH]; intros k t fl s Ht Hl Hbare Hfl Hun Hpages.
  { destruct k as [|j k]; [simpl in Hl; lia|]. apply Hup in Ht as (_ & Hk & _). simpl in Hl. lia. }
  cbn [freewalk]. apply returns_obind. eapply returns_mono.
  - apply (foreach_zrange (fun i s1 => exists fl1, walked k t fl s i fl1 s1)); [lia|exists fl; by apply walked_start|].
    intros i s1 Hi [fl1 Hw]. unfold pte_load. mred.
    assert (Ew : load64 (k_mem s1) (t + 8 * i) = load64 (k_mem s) (t + 8 * i)).
    { apply load64_ext. intros x Hx. apply (wk_mem _ _ _ _ _ _ _ Hw); [|lia]. apply (table_kept k t fl s Ht Hbare Hfl Hun Hpages). by eapply word_in_page. }
    rewrite Ew. pose proof (Hbare [] t i Ht Hi) as Hd. simpl in Hd. destruct (T !! (i :: k)) as [t'|] eqn:Ht'.
    + destruct Hd as (HV & HR & HP). change (Z.lor (Z.lor PTE_R PTE_W) PTE_X) with PTE_RWX. rewrite HV, HR. mred.
      destruct (child_ready k t fl s Ht Hbare Hfl Hun Hpages i fl1 s1 Hw Hi) as [Hb1 Hp1]. rewrite HP. apply returns_obind.
      eapply returns_mono; [apply (IH (i :: k) t' fl1 s1); try done; [simpl; lia|apply Hw|apply Hw]|].
      cbn beta. intros _ s2 (fl2 & Hrel & Hm2). unfold pte_store. mred. cbn [returns]. exists fl2. by eapply walked_child.
    + rewrite Hd. mred. exists fl1. apply walked_skip; [done|lia|done].
  - cbn beta. intros _ s1 [fl1 Hw]. by apply (walked_end k t fl s Ht Hbare Hfl Hun Hpages fl1 s1).
Qed.
End freewalk.

(** ** An address space *)

Record address_space (fl : list Z) (pt : Z) (T : tree) (sz : Z) (s : kstate) : Prop := {
  as_table : ptable pt T s;
  as_free : free_list fl s;
  as_nf : not_free T fl;
  as_unlocked : unlocked s;
  as_size : 0 <= sz <= TRAPFRAME;
  as_reach j k : is_Some (T !! (k ++ [j])) -> j < 256;
  as_link k t j t' : T !! k = Some t -> T !! (j :: k) = Some t' -> has (load64 (k_mem s) (t + 8 * j)) PTE_RWX = false;
  as_table_ref k t : T !! k = Some t -> refcount s t = 1;
  as_user va : upage sz va -> has (entry T s va) PTE_V = true -> user_page fl T sz s (PTE2PA (entry T s va));
  as_rest va : upage MAXVA va -> sz <= va -> has (entry T s va) PTE_V = true -> va = TRAMPOLINE \/ va = TRAPFRAME
}.

Lemma roundup_bounds sz : 0 <= sz <= TRAPFRAME -> PGROUNDUP sz mod PGSIZE = 0 /\ sz <= PGROUNDUP sz < sz + PGSIZE.
Proof. intros Hsz. apply PGROUNDUP_spec; unfold TRAPFRAME, TRAMPOLINE, MAXVA, PGSIZE in *; lia. Qed.

Lemma roundup_upage sz va : 0 <= sz <= TRAPFRAME -> upage (PGROUNDUP sz) va <-> upage sz va.
Proof.
  intros Hsz. destruct (roundup_bounds sz Hsz) as (H1 & H2).
  unfold upage. split; intros [H4 H5]; (split; [|done]); [|lia]. split; [lia|].
  destruct (decide (va < sz)); [done|]. destruct (page_gap va (PGROUNDUP sz)); try done; unfold PGSIZE in *; lia.
Qed.

Lemma roundup_mappings T s pg sz : 0 <= sz <= TRAPFRAME -> mappings T s pg (PGROUNDUP sz) = mappings T s pg sz.
Proof. intros Hsz. destruct (roundup_bounds sz Hsz) as (H1 & H2). apply mappings_roundup; [lia|done|unfold PGSIZE in *; lia]. Qed.

(** Every word of a third-level table is the entry of some page. *)
Definition page_at (i2 i1 j : Z) : Z := i2 * 2 ^ 30 + i1 * 2 ^ 21 + j * 2 ^ 12.

Lemma page_at_PX i2 i1 j : 0 <= i2 < 256 -> 0 <= i1 < 512 -> 0 <= j < 512 -> let va := page_at i2 i1 j in
  PX 2 va = i2 /\ PX 1 va = i1 /\ PX 0 va = j /\ upage MAXVA va.
Proof.
  intros H2 H1 H0 va. unfold va, page_at. rewrite !PX_eq by lia. unfold upage, MAXVA, PGSIZE.
  change (2 ^ 30) with 1073741824. change (2 ^ 21) with 2097152. change (2 ^ 12) with 4096. change (2 ^ 38) with 274877906944.
  change (12 + 9 * 2) with 30. change (12 + 9 * 1) with 21. change (12 + 9 * 0) with 12.
  change (2 ^ 30) with 1073741824. change (2 ^ 21) with 2097152. change (2 ^ 12) with 4096.
  split_and!; Z.div_mod_to_equations; lia.
Qed.

(** Clearing the entries of the trampoline and the trapframe. *)
Definition cleared (T : tree) (s : kstate) (va : Z) : kstate :=
  if has (entry T s va) PTE_V then set_k_mem (store64 (k_mem s) (default 0 (entry_at T va)) 0) s else s.

Lemma uvmunmap_keep pt T s va : ptable pt T s -> 0 <= va < MAXVA -> va mod PGSIZE = 0 ->
  uvmunmap pt va 1 false s = Ret tt (cleared T s va).
Proof.
  intros Hp Hva Hal. unfold uvmunmap, cleared. rewrite (proj2 (Z.eqb_eq _ _) Hal). mred.
  rewrite zstep_cons by (unfold PGSIZE; lia). rewrite zstep_nil by (unfold PGSIZE; lia). cbn [foreach]. mred.
  rewrite (walk_tree pt T) by (done || lia). mred. destruct (entry_at T va) as [p|] eqn:Hat; cbn [from_option id].
  - assert (He : load64 (k_mem s) p = entry T s va) by (unfold entry; by rewrite Hat).
    destruct (entry_at_word _ _ _ Hat) as (t & Ht & Hpt). pose proof (ptable_pos _ _ _ _ _ Hp Ht). pose proof (PX_bounds 0 va ltac:(lia)).
    rewrite (proj2 (Z.eqb_neq p 0)) by lia. unfold pte_load, pte_store. mred. rewrite He.
    by destruct (has (entry T s va) PTE_V).
  - by rewrite (entry_invalid_missing _ _ _ Hat).
Qed.

(** What clearing an entry above the user memory leaves of the address space. *)
Lemma clear_entry_kept fl pt T sz s va : address_space fl pt T sz s -> upage MAXVA va -> sz <= va ->
  let s' := cleared T s va in
  address_space fl pt T sz s' /\ user_same s s' /\ (forall pg, refcount s' pg = refcount s pg) /\
  (forall pg, mappings T s' pg sz = mappings T s pg sz) /\ (forall x, ~ in_tree T x -> k_mem s' !!! x = k_mem s !!! x) /\
  (forall va', upage MAXVA va' -> has (entry T s' va') PTE_V = true -> va' <> va /\ has (entry T s va') PTE_V = true).
Proof.
  intros A Hva Hle s'. unfold s', cleared. clear s'. destruct (has (entry T s va) PTE_V) eqn:HV.
  2: { split_and!; try done. intros va' _ HV'. split; [intros ->; congruence|done]. }
  destruct (entry_at T va) as [p|] eqn:Hat; [|by rewrite (entry_invalid_missing _ _ _ Hat) in HV]. cbn [from_option id].
  destruct A as [A1 A2 A3 A4 A5 A6 A7 A8 A9 A10]. destruct Hva as [Hva Hal].
  set (s' := set_k_mem _ s).
  assert (He : forall va', upage MAXVA va' -> entry T s' va' = if decide (va' = va) then u64 0 else entry T s va').
  { intros va' [Hv' Ha']. by apply (store_entry pt T s va p 0 A1 Hat). }
  assert (Hlow : forall va', upage sz va' -> entry T s' va' = entry T s va').
  { intros va' [Hv' Ha']. rewrite He by (split; [unfold TRAPFRAME, TRAMPOLINE, MAXVA, PGSIZE in *; lia|done]). rewrite decide_False by lia. done. }
  assert (Hmap : forall pg, mappings T s' pg sz = mappings T s pg sz) by (intros pg; by apply mappings_same).
  split_and!; try done.
  - constructor; try done; [by apply (store_ptable pt T s va p 0)|by apply (store_free pt T s va p 0 A1 Hat)| | |].
    + intros k t j t' Ht Ht'. destruct (entry_at_word _ _ _ Hat) as (t0 & Ht0 & Hp). pose proof (A7 k t j t' Ht Ht') as HR.
      apply (pt_up _ _ _ A1) in Ht' as (Hj & Hk & _). assert (t0 <> t) by (intros ->; pose proof (pt_inj _ _ _ A1 _ _ _ Ht Ht0) as ->; simpl in Hk; lia).
      unfold s'. cbn [k_mem set_k_mem]. rewrite (load_other_page (k_mem s)); [done|done|]. intros x Hx. rewrite Hp.
      rewrite (store_other_page _ t0 _ t) by (done || (by eapply ptable_align) || by apply PX_bounds). done.
    + intros va' Hv' HV'. rewrite Hlow in HV' |- * by done. destruct (A9 va' Hv' HV') as [B1 B2 B3 B4]. constructor; try done. by rewrite Hmap.
    + intros va' Hv' Hle' HV'. rewrite He in HV' by done. case_decide; [done|]. by apply A10.
  - by eexists _, _, _.
  - intros x Hx. by apply (store_mem pt T s va p 0 A1 Hat).
  - intros va' Hv' HV'. rewrite He in HV' by done. by case_decide.
Qed.

Lemma mappings_none T s pg sz : (forall va, upage sz va -> has (entry T s va) PTE_V = true -> PTE2PA (entry T s va) <> pg) -> mappings T s pg sz = 0.
Proof.
  intros Hn. unfold mappings. destruct (filter _ _) as [|va l] eqn:E; [done|]. assert (Hin : va ∈ va :: l) by (by left). rewrite <- E in Hin.
  apply list_elem_of_filter in Hin as [[HV HP] Hva%elem_of_zstep]. by apply (Hn va) in HV.
Qed.

(** What is given back: the tables, and the user pages whose only references
    are those of this address space. *)
Definition given_back (T : tree) (sz : Z) (s : kstate) (pg : Z) : Prop :=
  (exists k, T !! k = Some pg) \/ (0 < mappings T s pg sz /\ refcount s pg = mappings T s pg sz).

Record reclaimed (fl : list Z) (T : tree) (sz : Z) (s : kstate) (fl' : list Z) (s' : kstate) : Prop := {
  rc_free : free_list fl' s';
  rc_unlocked : unlocked s';
  rc_same : user_same s s';
  rc_fl pg : pg ∈ fl' <-> pg ∈ fl \/ given_back T sz s pg;
  rc_ref pg : pg mod PGSIZE = 0 -> (forall k, T !! k <> Some pg) -> refcount s' pg = refcount s pg - mappings T s pg sz;
  rc_mem x : (forall pg, pg ∈ fl' -> ~ in_page pg x) -> k_mem s' !!! x = k_mem s !!! x
}.

Section reclaim.
  Context (fl : list Z) (pt : Z) (T : tree) (sz : Z) (s : kstate) (A : address_space fl pt T sz s).
  Context (Hnone : forall va, upage MAXVA va -> sz <= va -> has (entry T s va) PTE_V = false).

(** The user memory is unmapped, whole pages at a time. *)
Lemma unmap_user : returns (when (0 <? sz) (uvmunmap pt 0 (PGROUNDUP sz / PGSIZE) true) s) (fun _ s1 => exists fl1, unmapped fl pt T s (PGROUNDUP sz) fl1 s1).
Proof using A.
  pose proof (as_size _ _ _ _ _ A) as Hsz. destruct (roundup_bounds sz Hsz) as (H1 & H2). destruct (Z.ltb_spec 0 sz) as [Hpos|Hz]; mred.
  - apply (uvmunmap_all fl pt T (PGROUNDUP sz) s (as_table _ _ _ _ _ A) (as_free _ _ _ _ _ A) (as_nf _ _ _ _ _ A) (as_unlocked _ _ _ _ _ A)); [unfold TRAPFRAME, TRAMPOLINE, MAXVA, PGSIZE in *; lia|done|].
    intros va Hva HV. apply (proj1 (roundup_upage sz va Hsz)) in Hva. destruct (as_user _ _ _ _ _ A va Hva HV) as [B1 B2 B3 B4]. constructor; try done.
    by rewrite roundup_mappings.
  - cbn [returns]. exists fl. replace sz with 0 by lia. change (PGROUNDUP 0) with 0. 
    apply (unmapped_start fl pt T 0 s (as_table _ _ _ _ _ A) (as_free _ _ _ _ _ A) (as_nf _ _ _ _ _ A) (as_unlocked _ _ _ _ _ A)); [unfold MAXVA; lia|done|].
    intros va [Hva _] _. lia.
Qed.

Lemma table_unmapped k t : T !! k = Some t -> mappings T s t sz = 0.
Proof using A. intros Ht. apply mappings_none. intros va Hva HV <-. by apply (up_table _ _ _ _ _ (as_user _ _ _ _ _ A va Hva HV) k). Qed.

(** The tables map nothing any more. *)
Lemma unmapped_bare fl1 s1 : unmapped fl pt T s (PGROUNDUP sz) fl1 s1 -> bare T [] s1.
Proof using A Hnone.
  intros Hu l t j Ht Hj. rewrite app_nil_r in Ht |- *. pose proof (un_table _ _ _ _ _ _ _ Hu) as Hp1. pose proof (as_size _ _ _ _ _ A) as Hsz.
  destruct (decide (length l <= 1)%nat) as [Hl|Hl].
  - pose proof (pt_down _ _ _ Hp1 l t j Ht Hl Hj) as Hd. destruct (T !! (j :: l)) as [t'|] eqn:Ht'; [|done]. destruct Hd as [HV HP].
    split_and!; [done| |done]. rewrite (un_word _ _ _ _ _ _ _ Hu l t j Ht Hl Hj). by eapply as_link.
  - destruct (T !! (j :: l)) as [t'|] eqn:Ht'; [by apply (pt_up _ _ _ Hp1) in Ht' as (_ & Hk & _)|].
    destruct l as [|i1 [|i2 [|i3 l]]]; simpl in Hl; try lia.
    2: { apply (pt_up _ _ _ Hp1) in Ht as (_ & Hk & _). simpl in Hk. lia. }
    pose proof Ht as (Hi1 & _ & [t1 Ht1])%(pt_up _ _ _ Hp1). pose proof Ht1 as (Hi2 & _)%(pt_up _ _ _ Hp1).
    assert (Hr : i2 < 256) by (apply (as_reach _ _ _ _ _ A i2 []); by eexists).
    destruct (page_at_PX i2 i1 j) as (P2 & P1 & P0 & Hup); [lia|done|done|]. set (va := page_at i2 i1 j) in *.
    assert (Ew : load64 (k_mem s1) (t + 8 * j) = entry T s1 va).
    { unfold entry, entry_at. rewrite P2, P1, Ht. simpl. unfold pte_addr. by rewrite P0. }
    rewrite Ew. destruct (decide (va < PGROUNDUP sz)) as [Hlt|Hge].
    + apply (un_low _ _ _ _ _ _ _ Hu). destruct Hup. split; [lia|done].
    + rewrite (un_high _ _ _ _ _ _ _ Hu) by (done || lia). destruct (roundup_bounds sz Hsz). apply Hnone; [done|lia].
Qed.

Lemma uvmfree_reclaims : returns (uvmfree pt sz s) (fun _ s' => exists fl', reclaimed fl T sz s fl' s').
Proof using A Hnone.
  pose proof (as_size _ _ _ _ _ A) as Hsz. unfold uvmfree. apply returns_obind. eapply returns_mono; [apply unmap_user|]. cbn beta. intros _ s1 [fl1 Hu].
  pose proof (un_table _ _ _ _ _ _ _ Hu) as Hp1.
  eapply returns_mono; [apply (freewalk_spec T (pt_inj _ _ _ Hp1) (pt_up _ _ _ Hp1) 3 [] pt fl1 s1 (pt_root _ _ _ Hp1) eq_refl (unmapped_bare fl1 s1 Hu)); try apply Hu|].
  - intros pg [l Hl]. rewrite app_nil_r in Hl. split_and!; [by eapply pt_page|by apply (un_nf _ _ _ _ _ _ _ Hu l)|].
    rewrite (un_ref _ _ _ _ _ _ _ Hu) by (by eapply ptable_align). rewrite roundup_mappings, (table_unmapped l) by done. rewrite (as_table_ref _ _ _ _ _ A l) by done. lia.
  - cbn beta. intros _ s2 (fl2 & [R1 R2 R3 R4 R5] & R6). exists fl2.
    assert (Hb : forall pg, below T [] pg <-> exists k, T !! k = Some pg) by (intros pg; split; intros [k Hk]; exists k; rewrite app_nil_r in *; done).
    assert (Hfl : forall pg, pg ∈ fl2 <-> pg ∈ fl \/ given_back T sz s pg).
    { intros pg. rewrite R4, (un_fl _ _ _ _ _ _ _ Hu), Hb, roundup_mappings by done. unfold given_back. tauto. }
    constructor; try done.
    + trans s1; [apply Hu|done].
    + intros pg Hal Hn. rewrite R5; [|done|rewrite Hb; by intros [k Hk]; apply (Hn k)]. rewrite (un_ref _ _ _ _ _ _ _ Hu), roundup_mappings by done. done.
    + intros x Hx. rewrite R6 by (intros pg Hpg; apply Hx, R4; by right). apply (un_mem _ _ _ _ _ _ _ Hu).
      * intros (k & t & Ht & Hin). apply (Hx t); [|done]. apply R4. right. apply Hb. by exists k.
      * intros pg Hpg. apply Hx, R4. by left.
Qed.
End reclaim.

Lemma proc_freepagetable_spec fl pt T sz s :
  address_space fl pt T sz s -> returns (proc_freepagetable pt sz s) (fun _ s' => exists fl', reclaimed fl T sz s fl' s').
Proof.
  intros A. pose proof (as_size _ _ _ _ _ A) as Hsz. unfold proc_freepagetable. mred.
  assert (U1 : upage MAXVA TRAMPOLINE) by (split; [unfold TRAMPOLINE, MAXVA, PGSIZE; lia|done]).
  assert (U2 : upage MAXVA TRAPFRAME) by (split; [unfold TRAPFRAME, TRAMPOLINE, MAXVA, PGSIZE; lia|done]).
  rewrite (uvmunmap_keep pt T s TRAMPOLINE (as_table _ _ _ _ _ A) (proj1 U1) (proj2 U1)). mred.
  destruct (clear_entry_kept fl pt T sz s TRAMPOLINE A U1) as (A1 & S1 & Rf1 & M1 & X1 & E1); [unfold TRAPFRAME, PGSIZE in *; lia|].
  set (s1 := cleared T s TRAMPOLINE) in *. rewrite (uvmunmap_keep pt T s1 TRAPFRAME (as_table _ _ _ _ _ A1) (proj1 U2) (proj2 U2)). mred.
  destruct (clear_entry_kept fl pt T sz s1 TRAPFRAME A1 U2) as (A2 & S2 & Rf2 & M2 & X2 & E2); [lia|]. set (s2 := cleared T s1 TRAPFRAME) in *.
  eapply returns_mono; [apply (uvmfree_reclaims fl pt T sz s2 A2)|].
  - intros va Hva Hle. destruct (has (entry T s2 va) PTE_V) eqn:HV; [|done]. destruct (E2 va Hva HV) as [N2 V1]. destruct (E1 va Hva V1) as [N1 V0].
    destruct (as_rest _ _ _ _ _ A va Hva Hle V0); done.
  - cbn beta. intros _ s' (fl' & [C1 C2 C3 C4 C5 C6]). exists fl'. constructor; try done.
    + trans s1; [done|]. by trans s2.
    + intros pg. rewrite C4. unfold given_back. by rewrite Rf2, Rf1, M2, M1.
    + intros pg Hal Hn. rewrite C5, Rf2, Rf1, M2, M1 by done. done.
    + intros x Hx. assert (Hnt : ~ in_tree T x).
      { intros (k & t & Ht & Hin). apply (Hx t); [|done]. apply C4. right. left. by exists k. }
      by rewrite C6, X2, X1.
Qed.

