(* ===== verification/Exec.v ===== *)
(** * exec (kernel/exec.c and sys_exec of kernel/sysfile.c) *)

From S2P Require Import Prelude State Spinlock CString Usercopy Kalloc Vm Sysargs Proc Sleeplock Bio Log Fs Console Pipe File Sysfile Lifecycle.

Definition ELF_MAGIC : Z := 0x464C457F.
Definition ELF_PROG_LOAD : Z := 1.
Definition SIZEOF_ELFHDR : Z := 64.
Definition SIZEOF_PROGHDR : Z := 56.
Definition USERSTACK : Z := 1.
Definition LOC_elf : Z := KLOCAL 6.
Definition LOC_ph : Z := KLOCAL 7.

(** A little-endian field of a struct held in a byte list. *)
Definition field (bs : list Z) (off n : nat) : Z := le_val (slice bs off n).

Definition flags2perm (flags : Z) : Z :=
  let perm := if has flags 1 then PTE_X else 0 in
  if has flags 2 then Z.lor perm PTE_W else perm.

Definition loadseg (pagetable va : Z) (ip : nat) (offset sz : Z) : K Z :=
  r ← forl (zstep 0 sz PGSIZE) (fun i =>
    pa ← walkaddr pagetable (u64 (va + i));
    if pa =? 0 then panic "loadseg: address should exist" else
    let n := if sz - i <? PGSIZE then sz - i else PGSIZE in
    r ← readi ip false pa (u32 (offset + i)) n;
    if negb (r =? n) then mret (Some (-1)) else mret None);
  mret (default 0 r).

(** The label bad of kexec: free the new page table, drop the inode. *)
Definition exec_bad (pagetable sz : Z) (ip : option nat) : K Z :=
  (if pagetable =? 0 then mret tt else proc_freepagetable pagetable sz);;
  (match ip with Some ip => iunlockput ip;; end_op | None => mret tt end);;
  mret (-1).

(** The loop over the program headers: the new size, or [None] for bad with
    the size reached. *)
Definition load_segments (ip : nat) (pagetable phoff phnum : Z) : K (Z * bool) :=
  loop (S (Z.to_nat phnum)) (fun '(i, off, sz) =>
    if negb (i <? phnum) then mret (inr (sz, true)) else
    r ← readi ip false LOC_ph (u32 off) SIZEOF_PROGHDR;
    if negb (r =? SIZEOF_PROGHDR) then mret (inr (sz, false)) else
    ph ← kread LOC_ph (Z.to_nat SIZEOF_PROGHDR);
    let next := fun sz => inl (i + 1, s32 (off + SIZEOF_PROGHDR), sz) in
    if negb (field ph 0 4 =? ELF_PROG_LOAD) then mret (next sz) else
    let vaddr := field ph 16 8 in
    let filesz := field ph 32 8 in
    let memsz := field ph 40 8 in
    if memsz <? filesz then mret (inr (sz, false)) else
    if u64 (vaddr + memsz) <? vaddr then mret (inr (sz, false)) else
    if negb (vaddr mod PGSIZE =? 0) then mret (inr (sz, false)) else
    sz1 ← uvmalloc pagetable sz (u64 (vaddr + memsz)) (flags2perm (field ph 4 4));
    if sz1 =? 0 then mret (inr (sz, false)) else
    e ← loadseg pagetable vaddr ip (u32 (field ph 8 8)) (u32 filesz);
    if e <? 0 then mret (inr (sz1, false)) else
    mret (next sz1)) (0, s32 phoff, 0).

(** The NUL-terminated string in the page at [a]. *)
Definition page_string (a : Z) : K (list Z) :=
  m ← gets k_mem;
  let bs := mem_read m a (Z.to_nat PGSIZE) in
  n ← deref (strlen bs);
  mret (take (n + 1) bs).

(** The argument loop: (sp, ustack), [None] for bad; [argv] ends at the first
    null pointer. *)
Definition push_args (pagetable sp stackbase : Z) (argv : list Z) : K (option (Z * list Z)) :=
  loop (S (length argv)) (fun '(argv, argc, sp, ustack) =>
    match argv with
    | [] => mret (inr (Some (sp, ustack)))
    | a :: argv' =>
        if Z.of_nat MAXARG <=? argc then mret (inr None) else
        str ← page_string a;
        let sp := u64 (sp - Z.of_nat (length str)) in
        let sp := sp - sp mod 16 in
        if sp <? stackbase then mret (inr None) else
        e ← copyout pagetable sp str;
        if e <? 0 then mret (inr None) else
        mret (inl (argv', argc + 1, sp, ustack ++ [sp]))
    end) (argv, 0, sp, []).

(** The last element of the path. *)
Fixpoint last_elem (last s : list Z) : list Z :=
  match s with
  | [] => last
  | c :: s' => if c =? 0 then last
               else last_elem (if c =? SLASH then s' else last) s'
  end.

(** kexec once the program is loaded and the inode released. *)
Definition exec_finish (path : list Z) (pagetable sz entry : Z) (argv : list Z) : K Z :=
  p ← myproc;
  pp ← get_proc p;
  let oldsz := p_sz pp in
  let sz := PGROUNDUP sz in
  sz1 ← uvmalloc pagetable sz (u64 (sz + (USERSTACK + 1) * PGSIZE)) PTE_W;
  if sz1 =? 0 then exec_bad pagetable sz None else
  let sz := sz1 in
  uvmclear pagetable (u64 (sz - (USERSTACK + 1) * PGSIZE));;
  let stackbase := u64 (sz - USERSTACK * PGSIZE) in
  r ← push_args pagetable sz stackbase argv;
  match r with
  | None => exec_bad pagetable sz None
  | Some (sp, ustack) =>
      let argc := Z.of_nat (length ustack) in
      let sp := u64 (sp - (argc + 1) * 8) in
      let sp := sp - sp mod 16 in
      if sp <? stackbase then exec_bad pagetable sz None else
      e ← copyout pagetable sp (concat (le_bytes 8 <$> ustack ++ [0]));
      if e <? 0 then exec_bad pagetable sz None else
      tf_store TF_A1 sp;;
      pp ← get_proc p;
      nm ← deref (safestrcpy (p_name pp) (last_elem path path) 16);
      upd_proc p (set_p_name nm);;
      let oldpagetable := p_pagetable pp in
      upd_proc p (set_p_pagetable pagetable);;
      upd_proc p (set_p_sz sz);;
      tf_store TF_EPC entry;;
      tf_store TF_SP sp;;
      proc_freepagetable oldpagetable oldsz;;
      mret argc
  end.

Definition kexec (path : list Z) (argv : list Z) : K Z :=
  p ← myproc;
  begin_op;;
  ip ← namei path;
  match ip with
  | None => end_op;; mret (-1)
  | Some ip =>
      ilock ip;;
      r ← readi ip false LOC_elf 0 SIZEOF_ELFHDR;
      if negb (r =? SIZEOF_ELFHDR) then exec_bad 0 0 (Some ip) else
      elf ← kread LOC_elf (Z.to_nat SIZEOF_ELFHDR);
      if negb (field elf 0 4 =? ELF_MAGIC) then exec_bad 0 0 (Some ip) else
      pagetable ← proc_pagetable p;
      if pagetable =? 0 then exec_bad 0 0 (Some ip) else
      r ← load_segments ip pagetable (field elf 32 8) (field elf 56 2);
      let '(sz, ok) := r in
      if negb ok then exec_bad pagetable sz (Some ip) else
      iunlockput ip;;
      end_op;;
      exec_finish path pagetable sz (field elf 24 8) argv
  end.

(** sys_exec: fetch the argument strings into pages; [None] for bad. *)
Definition fetch_argv (uargv : Z) : K (list Z * bool) :=
  loop (S (S MAXARG)) (fun '(i, argv) =>
    if Z.of_nat MAXARG <=? i then mret (inr (argv, false)) else
    r ← fetchaddr (u64 (uargv + 8 * i));
    if r.1 <? 0 then mret (inr (argv, false)) else
    if r.2 =? 0 then mret (inr (argv, true)) else
    page ← kalloc;
    if page =? 0 then mret (inr (argv, false)) else
    sr ← fetchstr r.2 PGSIZE;
    kwrite page sr.2;;
    if sr.1 <? 0 then mret (inr (argv ++ [page], false)) else
    mret (inl (i + 1, argv ++ [page]))) (0, []).

Definition sys_exec : K Z :=
  uargv ← argaddr 1;
  path ← argstr 0 MAXPATH;
  if path.1 <? 0 then mret (-1) else
  r ← fetch_argv uargv;
  let '(argv, ok) := r in
  ret ← (if ok : bool then kexec path.2 argv else mret (-1));
  foreach argv kfree;;
  mret ret.
