(* ===== verification/Syscall.v ===== *)
(** * System-call dispatch, process system calls, traps
    (kernel/syscall.c, kernel/sysproc.c, kernel/trap.c) *)

From S2P Require Import Prelude State Spinlock CString Usercopy Kalloc Vm Sysargs Proc Sleeplock Bio Log Fs Console Pipe File Sysfile Lifecycle Exec.

(** ** sysproc.c *)

Definition sys_get_num_free_pages : K Z := getNumFreePages.

Definition sys_trace : K Z :=
  mask ← argint 0;
  p ← myproc;
  upd_proc p (set_p_trace_mask (u64 mask));;
  mret 0.

Definition sys_exit : K Z := n ← argint 0; kexit n;; mret 0.

Definition sys_getpid : K Z := p ← myproc; pp ← get_proc p; mret (p_pid pp).

Definition sys_fork : K Z := kfork.

Definition sys_wait : K Z := p ← argaddr 0; kwait p.

Definition SBRK_EAGER : Z := 1.

Definition sys_sbrk : K Z :=
  n ← argint 0;
  t ← argint 1;
  p ← myproc;
  pp ← get_proc p;
  let addr := p_sz pp in
  if (t =? SBRK_EAGER) || (n <? 0) then
    e ← growproc n;
    if e <? 0 then mret (-1) else mret addr
  else if u64 (addr + n) <? addr then mret (-1)
  else
    upd_proc p (fun x => set_p_sz (u64 (p_sz x + n)) x);;
    mret addr.

Definition sys_pause : K Z :=
  n ← argint 0;
  let n := if n <? 0 then 0 else n in
  acquire LTicks;;
  ticks0 ← gets k_ticks;
  loop WAKEUPS (fun _ : unit =>
    t ← gets k_ticks;
    if negb (u32 (t - ticks0) <? n) then release LTicks;; mret (inr 0) else
    p ← myproc;
    k ← killed p;
    if k : bool then release LTicks;; mret (inr (-1)) else
    sleep ChTicks LTicks;; mret (inl tt)) tt.

Definition sys_sleep : K Z := sys_pause.

Definition sys_kill : K Z := pid ← argint 0; kkill pid.

Definition sys_uptime : K Z :=
  acquire LTicks;; xticks ← gets k_ticks; release LTicks;; mret xticks.

(** struct sched_attr: three ints. *)
(** The update of sys_setSchedAttr. *)
Definition set_attr (p : nat) (deadline priority start_time : Z) : K unit :=
  acquire (LProc p);;
  upd_proc p (set_p_deadline deadline);;
  upd_proc p (set_p_priority priority);;
  upd_proc p (set_p_start_time start_time);;
  release (LProc p).

Definition sys_setSchedAttr : K Z :=
  uaddr ← argaddr 0;
  p ← myproc;
  pp ← get_proc p;
  rb ← copyin (p_pagetable pp) uaddr 12;
  if rb.1 <? 0 then mret (-1) else
  set_attr p (s32 (le_val (slice rb.2 0 4))) (s32 (le_val (slice rb.2 4 4))) (s32 (le_val (slice rb.2 8 4)));;
  mret 0.

Definition sys_getSchedAttr : K Z :=
  uaddr ← argaddr 0;
  p ← myproc;
  acquire (LProc p);;
  pp ← get_proc p;
  let attr := le_bytes 4 (p_deadline pp) ++ le_bytes 4 (p_priority pp) ++
              le_bytes 4 (p_start_time pp) in
  release (LProc p);;
  e ← copyout (p_pagetable pp) uaddr attr;
  if e <? 0 then mret (-1) else mret 0.

(** ** syscall.c: the dispatch table *)

Definition syscalls (num : Z) : option (K Z) :=
  match num with
  | 1 => Some sys_fork
  | 2 => Some sys_exit
  | 3 => Some sys_wait
  | 4 => Some sys_pipe
  | 5 => Some sys_read
  | 6 => Some sys_kill
  | 7 => Some sys_exec
  | 8 => Some sys_fstat
  | 9 => Some sys_chdir
  | 10 => Some sys_dup
  | 11 => Some sys_getpid
  | 12 => Some sys_sbrk
  | 13 => Some sys_sleep
  | 14 => Some sys_pause
  | 15 => Some sys_uptime
  | 16 => Some sys_open
  | 17 => Some sys_write
  | 18 => Some sys_mknod
  | 19 => Some sys_unlink
  | 20 => Some sys_link
  | 21 => Some sys_mkdir
  | 22 => Some sys_close
  | 23 => Some sys_trace
  | 24 => Some sys_mtx_create
  | 25 => Some sys_mtx_lock
  | 26 => Some sys_mtx_unlock
  | 27 => Some sys_get_num_free_pages
  | 28 => Some sys_setSchedAttr
  | 29 => Some sys_getSchedAttr
  | 30 => Some sys_symlink
  | _ => None
  end.

Definition syscall_names (num : Z) : option string :=
  match num with
  | 1 => Some "fork" | 2 => Some "exit" | 3 => Some "wait" | 4 => Some "pipe"
  | 5 => Some "read" | 6 => Some "kill" | 7 => Some "exec" | 8 => Some "fstat"
  | 9 => Some "chdir" | 10 => Some "dup" | 11 => Some "getpid" | 12 => Some "sbrk"
  | 13 => Some "sleep" | 14 => Some "pause" | 15 => Some "uptime" | 16 => Some "open"
  | 17 => Some "write" | 18 => Some "mknod" | 19 => Some "unlink" | 20 => Some "link"
  | 21 => Some "mkdir" | 22 => Some "close" | 23 => Some "trace"
  | 24 => Some "mtx_create" | 25 => Some "mtx_lock" | 26 => Some "mtx_unlock"
  | 27 => Some "get_num_free_pages" | 28 => Some "setSchedAttr"
  | 29 => Some "getSchedAttr" | 30 => Some "symlink"
  | _ => None
  end%string.

(** NELEM(syscalls). *)
Definition NSYSCALLS : Z := 31.

Definition syscall : K unit :=
  p ← myproc;
  a7 ← tf_load TF_A7;
  let num := s32 a7 in
  match (if (0 <? num) && (num <? NSYSCALLS) then syscalls num else None) with
  | Some handler =>
      ret ← handler;
      tf_store TF_A0 (u64 ret);;
      pp ← get_proc p;
      if has (p_trace_mask pp) (Z.shiftl 1 num) then
        match syscall_names num with
        | Some name => printf ("syscall " ++ name) [p_pid pp; s32 ret]
        | None => printf "%d: syscall %d -> %d" [p_pid pp; num; s32 ret]
        end
      else mret tt
  | None =>
      pp ← get_proc p;
      printf "unknown sys call" [p_pid pp; num];;
      tf_store TF_A0 (u64 (-1))
  end.

(** ** trap.c: the clock *)

(** The work of clockintr() on CPU 0. *)
Definition clock_tick : K unit :=
  acquire LTicks;;
  modify (fun s => set_k_ticks (u32 (k_ticks s + 1)) s);;
  wakeup ChTicks;;
  release LTicks.
