(* ===== verification/Sched.v ===== *)
(** * The scheduling state machine

    All operations that change the state of a process or the ready queue, in
    any order: the scheduler's round, yield, sleep, wakeup, kill, the clock,
    setSchedAttr, and the ends of fork, exit and wait.  An operation is the
    code itself, applied under the condition on which the kernel calls it;
    [do_op] is [None] when the code panics or does something undefined.
    No sequence of operations does, and the invariant of the process table
    and the queue holds after each. *)

From S2P Require Import Prelude State Spinlock CString Sysargs Proc ReadyQueue Sleeplock Sleeping Lifecycle Syscall.

(** ** Operations *)

Inductive sop :=
| OSchedule
| OYield
| OSleep (ch : chan) (lk : lockid)
| OWakeup (ch : chan)
| OKill (pid : Z)
| OTick
| OAttr (deadline priority start_time : Z)
| OAlloc (p : nat)
| OStart (p : nat)
| OExit (status : Z)
| OReap (p : nat).

(** The scheduler after swtch() returned to it: no process is current and the
    lock of the one that ran is released. *)
Definition to_scheduler (s : kstate) : kstate := set_k_held [] (set_k_cur None s).

(** The process after swtch() returned to it releases its lock. *)
Definition to_process (s : kstate) : kstate := set_k_held [] s.

Definition switched (o : outcome kstate unit) : option kstate :=
  match o with Swtch s _ => Some (to_scheduler s) | _ => None end.

Definition returned {A} (o : outcome kstate A) : option kstate :=
  match o with Ret _ s => Some s | _ => None end.

Definition in_state (s : kstate) (p : nat) (st : procstate) : bool :=
  match k_procs s !! p with Some q => bool_decide (p_state q = st) | None => false end.

(** An operation runs when its caller may run it, and otherwise does nothing. *)
Definition enabled (o : sop) (s : kstate) : bool :=
  match o with
  | OSchedule => bool_decide (k_cur s = None)
  | OYield | OAttr _ _ _ | OExit _ => bool_decide (is_Some (k_cur s))
  | OSleep _ lk => bool_decide (is_Some (k_cur s)) && match lk with LProc _ => false | _ => true end
  | OWakeup _ | OKill _ | OTick => true
  | OAlloc p => in_state s p UNUSED
  | OStart p => in_state s p USED
  | OReap p => in_state s p ZOMBIE
  end.

Definition perform (o : sop) (s : kstate) : option kstate :=
  match o with
  | OSchedule => match scheduler_iter s with Swtch s' _ => Some (to_process s') | Ret _ s' => Some s' | _ => None end
  | OYield => switched (yield s)
  | OSleep ch lk => switched ((acquire lk;; sleep ch lk) s)
  | OWakeup ch => returned (wakeup ch s)
  | OKill pid => returned (kkill pid s)
  | OTick => returned (clock_tick s)
  | OAttr d pr st => returned ((p ← myproc; set_attr p d pr st) s)
  | OAlloc p => returned ((acquire (LProc p);; alloc_entry p;; release (LProc p)) s)
  | OStart p => returned (fork_start p s)
  | OExit status => switched ((p ← myproc; acquire LWait;; exit_sched p status) s)
  | OReap p => returned ((acquire (LProc p);; clear_entry p;; release (LProc p)) s)
  end.

Definition do_op (o : sop) (s : kstate) : option kstate := if enabled o s then perform o s else Some s.

Fixpoint do_ops (l : list sop) (s : kstate) : option kstate :=
  match l with
  | [] => Some s
  | o :: l' => s' ← do_op o s; do_ops l' s'
  end.

(** ** The invariant *)

Record sched_ok (s : kstate) : Prop := {
  sk_rq : rq_wf s;
  sk_queued : queued_runnable s;
  sk_running i q : k_procs s !! i = Some q -> p_state q = RUNNING <-> k_cur s = Some i;
  sk_cur p : k_cur s = Some p -> is_Some (k_procs s !! p);
  sk_held : k_held s = [];
}.

Lemma rq_wf_unqueued s i q q' :
  rq_wf s -> k_procs s !! i = Some q -> p_in_rq q = false -> p_in_rq q' = false ->
  rq_wf (set_k_procs (<[i := q']> (k_procs s)) s).
Proof.
  intros [H1 H2 H3 H4 H5 H6] Hi Hq Hq'. assert (Hlt := lookup_lt_Some _ _ _ Hi).
  set (s' := set_k_procs _ s). change (rq_list s) with (rq_list s') in *.
  assert (Hnin : i ∉ rq_list s') by (intros (p & Hp & Hin)%H5; congruence).
  constructor; try done; simpl.
  - by rewrite length_insert.
  - intros j. destruct (decide (j = i)) as [->|Hne].
    + split; [done|]. intros (p & Hp & Hin). rewrite list_lookup_insert_eq in Hp by done. congruence.
    + rewrite H5. unfold is_queued. by rewrite list_lookup_insert_ne.
  - intros a b x y Hab Hx Hy. assert (x <> i) by (intros ->; apply Hnin; by eapply list_elem_of_lookup_2).
    assert (y <> i) by (intros ->; apply Hnin; by eapply list_elem_of_lookup_2).
    unfold after. rewrite !list_lookup_insert_ne by done. by eapply (H6 a b).
Qed.

(** The current process is not queued. *)
Lemma sched_ok_running s p pp : sched_ok s -> k_cur s = Some p -> k_procs s !! p = Some pp ->
  running p pp [] s /\ p_in_rq pp = false.
Proof.
  intros [Hrq Hqr Hrun _ Hh] Hc Hp. assert (Hst : p_state pp = RUNNING) by (by apply (Hrun p)).
  split; [by constructor|]. destruct (p_in_rq pp) eqn:E; [|done]. specialize (Hqr p pp Hp E). congruence.
Qed.

(** Giving an entry new contents: neither the old nor the new is queued. *)
Lemma sched_ok_entry s i q q' :
  sched_ok s -> k_procs s !! i = Some q -> p_in_rq q = false -> p_in_rq q' = false ->
  (p_state q' = RUNNING <-> k_cur s = Some i) -> sched_ok (set_k_procs (<[i := q']> (k_procs s)) s).
Proof.
  intros [Hrq Hqr Hrun Hcur Hh] Hi Hq Hq' Hst. assert (Hlt := lookup_lt_Some _ _ _ Hi). constructor; simpl; try done.
  - by eapply rq_wf_unqueued.
  - intros j p Hj Hin. simpl in Hj. destruct (decide (j = i)) as [->|Hne].
    + rewrite list_lookup_insert_eq in Hj by done. congruence.
    + rewrite list_lookup_insert_ne in Hj by done. by eapply Hqr.
  - intros j p Hj. destruct (decide (j = i)) as [->|Hne].
    + rewrite list_lookup_insert_eq in Hj by done. by injection Hj as <-.
    + rewrite list_lookup_insert_ne in Hj by done. by apply Hrun.
  - intros p Hp. apply lookup_lt_is_Some. rewrite length_insert. by apply lookup_lt_is_Some, Hcur.
Qed.

(** A runnable process is offered to the queue; [c] is the process that counts
    as current, none while the CPU is being given up. *)
Lemma sched_ok_insert s c i q :
  sched_ok (set_k_cur c s) -> k_procs s !! i = Some q -> p_state q = RUNNABLE -> forall h, LRq ∉ h ->
  returns (rq_insert i (set_k_held h s)) (fun _ s' => exists s1, s' = set_k_held h s1 /\ sched_ok (set_k_cur c s1) /\
    k_cur s1 = k_cur s /\ k_mem s1 = k_mem s /\ exists q', k_procs s1 !! i = Some q' /\ p_state q' = RUNNABLE).
Proof.
  intros [Hrq Hqr Hrun Hcur Hh] Hi Hst h Hlk. simpl in *. assert (Hlt := lookup_lt_Some _ _ _ Hi).
  eapply returns_mono; [apply (rq_insert_spec (set_k_held h s) i q); [by eapply rq_wf_ext, Hrq|done|done]|].
  cbn beta. intros _ s' Hs'. destruct (_ || _).
  - subst s'. exists s. split_and!; [done|by constructor|done|done|by exists q].
  - destruct Hs' as (arr & -> & _ & Hwf).
    exists (set_k_procs (<[i := set_p_in_rq true q]> (k_procs s)) (set_k_rq (mkRq arr (rq_count (k_rq s) + 1)) s)).
    split_and!; [by destruct s| |done|done|exists (set_p_in_rq true q); simpl; by rewrite list_lookup_insert_eq]. constructor; simpl; try done.
    + by eapply rq_wf_ext, Hwf.
    + intros j p Hj Hin. simpl in Hj. destruct (decide (j = i)) as [->|Hne].
      * rewrite list_lookup_insert_eq in Hj by done. by injection Hj as <-.
      * rewrite list_lookup_insert_ne in Hj by done. by eapply Hqr.
    + intros j p Hj. destruct (decide (j = i)) as [->|Hne].
      * rewrite list_lookup_insert_eq in Hj by done. injection Hj as <-. simpl. by apply Hrun.
      * rewrite list_lookup_insert_ne in Hj by done. by apply Hrun.
    + intros p Hp. apply lookup_lt_is_Some. rewrite length_insert. by apply lookup_lt_is_Some, Hcur.
Qed.

(** The current process leaves the CPU in another state. *)
Lemma sched_ok_leave s p pp q :
  sched_ok s -> k_cur s = Some p -> k_procs s !! p = Some pp -> p_in_rq q = false -> p_state q <> RUNNING ->
  sched_ok (set_k_cur None (set_k_procs (<[p := q]> (k_procs s)) s)).
Proof.
  intros Hok Hc Hp Hq Hst. destruct (sched_ok_running s p pp Hok Hc Hp) as [_ Hin]. pose proof Hok as [Hrq Hqr Hrun Hcur Hh].
  assert (Hlt := lookup_lt_Some _ _ _ Hp). constructor; simpl; try done.
  - eapply rq_wf_ext, (rq_wf_unqueued s p pp q); done.
  - intros j r Hj Hr. simpl in Hj. destruct (decide (j = p)) as [->|Hne].
    + rewrite list_lookup_insert_eq in Hj by done. congruence.
    + rewrite list_lookup_insert_ne in Hj by done. by eapply Hqr.
  - intros j r Hj. split; [|done]. intros Hr. destruct (decide (j = p)) as [->|Hne].
    + rewrite list_lookup_insert_eq in Hj by done. congruence.
    + rewrite list_lookup_insert_ne in Hj by done. apply (Hrun j) in Hr; [congruence|done].
Qed.

(** sched() by the current process, which holds its lock alone and has left
    the state RUNNING. *)
Lemma sched_switches s p pp :
  k_cur s = Some p -> k_procs s !! p = Some pp -> p_state pp <> RUNNING -> k_held s = [LProc p] -> sched s = Swtch s (fun s' => Ret tt s').
Proof.
  intros Hc Hp Hst Hh. unfold sched, myproc. mred. rewrite Hc. mred. rewrite (get_proc_eq _ _ _ Hp). mred. unfold holding. mred.
  rewrite Hh, bool_decide_eq_true_2 by set_solver. mred. simpl. by rewrite bool_decide_eq_false_2.
Qed.

Lemma to_scheduler_ok s h : sched_ok (set_k_cur None s) -> sched_ok (to_scheduler (set_k_held h s)).
Proof. intros [H1 H2 H3 H4 H5]. constructor; try done. by eapply rq_wf_ext, H1. Qed.

Notation keeps o := (exists s', o = Some s' /\ sched_ok s').

(** yield() queues the process, if its start time allows, and switches; when
    it is resumed it only releases its lock. *)
Lemma yield_switches s p : sched_ok s -> k_cur s = Some p ->
  exists s1 q, yield s = Swtch s1 (fun s' => release (LProc p) s') /\ sched_ok (to_scheduler s1) /\ k_mem s1 = k_mem s /\
    k_procs s1 !! p = Some q /\ p_state q = RUNNABLE.
Proof.
  intros Hok Hc. destruct (sk_cur _ Hok p Hc) as [pp Hp]. pose proof (sk_held _ Hok) as Hh. assert (Hlt := lookup_lt_Some _ _ _ Hp).
  destruct (sched_ok_running s p pp Hok Hc Hp) as [_ Hin].
  unfold yield, myproc. mred. rewrite Hc. mred. rewrite acquire_eq by (rewrite Hh; set_solver). mred. rewrite Hh.
  rewrite (upd_proc_eq _ p pp) by done. mred. rewrite (release_eq _ _ []) by (done || set_solver). mred.
  set (s1 := set_k_procs (<[p := set_p_state RUNNABLE pp]> (k_procs s)) s).
  pose proof (sched_ok_insert s1 None p (set_p_state RUNNABLE pp)) as Hins.
  destruct (returns_inv _ _ (Hins ltac:(by eapply sched_ok_leave) ltac:(simpl; by rewrite list_lookup_insert_eq) eq_refl [] ltac:(set_solver)))
    as ([] & s2 & Hs2 & s3 & -> & Hok3 & Hc3 & Hm3 & q & Hq & Hst).
  change (set_k_held [] (set_k_procs _ _)) with (set_k_held [] s1). rewrite Hs2. mred.
  rewrite acquire_eq by (simpl; set_solver). mred. rewrite set_k_held_twice. change (k_held (set_k_held [] s3)) with (@nil lockid).
  rewrite (sched_switches (set_k_held [LProc p] s3) p q); [|simpl; by rewrite Hc3|done|congruence|done].
  eexists _, q. split; [done|]. split_and!; [by apply to_scheduler_ok|exact Hm3|done|done].
Qed.

Lemma yield_ok s p : sched_ok s -> k_cur s = Some p -> keeps (switched (yield s)).
Proof. intros Hok Hc. destruct (yield_switches s p Hok Hc) as (s1 & q & -> & Hok1 & _). by eexists. Qed.

Lemma sleep_ok s p ch lk : sched_ok s -> k_cur s = Some p -> (forall i, lk <> LProc i) -> keeps (switched ((acquire lk;; sleep ch lk) s)).
Proof.
  intros Hok Hc Hlk. destruct (sk_cur _ Hok p Hc) as [pp Hp]. pose proof (sk_held _ Hok) as Hh.
  destruct (sched_ok_running s p pp Hok Hc Hp) as [Hrun Hin]. mred. rewrite acquire_eq by (rewrite Hh; set_solver). mred. rewrite Hh.
  destruct (sleep_switches (set_k_held [lk] s) p pp ch lk) as (s1 & k & -> & -> & _); [by eapply running_set_held|done|].
  eexists. split; [done|]. simpl. apply (to_scheduler_ok (set_k_procs (<[p := set_p_state SLEEPING (set_p_chan (Some ch) pp)]> (k_procs s)) s)).
  by eapply sched_ok_leave.
Qed.

Lemma exit_ok s p status : sched_ok s -> k_cur s = Some p -> keeps (switched ((p ← myproc; acquire LWait;; exit_sched p status) s)).
Proof.
  intros Hok Hc. destruct (sk_cur _ Hok p Hc) as [pp Hp]. pose proof (sk_held _ Hok) as Hh. assert (Hlt := lookup_lt_Some _ _ _ Hp).
  destruct (sched_ok_running s p pp Hok Hc Hp) as [Hrun Hin]. unfold myproc. mred. rewrite Hc. mred.
  rewrite acquire_eq by (rewrite Hh; set_solver). mred. rewrite Hh. unfold exit_sched. mred. rewrite acquire_eq by (simpl; set_solver). mred.
  rewrite (get_proc_eq _ p pp) by done. mred. rewrite bool_decide_eq_false_2 by (rewrite (run_state _ _ _ _ Hrun); done). mred.
  rewrite (upd_proc_eq _ p pp) by done. mred. rewrite (upd_proc_eq _ p (set_p_xstate status pp)) by (simpl; by rewrite list_lookup_insert_eq). mred.
  rewrite release_in by (simpl; set_solver). mred. cbn [k_held set_k_held set_k_procs]. rewrite filter_cons_True, filter_cons_False, filter_nil by naive_solver. simpl. rewrite list_insert_insert_eq.
  erewrite (sched_switches _ p (set_p_state ZOMBIE (set_p_xstate status pp))); [|done|simpl; by rewrite list_lookup_insert_eq|done|done].
  eexists. split; [done|]. apply (to_scheduler_ok (set_k_procs (<[p := set_p_state ZOMBIE (set_p_xstate status pp)]> (k_procs s)) s)).
  by eapply sched_ok_leave.
Qed.

(** An entry changes in fields the queue and the scheduler do not look at. *)
Lemma sched_ok_same s i q q' :
  sched_ok s -> k_procs s !! i = Some q -> rq_key q' = rq_key q -> p_state q' = p_state q ->
  sched_ok (set_k_procs (<[i := q']> (k_procs s)) s).
Proof.
  intros [Hrq Hqr Hrun Hcur Hh] Hi Hk Hst. assert (Hlt := lookup_lt_Some _ _ _ Hi). constructor; simpl; try done.
  - eapply rq_wf_same_keys; [| |exact Hrq]; [done|]. intros j. simpl. destruct (decide (j = i)) as [->|Hne].
    + rewrite list_lookup_insert_eq, Hi by done. simpl. by rewrite Hk.
    + by rewrite list_lookup_insert_ne.
  - intros j p Hj Hin. simpl in Hj. destruct (decide (j = i)) as [->|Hne].
    + rewrite list_lookup_insert_eq in Hj by done. injection Hj as <-. rewrite Hst. apply (Hqr i q Hi). unfold rq_key in Hk. congruence.
    + rewrite list_lookup_insert_ne in Hj by done. by eapply Hqr.
  - intros j p Hj. destruct (decide (j = i)) as [->|Hne].
    + rewrite list_lookup_insert_eq in Hj by done. injection Hj as <-. rewrite Hst. by apply Hrun.
    + rewrite list_lookup_insert_ne in Hj by done. by apply Hrun.
  - intros p Hp. apply lookup_lt_is_Some. rewrite length_insert. by apply lookup_lt_is_Some, Hcur.
Qed.

Lemma sched_ok_ext s s' :
  sched_ok s -> k_procs s' = k_procs s -> k_rq s' = k_rq s -> k_cur s' = k_cur s -> k_held s' = k_held s -> sched_ok s'.
Proof.
  intros [Hrq Hqr Hrun Hcur Hh] E1 E2 E3 E4. constructor.
  - by eapply rq_wf_ext, Hrq.
  - intros i p. rewrite E1. apply Hqr.
  - intros i q. rewrite E1, E3. apply Hrun.
  - intros p. rewrite E1, E3. apply Hcur.
  - by rewrite E4.
Qed.

(** A process in a state other than RUNNABLE and RUNNING: neither queued nor
    current. *)
Lemma sched_ok_resting s i q :
  sched_ok s -> k_procs s !! i = Some q -> p_state q <> RUNNABLE -> p_state q <> RUNNING -> p_in_rq q = false /\ k_cur s <> Some i.
Proof.
  intros [Hrq Hqr Hrun Hcur Hh] Hi H1 H2. split.
  - destruct (p_in_rq q) eqn:E; [|done]. by apply (Hqr i q Hi) in E.
  - intros Hc. by apply (Hrun i q Hi) in Hc.
Qed.

Lemma activated_ok s s' : sched_ok s -> k_cur s = None -> activated s NPROC s' -> sched_ok s'.
Proof.
  intros [Hrq Hqr Hrun Hcur Hh] Hc [(ps & q & ->) Hps Hwf]. simpl in *.
  assert (Hlk : forall i p, ps !! i = Some p -> exists p0, k_procs s !! i = Some p0 /\ (p = activated_proc s p0 \/ p = p0)).
  { intros i p Hi. rewrite Hps in Hi. destruct (k_procs s !! i) as [p0|]; [|by destruct (decide _)]. exists p0. split; [done|].
    destruct (decide _); simpl in Hi; [left|right]; congruence. }
  constructor; simpl; try done.
  - intros i p Hi Hin. destruct (Hlk i p Hi) as (p0 & H0 & [->| ->]); [|by eapply Hqr].
    rewrite activated_proc_state. unfold activated_proc, eligible in Hin. destruct (bool_decide_reflect (p_state p0 = RUNNABLE)); [done|]. by eapply Hqr.
  - intros i p Hi. destruct (Hlk i p Hi) as (p0 & H0 & [->| ->]); rewrite ?activated_proc_state; by apply Hrun.
  - congruence.
Qed.

Lemma schedule_ok s : sched_ok s -> k_cur s = None -> keeps (perform OSchedule s).
Proof.
  intros Hok Hc. pose proof Hok as [Hrq Hqr Hrun Hcur Hh]. pose proof (scheduler_iter_spec s Hrq Hqr Hh) as H. unfold perform.
  destruct (scheduler_iter s) as [b s'| |s' k| |]; try done.
  - destruct H as (_ & Hact & _). exists s'. split; [done|]. by eapply activated_ok.
  - destruct H as (p & Hcp & Hhp & Hwf & (pp & Hp & _ & Hst & Hp') & _ & Hoth). exists (to_process s'). split; [done|].
    assert (Hlk : forall i q, i <> p -> k_procs s' !! i = Some q -> exists q0, k_procs s !! i = Some q0 /\ q = activated_proc s q0).
    { intros i q Hne Hi. rewrite Hoth in Hi by done. destruct (k_procs s !! i) as [q0|]; [|done]. exists q0. split; [done|]. simpl in Hi. congruence. }
    constructor; simpl; try done.
    + by eapply rq_wf_ext, Hwf.
    + intros i q Hi Hin. simpl in Hi. destruct (decide (i = p)) as [->|Hne]; [rewrite Hp' in Hi; by injection Hi as <-|].
      destruct (Hlk i q Hne Hi) as (q0 & H0 & ->). rewrite activated_proc_state. unfold activated_proc, eligible in Hin.
      destruct (bool_decide_reflect (p_state q0 = RUNNABLE)); [done|]. by eapply Hqr.
    + intros i q Hi. rewrite Hcp. destruct (decide (i = p)) as [->|Hne]; [rewrite Hp' in Hi; by injection Hi as <-|].
      destruct (Hlk i q Hne Hi) as (q0 & H0 & ->). rewrite activated_proc_state. rewrite (Hrun i q0 H0). split; congruence.
    + intros i Hi. rewrite Hcp in Hi. injection Hi as <-. rewrite Hp'. eauto.
Qed.

Lemma wakeup_ok s ch h :
  sched_ok s -> LRq ∉ h -> (forall i, LProc i ∉ h) ->
  returns (wakeup ch (set_k_held h s)) (fun _ s' => sched_ok (set_k_held [] s') /\ k_held s' = h /\
    k_mem s' = k_mem s /\ k_cur s' = k_cur s /\ forall p, k_cur s = Some p -> k_procs s' !! p = k_procs s !! p).
Proof.
  intros [Hrq Hqr Hrun Hcur Hh] Hl Hp.
  eapply returns_mono; [apply wakeup_sleepers; [by apply (rq_wf_ext s)|done|intros; apply Hp]|].
  cbn beta. intros _ s' (Hwf & Hs' & Hps). simpl in Hps. assert (Hc : k_cur s' = k_cur s) by (by rewrite Hs').
  split_and!; [|by rewrite Hs'..|].
  2: { intros p Hp0. destruct (Hcur p Hp0) as [q Hq]. specialize (Hps p q Hq). rewrite Hq. case_decide as E; [|done]. by destruct E as [E _]. }
  assert (Hlk : forall i q, k_procs s' !! i = Some q -> is_Some (k_procs s !! i)).
  { intros i q Hi. apply lookup_lt_is_Some. rewrite (rqwf_nprocs _ Hrq), <- (rqwf_nprocs _ Hwf). by eapply lookup_lt_Some. }
  constructor; simpl; try done.
  - by eapply rq_wf_ext, Hwf.
  - intros i q Hi Hin. simpl in Hi. destruct (Hlk i q Hi) as [q0 H0]. specialize (Hps i q0 H0). case_decide.
    + destruct Hps as (q' & H1 & H2 & _). congruence.
    + assert (q = q0) as -> by congruence. by eapply Hqr.
  - intros i q Hi. rewrite Hc. destruct (Hlk i q Hi) as [q0 H0]. specialize (Hps i q0 H0). case_decide as E.
    + destruct Hps as (q' & H1 & H2 & _). destruct E as (E & _). split; congruence.
    + assert (q = q0) as -> by congruence. by apply Hrun.
  - intros p Hp0. rewrite Hc in Hp0. destruct (Hcur p Hp0) as [q0 H0]. specialize (Hps p q0 H0). case_decide as E; [by destruct E|eauto].
Qed.

(** Several updates of one entry in a row. *)
Ltac upd_entry :=
  repeat (erewrite upd_proc_eq by (simpl; rewrite ?list_lookup_insert_eq by (by rewrite ?length_insert); done); mred;
          rewrite ?list_insert_insert_eq).

Lemma acquire_free lk s : k_held s = [] -> acquire lk s = Ret tt (set_k_held [lk] s).
Proof. intros Hh. rewrite acquire_eq by (rewrite Hh; set_solver). by rewrite Hh. Qed.

Lemma release_one lk s : k_held s = [lk] -> release lk s = Ret tt (set_k_held [] s).
Proof. intros Hh. by rewrite (release_eq _ _ []) by (done || set_solver). Qed.

Lemma keeps_sched o s : o = Some s -> sched_ok s -> keeps o.
Proof. eauto. Qed.

Lemma kill_ok s pid : sched_ok s -> keeps (returned (kkill pid s)).
Proof.
  intros Hok. pose proof (sk_held _ Hok) as Hh. assert (Hk : returns (kkill pid s) (fun _ s' => sched_ok s')).
  { unfold kkill. apply returns_obind.
    apply (forl_returns (fun l s1 => s1 = s /\ Forall (fun p => (p < NPROC)%nat) l) (fun _ s1 => sched_ok s1)).
    - split; [done|]. apply Forall_forall. intros p Hp%elem_of_seq. lia.
    - by intros s' [-> _].
    - intros p l s1 [-> [Hlt Hl]%Forall_cons]. destruct (lookup_lt_is_Some_2 (k_procs s) p) as [q Hq]; [by rewrite (rqwf_nprocs _ (sk_rq _ Hok))|].
      pose proof (lookup_lt_Some _ _ _ Hq). mred. rewrite acquire_free by done. mred. rewrite (get_proc_eq _ p q) by done. mred.
      destruct (p_pid q =? pid).
      2:{ mred. rewrite release_one by done. mred. by rewrite set_k_held_twice, set_k_held_id. }
      mred. rewrite (upd_proc_eq _ p q) by done. mred. destruct (bool_decide_reflect (p_state q = SLEEPING)) as [Hs|Hs].
      + mred. rewrite (upd_proc_eq _ p (set_p_killed true q)) by (simpl; by rewrite list_lookup_insert_eq). mred. cbn [k_procs set_k_procs set_k_held]. rewrite list_insert_insert_eq.
        destruct (sched_ok_resting s p q Hok Hq) as [Hin Hc]; [congruence..|].
        set (q' := set_p_state RUNNABLE _). set (s2 := set_k_procs (<[p := q']> (k_procs s)) s).
        match goal with |- context [rq_insert p ?st] => change st with (set_k_held [LProc p] s2) end.
        assert (Hok2 : sched_ok s2) by (by eapply sched_ok_entry).
        pose proof (sched_ok_insert s2 (k_cur s2) p q') as Hins. apply returns_obind.
        eapply returns_mono; [apply Hins with (h := [LProc p]); [by eapply sched_ok_ext|simpl; by rewrite list_lookup_insert_eq|done|set_solver]|].
        cbn beta. intros _ s3 (s4 & -> & Hok4 & Hc4 & _). mred. rewrite release_one by done. mred. cbn [returns].
        rewrite set_k_held_twice. eapply sched_ok_ext; [exact Hok4|done|done|simpl; by rewrite Hc4|].
        symmetry. apply Hok4.
      + mred. rewrite release_one by done. mred. eapply (sched_ok_ext (set_k_procs (<[p := set_p_killed true q]> (k_procs s)) s)); try done.
        by eapply sched_ok_same. }
  destruct (kkill pid s); try done. eauto.
Qed.

(** The clock touches neither memory nor the process it interrupts. *)
Lemma clock_tick_spec s : sched_ok s ->
  returns (clock_tick s) (fun _ s' => sched_ok s' /\ k_mem s' = k_mem s /\ k_cur s' = k_cur s /\
    forall p, k_cur s = Some p -> k_procs s' !! p = k_procs s !! p).
Proof.
  intros Hok. pose proof (sk_held _ Hok) as Hh. unfold clock_tick. mred. rewrite acquire_free by done. mred. set (s1 := set_k_ticks (u32 (k_ticks s + 1)) s).
    change (set_k_ticks _ (set_k_held [LTicks] s)) with (set_k_held [LTicks] s1). apply returns_obind.
    eapply returns_mono; [apply wakeup_ok; [by eapply sched_ok_ext|set_solver..]|]. cbn beta.
  intros _ s2 (Hok2 & Hh2 & Hm & Hc & Hcp). by rewrite release_one.
Qed.

Lemma tick_ok s : sched_ok s -> keeps (returned (clock_tick s)).
Proof. intros Hok. destruct (returns_inv _ _ (clock_tick_spec s Hok)) as (u & s' & -> & Hok' & _). by eexists. Qed.

Lemma attr_ok s p d pr st : sched_ok s -> k_cur s = Some p -> keeps (returned ((p ← myproc; set_attr p d pr st) s)).
Proof.
  intros Hok Hc. destruct (sk_cur _ Hok p Hc) as [pp Hp]. pose proof (sk_held _ Hok) as Hh. assert (Hlt := lookup_lt_Some _ _ _ Hp).
  destruct (sched_ok_running s p pp Hok Hc Hp) as [Hrun Hin]. unfold myproc. mred. rewrite Hc. mred. unfold set_attr. mred.
  rewrite acquire_free by done. mred. upd_entry. rewrite release_one by done. simpl. rewrite !list_insert_insert_eq.
  set (q := set_p_start_time _ _).
  apply (keeps_sched _ (set_k_procs (<[p := q]> (k_procs s)) s)); [f_equal; destruct s; simpl in *; by subst|].
  eapply sched_ok_entry; try done. simpl. rewrite (run_state _ _ _ _ Hrun), Hc. done.
Qed.

Lemma in_state_lookup s p st : in_state s p st = true -> exists q, k_procs s !! p = Some q /\ p_state q = st.
Proof. unfold in_state. destruct (k_procs s !! p) as [q|]; [|done]. intros H%bool_decide_eq_true_1. eauto. Qed.

(** An entry at rest is given other contents, not runnable yet. *)
Lemma entry_ok s p q q' s' :
  sched_ok s -> k_procs s !! p = Some q -> p_state q <> RUNNABLE -> p_state q <> RUNNING ->
  p_in_rq q' = false -> p_state q' <> RUNNING ->
  k_procs s' = <[p := q']> (k_procs s) -> k_rq s' = k_rq s -> k_cur s' = k_cur s -> k_held s' = [] -> sched_ok s'.
Proof.
  intros Hok Hp H1 H2 Hq' Hst' E1 E2 E3 E4. destruct (sched_ok_resting s p q Hok Hp H1 H2) as [Hin Hc].
  eapply (sched_ok_ext (set_k_procs (<[p := q']> (k_procs s)) s)); [|done|done|done|by rewrite E4; symmetry; apply Hok].
  by eapply sched_ok_entry.
Qed.

Lemma alloc_ok s p : sched_ok s -> in_state s p UNUSED = true -> keeps (returned ((acquire (LProc p);; alloc_entry p;; release (LProc p)) s)).
Proof.
  intros Hok (q & Hq & Hst)%in_state_lookup. pose proof (sk_held _ Hok) as Hh. assert (Hlt := lookup_lt_Some _ _ _ Hq).
  mred. rewrite acquire_free by done. mred. unfold alloc_entry, allocpid. mred. rewrite acquire_eq by (simpl; set_solver). mred.
  rewrite (release_eq _ _ [LProc p]) by (simpl; done || set_solver). mred. upd_entry. rewrite release_one by done. simpl. rewrite !list_insert_insert_eq.
  eexists. split; [done|]. eapply entry_ok; [exact Hok|exact Hq|congruence|congruence| | |simpl; done|done|done|done]; done.
Qed.

Lemma reap_ok s p : sched_ok s -> in_state s p ZOMBIE = true -> keeps (returned ((acquire (LProc p);; clear_entry p;; release (LProc p)) s)).
Proof.
  intros Hok (q & Hq & Hst)%in_state_lookup. pose proof (sk_held _ Hok) as Hh. assert (Hlt := lookup_lt_Some _ _ _ Hq).
  mred. rewrite acquire_free by done. mred. unfold clear_entry. mred. upd_entry. rewrite release_one by done. simpl. rewrite !list_insert_insert_eq.
  eexists. split; [done|]. eapply entry_ok; [exact Hok|exact Hq|congruence|congruence| | |simpl; done|done|done|done]; done.
Qed.

Lemma start_ok s p : sched_ok s -> in_state s p USED = true -> keeps (returned (fork_start p s)).
Proof.
  intros Hok (q & Hq & Hst)%in_state_lookup. pose proof (sk_held _ Hok) as Hh. assert (Hlt := lookup_lt_Some _ _ _ Hq).
  destruct (sched_ok_resting s p q Hok Hq) as [Hin Hc]; [congruence..|].
  unfold fork_start. mred. rewrite acquire_free by done. mred. rewrite (upd_proc_eq _ p q) by done. mred.
  set (s2 := set_k_procs (<[p := set_p_state RUNNABLE q]> (k_procs s)) s).
  match goal with |- context [rq_insert p ?st] => change st with (set_k_held [LProc p] s2) end.
  assert (Hok2 : sched_ok s2) by (by eapply sched_ok_entry).
  destruct (returns_inv _ _ (sched_ok_insert s2 (k_cur s2) p (set_p_state RUNNABLE q) ltac:(by eapply sched_ok_ext)
    ltac:(simpl; by rewrite list_lookup_insert_eq) eq_refl [LProc p] ltac:(set_solver))) as ([] & s3 & -> & s4 & -> & Hok4 & Hc4 & _).
  mred. rewrite release_one by done. eexists. split; [done|]. rewrite set_k_held_twice.
  eapply sched_ok_ext; [exact Hok4|done|done|simpl; by rewrite Hc4|]. symmetry. apply Hok4.
Qed.

Lemma do_op_ok o s : sched_ok s -> keeps (do_op o s).
Proof.
  intros Hok. unfold do_op. destruct (enabled o s) eqn:He; [|eauto].
  destruct o; cbn [enabled] in He; try (apply bool_decide_eq_true_1 in He).
  - by apply schedule_ok.
  - destruct He as [p Hp]. by apply (yield_ok s p).
  - apply andb_true_iff in He as [He Hlk]. apply bool_decide_eq_true_1 in He as [p Hp]. apply (sleep_ok s p); [done|done|]. by intros i ->.
  - simpl. pose proof (wakeup_ok s ch [] Hok) as H. rewrite set_k_held_id in H by apply Hok. specialize (H ltac:(set_solver) ltac:(set_solver)).
    destruct (wakeup ch s) as [a s'| | | |]; try done. destruct H as (H & Hh & _). exists s'. split; [done|]. by rewrite set_k_held_id in H.
  - by apply kill_ok.
  - by apply tick_ok.
  - destruct He as [p Hp]. by apply (attr_ok s p).
  - by apply alloc_ok.
  - by apply start_ok.
  - destruct He as [p Hp]. by apply (exit_ok s p).
  - by apply reap_ok.
Qed.

(** C4. Whatever sequence of scheduling operations runs on a consistent machine,
    none of them panics (the ready queue does not overflow, sched() finds its
    conditions met, no lock is taken twice) or leaves the defined behaviour of
    C, and the machine stays consistent: the queue is sorted by deadline and
    priority, without repetition, and holds exactly the processes flagged as
    queued, all of them RUNNABLE; the current process is the one in state
    RUNNING, and there is no other. *)
Theorem scheduling_safe l s : sched_ok s -> exists s', do_ops l s = Some s' /\ sched_ok s'.
Proof.
  revert s. induction l as [|o l IH]; intros s Hok; [by exists s|].
  destruct (do_op_ok o s Hok) as (s1 & H1 & Hok1). destruct (IH s1 Hok1) as (s' & Hs' & Hok'). exists s'. simpl. by rewrite H1.
Qed.

(** procinit() makes the machine consistent. *)
Lemma procinit_ok s :
  length (k_procs s) = NPROC -> length (k_mutexes s) = NMUTEX -> length (rq_procs (k_rq s)) = NPROC ->
  (forall i q, k_procs s !! i = Some q -> p_in_rq q = false) -> k_cur s = None -> k_held s = [] ->
  returns (procinit s) (fun _ s' => sched_ok s').
Proof.
  intros Hp Hm Hq Hin Hc Hh. unfold procinit. apply returns_obind. eapply returns_mono.
  { apply (foreach_seq (fun n s1 => (forall i q, k_procs s1 !! i = Some q -> p_in_rq q = false /\ ((i < n)%nat -> p_state q = UNUSED)) /\
      length (k_procs s1) = NPROC /\ exists ps, s1 = set_k_procs ps s)).
    - split_and!; [|done|exists (k_procs s); by destruct s]. intros i q Hi. split; [by eapply Hin|lia].
    - intros n s1 Hn (Hs & Hl & ps & ->). cbn [k_procs set_k_procs] in Hs, Hl. destruct (lookup_lt_is_Some_2 ps n) as [q Hqn]; [lia|]. pose proof (lookup_lt_Some _ _ _ Hqn) as Hlt. mred. upd_entry.
      simpl. rewrite ?list_insert_insert_eq, !length_insert. split_and!; [|done|by eexists].
      intros i q' Hi. destruct (decide (i = n)) as [->|Hne].
      + rewrite list_lookup_insert_eq in Hi by done. injection Hi as <-. simpl. split; [by eapply Hs|done].
      + rewrite list_lookup_insert_ne in Hi by done. destruct (Hs i q' Hi) as [H1 H2]. split; [done|]. intros. apply H2. lia. }
  cbn beta. intros _ s1 (Hs & Hl & ps & E). mred. apply returns_obind. eapply returns_mono.
  { apply (foreach_seq (fun _ s2 => length (k_mutexes s2) = NMUTEX /\ exists ms, s2 = set_k_mutexes ms s1)).
    - split; [by rewrite E|]. exists (k_mutexes s1). by destruct s1.
    - intros n s2 Hn (Hl2 & ms & ->). cbn [k_mutexes set_k_mutexes] in Hl2. destruct (lookup_lt_is_Some_2 ms n) as [mx Hmx]; [lia|]. unfold upd_mutex, get_mutex. mred.
      pose proof (lookup_lt_Some _ _ _ Hmx) as Hlt. cbn [k_mutexes set_k_mutexes]. rewrite Hmx. mred. cbn [k_mutexes set_k_mutexes].
      rewrite list_lookup_insert_eq by done. mred. cbn [k_mutexes set_k_mutexes]. rewrite list_lookup_insert_eq by (by rewrite length_insert). mred.
      simpl. rewrite !length_insert. split; [done|]. by eexists. }
  cbn beta. intros _ s2 (_ & ms & ->). unfold rq_set_count. cbn [returns modify].
  assert (Hcur : k_cur s1 = None) by (by rewrite E). assert (Hq1 : rq_procs (k_rq s1) = rq_procs (k_rq s)) by (by rewrite E).
  assert (Hun : forall i q, k_procs s1 !! i = Some q -> p_in_rq q = false /\ p_state q = UNUSED).
  { intros i q Hi. destruct (Hs i q Hi) as [H1 H2]. split; [done|]. apply H2. rewrite <- Hl. by eapply lookup_lt_Some. }
  constructor; simpl; [constructor; simpl| | | |].
  - done.
  - by rewrite Hq1.
  - lia.
  - apply NoDup_nil_2.
  - intros i. split; [by intros ?%not_elem_of_nil|]. intros (q & Hi & Hq'). destruct (Hun i q Hi). congruence.
  - intros i j a b _ Ha. done.
  - intros i q Hi Hq'. simpl in Hi. destruct (Hun i q Hi). congruence.
  - intros i q Hi. destruct (Hun i q Hi). rewrite Hcur. split; congruence.
  - congruence.
  - by rewrite E.
Qed.
