(* ===== verification/Hart.v ===== *)
(** * One hart: control registers, privilege modes, machine-mode set-up

    kernel/riscv.h's access functions and kernel/start.c over the part of a
    RISC-V hart they touch: the privilege mode, the program counter, the
    general registers and the control and status registers.  What the
    privileged architecture leaves to the implementation is the class [Isa]:
    which bits of mstatus the supervisor sees as sstatus, and which traps can
    be delegated; [IsaLaws] is what the kernel relies on.  The supervisor
    registers are views: sstatus of mstatus, sie and sip of mie and mip for
    the interrupts mideleg delegates. *)

From stdpp Require Import functions.
From S2P Require Import Prelude State Vm.

Inductive mode := MUser | MSupervisor | MMachine.

Inductive csr :=
| Mhartid | Mstatus | Mepc | Mie | Mip | Medeleg | Mideleg | Menvcfg | Mcounteren | Pmpcfg0 | Pmpaddr0
| Satp | Stvec | Sepc | Scause | Stval | Sscratch | Stimecmp | Time.

#[export] Instance mode_eq_dec : EqDecision mode.
Proof. solve_decision. Defined.
#[export] Instance csr_eq_dec : EqDecision csr.
Proof. solve_decision. Defined.

(** The general registers are x0 .. x31, in order. *)
Record hart := mkHart {
  h_mode : mode;
  h_pc : Z;
  h_x : list Z;
  h_csr : csr -> Z
}.
Definition set_h_mode (v : mode) (h : hart) : hart := mkHart v (h_pc h) (h_x h) (h_csr h).
Definition set_h_pc (v : Z) (h : hart) : hart := mkHart (h_mode h) v (h_x h) (h_csr h).
Definition set_h_x (r : nat) (v : Z) (h : hart) : hart := mkHart (h_mode h) (h_pc h) (<[r := v]> (h_x h)) (h_csr h).
Definition set_csr (c : csr) (v : Z) (h : hart) : hart := mkHart (h_mode h) (h_pc h) (h_x h) (<[c := v]> (h_csr h)).

Abbreviation HM := (M hart).

Definition TP : nat := 4.

(** ** riscv.h: bits *)
Definition MSTATUS_MPP_MASK : Z := Z.shiftl 3 11.
Definition MSTATUS_MPP_M : Z := Z.shiftl 3 11.
Definition MSTATUS_MPP_S : Z := Z.shiftl 1 11.
Definition MSTATUS_MPP_U : Z := Z.shiftl 0 11.
Definition SSTATUS_SPP : Z := Z.shiftl 1 8.
Definition SSTATUS_SPIE : Z := Z.shiftl 1 5.
Definition SSTATUS_SIE : Z := Z.shiftl 1 1.
Definition SIE_SEIE : Z := Z.shiftl 1 9.
Definition SIE_STIE : Z := Z.shiftl 1 5.
Definition MIE_STIE : Z := Z.shiftl 1 5.
Definition SATP_SV39 : Z := Z.shiftl 8 60.
Definition MAKE_SATP (pagetable : Z) : Z := Z.lor SATP_SV39 (Z.shiftr pagetable 12).

(** ** The views of the supervisor *)

(** The bits of [x] in [mask], the others of [old]. *)
Definition merge (mask old x : Z) : Z := Z.lor (Z.ldiff old mask) (Z.land x mask).

Class Isa := {
  sstatus_mask : Z;
  medeleg_mask : Z;
  mideleg_mask : Z
}.

(** sstatus shows SIE, SPIE and SPP; the supervisor's timer and external
    interrupts can be delegated. *)
Class IsaLaws (I : Isa) : Prop := {
  sees_sie : Z.testbit sstatus_mask 1 = true;
  sees_spie : Z.testbit sstatus_mask 5 = true;
  sees_spp : Z.testbit sstatus_mask 8 = true;
  delegable_timer : Z.testbit mideleg_mask 5 = true;
  delegable_external : Z.testbit mideleg_mask 9 = true
}.

Section hart.
  Context `{Isa}.

Definition csrr (c : csr) : HM Z := gets (fun h => h_csr h c).
Definition csrw (c : csr) (x : Z) : HM unit := modify (set_csr c x).

(** ** riscv.h: access functions *)
Definition r_mhartid : HM Z := csrr Mhartid.
Definition r_mstatus : HM Z := csrr Mstatus.
Definition w_mstatus (x : Z) : HM unit := csrw Mstatus x.
Definition w_mepc (x : Z) : HM unit := csrw Mepc x.
Definition r_sstatus : HM Z := x ← csrr Mstatus; mret (Z.land x sstatus_mask).
Definition w_sstatus (x : Z) : HM unit := old ← csrr Mstatus; csrw Mstatus (merge sstatus_mask old x).
Definition r_sip : HM Z := x ← csrr Mip; d ← csrr Mideleg; mret (Z.land x d).
Definition w_sip (x : Z) : HM unit := old ← csrr Mip; d ← csrr Mideleg; csrw Mip (merge d old x).
Definition r_sie : HM Z := x ← csrr Mie; d ← csrr Mideleg; mret (Z.land x d).
Definition w_sie (x : Z) : HM unit := old ← csrr Mie; d ← csrr Mideleg; csrw Mie (merge d old x).
Definition r_mie : HM Z := csrr Mie.
Definition w_mie (x : Z) : HM unit := csrw Mie x.
Definition w_sepc (x : Z) : HM unit := csrw Sepc x.
Definition r_sepc : HM Z := csrr Sepc.
Definition r_medeleg : HM Z := csrr Medeleg.
Definition w_medeleg (x : Z) : HM unit := csrw Medeleg (Z.land x medeleg_mask).
Definition r_mideleg : HM Z := csrr Mideleg.
Definition w_mideleg (x : Z) : HM unit := csrw Mideleg (Z.land x mideleg_mask).
Definition w_stvec (x : Z) : HM unit := csrw Stvec x.
Definition r_stvec : HM Z := csrr Stvec.
Definition r_stimecmp : HM Z := csrr Stimecmp.
Definition w_stimecmp (x : Z) : HM unit := csrw Stimecmp x.
Definition r_menvcfg : HM Z := csrr Menvcfg.
Definition w_menvcfg (x : Z) : HM unit := csrw Menvcfg x.
Definition w_pmpcfg0 (x : Z) : HM unit := csrw Pmpcfg0 x.
Definition w_pmpaddr0 (x : Z) : HM unit := csrw Pmpaddr0 x.
Definition w_satp (x : Z) : HM unit := csrw Satp x.
Definition r_satp : HM Z := csrr Satp.
Definition r_scause : HM Z := csrr Scause.
Definition r_stval : HM Z := csrr Stval.
Definition w_mcounteren (x : Z) : HM unit := csrw Mcounteren x.
Definition r_mcounteren : HM Z := csrr Mcounteren.
Definition r_time : HM Z := csrr Time.

Definition intr_on : HM unit := x ← r_sstatus; w_sstatus (Z.lor x SSTATUS_SIE).
Definition intr_off : HM unit := x ← r_sstatus; w_sstatus (Z.ldiff x SSTATUS_SIE).
Definition intr_get : HM bool := x ← r_sstatus; mret (negb (Z.land x SSTATUS_SIE =? 0)).

Definition r_sp : HM Z := gets (fun h => h_x h !!! 2%nat).
Definition r_ra : HM Z := gets (fun h => h_x h !!! 1%nat).
Definition r_tp : HM Z := gets (fun h => h_x h !!! TP).
Definition w_tp (x : Z) : HM unit := modify (set_h_x TP x).

(** ** Traps and returns, as the hardware does them *)

Definition put_bit (i : Z) (b : bool) (x : Z) : Z := if b then Z.setbit x i else Z.clearbit x i.

(** A trap taken in supervisor mode: SPP and SPIE remember the mode and SIE,
    interrupts go off, and the hart continues at stvec (direct mode, or
    vectored for interrupts). *)
Definition trap_vector (stvec cause : Z) : Z :=
  let base := Z.ldiff stvec 3 in
  if (Z.land stvec 3 =? 1) && Z.testbit cause 63 then base + 4 * Z.clearbit cause 63 else base.

Definition trap_status (h : hart) : Z :=
  let ms := h_csr h Mstatus in
  put_bit 1 false (put_bit 5 (Z.testbit ms 1) (put_bit 8 (bool_decide (h_mode h = MSupervisor)) ms)).

Definition trap (cause tval : Z) : HM unit :=
  h ← gets (fun h => h);
  csrw Sepc (h_pc h);;
  csrw Scause cause;;
  csrw Stval tval;;
  csrw Mstatus (trap_status h);;
  modify (set_h_mode MSupervisor);;
  modify (set_h_pc (trap_vector (h_csr h Stvec) cause)).

Definition sret : HM unit :=
  h ← gets (fun h => h);
  let ms := h_csr h Mstatus in
  csrw Mstatus (put_bit 1 (Z.testbit ms 5) (put_bit 5 true (put_bit 8 false ms)));;
  modify (set_h_mode (if Z.testbit ms 8 then MSupervisor else MUser));;
  modify (set_h_pc (h_csr h Sepc)).

Definition mode_of_mpp (mpp : Z) : mode := if mpp =? 3 then MMachine else if mpp =? 1 then MSupervisor else MUser.

Definition mret_instr : HM unit :=
  h ← gets (fun h => h);
  let ms := h_csr h Mstatus in
  csrw Mstatus (put_bit 3 (Z.testbit ms 7) (put_bit 7 true (Z.ldiff ms MSTATUS_MPP_MASK)));;
  modify (set_h_mode (mode_of_mpp (Z.land (Z.shiftr ms 11) 3)));;
  modify (set_h_pc (h_csr h Mepc)).

(** ** start.c *)

Definition timerinit : HM unit :=
  x ← r_mie; w_mie (Z.lor x MIE_STIE);;
  x ← r_menvcfg; w_menvcfg (Z.lor x (Z.shiftl 1 63));;
  x ← r_mcounteren; w_mcounteren (Z.lor x 2);;
  x ← r_time; w_stimecmp (u64 (x + 1000000)).

(** start(): [main] is the address of main(). *)
Definition start (main : Z) : HM unit :=
  x ← r_mstatus;
  let x := Z.ldiff x MSTATUS_MPP_MASK in
  let x := Z.lor x MSTATUS_MPP_S in
  w_mstatus x;;
  w_mepc main;;
  w_satp 0;;
  w_medeleg 0xffff;;
  w_mideleg 0xffff;;
  x ← r_sie; w_sie (Z.lor (Z.lor x SIE_SEIE) SIE_STIE);;
  w_pmpaddr0 0x3fffffffffffff;;
  w_pmpcfg0 0xf;;
  timerinit;;
  x ← r_mhartid;
  let id := s32 x in
  w_tp (u64 id);;
  mret_instr.

(** What physical memory protection lets the lower modes do with entry 0 in
    top-of-range mode: read, write and execute below pmpaddr0 * 4. *)
Definition pmp_grants (h : hart) (a : Z) : bool :=
  (Z.land (Z.shiftr (h_csr h Pmpcfg0) 3) 3 =? 1) && (Z.land (h_csr h Pmpcfg0) 7 =? 7) && (0 <=? a) && (a <? 4 * h_csr h Pmpaddr0).

(** An interrupt the supervisor has enabled, that goes to supervisor mode. *)
Definition intr_delivered (h : hart) (i : Z) : bool := Z.testbit (h_csr h Mie) i && Z.testbit (h_csr h Mideleg) i.

(** ** Bits of the views *)

Lemma merge_testbit mask old x i : 0 <= i ->
  Z.testbit (merge mask old x) i = if Z.testbit mask i then Z.testbit x i else Z.testbit old i.
Proof.
  intros Hi. unfold merge. rewrite Z.lor_spec, Z.ldiff_spec, Z.land_spec.
  destruct (Z.testbit mask i), (Z.testbit x i), (Z.testbit old i); done.
Qed.

Lemma put_bit_testbit i b x j : 0 <= i -> 0 <= j -> Z.testbit (put_bit i b x) j = if decide (j = i) then b else Z.testbit x j.
Proof.
  intros Hi Hj. unfold put_bit. destruct b, (decide (j = i)) as [->|Hne].
  - by apply Z.setbit_eq.
  - by apply Z.setbit_neq.
  - by apply Z.clearbit_eq.
  - by apply Z.clearbit_neq.
Qed.

Lemma shiftl_one_testbit k i : 0 <= k -> 0 <= i -> Z.testbit (Z.shiftl 1 k) i = bool_decide (i = k).
Proof.
  intros Hk Hi. rewrite Z.shiftl_1_l, Z.pow2_bits_eqb by done.
  destruct (decide (i = k)) as [->|Hne]; [by rewrite bool_decide_eq_true_2, Z.eqb_refl by done|].
  rewrite bool_decide_eq_false_2 by done. apply Z.eqb_neq. lia.
Qed.

(** A flag of one bit is set exactly when its bit is. *)
Lemma flag_testbit x k : 0 <= k -> negb (Z.land x (Z.shiftl 1 k) =? 0) = Z.testbit x k.
Proof.
  intros Hk. destruct (Z.testbit x k) eqn:Hb.
  - apply negb_true_iff, Z.eqb_neq. intros E. assert (Ht : Z.testbit (Z.land x (Z.shiftl 1 k)) k = false) by (by rewrite E, Z.bits_0).
    rewrite Z.land_spec, Hb, shiftl_one_testbit, bool_decide_eq_true_2 in Ht by done. done.
  - apply negb_false_iff, Z.eqb_eq, Z.bits_inj_0. intros i. destruct (Z.neg_nonneg_cases i); [by apply Z.testbit_neg_r|].
    rewrite Z.land_spec, shiftl_one_testbit by done. destruct (decide (i = k)) as [->|]; [by rewrite Hb|].
    rewrite bool_decide_eq_false_2 by done. apply andb_false_r.
Qed.

Definition bit (h : hart) (c : csr) (i : Z) : bool := Z.testbit (h_csr h c) i.

(** MPP is read as supervisor after start() has written it. *)
Lemma mpp_supervisor x : mode_of_mpp (Z.land (Z.shiftr (Z.lor (Z.ldiff x MSTATUS_MPP_MASK) MSTATUS_MPP_S) 11) 3) = MSupervisor.
Proof.
  replace (Z.land _ 3) with 1; [done|]. apply Z.bits_inj'. intros i Hi. change 3 with (Z.ones 2).
  rewrite Z.land_spec, Z.shiftr_spec, Z.lor_spec, Z.ldiff_spec by done. destruct (decide (i < 2)) as [Hlt|Hge].
  - rewrite (Z.ones_spec_low 2 i), andb_true_r by lia. assert (i = 0 \/ i = 1) as [-> | ->] by lia; simpl; by rewrite andb_false_r.
  - rewrite (Z.ones_spec_high 2 i), andb_false_r by lia. rewrite Z.bits_above_log2 by (simpl; lia). done.
Qed.

Lemma csr_same c v h : h_csr (set_csr c v h) c = v.
Proof. simpl. apply fn_lookup_insert. Qed.

Lemma csr_other c c' v h : c <> c' -> h_csr (set_csr c v h) c' = h_csr h c'.
Proof. intros Hne. simpl. by apply fn_lookup_insert_ne. Qed.

Lemma r_sstatus_eq h : r_sstatus h = Ret (Z.land (h_csr h Mstatus) sstatus_mask) h.
Proof. done. Qed.

Lemma w_sstatus_eq x h : w_sstatus x h = Ret tt (set_csr Mstatus (merge sstatus_mask (h_csr h Mstatus) x) h).
Proof. done. Qed.

Lemma intr_off_eq h : intr_off h =
  Ret tt (set_csr Mstatus (merge sstatus_mask (h_csr h Mstatus) (Z.ldiff (Z.land (h_csr h Mstatus) sstatus_mask) SSTATUS_SIE)) h).
Proof. done. Qed.

Lemma trap_eq cause tval h : exists h', trap cause tval h = Ret tt h' /\
  h_mode h' = MSupervisor /\ h_pc h' = trap_vector (h_csr h Stvec) cause /\ h_x h' = h_x h /\
  h_csr h' Sepc = h_pc h /\ h_csr h' Scause = cause /\ h_csr h' Stval = tval /\
  bit h' Mstatus 8 = bool_decide (h_mode h = MSupervisor) /\ bit h' Mstatus 5 = bit h Mstatus 1 /\ bit h' Mstatus 1 = false /\
  (forall c, c ∉ [Sepc; Scause; Stval; Mstatus] -> h_csr h' c = h_csr h c).
Proof.
  eexists. split; [unfold trap, csrw; mred; reflexivity|]. unfold bit. split_and!; try done.
  - change (Z.testbit (trap_status h) 8 = bool_decide (h_mode h = MSupervisor)). unfold trap_status. by rewrite !put_bit_testbit, decide_False, decide_False, decide_True by done.
  - change (Z.testbit (trap_status h) 5 = Z.testbit (h_csr h Mstatus) 1). unfold trap_status. by rewrite !put_bit_testbit, decide_False, decide_True by done.
  - change (Z.testbit (trap_status h) 1 = false). unfold trap_status. by rewrite !put_bit_testbit, decide_True by done.
  - intros c Hc. rewrite !not_elem_of_cons in Hc. destruct Hc as (? & ? & ? & ? & _). cbn. by rewrite !fn_lookup_insert_ne.
Qed.

Lemma intr_get_eq h : Z.testbit sstatus_mask 1 = true -> intr_get h = Ret (bit h Mstatus 1) h.
Proof.
  intros Hs. unfold intr_get. mred. rewrite r_sstatus_eq. mred. unfold SSTATUS_SIE.
  by rewrite flag_testbit, Z.land_spec, Hs, andb_true_r by done.
Qed.

Lemma csr_pc pc h : h_csr (set_h_pc pc h) = h_csr h.
Proof. done. Qed.

Lemma csr_mode m h : h_csr (set_h_mode m h) = h_csr h.
Proof. done. Qed.

Lemma csr_x r v h : h_csr (set_h_x r v h) = h_csr h.
Proof. done. Qed.

End hart.

(** Reading a register of a hart some registers of which were set. *)
Ltac csr := repeat first [rewrite csr_same | rewrite csr_other by done | rewrite csr_pc | rewrite csr_mode | rewrite csr_x].

(** [hred] runs access functions one after the other. *)
Ltac hred := repeat (progress (mred; csr)).

Section start.
  Context `{I : Isa} (Laws : IsaLaws I).

(** C8. start() on hart [id] leaves machine mode for supervisor mode at main(),
    with paging off, its number in tp and the other registers as they were;
    the supervisor may use all of physical memory and the timer; timer and
    external interrupts are enabled for it and delivered to it once it sets
    SIE, which start() leaves alone; the first timer interrupt is due. *)
Theorem start_enters_main (main id : Z) (h : hart) :
  (TP < length (h_x h))%nat -> h_csr h Mhartid = id -> 0 <= id < 2 ^ 31 ->
  returns (start main h) (fun _ h' =>
    h_mode h' = MSupervisor /\ h_pc h' = main /\ h_csr h' Satp = 0 /\ h_x h' = <[TP := id]> (h_x h) /\
    (forall a, 0 <= a < 2 ^ 56 - 4 -> pmp_grants h' a = true) /\
    intr_delivered h' 5 = true /\ intr_delivered h' 9 = true /\
    (forall i, 0 <= i < 16 -> bit h' Medeleg i = Z.testbit medeleg_mask i) /\
    bit h' Menvcfg 63 = true /\ bit h' Mcounteren 1 = true /\ h_csr h' Stimecmp = u64 (h_csr h Time + 1000000) /\
    bit h' Mstatus 1 = bit h Mstatus 1).
Proof using Type*.
  intros Hx Hid Hr. destruct Laws as [L1 L2 L3 L4 L5]. unfold start, timerinit, mret_instr.
  unfold r_mstatus, w_mstatus, w_mepc, w_satp, w_medeleg, w_mideleg, r_sie, w_sie, w_pmpaddr0, w_pmpcfg0, r_mie, w_mie,
    r_menvcfg, w_menvcfg, r_mcounteren, w_mcounteren, r_time, w_stimecmp, r_mhartid, w_tp, csrr, csrw. hred.
  cbn [returns]. unfold pmp_grants, intr_delivered, bit. split_and!.
  - cbn [h_mode set_h_pc set_h_mode]. apply mpp_supervisor.
  - cbn [h_pc set_h_pc]. by csr.
  - by csr.
  - cbn [h_x set_h_pc set_h_mode set_csr set_h_x]. f_equal. rewrite Hid. unfold u64, s32, swrap. rewrite (Z.mod_small (id + _)), Z.mod_small by lia. lia.
  - intros a Ha. csr. change (Z.land (Z.shiftr 15 3) 3 =? 1) with true. change (Z.land 15 7 =? 7) with true.
    rewrite (proj2 (Z.leb_le 0 a)), (proj2 (Z.ltb_lt a _)) by lia. done.
  - csr. rewrite Z.lor_spec, Z.land_spec, L4. change (Z.testbit MIE_STIE 5) with true. by rewrite orb_true_r.
  - csr. rewrite Z.lor_spec, merge_testbit, !Z.lor_spec, Z.land_spec, L5 by done.
    change (Z.testbit SIE_SEIE 9) with true. by rewrite orb_true_r.
  - intros i Hi. csr. rewrite Z.land_spec. change 65535 with (Z.ones 16). by rewrite Z.ones_spec_low by lia.
  - csr. rewrite Z.lor_spec, shiftl_one_testbit by done. apply orb_true_r.
  - csr. rewrite Z.lor_spec. apply orb_true_r.
  - by csr.
  - csr. rewrite !put_bit_testbit, !decide_False, Z.ldiff_spec, Z.lor_spec, Z.ldiff_spec by done. by destruct (Z.testbit (h_csr h Mstatus) 1).
Qed.
End start.
