(* ===== verification/Trap.v ===== *)
(** * Traps, interrupt controller and boot
    (kernel/trap.c, plic.c, main.c, trampoline.S, uartinit, consoleinit, forkret)

    A machine is the kernel's memory with the disk driver's state, one hart
    (Hart.v), the memory-mapped registers written so far and the two flags of
    the boot sequence.  Kernel code that only works on the kernel state runs
    inside it by [zk], the disk driver by [zv]; a switch to another process
    gives up the whole machine, so a process may be resumed on another hart.
    Link-time addresses are the class [Layout]; what the devices' registers
    read is an argument. *)

From S2P Require Import Prelude State CString Vm Spinlock Kalloc Sysargs Proc Bio Virtio Fs Path Console Lifecycle Exec Syscall Hart.

(** ** memlayout.h: devices *)
Definition UART0 : Z := 0x10000000.
Definition UART0_IRQ : Z := 10.
Definition VIRTIO0 : Z := 0x10001000.
Definition VIRTIO0_IRQ : Z := 1.
Definition PLIC : Z := 0x0c000000.
Definition PLIC_SENABLE (hart : Z) : Z := PLIC + 0x2080 + hart * 0x100.
Definition PLIC_SPRIORITY (hart : Z) : Z := PLIC + 0x201000 + hart * 0x2000.
Definition PLIC_SCLAIM (hart : Z) : Z := PLIC + 0x201004 + hart * 0x2000.

(** proc.h: the offsets of struct trapframe the kernel keeps for itself. *)
Definition TF_KERNEL_SATP : Z := 0.
Definition TF_KERNEL_SP : Z := 8.
Definition TF_KERNEL_TRAP : Z := 16.
Definition TF_KERNEL_HARTID : Z := 32.

Record mach := mkMach {
  m_k : kstate;
  m_d : vdisk;
  m_h : hart;
  m_io : list (Z * Z);
  m_started : bool;
  m_first : bool
}.
Definition set_m_k (x : kstate) (m : mach) : mach := mkMach x (m_d m) (m_h m) (m_io m) (m_started m) (m_first m).
Definition set_m_v (x : vstate) (m : mach) : mach := mkMach (v_k x) (v_d x) (m_h m) (m_io m) (m_started m) (m_first m).
Definition set_m_h (x : hart) (m : mach) : mach := mkMach (m_k m) (m_d m) x (m_io m) (m_started m) (m_first m).
Definition set_m_io (x : list (Z * Z)) (m : mach) : mach := mkMach (m_k m) (m_d m) (m_h m) x (m_started m) (m_first m).
Definition set_m_started (x : bool) (m : mach) : mach := mkMach (m_k m) (m_d m) (m_h m) (m_io m) x (m_first m).
Definition set_m_first (x : bool) (m : mach) : mach := mkMach (m_k m) (m_d m) (m_h m) (m_io m) (m_started m) x.
Definition m_v (m : mach) : vstate := mkV (m_k m) (m_d m).

Abbreviation MM := (M mach).

(** Running a computation on one part of the machine. *)
Section zoom.
  Context {S T : Type} (get : T -> S) (set : S -> T -> T).

Fixpoint zoom_outcome {A} (t : T) (o : outcome S A) : outcome T A :=
  match o with
  | Ret a s => Ret a (set s t)
  | Panic msg => Panic msg
  | Swtch s k => Swtch (set s t) (fun t' => zoom_outcome t' (k (get t')))
  | UB => UB
  | OutOfFuel => OutOfFuel
  end.

Definition zoom {A} (m : M S A) : M T A := fun t => zoom_outcome t (m (get t)).

Lemma zoom_ret {A} (m : M S A) t a s : m (get t) = Ret a s -> zoom m t = Ret a (set s t).
Proof. unfold zoom. by intros ->. Qed.
End zoom.

Definition zk {A} : K A -> MM A := zoom m_k set_m_k.
Definition zv {A} : M vstate A -> MM A := zoom m_v set_m_v.
Definition zh {A} : HM A -> MM A := zoom m_h set_m_h.

(** How the parts run, one step at a time. *)
Lemma set_m_h_id m : set_m_h (m_h m) m = m.
Proof. by destruct m. Qed.
Lemma set_m_k_id m : set_m_k (m_k m) m = m.
Proof. by destruct m. Qed.
Lemma zh_gets {A} (f : hart -> A) m : zh (gets f) m = Ret (f (m_h m)) m.
Proof. unfold zh, zoom. simpl. by rewrite set_m_h_id. Qed.
Lemma zh_modify f m : zh (modify f) m = Ret tt (set_m_h (f (m_h m)) m).
Proof. done. Qed.
Lemma zh_ret {A} (c : HM A) m a h : c (m_h m) = Ret a h -> zh c m = Ret a (set_m_h h m).
Proof. apply zoom_ret. Qed.
Lemma zk_gets {A} (f : kstate -> A) m : zk (gets f) m = Ret (f (m_k m)) m.
Proof. unfold zk, zoom. simpl. by rewrite set_m_k_id. Qed.
Lemma zk_modify f m : zk (modify f) m = Ret tt (set_m_k (f (m_k m)) m).
Proof. done. Qed.
Lemma zk_ret {A} (c : K A) m a s : c (m_k m) = Ret a s -> zk c m = Ret a (set_m_k s m).
Proof. apply zoom_ret. Qed.
Lemma zk_same {A} (c : K A) m a : c (m_k m) = Ret a (m_k m) -> zk c m = Ret a m.
Proof. intros E. rewrite (zk_ret _ _ _ _ E). by rewrite set_m_k_id. Qed.
Lemma zk_switch {A} (c : K A) m s k : c (m_k m) = Swtch s k ->
  zk c m = Swtch (set_m_k s m) (fun m' => zk (fun _ => k (m_k m')) m').
Proof. unfold zk, zoom. by intros ->. Qed.
Lemma zh_csrr c m : zh (csrr c) m = Ret (h_csr (m_h m) c) m.
Proof. apply zh_gets. Qed.
Lemma zh_csrw c x m : zh (csrw c x) m = Ret tt (set_m_h (set_csr c x (m_h m)) m).
Proof. done. Qed.

(** Link-time addresses: functions, and the string of forkret(). *)
Class Layout := {
  kernelvec : Z;
  trampoline : Z;
  uservec : Z;
  userret : Z;
  usertrap_addr : Z;
  init_path : Z
}.

(** The linker aligns uservec, and functions have addresses. *)
Class LayoutLaws (L : Layout) : Prop := {
  uservec_aligned : (uservec - trampoline) mod 4 = 0;
  usertrap_range : 0 <= usertrap_addr < 2 ^ 64
}.

(** What the memory-mapped registers read, whether the UART can send, and
    the bytes it received. *)
Record devices := mkDevices { dev_read : Z -> Z; tx_idle : bool; rx : list Z }.
Definition virtio_regs (dv : devices) (r : Z) : Z := dev_read dv (VIRTIO0 + r).

Definition io_write (a x : Z) : MM unit := modify (fun m => set_m_io ((a, x) :: m_io m) m).

(** ** uart.c, console.c: initialisation (locks start out free) *)
Definition IER : Z := 1.
Definition IER_RX_ENABLE : Z := Z.shiftl 1 0.
Definition IER_TX_ENABLE : Z := Z.shiftl 1 1.
Definition FCR : Z := 2.
Definition FCR_FIFO_ENABLE : Z := Z.shiftl 1 0.
Definition FCR_FIFO_CLEAR : Z := Z.shiftl 3 1.
Definition LCR : Z := 3.
Definition LCR_EIGHT_BITS : Z := Z.shiftl 3 0.
Definition LCR_BAUD_LATCH : Z := Z.shiftl 1 7.
Definition Reg (reg : Z) : Z := UART0 + reg.
Definition WriteReg (reg v : Z) : MM unit := io_write (Reg reg) (u8 v).

Definition uartinit : MM unit :=
  WriteReg IER 0x00;;
  WriteReg LCR LCR_BAUD_LATCH;;
  WriteReg 0 0x03;;
  WriteReg 1 0x00;;
  WriteReg LCR LCR_EIGHT_BITS;;
  WriteReg FCR (Z.lor FCR_FIFO_ENABLE FCR_FIFO_CLEAR);;
  WriteReg IER (Z.lor IER_TX_ENABLE IER_RX_ENABLE).

Definition consoleinit : MM unit :=
  uartinit;;
  zk (modify (fun s => set_k_devsw (<[Z.to_nat CONSOLE := Some DevConsole]> (k_devsw s)) s)).

(** ** proc.c: cpuid() *)
Definition cpuid : MM Z := x ← zh r_tp; mret (s32 x).

(** ** plic.c *)
Definition plicinit : MM unit :=
  io_write (PLIC + UART0_IRQ * 4) 1;;
  io_write (PLIC + VIRTIO0_IRQ * 4) 1.

Definition plicinithart : MM unit :=
  hart ← cpuid;
  io_write (PLIC_SENABLE hart) (Z.lor (Z.shiftl 1 UART0_IRQ) (Z.shiftl 1 VIRTIO0_IRQ));;
  io_write (PLIC_SPRIORITY hart) 0.

Definition plic_claim (dv : devices) : MM Z :=
  hart ← cpuid; mret (s32 (dev_read dv (PLIC_SCLAIM hart))).

Definition plic_complete (irq : Z) : MM unit :=
  hart ← cpuid; io_write (PLIC_SCLAIM hart) (u32 irq).

Section traps.
  Context `{Isa} `{Layout}.

(** ** trap.c *)
Definition trapinithart : MM unit := zh (w_stvec kernelvec).

Definition clockintr : MM unit :=
  id ← cpuid;
  (if id =? 0 then zk clock_tick else mret tt);;
  x ← zh r_time;
  zh (w_stimecmp (u64 (x + 1000000))).

Definition SCAUSE_EXTERNAL : Z := 0x8000000000000009.
Definition SCAUSE_TIMER : Z := 0x8000000000000005.

Definition devintr (dv : devices) : MM Z :=
  scause ← zh r_scause;
  if scause =? SCAUSE_EXTERNAL then
    irq ← plic_claim dv;
    (if irq =? UART0_IRQ then zk (uartintr (tx_idle dv) (rx dv))
     else if irq =? VIRTIO0_IRQ then zv (virtio_disk_intr (virtio_regs dv))
     else if negb (irq =? 0) then zk (printf "unexpected interrupt irq=%d" [irq])
     else mret tt);;
    (if negb (irq =? 0) then plic_complete irq else mret tt);;
    mret 1
  else if scause =? SCAUSE_TIMER then clockintr;; mret 2
  else mret 0.

Definition prepare_return : MM unit :=
  p ← zk myproc;
  zh intr_off;;
  let trampoline_uservec := TRAMPOLINE + (uservec - trampoline) in
  zh (w_stvec trampoline_uservec);;
  x ← zh r_satp;
  zk (tf_store TF_KERNEL_SATP x);;
  pp ← zk (get_proc p);
  zk (tf_store TF_KERNEL_SP (p_kstack pp + PGSIZE));;
  zk (tf_store TF_KERNEL_TRAP usertrap_addr);;
  x ← zh r_tp;
  zk (tf_store TF_KERNEL_HARTID x);;
  x ← zh r_sstatus;
  let x := Z.ldiff x SSTATUS_SPP in
  let x := Z.lor x SSTATUS_SPIE in
  zh (w_sstatus x);;
  epc ← zk (tf_load TF_EPC);
  zh (w_sepc epc).

(** The page-fault branch of usertrap(). *)
Definition user_fault (p : nat) (scause va : Z) : K unit :=
  if KERNBASE <=? va then setkilled p
  else
    pp ← get_proc p;
    c ← (if scause =? 15 then cowfault (p_pagetable pp) va else mret (-1));
    if c =? 0 then mret tt else
    v ← vmfault (p_pagetable pp) va (scause =? 13);
    if v =? 0 then setkilled p else mret tt.

Definition usertrap (dv : devices) : MM Z :=
  x ← zh r_sstatus;
  if negb (Z.land x SSTATUS_SPP =? 0) then panic "usertrap: not from user mode" else
  zh (w_stvec kernelvec);;
  p ← zk myproc;
  x ← zh r_sepc;
  zk (tf_store TF_EPC x);;
  scause ← zh r_scause;
  which_dev ←
    (if scause =? 8 then
       k ← zk (killed p);
       (if k : bool then zk (kexit (-1)) else mret tt);;
       epc ← zk (tf_load TF_EPC);
       zk (tf_store TF_EPC (u64 (epc + 4)));;
       zh intr_on;;
       zk syscall;;
       mret 0
     else
       d ← devintr dv;
       if negb (d =? 0) then mret d else
       (if (scause =? 15) || (scause =? 13) || (scause =? 12) then
          va ← zh r_stval; zk (user_fault p scause va)
        else
          pp ← zk (get_proc p);
          zk (printf "usertrap(): unexpected scause" [scause; p_pid pp]);;
          sepc ← zh r_sepc;
          stval ← zh r_stval;
          zk (printf "            sepc stval" [sepc; stval]);;
          zk (setkilled p));;
       mret 0);
  k ← zk (killed p);
  (if k : bool then zk (kexit (-1)) else mret tt);;
  (if which_dev =? 2 then zk yield else mret tt);;
  prepare_return;;
  pp ← zk (get_proc p);
  mret (MAKE_SATP (p_pagetable pp)).

Definition kerneltrap (dv : devices) : MM unit :=
  sepc ← zh r_sepc;
  sstatus ← zh r_sstatus;
  scause ← zh r_scause;
  if Z.land sstatus SSTATUS_SPP =? 0 then panic "kerneltrap: not from supervisor mode" else
  i ← zh intr_get;
  if i : bool then panic "kerneltrap: interrupts enabled" else
  which_dev ← devintr dv;
  if which_dev =? 0 then
    stval ← zh r_stval;
    zk (printf "scause sepc stval" [scause; sepc; stval]);; panic "kerneltrap" else
  c ← zk (gets k_cur);
  (if (which_dev =? 2) && bool_decide (is_Some c) then zk yield else mret tt);;
  zh (w_sepc sepc);;
  zh (w_sstatus sstatus).

(** A trap from the kernel: kernelvec keeps the caller-saved registers on the
    kernel stack around the call, which is not modelled. *)
Definition kernel_trap (cause tval : Z) (dv : devices) : MM unit :=
  zh (trap cause tval);; kerneltrap dv;; zh sret.

(** ** trampoline.S *)

(** Address translation of a load or store by the supervisor: Sv39 with
    4096-byte pages the supervisor may read and write, or none. *)
Definition table_at (mem : gmap Z Z) (t level va : Z) : option Z :=
  let pte := load64 mem (pte_addr t level va) in
  if has pte PTE_V then Some (PTE2PA pte) else None.

Definition translate (mem : gmap Z Z) (satp va : Z) : option Z :=
  if Z.shiftr satp 60 =? 0 then Some va else
  if (0 <=? va) && (va <? MAXVA) then
    t1 ← table_at mem (Z.shiftl (Z.land satp (Z.ones 44)) 12) 2 va;
    t0 ← table_at mem t1 1 va;
    let pte := load64 mem (pte_addr t0 0 va) in
    if has pte PTE_V && has pte PTE_R && has pte PTE_W && negb (has pte PTE_U)
    then Some (PTE2PA pte + va mod PGSIZE) else None
  else None.

Definition reg (r : nat) : MM Z := gets (fun m => h_x (m_h m) !!! r).
Definition set_reg (r : nat) (x : Z) : MM unit := zh (modify (set_h_x r x)).

(** The physical address of offset [off] from register [rb]; the model has
    no traps inside the trampoline. *)
Definition address (off : Z) (rb : nat) : MM Z :=
  base ← reg rb;
  m ← gets (fun m => m);
  deref (translate (k_mem (m_k m)) (h_csr (m_h m) Satp) (u64 (base + off))).

Definition sd (rs : nat) (off : Z) (rb : nat) : MM unit :=
  a ← address off rb; x ← reg rs;
  zk (modify (fun s => set_k_mem (store64 (k_mem s) a x) s)).

Definition ld (rd : nat) (off : Z) (rb : nat) : MM unit :=
  a ← address off rb; s ← zk (gets k_mem); set_reg rd (load64 s a).

Definition RA : nat := 1.
Definition SP : nat := 2.
Definition T0 : nat := 5.
Definition T1 : nat := 6.
Definition A0 : nat := 10.

(** The registers uservec saves before it touches t0, in its order, each
    with its offset in struct trapframe. *)
Definition saved_regs : list (nat * Z) :=
  [(1%nat, 40); (2%nat, 48); (3%nat, 56); (4%nat, 64); (5%nat, 72); (6%nat, 80); (7%nat, 88); (8%nat, 96); (9%nat, 104);
   (11%nat, 120); (12%nat, 128); (13%nat, 136); (14%nat, 144); (15%nat, 152); (16%nat, 160); (17%nat, 168);
   (18%nat, 176); (19%nat, 184); (20%nat, 192); (21%nat, 200); (22%nat, 208); (23%nat, 216); (24%nat, 224); (25%nat, 232); (26%nat, 240); (27%nat, 248);
   (28%nat, 256); (29%nat, 264); (30%nat, 272); (31%nat, 280)].

(** uservec: the user registers go to the trapframe; then the kernel's stack
    pointer, hart number, trap handler and page table come from it. *)
Definition uservec_save : MM unit :=
  x ← reg A0; zh (csrw Sscratch x);;
  set_reg A0 TRAPFRAME;;
  foreach saved_regs (fun '(r, off) => sd r off A0);;
  x ← zh (csrr Sscratch); set_reg T0 x;;
  sd T0 112 A0.

Definition uservec_enter : MM unit :=
  ld SP 8 A0;;
  ld TP 32 A0;;
  ld T0 16 A0;;
  ld T1 0 A0;;
  x ← reg T1; zh (csrw Satp x);;
  x ← reg T0; set_reg RA (TRAMPOLINE + (userret - trampoline));; zh (modify (set_h_pc x)).

Definition uservec_code : MM unit := uservec_save;; uservec_enter.

(** userret, with the value of a0. *)
Definition userret_code (satp : Z) : MM unit :=
  zh (csrw Satp satp);;
  set_reg A0 TRAPFRAME;;
  foreach saved_regs (fun '(r, off) => ld r off A0);;
  ld A0 112 A0;;
  zh sret.

(** [c] is the code at address [a]: that is where the hart must be. *)
Definition code_at {A} (a : Z) (c : MM A) : MM A :=
  pc ← zh (gets h_pc); if pc =? a then c else undefined.

(** A trap from user space, from the interrupted instruction to the return. *)
Definition user_enter (cause tval : Z) : MM unit :=
  zh (trap cause tval);;
  code_at (TRAMPOLINE + (uservec - trampoline)) uservec_code.

Definition user_trap (cause tval : Z) (dv : devices) : MM unit :=
  user_enter cause tval;;
  satp ← code_at usertrap_addr (usertrap dv);
  userret_code satp.

(** ** proc.c: forkret(), the first thing a new process runs *)
Definition forkret : MM unit :=
  p ← zk myproc;
  zk (release (LProc p));;
  first ← gets m_first;
  (if first : bool then
     zk (fsinit ROOTDEV);;
     modify (set_m_first false);;
     r ← zk (kexec (cstr "/init") [init_path]);
     zk (tf_store TF_A0 (u64 r));;
     a0 ← zk (tf_load TF_A0);
     if a0 =? u64 (-1) then panic "exec" else mret tt
   else mret tt);;
  prepare_return;;
  pp ← zk (get_proc p);
  userret_code (MAKE_SATP (p_pagetable pp)).

(** ** main.c *)

Definition kvminithart : MM unit := t ← zk (gets k_kpgtbl); zh (w_satp (MAKE_SATP t)).

Definition main_first (dv : devices) : MM unit :=
  consoleinit;;
  zk (printf "" []);;
  zk (printf "xv6 kernel is booting" []);;
  zk (printf "" []);;
  zk kinit;;
  zk kvminit;;
  kvminithart;;
  zk procinit;;
  trapinithart;;
  plicinit;;
  plicinithart;;
  zk binit;;
  zk iinit;;
  zv (virtio_disk_init (virtio_regs dv));;
  zk userinit;;
  modify (set_m_started true).

(** A hart that waits for hart 0: at most [fuel] looks at started. *)
Definition main_other (fuel : nat) : MM unit :=
  loop fuel (fun _ : unit =>
    b ← gets m_started;
    if b : bool then mret (inr tt) else fun m => Swtch m (fun m' => Ret (inl tt) m')) tt;;
  id ← cpuid;
  zk (printf "hart %d starting" [id]);;
  kvminithart;;
  trapinithart;;
  plicinithart.

(** scheduler(): [rounds] rounds of its endless loop. *)
Definition scheduler (rounds : nat) : MM unit :=
  zk (modify (set_k_cur None));;
  foreach (seq 0 rounds) (fun _ =>
    zh intr_on;;
    zh intr_off;;
    zk (scheduler_iter;; mret tt)).

Definition main (fuel rounds : nat) (dv : devices) : MM unit :=
  id ← cpuid;
  (if id =? 0 then main_first dv else main_other fuel);;
  scheduler rounds.

End traps.
