(* ===== verification/Preempt.v ===== *)
(** * Traps from user space return to where they came from

    The trapframe page of a process is mapped in its page table, so uservec
    can save the user registers there and userret load them back; between
    them usertrap() may give the CPU away.  [preemption_transparent] puts the
    pieces of Trap.v together for a timer interrupt. *)

From S2P Require Import Prelude State CString Usercopy Pages Vm Cow Aspace Spinlock Kalloc Sysargs Proc ReadyQueue Sleeping PipeQueue Bio Virtio Lifecycle Syscall Sched Hart Trap.

(** ** The trapframe page *)

Record tf_mapped (pt : Z) (T : tree) (tf : Z) (s : kstate) : Prop := {
  tm_table : ptable pt T s;
  tm_page : is_page s tf;
  tm_apart x : in_page tf x -> ~ in_tree T x;
  tm_valid : has (entry T s TRAPFRAME) PTE_V = true;
  tm_read : has (entry T s TRAPFRAME) PTE_R = true;
  tm_write : has (entry T s TRAPFRAME) PTE_W = true;
  tm_kernel : has (entry T s TRAPFRAME) PTE_U = false;
  tm_target : PTE2PA (entry T s TRAPFRAME) = tf
}.

Lemma tf_mapped_frame pt T tf s s' :
  tf_mapped pt T tf s -> k_end s' = k_end s -> (forall x, ~ in_page tf x -> k_mem s' !!! x = k_mem s !!! x) -> tf_mapped pt T tf s'.
Proof.
  intros [Ht Hp Ha Hv Hr Hw Hu Hpa] He Hm.
  assert (Hm' : forall x, in_tree T x -> k_mem s' !!! x = k_mem s !!! x) by (intros x Hx; apply Hm; intros Hi; by apply (Ha x)).
  constructor; rewrite ?(entry_frame T s s') by done; try done.
  - by eapply ptable_frame.
  - unfold is_page. by rewrite He.
Qed.

Lemma PX_trapframe level off : 0 <= level <= 2 -> 0 <= off < PGSIZE -> PX level (TRAPFRAME + off) = PX level TRAPFRAME.
Proof.
  intros Hl Ho. rewrite !PX_eq by lia. unfold TRAPFRAME, TRAMPOLINE, MAXVA, PGSIZE in *.
  set (t := 2 ^ 38 - 4096 - 4096). change (2 ^ 38 - 4096 - 4096) with ((2 ^ 26 - 2) * 4096) in t.
  replace (2 ^ (12 + 9 * level)) with (4096 * 2 ^ (9 * level)) by (by rewrite Z.pow_add_r by lia).
  rewrite <- !Z.div_div by lia. subst t. rewrite (Z.add_comm _ off), Z.div_add, (Z.div_small off), Z.div_mul by lia. done.
Qed.

(** MAKE_SATP selects Sv39 and names the root page. *)
Lemma satp_mode pt : 0 <= pt < 2 ^ 56 -> Z.shiftr (MAKE_SATP pt) 60 = 8.
Proof.
  intros Hp. unfold MAKE_SATP, SATP_SV39. rewrite Z.shiftr_lor, Z.shiftr_shiftl_l by lia.
  rewrite Z.shiftr_shiftr, (Z.shiftr_div_pow2 pt), Z.div_small by lia. done.
Qed.

Lemma satp_root pt : pt mod PGSIZE = 0 -> 0 <= pt < 2 ^ 56 -> Z.shiftl (Z.land (MAKE_SATP pt) (Z.ones 44)) 12 = pt.
Proof.
  intros Ha Hp. unfold MAKE_SATP, SATP_SV39. rewrite Z.land_lor_distr_l. change (Z.land (Z.shiftl 8 60) (Z.ones 44)) with 0.
  rewrite Z.lor_0_l, Z.land_ones, Z.shiftr_div_pow2, Z.shiftl_mul_pow2 by lia.
  rewrite Z.mod_small by (split; [apply Z.div_pos; lia|apply Z.div_lt_upper_bound; lia]).
  pose proof (Z.div_mod pt 4096 ltac:(lia)). unfold PGSIZE in Ha. change (2 ^ 12) with 4096. lia.
Qed.

Lemma translate_trapframe pt T tf s off :
  tf_mapped pt T tf s -> 0 <= off < PGSIZE -> translate (k_mem s) (MAKE_SATP pt) (TRAPFRAME + off) = Some (tf + off).
Proof.
  intros [Ht Hp Ha Hv Hr Hw Hu Hpa] Ho. pose proof (pt_root _ _ _ Ht) as Hroot.
  pose proof (pt_page _ _ _ Ht _ _ Hroot) as [Hal Hb]. pose proof (pt_end _ _ _ Ht) as He.
  assert (Hpt : 0 <= pt < 2 ^ 56) by (unfold PHYSTOP, KERNBASE in *; lia).
  assert (Hva : (0 <=? TRAPFRAME + off) && (TRAPFRAME + off <? MAXVA) = true).
  { apply andb_true_iff. unfold TRAPFRAME, TRAMPOLINE, MAXVA, PGSIZE in *. split; [apply Z.leb_le|apply Z.ltb_lt]; lia. }
  unfold translate. rewrite satp_mode, satp_root, Hva by done. simpl (8 =? 0).
  unfold entry, entry_at in *. destruct (T !! [PX 1 TRAPFRAME; PX 2 TRAPFRAME]) as [t0|] eqn:H0; [|done].
  pose proof H0 as (_ & _ & [t1 H1])%(pt_up _ _ _ Ht).
  pose proof (pt_down _ _ _ Ht [] pt _ Hroot ltac:(simpl; lia) (PX_bounds 2 TRAPFRAME ltac:(lia))) as D2. rewrite H1 in D2. destruct D2 as [V2 P2].
  pose proof (pt_down _ _ _ Ht _ t1 _ H1 ltac:(simpl; lia) (PX_bounds 1 TRAPFRAME ltac:(lia))) as D1. rewrite H0 in D1. destruct D1 as [V1 P1].
  unfold table_at, pte_addr in *. rewrite !PX_trapframe by lia. rewrite V2. simpl. rewrite P2, V1. simpl. rewrite P1. simpl in *.
  rewrite Hv, Hr, Hw, Hu. simpl. rewrite Hpa. do 2 f_equal.
  unfold TRAPFRAME, TRAMPOLINE, MAXVA, PGSIZE in *. rewrite <- Z.add_mod_idemp_l by lia.
  change ((2 ^ 38 - 4096 - 4096) mod 4096) with 0. by rewrite Z.mod_small.
Qed.

(** ** Saving and restoring registers *)

Definition set_h_regs (x : list Z) (h : hart) : hart := mkHart (h_mode h) (h_pc h) x (h_csr h).

(** Memory after the registers of [l] were stored, registers after they were
    loaded. *)
Definition saves (x : list Z) (tf : Z) (l : list (nat * Z)) (mem : gmap Z Z) : gmap Z Z :=
  foldl (fun mem '(r, off) => store64 mem (tf + off) (x !!! r)) mem l.
Definition loads (mem : gmap Z Z) (tf : Z) (l : list (nat * Z)) (x : list Z) : list Z :=
  foldl (fun x '(r, off) => <[r := load64 mem (tf + off)]> x) x l.

Definition tf_slot (off : Z) : Prop := 0 <= off /\ off + 8 <= PGSIZE /\ off mod 8 = 0.
#[export] Instance tf_slot_dec off : Decision (tf_slot off).
Proof. unfold tf_slot. apply _. Defined.

(** Hart in the trampoline: the user page table, a0 at the trapframe. *)
Record in_tramp (pt : Z) (T : tree) (tf : Z) (m : mach) : Prop := {
  it_map : tf_mapped pt T tf (m_k m);
  it_satp : h_csr (m_h m) Satp = MAKE_SATP pt;
  it_a0 : h_x (m_h m) !!! A0 = TRAPFRAME
}.

Definition set_m_mem (x : gmap Z Z) (m : mach) : mach := set_m_k (set_k_mem x (m_k m)) m.

Lemma set_mem_mem x y m : set_m_mem x (set_m_mem y m) = set_m_mem x m.
Proof. done. Qed.

Lemma store_off_page mem tf off v x : 0 <= off -> off + 8 <= PGSIZE -> ~ in_page tf x -> store64 mem (tf + off) v !!! x = mem !!! x.
Proof. intros Ho Hb Hx. apply store64_other. unfold in_page in Hx. lia. Qed.

Lemma slot_align tf off : tf mod PGSIZE = 0 -> off mod 8 = 0 -> (tf + off) mod 8 = 0.
Proof.
  intros Htf Hz. apply Z.mod_divide in Htf as [k ->]; [|done]. apply Z.mod_divide in Hz as [j ->]; [|done]. unfold PGSIZE.
  replace (k * 4096 + j * 8) with ((k * 512 + j) * 8) by lia. by apply Z.mod_mul.
Qed.

Lemma slot_other mem tf off off' v : tf mod PGSIZE = 0 -> tf_slot off -> tf_slot off' -> off' <> off ->
  load64 (store64 mem (tf + off) v) (tf + off') = load64 mem (tf + off').
Proof. intros Htf (_ & _ & H1) (_ & _ & H2) Hne. apply load64_store64_ne; [by apply slot_align..|lia]. Qed.

Lemma saves_cons x tf r off l mem : saves x tf ((r, off) :: l) mem = saves x tf l (store64 mem (tf + off) (x !!! r)).
Proof. done. Qed.

Lemma loads_cons mem tf r off l x : loads mem tf ((r, off) :: l) x = loads mem tf l (<[r := load64 mem (tf + off)]> x).
Proof. done. Qed.

Lemma saves_outside x tf l mem a : Forall (fun ro => tf_slot ro.2) l -> ~ in_page tf a -> saves x tf l mem !!! a = mem !!! a.
Proof.
  intros Hl Ha. revert mem. induction Hl as [|[r off] l (H1 & H2 & _) _ IH]; intros mem; [done|]. rewrite saves_cons, IH.
  by apply store_off_page.
Qed.

Lemma saves_other x tf l mem off : tf mod PGSIZE = 0 -> Forall (fun ro => tf_slot ro.2) l -> tf_slot off -> off ∉ l.*2 ->
  load64 (saves x tf l mem) (tf + off) = load64 mem (tf + off).
Proof.
  intros Htf Hl Hoff. revert mem. induction Hl as [|[r o] l Ho _ IH]; intros mem Hn; [done|].
  apply not_elem_of_cons in Hn as [Hne Hn]. rewrite saves_cons, IH by done. by apply slot_other.
Qed.

Lemma saves_load x tf l mem r off : tf mod PGSIZE = 0 -> Forall (fun ro => tf_slot ro.2) l -> NoDup (l.*2) -> (r, off) ∈ l ->
  load64 (saves x tf l mem) (tf + off) = u64 (x !!! r).
Proof.
  intros Htf Hl. revert mem. induction Hl as [|[r' o] l Ho Hl IH]; intros mem Hnd Hin; [by apply not_elem_of_nil in Hin|].
  apply NoDup_cons in Hnd as [Hn Hnd]. apply elem_of_cons in Hin as [[= -> ->]|Hin]; [|rewrite saves_cons; by apply IH].
  rewrite saves_cons, saves_other by done. apply load64_store64_same.
Qed.

Lemma length_loads mem tf l x : length (loads mem tf l x) = length x.
Proof. revert x. induction l as [|[r off] l IH]; intros x; [done|]. by rewrite loads_cons, IH, length_insert. Qed.

Lemma loads_other mem tf l x r : r ∉ l.*1 -> loads mem tf l x !!! r = x !!! r.
Proof.
  revert x. induction l as [|[r' off] l IH]; intros x Hn; [done|]. apply not_elem_of_cons in Hn as [Hne Hn].
  rewrite loads_cons, IH by done. by apply list_lookup_total_insert_ne.
Qed.

Lemma loads_load mem tf l x r off : NoDup (l.*1) -> (r, off) ∈ l -> (r < length x)%nat -> loads mem tf l x !!! r = load64 mem (tf + off).
Proof.
  revert x. induction l as [|[r' o] l IH]; intros x Hnd Hin Hr; [by apply not_elem_of_nil in Hin|].
  apply NoDup_cons in Hnd as [Hn Hnd]. rewrite loads_cons.
  apply elem_of_cons in Hin as [[= -> ->]|Hin]; [|apply IH; rewrite ?length_insert; done].
  rewrite loads_other by done. by apply list_lookup_total_insert_eq.
Qed.

(** [zred] runs register accesses of the machine. *)
Ltac zred := repeat (progress (unfold reg, set_reg; mred; rewrite ?zh_csrr, ?zh_csrw, ?zh_modify)).

Section trampoline.
  Context `{Isa} `{Layout} (pt : Z) (T : tree) (tf : Z).

Lemma address_tf m off : in_tramp pt T tf m -> tf_slot off -> address off A0 m = Ret (tf + off) m.
Proof.
  intros [Hm Hs Ha] (H1 & H2 & _). unfold address, reg. mred. rewrite Ha, Hs.
  unfold u64. rewrite Z.mod_small by (unfold TRAPFRAME, TRAMPOLINE, MAXVA, PGSIZE in *; lia).
  by rewrite (translate_trapframe pt T tf) by (done || lia).
Qed.

Lemma sd_eq m r off : in_tramp pt T tf m -> tf_slot off ->
  sd r off A0 m = Ret tt (set_m_mem (store64 (k_mem (m_k m)) (tf + off) (h_x (m_h m) !!! r)) m).
Proof. intros Hm Ho. unfold sd. mred. by rewrite address_tf. Qed.

Lemma ld_eq m r off : in_tramp pt T tf m -> tf_slot off ->
  ld r off A0 m = Ret tt (set_m_h (set_h_x r (load64 (k_mem (m_k m)) (tf + off)) (m_h m)) m).
Proof. intros Hm Ho. unfold ld. mred. rewrite address_tf by done. mred. by destruct m as [[] ? ? ? ? ?]. Qed.

Lemma in_tramp_mem m mem : in_tramp pt T tf m -> (forall x, ~ in_page tf x -> mem !!! x = k_mem (m_k m) !!! x) -> in_tramp pt T tf (set_m_mem mem m).
Proof. intros [Hm Hs Ha] Hmem. constructor; try done. by eapply tf_mapped_frame. Qed.

Lemma in_tramp_reg m r v : in_tramp pt T tf m -> r <> A0 -> in_tramp pt T tf (set_m_h (set_h_x r v (m_h m)) m).
Proof. intros [Hm Hs Ha] Hne. constructor; try done. cbn. by rewrite list_lookup_total_insert_ne. Qed.

Lemma save_loop l m : in_tramp pt T tf m -> Forall (fun ro => tf_slot ro.2) l ->
  foreach l (fun '(r, off) => sd r off A0) m = Ret tt (set_m_mem (saves (h_x (m_h m)) tf l (k_mem (m_k m))) m).
Proof.
  intros Hm Hl. revert m Hm. induction Hl as [|[r off] l Ho _ IH]; intros m Hm; [by destruct m as [[] ? ? ? ? ?]|].
  cbn [foreach]. unfold mbind, M_bind. rewrite sd_eq by done. cbn [obind]. rewrite IH; [done|].
  apply in_tramp_mem; [done|]. intros x Hx. destruct Ho as (? & ? & _). by apply store_off_page.
Qed.

Lemma load_loop l m : in_tramp pt T tf m -> Forall (fun ro => tf_slot ro.2 /\ ro.1 <> A0) l ->
  foreach l (fun '(r, off) => ld r off A0) m =
  Ret tt (set_m_h (set_h_regs (loads (k_mem (m_k m)) tf l (h_x (m_h m))) (m_h m)) m).
Proof.
  intros Hm Hl. revert m Hm. induction Hl as [|[r off] l [Ho Hne] _ IH]; intros m Hm; [by destruct m as [? ? [] ? ? ?]|].
  cbn [foreach]. unfold mbind, M_bind. rewrite ld_eq by done. cbn [obind]. rewrite IH; [done|].
  destruct Hm as [H1 H2 H3]. constructor; try done. cbn. by rewrite list_lookup_total_insert_ne.
Qed.

(** The user registers [x] are in the trapframe. *)
Record saved_in (x : list Z) (mem : gmap Z Z) : Prop := {
  si_regs r off : (r, off) ∈ saved_regs -> load64 mem (tf + off) = u64 (x !!! r);
  si_a0 : load64 mem (tf + 112) = u64 (x !!! A0)
}.

(** The slots the kernel keeps for itself. *)
Definition kernel_slot (off : Z) : Prop := off ∈ [0; 8; 16; 24; 32].

Lemma saved_slots : Forall (fun ro => tf_slot ro.2) saved_regs.
Proof. apply (bool_decide_unpack _). by vm_compute. Qed.
Lemma saved_slots_a0 : Forall (fun ro => tf_slot ro.2 /\ ro.1 <> A0) saved_regs.
Proof. apply (bool_decide_unpack _). by vm_compute. Qed.
Lemma saved_regs_nodup : NoDup (saved_regs.*1).
Proof. apply (bool_decide_unpack _). by vm_compute. Qed.
Lemma saved_offs_nodup : NoDup (saved_regs.*2).
Proof. apply (bool_decide_unpack _). by vm_compute. Qed.
Lemma saved_all r : (1 <= r < 32)%nat -> r <> A0 -> exists off, (r, off) ∈ saved_regs.
Proof.
  intros Hr Hne. exists (32 + 8 * Z.of_nat r).
  assert (Hall : Forall (fun r => r = A0 \/ (r, 32 + 8 * Z.of_nat r) ∈ saved_regs) (seq 1 31)).
  { apply (bool_decide_unpack _). by vm_compute. }
  rewrite Forall_forall in Hall. destruct (Hall r) as [?|?]; [apply elem_of_seq; lia|done|done].
Qed.
Lemma kernel_slot_ok off : kernel_slot off -> tf_slot off /\ off ∉ saved_regs.*2 /\ off <> 112.
Proof.
  assert (Hall : Forall (fun off => tf_slot off /\ off ∉ saved_regs.*2 /\ off <> 112) [0; 8; 16; 24; 32]).
  { apply (bool_decide_unpack _). by vm_compute. }
  rewrite Forall_forall in Hall. apply Hall.
Qed.
Lemma a0_slot : tf_slot 112 /\ 112 ∉ saved_regs.*2.
Proof. apply (bool_decide_unpack _). by vm_compute. Qed.

Lemma saved_in_store x mem off v : tf mod PGSIZE = 0 -> kernel_slot off -> saved_in x mem -> saved_in x (store64 mem (tf + off) v).
Proof.
  intros Htf (Hs & Hn & Ha)%kernel_slot_ok [H1 H2]. constructor.
  - intros r o Hro. rewrite slot_other; [by apply H1|done|done| |].
    + pose proof saved_slots as Hf. rewrite Forall_forall in Hf. by apply (Hf (r, o)).
    + intros ->. apply Hn. apply list_elem_of_fmap. by exists (r, off).
  - rewrite slot_other by (done || apply a0_slot). done.
Qed.

(** Memory after uservec's stores. *)
Definition saved_mem (x : list Z) (mem : gmap Z Z) : gmap Z Z :=
  store64 (saves (<[A0 := TRAPFRAME]> x) tf saved_regs mem) (tf + 112) (x !!! A0).

Lemma saved_mem_regs x mem : tf mod PGSIZE = 0 -> saved_in x (saved_mem x mem).
Proof.
  intros Htf. unfold saved_mem. destruct a0_slot as [Ha Hn]. constructor; [|apply load64_store64_same].
  intros r off Hro. pose proof saved_slots_a0 as Hf. rewrite Forall_forall in Hf. destruct (Hf _ Hro) as [Hs Hne]. cbn [fst snd] in Hs, Hne.
  rewrite slot_other; [|done..|intros ->; apply Hn, list_elem_of_fmap; by exists (r, 112)].
  rewrite (saves_load _ _ _ _ r) by (done || apply saved_slots || apply saved_offs_nodup). by rewrite list_lookup_total_insert_ne.
Qed.

Lemma saved_mem_outside x mem a : ~ in_page tf a -> saved_mem x mem !!! a = mem !!! a.
Proof. intros Ha. unfold saved_mem. rewrite store_off_page by done. apply saves_outside; [apply saved_slots|done]. Qed.

Lemma saved_mem_kernel x mem off : tf mod PGSIZE = 0 -> kernel_slot off -> load64 (saved_mem x mem) (tf + off) = load64 mem (tf + off).
Proof.
  intros Htf (Hs & Hn & Ha)%kernel_slot_ok. unfold saved_mem. rewrite slot_other by (done || apply a0_slot).
  apply saves_other; try done. apply saved_slots.
Qed.

Lemma uservec_save_spec m : tf_mapped pt T tf (m_k m) -> h_csr (m_h m) Satp = MAKE_SATP pt -> length (h_x (m_h m)) = 32%nat ->
  returns (uservec_save m) (fun _ m' => exists h, m' = set_m_h h (set_m_mem (saved_mem (h_x (m_h m)) (k_mem (m_k m))) m) /\
    in_tramp pt T tf m' /\ length (h_x h) = 32%nat /\ h_mode h = h_mode (m_h m) /\
    (forall c, c <> Sscratch -> h_csr h c = h_csr (m_h m) c)).
Proof.
  intros Hm Hs Hl. unfold uservec_save. zred. set (m1 := set_m_h (set_h_x A0 _ _) _).
  assert (I1 : in_tramp pt T tf m1).
  { constructor; [done|cbn; by rewrite fn_lookup_insert_ne|cbn; rewrite list_lookup_total_insert_eq by (rewrite Hl; unfold A0; lia); done]. }
  rewrite save_loop by (done || apply saved_slots). zred.
  set (mem1 := saves _ _ _ _). assert (I2 : in_tramp pt T tf (set_m_mem mem1 m1)).
  { apply in_tramp_mem; [done|]. intros a Ha. apply saves_outside; [apply saved_slots|done]. }
  set (m2 := set_m_h (set_h_x T0 _ _) _). assert (I3 : in_tramp pt T tf m2) by (by apply in_tramp_reg).
  rewrite sd_eq by (done || apply a0_slot). cbn [returns]. set (mem := store64 _ _ _).
  assert (E : mem = saved_mem (h_x (m_h m)) (k_mem (m_k m))).
  { unfold mem, saved_mem. f_equal. cbn. rewrite list_lookup_total_insert_eq by (rewrite length_insert, Hl; unfold T0; lia). by rewrite fn_lookup_insert. }
  assert (I4 : in_tramp pt T tf (set_m_mem mem m2)) by (apply in_tramp_mem; [done|]; intros a Ha; by apply store_off_page).
  exists (m_h m2). rewrite <- E. split_and!; [done|done|cbn; by rewrite !length_insert|done|]. intros c Hc. cbn. by rewrite fn_lookup_insert_ne.
Qed.

Lemma uservec_enter_spec m : in_tramp pt T tf m -> length (h_x (m_h m)) = 32%nat ->
  returns (uservec_enter m) (fun _ m' => exists h, m' = set_m_h h m /\ h_mode h = h_mode (m_h m) /\
    let mem := k_mem (m_k m) in h_pc h = load64 mem (tf + TF_KERNEL_TRAP) /\
    h_csr h Satp = load64 mem (tf + TF_KERNEL_SATP) /\ h_x h !!! TP = load64 mem (tf + TF_KERNEL_HARTID) /\
    (forall c, c <> Satp -> h_csr h c = h_csr (m_h m) c)).
Proof.
  intros I4 Hl. unfold uservec_enter. zred.
  do 3 (rewrite ld_eq by (done || by apply (bool_decide_unpack _)); zred; match goal with |- context [ld _ _ _ ?m'] => assert (in_tramp pt T tf m') by (by apply in_tramp_reg) end).
  rewrite ld_eq by (done || by apply (bool_decide_unpack _)). zred. cbn [returns]. eexists. split; [done|]. split; [done|]. cbn [k_mem m_k set_m_h].
  unfold TF_KERNEL_TRAP, TF_KERNEL_SATP, TF_KERNEL_HARTID. destruct m as [k d h io st fi]. cbn [m_k m_h set_m_h set_h_pc set_h_x set_csr h_x h_csr h_pc h_mode] in *.
  unfold RA, T0, T1, SP, TP, A0. split_and!.
  - repeat first [rewrite list_lookup_total_insert_eq by (rewrite ?length_insert, Hl; lia) | rewrite list_lookup_total_insert_ne by done]. done.
  - rewrite fn_lookup_insert. rewrite list_lookup_total_insert_eq by (rewrite !length_insert, Hl; lia). done.
  - repeat first [rewrite list_lookup_total_insert_eq by (rewrite ?length_insert, Hl; lia) | rewrite list_lookup_total_insert_ne by done]. done.
  - intros c Hc. by rewrite fn_lookup_insert_ne.
Qed.

(** uservec saves the 31 registers, touches nothing but the trapframe page
    and leaves the kernel's words there alone; it continues at the address in
    kernel_trap with the page table in kernel_satp. *)
Lemma uservec_spec m : tf_mapped pt T tf (m_k m) -> h_csr (m_h m) Satp = MAKE_SATP pt -> length (h_x (m_h m)) = 32%nat ->
  returns (uservec_code m) (fun _ m' => exists mem h, m' = set_m_h h (set_m_mem mem m) /\
    saved_in (h_x (m_h m)) mem /\ (forall a, ~ in_page tf a -> mem !!! a = k_mem (m_k m) !!! a) /\
    (forall off, kernel_slot off -> load64 mem (tf + off) = load64 (k_mem (m_k m)) (tf + off)) /\
    h_mode h = h_mode (m_h m) /\ h_pc h = load64 mem (tf + TF_KERNEL_TRAP) /\
    h_csr h Satp = load64 mem (tf + TF_KERNEL_SATP) /\ h_x h !!! TP = load64 mem (tf + TF_KERNEL_HARTID) /\
    (forall c, c <> Satp -> c <> Sscratch -> h_csr h c = h_csr (m_h m) c)).
Proof.
  intros Hm Hs Hl. assert (Htf : tf mod PGSIZE = 0) by apply (tm_page _ _ _ _ Hm). unfold uservec_code.
  mspec uservec_save_spec; [done..|]. cbn beta. intros _ m1 (h1 & -> & I1 & Hl1 & Hmode1 & Hc1).
  eapply returns_mono; [by apply uservec_enter_spec|]. cbn beta. intros _ m2 (h2 & -> & Hmode2 & Hpc & Hsatp & Htp & Hc2).
  exists (saved_mem (h_x (m_h m)) (k_mem (m_k m))), h2. split_and!; try done.
  - by apply saved_mem_regs.
  - intros a Ha. by apply saved_mem_outside.
  - intros off Ho. by apply saved_mem_kernel.
  - by rewrite Hmode2.
  - intros c H1 H2. rewrite Hc2 by done. by apply Hc1.
Qed.

(** General registers: 32 of them, the first is zero, 64 bits each. *)
Record regs_ok (x : list Z) : Prop := {
  ro_length : length x = 32%nat;
  ro_zero : x !!! 0%nat = 0;
  ro_width : Forall (fun v => 0 <= v < 2 ^ 64) x
}.

(** Loading the saved registers gives them all back. *)
Lemma loads_saved x y mem : regs_ok x -> regs_ok y -> saved_in x mem ->
  <[A0 := load64 mem (tf + 112)]> (loads mem tf saved_regs (<[A0 := TRAPFRAME]> y)) = x.
Proof.
  intros [Hl Hz Hw] [Hly Hzy _] [Hr Ha].
  assert (Hu : forall r, (r < 32)%nat -> u64 (x !!! r) = x !!! r).
  { intros r Hr32. apply Z.mod_small. rewrite Forall_forall in Hw. apply Hw. apply list_elem_of_lookup_total_2. lia. }
  apply list_eq_same_length with 32%nat; [done|by rewrite length_insert, length_loads, length_insert|].
  intros r v w Hr32 H1 H2. apply list_lookup_total_correct in H1, H2. subst v w.
  destruct (decide (r = A0)) as [->|Hne].
  - rewrite list_lookup_total_insert_eq by (rewrite length_loads, length_insert, Hly; unfold A0; lia). by rewrite Ha, Hu.
  - rewrite list_lookup_total_insert_ne by done. destruct (decide (r = 0%nat)) as [->|Hn0].
    + rewrite loads_other by (apply (bool_decide_unpack _); by vm_compute). rewrite list_lookup_total_insert_ne by done. congruence.
    + destruct (saved_all r) as [off Hro]; [lia|done|].
      rewrite (loads_load _ _ _ _ r off) by (done || apply saved_regs_nodup || rewrite length_insert; lia). by rewrite (Hr r off Hro), Hu.
Qed.

Lemma sret_eq h : exists h', sret h = Ret tt h' /\ h_x h' = h_x h /\ h_pc h' = h_csr h Sepc /\
  h_mode h' = (if bit h Mstatus 8 then MSupervisor else MUser) /\ bit h' Mstatus 1 = bit h Mstatus 5 /\
  (forall c, c <> Mstatus -> h_csr h' c = h_csr h c).
Proof.
  eexists. split; [unfold sret, csrw; mred; reflexivity|]. split_and!; try done.
  - unfold bit. csr. by rewrite put_bit_testbit, decide_True by done.
  - intros c Hc. csr. done.
Qed.

(** userret gives back the saved registers and continues at sepc, in the mode
    of SPP. *)
Lemma userret_spec m x : tf_mapped pt T tf (m_k m) -> regs_ok (h_x (m_h m)) -> regs_ok x -> saved_in x (k_mem (m_k m)) ->
  returns (userret_code (MAKE_SATP pt) m) (fun _ m' => exists h, m' = set_m_h h m /\ h_x h = x /\ h_pc h = h_csr (m_h m) Sepc /\
    h_mode h = (if bit (m_h m) Mstatus 8 then MSupervisor else MUser) /\ h_csr h Satp = MAKE_SATP pt /\
    bit h Mstatus 1 = bit (m_h m) Mstatus 5 /\ (forall c, c <> Satp -> c <> Mstatus -> h_csr h c = h_csr (m_h m) c)).
Proof.
  intros Hm Hy Hx Hsi. unfold userret_code. zred. set (m1 := set_m_h (set_h_x A0 _ _) _).
  assert (I1 : in_tramp pt T tf m1).
  { constructor; [done|cbn; by rewrite fn_lookup_insert|cbn; rewrite list_lookup_total_insert_eq by (rewrite (ro_length _ Hy); unfold A0; lia); done]. }
  rewrite load_loop by (done || apply saved_slots_a0). mred. set (m2 := set_m_h (set_h_regs _ _) _).
  assert (I2 : in_tramp pt T tf m2).
  { destruct I1 as [J1 J2 J3]. constructor; try done. unfold m2. cbn [m_h set_m_h h_x set_h_regs]. by rewrite loads_other by (apply (bool_decide_unpack _); by vm_compute). }
  rewrite ld_eq by (done || apply a0_slot). mred. set (m3 := set_m_h _ _).
  destruct (sret_eq (m_h m3)) as (h & E & Ex & Epc & Emode & Esie & Ec). rewrite (zh_ret _ _ _ _ E). cbn [returns].
  exists h. split; [done|]. rewrite Ex, Epc, Emode, Esie, (Ec Satp) by done. split_and!; try done.
  - cbn [m3 m2 m1 h_x set_h_x set_m_h m_h m_k set_h_regs set_csr]. by apply loads_saved.
  - intros c H1 H2. rewrite Ec by done. cbn. by rewrite fn_lookup_insert_ne.
Qed.

(** ** prepare_return() *)

Lemma zk_tf_store m p pp off x : k_cur (m_k m) = Some p -> k_procs (m_k m) !! p = Some pp -> p_trapframe pp = tf ->
  zk (tf_store off x) m = Ret tt (set_m_mem (store64 (k_mem (m_k m)) (tf + off) x) m).
Proof.
  intros Hc Hp Htf. apply zk_ret. unfold tf_store, myproc. mred. rewrite Hc. mred. rewrite (get_proc_eq _ _ _ Hp). mred. by rewrite Htf.
Qed.

Lemma zk_tf_load m p pp off : k_cur (m_k m) = Some p -> k_procs (m_k m) !! p = Some pp -> p_trapframe pp = tf ->
  zk (tf_load off) m = Ret (load64 (k_mem (m_k m)) (tf + off)) m.
Proof.
  intros Hc Hp Htf. apply zk_same. unfold tf_load, myproc. mred. rewrite Hc. mred. rewrite (get_proc_eq _ _ _ Hp). mred. by rewrite Htf.
Qed.

Lemma zk_myproc m p : k_cur (m_k m) = Some p -> zk myproc m = Ret p m.
Proof. intros Hc. apply zk_same. unfold myproc. mred. by rewrite Hc. Qed.

Lemma zk_get_proc m p pp : k_procs (m_k m) !! p = Some pp -> zk (get_proc p) m = Ret pp m.
Proof. intros Hp. apply zk_same. by apply get_proc_eq. Qed.

(** The trapframe is ready for the next trap: the page table, kernel stack,
    handler and hart number the kernel needs are in it. *)
Record kernel_words (satp kstack hartid : Z) (mem : gmap Z Z) : Prop := {
  kw_satp : load64 mem (tf + TF_KERNEL_SATP) = u64 satp;
  kw_sp : load64 mem (tf + TF_KERNEL_SP) = u64 (kstack + PGSIZE);
  kw_trap : load64 mem (tf + TF_KERNEL_TRAP) = u64 usertrap_addr;
  kw_hartid : load64 mem (tf + TF_KERNEL_HARTID) = u64 hartid
}.

Definition words_mem (satp kstack hartid : Z) (mem : gmap Z Z) : gmap Z Z :=
  store64 (store64 (store64 (store64 mem (tf + TF_KERNEL_SATP) satp) (tf + TF_KERNEL_SP) (kstack + PGSIZE))
    (tf + TF_KERNEL_TRAP) usertrap_addr) (tf + TF_KERNEL_HARTID) hartid.

Lemma words_mem_ok satp kstack hartid mem : tf mod PGSIZE = 0 -> kernel_words satp kstack hartid (words_mem satp kstack hartid mem).
Proof.
  intros Htf. constructor; unfold words_mem, TF_KERNEL_SATP, TF_KERNEL_SP, TF_KERNEL_TRAP, TF_KERNEL_HARTID;
    repeat (rewrite slot_other by (done || by apply (bool_decide_unpack _))); apply load64_store64_same.
Qed.

Lemma words_mem_epc satp kstack hartid mem : tf mod PGSIZE = 0 -> load64 (words_mem satp kstack hartid mem) (tf + TF_EPC) = load64 mem (tf + TF_EPC).
Proof.
  intros Htf. unfold words_mem, TF_KERNEL_SATP, TF_KERNEL_SP, TF_KERNEL_TRAP, TF_KERNEL_HARTID, TF_EPC.
  by repeat (rewrite slot_other by (done || by apply (bool_decide_unpack _))).
Qed.

Lemma words_mem_saved x satp kstack hartid mem : tf mod PGSIZE = 0 -> saved_in x mem -> saved_in x (words_mem satp kstack hartid mem).
Proof. intros Htf Hs. unfold words_mem. repeat (apply saved_in_store; [done|by apply (bool_decide_unpack _)|]). done. Qed.

Lemma words_mem_outside satp kstack hartid mem a : ~ in_page tf a -> words_mem satp kstack hartid mem !!! a = mem !!! a.
Proof. intros Ha. unfold words_mem. by rewrite !store_off_page by done. Qed.

Lemma prepare_return_spec m p pp : IsaLaws _ -> k_cur (m_k m) = Some p -> k_procs (m_k m) !! p = Some pp -> p_trapframe pp = tf -> tf mod PGSIZE = 0 ->
  returns (prepare_return m) (fun _ m' => exists h,
    m' = set_m_h h (set_m_mem (words_mem (h_csr (m_h m) Satp) (p_kstack pp) (h_x (m_h m) !!! TP) (k_mem (m_k m))) m) /\
    h_x h = h_x (m_h m) /\ h_csr h Stvec = TRAMPOLINE + (uservec - trampoline) /\ h_csr h Sepc = load64 (k_mem (m_k m)) (tf + TF_EPC) /\
    bit h Mstatus 8 = false /\ bit h Mstatus 5 = true /\ bit h Mstatus 1 = false).
Proof.
  intros Laws Hc Hp Htf Hal. unfold prepare_return. mred. rewrite (zk_myproc _ _ Hc). mred. rewrite (zh_ret _ _ _ _ (intr_off_eq _)). mred.
  unfold w_stvec. rewrite zh_csrw. mred. unfold r_satp. rewrite zh_csrr. mred. rewrite (zk_tf_store _ p pp) by done. mred.
  rewrite (zk_get_proc _ _ pp) by done. mred. do 2 (rewrite (zk_tf_store _ p pp) by done; mred). unfold r_tp. rewrite zh_gets. mred.
  rewrite (zk_tf_store _ p pp) by done. mred. rewrite (zh_ret _ _ _ _ (r_sstatus_eq _)). mred. rewrite (zh_ret _ _ _ _ (w_sstatus_eq _ _)). mred.
  rewrite (zk_tf_load _ p pp) by done. mred. unfold w_sepc. rewrite zh_csrw. cbn [returns]. eexists. split; [reflexivity|].
  destruct m as [k d h io st fi]. cbn [m_h m_k set_m_h set_m_k set_m_mem]. cbn [m_h m_k] in *. split_and!; [done|by csr| | | |].
  - csr. exact (words_mem_epc _ _ _ _ Hal).
  - unfold bit. csr. rewrite merge_testbit, sees_spp, Z.lor_spec, Z.ldiff_spec by done. rewrite andb_false_r. done.
  - unfold bit. csr. rewrite merge_testbit, sees_spie, Z.lor_spec by done. apply orb_true_r.
  - unfold bit. csr. rewrite merge_testbit, sees_sie, Z.lor_spec, Z.ldiff_spec, Z.land_spec, merge_testbit, sees_sie, Z.ldiff_spec by done.
    by rewrite andb_false_r.
Qed.

End trampoline.

(** ** A timer interrupt in user mode *)

Section preempt.
  Context `{I : Isa} `{L : Layout} (Laws : IsaLaws I).

(** The hart runs process [p] in user mode. *)
Record user_mode (p : nat) (pp : proc) (T : tree) (m : mach) : Prop := {
  um_cur : k_cur (m_k m) = Some p;
  um_proc : k_procs (m_k m) !! p = Some pp;
  um_map : tf_mapped (p_pagetable pp) T (p_trapframe pp) (m_k m);
  um_mode : h_mode (m_h m) = MUser;
  um_satp : h_csr (m_h m) Satp = MAKE_SATP (p_pagetable pp);
  um_stvec : h_csr (m_h m) Stvec = TRAMPOLINE + (uservec - trampoline);
  um_trap : load64 (k_mem (m_k m)) (p_trapframe pp + TF_KERNEL_TRAP) = u64 usertrap_addr;
  um_regs : regs_ok (h_x (m_h m));
  um_pc : 0 <= h_pc (m_h m) < 2 ^ 64
}.

(** What a process finds when the scheduler of some hart switches back to it:
    it is current and holds its lock, and nobody has touched its trapframe,
    nor what its page table makes of it. *)
Record resumed (p : nat) (pp : proc) (pp' : proc) (T : tree) (m m' : mach) : Prop := {
  rs_cur : k_cur (m_k m') = Some p;
  rs_held : k_held (m_k m') = [LProc p];
  rs_proc : k_procs (m_k m') !! p = Some pp';
  rs_tf : p_trapframe pp' = p_trapframe pp;
  rs_pt : p_pagetable pp' = p_pagetable pp;
  rs_map : tf_mapped (p_pagetable pp) T (p_trapframe pp) (m_k m');
  rs_mem a : in_page (p_trapframe pp) a -> k_mem (m_k m') !!! a = k_mem (m_k m) !!! a;
  rs_regs : regs_ok (h_x (m_h m'))
}.

(** clockintr() on either kind of hart: only the clock, sleepers and the
    next timer interrupt are affected. *)
Definition clocked (m m' : mach) : Prop :=
  exists s h, m' = set_m_h h (set_m_k s m) /\ sched_ok s /\ k_mem s = k_mem (m_k m) /\
    k_cur s = k_cur (m_k m) /\ (forall p, k_cur s = Some p -> k_procs s !! p = k_procs (m_k m) !! p) /\
    (forall c, c <> Stimecmp -> h_csr h c = h_csr (m_h m) c) /\ h_x h = h_x (m_h m).

Lemma clockintr_spec m : sched_ok (m_k m) -> returns (clockintr m) (fun _ m' => clocked m m').
Proof using Type.
  intros Hok. unfold clockintr, cpuid, r_tp, r_time, w_stimecmp. mred. rewrite zh_gets. mred.
  assert (Htick : returns ((if s32 (h_x (m_h m) !!! TP) =? 0 then zk clock_tick else mret tt) m) (fun _ m' => exists s, m' = set_m_k s m /\
    sched_ok s /\ k_mem s = k_mem (m_k m) /\ k_cur s = k_cur (m_k m) /\ forall p, k_cur s = Some p -> k_procs s !! p = k_procs (m_k m) !! p)).
  { destruct (_ =? 0).
    - destruct (returns_inv _ _ (clock_tick_spec _ Hok)) as ([] & s & E & Hs & Hm & Hc & Hp). rewrite (zk_ret _ _ _ _ E). exists s.
      split_and!; try done. intros p Hp0. apply Hp. congruence.
    - exists (m_k m). split_and!; try done. by rewrite set_m_k_id. }
  apply returns_obind. eapply returns_mono; [exact Htick|]. cbn beta. intros _ m1 (s & -> & Hs). mred. rewrite zh_csrr. mred. rewrite zh_csrw. cbn [returns].
  eexists s, _. split; [done|]. destruct Hs as (? & ? & ? & ?). split_and!; try done. intros c Hc. cbn. by rewrite fn_lookup_insert_ne.
Qed.

Lemma devintr_timer m dv : sched_ok (m_k m) -> h_csr (m_h m) Scause = SCAUSE_TIMER ->
  returns (devintr dv m) (fun d m' => d = 2 /\ clocked m m').
Proof using Type.
  intros Hok Hcause. unfold devintr, r_scause. mred. rewrite zh_csrr. mred. rewrite Hcause. change (SCAUSE_TIMER =? SCAUSE_EXTERNAL) with false.
  change (SCAUSE_TIMER =? SCAUSE_TIMER) with true. mspec clockintr_spec; [done|]. cbn beta. by intros _ m' Hm'.
Qed.

(** usertrap() for a timer interrupt: the process is made runnable and the
    CPU given up, with traps going to the kernel's vector; when it is resumed
    the trapframe and the control registers are made ready for the return. *)
Lemma usertrap_timer p pp m dv :
  sched_ok (m_k m) -> k_cur (m_k m) = Some p -> k_procs (m_k m) !! p = Some pp -> p_killed pp = false ->
  p_trapframe pp mod PGSIZE = 0 -> bit (m_h m) Mstatus 8 = false -> h_csr (m_h m) Scause = SCAUSE_TIMER ->
  exists m1 k q, usertrap dv m = Swtch m1 k /\ sched_ok (to_scheduler (m_k m1)) /\
    k_procs (m_k m1) !! p = Some q /\ p_state q = RUNNABLE /\ h_csr (m_h m1) Stvec = kernelvec /\
    k_mem (m_k m1) = store64 (k_mem (m_k m)) (p_trapframe pp + TF_EPC) (h_csr (m_h m) Sepc) /\
    forall pp' T m2, resumed p pp pp' T m1 m2 -> returns (k m2) (fun r m3 => r = MAKE_SATP (p_pagetable pp) /\ exists h,
      let mem := words_mem (p_trapframe pp) (h_csr (m_h m2) Satp) (p_kstack pp') (h_x (m_h m2) !!! TP) (k_mem (m_k m2)) in
      m3 = set_m_h h (set_m_mem mem (set_m_k (set_k_held [] (m_k m2)) m2)) /\ h_x h = h_x (m_h m2) /\
      h_csr h Stvec = TRAMPOLINE + (uservec - trampoline) /\ h_csr h Sepc = load64 (k_mem (m_k m2)) (p_trapframe pp + TF_EPC) /\
      bit h Mstatus 8 = false /\ bit h Mstatus 5 = true).
Proof using Type*.
  intros Hok Hc Hp Halive Htf Hspp Hcause. unfold usertrap. mred. rewrite (zh_ret _ _ _ _ (r_sstatus_eq _)), set_m_h_id. mred.
  unfold SSTATUS_SPP. rewrite flag_testbit, Z.land_spec by done. unfold bit in Hspp. rewrite Hspp. cbn [andb]. mred.
  unfold w_stvec. rewrite zh_csrw. mred. rewrite (zk_myproc _ p) by done. mred. unfold r_sepc. rewrite zh_csrr. mred.
  rewrite (zk_tf_store (p_trapframe pp) _ p pp) by done. mred. unfold r_scause. rewrite zh_csrr. mred.
  set (m1 := set_m_mem _ _).
  change (h_csr (m_h m1) Scause) with (h_csr (m_h m) Scause). rewrite Hcause. change (SCAUSE_TIMER =? 8) with false. mred.
  assert (Hok1 : sched_ok (m_k m1)) by (by eapply sched_ok_ext).
  destruct (returns_inv _ _ (devintr_timer m1 dv Hok1 Hcause)) as (d & m2 & E & -> & s & h & -> & Hs & Hm & Hcs & Hps & Hcsr & Hx). rewrite E. mred.
  change (negb (2 =? 0)) with true. mred. specialize (Hps p ltac:(by rewrite Hcs)). change (m_k m1) with (set_k_mem (k_mem (m_k m1)) (m_k m)) in Hps, Hcs. cbn in Hps, Hcs. rewrite Hp in Hps. rewrite Hc in Hcs.
  destruct (sched_ok_running s p pp Hs Hcs Hps) as [Hrun _].
  rewrite (zk_same _ _ (p_killed pp)) by (apply (killed_eq p pp []); [done|set_solver]). mred. rewrite Halive. mred. change (2 =? 2) with true. mred.
  destruct (yield_switches s p Hs Hcs) as (s1 & q & Ey & Hs1 & Hm1 & Hq & Hst). rewrite (zk_switch _ (set_m_h h (set_m_k s m1)) _ _ Ey). mred.
  eexists _, _, q. split; [reflexivity|]. split_and!; try done.
  - change (h_csr h Stvec = kernelvec). rewrite Hcsr by done. cbn. by rewrite fn_lookup_insert.
  - cbn. rewrite Hm1, Hm. done.
  - intros pp' T m3 [Rc Rh Rp Rtf Rpt Rmap _ Rregs]. cbn beta. rewrite (zk_ret _ m3 tt (set_k_held [] (m_k m3))) by (apply release_eq; [done|set_solver]). mred.
    set (m4 := set_m_k _ _). apply returns_obind. eapply returns_mono; [by eapply (prepare_return_spec (p_trapframe pp) m4 p pp' Laws)|]. cbn beta.
    intros _ m5 (h5 & -> & H1 & H2 & H3 & H4 & H5 & H6). mred. rewrite (zk_get_proc _ p pp') by done. mred. cbn [returns]. rewrite Rpt. split; [done|].
    by exists h5.
Qed.
Lemma code_at_eq {A} a (c : MM A) m : h_pc (m_h m) = a -> code_at a c m = c m.
Proof using Type. intros E. unfold code_at. mred. rewrite zh_gets. mred. by rewrite E, Z.eqb_refl. Qed.

Lemma trap_vector_direct stvec cause : stvec mod 4 = 0 -> trap_vector stvec cause = stvec.
Proof using Type.
  intros Hs. assert (Hz : Z.land stvec 3 = 0) by (change 3 with (Z.ones 2); by rewrite Z.land_ones).
  unfold trap_vector. rewrite Hz. simpl. pose proof (Z.lor_ldiff_and stvec 3) as E. by rewrite Hz, Z.lor_0_r in E.
Qed.

Context (LLaws : LayoutLaws L).

Lemma uservec_direct cause : trap_vector (TRAMPOLINE + (uservec - trampoline)) cause = TRAMPOLINE + (uservec - trampoline).
Proof using LLaws.
  apply trap_vector_direct. rewrite Z.add_mod, uservec_aligned by done. done.
Qed.

(** The trapframe's words as memory that only agrees on its page. *)
Lemma tf_load_agree tf mem mem' off : tf_slot off -> (forall a, in_page tf a -> mem' !!! a = mem !!! a) ->
  load64 mem' (tf + off) = load64 mem (tf + off).
Proof using Type. intros (H1 & H2 & _) Hm. apply load64_ext. intros a Ha. apply Hm. unfold in_page. lia. Qed.

Lemma saved_in_agree tf x mem mem' : (forall a, in_page tf a -> mem' !!! a = mem !!! a) -> saved_in tf x mem -> saved_in tf x mem'.
Proof using Type.
  intros Hm [H1 H2]. constructor.
  - intros r off Hro. rewrite (tf_load_agree _ mem); [by apply H1| |done]. pose proof saved_slots as Hf. rewrite Forall_forall in Hf. by apply (Hf (r, off)).
  - rewrite (tf_load_agree _ mem); [done|apply a0_slot|done].
Qed.

(** The way in: from user mode to usertrap(), the registers saved. *)
Lemma user_entry p pp T m cause tval : user_mode p pp T m -> let tf := p_trapframe pp in
  returns (user_enter cause tval m) (fun _ m1 => exists mem h,
    m1 = set_m_h h (set_m_mem mem m) /\ h_pc h = usertrap_addr /\ h_csr h Sepc = h_pc (m_h m) /\ h_csr h Scause = cause /\
    bit h Mstatus 8 = false /\ saved_in tf (h_x (m_h m)) mem).
Proof using I L Laws LLaws.
  intros [Uc Up Umap Umode Usatp Ustvec Utrap Uregs Upc] tf. fold tf in Utrap, Umap.
  assert (Htf : tf mod PGSIZE = 0) by apply (tm_page _ _ _ _ Umap). unfold user_enter. mred.
  destruct (trap_eq cause tval (m_h m)) as (h1 & E1 & Hmode1 & Hpc1 & Hx1 & Hsepc1 & Hcause1 & _ & Hspp1 & _ & _ & Hcsr1).
  rewrite (zh_ret _ _ _ _ E1). mred. rewrite code_at_eq by (cbn; by rewrite Hpc1, Ustvec, uservec_direct).
  eapply returns_mono; [apply (uservec_spec (p_pagetable pp) T tf (set_m_h h1 m) Umap)|].
  { cbn. rewrite Hcsr1 by set_solver. done. }
  { cbn. rewrite Hx1. apply Uregs. }
  cbn beta. intros _ m1 (mem & h2 & -> & Hsv & _ & Hker & _ & Hpc2 & _ & _ & Hcsr2). exists mem, h2. split; [done|]. cbn [m_h set_m_h m_k] in *.
  split_and!.
  - rewrite Hpc2, Hker, Utrap by (by apply (bool_decide_unpack _)). apply Z.mod_small, usertrap_range.
  - by rewrite Hcsr2.
  - by rewrite Hcsr2.
  - unfold bit. rewrite Hcsr2 by done. unfold bit in Hspp1. rewrite Hspp1, Umode. done.
  - by rewrite <- Hx1.
Qed.

(** The way out: usertrap() has prepared the return of a process whose
    registers [x] and program counter are in its trapframe. *)
Lemma user_exit p pp pp' T m1 m2 h x pc : resumed p pp pp' T m1 m2 -> regs_ok x -> 0 <= pc < 2 ^ 64 -> let tf := p_trapframe pp in
  let mem := words_mem tf (h_csr (m_h m2) Satp) (p_kstack pp') (h_x (m_h m2) !!! TP) (k_mem (m_k m2)) in
  let m3 := set_m_h h (set_m_mem mem (set_m_k (set_k_held [] (m_k m2)) m2)) in
  saved_in tf x (k_mem (m_k m2)) -> h_x h = h_x (m_h m2) -> h_csr h Stvec = TRAMPOLINE + (uservec - trampoline) ->
  h_csr h Sepc = pc -> bit h Mstatus 8 = false -> bit h Mstatus 5 = true ->
  returns (userret_code (MAKE_SATP (p_pagetable pp)) m3) (fun _ m4 =>
    user_mode p pp' T m4 /\ h_pc (m_h m4) = pc /\ h_x (m_h m4) = x /\ bit (m_h m4) Mstatus 1 = true /\ k_held (m_k m4) = [] /\ k_mem (m_k m4) = mem).
Proof using Type.
  intros [Rc Rh Rp Rtf Rpt Rmap Rmem Rregs] Hx Hpc tf mem m3 Hsv Ehx Hstvec Hsepc Hspp Hspie.
  assert (Htf : tf mod PGSIZE = 0) by apply (tm_page _ _ _ _ Rmap).
  assert (Hmap : tf_mapped (p_pagetable pp) T tf (m_k m3)) by (eapply tf_mapped_frame; [exact Rmap|done|]; intros a Ha; by apply words_mem_outside).
  eapply returns_mono; [apply (userret_spec (p_pagetable pp) T tf m3 x); [done| |done|]|].
  { cbn. by rewrite Ehx. }
  { by apply words_mem_saved. }
  cbn beta. intros _ m4 (h4 & -> & Hx4 & Hpc4 & Hmode4 & Hsatp4 & Hsie4 & Hcsr4). change (m_h m3) with h in *. split_and!; try done; [|change (h_pc h4 = pc); by rewrite Hpc4|change (bit h4 Mstatus 1 = true); by rewrite Hsie4].
  constructor; cbn [m_h m_k set_m_h]; rewrite ?Rtf, ?Rpt; try done.
  - by rewrite Hmode4, Hspp.
  - by rewrite Hcsr4.
  - apply (words_mem_ok tf _ (p_kstack pp') _ _ Htf).
  - by rewrite Hx4.
  - by rewrite Hpc4, Hsepc.
Qed.

(** C5. A timer interrupt in user mode: the process gives up the CPU, runnable,
    and when it is resumed, on whatever hart, it continues in user mode at the
    same instruction with the same registers and page table and interrupts
    enabled, and the trapframe and stvec are ready for the next trap, with
    the number, stack and page table of the kernel on its new hart. *)
Theorem preemption_transparent (p : nat) (pp : proc) (T : tree) (m : mach) (tval : Z) (dv : devices) :
  user_mode p pp T m -> sched_ok (m_k m) -> p_killed pp = false ->
  exists m1 k q, user_trap SCAUSE_TIMER tval dv m = Swtch m1 k /\ sched_ok (to_scheduler (m_k m1)) /\
    k_procs (m_k m1) !! p = Some q /\ p_state q = RUNNABLE /\ h_csr (m_h m1) Stvec = kernelvec /\
    forall pp' T' m2, resumed p pp pp' T' m1 m2 -> returns (k m2) (fun _ m3 =>
      user_mode p pp' T' m3 /\ h_pc (m_h m3) = h_pc (m_h m) /\ h_x (m_h m3) = h_x (m_h m) /\
      bit (m_h m3) Mstatus 1 = true /\ k_held (m_k m3) = [] /\
      kernel_words (p_trapframe pp) (h_csr (m_h m2) Satp) (p_kstack pp') (h_x (m_h m2) !!! TP) (k_mem (m_k m3)) /\
      forall a, ~ in_page (p_trapframe pp) a -> k_mem (m_k m3) !!! a = k_mem (m_k m2) !!! a).
Proof using Type*.
  intros U Hok Halive. set (tf := p_trapframe pp) in *. assert (Htf : tf mod PGSIZE = 0) by apply (tm_page _ _ _ _ (um_map _ _ _ _ U)).
  unfold user_trap. destruct (returns_inv _ _ (user_entry p pp T m SCAUSE_TIMER tval U)) as ([] & m0 & E & mem & h & -> & Hpc & Hsepc & Hcause & Hspp & Hsv).
  mred. rewrite E. mred. rewrite code_at_eq by done.
  destruct (usertrap_timer p pp (set_m_h h (set_m_mem mem m)) dv) as (m1 & k & q & E1 & Hs1 & Hq & Hst & Hstvec & Hmem & Hres); [| |by apply U|done..|].
  { by eapply sched_ok_ext. }
  { apply U. }
  rewrite E1. mred. eexists m1, _, q. split; [reflexivity|]. split_and!; try done. intros pp' T' m2 R. apply returns_obind.
  eapply returns_mono; [by eapply Hres|]. cbn beta. intros r m3 (-> & h3 & -> & Hx3 & Hstvec3 & Hsepc3 & Hspp3 & Hspie3).
  assert (Hsv2 : saved_in tf (h_x (m_h m)) (k_mem (m_k m2))).
  { eapply saved_in_agree; [apply (rs_mem _ _ _ _ _ _ R)|]. rewrite Hmem. apply saved_in_store; [done|by apply (bool_decide_unpack _)|done]. }
  assert (Hpc3 : h_csr h3 Sepc = h_pc (m_h m)).
  { rewrite Hsepc3, (tf_load_agree _ (k_mem (m_k m1))); [|by apply (bool_decide_unpack _)|apply (rs_mem _ _ _ _ _ _ R)].
    rewrite Hmem, load64_store64_same. cbn [m_h set_m_h]. rewrite Hsepc. apply Z.mod_small, (um_pc _ _ _ _ U). }
  eapply returns_mono; [by eapply (user_exit p pp pp' T' m1 m2 h3 (h_x (m_h m)) (h_pc (m_h m)) R (um_regs _ _ _ _ U) (um_pc _ _ _ _ U))|].
  cbn beta. intros _ m4 (Hu & Hpc4 & Hx4 & Hsie4 & Hh4 & Hm4). split_and!; try done; rewrite Hm4.
  - by apply words_mem_ok.
  - intros a Ha. by apply words_mem_outside.
Qed.
(** The first run of a process that fork made: forkret() releases the lock the
    scheduler took and enters user mode with the registers and the program
    counter of the trapframe that kfork() filled. *)
Theorem forkret_enters_user (p : nat) (pp : proc) (T : tree) (m : mach) (x : list Z) (pc : Z) : let tf := p_trapframe pp in
  resumed p pp pp T m m -> m_first m = false -> regs_ok x -> 0 <= pc < 2 ^ 64 ->
  saved_in tf x (k_mem (m_k m)) -> load64 (k_mem (m_k m)) (tf + TF_EPC) = pc ->
  returns (forkret m) (fun _ m' => user_mode p pp T m' /\ h_pc (m_h m') = pc /\ h_x (m_h m') = x /\
    bit (m_h m') Mstatus 1 = true /\ k_held (m_k m') = [] /\
    kernel_words tf (h_csr (m_h m) Satp) (p_kstack pp) (h_x (m_h m) !!! TP) (k_mem (m_k m'))).
Proof using Type*.
  intros tf R Hf Hx Hpc Hsv Hepc. assert (Htf : tf mod PGSIZE = 0) by apply (tm_page _ _ _ _ (rs_map _ _ _ _ _ _ R)).
  unfold forkret. mred. rewrite (zk_myproc _ p) by apply R. mred.
  rewrite (zk_ret _ m tt (set_k_held [] (m_k m))) by (apply release_eq; [apply R|set_solver]). mred. change (m_first (set_m_k _ m)) with (m_first m). rewrite Hf. mred.
  set (m1 := set_m_k _ m). apply returns_obind. eapply returns_mono; [by eapply (prepare_return_spec tf m1 p pp Laws); try apply R|]. cbn beta.
  intros _ m2 (h & -> & H1 & H2 & H3 & H4 & H5 & H6). mred. rewrite (zk_get_proc _ p pp) by apply R. mred.
  eapply returns_mono; [apply (user_exit p pp pp T m m h x pc R Hx Hpc Hsv H1 H2); [by rewrite H3|done|done]|].
  cbn beta. intros _ m4 (Hu & Hpc4 & Hx4 & Hsie4 & Hh4 & Hm4). split_and!; try done. rewrite Hm4. by apply words_mem_ok.
Qed.

(** A hart other than the first, once the first has finished: paging is on
    with the kernel's page table, traps go to kernelvec, and the PLIC will
    send it the interrupts of the UART and the disk. *)
Lemma main_other_ready m fuel : m_started m = true -> (0 < fuel)%nat ->
  returns (main_other fuel m) (fun _ m' => let id := s32 (h_x (m_h m) !!! TP) in
    h_csr (m_h m') Satp = MAKE_SATP (k_kpgtbl (m_k m)) /\ h_csr (m_h m') Stvec = kernelvec /\ h_x (m_h m') = h_x (m_h m) /\
    m_io m' = [(PLIC_SPRIORITY id, 0); (PLIC_SENABLE id, Z.lor (Z.shiftl 1 UART0_IRQ) (Z.shiftl 1 VIRTIO0_IRQ))] ++ m_io m /\
    m_k m' = set_k_out (k_out (m_k m) ++ [("hart %d starting"%string, [id])]) (m_k m)).
Proof using Type.
  intros Hs Hf. destruct fuel as [|fuel]; [lia|]. unfold main_other. cbn [loop]. mred. rewrite Hs. mred.
  unfold cpuid, r_tp. mred. rewrite zh_gets. mred. unfold printf. rewrite zk_modify. mred. unfold kvminithart, w_satp. mred. rewrite zk_gets. mred.
  rewrite zh_csrw. mred. unfold trapinithart, w_stvec. rewrite zh_csrw. mred. unfold plicinithart, cpuid, r_tp, io_write. mred. rewrite zh_gets. mred.
  cbn [returns]. split_and!; try done.
Qed.

End preempt.
