(* ===== verification/Wait.v ===== *)
(** * Waiting for children

    wait(): a child that has exited is collected, with its status, its pid and
    its table entry given back; with children that all still run the caller
    sleeps, and looks again whenever it is woken. *)

From S2P Require Import Prelude State Spinlock CString Usercopy Kalloc Pages Vm Sysargs Proc ReadyQueue Sleeplock Sleeping Lifecycle Sched.

Definition child_of (p : nat) (x : proc) : bool := bool_decide (p_parent x = Some p).
Definition zombie_of (p : nat) (x : proc) : bool := child_of p x && bool_decide (p_state x = ZOMBIE).

(** The entry freeproc leaves. *)
Definition cleared_entry (x : proc) : proc :=
  set_p_state UNUSED (set_p_in_rq false (set_p_start_time 0 (set_p_priority 0 (set_p_deadline 0 (set_p_xstate 0 (set_p_killed false
    (set_p_chan None (set_p_name (<[O := 0]> (p_name x)) (set_p_parent None (set_p_pid 0 (set_p_sz 0 (set_p_pagetable 0 (set_p_trapframe 0 x))))))))))))).

(** What kexit leaves of a process: its address space has been given back,
    its trapframe is a page of its own. *)
Record buried (fl : list Z) (s : kstate) (x : proc) : Prop := {
  bu_pagetable : p_pagetable x = 0;
  bu_page : is_page s (p_trapframe x);
  bu_used : p_trapframe x ∉ fl;
  bu_ref : refcount s (p_trapframe x) = 1
}.

Lemma freeproc_buried fl s c x h :
  free_list fl s -> k_held s = h -> LKmem ∉ h -> LRefcount ∉ h -> k_procs s !! c = Some x -> buried fl s x ->
  returns (freeproc c s) (fun _ s' => k_procs s' = <[c := cleared_entry x]> (k_procs s) /\ free_list (p_trapframe x :: fl) s' /\
    user_same (set_k_procs (k_procs s') s) s').
Proof.
  intros Hf Hh Hn1 Hn2 Hc [B1 B2 B3 B4]. unfold freeproc. mred. rewrite (get_proc_eq _ _ x) by done. mred.
  assert (Hpos : p_trapframe x <> 0) by (destruct B2 as [_ [H _]]; pose proof (fl_end _ _ Hf); unfold KERNBASE in *; lia).
  rewrite (proj2 (Z.eqb_neq _ _) Hpos). apply returns_obind.
  assert (Hu : unlocked s) by (split; by rewrite Hh).
  destruct (kfree_drops_reference fl s (p_trapframe x) Hf Hu) as [Hk _]. eapply returns_mono; [apply Hk; [done|done|lia]|].
  cbn beta. intros _ s1 (_ & (m & f & r & ->) & _ & Hf1 & _ & _). rewrite B4 in Hf1. change (1 =? 1) with true in Hf1. cbn iota in Hf1.
  assert (Hlt := lookup_lt_Some _ _ _ Hc). mred. rewrite (upd_proc_eq _ _ x) by done. mred. rewrite B1. change (0 =? 0) with true. mred.
  unfold clear_entry. mred. upd_entry. cbn [returns]. cbn [k_procs set_k_procs]. rewrite ?list_insert_insert_eq. split_and!; [done| |].
  - destruct Hf1 as [F1 F2 F3 F4 F5]. by constructor.
  - by eexists m, f, r.
Qed.

Section scan.
  Context (p : nat) (addr : Z) (s : kstate) (Hlen : length (k_procs s) = NPROC) (Hheld : k_held s = [LWait]).

(** An entry that is not a child that has exited. *)
Lemma step_over i hk x : k_procs s !! i = Some x -> zombie_of p x = false -> kwait_step p addr (i, hk) s = Ret (inl (S i, hk || child_of p x)) s.
Proof using Type*.
  intros Hi Hz. pose proof (lookup_lt_Some _ _ _ Hi) as Hlt. rewrite Hlen in Hlt. unfold kwait_step.
  rewrite (proj2 (Nat.ltb_lt _ _) Hlt). mred. rewrite (get_proc_eq _ _ x) by done. mred. unfold zombie_of in Hz. fold (child_of p x) in *.
  destruct (child_of p x) eqn:Hc; [|by rewrite orb_false_r]. mred. cbn [andb] in Hz. rewrite acquire_eq by (rewrite Hheld; set_solver). mred.
  rewrite (get_proc_eq _ _ x) by done. mred. rewrite Hz. mred. rewrite Hheld, (release_eq _ _ [LWait]) by (done || set_solver). mred.
  rewrite set_k_held_twice, set_k_held_id, orb_true_r by done. done.
Qed.

Lemma kwait_scan_none n i hk : (i + n = NPROC)%nat -> (forall j x, (i <= j)%nat -> k_procs s !! j = Some x -> zombie_of p x = false) ->
  loop (S n) (kwait_step p addr) (i, hk) s = Ret (inl (hk || existsb (child_of p) (drop i (k_procs s)))) s.
Proof using Type*.
  revert i hk. induction n as [|n IH]; intros i hk Hn Hz.
  - cbn [loop]. mred. unfold kwait_step at 1. rewrite (proj2 (Nat.ltb_ge i NPROC)) by lia. mred.
    rewrite drop_ge by lia. cbn [existsb]. by rewrite orb_false_r.
  - destruct (lookup_lt_is_Some_2 (k_procs s) i ltac:(lia)) as [x Hx]. remember (S n) as n1 eqn:En. cbn [loop]. subst n1. mred.
    rewrite (step_over i hk x) by (done || by apply (Hz i)). mred. rewrite IH by (lia || (intros j y Hj; apply Hz; lia)).
    rewrite (drop_S _ x i) by done. cbn [existsb]. by rewrite orb_assoc.
Qed.

(** The scan up to the first child that has exited. *)
Lemma kwait_scan_first n i hk c x : (i + n = NPROC)%nat -> (i <= c)%nat -> k_procs s !! c = Some x -> zombie_of p x = true ->
  (forall j y, (i <= j < c)%nat -> k_procs s !! j = Some y -> zombie_of p y = false) ->
  exists m hk', loop (S n) (kwait_step p addr) (i, hk) s = loop (S m) (kwait_step p addr) (c, hk') s.
Proof using Type*.
  intros Hn Hle Hc Hz Hj. revert i hk Hn Hle Hj. induction n as [|n IH]; intros i hk Hn Hle Hj.
  { apply lookup_lt_Some in Hc. lia. }
  destruct (decide (i = c)) as [->|Hne]; [eauto|]. destruct (lookup_lt_is_Some_2 (k_procs s) i ltac:(lia)) as [y Hy].
  destruct (IH (S i) (hk || child_of p y)) as (m & hk' & E); [lia|lia|intros j z Hjz; apply Hj; lia|]. exists m, hk'. rewrite <- E.
  remember (S n) as n1 eqn:En. cbn [loop]. subst n1. mred. by rewrite (step_over i hk y) by (done || apply (Hj i); done || lia).
Qed.
End scan.

(** The status of the child is copied to the caller's memory, if it asks. *)
Definition deliver (pp : proc) (addr : Z) (x : proc) : K Z :=
  if addr =? 0 then mret 0 else copyout (p_pagetable pp) addr (le_bytes 4 (p_xstate x)).

Lemma deliver_same pp addr x s e s1 : deliver pp addr x s = Ret e s1 -> user_same s s1.
Proof. unfold deliver. destruct (addr =? 0); [by intros [= <- <-]|apply frames_copyout]. Qed.

(** What is left when child [c], whose entry was [x], has been collected. *)
Definition collected (fl : list Z) (c : nat) (x : proc) (s s' : kstate) : Prop :=
  k_procs s' = <[c := cleared_entry x]> (k_procs s) /\ free_list (p_trapframe x :: fl) s' /\ user_same (set_k_procs (k_procs s') s) s'.

Lemma step_collect p pp addr c x hk s e s1 : running p pp [LWait] s -> k_procs s !! c = Some x -> zombie_of p x = true ->
  deliver pp addr x (set_k_held [LProc c; LWait] s) = Ret e s1 ->
  (e < 0 -> kwait_step p addr (c, hk) s = Ret (inr (inr (-1))) (set_k_held [] s1)) /\
  (0 <= e -> forall fl, free_list fl s1 -> buried fl s1 x ->
    returns (kwait_step p addr (c, hk) s) (fun r s' => r = inr (inr (p_pid x)) /\ collected fl c x (set_k_held [] s) s')).
Proof.
  intros [Hcur Hp Hst Hrq Hh] Hc Hz Hd. pose proof (deliver_same _ _ _ _ _ _ Hd) as (m & f & r & E1).
  unfold zombie_of, child_of in Hz. apply andb_true_iff in Hz as [Hz1 Hz2]. pose proof (lookup_lt_Some _ _ _ Hc) as Hlt.
  unfold kwait_step. rewrite (proj2 (Nat.ltb_lt _ _)) by (by rewrite <- (rqwf_nprocs _ Hrq)). mred.
  rewrite (get_proc_eq _ _ x) by done. mred. rewrite Hz1. mred. rewrite acquire_eq by (rewrite Hh; set_solver). mred.
  rewrite (get_proc_eq _ _ x) by done. mred. rewrite Hz2. mred. rewrite (get_proc_eq _ _ pp) by done. mred. rewrite Hh.
  change (if addr =? 0 then _ else _) with (deliver pp addr x). rewrite Hd. mred. split.
  - intros He. rewrite (proj2 (Z.ltb_lt _ _) He). mred. rewrite E1. rewrite (release_eq _ _ [LWait]) by (done || set_solver). mred.
    rewrite (release_eq _ _ []) by (done || set_solver). done.
  - intros He fl Hf Hb. rewrite (proj2 (Z.ltb_ge _ _) He). mred. apply returns_obind.
    eapply returns_mono; [apply (freeproc_buried fl s1 c x [LProc c; LWait]); [done|by rewrite E1|set_solver|set_solver|by rewrite E1|done]|].
    cbn beta. intros _ s2 (P1 & P2 & (m2 & f2 & r2 & E2)). assert (Hh2 : k_held s2 = [LProc c; LWait]) by (by rewrite E2, E1).
    mred. rewrite (release_eq _ _ [LWait]) by (done || set_solver). mred. rewrite (release_eq _ _ []) by (done || set_solver). cbn [returns].
    split; [done|]. split_and!.
    + cbn [k_procs set_k_held]. rewrite P1, E1. done.
    + destruct P2 as [F1 F2 F3 F4 F5]. by constructor.
    + exists m2, f2, r2. rewrite E2, E1. done.
Qed.

(** The rounds of kwait that are left. *)
Definition waiting (n p : nat) (addr : Z) : K Z := loop n (kwait_round p addr) tt.

(** A round, wait_lock being held: the first child in the table that has
    exited is collected and its pid returned, with -1 and without collecting it
    when its status cannot be delivered; without children, or for a process
    that has been killed, -1 is returned; otherwise the process sleeps on its
    own channel with wait_lock released, and another round follows. *)
Record waits (n p : nat) (pp : proc) (addr : Z) (s : kstate) : Prop := {
  w_zombie c x e s1 : k_procs s !! c = Some x -> zombie_of p x = true ->
    (forall j y, (j < c)%nat -> k_procs s !! j = Some y -> zombie_of p y = false) ->
    deliver pp addr x (set_k_held [LProc c; LWait] s) = Ret e s1 ->
    (e < 0 -> waiting (S n) p addr s = Ret (-1) (set_k_held [] s1)) /\
    (0 <= e -> forall fl, free_list fl s1 -> buried fl s1 x ->
      returns (waiting (S n) p addr s) (fun r s' => r = p_pid x /\ collected fl c x (set_k_held [] s) s'));
  w_none : (forall c x, k_procs s !! c = Some x -> zombie_of p x = false) ->
    if existsb (child_of p) (k_procs s) && negb (p_killed pp) then
      exists k, waiting (S n) p addr s =
        Swtch (set_k_procs (<[p := set_p_state SLEEPING (set_p_chan (Some (ChProc p)) pp)]> (k_procs s)) (set_k_held [LProc p] s)) k /\
        forall s2 pp2, running p pp2 [LProc p] s2 ->
          k s2 = waiting n p addr (set_k_held [LWait] (set_k_procs (<[p := set_p_chan None pp2]> (k_procs s2)) s2))
    else waiting (S n) p addr s = Ret (-1) (set_k_held [] s)
}.

Lemma waiting_S n p addr s :
  waiting (S n) p addr s = (r ← kwait_round p addr tt; match r with inl u => loop n (kwait_round p addr) u | inr v => mret v end) s.
Proof. done. Qed.

Lemma waits_round n p pp addr s : running p pp [LWait] s -> waits n p pp addr s.
Proof.
  intros Hrun. pose proof (run_held _ _ _ _ Hrun) as Hh. pose proof (rqwf_nprocs _ (run_rq _ _ _ _ Hrun)) as Hlen. constructor.
  - intros c x e s1 Hc Hz Hfirst Hd. destruct (kwait_scan_first p addr s Hlen Hh NPROC 0 false c x) as (m & hk & Hscan); [done|lia|done|done|intros j y Hj; apply Hfirst; lia|].
    destruct (step_collect p pp addr c x hk s e s1 Hrun Hc Hz Hd) as [Hneg Hpos]. unfold waiting. cbn [loop]. unfold kwait_round, kwait_scan. mred. rewrite Hscan.
    cbn [loop]. mred. split.
    + intros He. by rewrite Hneg.
    + intros He fl Hf Hb. specialize (Hpos He fl Hf Hb). apply returns_inv in Hpos as (r & s' & -> & -> & Hcol). done.
  - intros Hz. rewrite waiting_S. unfold kwait_round, kwait_scan. mred. rewrite (kwait_scan_none p addr s Hlen Hh NPROC 0 false) by (done || (intros j x _; apply Hz)). mred. rewrite drop_0. cbn [orb].
    destruct (existsb (child_of p) (k_procs s)); cbn [andb].
    + unfold killed. mred. rewrite acquire_eq by (rewrite Hh; set_solver). mred. rewrite (get_proc_eq _ _ pp) by apply Hrun. mred.
      rewrite Hh, (release_eq _ _ [LWait]) by (done || set_solver). mred. rewrite set_k_held_twice, set_k_held_id by done.
      destruct (p_killed pp); cbn [negb].
      * mred. rewrite (release_eq _ _ []) by (done || set_solver). done.
      * mred. destruct (sleep_switches s p pp (ChProc p) LWait Hrun) as (s1 & k & -> & -> & Hk); [done|]. mred. eexists. split; [done|].
        intros s2 pp2 Hrun2. cbv beta. rewrite (Hk s2 pp2 Hrun2). done.
    + mred. rewrite (release_eq _ _ []) by (done || set_solver). done.
Qed.

