(* ===== verification/Exit.v ===== *)
(** * Exiting

    The end of exit(): children pass to init, a parent asleep in wait() is
    woken, the address space is given back, and the process stays behind as a
    zombie that its parent's next look at the table collects. *)

From S2P Require Import Prelude State Spinlock CString Usercopy Kalloc Pages Vm Cow Aspace Uvm Isolation Sysargs Proc ReadyQueue Sleeplock Sleeping Lifecycle Reclaim Sched Wait.

(** What wakeup() may do to an entry. *)
Definition stirred (x x' : proc) : Prop :=
  (p_state x' = p_state x \/ (p_state x = SLEEPING /\ p_state x' = RUNNABLE)) /\
  p_parent x' = p_parent x /\ p_pid x' = p_pid x /\ p_chan x' = p_chan x /\ p_xstate x' = p_xstate x /\
  p_trapframe x' = p_trapframe x /\ p_pagetable x' = p_pagetable x.

Lemma stirred_trans x y z : stirred x y -> stirred y z -> stirred x z.
Proof. unfold stirred. naive_solver congruence. Qed.

(** wakeup(ch) by a running process. *)
Lemma wakeup_stirs s ch p pp h : running p pp h s -> LRq ∉ h -> (forall i, i <> p -> LProc i ∉ h) ->
  returns (wakeup ch s) (fun _ s' => sched_frame s s' /\ running p pp h s' /\
    forall j x, k_procs s !! j = Some x -> exists x', k_procs s' !! j = Some x' /\ stirred x x' /\
      (j <> p -> p_state x = SLEEPING -> p_chan x = Some ch -> p_state x' = RUNNABLE)).
Proof.
  intros Hrun Hq Hl. pose proof (wakeup_running s ch p pp h Hrun Hq Hl) as H1. destruct Hrun as [Hc Hp Hst Hrq Hh]. subst h.
  assert (H2 : returns (wakeup ch s) (fun _ s' => woken s ch NPROC s')) by (apply wakeup_spec; [done..|intros i Hi; apply Hl; congruence]).
  eapply returns_mono; [exact (returns_and _ _ _ H1 H2)|]. cbn beta. intros _ s' [[Hf Hr] [_ Hps _ _]]. split_and!; [done|done|].
  intros j x Hj. rewrite Hps, Hj. cbn [fmap option_fmap option_map]. rewrite decide_True by (rewrite <- (rqwf_nprocs _ Hrq); by eapply lookup_lt_Some).
  eexists. split; [done|]. unfold woken_proc, wakes. destruct (bool_decide (k_cur s = Some j)) eqn:Ecur, (bool_decide (p_state x = SLEEPING)) eqn:Esl,
    (bool_decide (p_chan x = Some ch)) eqn:Ech; cbn [negb andb]; rewrite ?bool_decide_eq_true, ?bool_decide_eq_false in *.
  all: (split; [unfold stirred; destruct (rq_takes s x); naive_solver|]).
  all: intros Hj' ??; try done; try (destruct (rq_takes s x); done); congruence.
Qed.

(** Another entry changes in fields the queue does not look at. *)
Lemma running_other p pp h s j x x' : running p pp h s -> k_procs s !! j = Some x -> j <> p -> rq_key x' = rq_key x ->
  running p pp h (set_k_procs (<[j := x']> (k_procs s)) s).
Proof.
  intros [Hc Hp Hst Hrq Hh] Hj Hne Hk. pose proof (lookup_lt_Some _ _ _ Hj) as Hlt. constructor; try done; cbn [k_procs set_k_procs].
  - by rewrite list_lookup_insert_ne.
  - eapply rq_wf_same_keys; [| |exact Hrq]; [done|]. intros i. cbn [k_procs set_k_procs]. destruct (decide (i = j)) as [->|Hi].
    + rewrite list_lookup_insert_eq, Hj by done. cbn [fmap option_fmap option_map]. by rewrite Hk.
    + by rewrite list_lookup_insert_ne.
Qed.

Lemma stirred_refl x : stirred x x.
Proof. unfold stirred. naive_solver. Qed.

(** Children of [p] below entry [n] have passed to [i]. *)
Definition adopted (p i n j : nat) (x : proc) : proc := if (j <? n)%nat && child_of p x then set_p_parent (Some i) x else x.

Definition reparented (p i n : nat) (s s1 : kstate) : Prop :=
  forall j x, k_procs s !! j = Some x -> exists x1, k_procs s1 !! j = Some x1 /\ stirred (adopted p i n j x) x1.

Lemma reparented_step p i n s s1 s2 : reparented p i n s s1 ->
  (forall j x, k_procs s1 !! j = Some x -> exists x', k_procs s2 !! j = Some x' /\ stirred (if decide (j = n) then adopted p i (S n) n x else x) x') ->
  reparented p i (S n) s s2.
Proof.
  intros H1 H2 j x Hj. destruct (H1 j x Hj) as (x1 & Hx1 & S1). destruct (H2 j x1 Hx1) as (x2 & Hx2 & S2). exists x2. split; [done|].
  unfold adopted in *. destruct (decide (j = n)) as [->|Hne].
  - rewrite Nat.ltb_irrefl in S1. cbn [andb] in S1. rewrite (proj2 (Nat.ltb_lt n (S n))) in S2 |- * by lia. cbn [andb] in *.
    assert (Hch : child_of p x1 = child_of p x) by (unfold child_of; destruct S1 as (_ & -> & _); done). rewrite Hch in S2.
    destruct (child_of p x); [|by eapply stirred_trans]. unfold stirred in *. cbn in *. naive_solver congruence.
  - eapply stirred_trans; [|done]. replace (j <? S n)%nat with (j <? n)%nat; [done|]. apply eq_true_iff_eq. rewrite !Nat.ltb_lt. lia.
Qed.

Lemma reparent_adopts p pp i s : running p pp [LWait] s -> k_initproc s = Some i -> p_parent pp <> Some p ->
  returns (reparent p s) (fun _ s' => sched_frame s s' /\ running p pp [LWait] s' /\ reparented p i NPROC s s').
Proof.
  intros Hrun Hi Hpar. unfold reparent. apply (foreach_seq (fun n s1 => sched_frame s s1 /\ running p pp [LWait] s1 /\ reparented p i n s s1)).
  - split_and!; [by destruct s|done|]. intros j x Hj. exists x. split; [done|]. unfold adopted. rewrite (proj2 (Nat.ltb_ge j 0)) by lia. apply stirred_refl.
  - intros n s1 Hn (Hf & Hr & Hre). pose proof (rqwf_nprocs _ (run_rq _ _ _ _ Hr)) as Hlen. mred.
    destruct (lookup_lt_is_Some_2 (k_procs s1) n ltac:(lia)) as [x Hx]. rewrite (get_proc_eq _ _ x) by done. mred. fold (child_of p x).
    destruct (child_of p x) eqn:Hc; mred.
    + assert (Hnp : n <> p) by (intros ->; rewrite (run_proc _ _ _ _ Hr) in Hx; injection Hx as <-; unfold child_of in Hc; by rewrite bool_decide_eq_true in Hc).
      assert (Hi1 : k_initproc s1 = Some i) by (by rewrite Hf). rewrite Hi1. mred. rewrite (upd_proc_eq _ _ x) by done. mred.
      set (s2 := set_k_procs _ s1). assert (Hr2 : running p pp [LWait] s2) by (by eapply running_other).
      eapply returns_mono; [apply (wakeup_stirs s2 (ChProc i) p pp [LWait] Hr2); [set_solver|set_solver]|]. cbn beta. intros _ s3 (Hf3 & Hr3 & Hst). split_and!.
      * eapply sched_frame_trans; [exact Hf|]. eapply sched_frame_trans; [|exact Hf3]. by destruct s1.
      * done.
      * eapply reparented_step; [exact Hre|]. intros j y Hj. cbn [s2 k_procs set_k_procs] in Hst. destruct (decide (j = n)) as [->|Hne].
        -- rewrite Hx in Hj. injection Hj as <-. destruct (Hst n (set_p_parent (Some i) x)) as (x' & Hx' & S' & _);
             [rewrite list_lookup_insert_eq; [done|by eapply lookup_lt_Some]|]. exists x'. split; [done|]. unfold adopted.
           rewrite (proj2 (Nat.ltb_lt n (S n))), Hc by lia. done.
        -- destruct (Hst j y) as (x' & Hx' & S' & _); [by rewrite list_lookup_insert_ne|]. eauto.
    + cbn [returns]. split_and!; [done|done|]. eapply reparented_step; [exact Hre|]. intros j y Hj. exists y. split; [done|].
      destruct (decide (j = n)) as [->|Hne]; [|apply stirred_refl]. rewrite Hx in Hj. injection Hj as <-. unfold adopted. rewrite Hc, andb_false_r. apply stirred_refl.
Qed.

(** A process [p] at the end of exit(): its parent [q], init [i], its address
    space, and a trapframe of its own. *)
Record exiting (fl : list Z) (T : tree) (p : nat) (pp : proc) (q i : nat) (s : kstate) : Prop := {
  ex_run : running p pp [] s;
  ex_init : k_initproc s = Some i;
  ex_parent : p_parent pp = Some q;
  ex_other : q <> p;
  ex_space : address_space fl (p_pagetable pp) T (p_sz pp) s;
  ex_frame : is_page s (p_trapframe pp) /\ p_trapframe pp ∉ fl;
  ex_frame_own : (forall k, T !! k <> Some (p_trapframe pp)) /\ mappings T s (p_trapframe pp) (p_sz pp) = 0 /\ refcount s (p_trapframe pp) = 1
}.

(** The zombie that stays. *)
Definition zombie (status : Z) (pp : proc) : proc := set_p_state ZOMBIE (set_p_xstate status (set_p_sz 0 (set_p_pagetable 0 pp))).

Lemma address_space_frame fl pt T sz s h ps q : address_space fl pt T sz s -> LKmem ∉ h -> LRefcount ∉ h ->
  address_space fl pt T sz (set_k_procs ps (set_k_rq q (set_k_held h s))).
Proof.
  intros [A1 A2 A3 A4 A5 A6 A7 A8 A9 A10] H1 H2. constructor; try done.
  - by destruct A1.
  - by destruct A2.
  - intros va Hva HV. destruct (A9 va Hva HV). by constructor.
Qed.

(** The last lines of kexit. *)
Lemma exit_sched_switches p pp s status : running p pp [LWait] s ->
  exists k, exit_sched p status s = Swtch (set_k_held [LProc p] (set_k_procs (<[p := set_p_state ZOMBIE (set_p_xstate status pp)]> (k_procs s)) s)) k /\
    forall s2, k s2 = Panic "zombie exit".
Proof.
  intros Hrun. pose proof (run_held _ _ _ _ Hrun) as Hh. pose proof (run_proc _ _ _ _ Hrun) as Hp. assert (Hlt := lookup_lt_Some _ _ _ Hp).
  unfold exit_sched. mred. rewrite acquire_eq by (rewrite Hh; set_solver). mred. rewrite Hh.
  rewrite (get_proc_eq _ p pp) by done. mred. rewrite bool_decide_eq_false_2 by (rewrite (run_state _ _ _ _ Hrun); done). mred.
  rewrite (upd_proc_eq _ p pp) by done. mred. rewrite (upd_proc_eq _ p (set_p_xstate status pp)) by (simpl; by rewrite list_lookup_insert_eq). mred.
  rewrite release_in by (simpl; set_solver). mred. cbn [k_held set_k_held set_k_procs]. rewrite filter_cons_True, filter_cons_False, filter_nil by naive_solver.
  cbn [k_procs set_k_held set_k_procs]. rewrite list_insert_insert_eq.
  erewrite (sched_switches _ p (set_p_state ZOMBIE (set_p_xstate status pp)));
    [|by apply Hrun|cbn [k_procs set_k_procs set_k_held]; by rewrite list_lookup_insert_eq|done|done].
  eexists. split; [done|]. done.
Qed.

