(* ===== verification/Ulib.v ===== *)
(** * The C library of the user programs (user/ulib.c)

    A pointer into an array is the list of the bytes from it on; reading past
    the end is [None].  memmove and memcpy work on byte memory. *)

From S2P Require Import Prelude CString.

(** strcpy(s, t): the array at [s] afterwards. *)
Fixpoint strcpy (s t : list Z) : option (list Z) :=
  match s, t with
  | _ :: s', c :: t' => if c =? 0 then Some (0 :: s') else r ← strcpy s' t'; Some (c :: r)
  | _, _ => None
  end.

Fixpoint strcmp (p q : list Z) : option Z :=
  match p, q with
  | a :: p', b :: q' => if negb (a =? 0) && (a =? b) then strcmp p' q' else Some (a - b)
  | _, _ => None
  end.

Fixpoint strlen (s : list Z) : option Z :=
  match s with
  | [] => None
  | c :: s' => if c =? 0 then Some 0 else n ← strlen s'; Some (n + 1)
  end.

Definition memset (dst : list Z) (c n : Z) : option (list Z) :=
  if n <=? Z.of_nat (length dst) then Some (replicate (Z.to_nat n) (u8 c) ++ drop (Z.to_nat n) dst) else None.

(** strchr(s, c): the offset from [s], [None] inside for the null pointer. *)
Fixpoint strchr (s : list Z) (c : Z) : option (option nat) :=
  match s with
  | [] => None
  | x :: s' => if x =? 0 then Some None else if x =? c then Some (Some O)
               else option_map (option_map S) (strchr s' c)
  end.

(** gets(buf, max) on the bytes read(0, &c, 1) delivers one by one; the bytes
    stored and what is left of the input. *)
Fixpoint gets (max : nat) (input : list Z) : list Z * list Z :=
  match max with
  | O | S O => ([0], input)
  | S max' =>
      match input with
      | [] => ([0], [])
      | c :: input' => if (c =? 10) || (c =? 13) then ([c; 0], input')
                       else let '(bs, rest) := gets max' input' in (c :: bs, rest)
      end
  end.

(** atoi with the value accumulated so far; int arithmetic. *)
Fixpoint atoi_from (n : Z) (s : list Z) : option Z :=
  match s with
  | [] => None
  | c :: s' => if (48 <=? c) && (c <=? 57) then atoi_from (s32 (n * 10 + c - 48)) s' else Some n
  end.
Definition atoi (s : list Z) : option Z := atoi_from 0 s.

(** memmove takes an int: a negative count copies nothing. *)
Definition memmove (m : gmap Z Z) (dst src n : Z) : gmap Z Z :=
  if dst <? src then move_forward m dst src (Z.to_nat n)
  else move_backward m (dst + n) (src + n) (Z.to_nat n).

Definition memcmp (s1 s2 : list Z) (n : nat) : option Z := CString.memcmp s1 s2 n.

Definition memcpy (m : gmap Z Z) (dst src n : Z) : gmap Z Z := memmove m dst src n.
