(* ===== verification/Grep.v ===== *)
(** * grep (user/grep.c)

    The matcher of Kernighan and Pike against a declarative meaning of its
    patterns, and the loop that cuts the input into lines.  A C string is the
    list of its bytes before the NUL, whose place the end of the list takes;
    the matcher reads no further than the NUL of either string. *)

From S2P Require Import Prelude CString Ulib.

Definition STAR : Z := 42.
Definition DOLLAR : Z := 36.
Definition DOT : Z := 46.
Definition CARET : Z := 94.
Definition NEWLINE : Z := 10.

(** ** The matcher *)

(** The loop of matchstar; [here] is matchhere(re, .). *)
Fixpoint matchstar (c : Z) (here : list Z -> bool) (text : list Z) : bool :=
  here text ||
  match text with
  | [] => false
  | t :: text' => if (t =? c) || (c =? DOT) then matchstar c here text' else false
  end.

Fixpoint matchhere (re text : list Z) : bool :=
  match re with
  | [] => true
  | c :: re' =>
      match re' with
      | r1 :: re'' =>
          if r1 =? STAR then matchstar c (matchhere re'') text else
          match text with
          | t :: text' => if (c =? DOT) || (c =? t) then matchhere re' text' else false
          | [] => false
          end
      | [] =>
          if c =? DOLLAR then match text with [] => true | _ :: _ => false end else
          match text with
          | t :: text' => if (c =? DOT) || (c =? t) then matchhere re' text' else false
          | [] => false
          end
      end
  end.

(** The do-while loop of match. *)
Fixpoint match_from (re text : list Z) : bool :=
  matchhere re text ||
  match text with
  | [] => false
  | _ :: text' => match_from re text'
  end.

Definition match_re (re text : list Z) : bool :=
  match re with
  | c :: re' => if c =? CARET then matchhere re' text else match_from re text
  | [] => match_from re text
  end.

(** ** The meaning of patterns *)

Inductive rx :=
| Eps
| Chr (c : Z)
| AnyChr
| EndOfText
| Cat (r1 r2 : rx)
| Many (r : rx).

(** [den r w rest]: [r] matches the word [w] when [rest] follows it. *)
Inductive den : rx -> list Z -> list Z -> Prop :=
| den_eps rest : den Eps [] rest
| den_chr c rest : den (Chr c) [c] rest
| den_any c rest : den AnyChr [c] rest
| den_end : den EndOfText [] []
| den_cat r1 r2 w1 w2 rest : den r1 w1 (w2 ++ rest) -> den r2 w2 rest -> den (Cat r1 r2) (w1 ++ w2) rest
| den_many_nil r rest : den (Many r) [] rest
| den_many_cons r w1 w2 rest :
    den r w1 (w2 ++ rest) -> den (Many r) w2 rest -> den (Many r) (w1 ++ w2) rest.

Definition one (c : Z) : rx := if c =? DOT then AnyChr else Chr c.

(** What the pattern string says: x* is any number of x, a final $ the end of
    the text, . any character, anything else itself. *)
Fixpoint pattern (re : list Z) : rx :=
  match re with
  | [] => Eps
  | c :: re' =>
      match re' with
      | r1 :: re'' => if r1 =? STAR then Cat (Many (one c)) (pattern re'') else Cat (one c) (pattern re')
      | [] => if c =? DOLLAR then EndOfText else Cat (one c) Eps
      end
  end.

(** [r] matches at the beginning of [text]. *)
Definition prefix_match (r : rx) (text : list Z) : Prop := exists w rest, text = w ++ rest /\ den r w rest.

Lemma den_one c w rest : den (one c) w rest <-> exists t, w = [t] /\ ((c =? DOT) || (c =? t) = true).
Proof.
  unfold one. destruct (c =? DOT) eqn:E; split.
  - intros H. inversion H; subst. by eexists.
  - intros (t & -> & _). constructor.
  - intros H. inversion H; subst. exists c. by rewrite Z.eqb_refl.
  - intros (t & -> & H). simpl in H. apply Z.eqb_eq in H as ->. constructor.
Qed.

Lemma prefix_match_one c r text :
  prefix_match (Cat (one c) r) text <->
  exists t text', text = t :: text' /\ (c =? DOT) || (c =? t) = true /\ prefix_match r text'.
Proof.
  split.
  - intros (w & rest & -> & H). inversion H as [| | | |? ? w1 w2 ? H1 H2| |]; subst.
    apply den_one in H1 as (t & -> & Ht). exists t, (w2 ++ rest). split_and!; [done|done|]. by exists w2, rest.
  - intros (t & text' & -> & Ht & w & rest & -> & H). exists ([t] ++ w), rest. split; [done|].
    constructor; [|done]. apply den_one. by exists t.
Qed.

(** Splitting off one iteration of a starred character, which is one byte. *)
Lemma prefix_match_many c r text :
  prefix_match (Cat (Many (one c)) r) text <->
  prefix_match r text \/
  exists t text', text = t :: text' /\ (c =? DOT) || (c =? t) = true /\ prefix_match (Cat (Many (one c)) r) text'.
Proof.
  split.
  - intros (w & rest & -> & H). inversion H as [| | | |? ? w1 w2 ? H1 H2| |]; subst.
    inversion H1 as [| | | | |? ?|? w3 w4 ? H3 H4]; subst; [left; by exists w2, rest|right].
    apply den_one in H3 as (t & -> & Ht). exists t, (w4 ++ w2 ++ rest). split_and!; [by rewrite <- app_assoc|done|].
    exists (w4 ++ w2), rest. split; [by rewrite app_assoc|]. by constructor.
  - intros [(w & rest & -> & H)|(t & text' & -> & Ht & w & rest & -> & H)].
    + exists ([] ++ w), rest. split; [done|]. constructor; [constructor|done].
    + inversion H as [| | | |? ? w1 w2 ? H1 H2| |]; subst. exists (([t] ++ w1) ++ w2), rest.
      split; [by rewrite <- !app_assoc|]. constructor; [|done]. constructor; [|done].
      apply den_one. by exists t.
Qed.

Lemma matchstar_spec c (here : list Z -> bool) r text :
  (forall text, here text = true <-> prefix_match r text) ->
  matchstar c here text = true <-> prefix_match (Cat (Many (one c)) r) text.
Proof.
  intros Hh. induction text as [|t text IH]; rewrite prefix_match_many; simpl; rewrite orb_true_iff, Hh.
  - split; [intros [H|H]; [by left|done]|]. intros [H|(t & text' & H & _)]; [by left|done].
  - rewrite (orb_comm (t =? c)), (Z.eqb_sym t c). split; (intros [H|H]; [by left|right]).
    + destruct ((c =? DOT) || (c =? t)) eqn:E; [|done]. exists t, text. by rewrite <- IH.
    + destruct H as (t' & text' & [= <- <-] & -> & H). by apply IH.
Qed.

Lemma prefix_match_end text : prefix_match EndOfText text <-> text = [].
Proof.
  split.
  - intros (w & rest & -> & H). by inversion H.
  - intros ->. exists [], []. split; [done|constructor].
Qed.

Lemma prefix_match_eps text : prefix_match Eps text.
Proof. exists [], text. split; [done|constructor]. Qed.

(** One character and the rest. *)
Lemma matchone_spec c (here : list Z -> bool) r text :
  (forall text, here text = true <-> prefix_match r text) ->
  match text with
  | t :: text' => if (c =? DOT) || (c =? t) then here text' else false
  | [] => false
  end = true <-> prefix_match (Cat (one c) r) text.
Proof.
  intros Hh. rewrite prefix_match_one. destruct text as [|t text].
  - split; [done|]. by intros (t & text' & H & _).
  - split.
    + intros H. destruct ((c =? DOT) || (c =? t)) eqn:E; [|done]. exists t, text. by rewrite <- Hh.
    + intros (t' & text' & [= <- <-] & -> & H). by apply Hh.
Qed.

(** matchhere decides whether the pattern matches at the beginning. *)
Lemma matchhere_spec re text : matchhere re text = true <-> prefix_match (pattern re) text.
Proof.
  revert text. induction re as [re IH] using (induction_ltof1 _ (@length Z)). unfold ltof in IH.
  intros text. destruct re as [|c re]; simpl; [split; [intros _; apply prefix_match_eps|done]|].
  destruct re as [|r1 re]; simpl.
  - destruct (c =? DOLLAR).
    + rewrite prefix_match_end. by destruct text.
    + apply (matchone_spec c (fun _ => true) Eps). intros t. split; [intros _; apply prefix_match_eps|done].
  - destruct (r1 =? STAR).
    + apply matchstar_spec. intros t. apply IH. simpl. lia.
    + apply (matchone_spec c (matchhere (r1 :: re)) (pattern (r1 :: re))). intros t. apply IH. simpl. lia.
Qed.

(** C28. match says whether the pattern matches anywhere in the text, or at its
    beginning when the pattern starts with ^. *)
Theorem match_decides re text :
  match_re re text = true <->
  match re with
  | c :: re' => if c =? CARET then prefix_match (pattern re') text
                else exists pre suf, text = pre ++ suf /\ prefix_match (pattern re) suf
  | [] => True
  end.
Proof.
  assert (Hfrom : forall r t, match_from r t = true <-> exists pre suf, t = pre ++ suf /\ prefix_match (pattern r) suf).
  { intros r t. induction t as [|x t IH]; simpl; rewrite orb_true_iff, matchhere_spec.
    - split; [intros [H|H]; [by exists [], []|done]|]. intros (pre & suf & E & H). left.
      destruct pre, suf; done.
    - split.
      + intros [H|H]; [by exists [], (x :: t)|]. apply IH in H as (pre & suf & -> & H). by exists (x :: pre), suf.
      + intros (pre & suf & E & H). destruct pre as [|y pre]; [left; by rewrite E|right].
        injection E as -> ->. apply IH. by exists pre, suf. }
  destruct re as [|c re]; simpl.
  - split; [done|]. intros _. apply (Hfrom []). exists [], text. split; [done|apply prefix_match_eps].
  - destruct (c =? CARET); [apply matchhere_spec|apply Hfrom].
Qed.

(** ** The loop over lines *)

Definition BUFSIZE : nat := 1024.

(** The bytes of a C string in an array. *)
Fixpoint until_nul (s : list Z) : list Z :=
  match s with
  | [] => []
  | c :: s' => if c =? 0 then [] else c :: until_nul s'
  end.

(** read(fd, p, k) on an input that delivers its bytes in portions of at most
    the given sizes, and at least one byte when there is one and k > 0. *)
Definition read_some (k : nat) (input : list Z) (sizes : list nat) : list Z * list Z * list nat :=
  let n := match sizes with [] => k | x :: _ => Nat.min k (S x) end in
  (take n input, drop n input, tail sizes).

Section grep.
  Context (re : list Z).

(** The inner loop, [p] being the offset of the pointer p; it leaves the
    array, p and the output. *)
Fixpoint grep_lines (fuel : nat) (buf : list Z) (p : nat) (out : list Z) : option (list Z * nat * list Z) :=
  match fuel with
  | O => None
  | S fuel' =>
      r ← strchr (drop p buf) NEWLINE;
      match r with
      | None => Some (buf, p, out)
      | Some d =>
          let q := (p + d)%nat in
          let buf := <[q := 0]> buf in
          if match_re re (until_nul (drop p buf)) then
            let buf := <[q := NEWLINE]> buf in
            grep_lines fuel' buf (q + 1) (out ++ slice buf p (q + 1 - p))
          else grep_lines fuel' buf (q + 1) out
      end
  end.

(** The outer loop; None when the array is overrun. *)
Fixpoint grep_loop (fuel : nat) (buf : list Z) (m : nat) (input : list Z) (sizes : list nat) (out : list Z)
    : option (list Z) :=
  match fuel with
  | O => None
  | S fuel' =>
      let '(bs, input, sizes) := read_some (BUFSIZE - m - 1) input sizes in
      match bs with
      | [] => Some out
      | _ :: _ =>
          let buf := splice buf m bs in
          let m := (m + length bs)%nat in
          if (m <? BUFSIZE)%nat then
            let buf := <[m := 0]> buf in
            r ← grep_lines (S BUFSIZE) buf 0 out;
            let '(buf, p, out) := r in
            let m := (m - p)%nat in
            grep_loop fuel' (splice buf 0 (slice buf p m)) m input sizes out
          else None
      end
  end.
End grep.

(** grep(pattern, fd): what it writes. *)
Definition grep (re : list Z) (input : list Z) (sizes : list nat) : option (list Z) :=
  grep_loop re (S (length input)) (replicate BUFSIZE 0) 0 input sizes [].

Example grep_ex :
  grep [94; 97] [97; 98; 10; 98; 10; 97; 10; 97] [0; 2; 1]%nat = Some [97; 98; 10; 97; 10].
Proof. vm_compute. reflexivity. Qed.

(** ** Lines *)

(** The complete lines of an input and what follows the last newline. *)
Fixpoint split_lines (s : list Z) : list (list Z) * list Z :=
  match s with
  | [] => ([], [])
  | c :: s' =>
      let '(ls, r) := split_lines s' in
      if c =? NEWLINE then ([] :: ls, r)
      else match ls with [] => ([], c :: r) | l :: ls' => ((c :: l) :: ls', r) end
  end.

Lemma split_lines_app s1 s2 :
  split_lines (s1 ++ s2) =
    let '(ls1, r1) := split_lines s1 in
    let '(ls2, r2) := split_lines (r1 ++ s2) in (ls1 ++ ls2, r2).
Proof.
  induction s1 as [|c s1 IH]; simpl; [by destruct (split_lines s2)|].
  rewrite IH. destruct (split_lines s1) as [ls1 r1]. destruct (split_lines (r1 ++ s2)) as [ls2 r2] eqn:E.
  destruct (c =? NEWLINE) eqn:Ec; [by rewrite E|].
  destruct ls1 as [|l ls1]; simpl; [|by rewrite E]. rewrite Ec, E. by destruct ls2.
Qed.

Lemma split_lines_line l s : NEWLINE ∉ l -> split_lines (l ++ NEWLINE :: s) = (l :: (split_lines s).1, (split_lines s).2).
Proof.
  induction l as [|c l IH]; simpl; intros Hn; [by destruct (split_lines s)|].
  rewrite not_elem_of_cons in Hn. rewrite IH by tauto. rewrite (proj2 (Z.eqb_neq _ _)) by naive_solver. done.
Qed.

Lemma split_lines_none l : NEWLINE ∉ l -> split_lines l = ([], l).
Proof.
  induction l as [|c l IH]; simpl; intros Hn; [done|]. rewrite not_elem_of_cons in Hn. rewrite IH by tauto.
  by rewrite (proj2 (Z.eqb_neq _ _)) by naive_solver.
Qed.

(** The lines the pattern selects. *)
Definition selected (re : list Z) (ls : list (list Z)) : list Z :=
  concat ((fun l => l ++ [NEWLINE]) <$> filter (fun l => match_re re l = true) ls).

Lemma selected_app re ls1 ls2 : selected re (ls1 ++ ls2) = selected re ls1 ++ selected re ls2.
Proof. unfold selected. by rewrite list_filter_app, fmap_app, concat_app. Qed.

Lemma selected_cons re l ls :
  selected re (l :: ls) = (if match_re re l then l ++ [NEWLINE] else []) ++ selected re ls.
Proof.
  unfold selected. destruct (match_re re l) eqn:E.
  - rewrite filter_cons_True by done. done.
  - by rewrite filter_cons_False by (by rewrite E).
Qed.

(** strchr finds the first newline of a string. *)
Lemma strchr_line l s : NEWLINE ∉ l -> 0 ∉ l -> strchr (l ++ NEWLINE :: s) NEWLINE = Some (Some (length l)).
Proof.
  induction l as [|c l IH]; simpl; intros Hn H0; [done|]. rewrite not_elem_of_cons in Hn, H0.
  rewrite (proj2 (Z.eqb_neq c 0)) by naive_solver. rewrite (proj2 (Z.eqb_neq c NEWLINE)) by naive_solver.
  by rewrite IH by tauto.
Qed.

Lemma strchr_none l s : NEWLINE ∉ l -> 0 ∉ l -> strchr (l ++ 0 :: s) NEWLINE = Some None.
Proof.
  induction l as [|c l IH]; simpl; intros Hn H0; [done|]. rewrite not_elem_of_cons in Hn, H0.
  rewrite (proj2 (Z.eqb_neq c 0)) by naive_solver. rewrite (proj2 (Z.eqb_neq c NEWLINE)) by naive_solver.
  by rewrite IH by tauto.
Qed.

Lemma until_nul_app l s : 0 ∉ l -> until_nul (l ++ 0 :: s) = l.
Proof.
  induction l as [|c l IH]; simpl; intros H0; [done|]. rewrite not_elem_of_cons in H0.
  rewrite (proj2 (Z.eqb_neq c 0)) by naive_solver. by rewrite IH by tauto.
Qed.

Lemma first_newline X : NEWLINE ∉ X \/ exists l X', X = l ++ NEWLINE :: X' /\ NEWLINE ∉ l.
Proof.
  destruct (decide (NEWLINE ∈ X)) as [Hin|]; [right|by left].
  apply list_elem_of_split_l in Hin as (l & X' & -> & Hn). eauto.
Qed.

(** The inner loop on an array that holds [X] and a NUL from offset p on. *)
Lemma grep_lines_spec re fuel X pre junk out :
  0 ∉ X -> (length X < fuel)%nat ->
  let '(ls, r) := split_lines X in
  exists pre', grep_lines re fuel (pre ++ X ++ 0 :: junk) (length pre) out =
      Some (pre' ++ r ++ 0 :: junk, length pre', out ++ selected re ls) /\
    (length pre' + length r = length pre + length X)%nat.
Proof.
  revert X pre out. induction fuel as [|fuel IH]; intros X pre out H0 Hf; [lia|].
  destruct (first_newline X) as [Hn|(l & X' & -> & Hn)].
  - rewrite split_lines_none by done. exists pre. split; [|done]. cbn [grep_lines]. rewrite drop_app_length.
    rewrite strchr_none by done. simpl. by rewrite app_nil_r.
  - rewrite elem_of_app, elem_of_cons in H0. rewrite length_app in Hf. simpl in Hf.
    rewrite split_lines_line by done. destruct (split_lines X') as [ls r] eqn:E. cbn [fst snd].
    assert (Hdrop : forall Y : list Z, drop (length pre) (pre ++ Y) = Y) by (intros; apply drop_app_length).
    assert (Hins : forall c d (Y : list Z), <[(length pre + length l)%nat := c]> (pre ++ l ++ d :: Y) = pre ++ l ++ c :: Y).
    { intros c d Y. rewrite insert_app_r. f_equal. rewrite insert_app_r_alt by lia. by rewrite Nat.sub_diag. }
    cbn [grep_lines]. rewrite Hdrop, <- app_assoc. cbn [app]. rewrite strchr_line by tauto. cbn [mbind option_bind].
    rewrite !Hins, Hdrop, until_nul_app by tauto. rewrite selected_cons.
    destruct (match_re re l).
    + assert (Hsl : slice (pre ++ l ++ NEWLINE :: X' ++ 0 :: junk) (length pre) (length pre + length l + 1 - length pre) = l ++ [NEWLINE]).
      { unfold slice. rewrite Hdrop. replace (length pre + length l + 1 - length pre)%nat with (length (l ++ [NEWLINE])) by (rewrite length_app; simpl; lia).
        change (NEWLINE :: X' ++ 0 :: junk) with ([NEWLINE] ++ X' ++ 0 :: junk). rewrite (app_assoc l). apply take_app_length. }
      rewrite Hsl. pose proof (IH X' (pre ++ l ++ [NEWLINE]) (out ++ l ++ [NEWLINE]) ltac:(tauto) ltac:(lia)) as H.
      rewrite E in H. destruct H as (pre' & H & Hl). exists pre'.
      rewrite !length_app in *. simpl in *. split; [|lia]. rewrite <- !app_assoc in H. simpl in H.
      rewrite Nat.add_assoc in H. rewrite H. by rewrite <- !app_assoc.
    + pose proof (IH X' (pre ++ l ++ [0]) out ltac:(tauto) ltac:(lia)) as H.
      rewrite E in H. destruct H as (pre' & H & Hl). exists pre'.
      rewrite !length_app in *. simpl in *. split; [|lia]. rewrite <- !app_assoc in H. simpl in H.
      rewrite Nat.add_assoc in H. by rewrite H.
Qed.

(** No line longer than the array has room for. *)
Definition short (s : list Z) : Prop :=
  Forall (fun l => (length l + 2 <= BUFSIZE)%nat) (split_lines s).1 /\ (length (split_lines s).2 + 2 <= BUFSIZE)%nat.

Lemma short_prefix r s : NEWLINE ∉ r -> short (r ++ s) -> (length r + 2 <= BUFSIZE)%nat.
Proof.
  intros Hn [Hf Hr]. destruct (first_newline s) as [Hs|(l & s' & -> & Hs)].
  - rewrite split_lines_none in Hr by (rewrite elem_of_app; tauto). simpl in Hr. rewrite length_app in Hr. lia.
  - rewrite app_assoc, split_lines_line in Hf by (rewrite elem_of_app; tauto). inversion Hf as [|? ? H]; subst.
    rewrite length_app in H. lia.
Qed.

Lemma split_lines_rest s : NEWLINE ∉ (split_lines s).2.
Proof.
  induction s as [|c s IH]; simpl; [apply not_elem_of_nil|]. destruct (split_lines s) as [ls r].
  destruct (Z.eqb_spec c NEWLINE); [done|]. destruct ls; [|done]. simpl. rewrite not_elem_of_cons. split; [done|exact IH].
Qed.

Lemma split_lines_sub s x : x ∈ (split_lines s).2 -> x ∈ s.
Proof.
  induction s as [|c s IH]; simpl; [done|]. destruct (split_lines s) as [ls r]. simpl in *.
  destruct (c =? NEWLINE); [intros; right; by apply IH|]. destruct ls; simpl; [|intros; right; by apply IH].
  rewrite !elem_of_cons. naive_solver.
Qed.

(** The outer loop with the bytes [pend] of an unfinished line in the array. *)
Lemma grep_loop_spec re fuel pend buf input sizes out :
  (length input < fuel)%nat -> length buf = BUFSIZE -> take (length pend) buf = pend ->
  NEWLINE ∉ pend -> 0 ∉ pend ++ input -> short (pend ++ input) ->
  grep_loop re fuel buf (length pend) input sizes out = Some (out ++ selected re (split_lines (pend ++ input)).1).
Proof.
  revert pend buf input sizes out. induction fuel as [|fuel IH]; intros pend buf input sizes out Hf Hb Hp Hn H0 Hs; [lia|].
  pose proof (short_prefix _ _ Hn Hs) as Hlen. cbn [grep_loop]. unfold read_some.
  set (n := match sizes with [] => _ | _ => _ end).
  assert (Hn1 : (1 <= n <= BUFSIZE - length pend - 1)%nat) by (unfold n; destruct sizes; lia).
  destruct (take n input) as [|b bs'] eqn:Eb.
  { destruct input as [|x input]; [|destruct n; [lia|done]]. rewrite app_nil_r, split_lines_none by done. simpl. by rewrite app_nil_r. }
  set (bs := b :: bs') in *. assert (Hin : input = bs ++ drop n input) by (rewrite <- Eb; by rewrite take_drop).
  assert (Hbl : (length bs <= n)%nat) by (rewrite <- Eb, length_take; lia).
  rewrite (proj2 (Nat.ltb_lt _ _)) by lia.
  assert (Hb1 : (1 <= length bs)%nat) by (simpl; lia). clearbody bs. set (rest := drop n input) in *. set (X := pend ++ bs).
  assert (HX : 0 ∉ X /\ 0 ∉ rest) by (rewrite Hin in H0; unfold X; rewrite !elem_of_app in *; tauto).
  assert (Ebuf : exists junk, <[(length pend + length bs)%nat := 0]> (splice buf (length pend) bs) = [] ++ X ++ 0 :: junk /\
                  (length X + S (length junk) = BUFSIZE)%nat).
  { unfold splice, X. rewrite Hp, insert_app_r. rewrite (insert_app_r_alt bs) by (apply Nat.le_refl). rewrite Nat.sub_diag.
    destruct (drop (length pend + length bs) buf) as [|d junk] eqn:Ed.
    - apply (f_equal length) in Ed. rewrite length_drop in Ed. simpl in Ed. lia.
    - exists junk. split; [simpl; by rewrite <- app_assoc|]. apply (f_equal length) in Ed.
      rewrite length_drop in Ed. rewrite length_app. simpl in *. lia. }
  destruct Ebuf as (junk & -> & Hjl). pose proof (split_lines_app X rest) as Happ.
  pose proof (grep_lines_spec re (S BUFSIZE) X [] junk out ltac:(tauto) ltac:(lia)) as Hg.
  pose proof (split_lines_rest X) as Hrn. pose proof (split_lines_sub X 0) as Hr0.
  destruct (split_lines X) as [ls r]. cbn [fst snd] in *. destruct Hg as (pre' & Hg & Hl). cbn [length] in Hg, Hl.
  change (length (@nil Z)) with O in Hg. rewrite Hg. cbn [mbind option_bind].
  replace (length pend + length bs - length pre')%nat with (length r) by (unfold X in Hl; rewrite length_app in Hl; lia).
  assert (Hsl : slice (pre' ++ r ++ 0 :: junk) (length pre') (length r) = r)
    by (unfold slice; rewrite drop_app_length; apply take_app_length).
  assert (EX : pend ++ input = X ++ rest) by (unfold X; rewrite <- app_assoc; by rewrite <- Hin).
  rewrite Hsl, EX, Happ. rewrite EX in Hs. unfold short in Hs. rewrite Happ in Hs.
  destruct (split_lines (r ++ rest)) as [ls2 r2] eqn:E2. cbn [fst snd] in *. rewrite selected_app, (app_assoc out).
  destruct Hs as [Hs1 Hs2]. apply Forall_app in Hs1 as [_ Hs1].
  rewrite IH; [by rewrite E2|..].
  - apply (f_equal length) in Hin. rewrite length_app in Hin. lia.
  - rewrite length_splice; rewrite !length_app; simpl; lia.
  - unfold splice. simpl. apply take_app_length.
  - done.
  - rewrite elem_of_app. intros [Hx|Hx]; [by apply Hr0 in Hx; destruct HX|by destruct HX].
  - unfold short. by rewrite E2.
Qed.

(** C29. grep writes, in order and with their newlines, exactly the lines of the
    input that match, however read() cuts the input, provided the input has no
    NUL and no line of more than 1022 bytes; a last line without a newline is
    not written. *)
Theorem grep_writes_matching_lines re input sizes :
  0 ∉ input -> short input -> grep re input sizes = Some (selected re (split_lines input).1).
Proof.
  intros H0 Hs. unfold grep. apply (grep_loop_spec re _ [] (replicate BUFSIZE 0) input sizes []); try done.
  - lia.
  - apply not_elem_of_nil.
Qed.
