(* ===== verification/Printf.v ===== *)
(** * Formatted output (kernel/printf.c and user/printf.c)

    The characters printed, in order: what the kernel passes to consputc and
    the user library to putc.  A variadic argument is a 64-bit slot; [str]
    says which string, if any, lies at an address.  [None] is an access C
    leaves undefined: a missing argument, or a store outside buf[20]. *)

From S2P Require Import Prelude State CString Ulib.

Definition PERCENT : Z := 37.
Definition MINUS : Z := 45.

(** The arrays digits[] of the kernel and of the user library. *)
Definition kdigits : list Z := cstr "0123456789abcdef".
Definition udigits : list Z := cstr "0123456789ABCDEF".

(** ** printint *)

(** do { buf[i++] = digits[x % base]; } while((x /= base) != 0): the bytes
    stored, in the order they are stored; a 64-bit x has at most 64 digits. *)
Fixpoint digit_loop (digits : list Z) (fuel : nat) (x base : Z) : option (list Z) :=
  match fuel with
  | O => None
  | S fuel' =>
      d ← digits !! Z.to_nat (x mod base);
      if x / base =? 0 then Some [d]
      else r ← digit_loop digits fuel' (x / base) base; Some (d :: r)
  end.

Definition printint (digits : list Z) (xx base : Z) (sign : bool) : option (list Z) :=
  let neg := sign && (xx <? 0) in
  let x := u64 (if neg then - xx else xx) in
  ds ← digit_loop digits 64 x base;
  let buf := if neg then ds ++ [MINUS] else ds in
  if (length buf <=? 20)%nat then Some (rev buf) else None.

(** for(i = 0; i < 16; i++, x <<= 4) putc(digits[x >> 60]) *)
Fixpoint ptr_digits (digits : list Z) (n : nat) (x : Z) : option (list Z) :=
  match n with
  | O => Some []
  | S n' =>
      d ← digits !! Z.to_nat (Z.shiftr x 60);
      r ← ptr_digits digits n' (u64 (Z.shiftl x 4));
      Some (d :: r)
  end.

Definition printptr (digits : list Z) (x : Z) : option (list Z) :=
  r ← ptr_digits digits 16 x; Some (48 :: 120 :: r).

(** ** The format interpreter *)

(** va_arg(ap, int), (ap, uint32) and (ap, uint64). *)
Definition va_next (ap : list Z) : option (Z * list Z) :=
  match ap with [] => None | x :: ap' => Some (x, ap') end.

Section format.
  (* [chr]: the conversion of the argument of %c to what is printed *)
  Context (digits : list Z) (chr : Z -> Z) (str : Z -> option (list Z)).

(** The conversion that starts with [c0] after a %, the following characters
    being [c1], [c2]: what it prints, how many characters beyond [c0] it takes,
    and the arguments left; the common part of the two interpreters. *)
Definition conversion (c0 c1 c2 : Z) (ap : list Z) : option (list Z * nat * list Z) :=
  let num (cast : Z -> Z) (base : Z) (sign : bool) (extra : nat) :=
    '(x, ap') ← va_next ap; s ← printint digits (cast x) base sign; Some (s, extra, ap') in
  let d := 100 in let l := 108 in let u := 117 in let x := 120 in
  if c0 =? d then num s32 10 true 0%nat
  else if (c0 =? l) && (c1 =? d) then num (swrap 64) 10 true 1%nat
  else if (c0 =? l) && (c1 =? l) && (c2 =? d) then num (swrap 64) 10 true 2%nat
  else if c0 =? u then num u32 10 false 0%nat
  else if (c0 =? l) && (c1 =? u) then num (swrap 64) 10 false 1%nat
  else if (c0 =? l) && (c1 =? l) && (c2 =? u) then num (swrap 64) 10 false 2%nat
  else if c0 =? x then num u32 16 false 0%nat
  else if (c0 =? l) && (c1 =? x) then num (swrap 64) 16 false 1%nat
  else if (c0 =? l) && (c1 =? l) && (c2 =? x) then num (swrap 64) 16 false 2%nat
  else if c0 =? 112 then '(v, ap') ← va_next ap; s ← printptr digits (u64 v); Some (s, 0%nat, ap')
  else if c0 =? 99 then '(v, ap') ← va_next ap; Some ([chr v], 0%nat, ap')
  else if c0 =? 115 then
    '(v, ap') ← va_next ap;
    if v =? 0 then Some (take 6 (cstr "(null)"), 0%nat, ap') else s ← str v; Some (s, 0%nat, ap')
  else if c0 =? PERCENT then Some ([PERCENT], 0%nat, ap)
  else Some ([PERCENT; c0], 0%nat, ap).

(** The kernel's loop over the format; a % at the end stops it. *)
Fixpoint kformat (fuel : nat) (fmt : list Z) (ap : list Z) : option (list Z) :=
  match fuel with
  | O => None
  | S fuel' =>
      match fmt with
      | [] => Some []
      | cx :: fmt' =>
          if negb (cx =? PERCENT) then r ← kformat fuel' fmt' ap; Some (cx :: r) else
          match fmt' with
          | [] => Some []
          | c0 :: f1 =>
              '(s, extra, ap') ← conversion c0 (hd 0 f1) (hd 0 (tail f1)) ap;
              r ← kformat fuel' (drop extra f1) ap'; Some (s ++ r)
          end
      end
  end.

(** The user library's, with its state variable; a % at the end prints
    nothing. *)
Fixpoint uformat (fuel : nat) (state : bool) (fmt : list Z) (ap : list Z) : option (list Z) :=
  match fuel with
  | O => None
  | S fuel' =>
      match fmt with
      | [] => Some []
      | c0 :: f1 =>
          if negb state then
            if c0 =? PERCENT then uformat fuel' true f1 ap
            else r ← uformat fuel' false f1 ap; Some (c0 :: r)
          else
            '(s, extra, ap') ← conversion c0 (hd 0 f1) (hd 0 (tail f1)) ap;
            r ← uformat fuel' false (drop extra f1) ap'; Some (s ++ r)
      end
  end.
End format.

(** The characters of printf(fmt, ...) in the kernel, of fprintf(fd, fmt, ...)
    and printf(fmt, ...) in user programs. *)
Definition kprintf (str : Z -> option (list Z)) (fmt ap : list Z) : option (list Z) :=
  kformat kdigits s32 str (S (length fmt)) fmt ap.
Definition vprintf (str : Z -> option (list Z)) (fmt ap : list Z) : option (list Z) :=
  uformat udigits u8 str (S (length fmt)) false fmt ap.

Example kprintf_ex :
  kprintf (fun _ => Some [97; 98]) (take 14 (cstr "%d %x %s|%lu%%")) [2 ^ 32 - 5; 255; 4096; 7] =
    Some (take 11 (cstr "-5 ff ab|7%")).
Proof. vm_compute. reflexivity. Qed.

(** ** printint prints the number *)

(** The digit a character stands for, and the number a string denotes. *)
Definition digit_value (digits : list Z) (c : Z) : Z :=
  match list_find (eq c) digits with Some (k, _) => Z.of_nat k | None => 0 end.
Definition num_value (digits : list Z) (base : Z) (s : list Z) : Z :=
  fold_left (fun v c => v * base + digit_value digits c) s 0.
Definition parse_num (digits : list Z) (base : Z) (s : list Z) : Z :=
  match s with
  | c :: s' => if c =? MINUS then - num_value digits base s' else num_value digits base s
  | [] => 0
  end.

(** A table of sixteen different characters, none of them a minus sign. *)
Record digit_table (digits : list Z) : Prop := {
  dt_value k : 0 <= k < 16 -> exists d, digits !! Z.to_nat k = Some d /\ digit_value digits d = k /\ d <> MINUS;
  dt_decimal k : 0 <= k < 10 -> digits !! Z.to_nat k = Some (48 + k);
}.

Lemma digit_table_check digits :
  Forall (fun k => match digits !! Z.to_nat k with
                   | Some d => (digit_value digits d =? k) && negb (d =? MINUS) && ((10 <=? k) || (d =? 48 + k)) = true
                   | None => False end) (zrange 0 16) -> digit_table digits.
Proof.
  intros H. rewrite Forall_forall in H. constructor; intros k Hk.
  - specialize (H k ltac:(apply elem_of_zrange; lia)). destruct (digits !! Z.to_nat k) as [d|]; [|done].
    exists d. rewrite !andb_true_iff, negb_true_iff, Z.eqb_eq, Z.eqb_neq in H. tauto.
  - specialize (H k ltac:(apply elem_of_zrange; lia)). destruct (digits !! Z.to_nat k) as [d|]; [|done].
    rewrite !andb_true_iff, orb_true_iff, Z.leb_le, Z.eqb_eq, (Z.eqb_eq d) in H. f_equal. lia.
Qed.

Lemma kdigits_table : digit_table kdigits.
Proof. apply digit_table_check. repeat (constructor; [vm_compute; reflexivity|]). constructor. Qed.
Lemma udigits_table : digit_table udigits.
Proof. apply digit_table_check. repeat (constructor; [vm_compute; reflexivity|]). constructor. Qed.

(** The bytes of the loop, least significant digit first. *)
Lemma digit_loop_spec digits base fuel n x :
  digit_table digits -> 1 < base <= 16 -> (n < fuel)%nat -> 0 <= x < base ^ Z.of_nat (S n) ->
  exists ds, digit_loop digits fuel x base = Some ds /\ (0 < length ds <= S n)%nat /\ MINUS ∉ ds /\
    num_value digits base (rev ds) = x /\
    (base <= 10 -> Forall (fun c => 48 <= c <= 57 /\ digit_value digits c = c - 48) ds).
Proof.
  intros Ht Hb. revert n x. induction fuel as [|fuel IH]; intros n x Hn Hx; [lia|].
  pose proof (Z.mod_pos_bound x base ltac:(lia)) as Hm. pose proof (Z.div_mod x base ltac:(lia)) as Hdm.
  destruct (dt_value _ Ht (x mod base)) as (d & Hd & Hv & Hd0); [lia|].
  assert (Hdec : base <= 10 -> 48 <= d <= 57 /\ digit_value digits d = d - 48).
  { intros Hb10. pose proof (dt_decimal _ Ht (x mod base) ltac:(lia)) as E. rewrite Hd in E. injection E as E. lia. }
  cbn [digit_loop]. rewrite Hd. cbn [mbind option_bind]. destruct (Z.eqb_spec (x / base) 0) as [Hz|Hz].
  - exists [d]. split_and!; [done|simpl; lia|simpl; lia|set_solver| |by repeat constructor; apply Hdec].
    unfold num_value. simpl. rewrite Hv. lia.
  - assert (Hq : 0 < x / base) by (pose proof (Z.div_pos x base); lia).
    destruct n as [|n]; [exfalso; rewrite Z.pow_1_r in Hx; rewrite Z.div_small in Hz; lia|].
    destruct (IH n (x / base)) as (ds & -> & Hl & Hmi & Hval & Hdd); [lia| |].
    { split; [lia|]. apply Z.div_lt_upper_bound; [lia|]. rewrite <- Z.pow_succ_r by lia.
      replace (Z.succ (Z.of_nat (S n))) with (Z.of_nat (S (S n))) by lia. lia. }
    cbn [mbind option_bind]. exists (d :: ds). split_and!; [done|simpl; lia|simpl; lia|set_solver| |].
    + simpl. unfold num_value in *. rewrite fold_left_app, Hval. simpl. rewrite Hv. lia.
    + intros Hb10. constructor; [by apply Hdec|by apply Hdd].
Qed.

(** atoi reads decimal digits back. *)
Lemma atoi_from_digits digits v s :
  Forall (fun c => 48 <= c <= 57 /\ digit_value digits c = c - 48) s ->
  0 <= v -> fold_left (fun v c => v * 10 + digit_value digits c) s v < 2 ^ 31 ->
  atoi_from v (s ++ [0]) = Some (fold_left (fun v c => v * 10 + digit_value digits c) s v).
Proof.
  intros Hs. revert v. induction Hs as [|c s [Hc Hv] Hs IH]; intros v Hv0 Hlt; [done|]. simpl in *.
  assert (Hmono : forall w, 0 <= w -> w <= fold_left (fun v c => v * 10 + digit_value digits c) s w).
  { clear IH Hlt. induction Hs as [|c' s [Hc' Hv'] Hs IH]; intros w Hw; simpl; [lia|].
    pose proof (IH (w * 10 + digit_value digits c') ltac:(lia)). lia. }
  pose proof (Hmono (v * 10 + digit_value digits c) ltac:(lia)).
  rewrite (proj2 (Z.leb_le _ _)), (proj2 (Z.leb_le c 57)) by lia. simpl.
  replace (s32 (v * 10 + c - 48)) with (v * 10 + digit_value digits c).
  - apply IH; lia.
  - unfold s32, swrap. rewrite Hv, Z.mod_small; change (2 ^ 31) with 2147483648 in *;
      change (2 ^ 32) with 4294967296; change (2 ^ (32 - 1)) with 2147483648; lia.
Qed.

Lemma parse_num_digits digits base s :
  MINUS ∉ s -> s <> [] -> parse_num digits base s = num_value digits base s.
Proof.
  intros Hn Hs. destruct s as [|c s]; [done|]. simpl. rewrite not_elem_of_cons in Hn.
  by rewrite (proj2 (Z.eqb_neq _ _)) by naive_solver.
Qed.

(** printint of any 64-bit value, in decimal or hexadecimal: it stays inside
    buf[20] and prints a string that denotes the value (as a signed number when
    [sign] is set); atoi reads a decimal one back. *)
Theorem printint_roundtrip digits xx base sign :
  digit_table digits -> base = 10 \/ base = 16 -> - 2 ^ 63 <= xx < 2 ^ 63 ->
  exists s, printint digits xx base sign = Some s /\ (length s <= 20)%nat /\
    parse_num digits base s = (if sign then xx else u64 xx) /\
    (base = 10 -> 0 <= xx < 2 ^ 31 -> atoi (s ++ [0]) = Some xx).
Proof.
  intros Ht Hbase Hxx. assert (Hb : 1 < base <= 16) by lia.
  set (neg := sign && (xx <? 0)). set (x := u64 (if neg then - xx else xx)).
  assert (Hx : 0 <= x < 2 ^ 64) by (apply Z.mod_pos_bound; done).
  assert (Hneg : neg = true -> x = - xx /\ 0 < x <= 2 ^ 63 /\ sign = true).
  { unfold x, neg. destruct sign, (Z.ltb_spec xx 0); try done. intros _. simpl. unfold u64.
    rewrite Z.mod_small by lia. lia. }
  set (n := if neg then 18%nat else 19%nat).
  assert (Hn : (S n + (if neg then 1 else 0) <= 20)%nat /\ (n < 64)%nat) by (unfold n; destruct neg; simpl; lia).
  assert (Hpow : x < base ^ Z.of_nat (S n)).
  { unfold n. destruct neg; [destruct (Hneg eq_refl) as (_ & Hle & _)|];
      destruct Hbase as [-> | ->]; eapply Z.le_lt_trans; try apply Hle; try (apply Z.lt_le_incl, Hx); done. }
  destruct (digit_loop_spec digits base 64 n x Ht Hb ltac:(lia) ltac:(lia)) as (ds & Hds & Hl & Hmi & Hval & Hdec).
  unfold printint. fold neg. fold x. rewrite Hds. cbn [mbind option_bind].
  assert (Hrev : MINUS ∉ rev ds) by (intros Hin; apply Hmi; apply list_elem_of_In, in_rev, list_elem_of_In, Hin).
  assert (Hne : rev ds <> []) by (intros E; apply (f_equal length) in E; rewrite length_rev in E; simpl in E; lia).
  destruct neg eqn:Eneg.
  - rewrite (proj2 (Nat.leb_le _ _)) by (rewrite length_app; simpl; lia). destruct (Hneg eq_refl) as (Ex & Hx2 & ->).
    eexists. split; [done|]. rewrite rev_app_distr. simpl. split_and!; [rewrite length_rev; lia|rewrite Hval; lia|lia].
  - rewrite (proj2 (Nat.leb_le _ _)) by lia. eexists. split; [done|]. rewrite length_rev.
    assert (Ex : x = if sign then xx else u64 xx).
    { unfold x, neg in *. destruct sign; [|done]. simpl in Eneg. apply Z.ltb_ge in Eneg. apply Z.mod_small. lia. }
    split_and!; [lia|by rewrite parse_num_digits, Hval|]. intros -> Hr.
    assert (Exx : x = xx) by (rewrite Ex; destruct sign; [done|]; apply Z.mod_small; lia).
    unfold atoi. rewrite (atoi_from_digits digits); [unfold num_value in Hval; by rewrite Hval, Exx| |lia|].
    + apply Forall_rev. by apply Hdec.
    + unfold num_value in Hval. lia.
Qed.
