(* ===== verification/Uthread.v ===== *)
(** * User-level threads (user/uthread.c, user/uthread_switch.S)

    Cooperative threads of one process: a table of MAX_THREAD threads, the
    current one, and the callee-saved registers of the CPU, which
    thread_switch exchanges.  A thread pointer is an index into all_thread.
    What a thread does between two calls of the library is any change of the
    registers ([Work]).  The theorem: a thread that yields runs again, with the
    registers it had, after at most MAX_THREAD - 1 more calls of the scheduler. *)

From S2P Require Import Prelude.

Definition MAX_THREAD : nat := 4.
Definition STACK_SIZE : Z := 8192.

(** struct regi *)
Record regi := mkRegi {
  ra : Z; sp : Z;
  s0 : Z; s1 : Z; s2 : Z; s3 : Z; s4 : Z; s5 : Z;
  s6 : Z; s7 : Z; s8 : Z; s9 : Z; s10 : Z; s11 : Z;
}.

Definition regi0 : regi := mkRegi 0 0 0 0 0 0 0 0 0 0 0 0 0 0.
Definition set_ra (x : Z) (r : regi) : regi :=
  mkRegi x (sp r) (s0 r) (s1 r) (s2 r) (s3 r) (s4 r) (s5 r) (s6 r) (s7 r) (s8 r) (s9 r) (s10 r) (s11 r).
Definition set_sp (x : Z) (r : regi) : regi :=
  mkRegi (ra r) x (s0 r) (s1 r) (s2 r) (s3 r) (s4 r) (s5 r) (s6 r) (s7 r) (s8 r) (s9 r) (s10 r) (s11 r).

Inductive tstate := FREE | RUNNING | RUNNABLE.
#[export] Instance tstate_eq_dec : EqDecision tstate.
Proof. solve_decision. Defined.

(** struct thread; the bytes of the stack are the thread's own. *)
Record thread := mkThread { t_state : tstate; t_registers : regi }.

(** all_thread, current_thread (NULL before thread_init) and the registers of
    the CPU. *)
Record uthreads := mkUthreads {
  all_thread : list thread;
  current_thread : option nat;
  cpu : regi;
}.

Definition set_all_thread (l : list thread) (u : uthreads) : uthreads := mkUthreads l (current_thread u) (cpu u).
Definition set_current_thread (c : nat) (u : uthreads) : uthreads := mkUthreads (all_thread u) (Some c) (cpu u).
Definition set_cpu (r : regi) (u : uthreads) : uthreads := mkUthreads (all_thread u) (current_thread u) r.

Definition get_thread (t : nat) : M uthreads thread := u ← gets all_thread; deref (u !! t).
Definition upd_thread (t : nat) (f : thread -> thread) : M uthreads unit :=
  th ← get_thread t;
  modify (fun u => set_all_thread (<[t := f th]> (all_thread u)) u).
Definition set_t_state (x : tstate) (th : thread) : thread := mkThread x (t_registers th).
Definition set_t_registers (r : regi) (th : thread) : thread := mkThread (t_state th) r.

Definition thread_init : M uthreads unit :=
  modify (set_current_thread 0);;
  upd_thread 0 (set_t_state RUNNING);;
  upd_thread 0 (set_t_registers regi0).

(** Stores the registers of the CPU at [old] and loads those at [new]. *)
Definition thread_switch (old new : nat) : M uthreads unit :=
  r ← gets cpu;
  upd_thread old (set_t_registers r);;
  th ← get_thread new;
  modify (set_cpu (t_registers th)).

(** The search loop of thread_schedule with [i] iterations left. *)
Fixpoint next_runnable (i t : nat) : M uthreads (option nat) :=
  match i with
  | O => mret None
  | S i' =>
      let t := if (MAX_THREAD <=? t)%nat then 0%nat else t in
      th ← get_thread t;
      if decide (t_state th = RUNNABLE) then mret (Some t) else next_runnable i' (S t)
  end.

(** The message and exit(-1) end the process: [Panic]. *)
Definition thread_schedule : M uthreads unit :=
  c ← gets current_thread;
  c ← deref c;
  next ← next_runnable MAX_THREAD (S c);
  match next with
  | None => panic "thread_schedule: no runnable threads"
  | Some next =>
      if decide (c <> next) then
        upd_thread next (set_t_state RUNNING);;
        modify (set_current_thread next);;
        thread_switch c next
      else mret tt
  end.

Definition thread_yield : M uthreads unit :=
  c ← gets current_thread;
  c ← deref c;
  upd_thread c (set_t_state RUNNABLE);;
  thread_schedule.

Definition thread_exit : M uthreads unit :=
  c ← gets current_thread;
  c ← deref c;
  upd_thread c (set_t_state FREE);;
  thread_schedule.

Section threads.
  (* the address of all_thread, and sizeof(struct thread) *)
  Context (all_thread_addr : Z).
Definition sizeof_thread : Z := STACK_SIZE + 8 + 14 * 8.

(** With no free thread, t is one past the table and the write undefined. *)
Definition thread_create (func : Z) : M uthreads unit :=
  l ← gets all_thread;
  let t := default MAX_THREAD (fst <$> list_find (fun th => t_state th = FREE) l) in
  upd_thread t (set_t_state RUNNABLE);;
  upd_thread t (fun th => set_t_registers (set_sp (all_thread_addr + Z.of_nat t * sizeof_thread + (STACK_SIZE - 1)) (t_registers th)) th);;
  upd_thread t (fun th => set_t_registers (set_ra func (t_registers th)) th).

(** What the running thread does next. *)
Inductive action :=
| Work (r : regi)
| Yield
| Exit
| Create (func : Z).

Definition act (a : action) : M uthreads unit :=
  match a with
  | Work r => modify (set_cpu r)
  | Yield => thread_yield
  | Exit => thread_exit
  | Create func => thread_create func
  end.

Definition acts (l : list action) : M uthreads unit := foreach l act.

(** The number of calls of the scheduler. *)
Definition schedules (l : list action) : nat :=
  length (List.filter (fun a => match a with Yield | Exit => true | _ => false end) l).

(** ** The order of the threads *)

(** How many threads the search that starts at [t] looks at before [j]. *)
Definition dist (t j : nat) : nat := if (t <=? j)%nat then j - t else j + MAX_THREAD - t.
Definition wrap (t : nat) : nat := if (MAX_THREAD <=? t)%nat then 0 else t.
Definition ahead (c t : nat) : nat := dist (wrap (S c)) t.

Ltac order := unfold ahead, dist, wrap, MAX_THREAD in *;
  repeat match goal with
  | |- context [Nat.leb ?a ?b] => destruct (Nat.leb_spec a b)
  | H : context [Nat.leb ?a ?b] |- _ => destruct (Nat.leb_spec a b)
  end; lia.

Lemma get_thread_eq t th u : all_thread u !! t = Some th -> get_thread t u = Ret th u.
Proof. intros H. unfold get_thread. mred. by rewrite H. Qed.

Lemma upd_thread_eq t th f u : all_thread u !! t = Some th ->
  upd_thread t f u = Ret tt (set_all_thread (<[t := f th]> (all_thread u)) u).
Proof. intros H. unfold upd_thread. mred. by rewrite (get_thread_eq _ _ _ H). Qed.

(** The search finds a runnable thread that no runnable thread precedes. *)
Lemma next_runnable_first i t j th u :
  length (all_thread u) = MAX_THREAD -> (t <= MAX_THREAD)%nat ->
  all_thread u !! j = Some th -> t_state th = RUNNABLE -> (dist (wrap t) j < i)%nat ->
  exists n thn, next_runnable i t u = Ret (Some n) u /\ all_thread u !! n = Some thn /\ t_state thn = RUNNABLE /\
    (n < MAX_THREAD)%nat /\ (dist (wrap t) n <= dist (wrap t) j)%nat.
Proof.
  intros Hl. revert t. induction i as [|i IH]; intros t Ht Hj Hrun Hd; [lia|]. cbn [next_runnable]. fold (wrap t). cbv zeta.
  assert (Hw : (wrap t < MAX_THREAD)%nat) by order.
  destruct (lookup_lt_is_Some_2 (all_thread u) (wrap t) ltac:(lia)) as [tht Hth]. mred. rewrite (get_thread_eq _ _ _ Hth).
  mred. case_decide as Hs; mred.
  - exists (wrap t), tht. split_and!; [done..|]. order.
  - assert (wrap t <> j) by (intros <-; congruence). pose proof (lookup_lt_Some _ _ _ Hj) as Hlt. rewrite Hl in Hlt.
    destruct (IH (S (wrap t))) as (n & thn & -> & Hn & Hsn & Hln & Hdn); [lia|done|done|order|].
    exists n, thn. split_and!; [done..|]. assert (n <> wrap t) by (intros ->; congruence). order.
Qed.

(** ** A thread that can run does *)

(** Thread [t] can run, with the registers [r], while another one is current. *)
Record waiting (t : nat) (r : regi) (c : nat) (u : uthreads) : Prop := {
  w_table : length (all_thread u) = MAX_THREAD;
  w_current : current_thread u = Some c;
  w_bound : (c < MAX_THREAD)%nat;
  w_other : c <> t;
  w_thread : all_thread u !! t = Some (mkThread RUNNABLE r);
}.

Record resumed (t : nat) (r : regi) (u : uthreads) : Prop := {
  r_table : length (all_thread u) = MAX_THREAD;
  r_current : current_thread u = Some t;
  r_state : t_state <$> all_thread u !! t = Some RUNNING;
  r_cpu : cpu u = r;
}.

Lemma waiting_bound t r c u : waiting t r c u -> (t < MAX_THREAD)%nat.
Proof. intros [Hl _ _ _ Ht]. apply lookup_lt_Some in Ht. lia. Qed.

(** The switch itself: the registers of [c] are saved, those of [n] loaded. *)
Lemma switch_to c n thc thn u :
  c <> n -> all_thread u !! c = Some thc -> all_thread u !! n = Some thn ->
  (upd_thread n (set_t_state RUNNING);; modify (set_current_thread n);; thread_switch c n) u =
    Ret tt (mkUthreads (<[c := set_t_registers (cpu u) thc]> (<[n := set_t_state RUNNING thn]> (all_thread u))) (Some n) (t_registers thn)).
Proof.
  intros Hne Hc Hn. pose proof (lookup_lt_Some _ _ _ Hn). mred. rewrite (upd_thread_eq _ _ _ _ Hn). mred. unfold thread_switch. mred.
  erewrite upd_thread_eq by (simpl; by rewrite list_lookup_insert_ne). mred.
  erewrite get_thread_eq by (simpl; by rewrite list_lookup_insert_ne, list_lookup_insert_eq). done.
Qed.

Lemma thread_schedule_advances t r c u :
  waiting t r c u ->
  exists u', thread_schedule u = Ret tt u' /\
    (resumed t r u' \/ exists c', waiting t r c' u' /\ (ahead c' t < ahead c t)%nat).
Proof.
  intros Hw. pose proof (waiting_bound _ _ _ _ Hw) as Hb. destruct Hw as [Hl Hc Hcb Hne Ht].
  destruct (next_runnable_first MAX_THREAD (S c) t _ u Hl ltac:(lia) Ht eq_refl ltac:(order)) as (n & thn & Hnext & Hn & Hs & Hnb & Hd).
  unfold thread_schedule. mred. rewrite Hc. mred. rewrite Hnext. mred.
  assert (c <> n) by (intros ->; order). rewrite decide_True by done.
  destruct (lookup_lt_is_Some_2 (all_thread u) c ltac:(lia)) as [thc Hthc].
  eexists. split; [by apply switch_to|]. destruct (decide (n = t)) as [->|Hnt].
  - left. rewrite Ht in Hn. injection Hn as <-. split; simpl; [by rewrite !length_insert|done| |done].
    by rewrite list_lookup_insert_ne, list_lookup_insert_eq by lia.
  - right. exists n. split; [|order]. split; simpl; [by rewrite !length_insert|done|done|done|].
    by rewrite !list_lookup_insert_ne by done.
Qed.

(** Nothing the current thread does touches the waiting one. *)
Lemma act_advances t r c u a :
  waiting t r c u -> act a u <> UB ->
  exists u', act a u = Ret tt u' /\
    (resumed t r u' /\ schedules [a] = 1%nat \/ exists c', waiting t r c' u' /\ (ahead c' t + schedules [a] <= ahead c t)%nat).
Proof.
  intros Hw Hub. pose proof Hw as [Hl Hc Hcb Hne Ht].
  destruct (lookup_lt_is_Some_2 (all_thread u) c ltac:(lia)) as [thc Hthc].
  assert (Hsched : forall st, exists u', (upd_thread c (set_t_state st);; thread_schedule) u = Ret tt u' /\
     (resumed t r u' /\ 1 = 1 \/ exists c', waiting t r c' u' /\ (ahead c' t + 1 <= ahead c t)%nat)%nat).
  { intros st. mred. rewrite (upd_thread_eq _ _ _ _ Hthc).
    destruct (thread_schedule_advances t r c (set_all_thread (<[c := set_t_state st thc]> (all_thread u)) u)) as (u' & Hu' & Hr).
    { split; simpl; [by rewrite length_insert|done|done|done|]. by rewrite list_lookup_insert_ne. }
    exists u'. split; [exact Hu'|]. destruct Hr as [Hr|(c' & Hw' & Hlt)]; [by left|right]. exists c'. split; [done|lia]. }
  destruct a as [r'| | |func]; simpl in *.
  - eexists. split; [done|]. right. exists c. split; [by split|]. unfold schedules. simpl. lia.
  - unfold thread_yield. mred. rewrite Hc. apply Hsched.
  - unfold thread_exit. mred. rewrite Hc. apply Hsched.
  - unfold thread_create in *. mred. mred in Hub. destruct (list_find _ (all_thread u)) as [[f thf]|] eqn:Hf; simpl in *.
    + apply list_find_Some in Hf as (Hf & Hfree & _). assert (f <> t) by (intros ->; rewrite Ht in Hf; injection Hf as <-; done).
      pose proof (lookup_lt_Some _ _ _ Hf).
      rewrite (upd_thread_eq _ _ _ _ Hf). mred. erewrite upd_thread_eq by (simpl; by rewrite list_lookup_insert_eq). mred.
      erewrite upd_thread_eq by (simpl; by rewrite list_lookup_insert_eq by (by rewrite length_insert)).
      eexists. split; [done|]. right. exists c. split; [|unfold schedules; simpl; lia].
      split; simpl; rewrite ?length_insert, ?list_lookup_insert_ne by done; done.
    + destruct Hub. unfold upd_thread, get_thread. mred. by rewrite lookup_ge_None_2 by lia.
Qed.

Lemma schedules_cons a l : schedules (a :: l) = (schedules [a] + schedules l)%nat.
Proof. unfold schedules. simpl. by destruct a. Qed.

Lemma waiting_resumes t r l c u :
  waiting t r c u -> (ahead c t < schedules l)%nat -> acts l u <> UB ->
  exists n u', acts (take n l) u = Ret tt u' /\ resumed t r u' /\ (schedules (take n l) <= S (ahead c t))%nat.
Proof.
  revert c u. induction l as [|a l IH]; intros c u Hw Hlt Hub; [unfold schedules in Hlt; simpl in Hlt; lia|].
  rewrite schedules_cons in Hlt. unfold acts in Hub. simpl in Hub. mred in Hub.
  destruct (act_advances t r c u a Hw) as (u1 & Hact & Hcase); [intros E; by rewrite E in Hub|].
  rewrite Hact in Hub. destruct Hcase as [(Hr & H1)|(c' & Hw' & Hle)].
  - exists 1%nat, u1. split_and!; [|done|rewrite firstn_cons, firstn_O; lia]. unfold acts. simpl. mred. by rewrite Hact.
  - destruct (IH c' u1 Hw' ltac:(lia) Hub) as (n & u' & Hn & Hr & Hs). exists (S n), u'.
    rewrite firstn_cons, schedules_cons. split_and!; [|done|lia]. unfold acts. simpl. mred. by rewrite Hact.
Qed.

(** The caller goes on when no other thread can run, and waits otherwise. *)
Lemma thread_yield_cases u c :
  length (all_thread u) = MAX_THREAD -> current_thread u = Some c -> (c < MAX_THREAD)%nat ->
  exists u', thread_yield u = Ret tt u' /\
    (current_thread u' = Some c /\ cpu u' = cpu u \/ exists n, n <> c /\ waiting c (cpu u) n u').
Proof.
  intros Hl Hc Hcb. destruct (lookup_lt_is_Some_2 (all_thread u) c ltac:(lia)) as [thc Hthc].
  unfold thread_yield. mred. rewrite Hc. mred. rewrite (upd_thread_eq _ _ _ _ Hthc). mred. set (u1 := set_all_thread _ u).
  assert (Hl1 : length (all_thread u1) = MAX_THREAD) by (simpl; by rewrite length_insert).
  assert (Hc1 : all_thread u1 !! c = Some (set_t_state RUNNABLE thc)) by (simpl; by rewrite list_lookup_insert_eq by lia).
  destruct (next_runnable_first MAX_THREAD (S c) c _ u1 Hl1 ltac:(lia) Hc1 eq_refl ltac:(order)) as (n & thn & Hnext & Hn & _ & Hnb & _).
  unfold thread_schedule. mred. change (current_thread u1) with (current_thread u). rewrite Hc. mred. rewrite Hnext. mred.
  destruct (decide (c <> n)) as [Hne|_]; [|exists u1; by split; [|left]].
  eexists. split; [by eapply switch_to|]. right. exists n. split; [done|].
  split; simpl; [by rewrite !length_insert|done|done|done|]. by rewrite list_lookup_insert_eq by (rewrite !length_insert; lia).
Qed.

(** C36. A call of thread_yield() returns to its caller: whatever the threads do
    afterwards (compute, yield, exit, create threads while the table has room),
    the caller is the current thread again, with the registers it had, by the
    time the scheduler has been called MAX_THREAD - 1 more times.  In
    particular the scheduler does not find the table without a runnable thread
    in between. *)
Theorem thread_yield_returns u c l :
  length (all_thread u) = MAX_THREAD -> current_thread u = Some c -> (c < MAX_THREAD)%nat ->
  (MAX_THREAD - 1 <= schedules l)%nat -> acts (Yield :: l) u <> UB ->
  exists n u', acts (Yield :: take n l) u = Ret tt u' /\ current_thread u' = Some c /\ cpu u' = cpu u /\
    (schedules (take n l) <= MAX_THREAD - 1)%nat.
Proof.
  intros Hl Hc Hcb Hs Hub. destruct (thread_yield_cases u c Hl Hc Hcb) as (u1 & Hy & Hcase).
  assert (Hrest : forall l, acts (Yield :: l) u = acts l u1) by (intros l'; unfold acts; simpl; mred; by rewrite Hy).
  rewrite Hrest in Hub. setoid_rewrite Hrest. destruct Hcase as [(Hcur & Hcpu)|(n & Hne & Hw)].
  - exists 0%nat, u1. split_and!; [done..|unfold schedules; simpl; lia].
  - pose proof (w_bound _ _ _ _ Hw).
    destruct (waiting_resumes c (cpu u) l n u1 Hw ltac:(order) Hub) as (k & u' & Hk & [_ Hcur _ Hcpu] & Hle).
    exists k, u'. split_and!; [done..|]. order.
Qed.

(** thread_create() takes the first free thread; it starts at [func] on its own
    stack by the time the scheduler has been called MAX_THREAD times. *)
Theorem thread_create_runs u c func l t th :
  length (all_thread u) = MAX_THREAD -> current_thread u = Some c -> (c < MAX_THREAD)%nat -> c <> t ->
  list_find (fun th => t_state th = FREE) (all_thread u) = Some (t, th) ->
  (MAX_THREAD <= schedules l)%nat -> acts (Create func :: l) u <> UB ->
  exists n u', acts (Create func :: take n l) u = Ret tt u' /\ current_thread u' = Some t /\ ra (cpu u') = func /\
    all_thread_addr + Z.of_nat t * sizeof_thread <= sp (cpu u') < all_thread_addr + Z.of_nat t * sizeof_thread + STACK_SIZE.
Proof.
  intros Hl Hc Hcb Hne Hf Hs Hub. pose proof Hf as (Ht & _)%list_find_Some. pose proof (lookup_lt_Some _ _ _ Ht).
  assert (Hcr : exists u1, act (Create func) u = Ret tt u1 /\
     waiting t (set_ra func (set_sp (all_thread_addr + Z.of_nat t * sizeof_thread + (STACK_SIZE - 1)) (t_registers th))) c u1).
  { simpl. unfold thread_create. mred. rewrite Hf. cbn [fmap option_fmap option_map fst default].
    rewrite (upd_thread_eq _ _ _ _ Ht). mred. erewrite upd_thread_eq by (simpl; by rewrite list_lookup_insert_eq). mred.
    erewrite upd_thread_eq by (simpl; by rewrite list_lookup_insert_eq by (by rewrite length_insert)).
    eexists. split; [done|]. split; simpl; [by rewrite !length_insert|done|done|done|].
    by rewrite list_lookup_insert_eq by (by rewrite !length_insert). }
  destruct Hcr as (u1 & Hu1 & Hw).
  assert (Hrest : forall l, acts (Create func :: l) u = acts l u1) by (intros l'; unfold acts; simpl in *; mred; by rewrite Hu1).
  rewrite Hrest in Hub. setoid_rewrite Hrest. pose proof (waiting_bound _ _ _ _ Hw).
  destruct (waiting_resumes _ _ l c u1 Hw ltac:(order) Hub) as (k & u' & Hk & [_ Hcur _ Hcpu] & _).
  exists k, u'. rewrite Hcpu. split_and!; [done..| |]; simpl; unfold STACK_SIZE; lia.
Qed.
End threads.

(** ** A concrete process *)

(** The main thread creates two threads and yields; they compute and yield. *)
Definition main_regs : regi := mkRegi 100 2000 1 2 3 4 5 6 7 8 9 10 11 12.
Definition three_threads : uthreads :=
  match (thread_init;; thread_create 65536 500;; thread_create 65536 600;; modify (set_cpu main_regs))
          (mkUthreads (replicate MAX_THREAD (mkThread FREE regi0)) None regi0) with
  | Ret _ u => u
  | _ => mkUthreads [] None regi0
  end.
Definition behaviour : list action := [Work regi0; Yield; Create 700; Exit; Exit; Yield].

Lemma thread_yield_returns_witness :
  exists n u', acts 65536 (Yield :: take n behaviour) three_threads = Ret tt u' /\ current_thread u' = Some 0%nat /\ cpu u' = main_regs.
Proof.
  destruct (thread_yield_returns 65536 three_threads 0 behaviour) as (n & u' & Hn & Hc & Hr & _);
    [reflexivity|reflexivity|unfold MAX_THREAD; lia|vm_compute; lia|vm_compute; discriminate|].
  exists n, u'. split; [exact Hn|]. split; [exact Hc|]. rewrite Hr. reflexivity.
Defined.
