(* ===== verification/Procnet.v ===== *)
(** * Processes connected by pipes

    User programs that fork and talk through pipes, as scripts of system calls
    run by a scheduler that may pick any process at any step.  For programs in
    which every pipe has one reader and one writer, which exchange whole
    integers, and one process at a time prints, the schedule does not matter:
    steps of different processes commute, so if one schedule ends every
    schedule ends, after as many steps and in the same state.

    fork() succeeds here, which the bound on the number of processes
    justifies.  Pipes have no capacity: that they never need more than the
    kernel's is a theorem.  Bytes written to a pipe that nobody can read any
    more stay unread, where the kernel drops them and the write fails; the
    programs do not look at the result. *)

From S2P Require Import Prelude.

(** Processes and pipes are named after the process that made them: [n :: p]
    is what [p] made after [n] others. *)
Notation path := (list nat).

(** What a descriptor refers to. *)
Inductive fdend :=
| Console
| ReadEnd (pipe : path)
| WriteEnd (pipe : path).

#[export] Instance fdend_eq_dec : EqDecision fdend.
Proof. solve_decision. Defined.

Notation fds := (list (option fdend)).

(** fdalloc: the lowest free descriptor. *)
Fixpoint fd_alloc (t : fds) (x : fdend) : option (nat * fds) :=
  match t with
  | [] => None
  | None :: t => Some (O, Some x :: t)
  | Some y :: t => '(n, t') ← fd_alloc t x; Some (S n, Some y :: t')
  end.

(** The system calls of a program.  A read gives the bytes it returns, none of
    them at the end of the input or on an error.  [Undef] is reached by what the program
    does not provide for: no descriptor left for a pipe, half an integer. *)
Inductive prog :=
| Exit
| Undef
| Read (fd n : nat) (k : list Z -> prog)
| Write (fd : nat) (bs : list Z) (k : prog)
| Pipe (k : nat -> nat -> prog)
| Fork (child parent : prog)
| Close (fd : nat) (k : prog)
| Wait (k : prog).

Inductive task :=
| Live (code : prog) (t : fds) (made : nat)
| Zombie
| Reaped.

(** All bytes ever written to a pipe, and how many of them have been read:
    pi->nwrite and pi->nread with the contents. *)
Record net := mkNet { tasks : gmap path task; written : gmap path (list Z); nread : gmap path nat; output : list Z }.

Definition holds (t : task) (x : fdend) : bool :=
  match t with Live _ fd _ => bool_decide (Some x ∈ fd) | _ => false end.

(** pi->writeopen: some process has the write end open. *)
Definition writeopen (s : net) (id : path) : bool := bool_decide (map_Exists (fun _ t => holds t (WriteEnd id) = true) (tasks s)).

(** The children of [p]: [made] bounds their numbers. *)
Definition children (p : path) (made : nat) : list path := (fun m => m :: p) <$> seq 0 made.
Definition is_zombie (s : net) (c : path) : bool := match tasks s !! c with Some Zombie => true | _ => false end.
Definition is_live (s : net) (c : path) : bool := match tasks s !! c with Some (Live _ _ _) => true | _ => false end.

(** What a step changes. *)
Record effect := mkEffect { e_tasks : list (path * task); e_written : option (path * list Z); e_nread : option (path * nat); e_out : list Z }.

Definition only (p : path) (t : task) : option effect := Some (mkEffect [(p, t)] None None []).

(** The next step of process [p], if it is not blocked. *)
Definition action (p : path) (s : net) : option effect :=
  match tasks s !! p with
  | Some (Live code t made) =>
      match code with
      | Exit => only p Zombie
      | Undef => None
      | Read fd n k =>
          match t !! fd with
          | Some (Some (ReadEnd id)) =>
              match drop (nread s !!! id) (written s !!! id) with
              | [] => if writeopen s id then None else only p (Live (k []) t made)
              | bs => Some (mkEffect [(p, Live (k (take n bs)) t made)] None (Some (id, nread s !!! id + length (take n bs))%nat) [])
              end
          | Some (Some Console) => None
          | _ => only p (Live (k []) t made)
          end
      | Write fd bs k =>
          match t !! fd with
          | Some (Some (WriteEnd id)) => Some (mkEffect [(p, Live k t made)] (Some (id, written s !!! id ++ bs)) None [])
          | Some (Some Console) => Some (mkEffect [(p, Live k t made)] None None bs)
          | _ => only p (Live k t made)
          end
      | Pipe k =>
          let id := made :: p in
          match fd_alloc t (ReadEnd id) with
          | Some (p0, t0) =>
              match fd_alloc t0 (WriteEnd id) with
              | Some (p1, t1) => Some (mkEffect [(p, Live (k p0 p1) t1 (S made))] (Some (id, [])) (Some (id, O)) [])
              | None => only p (Live Undef t made)
              end
          | None => only p (Live Undef t made)
          end
      | Fork child parent => Some (mkEffect [(p, Live parent t (S made)); (made :: p, Live child t O)] None None [])
      | Close fd k => only p (Live k (<[fd := None]> t) made)
      | Wait k =>
          match list_find (fun c => is_zombie s c) (children p made) with
          | Some (_, c) => Some (mkEffect [(p, Live k t made); (c, Reaped)] None None [])
          | None => if existsb (is_live s) (children p made) then None else only p (Live k t made)
          end
      end
  | _ => None
  end.

Definition upd {A} (o : option (path * A)) (m : gmap path A) : gmap path A := match o with Some (k, x) => <[k := x]> m | None => m end.

Definition apply_effect (e : effect) (s : net) : net :=
  mkNet (list_to_map (e_tasks e) ∪ tasks s) (upd (e_written e) (written s)) (upd (e_nread e) (nread s)) (output s ++ e_out e).

Definition step_of (p : path) (s : net) : option net := (fun e => apply_effect e s) <$> action p s.

(** The scheduler may pick any process. *)
Definition step (s s' : net) : Prop := exists p, step_of p s = Some s'.

(** ** Ownership *)

(** What a process may still use: pipes to read and to write, the console, and
    whether it may fork. *)
Record own := mkOwn { o_r : gset path; o_w : gset path; o_c : bool; o_f : bool }.

(** A fork shares out what the process has. *)
Record shared_out (o o1 o2 : own) : Prop := {
  so_r : o_r o1 ∪ o_r o2 ⊆ o_r o;
  so_w : o_w o1 ∪ o_w o2 ⊆ o_w o;
  so_dr : o_r o1 ## o_r o2;
  so_dw : o_w o1 ## o_w o2;
  so_c : o_c o1 || o_c o2 = true -> o_c o = true;
  so_dc : o_c o1 && o_c o2 = false;
  so_f : o_f o = true /\ o_f o2 = false
}.

(** The program keeps to what it owns, whatever it reads, and exchanges
    integers of four bytes. *)
Fixpoint owns (o : own) (t : fds) (p : path) (made : nat) (c : prog) : Prop :=
  match c with
  | Exit | Undef => True
  | Read fd n k => n = 4%nat /\ (exists id, t !! fd = Some (Some (ReadEnd id)) /\ id ∈ o_r o) /\ forall bs, owns o t p made (k bs)
  | Write fd bs k =>
      match t !! fd with
      | Some (Some (WriteEnd id)) => id ∈ o_w o /\ length bs = 4%nat
      | Some (Some Console) => o_c o = true
      | _ => False
      end /\ owns o t p made k
  | Pipe k =>
      let id := made :: p in
      match fd_alloc t (ReadEnd id) with
      | Some (p0, t0) =>
          match fd_alloc t0 (WriteEnd id) with
          | Some (p1, t1) => owns (mkOwn ({[id]} ∪ o_r o) ({[id]} ∪ o_w o) (o_c o) (o_f o)) t1 p (S made) (k p0 p1)
          | None => True
          end
      | None => True
      end
  | Fork child parent => exists o1 o2, shared_out o o1 o2 /\ owns o1 t (made :: p) O child /\ owns o2 t p (S made) parent
  | Close fd k => owns o (<[fd := None]> t) p made k
  | Wait k => owns o t p made k
  end.

(** Names in use. *)
Definition known (O : path -> own) (s : net) (x : path) : Prop :=
  is_Some (tasks s !! x) \/ is_Some (written s !! x) \/ is_Some (nread s !! x) \/ (exists q, x ∈ o_r (O q) \/ x ∈ o_w (O q)) \/ writeopen s x = true.

Definition fresh_names (O : path -> own) (s : net) : Prop :=
  forall x p c t n k m, known O s x -> tasks s !! p = Some (Live c t n) -> x = k ++ m :: p -> (m < n)%nat.

(** Whole integers have been written and read. *)
Definition whole (s : net) (id : path) : Prop := exists a b, nread s !!! id = (4 * a)%nat /\ length (written s !!! id) = (4 * b)%nat /\ (a <= b)%nat.

(** The invariant of a network, with who owns what. *)
Record disciplined (O : path -> own) (s : net) : Prop := {
  d_own p c t n : tasks s !! p = Some (Live c t n) -> owns (O p) t p n c;
  d_r p q : p <> q -> o_r (O p) ## o_r (O q);
  d_w p q : p <> q -> o_w (O p) ## o_w (O q);
  d_c p q : p <> q -> o_c (O p) && o_c (O q) = false;
  d_fresh : fresh_names O s;
  d_child p c t n m : tasks s !! p = Some (Live c t n) -> is_Some (tasks s !! (m :: p)) ->
    o_f (O p) = false /\ forall m', is_Some (tasks s !! (m' :: p)) -> m' = m;
  d_whole id : whole s id
}.

Lemma writeopen_true s id : writeopen s id = true <-> exists q c t n, tasks s !! q = Some (Live c t n) /\ Some (WriteEnd id) ∈ t.
Proof.
  unfold writeopen. rewrite bool_decide_eq_true. split.
  - intros (q & [c t n| |] & Hq & Hh); try done. unfold holds in Hh. rewrite bool_decide_eq_true in Hh. eauto 8.
  - intros (q & c & t & n & Hq & Hin). exists q, (Live c t n). split; [done|]. unfold holds. by rewrite bool_decide_eq_true.
Qed.

Lemma fd_alloc_spec t x n t' : fd_alloc t x = Some (n, t') -> t !! n = Some None /\ t' = <[n := Some x]> t.
Proof.
  revert n t'. induction t as [|[y|] t IH]; intros n t' H; [done| |by injection H as <- <-].
  cbn [fd_alloc] in H. destruct (fd_alloc t x) as [[n0 t0]|] eqn:E; [|done]. injection H as <- <-.
  destruct (IH _ _ eq_refl) as [H1 ->]. done.
Qed.

Lemma elem_of_fd_insert (t : fds) n x y : Some y ∈ <[n := x]> t -> Some y = x \/ Some y ∈ t.
Proof.
  intros [i Hi]%list_elem_of_lookup. apply list_lookup_insert_Some in Hi as [(_ & -> & _)|[_ Hi]]; [by left|]. right. by eapply list_elem_of_lookup_2.
Qed.

(** What a step of [p] touches. *)
Record effect_spec (O : path -> own) (s : net) (p : path) (e : effect) : Prop := {
  es_live : is_live s p = true;
  es_keys q u : (q, u) ∈ e_tasks e -> q = p \/ exists m, q = m :: p /\ is_live s q = false;
  es_written id l : e_written e = Some (id, l) -> ((exists m, id = m :: p) /\ ~ known O s id) \/
    (id ∈ o_w (O p) /\ writeopen s id = true /\ exists bs, l = written s !!! id ++ bs);
  es_nread id m : e_nread e = Some (id, m) -> ((exists m, id = m :: p) /\ ~ known O s id) \/ id ∈ o_r (O p);
  es_out : e_out e <> [] -> o_c (O p) = true;
  es_ends q u id : (q, u) ∈ e_tasks e -> holds u (WriteEnd id) = true -> writeopen s id = true \/ ~ known O s id
}.

Lemma made_unknown O s p c t n : disciplined O s -> tasks s !! p = Some (Live c t n) -> ~ known O s (n :: p).
Proof. intros HD Hp Hk. pose proof (d_fresh _ _ HD (n :: p) p c t n [] n Hk Hp eq_refl). lia. Qed.

Lemma only_spec O s p c t n u :
  tasks s !! p = Some (Live c t n) -> (forall id, holds u (WriteEnd id) = true -> Some (WriteEnd id) ∈ t) -> effect_spec O s p (mkEffect [(p, u)] None None []).
Proof.
  intros Hp Hu. constructor; try done.
  - unfold is_live. by rewrite Hp.
  - intros q v H%list_elem_of_singleton. injection H as -> ->. by left.
  - intros q v id H%list_elem_of_singleton Hh. injection H as -> ->. left. apply writeopen_true. eauto 8.
Qed.

Lemma only_live_spec O s p c t n c' t' n' :
  tasks s !! p = Some (Live c t n) -> (forall id, Some (WriteEnd id) ∈ t' -> Some (WriteEnd id) ∈ t) -> effect_spec O s p (mkEffect [(p, Live c' t' n')] None None []).
Proof. intros Hp Ht. eapply only_spec; [done|]. intros id. unfold holds. rewrite bool_decide_eq_true. apply Ht. Qed.

Lemma zombie_found s p n i c : list_find (fun c => is_zombie s c) (children p n) = Some (i, c) -> exists m, c = m :: p /\ (m < n)%nat /\ tasks s !! c = Some Zombie.
Proof.
  intros (H1 & H2 & _)%list_find_Some. unfold children in H1. rewrite list_lookup_fmap in H1. apply fmap_Some in H1 as (m & Hm%lookup_seq & ->).
  exists m. split_and!; [done|lia|]. unfold is_zombie in H2. destruct (tasks s !! (m :: p)) as [[| |]|]; done.
Qed.

Lemma action_spec O s p e : disciplined O s -> action p s = Some e -> effect_spec O s p e.
Proof.
  intros HD. unfold action. destruct (tasks s !! p) as [[c t n| |]|] eqn:Hp; try done.
  pose proof (d_own _ _ HD _ _ _ _ Hp) as Ho. pose proof (made_unknown _ _ _ _ _ _ HD Hp) as Hun.
  assert (Hl : is_live s p = true) by (unfold is_live; by rewrite Hp).
  assert (Hop : forall id, Some (WriteEnd id) ∈ t -> writeopen s id = true) by (intros id Hin; apply writeopen_true; eauto 8).
  destruct c as [| |fd m k|fd bs k|k|ch pa|fd k|k]; cbn [owns] in Ho.
  - intros [= <-]. by eapply only_spec.
  - done.
  - destruct Ho as (-> & (id & Hfd & Hid) & _). rewrite Hfd. destruct (drop _ _) as [|b bs] eqn:Hd.
    + destruct (writeopen s id); [done|]. intros [= <-]. by eapply only_live_spec.
    + intros [= <-]. destruct (only_live_spec O s p _ t n (k (take 4 (b :: bs))) t n Hp) as [H1 H2 H3 H4 H5 H6]; [done|].
      constructor; try done. intros id' m [= <- <-]. by right.
  - destruct Ho as [Ho _]. destruct (t !! fd) as [[[|id|id]|]|] eqn:Hfd; try done; intros [= <-].
    + destruct (only_live_spec O s p _ t n k t n Hp) as [H1 H2 H3 H4 H5 H6]; [done|]. constructor; done.
    + destruct (only_live_spec O s p _ t n k t n Hp) as [H1 H2 H3 H4 H5 H6]; [done|]. constructor; try done.
      intros id' l [= <- <-]. right. split_and!; [tauto|apply Hop; by eapply list_elem_of_lookup_2|eauto].
  - destruct (fd_alloc t _) as [[p0 t0]|] eqn:E0; [|intros [= <-]; by eapply only_live_spec].
    destruct (fd_alloc t0 _) as [[p1 t1]|] eqn:E1; [|intros [= <-]; by eapply only_live_spec].
    intros [= <-]. apply fd_alloc_spec in E0 as [_ ->]. apply fd_alloc_spec in E1 as [_ ->]. constructor; try done; cbn [e_tasks e_written e_nread].
    + intros q u H%list_elem_of_singleton. injection H as -> ->. by left.
    + intros id l [= <- <-]. left. eauto.
    + intros id l [= <- <-]. left. eauto.
    + intros q u id H%list_elem_of_singleton. injection H as -> ->. unfold holds. rewrite bool_decide_eq_true.
      intros [[= ->]|[?|Hin]%elem_of_fd_insert]%elem_of_fd_insert; [by right|done|left; by apply Hop].
  - intros [= <-]. constructor; try done; cbn [e_tasks].
    + intros q u [H|H%list_elem_of_singleton]%elem_of_cons; injection H as -> ->; [by left|]. right. exists n. split; [done|]. unfold is_live.
      destruct (tasks s !! (n :: p)) eqn:E; [|done]. destruct Hun. left. by rewrite E.
    + intros q u id [H|H%list_elem_of_singleton]%elem_of_cons; injection H as -> ->; unfold holds; rewrite bool_decide_eq_true; intros Hin; left; by apply Hop.
  - intros [= <-]. eapply only_live_spec; [done|]. intros id [?|?]%elem_of_fd_insert; done.
  - destruct (list_find _ _) as [[i c]|] eqn:Hf.
    + intros [= <-]. apply zombie_found in Hf as (m & -> & _ & Hz). constructor; try done; cbn [e_tasks].
      * intros q u [H|H%list_elem_of_singleton]%elem_of_cons; injection H as -> ->; [by left|]. right. exists m. split; [done|]. unfold is_live. by rewrite Hz.
      * intros q u id [H|H%list_elem_of_singleton]%elem_of_cons; injection H as -> ->; unfold holds; [|done]. rewrite bool_decide_eq_true. intros Hin. left. by apply Hop.
    + destruct (existsb _ _); [done|]. intros [= <-]. by eapply only_live_spec.
Qed.

(** ** Steps of different processes commute *)

Lemma tasks_same s1 s2 l : (forall c, c ∈ l -> tasks s1 !! c = tasks s2 !! c) ->
  list_find (fun c => is_zombie s1 c) l = list_find (fun c => is_zombie s2 c) l /\ existsb (is_live s1) l = existsb (is_live s2) l.
Proof.
  induction l as [|c l IH]; intros Hs; [done|]. destruct IH as [IH1 IH2]; [intros c' Hc'; apply Hs; by right|].
  cbn [list_find existsb]. rewrite IH1, IH2. unfold is_zombie, is_live. by rewrite (Hs c) by (by left).
Qed.

Section commute.
  Context (O : path -> own) (s : net) (HD : disciplined O s) (p : path) (e : effect) (HE : effect_spec O s p e).
  Notation s' := (apply_effect e s).

Lemma task_kept q : (forall u, (q, u) ∉ e_tasks e) -> tasks s' !! q = tasks s !! q.
Proof.
  intros Hq. cbn [tasks apply_effect]. rewrite lookup_union_r; [done|]. apply not_elem_of_list_to_map_1. intros [[q' u] [-> Hin]]%list_elem_of_fmap. by apply (Hq u).
Qed.

Lemma task_changed q : tasks s' !! q = tasks s !! q \/ exists u, (q, u) ∈ e_tasks e /\ tasks s' !! q = Some u.
Proof.
  cbn [tasks apply_effect]. destruct ((list_to_map (e_tasks e) : gmap path task) !! q) as [u|] eqn:E.
  - right. exists u. split; [by apply elem_of_list_to_map_2|]. by apply lookup_union_Some_l.
  - left. by rewrite lookup_union_r.
Qed.

Lemma live_kept q : q <> p -> is_live s q = true -> tasks s' !! q = tasks s !! q.
Proof using HE.
  intros Hne Hl. apply task_kept. intros u [->|(m & -> & Hn)]%(es_keys _ _ _ _ HE); congruence.
Qed.

(** The children of another process. *)
Lemma child_task_kept q m : q <> p -> m :: q <> p -> tasks s' !! (m :: q) = tasks s !! (m :: q).
Proof using HE. intros Hne Hm. apply task_kept. intros u [?|(m' & [= ? ?] & _)]%(es_keys _ _ _ _ HE); done. Qed.

Lemma read_kept q id : q <> p -> id ∈ o_r (O q) -> nread s' !!! id = nread s !!! id.
Proof using HD HE.
  intros Hne Hid. cbn [nread apply_effect]. unfold upd. destruct (e_nread e) as [[id' m]|] eqn:E; [|done].
  rewrite lookup_total_insert_ne; [done|]. intros ->. destruct (es_nread _ _ _ _ HE _ _ E) as [[_ Hu]|Hin].
  - apply Hu. right. right. right. left. exists q. by left.
  - by apply (d_r _ _ HD q p Hne id).
Qed.

Lemma written_kept q id : q <> p -> id ∈ o_w (O q) -> written s' !!! id = written s !!! id.
Proof using HD HE.
  intros Hne Hid. cbn [written apply_effect]. unfold upd. destruct (e_written e) as [[id' l]|] eqn:E; [|done].
  rewrite lookup_total_insert_ne; [done|]. intros ->. destruct (es_written _ _ _ _ HE _ _ E) as [[_ Hu]|[Hin _]].
  - apply Hu. right. right. right. left. exists q. by right.
  - by apply (d_w _ _ HD q p Hne id).
Qed.

(** A pipe that is in use only grows, and only through an open write end. *)
Lemma written_grows id : known O s id -> exists bs, written s' !!! id = written s !!! id ++ bs /\ (bs <> [] -> writeopen s id = true).
Proof using HE.
  intros Hk. cbn [written apply_effect]. unfold upd. destruct (e_written e) as [[id' l]|] eqn:E; [|exists []; by rewrite app_nil_r].
  destruct (decide (id' = id)) as [->|Hne]; [|exists []; by rewrite lookup_total_insert_ne, app_nil_r].
  destruct (es_written _ _ _ _ HE _ _ E) as [[_ Hu]|(_ & Hw & bs & ->)]; [done|]. exists bs. by rewrite lookup_total_insert_eq.
Qed.

Lemma closed_kept id : known O s id -> writeopen s id = false -> writeopen s' id = false.
Proof using HE.
  intros Hk Hc. apply not_true_iff_false. intros (q & c & t & n & Hq & Hin)%writeopen_true.
  destruct (task_changed q) as [E|(u & Hu & Hs)].
  - rewrite E in Hq. apply not_true_iff_false in Hc. apply Hc, writeopen_true. eauto 8.
  - rewrite Hq in Hs. injection Hs as <-.
    destruct (es_ends _ _ _ _ HE q _ id Hu) as [?|?]; [unfold holds; by rewrite bool_decide_eq_true|congruence|done].
Qed.

(** What another process can do next does not depend on the step. *)
Lemma action_stable q e' : q <> p -> action q s = Some e' -> action q s' = Some e'.
Proof using HD HE.
  intros Hne HA. pose proof (es_live _ _ _ _ (action_spec _ _ _ _ HD HA)) as Hl. unfold action in *. rewrite (live_kept q Hne Hl).
  destruct (tasks s !! q) as [[c t n| |]|] eqn:Hq; try done. pose proof (d_own _ _ HD _ _ _ _ Hq) as Ho.
  destruct c as [| |fd m k|fd bs k|k|ch pa|fd k|k]; cbn [owns] in Ho; try done.
  - destruct Ho as (-> & (id & Hfd & Hid) & _). rewrite Hfd in HA |- *. rewrite (read_kept q id Hne Hid).
    assert (Hk : known O s id) by (right; right; right; left; exists q; by left).
    destruct (written_grows id Hk) as (bs & -> & Hopen). destruct (d_whole _ _ HD id) as (a & b & Ha & Hb & Hab).
    rewrite drop_app_le by lia. destruct (drop _ (written s !!! id)) as [|x l] eqn:Hd.
    + destruct (writeopen s id) eqn:Hw; [done|]. rewrite (closed_kept id Hk Hw). destruct bs as [|x bs]; [done|]. by specialize (Hopen ltac:(done)).
    + rewrite <- app_comm_cons. assert (Hlen : (4 <= length (x :: l))%nat).
      { pose proof (f_equal length Hd) as Hlen. rewrite length_drop in Hlen. cbn [length] in *. lia. }
      rewrite app_comm_cons, take_app_le by done. done.
  - destruct Ho as [Ho _]. destruct (t !! fd) as [[[|id|id]|]|]; try done. destruct Ho as [Hid _]. by rewrite (written_kept q id Hne Hid).
  - assert (Hch : forall c, c ∈ children q n -> tasks s' !! c = tasks s !! c).
    { intros c (m & -> & Hm)%list_elem_of_fmap. apply child_task_kept; [done|]. intros Hp. apply elem_of_seq in Hm.
      pose proof (es_live _ _ _ _ HE) as Hlp. assert (Hs : is_Some (tasks s !! (m :: q))) by (rewrite Hp; unfold is_live in Hlp; by destruct (tasks s !! p)).
      destruct (d_child _ _ HD q _ _ _ m Hq Hs) as [_ Huniq]. destruct (list_find _ _) as [[i c]|] eqn:Hf.
      - apply zombie_found in Hf as (m' & -> & _ & Hz). assert (m' = m) as -> by (apply Huniq; by rewrite Hz). rewrite Hp in Hz. unfold is_live in Hlp. by rewrite Hz in Hlp.
      - destruct (existsb _ _) eqn:Hex; [done|]. apply not_true_iff_false in Hex. apply Hex, existsb_exists. exists (m :: q). rewrite Hp. split; [|done].
        rewrite <- Hp. apply list_elem_of_In, list_elem_of_fmap. exists m. split; [done|]. apply elem_of_seq. lia. }
    destruct (tasks_same s' s _ Hch) as [-> ->]. done.
Qed.
End commute.

Lemma upd_commute {A} (o o' : option (path * A)) m :
  (forall k x k' x', o = Some (k, x) -> o' = Some (k', x') -> k <> k') -> upd o' (upd o m) = upd o (upd o' m).
Proof. unfold upd. destruct o as [[k x]|], o' as [[k' x']|]; try done. intros Hne. apply insert_insert_ne. intros ->. by eapply Hne. Qed.

Lemma effects_commute O s p q e e' : disciplined O s -> p <> q -> effect_spec O s p e -> effect_spec O s q e' ->
  apply_effect e' (apply_effect e s) = apply_effect e (apply_effect e' s).
Proof.
  intros HD Hne H1 H2. unfold apply_effect. cbn [tasks written nread output]. f_equal.
  - rewrite !(assoc_L (∪)). f_equal. apply map_union_comm. apply map_disjoint_spec.
    intros k u u' Hu%elem_of_list_to_map_2 Hu'%elem_of_list_to_map_2.
    pose proof (es_live _ _ _ _ H1). pose proof (es_live _ _ _ _ H2).
    destruct (es_keys _ _ _ _ H2 _ _ Hu) as [->|(m & -> & Hm)], (es_keys _ _ _ _ H1 _ _ Hu') as [E|(m' & E & Hm')]; congruence.
  - apply upd_commute. intros id l id' l' E E' <-.
    destruct (es_written _ _ _ _ H1 _ _ E) as [[[m Em] Hu]|[Hin _]], (es_written _ _ _ _ H2 _ _ E') as [[[m' Em'] Hu']|[Hin' _]].
    + congruence.
    + apply Hu. right. right. right. left. exists q. by right.
    + apply Hu'. right. right. right. left. exists p. by right.
    + by apply (d_w _ _ HD p q Hne id).
  - apply upd_commute. intros id l id' l' E E' <-.
    destruct (es_nread _ _ _ _ H1 _ _ E) as [[[m Em] Hu]|Hin], (es_nread _ _ _ _ H2 _ _ E') as [[[m' Em'] Hu']|Hin'].
    + congruence.
    + apply Hu. right. right. right. left. exists q. by left.
    + apply Hu'. right. right. right. left. exists p. by left.
    + by apply (d_r _ _ HD p q Hne id).
  - pose proof (d_c _ _ HD p q Hne) as Hc. destruct (e_out e) as [|x l] eqn:E; [by rewrite !app_nil_r|].
    destruct (e_out e') as [|x' l'] eqn:E'; [by rewrite !app_nil_r|]. pose proof (es_out _ _ _ _ H1 ltac:(congruence)) as C1.
    pose proof (es_out _ _ _ _ H2 ltac:(congruence)) as C2. by rewrite C1, C2 in Hc.
Qed.

(** The diamond: two processes that can step can do so in either order. *)
Lemma step_diamond O s p q s1 s2 : disciplined O s -> p <> q -> step_of p s = Some s1 -> step_of q s = Some s2 ->
  exists s3, step_of q s1 = Some s3 /\ step_of p s2 = Some s3.
Proof.
  intros HD Hne H1 H2. unfold step_of in H1, H2. apply fmap_Some in H1 as (e1 & A1 & ->). apply fmap_Some in H2 as (e2 & A2 & ->).
  pose proof (action_spec _ _ _ _ HD A1) as E1. pose proof (action_spec _ _ _ _ HD A2) as E2.
  exists (apply_effect e2 (apply_effect e1 s)). unfold step_of. rewrite (action_stable O s HD p e1 E1 q e2 (not_eq_sym Hne) A2).
  rewrite (action_stable O s HD q e2 E2 p e1 Hne A1). split; [done|]. simpl. f_equal. symmetry. by eapply effects_commute.
Qed.

(** ** The discipline is kept *)

Lemma fresh_step O s O' s' p c t n n' : fresh_names O s -> tasks s !! p = Some (Live c t n) -> (n <= n')%nat ->
  (forall x, known O' s' x -> known O s x \/ (x = n :: p /\ (n < n')%nat)) ->
  (forall q c u m, tasks s' !! q = Some (Live c u m) ->
    (q = p /\ m = n') \/ (q <> p /\ exists c u, tasks s !! q = Some (Live c u m)) \/ (q = n :: p /\ m = 0%nat /\ (n < n')%nat)) ->
  fresh_names O' s'.
Proof.
  intros HF Hp Hn Hk Hl x q c' u m k j Hx Hq E. assert (Hkp : known O s p) by (left; by rewrite Hp).
  destruct (Hl _ _ _ _ Hq) as [[-> ->]|[(Hqp & c1 & u1 & Hq1)|(-> & -> & Hlt)]], (Hk x Hx) as [Ko|[-> Hlt']].
  - pose proof (HF x p c t n k j Ko Hp E). lia.
  - destruct k as [|a k]; [injection E as <-; done|]. injection E as _ E. apply (f_equal length) in E. rewrite length_app in E. cbn [length] in E. lia.
  - by eapply HF.
  - destruct k as [|a k]; [by injection E as _ <-|]. injection E as _ E. by apply (HF p q c1 u1 m k j).
  - assert (n < n)%nat; [|lia]. apply (HF x p c t n (k ++ [j]) n); [done|done|]. by rewrite E, <- app_assoc.
  - apply (f_equal length) in E. rewrite length_app in E. cbn [length] in E. lia.
Qed.

Lemma known_owner O s q x : x ∈ o_r (O q) \/ x ∈ o_w (O q) -> known O s x.
Proof. intros H. right. right. right. left. by exists q. Qed.

Lemma known_open O s q c t n x : tasks s !! q = Some (Live c t n) -> Some (WriteEnd x) ∈ t -> known O s x.
Proof. intros Hq Hin. right. right. right. right. apply writeopen_true. eauto 8. Qed.

(** A step that changes the process itself and pipes. *)
Section local.
  Context (O : path -> own) (s s' : net) (p : path) (c : prog) (t : fds) (n : nat) (o' : own) (c' : prog) (t' : fds) (n' : nat).
  Context (HD : disciplined O s) (Hp : tasks s !! p = Some (Live c t n)) (Hn : (n <= n')%nat).
  Context (Ht : tasks s' = <[p := Live c' t' n']> (tasks s)).
  Context (Hown : owns o' t' p n' c').
  Context (Hr : forall x, x ∈ o_r o' -> x ∈ o_r (O p) \/ (x = n :: p /\ (n < n')%nat)).
  Context (Hw : forall x, x ∈ o_w o' -> x ∈ o_w (O p) \/ (x = n :: p /\ (n < n')%nat)).
  Context (Hc : o_c o' = o_c (O p)) (Hf : o_f o' = o_f (O p)).
  Context (Hends : forall x, Some (WriteEnd x) ∈ t' -> Some (WriteEnd x) ∈ t \/ (x = n :: p /\ (n < n')%nat)).
  Context (Hpw : forall x, is_Some (written s' !! x) -> known O s x \/ (x = n :: p /\ (n < n')%nat)).
  Context (Hpr : forall x, is_Some (nread s' !! x) -> known O s x \/ (x = n :: p /\ (n < n')%nat)).
  Context (Hwhole : forall id, whole s' id).

Lemma local_task q : is_Some (tasks s' !! q) <-> is_Some (tasks s !! q).
Proof using Hp Ht. rewrite Ht, lookup_insert_is_Some'. split; [intros [<-|?]; [by rewrite Hp|done]|by right]. Qed.

Lemma local_known x : known (<[p := o']> O) s' x -> known O s x \/ (x = n :: p /\ (n < n')%nat).
Proof using Type*.
  intros [H|[H|[H|[(q & H)|H]]]].
  - left. left. by apply local_task.
  - by apply Hpw.
  - by apply Hpr.
  - destruct (decide (p = q)) as [<-|Hne].
    + rewrite fn_lookup_insert in H. destruct H as [[H|H]%Hr|[H|H]%Hw]; try (by right); left; apply (known_owner O s p); tauto.
    + rewrite fn_lookup_insert_ne in H by done. left. by apply (known_owner O s q).
  - apply writeopen_true in H as (q & c0 & t0 & n0 & Hq & Hin). rewrite Ht in Hq. apply lookup_insert_Some in Hq as [[<- [= <- <- <-]]|[_ Hq]].
    + destruct (Hends x Hin) as [H|H]; [left|by right]. by eapply known_open.
    + left. by eapply known_open.
Qed.

Lemma disciplined_local : disciplined (<[p := o']> O) s'.
Proof using Type*.
  assert (Hun : forall q x, q <> p -> x ∈ o_r (O q) \/ x ∈ o_w (O q) -> x <> n :: p).
  { intros q x _ H%(known_owner O s) ->. by apply (made_unknown _ _ _ _ _ _ HD Hp). }
  assert (Hdr : forall q, q <> p -> o_r o' ## o_r (O q)).
  { intros q Hq x [H|[-> _]]%Hr H2; [by apply (d_r _ _ HD q p Hq x)|]. by apply (Hun q _ Hq (or_introl H2)). }
  assert (Hdw : forall q, q <> p -> o_w o' ## o_w (O q)).
  { intros q Hq x [H|[-> _]]%Hw H2; [by apply (d_w _ _ HD q p Hq x)|]. by apply (Hun q _ Hq (or_intror H2)). }
  constructor.
  - intros q c0 t0 n0 Hq. rewrite Ht in Hq. apply lookup_insert_Some in Hq as [[<- [= <- <- <-]]|[Hne Hq]].
    + by rewrite fn_lookup_insert.
    + rewrite fn_lookup_insert_ne by done. by apply (d_own _ _ HD).
  - intros a b Hne. destruct (decide (p = a)) as [<-|Ha], (decide (p = b)) as [<-|Hb]; rewrite ?fn_lookup_insert, ?fn_lookup_insert_ne by done;
      [done|by apply Hdr|symmetry; by apply Hdr|by apply (d_r _ _ HD)].
  - intros a b Hne. destruct (decide (p = a)) as [<-|Ha], (decide (p = b)) as [<-|Hb]; rewrite ?fn_lookup_insert, ?fn_lookup_insert_ne by done;
      [done|by apply Hdw|symmetry; by apply Hdw|by apply (d_w _ _ HD)].
  - intros a b Hne. destruct (decide (p = a)) as [<-|Ha], (decide (p = b)) as [<-|Hb]; rewrite ?fn_lookup_insert, ?fn_lookup_insert_ne, ?Hc by done;
      [done|by apply (d_c _ _ HD)|by apply (d_c _ _ HD)|by apply (d_c _ _ HD)].
  - apply (fresh_step O s _ s' p c t n n' (d_fresh _ _ HD) Hp Hn local_known).
    intros q c0 u m Hq. rewrite Ht in Hq. apply lookup_insert_Some in Hq as [[<- [= <- <- <-]]|[Hne Hq]]; [by left|]. right. left. split; [done|]. eauto.
  - intros q c0 t0 n0 m Hq Hm. assert (Hq0 : exists c0 t0 n0, tasks s !! q = Some (Live c0 t0 n0)).
    { rewrite Ht in Hq. apply lookup_insert_Some in Hq as [[<- _]|[_ Hq]]; eauto. }
    destruct Hq0 as (c1 & t1 & n1 & Hq1). apply local_task in Hm. destruct (d_child _ _ HD q c1 t1 n1 m Hq1 Hm) as [H1 H2].
    split; [|intros m' Hm'%local_task; by apply H2]. destruct (decide (p = q)) as [<-|Hne]; [by rewrite fn_lookup_insert, Hf|by rewrite fn_lookup_insert_ne].
  - done.
Qed.
End local.

(** A process that ends, or is waited for. *)
Lemma disciplined_retire O s p u : disciplined O s -> is_Some (tasks s !! p) -> (u = Zombie \/ u = Reaped) ->
  disciplined O (mkNet (<[p := u]> (tasks s)) (written s) (nread s) (output s)).
Proof.
  intros HD Hp Hu. set (s' := mkNet _ _ _ _).
  assert (Hl : forall q c t n, tasks s' !! q = Some (Live c t n) -> tasks s !! q = Some (Live c t n)).
  { intros q c t n Hq. cbn [s' tasks] in Hq. apply lookup_insert_Some in Hq as [[_ Hq]|[_ Hq]]; [|done]. by destruct Hu as [-> | ->]. }
  assert (Hs : forall q, is_Some (tasks s' !! q) -> is_Some (tasks s !! q)).
  { intros q Hq. cbn [s' tasks] in Hq. apply lookup_insert_is_Some' in Hq as [<-|Hq]; done. }
  constructor; try apply HD.
  - intros q c t n Hq%Hl. by apply (d_own _ _ HD).
  - intros x q c t n k m Hk Hq%Hl E. eapply (d_fresh _ _ HD); [|done|done]. destruct Hk as [H%Hs|[H|[H|[H|H]]]]; [by left|by right; left|by right; right; left|by right; right; right; left|].
    apply writeopen_true in H as (q' & c' & t' & n' & Hq'%Hl & Hin). exact (known_open O s _ _ _ _ _ Hq' Hin).
  - intros q c t n m Hq%Hl Hm%Hs. destruct (d_child _ _ HD q c t n m Hq Hm) as [H1 H2]. split; [done|]. intros m' Hm'%Hs. by apply H2.
Qed.

Lemma fork_owner (O : path -> own) p x o1 o2 q : (<[p := o2]> (<[x := o1]> O)) q = if decide (q = p) then o2 else if decide (q = x) then o1 else O q.
Proof.
  case_decide as E1; [subst; apply fn_lookup_insert|]. rewrite fn_lookup_insert_ne by done.
  case_decide as E2; [subst; apply fn_lookup_insert|]. by apply fn_lookup_insert_ne.
Qed.

Lemma shared_disjoint (f : own -> gset path) (O : path -> own) p x o1 o2 : x <> p -> (forall a b, a <> b -> f (O a) ## f (O b)) ->
  f o1 ∪ f o2 ⊆ f (O p) -> f o1 ## f o2 -> forall a b, a <> b -> f ((<[p := o2]> (<[x := o1]> O)) a) ## f ((<[p := o2]> (<[x := o1]> O)) b).
Proof.
  intros Hx HO Hsub Hd a b Hne. rewrite !fork_owner. pose proof (HO p a) as Ha. pose proof (HO p b) as Hb. specialize (HO a b Hne).
  repeat case_decide; subst; try done; set_solver.
Qed.

Lemma shared_console O s p x o1 o2 : disciplined O s -> x <> p -> shared_out (O p) o1 o2 ->
  forall a b, a <> b -> o_c ((<[p := o2]> (<[x := o1]> O)) a) && o_c ((<[p := o2]> (<[x := o1]> O)) b) = false.
Proof.
  intros HD Hx HS a b Hne. rewrite !fork_owner. pose proof (d_c _ _ HD p a) as Ha. pose proof (d_c _ _ HD p b) as Hb. pose proof (d_c _ _ HD a b Hne) as Hab.
  pose proof (so_c _ _ _ HS) as H1. pose proof (so_dc _ _ _ HS) as H2.
  destruct (o_c o1) eqn:E1, (o_c o2) eqn:E2, (o_c (O p)) eqn:Ep, (o_c (O a)) eqn:Ea, (o_c (O b)) eqn:Eb; repeat case_decide; subst; rewrite ?E1, ?E2, ?Ea, ?Eb; naive_solver.
Qed.

Lemma disciplined_fork O s p ch pa t n o1 o2 : disciplined O s -> tasks s !! p = Some (Live (Fork ch pa) t n) ->
  shared_out (O p) o1 o2 -> owns o1 t (n :: p) 0 ch -> owns o2 t p (S n) pa ->
  disciplined (<[p := o2]> (<[n :: p := o1]> O)) (mkNet (<[p := Live pa t (S n)]> (<[n :: p := Live ch t 0%nat]> (tasks s))) (written s) (nread s) (output s)).
Proof.
  intros HD Hp HS Hch Hpa. set (O' := <[p := _]> _). set (s' := mkNet _ _ _ _). pose proof (made_unknown _ _ _ _ _ _ HD Hp) as Hun.
  assert (Hnp : n :: p <> p) by (intros E; apply (f_equal length) in E; simpl in E; lia).
  assert (Op : O' p = o2) by apply fn_lookup_insert.
  assert (Oc : O' (n :: p) = o1) by (unfold O'; rewrite fn_lookup_insert_ne by done; apply fn_lookup_insert).
  assert (Oq : forall q, q <> p -> q <> n :: p -> O' q = O q) by (intros q H1 H2; unfold O'; by rewrite !fn_lookup_insert_ne by done).
  assert (Hl : forall q c u m, tasks s' !! q = Some (Live c u m) -> (q = p /\ c = pa /\ u = t /\ m = S n) \/ (q = n :: p /\ c = ch /\ u = t /\ m = 0%nat) \/
    (q <> p /\ q <> n :: p /\ tasks s !! q = Some (Live c u m))).
  { intros q c u m Hq. cbn [s' tasks] in Hq. apply lookup_insert_Some in Hq as [[<- [= <- <- <-]]|[H1 Hq]]; [by left|].
    apply lookup_insert_Some in Hq as [[<- [= <- <- <-]]|[H2 Hq]]; [by right; left|]. right. right. split_and!; by try apply not_eq_sym. }
  assert (Hs : forall q, is_Some (tasks s' !! q) -> is_Some (tasks s !! q) \/ q = n :: p).
  { intros q Hq. cbn [s' tasks] in Hq. apply lookup_insert_is_Some' in Hq as [<-|Hq]; [left; by rewrite Hp|].
    apply lookup_insert_is_Some' in Hq as [<-|Hq]; [by right|by left]. }
  assert (Hk : forall x, known O' s' x -> known O s x \/ (x = n :: p /\ (n < S n)%nat)).
  { intros x [[H|H]%Hs|[H|[H|[(q & H)|H]]]]; [left; by left|right; split; [done|lia]|left; by right; left|left; by right; right; left| |]; left.
    - destruct (decide (q = p)) as [->|N1]; [|destruct (decide (q = n :: p)) as [->|N2]].
      + rewrite Op in H. apply (known_owner O s p). destruct HS as [A1 A2 _ _ _ _ _]. set_solver.
      + rewrite Oc in H. apply (known_owner O s p). destruct HS as [A1 A2 _ _ _ _ _]. set_solver.
      + rewrite Oq in H by done. by apply (known_owner O s q).
    - apply writeopen_true in H as (q & c & u & m & Hq & Hin). destruct (Hl _ _ _ _ Hq) as [(-> & -> & -> & ->)|[(-> & -> & -> & ->)|(_ & _ & Hq')]]; by eapply known_open. }
  constructor.
  - intros q c u m Hq. destruct (Hl _ _ _ _ Hq) as [(-> & -> & -> & ->)|[(-> & -> & -> & ->)|(N1 & N2 & Hq')]];
      [by rewrite Op|by rewrite Oc|]. rewrite Oq by done. by apply (d_own _ _ HD).
  - apply shared_disjoint; [done|apply HD|apply HS|apply HS].
  - apply shared_disjoint; [done|apply HD|apply HS|apply HS].
  - by apply (shared_console O s).
  - apply (fresh_step O s O' s' p _ t n (S n) (d_fresh _ _ HD) Hp ltac:(lia) Hk).
    intros q c u m Hq. destruct (Hl _ _ _ _ Hq) as [(-> & -> & -> & ->)|[(-> & -> & -> & ->)|(N1 & N2 & Hq')]];
      [by left|right; right; split_and!; [done|done|lia]|right; left; split; [done|eauto]].
  - intros q c u m j Hq Hj. destruct (Hl _ _ _ _ Hq) as [(-> & -> & -> & ->)|[(-> & -> & -> & ->)|(N1 & N2 & Hq')]].
    + assert (Hone : forall i, is_Some (tasks s' !! (i :: p)) -> i = n).
      { intros i [Hi|Hi]%Hs; [|by injection Hi]. destruct (d_child _ _ HD p _ _ _ i Hp Hi) as [Hf _]. destruct (so_f _ _ _ HS) as [Hf' _]. congruence. }
      rewrite Op. split; [apply HS|]. intros i Hi. by rewrite (Hone i Hi), (Hone j Hj).
    + destruct (Hs _ Hj) as [Hj'|Hj']; [|apply (f_equal length) in Hj'; simpl in Hj'; lia].
      pose proof (d_fresh _ _ HD (j :: n :: p) p _ t n [j] n (or_introl Hj') Hp eq_refl). lia.
    + assert (Hold : forall i, is_Some (tasks s' !! (i :: q)) -> is_Some (tasks s !! (i :: q))) by (intros i [Hi|Hi]%Hs; [done|]; by injection Hi as _ ->).
      rewrite Oq by done. destruct (d_child _ _ HD q _ _ _ j Hq' (Hold _ Hj)) as [H1 H2]. split; [done|]. intros i Hi. by apply H2, Hold.
  - apply HD.
Qed.

(** A step of the process alone. *)
Lemma disciplined_move O s s' p c t n c' t' : disciplined O s -> tasks s !! p = Some (Live c t n) ->
  tasks s' = <[p := Live c' t' n]> (tasks s) -> owns (O p) t' p n c' -> (forall x, Some (WriteEnd x) ∈ t' -> Some (WriteEnd x) ∈ t) ->
  (forall x, is_Some (written s' !! x) -> known O s x) -> (forall x, is_Some (nread s' !! x) -> known O s x) -> (forall id, whole s' id) ->
  exists O', disciplined O' s'.
Proof.
  intros HD Hp Ht Ho He Hw Hr Hwh. exists (<[p := O p]> O). apply (disciplined_local O s s' p c t n (O p) c' t' n); auto.
Qed.

Lemma known_written O s x : is_Some (written s !! x) -> known O s x.
Proof. intros H. by right; left. Qed.
Lemma known_read O s x : is_Some (nread s !! x) -> known O s x.
Proof. intros H. by right; right; left. Qed.

(** Whole integers are appended and taken. *)
Lemma whole_write s id bs u out : length bs = 4%nat -> (forall x, whole s x) ->
  forall x, whole (mkNet u (<[id := written s !!! id ++ bs]> (written s)) (nread s) out) x.
Proof.
  intros Hl Hw x. destruct (Hw x) as (a & b & Ha & Hb & Hab). unfold whole. cbn [written nread]. destruct (decide (id = x)) as [->|Hne].
  - exists a, (S b). rewrite lookup_total_insert_eq, length_app. split_and!; lia.
  - exists a, b. by rewrite lookup_total_insert_ne.
Qed.

Lemma whole_read s id x0 l u out : drop (nread s !!! id) (written s !!! id) = x0 :: l -> (forall x, whole s x) ->
  forall x, whole (mkNet u (written s) (<[id := (nread s !!! id + length (take 4 (x0 :: l)))%nat]> (nread s)) out) x.
Proof.
  intros Hd Hw x. destruct (Hw x) as (a & b & Ha & Hb & Hab). unfold whole. cbn [written nread]. destruct (decide (id = x)) as [->|Hne].
  - apply (f_equal length) in Hd. rewrite length_drop in Hd. cbn [length] in Hd. exists (S a), b. rewrite lookup_total_insert_eq, length_take.
    cbn [length]. split_and!; lia.
  - exists a, b. by rewrite lookup_total_insert_ne.
Qed.

Lemma whole_pipe s id u out : (forall x, whole s x) -> forall x, whole (mkNet u (<[id := []]> (written s)) (<[id := 0%nat]> (nread s)) out) x.
Proof.
  intros Hw x. unfold whole. cbn [written nread]. destruct (decide (id = x)) as [->|Hne]; [exists 0%nat, 0%nat; by rewrite !lookup_total_insert_eq|].
  rewrite !lookup_total_insert_ne by done. apply Hw.
Qed.

Lemma tasks_one (p : path) (u : task) (m : gmap path task) : (list_to_map [(p, u)] : gmap path task) ∪ m = <[p := u]> m.
Proof. cbn [list_to_map foldr]. rewrite insert_empty. symmetry. apply insert_union_singleton_l. Qed.

Lemma tasks_two (p q : path) (u v : task) (m : gmap path task) : (list_to_map [(p, u); (q, v)] : gmap path task) ∪ m = <[p := u]> (<[q := v]> m).
Proof. rewrite <- (tasks_one q v m), insert_union_l. done. Qed.

Lemma disciplined_step O s p s' : disciplined O s -> step_of p s = Some s' -> exists O', disciplined O' s'.
Proof.
  intros HD. unfold step_of, action. destruct (tasks s !! p) as [[c t n| |]|] eqn:Hp; try done.
  pose proof (d_own _ _ HD _ _ _ _ Hp) as Ho. pose proof (d_whole _ _ HD) as Hwh. pose proof (known_written O s) as Kw. pose proof (known_read O s) as Kr.
  destruct c as [| |fd m k|fd bs k|k|ch pa|fd k|k]; cbn [owns] in Ho.
  - intros [= <-]. unfold apply_effect. cbn [e_tasks e_written e_nread e_out upd]. rewrite tasks_one, app_nil_r. exists O. apply disciplined_retire; [done|by rewrite Hp|by left].
  - done.
  - destruct Ho as (-> & (id & Hfd & Hid) & Hk). rewrite Hfd. destruct (drop _ _) as [|x l] eqn:Hd.
    + destruct (writeopen s id); [done|]. intros [= <-]. eapply (disciplined_move O s _ p _ t n); [done|done|apply tasks_one|apply Hk|done..].
    + intros [= <-]. eapply (disciplined_move O s _ p _ t n); [done|done|apply tasks_one|apply Hk|done|done| |by eapply whole_read].
      cbn [nread apply_effect e_nread upd]. intros y [<-|H]%lookup_insert_is_Some'; [|by apply Kr]. apply (known_owner O s p). by left.
  - destruct Ho as [Ho Hk]. destruct (t !! fd) as [[[|id|id]|]|] eqn:Hfd; try done; intros [= <-].
    + eapply (disciplined_move O s _ p _ t n); [done|done|apply tasks_one|done..].
    + eapply (disciplined_move O s _ p _ t n); [done|done|apply tasks_one|done|done| |done|apply whole_write; [apply Ho|done]].
      cbn [written apply_effect e_written upd]. intros y [<-|H]%lookup_insert_is_Some'; [|by apply Kw]. apply (known_owner O s p). right. apply Ho.
  - unfold only. destruct (fd_alloc t _) as [[p0 t0]|] eqn:E0.
    2: { intros [= <-]. eapply (disciplined_move O s _ p _ t n); [done|done|apply tasks_one|done..]. }
    destruct (fd_alloc t0 _) as [[p1 t1]|] eqn:E1.
    2: { intros [= <-]. eapply (disciplined_move O s _ p _ t n); [done|done|apply tasks_one|done..]. }
    intros [= <-]. apply fd_alloc_spec in E0 as [_ ->]. apply fd_alloc_spec in E1 as [_ ->]. eexists.
    eapply (disciplined_local O s _ p _ t n); [done|done|apply Nat.le_succ_diag_r|apply tasks_one|exact Ho|..]; cbn [o_r o_w o_c o_f written nread apply_effect e_written e_nread upd];
      try done.
    + set_solver by lia.
    + set_solver by lia.
    + intros x [[= ->]|[?|?]%elem_of_fd_insert]%elem_of_fd_insert; [right; split; [done|lia]|done|by left].
    + intros y [<-|H]%lookup_insert_is_Some'; [right; split; [done|lia]|left; by apply Kw].
    + intros y [<-|H]%lookup_insert_is_Some'; [right; split; [done|lia]|left; by apply Kr].
    + by apply whole_pipe.
  - destruct Ho as (o1 & o2 & HS & H1 & H2). intros [= <-]. eexists. unfold apply_effect. cbn [e_tasks e_written e_nread e_out upd]. rewrite tasks_two, app_nil_r.
    by eapply disciplined_fork.
  - intros [= <-]. eapply (disciplined_move O s _ p _ t n); [done|done|apply tasks_one|done| |done..]. intros x [?|?]%elem_of_fd_insert; done.
  - destruct (list_find _ _) as [[i c]|] eqn:Hf.
    + intros [= <-]. apply zombie_found in Hf as (m & -> & _ & Hz).
      destruct (disciplined_move O s (mkNet (<[p := Live k t n]> (tasks s)) (written s) (nread s) (output s)) p (Wait k) t n k t) as [O' HD']; try done.
      exists O'. unfold apply_effect. cbn [e_tasks e_written e_nread e_out upd]. rewrite tasks_two, app_nil_r.
      rewrite insert_insert_ne by (intros E; apply (f_equal length) in E; simpl in E; lia).
      apply (disciplined_retire O' _ (m :: p) Reaped HD'); [|by right]. cbn [tasks]. apply lookup_insert_is_Some'. right. by rewrite Hz.
    + destruct (existsb _ _); [done|]. intros [= <-]. eapply (disciplined_move O s _ p _ t n); [done|done|apply tasks_one|done..].
Qed.

(** ** Every schedule is as good as one *)

Lemma ends_step O n s s' f : disciplined O s -> nsteps step n s f -> (forall x, ~ step f x) -> step s s' -> exists n', n = S n' /\ nsteps step n' s' f.
Proof.
  intros HD Hn Hf. revert O s' HD. induction Hn as [s|n s s1 f H1 Hn IH]; intros O s' HD Hs; [by apply Hf in Hs|].
  exists n. split; [done|]. destruct H1 as [p Hp], Hs as [q Hq]. destruct (decide (p = q)) as [<-|Hne]; [congruence|].
  destruct (step_diamond O s p q s1 s' HD Hne Hp Hq) as (s3 & Hq' & Hp'). destruct (disciplined_step O s p s1 HD Hp) as [O1 HD1].
  destruct (IH Hf O1 s3 HD1) as (n' & -> & H3); [by exists q|]. apply (nsteps_l _ _ _ s3); [by exists p|done].
Qed.

(** If one schedule ends in [f] after [n] steps, every run is part of one that
    does: it has not taken more steps, and can be continued to [f]. *)
Theorem every_schedule O n s f : disciplined O s -> nsteps step n s f -> (forall x, ~ step f x) ->
  forall m s', nsteps step m s s' -> exists r, n = (m + r)%nat /\ nsteps step r s' f.
Proof.
  intros HD Hn Hf m s' Hm. revert O n HD Hn. induction Hm as [s|m s s1 s' H1 _ IH]; intros O n HD Hn; [by exists n|].
  destruct (ends_step O n s s1 f HD Hn Hf H1) as (n' & -> & Hn'). destruct H1 as [p Hp]. destruct (disciplined_step O s p s1 HD Hp) as [O1 HD1].
  destruct (IH O1 n' HD1 Hn') as (r & -> & Hr). by exists r.
Qed.

(** What only grows. *)
Lemma step_output s s' : step s s' -> output s `prefix_of` output s'.
Proof. intros [p Hp]. apply fmap_Some in Hp as (e & _ & ->). cbn [output apply_effect]. by eexists. Qed.

Lemma step_tasks s s' q : step s s' -> is_Some (tasks s !! q) -> is_Some (tasks s' !! q).
Proof. intros [p Hp] Hq. apply fmap_Some in Hp as (e & _ & ->). cbn [tasks apply_effect]. apply lookup_union_is_Some. by right. Qed.

Lemma step_undef O s s' q t n : disciplined O s -> step s s' -> tasks s !! q = Some (Live Undef t n) -> tasks s' !! q = Some (Live Undef t n).
Proof.
  intros HD [p Hp] Hq. apply fmap_Some in Hp as (e & He & ->). rewrite (live_kept O s p e (action_spec _ _ _ _ HD He) q); [done| |unfold is_live; by rewrite Hq].
  intros ->. unfold action in He. by rewrite Hq in He.
Qed.

Lemma step_written O s s' id : disciplined O s -> step s s' -> written s !!! id `prefix_of` written s' !!! id.
Proof.
  intros HD [p Hp]. apply fmap_Some in Hp as (e & He & ->). destruct (written s !! id) as [l|] eqn:E.
  - destruct (written_grows O s p e (action_spec _ _ _ _ HD He) id) as (bs & -> & _); [right; left; by rewrite E|by eexists].
  - rewrite lookup_total_alt, E. apply prefix_nil.
Qed.

(** Along a run to [f]. *)
Lemma run_grows O n s f : disciplined O s -> nsteps step n s f ->
  output s `prefix_of` output f /\ (forall q, is_Some (tasks s !! q) -> is_Some (tasks f !! q)) /\
  (forall id, written s !!! id `prefix_of` written f !!! id) /\ (forall q t n, tasks s !! q = Some (Live Undef t n) -> tasks f !! q = Some (Live Undef t n)).
Proof.
  intros HD Hn. revert O HD. induction Hn as [s|n s s1 f H1 _ IH]; intros O HD; [done|].
  pose proof H1 as [p Hp]. destruct (disciplined_step O s p s1 HD Hp) as [O1 HD1]. destruct (IH O1 HD1) as (I1 & I2 & I3 & I4). split_and!.
  - etrans; [by apply step_output|done].
  - intros q Hq. by apply I2, (step_tasks s).
  - intros id. etrans; [by eapply step_written|done].
  - intros q t m Hq. by apply I4, (step_undef O s).
Qed.

Lemma run_disciplined O n s f : disciplined O s -> nsteps step n s f -> exists O', disciplined O' f.
Proof.
  intros HD Hn. revert O HD. induction Hn as [s|n s s1 f [p Hp] _ IH]; intros O HD; [by exists O|].
  destruct (disciplined_step O s p s1 HD Hp) as [O1 HD1]. by apply (IH O1).
Qed.

Lemma run_stops n s f : nsteps step n s f -> s = f \/ exists s', step s s'.
Proof. destruct 1; eauto. Qed.
