(* ===== verification/Primes.v ===== *)
(** * The prime sieve: primes.c

    A chain of processes, one for each prime, that pass the numbers on through
    pipes. *)

From S2P Require Import Prelude State CString Printf Pipe Procnet.

(** printf("prime %d\n", prime): each character is a write to descriptor 1. *)
Definition putchars (l : list Z) (k : prog) : prog := foldr (fun c => Write 1 [c]) k l.
Definition prime_line (prime : Z) : list Z := default [] (vprintf (fun _ => None) (take 8 (cstr "prime %d") ++ [10]) [u32 prime]).

(** An int variable filled by read(fd, &x, sizeof(x)); the rest of the program
    runs only with all of it. *)
Definition int_of (bs : list Z) : Z := s32 (le_val bs).

(** The loop of the parent: numbers that [prime] does not divide are passed on.
    [fuel] bounds the numbers that are read. *)
Fixpoint filter_loop (fuel : nat) (read_fd out : nat) (prime : Z) (k : prog) : prog :=
  match fuel with
  | O => Undef
  | S fuel =>
      Read read_fd 4 (fun bs =>
        match bs with
        | [] => k
        | _ =>
            if negb (length bs =? 4)%nat || (prime =? 0) then Undef
            else if negb (Z.rem (int_of bs) prime =? 0) then Write out bs (filter_loop fuel read_fd out prime k)
            else filter_loop fuel read_fd out prime k
        end)
  end.

(** sieve(read_fd), and [k] where it returns. *)
Fixpoint sieve (fuel : nat) (read_fd : nat) (k : prog) : prog :=
  match fuel with
  | O => Undef
  | S fuel =>
      Read read_fd 4 (fun bs =>
        match bs with
        | [] => Close read_fd k
        | _ =>
            if negb (length bs =? 4)%nat then Undef else
            let prime := int_of bs in
            putchars (prime_line prime)
              (Pipe (fun p0 p1 =>
                Fork (Close p1 (sieve fuel p0 Exit))
                  (Close p0 (filter_loop fuel read_fd p1 prime (Close read_fd (Close p1 (Wait Exit)))))))
        end)
  end.

(** for(int i = 2; i <= 35; i++) write(p[1], &i, sizeof(i)); *)
Definition feed (out : nat) (l : list Z) (k : prog) : prog := foldr (fun i => Write out (le_bytes 4 i)) k l.

Definition main_to (bound : Z) (fuel : nat) : prog :=
  Pipe (fun p0 p1 =>
    Fork (Close p1 (sieve fuel p0 Exit))
      (Close p0 (feed p1 (zrange 2 (bound + 1)) (Close p1 (Wait Exit))))).
Definition main : nat -> prog := main_to 35.

(** The shell starts it with descriptors 0, 1 and 2 open. *)
Definition started (code : prog) : net := mkNet {[ [] := Live code (replicate 3 (Some Console) ++ replicate (NOFILE - 3) None) 0 ]} ∅ ∅ [].
Definition start : net := started (main 40).


(** ** A schedule *)

(** The first process in the order of the table that can make a step. *)
Definition first_step (s : net) : option net :=
  foldr (fun p acc => match step_of p s with Some s' => Some s' | None => acc end) None (map_to_list (tasks s)).*1.

Fixpoint schedule (fuel : nat) (s : net) : net :=
  match fuel with
  | O => s
  | S fuel => match first_step s with Some s' => schedule fuel s' | None => s end
  end.

Fixpoint schedule_length (fuel : nat) (s : net) : nat :=
  match fuel with
  | O => O
  | S fuel => match first_step s with Some s' => S (schedule_length fuel s') | None => O end
  end.

Definition STEPS : nat := 400.
Definition finish : net := schedule STEPS start.

Lemma first_step_step s s' : first_step s = Some s' -> step s s'.
Proof.
  unfold first_step. induction (map_to_list (tasks s)).*1 as [|p l IH]; cbn [foldr]; [done|].
  destruct (step_of p s) as [s1|] eqn:E; [|by apply IH]. intros [= <-]. by exists p.
Qed.

Lemma first_step_none s : first_step s = None -> forall s', ~ step s s'.
Proof.
  intros Hn s' [p Hp]. assert (Hin : p ∈ (map_to_list (tasks s)).*1).
  { unfold step_of, action in Hp. destruct (tasks s !! p) as [u|] eqn:E; [|done]. apply list_elem_of_fmap. exists (p, u). split; [done|]. by apply elem_of_map_to_list. }
  unfold first_step in Hn. induction (map_to_list (tasks s)).*1 as [|q l IH]; [by apply not_elem_of_nil in Hin|]. cbn [foldr] in Hn.
  destruct (step_of q s) eqn:E; [done|]. apply elem_of_cons in Hin as [->|Hin]; [congruence|by apply IH].
Qed.

Lemma schedule_steps fuel s : nsteps step (schedule_length fuel s) s (schedule fuel s).
Proof.
  revert s. induction fuel as [|fuel IH]; intros s; cbn [schedule schedule_length]; [constructor|].
  destruct (first_step s) as [s'|] eqn:E; [|constructor]. apply (nsteps_l _ _ _ s'); [by apply first_step_step|done].
Qed.

Lemma finish_reached : nsteps step STEPS start finish.
Proof. assert (E : schedule_length STEPS start = STEPS) by (vm_compute; reflexivity). rewrite <- E at 1. apply schedule_steps. Qed.

Lemma finish_final s : ~ step finish s.
Proof. apply first_step_none. vm_compute. reflexivity. Qed.

(** ** The program keeps to what it owns *)

Lemma putchars_owns o t p n l k : t !! 1%nat = Some (Some Console) -> o_c o = true -> owns o t p n k -> owns o t p n (putchars l k).
Proof. intros Ht Hc Hk. induction l as [|c l IH]; [done|]. cbn [putchars foldr owns]. by rewrite Ht. Qed.

Lemma filter_loop_owns fuel o t p n fd out prime k id id' :
  t !! fd = Some (Some (ReadEnd id)) -> id ∈ o_r o -> t !! out = Some (Some (WriteEnd id')) -> id' ∈ o_w o -> owns o t p n k ->
  owns o t p n (filter_loop fuel fd out prime k).
Proof.
  intros H1 H2 H3 H4 Hk. induction fuel as [|fuel IH]; [done|]. cbn [filter_loop owns]. split_and!; [done|eauto|].
  intros [|b bs]; [done|]. destruct (length (b :: bs) =? 4)%nat eqn:El; [|done]. destruct (prime =? 0); [done|]. cbn [negb orb].
  destruct (negb _); [|done]. cbn [owns]. rewrite H3. split; [|done]. split; [done|]. by apply Nat.eqb_eq.
Qed.

Lemma feed_owns o t p n out l k id : t !! out = Some (Some (WriteEnd id)) -> id ∈ o_w o -> owns o t p n k -> owns o t p n (feed out l k).
Proof. intros Ht Hid Hk. induction l as [|i l IH]; [done|]. cbn [feed foldr owns]. by rewrite Ht, length_le_bytes. Qed.

(** The descriptors after pipe(). *)
Lemma piped (t : fds) id p0 t0 p1 t1 : fd_alloc t (ReadEnd id) = Some (p0, t0) -> fd_alloc t0 (WriteEnd id) = Some (p1, t1) ->
  p0 <> p1 /\ t1 !! p0 = Some (Some (ReadEnd id)) /\ t1 !! p1 = Some (Some (WriteEnd id)) /\
  forall fd x, t !! fd = Some (Some x) -> t1 !! fd = Some (Some x) /\ fd <> p0 /\ fd <> p1.
Proof.
  intros [H0 ->]%fd_alloc_spec [H1 ->]%fd_alloc_spec. assert (Hne : p0 <> p1).
  { intros <-. rewrite list_lookup_insert_eq in H1 by (by eapply lookup_lt_Some). done. }
  pose proof (lookup_lt_Some _ _ _ H0). pose proof (lookup_lt_Some _ _ _ H1). split_and!; [done| | |].
  - rewrite list_lookup_insert_ne by done. by rewrite list_lookup_insert_eq.
  - by rewrite list_lookup_insert_eq.
  - intros fd x Hfd. rewrite list_lookup_insert_ne in H1 by done. assert (fd <> p0) by congruence. assert (fd <> p1) by congruence.
    by rewrite !list_lookup_insert_ne.
Qed.

(** A stage reads from its pipe, which an ancestor made, and prints. *)
Lemma sieve_owns fuel o t p n fd id : t !! fd = Some (Some (ReadEnd id)) -> id ∈ o_r o -> (length id <= length p)%nat ->
  t !! 1%nat = Some (Some Console) -> o_c o = true -> o_f o = true -> owns o t p n (sieve fuel fd Exit).
Proof.
  revert o t p n fd id. induction fuel as [|fuel IH]; intros o t p n fd id Hfd Hid Hlen Hcon Hc Hf; [done|].
  cbn [sieve owns]. split_and!; [done|eauto|]. intros [|b bs]; [done|]. destruct (negb _); [done|]. cbv zeta. apply putchars_owns; [done|done|].
  cbn [owns]. destruct (fd_alloc t _) as [[p0 t0]|] eqn:E0; [|done]. destruct (fd_alloc t0 _) as [[p1 t1]|] eqn:E1; [|done].
  destruct (piped _ _ _ _ _ _ E0 E1) as (Hne & HR & HW & Hold). destruct (Hold _ _ Hfd) as (Hfd1 & N0 & N1). destruct (Hold _ _ Hcon) as (Hcon1 & C0 & C1).
  assert (Hid' : id <> n :: p) by (intros ->; simpl in Hlen; lia).
  exists (mkOwn {[n :: p]} ∅ true true), (mkOwn {[id]} {[n :: p]} false false). split_and!.
  - constructor; cbn [o_r o_w o_c o_f]; try set_solver. all: done.
  - apply (IH _ _ _ _ _ (n :: p)); cbn [o_r o_c o_f length]; try done; [by rewrite list_lookup_insert_ne|set_solver|by rewrite list_lookup_insert_ne].
  - apply (filter_loop_owns _ _ _ _ _ _ _ _ _ id (n :: p)); cbn [o_r o_w]; [by rewrite list_lookup_insert_ne|set_solver|by rewrite list_lookup_insert_ne|set_solver|done].
Qed.

Lemma main_owns fuel t p n o : t !! 1%nat = Some (Some Console) -> o_c o = true -> o_f o = true -> owns o t p n (main fuel).
Proof.
  intros Hcon Hc Hf. unfold main. cbn [main_to owns]. destruct (fd_alloc t _) as [[p0 t0]|] eqn:E0; [|done]. destruct (fd_alloc t0 _) as [[p1 t1]|] eqn:E1; [|done].
  destruct (piped _ _ _ _ _ _ E0 E1) as (Hne & HR & HW & Hold). destruct (Hold _ _ Hcon) as (Hcon1 & C0 & C1).
  exists (mkOwn {[n :: p]} ∅ true true), (mkOwn ∅ {[n :: p]} false false). split_and!.
  - constructor; cbn [o_r o_w o_c o_f]; try set_solver. all: done.
  - apply (sieve_owns _ _ _ _ _ _ (n :: p)); cbn [o_r o_c o_f length]; try done; [by rewrite list_lookup_insert_ne|set_solver|by rewrite list_lookup_insert_ne].
  - apply (feed_owns _ _ _ _ _ _ _ (n :: p)); cbn [o_w]; [by rewrite list_lookup_insert_ne|set_solver|done].
Qed.

Definition start_owner (p : path) : own := mkOwn ∅ ∅ (bool_decide (p = [])) true.

Lemma start_disciplined : disciplined start_owner start.
Proof.
  assert (Hl : forall p c t n, tasks start !! p = Some (Live c t n) -> p = []) by (intros p c t n Hp; cbn [tasks start started] in Hp; by apply lookup_singleton_Some in Hp as [<- _]).
  assert (Hs : forall p, is_Some (tasks start !! p) -> p = []) by (intros p [u Hp]; cbn [tasks start started] in Hp; by apply lookup_singleton_Some in Hp as [<- _]).
  constructor; try done.
  - intros p c t n Hp. pose proof (Hl _ _ _ _ Hp) as ->. cbn [tasks start started] in Hp. rewrite lookup_singleton_eq in Hp. injection Hp as <- <- <-. by apply main_owns.
  - intros p q Hne. unfold start_owner. cbn [o_c]. do 2 case_bool_decide; [congruence|done..].
  - intros x p c t n k m Hk Hp ->. pose proof (Hl _ _ _ _ Hp) as ->. destruct Hk as [H%Hs|[H|[H|[[q H]|H]]]].
    + by destruct k.
    + cbn [written start started] in H. rewrite lookup_empty in H. by destruct H.
    + cbn [nread start started] in H. rewrite lookup_empty in H. by destruct H.
    + cbn [start_owner o_r o_w] in H. set_solver.
    + apply writeopen_true in H as (q & c' & t' & n' & Hq & Hin). pose proof (Hl _ _ _ _ Hq) as ->. cbn [tasks start started] in Hq.
      rewrite lookup_singleton_eq in Hq. injection Hq as <- <- <-. apply list_elem_of_In in Hin. clear -Hin. vm_compute in Hin. naive_solver.
  - intros p c t n m Hp Hm%Hs. done.
  - intros id. exists 0%nat, 0%nat. split_and!; [|by cbn [written start started]; rewrite lookup_total_empty|done]. cbn [nread start started]. by rewrite lookup_total_empty.
Qed.

(** ** What it prints *)

Definition is_prime (n : Z) : bool := forallb (fun d => negb (n mod d =? 0)) (zrange 2 n).
Definition prime_lines : list Z := concat (prime_line <$> List.filter is_prime (zrange 2 36)).

Definition ended (t : task) : bool := match t with Live _ _ _ => false | _ => true end.

Lemma finish_output : output finish = prime_lines.
Proof. vm_compute. reflexivity. Qed.

Lemma finish_ended : forallb (fun kt => ended kt.2) (map_to_list (tasks finish)) = true.
Proof. vm_compute. reflexivity. Qed.

Lemma finish_size : size (tasks finish) = 13%nat.
Proof. vm_compute. reflexivity. Qed.

Lemma finish_pipes : forallb (fun kl => (length kl.2 <=? Z.to_nat PIPESIZE)%nat) (map_to_list (written finish)) = true.
Proof. vm_compute. reflexivity. Qed.

#[local] Opaque finish.

Lemma finish_task p t : tasks finish !! p = Some t -> ended t = true.
Proof.
  intros E%elem_of_map_to_list%list_elem_of_In. pose proof finish_ended as H. rewrite forallb_forall in H. exact (H _ E).
Qed.

Lemma finish_written x : Z.of_nat (length (written finish !!! x)) <= PIPESIZE.
Proof.
  rewrite lookup_total_alt. destruct (written finish !! x) as [l|] eqn:E; cbn [from_option]; [|vm_compute; discriminate].
  apply elem_of_map_to_list, list_elem_of_In in E. pose proof finish_pipes as H. rewrite forallb_forall in H. specialize (H _ E). cbn [snd] in H.
  apply Nat.leb_le in H. change (Z.to_nat PIPESIZE) with 512%nat in H. unfold PIPESIZE, id. lia.
Qed.

(** C27. primes.c under every schedule of its processes.  It takes at most 400
    steps and never deadlocks: a process can go on until all have ended, and
    then the lines of the primes to 35 are on the console, in order; before,
    a prefix of them is.  There are never more than 13 processes, every call
    of pipe() finds two descriptors, integers arrive whole, and no pipe is
    ever asked to hold more than its 512 bytes, so that no write sleeps. *)
Theorem primes_every_schedule : forall m s, nsteps step m start s ->
  (m <= STEPS)%nat /\ output s `prefix_of` prime_lines /\
  (forall p t n, tasks s !! p <> Some (Live Undef t n)) /\ (size (tasks s) <= 13)%nat /\ (forall id, Z.of_nat (length (written s !!! id)) <= PIPESIZE) /\
  ((exists s', step s s') \/ (output s = prime_lines /\ forall p t, tasks s !! p = Some t -> ended t = true)).
Proof.
  intros m s Hm. destruct (every_schedule _ _ _ _ start_disciplined finish_reached finish_final m s Hm) as (r & Hr & Hs).
  destruct (run_disciplined _ _ _ _ start_disciplined Hm) as [O HD]. destruct (run_grows O r s finish HD Hs) as (G1 & G2 & G3 & G4). split_and!.
  - lia.
  - by rewrite <- finish_output.
  - intros p t n H%G4%finish_task. done.
  - rewrite <- finish_size, <- !size_dom. apply subseteq_size. intros q. rewrite !elem_of_dom. apply G2.
  - intros id. etrans; [|apply (finish_written id)]. apply inj_le, prefix_length, G3.
  - destruct (run_stops _ _ _ Hs) as [->|Hstep]; [right|by left]. split; [apply finish_output|exact finish_task].
Qed.

(** A run to the end: the console shows the primes. *)
Lemma primes_every_schedule_witness : output finish = prime_lines.
Proof.
  destruct (primes_every_schedule STEPS finish finish_reached) as (_ & _ & _ & _ & _ & [[s' H]|[H _]]); [destruct (finish_final s' H)|exact H].
Defined.

(** The child of a stage keeps the read end its parent uses, so stage [k]
    starts with [k + 3] descriptors: to 36 they are just enough, to 37 the
    twelfth stage finds none for its pipe. *)
Definition undefined (s : net) : bool := existsb (fun kt => match kt.2 with Live Undef _ _ => true | _ => false end) (map_to_list (tasks s)).

Lemma primes_descriptor_limit :
  undefined (schedule 500 (started (main_to 36 40))) = false /\ undefined (schedule 500 (started (main_to 37 40))) = true.
Proof. split; vm_compute; reflexivity. Qed.
