(* ===== verification/Umalloc.v ===== *)
(** * The user-level allocator (user/umalloc.c)

    Kernighan and Ritchie's allocator: a circular list of free blocks in
    address order, anchored at the static header [base].  A header cell is
    known by its address; [h_ptr] and [h_size] are the fields s.ptr and s.size
    of all cells (the bytes between headers belong to the clients).  sbrk
    moves the break when the kernel can provide the memory, which [grows]
    decides.  A NULL pointer is 0. *)

From S2P Require Import Prelude.

(** sizeof(Header) *)
Definition HDR : Z := 16.
Definition SBRK_ERROR : Z := -1.

Record heap := mkHeap {
  h_ptr : gmap Z Z;
  h_size : gmap Z Z;
  h_freep : Z;
  h_brk : Z;
}.

Definition set_ptr (a x : Z) : M heap unit :=
  modify (fun h => mkHeap (<[a := x]> (h_ptr h)) (h_size h) (h_freep h) (h_brk h)).
Definition set_size (a x : Z) : M heap unit :=
  modify (fun h => mkHeap (h_ptr h) (<[a := x]> (h_size h)) (h_freep h) (h_brk h)).
Definition set_freep (x : Z) : M heap unit :=
  modify (fun h => mkHeap (h_ptr h) (h_size h) x (h_brk h)).
Definition get_ptr (a : Z) : M heap Z := gets (fun h => h_ptr h !!! a).
Definition get_size (a : Z) : M heap Z := gets (fun h => h_size h !!! a).

Section umalloc.
  (* the address of [base], and whether the kernel can move the break *)
  Context (base : Z) (grows : Z -> Z -> bool).

(** The system call as a user program sees it: the old break, or SBRK_ERROR. *)
Definition sbrk (n : Z) : M heap Z :=
  b ← gets h_brk;
  if grows b n then
    modify (fun h => mkHeap (h_ptr h) (h_size h) (h_freep h) (b + n));; mret b
  else mret SBRK_ERROR.

(** One step of the search in free() for the block after which [bp] goes. *)
Definition free_search (bp p : Z) : M heap (Z + Z) :=
  n ← get_ptr p;
  if (p <? bp) && (bp <? n) then mret (inr p)
  else if (n <=? p) && ((p <? bp) || (bp <? n)) then mret (inr p)
  else mret (inl n).

(** Joining [bp] with the block above it, or linking it to that block. *)
Definition join_upper (bp p : Z) : M heap unit :=
  n ← get_ptr p;
  sz ← get_size bp;
  if bp + HDR * sz =? n then
    nsz ← get_size n;
    set_size bp (u32 (sz + nsz));;
    nn ← get_ptr n;
    set_ptr bp nn
  else set_ptr bp n.

(** Joining the block [p] below with [bp], or linking it to [bp]. *)
Definition join_lower (bp p : Z) : M heap unit :=
  psz ← get_size p;
  if p + HDR * psz =? bp then
    sz ← get_size bp;
    set_size p (u32 (psz + sz));;
    n ← get_ptr bp;
    set_ptr p n
  else set_ptr p bp.

(** Every block on the list has an entry in [h_ptr], which bounds the search. *)
Definition free (ap : Z) : M heap unit :=
  let bp := ap - HDR in
  fp ← gets h_freep;
  cells ← gets (fun h => size (h_ptr h));
  p ← loop (S cells) (free_search bp) fp;
  join_upper bp p;;
  join_lower bp p;;
  set_freep p.

Definition morecore (nu : Z) : M heap Z :=
  let nu := if nu <? 4096 then 4096 else nu in
  p ← sbrk (s32 (u64 (nu * HDR)));
  if p =? SBRK_ERROR then mret 0 else
  set_size p nu;;
  free (p + HDR);;
  gets h_freep.

(** Taking [nunits] units from the block [p], which has at least as many:
    the whole block, or its tail. *)
Definition carve (nunits prevp p : Z) : M heap Z :=
  sz ← get_size p;
  p ← (if sz =? nunits then
         n ← get_ptr p;
         set_ptr prevp n;;
         mret p
       else
         set_size p (u32 (sz - nunits));;
         sz' ← get_size p;
         set_size (p + HDR * sz') nunits;;
         mret (p + HDR * sz'));
  set_freep prevp;;
  mret (p + HDR).

(** One iteration of the loop of malloc(), at the pair (prevp, p). *)
Definition malloc_step (nunits : Z) (pp : Z * Z) : M heap (Z * Z + Z) :=
  let '(prevp, p) := pp in
  sz ← get_size p;
  if nunits <=? sz then r ← carve nunits prevp p; mret (inr r) else
  fp ← gets h_freep;
  if p =? fp then
    p ← morecore nunits;
    if p =? 0 then mret (inr 0) else n ← get_ptr p; mret (inl (p, n))
  else n ← get_ptr p; mret (inl (p, n)).

Definition units (nbytes : Z) : Z := u32 ((nbytes + HDR - 1) / HDR + 1).

(** At most twice around the list: once before morecore() and once after. *)
Definition malloc (nbytes : Z) : M heap Z :=
  let nunits := units nbytes in
  fp ← gets h_freep;
  prevp ← (if fp =? 0 then
             set_ptr base base;; set_freep base;; set_size base 0;; mret base
           else mret fp);
  p ← get_ptr prevp;
  cells ← gets (fun h => size (h_ptr h));
  loop (2 * cells + 4) (malloc_step nunits) (prevp, p).

End umalloc.

(** Two blocks from a fresh heap, freed in the order of their allocation. *)
Example malloc_ex :
  let m := malloc 100 (fun _ _ => true) in
  match (a ← m 20; b ← m 100; free a;; free b;; c ← m 65000; mret (a, b, c)) (mkHeap ∅ ∅ 0 4096) with
  | Ret r h => r = (4096 + 65536 - 32, 4096 + 65536 - 32 - 128, 4096 + 528) /\ h_freep h = 100
  | _ => False
  end.
Proof. vm_compute. split; reflexivity. Qed.

(** A request of 2^31 bytes makes morecore() ask sbrk for a negative number of
    bytes: the break moves down and the block returned lies above it. *)
Example malloc_huge :
  match malloc 100 (fun _ _ => true) (2 ^ 31) (mkHeap ∅ ∅ 0 (2 ^ 31 + 4096)) with
  | Ret r h => h_brk h < r /\ h_brk h = 4096 + 16
  | _ => False
  end.
Proof. vm_compute. split; reflexivity. Qed.
