(* ===== verification/Uheap.v ===== *)
(** * The user-level allocator: invariant and specification

    The cells of the free list are a list of (address, units) pairs in address
    order that starts with [base] and is linked in a ring; no two of them
    touch.  Together with the blocks handed out they partition the heap. *)

From S2P Require Import Prelude Umalloc.

Notation block := (Z * Z)%type.

(** ** Lists of blocks *)

(** The address a list of cells starts with, [z] if it is empty. *)
Definition start (z : Z) (l : list block) : Z :=
  match l with [] => z | (a, _) :: _ => a end.

(** The cells of [l] are linked one to the next, the last one to [z]. *)
Fixpoint path (h : heap) (l : list block) (z : Z) : Prop :=
  match l with
  | [] => True
  | (a, s) :: l' => h_size h !! a = Some s /\ h_ptr h !! a = Some (start z l') /\ path h l' z
  end.

(** Cells above [lo] in address order with room between them. *)
Fixpoint ordered (lo : Z) (l : list block) : Prop :=
  match l with
  | [] => True
  | (a, s) :: l' => lo < a /\ 0 <= s /\ ordered (a + HDR * s) l'
  end.

(** The address [x] lies in one of the blocks of [l]. *)
Definition inside (l : list block) (x : Z) : Prop :=
  exists a s, (a, s) ∈ l /\ a <= x < a + HDR * s.

Definition inside_live (live : gmap Z Z) (x : Z) : Prop :=
  exists a s, live !! a = Some s /\ a <= x < a + HDR * s.

Definition apart (a s b t : Z) : Prop := a + HDR * s <= b \/ b + HDR * t <= a.

Section uheap.
  (* [heap0] is the first address of the heap *)
  Context (base heap0 : Z).

(** The heap [h] with the cells [l] on the free list and the blocks [live]
    (address to units) handed out. *)
Record um_wf (h : heap) (l : list block) (live : gmap Z Z) : Prop := {
  um_cells : exists fs, l = (base, 0) :: fs /\ Forall (fun c => 0 < c.2) fs;
  um_path : path h l base;
  um_freep : h_freep h ∈ l.*1;
  um_ordered : ordered (base - 1) l;
  um_live a s : live !! a = Some s -> 0 < s /\ h_size h !! a = Some s;
  um_disj x : inside l x -> ~ inside_live live x;
  um_apart_live a s b t : live !! a = Some s -> live !! b = Some t -> a <> b -> apart a s b t;
  um_part x : inside l x \/ inside_live live x <-> heap0 <= x < h_brk h;
  um_bounds : 0 < base /\ base + HDR <= heap0 /\ heap0 <= h_brk h <= 2 ^ 32;
}.

(** The allocator before its first use, or with a well-formed free list. *)
Definition heap_ok (h : heap) (live : gmap Z Z) : Prop :=
  (h_freep h = 0 /\ live = ∅ /\ h_brk h = heap0 /\ 0 < base /\ base + HDR <= heap0 <= 2 ^ 32) \/
  exists l, um_wf h l live.

(** ** Facts about lists of blocks *)

Lemma start_app z l1 l2 : start z (l1 ++ l2) = start (start z l2) l1.
Proof. by destruct l1 as [|[a s] l1]. Qed.

Lemma path_app h l1 l2 z : path h (l1 ++ l2) z <-> path h l1 (start z l2) /\ path h l2 z.
Proof.
  induction l1 as [|[a s] l1 IH]; simpl; [tauto|]. rewrite IH, start_app. tauto.
Qed.

(** The ring can be entered at any of its cells. *)
Lemma path_rotate h l z a : path h l (start z l) -> a ∈ l.*1 ->
  exists s r, (a, s) :: r ≡ₚ l /\ path h ((a, s) :: r) a.
Proof.
  intros Hp Ha. apply list_elem_of_fmap in Ha as ([a' s] & -> & Ha). simpl.
  apply list_elem_of_split in Ha as (l1 & l2 & ->). exists s, (l2 ++ l1). split; [solve_Permutation|].
  rewrite path_app in Hp. destruct Hp as [H1 H2]. rewrite start_app in H1, H2. simpl in *.
  destruct H2 as (Hs & Hn & H2). split_and!; [done| |].
  - destruct l1 as [|[b t] l1]; simpl in *; [by rewrite app_nil_r|]. by destruct l2 as [|[c u] l2].
  - destruct l1 as [|[b t] l1]; simpl in *; [by rewrite app_nil_r|]. rewrite path_app. done.
Qed.

Lemma path_elem h l z a s : path h l z -> (a, s) ∈ l -> h_size h !! a = Some s /\ is_Some (h_ptr h !! a).
Proof.
  induction l as [|[b t] l IH]; simpl; [by intros _ ?%elem_of_nil|].
  intros (Hs & Hn & Hp). rewrite elem_of_cons. intros [[= -> ->]|H]; [by split|by apply IH].
Qed.

(** Updates of other cells do not matter. *)
Lemma path_ext h h' l z :
  (forall a, a ∈ l.*1 -> h_size h' !! a = h_size h !! a /\ h_ptr h' !! a = h_ptr h !! a) ->
  path h l z -> path h' l z.
Proof.
  induction l as [|[a s] l IH]; simpl; [done|]. intros He (Hs & Hn & Hp).
  destruct (He a) as [-> ->]; [by left|]. split_and!; [done..|]. apply IH; [|done].
  intros b Hb. apply He. by right.
Qed.

Lemma ordered_weaken lo lo' l : lo' <= lo -> ordered lo l -> ordered lo' l.
Proof. destruct l as [|[a s] l]; simpl; [done|]. intuition lia. Qed.

Lemma ordered_elem lo l a s : ordered lo l -> (a, s) ∈ l -> lo < a /\ 0 <= s.
Proof.
  revert lo. induction l as [|[b t] l IH]; intros lo; simpl; [by intros _ ?%elem_of_nil|].
  unfold HDR in *. intros (H1 & H2 & H3). rewrite elem_of_cons. intros [[= -> ->]|H]; [done|].
  destruct (IH _ H3 H). lia.
Qed.

Lemma ordered_split lo l1 p t l2 :
  ordered lo (l1 ++ (p, t) :: l2) <-> ordered lo (l1 ++ [(p, t)]) /\ ordered (p + HDR * t) l2.
Proof.
  revert lo. induction l1 as [|[a s] l1 IH]; intros lo; simpl; [tauto|]. rewrite IH. tauto.
Qed.

Lemma ordered_grow lo l1 p t t' : ordered lo (l1 ++ [(p, t)]) -> 0 <= t' -> ordered lo (l1 ++ [(p, t')]).
Proof.
  revert lo. induction l1 as [|[a s] l1 IH]; intros lo; simpl; [tauto|]. intros (? & ? & ?) ?. auto.
Qed.

Lemma ordered_before lo l1 p t l2 a s : ordered lo (l1 ++ (p, t) :: l2) -> (a, s) ∈ l1 -> a + HDR * s < p.
Proof.
  revert lo. induction l1 as [|[b u] l1 IH]; intros lo; simpl; [by intros _ ?%elem_of_nil|].
  intros (H1 & H2 & H3). rewrite elem_of_cons. intros [[= -> ->]|H]; [|by eapply IH].
  destruct (ordered_elem _ _ p t H3); [|lia]. apply elem_of_app. right. by left.
Qed.

Lemma ordered_NoDup lo l : ordered lo l -> NoDup l.*1.
Proof.
  revert lo. induction l as [|[a s] l IH]; intros lo; simpl; [constructor|]. intros (H1 & H2 & H3).
  constructor; [|by eapply IH]. rewrite list_elem_of_fmap. intros ([b t] & Hb & Hin). simpl in Hb. subst b.
  destruct (ordered_elem _ _ _ _ H3 Hin). unfold HDR in *. lia.
Qed.

(** Taking a block out. *)
Lemma ordered_remove lo l1 q t p s l2 :
  0 <= s -> ordered lo (l1 ++ (q, t) :: (p, s) :: l2) -> ordered lo (l1 ++ (q, t) :: l2).
Proof.
  rewrite (ordered_split _ _ _ _ (_ :: _)), (ordered_split _ _ _ _ l2). simpl. intros Hs (H1 & H2 & _ & H3).
  split; [done|]. eapply ordered_weaken; [|done]. unfold HDR in *. lia.
Qed.

Lemma inside_nil x : inside [] x <-> False.
Proof. split; [|done]. by intros (a & s & ?%elem_of_nil & _). Qed.
Lemma inside_cons a s l x : inside ((a, s) :: l) x <-> a <= x < a + HDR * s \/ inside l x.
Proof. unfold inside. setoid_rewrite elem_of_cons. naive_solver. Qed.
Lemma inside_app l1 l2 x : inside (l1 ++ l2) x <-> inside l1 x \/ inside l2 x.
Proof. unfold inside. setoid_rewrite elem_of_app. naive_solver. Qed.

Lemma inside_live_insert live a s x :
  live !! a = None -> inside_live (<[a := s]> live) x <-> a <= x < a + HDR * s \/ inside_live live x.
Proof.
  intros Hn. unfold inside_live. setoid_rewrite lookup_insert_Some. split.
  - intros (b & t & [[<- <-]|[Hb Ht]] & Hx); eauto.
  - intros [Hx|(b & t & Ht & Hx)]; [by exists a, s; eauto|]. exists b, t. split; [|done].
    right. split; [congruence|done].
Qed.
Lemma inside_live_delete live a s x :
  live !! a = Some s -> inside_live live x <-> a <= x < a + HDR * s \/ inside_live (delete a live) x.
Proof.
  intros Hs. rewrite <- (inside_live_insert (delete a live)) by apply lookup_delete_eq.
  rewrite insert_delete_id by done. done.
Qed.

(** ** Consequences of the invariant *)

Lemma path_length h l z : path h l z -> NoDup l.*1 -> (length l <= size (h_ptr h))%nat.
Proof.
  intros Hp Hn. rewrite <- size_dom, <- (length_fmap fst), <- (size_list_to_set (C := gset Z)) by done.
  apply subseteq_size. intros a. rewrite elem_of_list_to_set, list_elem_of_fmap, elem_of_dom.
  intros ([b s] & -> & Hb). by destruct (path_elem _ _ _ _ _ Hp Hb).
Qed.

Lemma um_length h l live : um_wf h l live -> (length l <= size (h_ptr h))%nat.
Proof. intros Hwf. eapply path_length; [apply Hwf|]. eapply ordered_NoDup, Hwf. Qed.

Lemma um_ring h l live : um_wf h l live -> path h l (start base l).
Proof. intros Hwf. destruct (um_cells _ _ _ Hwf) as (fs & -> & _). apply (um_path _ _ _ Hwf). Qed.

Lemma live_bounds h l live a s :
  um_wf h l live -> live !! a = Some s -> heap0 <= a /\ a + HDR * s <= h_brk h.
Proof.
  intros Hwf Ha. destruct (um_live _ _ _ Hwf _ _ Ha) as [Hs _]. unfold HDR in *.
  pose proof (proj1 (um_part _ _ _ Hwf a)) as H1. pose proof (proj1 (um_part _ _ _ Hwf (a + 16 * s - 1))) as H2.
  assert (inside_live live a) by (exists a, s; unfold HDR; split; [done|lia]).
  assert (inside_live live (a + 16 * s - 1)) by (exists a, s; unfold HDR; split; [done|lia]).
  destruct H1, H2; tauto || lia.
Qed.

Lemma cell_bounds h l live a s :
  um_wf h l live -> (a, s) ∈ l -> 0 < s -> heap0 <= a /\ a + HDR * s <= h_brk h.
Proof.
  intros Hwf Ha Hs. unfold HDR in *.
  pose proof (proj1 (um_part _ _ _ Hwf a)) as H1. pose proof (proj1 (um_part _ _ _ Hwf (a + 16 * s - 1))) as H2.
  assert (inside l a) by (exists a, s; unfold HDR; split; [done|lia]).
  assert (inside l (a + 16 * s - 1)) by (exists a, s; unfold HDR; split; [done|lia]).
  destruct H1, H2; tauto || lia.
Qed.

Lemma cell_cases h l live a s : um_wf h l live -> (a, s) ∈ l -> (a = base /\ s = 0) \/ (base < a /\ 0 < s).
Proof.
  intros Hwf Ha. pose proof (um_ordered _ _ _ Hwf) as Ho. destruct (um_cells _ _ _ Hwf) as (fs & -> & Hf).
  apply elem_of_cons in Ha as [[= -> ->]|Ha]; [by left|]. right. rewrite Forall_forall in Hf.
  split; [|by apply (Hf (a, s))]. simpl in Ho. destruct Ho as (_ & _ & Ho).
  destruct (ordered_elem _ _ _ _ Ho Ha). lia.
Qed.

Lemma um_apart h l live a s b t : um_wf h l live -> live !! a = Some s -> (b, t) ∈ l -> apart a s b t.
Proof.
  intros Hwf Ha Hb. destruct (um_live _ _ _ Hwf _ _ Ha) as [Hs _]. destruct (live_bounds _ _ _ _ _ Hwf Ha).
  pose proof (um_bounds _ _ _ Hwf). unfold apart.
  destruct (cell_cases _ _ _ _ _ Hwf Hb) as [[-> ->]|[? ?]]; [unfold HDR in *; lia|].
  destruct (decide (a + HDR * s <= b)); [by left|]. destruct (decide (b + HDR * t <= a)); [by right|].
  destruct (um_disj _ _ _ Hwf (Z.max a b)); [exists b, t|exists a, s]; (split; [done|unfold HDR in *; lia]).
Qed.

(** The live block is not a cell. *)
Lemma live_not_cell h l live a s : um_wf h l live -> live !! a = Some s -> a ∉ l.*1.
Proof.
  intros Hwf Ha Hin. apply list_elem_of_fmap in Hin as ([b t] & Hb & Hin). simpl in Hb. subst b.
  destruct (um_live _ _ _ Hwf _ _ Ha). pose proof (um_apart _ _ _ _ _ _ _ Hwf Ha Hin) as Hap.
  destruct (live_bounds _ _ _ _ _ Hwf Ha). pose proof (um_bounds _ _ _ Hwf).
  destruct (cell_cases _ _ _ _ _ Hwf Hin) as [[-> ->]|[? ?]]; unfold apart, HDR in *; lia.
Qed.

(** ** Where a block goes *)

Lemma split_at lo l bp s :
  0 < s -> ordered lo l -> (forall b t, (b, t) ∈ l -> apart bp s b t) ->
  exists l1 l2, l = l1 ++ l2 /\ (forall b t, (b, t) ∈ l1 -> b + HDR * t <= bp) /\ ordered (bp + HDR * s - 1) l2.
Proof.
  intros Hs. revert lo. induction l as [|[b t] l IH]; intros lo Ho Hap.
  { exists [], []. split_and!; [done| |done]. by intros b t ?%elem_of_nil. }
  simpl in Ho. destruct Ho as (H1 & H2 & H3). destruct (Hap b t) as [Hb|Hb]; [by left| |].
  - exists [], ((b, t) :: l). split_and!; [done| |]; [by intros ? ? ?%elem_of_nil|]. simpl. split_and!; [lia|done..].
  - destruct (IH _ H3) as (l1 & l2 & -> & Hl1 & Hl2); [intros; apply Hap; by right|].
    exists ((b, t) :: l1), l2. split_and!; [done| |done]. intros c u. rewrite elem_of_cons.
    intros [[= -> ->]|Hc]; [done|by apply Hl1].
Qed.

(** The cell [p] after which the block [bp] of [s] units goes. *)
Record place (l : list block) (bp s : Z) (c1 : list block) (p t : Z) (c2 : list block) : Prop := {
  pl_split : l = c1 ++ (p, t) :: c2;
  pl_below : p + HDR * t <= bp;
  pl_above : ordered (bp + HDR * s - 1) c2;
}.

Lemma place_exists h l live bp s :
  um_wf h l live -> live !! bp = Some s -> exists c1 p t c2, place l bp s c1 p t c2.
Proof.
  intros Hwf Hbp. destruct (um_live _ _ _ Hwf _ _ Hbp) as [Hs _].
  destruct (split_at (base - 1) l bp s) as (l1 & l2 & El & Hb & Ho);
    [done|apply Hwf|intros; by eapply um_apart|].
  destruct l1 as [|[p t] c1 _] using rev_ind.
  - destruct (um_cells _ _ _ Hwf) as (fs & -> & _). simpl in El. subst l2. simpl in Ho.
    destruct (live_bounds _ _ _ _ _ Hwf Hbp), (um_bounds _ _ _ Hwf). unfold HDR in *. lia.
  - exists c1, p, t, l2. constructor; [by rewrite El, <- app_assoc| |done]. apply Hb. apply elem_of_app. right. by left.
Qed.

(** Where another cell lies, and its successor, seen from there. *)
Lemma place_cases lo l bp s c1 p t c2 d1 x u d2 :
  ordered lo l -> place l bp s c1 p t c2 -> 0 < s -> p < bp -> l = d1 ++ (x, u) :: d2 ->
  match d2 with [] => True | (b, _) :: _ => x < b end /\
  ((x = p /\ d2 = c2) \/ (x <> p /\ x < p /\ d2 <> [] /\ start base d2 <= p) \/ (x <> p /\ bp < x)).
Proof.
  intros Ho [El Hb Ha] Hs Hpb Ed. unfold HDR in *. split.
  { rewrite Ed, ordered_split in Ho. destruct Ho as [Ho1 Ho2]. destruct d2 as [|[b v] d2]; [done|].
    simpl in Ho2. destruct (ordered_elem _ _ x u Ho1); [apply elem_of_app; right; by left|]. unfold HDR in *. lia. }
  rewrite El in Ed, Ho. apply app_eq_app in Ed as (m & [[E1 E2]|[E1 E2]]).
  - destruct m as [|[? ?] m]; [by injection E2 as -> -> ->; left|]. injection E2 as <- <- E2. right. left. subst c1.
    assert (Hbefore : forall a v, (a, v) ∈ (x, u) :: m -> a < p).
    { intros a v Hin. assert (Hin' : (a, v) ∈ d1 ++ (x, u) :: m) by (apply elem_of_app; by right).
      pose proof (ordered_before _ _ _ _ _ _ _ Ho Hin'). destruct (ordered_elem _ _ a v Ho); [|unfold HDR in *; lia].
      apply elem_of_app. by left. }
    pose proof (Hbefore x u ltac:(by left)). rewrite E2. split_and!; [lia|done|by destruct m|].
    destruct m as [|[b v] m]; simpl; [lia|]. pose proof (Hbefore b v ltac:(right; by left)). lia.
  - destruct m as [|[? ?] m]; [by injection E2 as -> -> ->; left|]. injection E2 as <- <- E2. right. right.
    assert (Hxc : (x, u) ∈ c2) by (rewrite E2; apply elem_of_app; right; by left).
    destruct (ordered_elem _ _ _ _ Ha Hxc). unfold HDR in *. lia.
Qed.

(** The search stops exactly there. *)
Lemma free_search_test h l live bp s c1 p t c2 x u :
  um_wf h l live -> live !! bp = Some s -> place l bp s c1 p t c2 -> (x, u) ∈ l ->
  free_search bp x h = Ret (if x =? p then inr p else inl (h_ptr h !!! x)) h.
Proof.
  intros Hwf Hbp Hpl Hx. pose proof Hpl as [El Hb Ha]. destruct (um_live _ _ _ Hwf _ _ Hbp) as [Hs _].
  pose proof (um_bounds _ _ _ Hwf) as Hbd. destruct (live_bounds _ _ _ _ _ Hwf Hbp) as [Hlo _].
  assert (Hpb : base <= p < bp).
  { assert (Hp : (p, t) ∈ l) by (rewrite El; apply elem_of_app; right; by left).
    destruct (cell_cases _ _ _ _ _ Hwf Hp) as [[-> ->]|[? ?]]; unfold HDR in *; lia. }
  assert (Hbb : p < bp) by lia. pose proof (um_path _ _ _ Hwf) as Hpath. pose proof (um_ordered _ _ _ Hwf) as Ho.
  apply list_elem_of_split in Hx as (d1 & d2 & Ed).
  assert (Hn : h_ptr h !! x = Some (start base d2)) by (rewrite Ed, path_app in Hpath; simpl in Hpath; tauto).
  unfold free_search, get_ptr. mred. rewrite (lookup_total_correct _ _ _ Hn).
  destruct (place_cases _ _ _ _ _ _ _ _ _ _ _ _ Ho Hpl Hs Hbb Ed) as [Hnext Hcase].
  destruct Hcase as [[-> ->]|[(Hne & Hlt & Hd & Hle)|[Hne Hgt]]].
  - rewrite Z.eqb_refl. destruct c2 as [|[b v] c2]; simpl.
    + rewrite (proj2 (Z.ltb_lt p bp)), (proj2 (Z.ltb_ge bp base)), (proj2 (Z.leb_le base p)) by (unfold HDR in *; lia). done.
    + simpl in Ha. rewrite (proj2 (Z.ltb_lt p bp)), (proj2 (Z.ltb_lt bp b)) by (unfold HDR in *; lia). done.
  - rewrite (proj2 (Z.eqb_neq x p)) by done. destruct d2 as [|[b v] d2]; [done|]. simpl in *.
    rewrite (proj2 (Z.ltb_ge bp b)), (proj2 (Z.leb_gt b x)), andb_false_r by lia. done.
  - rewrite (proj2 (Z.eqb_neq x p)), (proj2 (Z.ltb_ge x bp)) by lia. simpl.
    destruct d2 as [|[b v] d2]; simpl in *.
    + rewrite (proj2 (Z.ltb_ge bp base)), andb_false_r by (unfold HDR in *; lia). done.
    + rewrite (proj2 (Z.leb_gt b x)) by lia. done.
Qed.

(** It gets there from any cell. *)
Lemma free_walk n h l live bp s c1 p t c2 w1 w2 z :
  um_wf h l live -> live !! bp = Some s -> place l bp s c1 p t c2 ->
  path h (w1 ++ (p, t) :: w2) z -> (forall a u, (a, u) ∈ w1 ++ (p, t) :: w2 -> (a, u) ∈ l) ->
  (length w1 < n)%nat -> loop n (free_search bp) (start z (w1 ++ (p, t) :: w2)) h = Ret p h.
Proof.
  intros Hwf Hbp Hpl. revert n. induction w1 as [|[a u] w1 IH]; intros [|n] Hp Hin Hn; simpl in Hn; try lia.
  - simpl. mred. erewrite free_search_test by (eauto; apply (Hin p t); by left). by rewrite Z.eqb_refl.
  - simpl in Hp. destruct Hp as (_ & Hnx & Hp). cbn [app start loop]. mred.
    erewrite free_search_test by (eauto; apply (Hin a u); by left). destruct (a =? p); mred; [done|].
    rewrite (lookup_total_correct _ _ _ Hnx). apply IH; [done| |lia]. intros b v Hb. apply Hin. by right.
Qed.

Lemma free_loop h l live bp s c1 p t c2 :
  um_wf h l live -> live !! bp = Some s -> place l bp s c1 p t c2 ->
  loop (S (size (h_ptr h))) (free_search bp) (h_freep h) h = Ret p h.
Proof.
  intros Hwf Hbp Hpl. destruct (path_rotate h l base (h_freep h)) as (sf & r & Hr & Hpath);
    [by eapply um_ring|apply Hwf|].
  assert (Hp : (p, t) ∈ (h_freep h, sf) :: r).
  { rewrite Hr, (pl_split _ _ _ _ _ _ _ Hpl). apply elem_of_app. right. by left. }
  apply list_elem_of_split in Hp as (w1 & w2 & Ew). pose proof (um_length _ _ _ Hwf) as Hlen.
  rewrite <- Hr, Ew, length_app in Hlen. rewrite Ew in Hpath, Hr.
  replace (h_freep h) with (start (h_freep h) (w1 ++ (p, t) :: w2)) at 1 by (by rewrite <- Ew).
  eapply free_walk; eauto; [|lia]. intros a u. by rewrite Hr.
Qed.

Lemma u32_id x : 0 <= x < 2 ^ 32 -> u32 x = x.
Proof. apply Z.mod_small. Qed.

(** The block with what it is joined to above. *)
Record joined (h : heap) (bp s : Z) (c2 : list block) (s' : Z) (c2' : list block) : Prop := {
  jn_size : s <= s' /\ bp + HDR * s' <= h_brk h;
  jn_ordered : ordered (bp + HDR * s') c2';
  jn_path : path h c2' base;
  jn_cells a u : (a, u) ∈ c2' -> (a, u) ∈ c2;
  jn_inside x : inside c2' x \/ bp <= x < bp + HDR * s' <-> inside c2 x \/ bp <= x < bp + HDR * s;
  jn_length : (length c2' <= length c2)%nat;
}.

Lemma join_upper_spec h l live bp s c1 p t c2 :
  um_wf h l live -> live !! bp = Some s -> place l bp s c1 p t c2 ->
  exists s' c2', joined h bp s c2 s' c2' /\
    join_upper bp p h = Ret tt (mkHeap (<[bp := start base c2']> (h_ptr h)) (<[bp := s']> (h_size h)) (h_freep h) (h_brk h)).
Proof.
  intros Hwf Hbp [El Hb Ha]. destruct (um_live _ _ _ Hwf _ _ Hbp) as [Hs Hsz].
  destruct (live_bounds _ _ _ _ _ Hwf Hbp) as [Hlo Hhi]. pose proof (um_bounds _ _ _ Hwf) as Hbd.
  pose proof (um_path _ _ _ Hwf) as Hpath. rewrite El, path_app in Hpath. destruct Hpath as [_ (_ & Hnp & Hp2)].
  unfold join_upper, get_ptr, get_size, set_ptr, set_size. mred.
  rewrite (lookup_total_correct _ _ _ Hnp), (lookup_total_correct _ _ _ Hsz).
  destruct (Z.eqb_spec (bp + HDR * s) (start base c2)) as [E|E].
  - destruct c2 as [|[n u] c3]; simpl in E; [unfold HDR in *; lia|]. subst n.
    simpl in Ha, Hp2. destruct Ha as (_ & Hu & Ha), Hp2 as (Hsn & Hnn & Hp3).
    assert (Hin : (bp + HDR * s, u) ∈ l) by (rewrite El; apply elem_of_app; right; right; by left).
    destruct (cell_cases _ _ _ _ _ Hwf Hin) as [[? ?]|[_ Hu0]]; [unfold HDR in *; lia|].
    destruct (cell_bounds _ _ _ _ _ Hwf Hin Hu0) as [_ Htop].
    mred. rewrite (lookup_total_correct _ _ _ Hsn). simpl. rewrite (lookup_total_correct _ _ _ Hnn).
    exists (s + u), c3. split.
    + constructor; [unfold HDR in *; lia| |done| | |simpl; lia].
      * eapply ordered_weaken; [|exact Ha]. lia.
      * intros a v Hv. by right.
      * intros x. rewrite inside_cons. unfold HDR in *. split.
        -- intros [?|?]; [tauto|]. destruct (decide (x < bp + 16 * s)); [right; lia|left; left; lia].
        -- intros [[?|?]|?]; [right; lia|tauto|right; lia].
    + rewrite u32_id by (unfold HDR in *; lia). done.
  - exists s, c2. split.
    + constructor; try done.
      destruct c2 as [|[n u] c3]; simpl in *; [done|]. split_and!; [lia|tauto..].
    + by rewrite (insert_id (h_size h)).
Qed.

Lemma place_lt h l live bp s c1 p t c2 :
  um_wf h l live -> live !! bp = Some s -> place l bp s c1 p t c2 -> p < bp /\ 0 <= t.
Proof.
  intros Hwf Hbp [El Hb Ha]. assert (Hp : (p, t) ∈ l) by (rewrite El; apply elem_of_app; right; by left).
  destruct (live_bounds _ _ _ _ _ Hwf Hbp), (um_bounds _ _ _ Hwf).
  destruct (cell_cases _ _ _ _ _ Hwf Hp) as [[-> ->]|[? ?]]; unfold HDR in *; lia.
Qed.

(** A list that also covers the block is a free list once the block is given
    back. *)
Lemma freed_wf h l live bp s h' l' :
  um_wf h l live -> live !! bp = Some s ->
  (exists fs, l' = (base, 0) :: fs) -> (forall a u, (a, u) ∈ l' -> a = base \/ 0 < u) ->
  path h' l' base -> h_freep h' ∈ l'.*1 -> ordered (base - 1) l' ->
  (forall a u, live !! a = Some u -> a <> bp -> h_size h' !! a = h_size h !! a) ->
  (forall x, inside l' x <-> inside l x \/ bp <= x < bp + HDR * s) -> h_brk h' = h_brk h ->
  um_wf h' l' (delete bp live).
Proof.
  intros Hwf Hbp [fs ->] Hpos Hpath Hf Ho Hsz Hin Hbrk. constructor; try done.
  - exists fs. split; [done|]. apply Forall_forall. intros [a u] Ha. simpl in Ho. destruct Ho as (_ & _ & Ho).
    destruct (ordered_elem _ _ _ _ Ho Ha). destruct (Hpos a u) as [->|?]; [by right|lia|done].
  - intros a u. rewrite lookup_delete_Some. intros [Hne Ha]. rewrite (Hsz a u) by done. by apply (um_live _ _ _ Hwf).
  - intros x Hx (a & u & Ha & Hxa). apply lookup_delete_Some in Ha as [Hne Ha]. apply Hin in Hx as [Hx|Hx].
    + apply (um_disj _ _ _ Hwf x Hx). by exists a, u.
    + destruct (um_apart_live _ _ _ Hwf a u bp s) as [?|?]; [done..|lia|lia].
  - intros a u b v. rewrite !lookup_delete_Some. intros [_ Ha] [_ Hb]. by apply (um_apart_live _ _ _ Hwf).
  - intros x. rewrite Hin, Hbrk, <- (um_part _ _ _ Hwf x), (inside_live_delete live bp s) by done. tauto.
  - rewrite Hbrk. apply Hwf.
Qed.

Lemma um_path_split h l live c1 p t c2 :
  um_wf h l live -> l = c1 ++ (p, t) :: c2 ->
  path h c1 p /\ path h c2 base /\ h_size h !! p = Some t /\ NoDup (c1.*1 ++ p :: c2.*1).
Proof.
  intros Hwf ->. pose proof (um_path _ _ _ Hwf) as Hp. rewrite path_app in Hp. simpl in Hp.
  pose proof (ordered_NoDup _ _ (um_ordered _ _ _ Hwf)) as Hnd. rewrite fmap_app in Hnd. simpl in Hnd. tauto.
Qed.

(** The head of the list stays [base] when the cells from [p] on change. *)
Lemma cells_head h l live c1 p t c2 t' c2' :
  um_wf h l live -> l = c1 ++ (p, t) :: c2 -> (p = base -> t' = 0) -> exists fs, c1 ++ (p, t') :: c2' = (base, 0) :: fs.
Proof.
  intros Hwf El Ht. destruct (um_cells _ _ _ Hwf) as (fs & E & _). rewrite E in El.
  destruct c1 as [|c c1]; simpl in *.
  - injection El as <- _ _. rewrite Ht by done. eauto.
  - injection El as <- _. eauto.
Qed.

(** The addresses involved are distinct. *)
Lemma place_distinct h l live bp s c1 p t c2 s' c2' :
  um_wf h l live -> live !! bp = Some s -> place l bp s c1 p t c2 -> joined h bp s c2 s' c2' ->
  bp ∉ c1.*1 /\ bp <> p /\ bp ∉ c2'.*1 /\ p ∉ c1.*1 /\ p ∉ c2'.*1.
Proof.
  intros Hwf Hbp [El _ _] Hj. destruct (um_path_split _ _ _ _ _ _ _ Hwf El) as (_ & _ & _ & Hnd).
  pose proof (live_not_cell _ _ _ _ _ Hwf Hbp) as Hnb. rewrite El, fmap_app in Hnb. simpl in Hnb.
  apply NoDup_app in Hnd as (_ & Hd1 & Hd2). apply NoDup_cons in Hd2 as [Hd2 _].
  assert (Hsub : forall a, a ∈ c2'.*1 -> a ∈ c2.*1).
  { intros a. rewrite !list_elem_of_fmap. intros ([b u] & -> & Hb). exists (b, u). split; [done|]. by apply (jn_cells _ _ _ _ _ _ Hj). }
  rewrite elem_of_app, elem_of_cons in Hnb. split_and!; try naive_solver.
  intros H. apply (Hd1 p H). by left.
Qed.

Lemma cells_positive h l live c1 p t c2 c2' a u :
  um_wf h l live -> l = c1 ++ (p, t) :: c2 -> (forall b v, (b, v) ∈ c2' -> (b, v) ∈ c2) ->
  (a, u) ∈ c1 ++ (p, t) :: c2' -> a = base \/ 0 < u.
Proof.
  intros Hwf El Hc Ha. assert (Ha' : (a, u) ∈ l).
  { rewrite El, elem_of_app, elem_of_cons. rewrite elem_of_app, elem_of_cons in Ha. naive_solver. }
  destruct (cell_cases _ _ _ _ _ Hwf Ha') as [[? ?]|[? ?]]; [by left|by right].
Qed.

Lemma free_joins_lower h l live bp s c1 p t c2 s' c2' h1 :
  um_wf h l live -> live !! bp = Some s -> place l bp s c1 p t c2 -> joined h bp s c2 s' c2' ->
  h1 = mkHeap (<[p := start base c2']> (<[bp := start base c2']> (h_ptr h)))
         (<[p := t + s']> (<[bp := s']> (h_size h))) p (h_brk h) ->
  p + HDR * t = bp -> um_wf h1 (c1 ++ (p, t + s') :: c2') (delete bp live).
Proof.
  intros Hwf Hbp Hpl Hj -> E. pose proof Hpl as [El _ _]. pose proof (place_distinct _ _ _ _ _ _ _ _ _ _ _ Hwf Hbp Hpl Hj) as Hd.
  destruct Hj as [Hs' Ho2 Hp2 Hc2 Hi Hl2].
  destruct (place_lt _ _ _ _ _ _ _ _ _ Hwf Hbp Hpl) as [Hlt Ht]. destruct (um_live _ _ _ Hwf _ _ Hbp) as [Hs _].
  destruct (um_path_split _ _ _ _ _ _ _ Hwf El) as (Hp1 & _ & Hsz & _).
  eapply freed_wf; eauto.
  - eapply cells_head; eauto. intros ->. pose proof (cell_cases _ _ _ base t Hwf) as Hc.
    destruct Hc; [rewrite El; apply elem_of_app; right; by left|unfold HDR in *; lia|lia].
  - intros a u Ha. destruct (decide ((a, u) = (p, t + s'))) as [[= -> ->]|Hne]; [right; lia|].
    eapply (cells_positive h l live c1 p t c2 c2'); eauto. rewrite elem_of_app, elem_of_cons in *. naive_solver.
  - apply path_app. split; [|split_and!].
    + eapply path_ext; [|exact Hp1]. intros a Ha. simpl. rewrite !lookup_insert_ne; [done|..]; intros ->; tauto.
    + simpl. by rewrite lookup_insert_eq.
    + simpl. by rewrite lookup_insert_eq.
    + eapply path_ext; [|exact Hp2]. intros a Ha. simpl. rewrite !lookup_insert_ne; [done|..]; intros ->; tauto.
  - simpl. rewrite fmap_app. apply elem_of_app. right. by left.
  - pose proof (um_ordered _ _ _ Hwf) as Ho. rewrite El, ordered_split in Ho. apply ordered_split. split.
    + eapply ordered_grow; [apply Ho|lia].
    + eapply ordered_weaken; [|exact Ho2]. unfold HDR in *. lia.
  - intros a u Ha Hne. simpl. rewrite !lookup_insert_ne; [done|done|].
    intros ->. eapply (live_not_cell _ _ _ _ _ Hwf Ha). rewrite El, fmap_app. apply elem_of_app. right. by left.
  - intros x. specialize (Hi x). rewrite El, !inside_app, !inside_cons. unfold HDR in *.
    assert (Hx : p <= x < p + 16 * (t + s') <-> p <= x < p + 16 * t \/ bp <= x < bp + 16 * s') by lia. tauto.
Qed.

Lemma free_links_lower h l live bp s c1 p t c2 s' c2' h1 :
  um_wf h l live -> live !! bp = Some s -> place l bp s c1 p t c2 -> joined h bp s c2 s' c2' ->
  h1 = mkHeap (<[p := bp]> (<[bp := start base c2']> (h_ptr h))) (<[bp := s']> (h_size h)) p (h_brk h) ->
  p + HDR * t <> bp -> um_wf h1 (c1 ++ (p, t) :: (bp, s') :: c2') (delete bp live).
Proof.
  intros Hwf Hbp Hpl Hj -> E. pose proof Hpl as [El Hb _]. pose proof (place_distinct _ _ _ _ _ _ _ _ _ _ _ Hwf Hbp Hpl Hj) as Hd.
  destruct Hj as [Hs' Ho2 Hp2 Hc2 Hi Hl2]. destruct (um_live _ _ _ Hwf _ _ Hbp) as [Hs _].
  destruct (um_path_split _ _ _ _ _ _ _ Hwf El) as (Hp1 & _ & Hsz & _).
  eapply freed_wf; eauto.
  - eapply cells_head; eauto. intros ->. pose proof (cell_cases _ _ _ base t Hwf) as Hc.
    destruct Hc; [rewrite El; apply elem_of_app; right; by left|tauto|lia].
  - intros a u Ha. destruct (decide ((a, u) = (bp, s'))) as [[= -> ->]|Hne]; [right; lia|].
    eapply (cells_positive h l live c1 p t c2 c2'); eauto. rewrite elem_of_app, !elem_of_cons in *. naive_solver.
  - apply path_app. split; [|cbn [path]; split_and!].
    + eapply path_ext; [|exact Hp1]. intros a Ha. simpl. rewrite !lookup_insert_ne; [done|..]; intros ->; tauto.
    + simpl. rewrite lookup_insert_ne; [done|tauto].
    + simpl. by rewrite lookup_insert_eq.
    + simpl. by rewrite lookup_insert_eq.
    + simpl. rewrite lookup_insert_ne, lookup_insert_eq; [done|]. intros ->. tauto.
    + eapply path_ext; [|exact Hp2]. intros a Ha. simpl. rewrite !lookup_insert_ne; [done|..]; intros ->; tauto.
  - simpl. rewrite fmap_app. apply elem_of_app. right. by left.
  - pose proof (um_ordered _ _ _ Hwf) as Ho. rewrite El, ordered_split in Ho. apply ordered_split. split; [apply Ho|].
    simpl. split_and!; [lia..|done].
  - intros a u Ha Hne. simpl. rewrite lookup_insert_ne; done.
  - intros x. specialize (Hi x). rewrite El, !inside_app, !inside_cons. tauto.
Qed.

(** free() of a block handed out returns it to the list, joined with the
    neighbours it touches. *)
Lemma free_spec h l live bp s :
  um_wf h l live -> live !! bp = Some s ->
  returns (free (bp + HDR) h) (fun _ h' => exists l', um_wf h' l' (delete bp live) /\
    h_brk h' = h_brk h /\ (exists a s', (a, s') ∈ l' /\ s <= s') /\ (length l' <= S (length l))%nat).
Proof.
  intros Hwf Hbp. destruct (place_exists _ _ _ _ _ Hwf Hbp) as (c1 & p & t & c2 & Hpl).
  unfold free. mred. replace (bp + HDR - HDR) with bp by lia.
  rewrite (free_loop _ _ _ _ _ _ _ _ _ Hwf Hbp Hpl). mred.
  destruct (join_upper_spec _ _ _ _ _ _ _ _ _ Hwf Hbp Hpl) as (s' & c2' & Hj & ->). mred.
  pose proof (place_distinct _ _ _ _ _ _ _ _ _ _ _ Hwf Hbp Hpl Hj) as Hd. pose proof Hpl as [El _ _].
  destruct (um_path_split _ _ _ _ _ _ _ Hwf El) as (_ & _ & Hsz & _).
  destruct (place_lt _ _ _ _ _ _ _ _ _ Hwf Hbp Hpl) as [Hlt Ht]. pose proof (jn_length _ _ _ _ _ _ Hj) as Hlen.
  destruct (jn_size _ _ _ _ _ _ Hj) as [Hs' Htop]. pose proof (um_bounds _ _ _ Hwf) as Hbd.
  destruct (um_live _ _ _ Hwf _ _ Hbp) as [Hs _].
  unfold join_lower, get_size, get_ptr, set_size, set_ptr, set_freep. mred. cbn [h_ptr h_size h_freep h_brk].
  rewrite (lookup_total_insert_ne _ bp p), (lookup_total_correct _ _ _ Hsz) by tauto.
  destruct (Z.eqb_spec (p + HDR * t) bp) as [E|E]; mred; cbn [h_ptr h_size h_freep h_brk].
  - rewrite !lookup_total_insert_eq. rewrite u32_id.
    + simpl. eexists. split; [by eapply free_joins_lower|]. split_and!; [done| |].
      * exists p, (t + s'). split; [|lia]. apply elem_of_app. right. by left.
      * rewrite El, !length_app. simpl. lia.
    + assert (Hp : 0 <= p) by (destruct (um_cells _ _ _ Hwf) as (fs & E' & _);
        pose proof (um_ordered _ _ _ Hwf) as Ho; destruct (ordered_elem _ _ p t Ho); [rewrite El; apply elem_of_app; right; by left|lia]).
      unfold HDR in *. lia.
  - simpl. eexists. split; [by eapply free_links_lower|]. split_and!; [done| |].
    + exists bp, s'. split; [|lia]. apply elem_of_app. right. right. by left.
    + rewrite El, !length_app. simpl. lia.
Qed.

(** ** Taking a block *)

(** A list that covers everything but the block is a free list once the block
    is handed out. *)
Lemma taken_wf h l live q n h' l' :
  um_wf h l live -> 0 < n -> (exists fs, l' = (base, 0) :: fs) -> (forall a u, (a, u) ∈ l' -> a = base \/ 0 < u) ->
  path h' l' base -> h_freep h' ∈ l'.*1 -> ordered (base - 1) l' ->
  (forall a u, live !! a = Some u -> h_size h' !! a = h_size h !! a) -> h_size h' !! q = Some n ->
  (forall x, inside l x <-> inside l' x \/ q <= x < q + HDR * n) ->
  (forall x, inside l' x -> q <= x < q + HDR * n -> False) -> h_brk h' = h_brk h ->
  live !! q = None /\ um_wf h' l' (<[q := n]> live).
Proof.
  intros Hwf Hn [fs ->] Hpos Hpath Hf Ho Hsz Hq Hin Hout Hbrk.
  assert (Hap : forall a u, live !! a = Some u -> apart a u q n).
  { intros a u Ha. destruct (um_live _ _ _ Hwf _ _ Ha) as [Hu _]. unfold apart.
    destruct (decide (a + HDR * u <= q)); [by left|]. destruct (decide (q + HDR * n <= a)); [by right|].
    destruct (um_disj _ _ _ Hwf (Z.max a q)); [apply Hin; right|exists a, u; split; [done|]]; unfold HDR in *; lia. }
  assert (Hnew : live !! q = None).
  { destruct (live !! q) as [u|] eqn:E; [|done]. destruct (um_live _ _ _ Hwf _ _ E), (Hap _ _ E); unfold HDR in *; lia. }
  split; [done|]. constructor; try done.
  - exists fs. split; [done|]. apply Forall_forall. intros [a u] Ha. simpl in Ho. destruct Ho as (_ & _ & Ho).
    destruct (ordered_elem _ _ _ _ Ho Ha). destruct (Hpos a u) as [->|?]; [by right|lia|done].
  - intros a u. rewrite lookup_insert_Some. intros [[<- <-]|[Hne Ha]]; [done|].
    rewrite (Hsz a u) by done. by apply (um_live _ _ _ Hwf).
  - intros x Hx. rewrite inside_live_insert by done. intros [Hxq|Hxl]; [by apply (Hout x)|].
    apply (um_disj _ _ _ Hwf x); [|done]. apply Hin. by left.
  - intros a u b v. rewrite !lookup_insert_Some. intros [[<- <-]|[Hne Ha]] [[<- <-]|[Hne' Hb]] Hab; [done|..|].
    + destruct (Hap _ _ Hb); [by right|by left].
    + by apply Hap.
    + by apply (um_apart_live _ _ _ Hwf).
  - intros x. rewrite inside_live_insert, Hbrk, <- (um_part _ _ _ Hwf x), Hin by done. tauto.
  - rewrite Hbrk. apply Hwf.
Qed.

(** The predecessor of a cell. *)
Lemma pred_unique h l live q t p s c1 c2 prevp :
  um_wf h l live -> l = c1 ++ (q, t) :: (p, s) :: c2 -> p <> base ->
  prevp ∈ l.*1 -> h_ptr h !! prevp = Some p -> prevp = q.
Proof.
  intros Hwf El Hp Hin Hn. pose proof (ordered_NoDup _ _ (um_ordered _ _ _ Hwf)) as Hnd.
  apply list_elem_of_fmap in Hin as ([x u] & -> & Hin). simpl in *. apply list_elem_of_split in Hin as (d1 & d2 & Ed).
  pose proof (um_path _ _ _ Hwf) as Hpath. rewrite Ed, path_app in Hpath. destruct Hpath as [_ (_ & Hnx & _)].
  rewrite Hnx in Hn. destruct d2 as [|[b v] d2]; simpl in Hn; [congruence|]. injection Hn as ->.
  assert (H1 : l.*1 !! S (length c1) = Some p /\ l.*1 !! length c1 = Some q).
  { rewrite El, fmap_app, !fmap_cons, !lookup_app_r; rewrite length_fmap; try lia.
    by replace (S (length c1) - length c1)%nat with 1%nat by lia; rewrite Nat.sub_diag. }
  assert (H2 : l.*1 !! S (length d1) = Some p /\ l.*1 !! length d1 = Some x).
  { rewrite Ed, fmap_app, !fmap_cons, !lookup_app_r; rewrite length_fmap; try lia.
    by replace (S (length d1) - length d1)%nat with 1%nat by lia; rewrite Nat.sub_diag. }
  destruct H1 as [H1 H1'], H2 as [H2 H2']. pose proof (NoDup_lookup _ _ _ _ Hnd H1 H2) as E.
  injection E as E. rewrite E in H1'. congruence.
Qed.

Lemma cell_with_pred h l live p s :
  um_wf h l live -> (p, s) ∈ l -> 0 < s -> exists c1 q t c2, l = c1 ++ (q, t) :: (p, s) :: c2 /\ p <> base.
Proof.
  intros Hwf Hp Hs. destruct (cell_cases _ _ _ _ _ Hwf Hp) as [[_ ?]|[Hb _]]; [lia|].
  apply list_elem_of_split in Hp as (d1 & d2 & Ed). destruct (um_cells _ _ _ Hwf) as (fs & El & _).
  destruct d1 as [|[q t] c1 _] using rev_ind.
  - rewrite El in Ed. injection Ed as ? ? ?. lia.
  - exists c1, q, t, d2. rewrite <- app_assoc in Ed. split; [done|lia].
Qed.

Lemma take_whole h l live c1 q t p s c2 :
  um_wf h l live -> l = c1 ++ (q, t) :: (p, s) :: c2 -> p <> base -> 0 < s ->
  let h' := mkHeap (<[q := start base c2]> (h_ptr h)) (h_size h) q (h_brk h) in
  live !! p = None /\ um_wf h' (c1 ++ (q, t) :: c2) (<[p := s]> live).
Proof.
  intros Hwf El Hp Hs h'. destruct (um_path_split _ _ _ _ _ _ _ Hwf El) as (Hp1 & Hp2 & Hsz & Hnd).
  simpl in Hp2. destruct Hp2 as (Hsp & Hnp & Hp3). apply NoDup_app in Hnd as (_ & Hd1 & Hd2).
  apply NoDup_cons in Hd2 as [Hd2 _]. rewrite fmap_cons, elem_of_cons in Hd2. simpl in Hd2.
  pose proof (um_ordered _ _ _ Hwf) as Ho.
  eapply taken_wf; eauto.
  - eapply cells_head; eauto. intros ->. destruct (cell_cases _ _ _ base t Hwf); [rewrite El; apply elem_of_app; right; by left|lia|lia].
  - intros a u. eapply cells_positive; [done|exact El|]. intros b v. by right.
  - apply path_app. split; [|cbn [path]; split_and!].
    + eapply path_ext; [|exact Hp1]. intros a Ha. simpl. rewrite lookup_insert_ne; [done|]. intros ->. apply (Hd1 a Ha). by left.
    + done.
    + simpl. by rewrite lookup_insert_eq.
    + eapply path_ext; [|exact Hp3]. intros a Ha. simpl. rewrite lookup_insert_ne; [done|]. intros ->. tauto.
  - simpl. rewrite fmap_app. apply elem_of_app. right. by left.
  - rewrite El in Ho. eapply ordered_remove; [|exact Ho]. lia.
  - intros x. rewrite El, !inside_app, !inside_cons. tauto.
  - intros x. rewrite inside_app, inside_cons. rewrite El in Ho.
    intros [(a & u & Ha & Hx)|[Hx|(a & u & Ha & Hx)]] Hxp.
    + replace (c1 ++ (q, t) :: (p, s) :: c2) with ((c1 ++ [(q, t)]) ++ (p, s) :: c2) in Ho by (by rewrite <- app_assoc).
      assert (a + HDR * u < p) by (eapply ordered_before; [exact Ho|]; apply elem_of_app; by left). lia.
    + apply ordered_split in Ho as [_ Ho]. simpl in Ho. lia.
    + apply ordered_split in Ho as [_ (_ & _ & Ho)]. destruct (ordered_elem _ _ _ _ Ho Ha). lia.
Qed.

(** The other cells lie outside the block [p], in particular not at its tail. *)
Lemma cells_outside lo c1 p s c2 n :
  ordered lo (c1 ++ (p, s) :: c2) -> 0 < n < s ->
  (forall a u, (a, u) ∈ c1 \/ (a, u) ∈ c2 -> a + HDR * u <= p \/ p + HDR * s <= a) /\
  (forall a, a ∈ c1.*1 \/ a ∈ c2.*1 -> a <> p + HDR * (s - n)).
Proof.
  intros Ho Hn. assert (Hout : forall a u, (a, u) ∈ c1 \/ (a, u) ∈ c2 -> a + HDR * u <= p /\ 0 <= u \/ p + HDR * s <= a).
  { intros a u [Ha|Ha].
    - pose proof (ordered_before _ _ _ _ _ _ _ Ho Ha). destruct (ordered_elem _ _ a u Ho); [apply elem_of_app; by left|lia].
    - apply ordered_split in Ho as [_ Ho]. destruct (ordered_elem _ _ _ _ Ho Ha). lia. }
  split; [intros a u Ha; destruct (Hout a u Ha); lia|]. intros a Ha ->. rewrite !list_elem_of_fmap in Ha.
  assert (exists u, (p + HDR * (s - n), u) ∈ c1 \/ (p + HDR * (s - n), u) ∈ c2) as [u Hu].
  { destruct Ha as [([a u] & Ea & Ha)|([a u] & Ea & Ha)]; simpl in Ea; subst a; eauto. }
  destruct (Hout _ _ Hu); unfold HDR in *; lia.
Qed.

Lemma take_tail h l live c1 p s c2 n fp :
  um_wf h l live -> l = c1 ++ (p, s) :: c2 -> 0 < n < s -> fp ∈ l.*1 ->
  let q := p + HDR * (s - n) in
  let h' := mkHeap (h_ptr h) (<[q := n]> (<[p := s - n]> (h_size h))) fp (h_brk h) in
  live !! q = None /\ um_wf h' (c1 ++ (p, s - n) :: c2) (<[q := n]> live).
Proof.
  intros Hwf El Hn Hfp q h'. destruct (um_path_split _ _ _ _ _ _ _ Hwf El) as (Hp1 & Hp2 & Hsz & Hnd).
  apply NoDup_app in Hnd as (_ & Hd1 & Hd2). apply NoDup_cons in Hd2 as [Hd2 _].
  pose proof (um_ordered _ _ _ Hwf) as Ho. pose proof (um_path _ _ _ Hwf) as Hpath.
  rewrite El, path_app in Hpath. destruct Hpath as [_ (_ & Hnp & _)].
  assert (Hsplit : ordered (base - 1) (c1 ++ [(p, s)]) /\ ordered (p + HDR * s) c2) by (by rewrite El, ordered_split in Ho).
  destruct (cells_outside _ _ _ _ _ n (eq_ind _ (ordered (base - 1)) Ho _ El) Hn) as [Hout Hq].
  assert (Hpq : p <> q) by (unfold q, HDR; lia).
  eapply taken_wf; eauto.
  - lia.
  - eapply cells_head; eauto. intros ->. destruct (cell_cases _ _ _ base s Hwf); [rewrite El; apply elem_of_app; right; by left|lia|lia].
  - intros a u Ha. destruct (decide ((a, u) = (p, s - n))) as [[= -> ->]|Hne]; [right; lia|].
    eapply (cells_positive h l live c1 p s c2 c2); eauto. rewrite elem_of_app, elem_of_cons in *. naive_solver.
  - apply path_app. split; [|cbn [path]; split_and!].
    + eapply path_ext; [|exact Hp1]. intros a Ha. simpl. rewrite !lookup_insert_ne; [done|..].
      * intros ->. apply (Hd1 a Ha). by left.
      * intros <-. by apply (Hq q); [left|].
    + simpl. rewrite lookup_insert_ne by done. by rewrite lookup_insert_eq.
    + done.
    + eapply path_ext; [|exact Hp2]. intros a Ha. simpl. rewrite !lookup_insert_ne; [done|..].
      * intros ->. done.
      * intros <-. by apply (Hq q); [right|].
  - simpl. rewrite El, !fmap_app in *. simpl in *. done.
  - rewrite El in Ho. apply ordered_split. split; [eapply ordered_grow; [apply Hsplit|lia]|].
    eapply ordered_weaken; [|apply Hsplit]. unfold HDR. lia.
  - intros a u Ha. simpl. pose proof (um_apart _ _ _ a u p s Hwf Ha) as Hap.
    destruct (um_live _ _ _ Hwf _ _ Ha) as [Hu _].
    assert (a <> q /\ a <> p) as [? ?].
    { destruct Hap; [rewrite El; apply elem_of_app; right; by left|unfold q, HDR in *; lia..]. }
    by rewrite !lookup_insert_ne.
  - simpl. by rewrite lookup_insert_eq.
  - intros x. rewrite El, !inside_app, !inside_cons.
    assert (Hx : p <= x < p + HDR * s <-> p <= x < p + HDR * (s - n) \/ q <= x < q + HDR * n) by (unfold q, HDR; lia). tauto.
  - intros x. rewrite inside_app, inside_cons. intros [(a & u & Ha & Hx)|[Hx|(a & u & Ha & Hx)]] Hxq.
    + destruct (Hout a u); [by left|unfold q, HDR in *; lia..].
    + unfold q, HDR in *. lia.
    + destruct (Hout a u); [by right|unfold q, HDR in *; lia..].
Qed.

Lemma carve_spec h l live n prevp p s :
  um_wf h l live -> (p, s) ∈ l -> 0 < n <= s -> prevp ∈ l.*1 -> h_ptr h !! prevp = Some p ->
  returns (carve n prevp p h) (fun r h' => exists l',
    live !! (r - HDR) = None /\ um_wf h' l' (<[r - HDR := n]> live) /\ h_brk h' = h_brk h).
Proof.
  intros Hwf Hp Hn Hpr Hnx. destruct (path_elem _ _ _ _ _ (um_path _ _ _ Hwf) Hp) as [Hsz _].
  destruct (cell_bounds _ _ _ _ _ Hwf Hp ltac:(lia)). pose proof (um_bounds _ _ _ Hwf) as Hbd.
  unfold carve, get_size, get_ptr, set_ptr, set_size, set_freep. mred. rewrite (lookup_total_correct _ _ _ Hsz).
  destruct (Z.eqb_spec s n) as [->|Hne]; mred; cbn [h_ptr h_size h_freep h_brk].
  - destruct (cell_with_pred _ _ _ _ _ Hwf Hp) as (c1 & q & t & c2 & El & Hpb); [lia|].
    assert (prevp = q) as -> by (by eapply pred_unique).
    destruct (take_whole _ _ _ _ _ _ _ _ _ Hwf El Hpb ltac:(lia)) as [H1 H2].
    destruct (um_path_split _ _ _ _ _ _ _ Hwf El) as (_ & (_ & Hnp & _) & _).
    rewrite (lookup_total_correct _ _ _ Hnp). simpl. replace (p + HDR - HDR) with p by lia. eauto.
  - apply list_elem_of_split in Hp as (c1 & c2 & El).
    rewrite u32_id by (unfold HDR in *; lia). rewrite !lookup_total_insert_eq. simpl.
    destruct (take_tail _ _ _ _ _ _ _ n prevp Hwf El ltac:(lia) Hpr) as [H1 H2].
    replace (p + HDR * (s - n) + HDR - HDR) with (p + HDR * (s - n)) by lia. eauto.
Qed.

(** ** Growing the heap *)

Section growing.
  Context (grows : Z -> Z -> bool) (grows_limit : forall b n, grows b n = true -> b + n <= 2 ^ 32).

(** The new core as a block handed out, ready to be freed. *)
Lemma extended_wf h l live nu :
  um_wf h l live -> 0 < nu -> h_brk h + HDR * nu <= 2 ^ 32 ->
  um_wf (mkHeap (h_ptr h) (<[h_brk h := nu]> (h_size h)) (h_freep h) (h_brk h + HDR * nu)) l (<[h_brk h := nu]> live) /\
  live !! h_brk h = None.
Proof.
  intros Hwf Hnu Htop. pose proof (um_bounds _ _ _ Hwf) as Hbd.
  assert (Hl : forall a s, live !! a = Some s -> a + HDR * s <= h_brk h /\ a < h_brk h).
  { intros a s Ha. destruct (live_bounds _ _ _ _ _ Hwf Ha), (um_live _ _ _ Hwf _ _ Ha). unfold HDR in *. lia. }
  assert (Hn : live !! h_brk h = None).
  { destruct (live !! h_brk h) as [s|] eqn:E; [|done]. destruct (Hl _ _ E). lia. }
  assert (Hin : forall x, inside l x -> x < h_brk h) by (intros x Hx; pose proof (proj1 (um_part _ _ _ Hwf x) (or_introl Hx)); lia).
  split; [|done]. constructor; try apply Hwf; simpl.
  - eapply path_ext; [|apply Hwf]. intros a Ha. simpl. rewrite lookup_insert_ne; [done|]. intros <-.
    apply list_elem_of_fmap in Ha as ([a s] & Ea & Ha). simpl in Ea. subst a.
    destruct (cell_cases _ _ _ _ _ Hwf Ha) as [[? _]|[? Hs]]; [unfold HDR in *; lia|].
    destruct (cell_bounds _ _ _ _ _ Hwf Ha Hs). unfold HDR in *. lia.
  - intros a s. rewrite lookup_insert_Some. intros [[<- <-]|[Hne Ha]]; [by rewrite lookup_insert_eq|].
    rewrite lookup_insert_ne by done. by apply (um_live _ _ _ Hwf).
  - intros x Hx. rewrite inside_live_insert by done. pose proof (Hin x Hx). intros [?|?]; [lia|]. by apply (um_disj _ _ _ Hwf x).
  - intros a u b v. rewrite !lookup_insert_Some. intros [[<- <-]|[Hne Ha]] [[<- <-]|[Hne' Hb]] Hab; [done|..|].
    + right. apply (Hl _ _ Hb).
    + left. apply (Hl _ _ Ha).
    + by apply (um_apart_live _ _ _ Hwf).
  - intros x. rewrite inside_live_insert by done. pose proof (um_part _ _ _ Hwf x) as Hp. unfold HDR in *.
    destruct (decide (x < h_brk h)); [|assert (~ (heap0 <= x < h_brk h)) by lia]; split; intros; intuition lia.
  - unfold HDR in *. lia.
Qed.

Lemma s32_id x : 0 <= x < 2 ^ 31 -> s32 x = x.
Proof. intros H. unfold s32, swrap. rewrite Z.mod_small; lia. Qed.

Lemma morecore_spec h l live nu :
  um_wf h l live -> 0 < nu < 2 ^ 27 ->
  returns (morecore grows nu h) (fun r h' =>
    (r = 0 /\ h' = h /\ grows (h_brk h) (HDR * Z.max 4096 nu) = false) \/
    (r <> 0 /\ r = h_freep h' /\ exists l', um_wf h' l' live /\ (exists a s, (a, s) ∈ l' /\ nu <= s) /\
      (length l' <= S (length l))%nat)).
Proof using Type grows_limit.
  intros Hwf Hnu. unfold morecore, sbrk. mred. set (nu' := if nu <? 4096 then 4096 else nu).
  assert (Hnu' : nu <= nu' < 2 ^ 27 /\ nu' = Z.max 4096 nu) by (unfold nu'; destruct (Z.ltb_spec nu 4096); lia).
  assert (E : s32 (u64 (nu' * HDR)) = HDR * nu').
  { unfold HDR. unfold u64. rewrite Z.mod_small by lia. rewrite s32_id by lia. lia. }
  rewrite E. destruct (grows (h_brk h) (HDR * nu')) eqn:Eg; mred.
  - pose proof (um_bounds _ _ _ Hwf) as Hbd. rewrite (proj2 (Z.eqb_neq (h_brk h) SBRK_ERROR)) by (unfold HDR, SBRK_ERROR in *; lia).
    unfold set_size. mred. cbn [h_ptr h_size h_freep h_brk].
    destruct (extended_wf _ _ _ nu' Hwf) as [Hwf1 Hnew]; [lia|by apply grows_limit|].
    eapply returns_obind, returns_mono; [eapply (free_spec _ _ _ (h_brk h) nu' Hwf1); by rewrite lookup_insert_eq|].
    cbn beta. intros _ h2 (l' & Hwf2 & _ & (a & s & Ha & Hs) & Hlen). mred. right.
    rewrite delete_insert_id in Hwf2 by done. split; [|split; [done|]].
    + pose proof (um_freep _ _ _ Hwf2) as Hf. apply list_elem_of_fmap in Hf as ([b u] & -> & Hb). simpl.
      destruct (cell_cases _ _ _ _ _ Hwf2 Hb) as [[? _]|[? _]]; lia.
    + exists l'. split_and!; [done| |done]. exists a, s. split; [done|lia].
  - rewrite Z.eqb_refl. mred. left. split_and!; [done..|]. by rewrite <- (proj2 Hnu').
Qed.

(** ** malloc *)

Lemma malloc_step_fits nunits h prevp p s :
  h_size h !! p = Some s -> nunits <= s ->
  malloc_step grows nunits (prevp, p) h = (r ← carve nunits prevp p; mret (inr r)) h.
Proof.
  intros Hs Hle. unfold malloc_step, get_size. mred. rewrite (lookup_total_correct _ _ _ Hs).
  by rewrite (proj2 (Z.leb_le _ _)).
Qed.

Lemma malloc_step_next nunits h prevp p s n :
  h_size h !! p = Some s -> s < nunits -> p <> h_freep h -> h_ptr h !! p = Some n ->
  malloc_step grows nunits (prevp, p) h = Ret (inl (p, n)) h.
Proof.
  intros Hs Hlt Hne Hn. unfold malloc_step, get_size, get_ptr. mred. rewrite (lookup_total_correct _ _ _ Hs).
  rewrite (proj2 (Z.leb_gt _ _)) by done. mred. rewrite (proj2 (Z.eqb_neq _ _)) by done. mred.
  by rewrite (lookup_total_correct _ _ _ Hn).
Qed.

Lemma malloc_step_more nunits h prevp s :
  h_size h !! h_freep h = Some s -> s < nunits ->
  malloc_step grows nunits (prevp, h_freep h) h =
    (hp ← morecore grows nunits; if hp =? 0 then mret (inr 0) else p ← get_ptr hp; mret (inl (hp, p))) h.
Proof.
  intros Hs Hlt. unfold malloc_step, get_size. mred. rewrite (lookup_total_correct _ _ _ Hs).
  rewrite (proj2 (Z.leb_gt _ _)) by done. mred. by rewrite Z.eqb_refl.
Qed.

Lemma walk_prev h l sf w rest prevp t :
  (h_freep h, sf) :: w ++ rest ≡ₚ l -> path h ((h_freep h, sf) :: w ++ rest) (h_freep h) ->
  last ((h_freep h, sf) :: w) = Some (prevp, t) ->
  prevp ∈ l.*1 /\ h_ptr h !! prevp = Some (start (h_freep h) rest).
Proof.
  intros Hperm Hpath Hlast. apply last_Some in Hlast as [w' Ew].
  rewrite app_comm_cons, Ew in Hperm, Hpath. rewrite <- app_assoc in Hperm, Hpath. split.
  - apply list_elem_of_fmap. exists (prevp, t). split; [done|]. rewrite <- Hperm. apply elem_of_app. right. by left.
  - rewrite path_app in Hpath. apply Hpath.
Qed.

(** Once around the list from the cell after [freep]: a block is found, or
    every block is too small and morecore() is called. *)
Lemma malloc_walk n nunits h l live sf w rest prevp t :
  um_wf h l live -> (h_freep h, sf) :: w ++ rest ≡ₚ l -> path h ((h_freep h, sf) :: w ++ rest) (h_freep h) ->
  last ((h_freep h, sf) :: w) = Some (prevp, t) -> (length rest < n)%nat ->
  (exists x s prevx, (x, s) ∈ l /\ nunits <= s /\ prevx ∈ l.*1 /\ h_ptr h !! prevx = Some x /\
     forall Q, returns (carve nunits prevx x h) Q ->
       returns (loop n (malloc_step grows nunits) (prevp, start (h_freep h) rest) h) Q) \/
  (Forall (fun c => c.2 < nunits) ((h_freep h, sf) :: rest) /\
   forall Q, returns ((hp ← morecore grows nunits; if hp =? 0 then mret 0 else
       p ← get_ptr hp; loop (n - length rest - 1) (malloc_step grows nunits) (hp, p)) h) Q ->
     returns (loop n (malloc_step grows nunits) (prevp, start (h_freep h) rest) h) Q).
Proof.
  intros Hwf. revert n w prevp t. induction rest as [|[p s] rest IH]; intros [|n] w prevp t Hperm Hpath Hlast Hn; simpl in Hn; try lia.
  - destruct (walk_prev _ _ _ _ _ _ _ Hperm Hpath Hlast) as [Hprev Hpn]. rewrite app_nil_r in Hperm.
    assert (Hfl : (h_freep h, sf) ∈ l) by (rewrite <- Hperm; by left).
    destruct (path_elem _ _ _ _ _ (um_path _ _ _ Hwf) Hfl) as [Hsz _].
    cbn [loop start]. destruct (Z.leb_spec nunits sf) as [Hle|Hgt].
    + left. exists (h_freep h), sf, prevp. split_and!; [done..|]. intros Q. mred.
      rewrite (malloc_step_fits _ _ _ _ sf) by done. mred. by destruct (carve nunits prevp (h_freep h) h).
    + right. split; [by repeat constructor|]. intros Q. mred. rewrite (malloc_step_more _ _ _ sf) by done. mred.
      replace (S n - length (@nil block) - 1)%nat with n by (simpl; lia).
      destruct (morecore grows nunits h) as [r h1| | | |]; try done. mred. by destruct (r =? 0).
  - assert (Hnd : p <> h_freep h).
    { pose proof (ordered_NoDup _ _ (um_ordered _ _ _ Hwf)) as Hnd. rewrite <- Hperm, fmap_cons, fmap_app, NoDup_cons in Hnd.
      destruct Hnd as [Hnd _]. intros ->. apply Hnd. apply elem_of_app. right. by left. }
    assert (Hpl : (p, s) ∈ l) by (rewrite <- Hperm; right; apply elem_of_app; right; by left).
    destruct (walk_prev _ _ _ _ _ _ _ Hperm Hpath Hlast) as [Hprev Hpn].
    destruct (path_elem _ _ _ _ _ (um_path _ _ _ Hwf) Hpl) as [Hsz _].
    assert (Hnx : h_ptr h !! p = Some (start (h_freep h) rest)) by (rewrite app_comm_cons, path_app in Hpath; apply Hpath).
    cbn [loop start]. destruct (Z.leb_spec nunits s) as [Hle|Hgt].
    + left. exists p, s, prevp. split_and!; [done..|]. intros Q. mred.
      rewrite (malloc_step_fits _ _ _ _ s) by done. mred. by destruct (carve nunits prevp p h).
    + mred. rewrite (malloc_step_next _ _ _ _ s (start (h_freep h) rest)) by done. mred.
      destruct (IH n (w ++ [(p, s)]) p s) as [H|[HF H]];
        [by rewrite <- app_assoc|by rewrite <- app_assoc|by rewrite app_comm_cons, last_snoc|lia|by left|].
      right. split; [inversion HF; subst; by repeat constructor|]. intros Q HQ. apply H.
      by replace (n - length rest - 1)%nat with (S n - length ((p, s) :: rest) - 1)%nat by (simpl; lia).
Qed.

(** What malloc() leaves on success. *)
Definition handed_out (live : gmap Z Z) (nunits r : Z) (h' : heap) : Prop :=
  live !! (r - HDR) = None /\ exists l', um_wf h' l' (<[r - HDR := nunits]> live).

Lemma walk_finds n nunits h l live sf r :
  um_wf h l live -> 0 < nunits -> (h_freep h, sf) :: r ≡ₚ l -> path h ((h_freep h, sf) :: r) (h_freep h) -> (length r < n)%nat ->
  returns (loop n (malloc_step grows nunits) (h_freep h, start (h_freep h) r) h) (handed_out live nunits) \/
  (Forall (fun c => c.2 < nunits) l /\
   forall Q, returns ((hp ← morecore grows nunits; if hp =? 0 then mret 0 else
       p ← get_ptr hp; loop (n - length r - 1) (malloc_step grows nunits) (hp, p)) h) Q ->
     returns (loop n (malloc_step grows nunits) (h_freep h, start (h_freep h) r) h) Q).
Proof.
  intros Hwf Hn Hperm Hpath Hlen.
  destruct (malloc_walk n nunits h l live sf [] r (h_freep h) sf Hwf Hperm Hpath eq_refl Hlen)
    as [(x & s & prevx & Hx & Hs & Hpx & Hnx & HQ)|[HF HQ]].
  - left. apply HQ. eapply returns_mono; [by eapply carve_spec|]. cbn beta. intros v h' (l' & H1 & H2 & _).
    split; [done|]. by exists l'.
  - right. split; [by rewrite <- Hperm|done].
Qed.

Lemma malloc_loop_spec n h l live nunits :
  um_wf h l live -> 0 < nunits < 2 ^ 27 -> (2 * length l < n)%nat ->
  returns (loop n (malloc_step grows nunits) (h_freep h, h_ptr h !!! h_freep h) h) (fun r h' =>
    (r = 0 /\ h' = h /\ grows (h_brk h) (HDR * Z.max 4096 nunits) = false) \/ handed_out live nunits r h').
Proof using Type grows_limit.
  intros Hwf Hnu Hn. destruct (path_rotate h l base (h_freep h)) as (sf & r & Hr & Hpath); [by eapply um_ring|apply Hwf|].
  pose proof (Permutation_length Hr) as Hlen. simpl in Hlen.
  assert (Hnx : h_ptr h !!! h_freep h = start (h_freep h) r) by (apply lookup_total_correct, Hpath). rewrite Hnx.
  destruct (walk_finds n nunits h l live sf r Hwf) as [H|[HF H]]; [lia|done..|lia| |].
  { eapply returns_mono; [exact H|]. auto. }
  apply H. mred. eapply returns_obind, returns_mono; [by eapply morecore_spec|]. cbn beta.
  intros hp h1 [(-> & -> & Hk)|(Hne & -> & l1 & Hwf1 & (a & s & Ha & Hs) & Hl1)]; [mred; by left|].
  rewrite (proj2 (Z.eqb_neq _ _)) by done. unfold get_ptr. mred.
  destruct (path_rotate h1 l1 base (h_freep h1)) as (sf1 & r1 & Hr1 & Hpath1); [by eapply um_ring|apply Hwf1|].
  pose proof (Permutation_length Hr1) as Hlen1. simpl in Hlen1.
  assert (Hnx1 : h_ptr h1 !!! h_freep h1 = start (h_freep h1) r1) by (apply lookup_total_correct, Hpath1). rewrite Hnx1.
  destruct (walk_finds (n - length r - 1) nunits h1 l1 live sf1 r1 Hwf1) as [H1|[HF1 _]]; [lia|done..|lia| |].
  - eapply returns_mono; [exact H1|]. auto.
  - rewrite Forall_forall in HF1. specialize (HF1 _ Ha). simpl in HF1. lia.
Qed.

Lemma first_use h :
  h_brk h = heap0 -> 0 < base -> base + HDR <= heap0 <= 2 ^ 32 ->
  um_wf (mkHeap (<[base := base]> (h_ptr h)) (<[base := 0]> (h_size h)) base (h_brk h)) [(base, 0)] ∅.
Proof.
  intros Hb Hp Hh. constructor; cbn [h_ptr h_size h_freep h_brk].
  - by exists [].
  - cbn. by rewrite !lookup_insert_eq.
  - by left.
  - cbn. lia.
  - intros a s Ha. by rewrite lookup_empty in Ha.
  - intros x Hx (a & s & Ha & _). by rewrite lookup_empty in Ha.
  - intros a s b t Ha. by rewrite lookup_empty in Ha.
  - intros x. rewrite inside_cons, inside_nil. split; [|unfold HDR in *; lia].
    intros [[?|[]]|(a & s & Ha & _)]; [unfold HDR in *; lia|by rewrite lookup_empty in Ha].
  - unfold HDR in *. lia.
Qed.

Lemma units_spec nbytes :
  0 <= nbytes <= 2 ^ 31 - 64 -> 0 < units nbytes < 2 ^ 27 /\ nbytes <= HDR * (units nbytes - 1).
Proof.
  intros Hn. unfold units, HDR. pose proof (Z.div_mod (nbytes + 16 - 1) 16 ltac:(lia)) as Hd.
  pose proof (Z.mod_pos_bound (nbytes + 16 - 1) 16 ltac:(lia)). rewrite u32_id; lia.
Qed.

(** C30. malloc() of a request below 2 GB returns in every well-formed
    heap, the first call included: either a block of at least [nbytes] bytes
    inside the heap that overlaps no block handed out before, the heap staying
    well formed, or 0 with the blocks handed out unchanged, and that only when
    the kernel refuses to move the break. *)
Theorem malloc_allocates h live nbytes :
  heap_ok h live -> 0 <= nbytes <= 2 ^ 31 - 64 ->
  returns (malloc base grows nbytes h) (fun r h' =>
    (r = 0 /\ heap_ok h' live /\ grows (h_brk h) (HDR * Z.max 4096 (units nbytes)) = false) \/
    (heap0 < r /\ r + nbytes <= h_brk h' /\ live !! (r - HDR) = None /\
     heap_ok h' (<[r - HDR := units nbytes]> live) /\
     forall a s, live !! a = Some s -> apart (r - HDR) (units nbytes) a s)).
Proof using Type grows_limit.
  intros Hok Hn. destruct (units_spec nbytes Hn) as [Hu Hfit].
  assert (Hmain : forall h1 l, um_wf h1 l live -> h_brk h1 = h_brk h ->
    returns ((p ← get_ptr (h_freep h1); cells ← gets (fun h => size (h_ptr h));
              loop (2 * cells + 4) (malloc_step grows (units nbytes)) (h_freep h1, p)) h1) (fun r h' =>
      (r = 0 /\ heap_ok h' live /\ grows (h_brk h) (HDR * Z.max 4096 (units nbytes)) = false) \/
      (heap0 < r /\ r + nbytes <= h_brk h' /\ live !! (r - HDR) = None /\
       heap_ok h' (<[r - HDR := units nbytes]> live) /\
       forall a s, live !! a = Some s -> apart (r - HDR) (units nbytes) a s))).
  { intros h1 l Hwf Hb. unfold get_ptr. mred. pose proof (um_length _ _ _ Hwf) as Hl.
    eapply returns_mono; [eapply malloc_loop_spec; [done|done|lia]|]. cbn beta.
    intros r h' [(-> & -> & Hk)|[Hnew (l' & Hwf')]].
    - left. split_and!; [done|right; eauto|by rewrite <- Hb].
    - right. destruct (live_bounds _ _ _ (r - HDR) (units nbytes) Hwf') as [H1 H2]; [by rewrite lookup_insert_eq|].
      split_and!; [unfold HDR in *; lia..|done|right; eauto|]. intros a s Ha.
      assert (Hne : r - HDR <> a) by congruence.
      apply (um_apart_live _ _ _ Hwf'); [by rewrite lookup_insert_eq|by rewrite lookup_insert_ne|done]. }
  unfold malloc. mred. destruct Hok as [(Hf & -> & Hb & Hp & Hh)|[l Hwf]].
  - rewrite Hf. rewrite Z.eqb_refl. unfold set_ptr, set_freep, set_size. mred. cbn [h_ptr h_size h_freep h_brk].
    apply (Hmain _ _ (first_use h Hb Hp Hh)). done.
  - assert (Hf : h_freep h <> 0).
    { pose proof (um_freep _ _ _ Hwf) as Hf. apply list_elem_of_fmap in Hf as ([b u] & -> & Hbu). simpl.
      destruct (um_bounds _ _ _ Hwf), (cell_cases _ _ _ _ _ Hwf Hbu) as [[? _]|[? _]]; lia. }
    rewrite (proj2 (Z.eqb_neq _ _)) by done. mred. by apply (Hmain h l).
Qed.
End growing.

(** C31. free() of any block handed out by malloc() terminates and puts
    the block back: the heap is well formed without it, the break does not
    move, the other blocks stay handed out, and no two free blocks touch
    (neighbours were joined). *)
Theorem free_coalesces h live ap s :
  heap_ok h live -> live !! (ap - HDR) = Some s ->
  returns (free ap h) (fun _ h' => h_brk h' = h_brk h /\ exists l', um_wf h' l' (delete (ap - HDR) live)).
Proof.
  intros [(_ & -> & _)|[l Hwf]] Hs; [by rewrite lookup_empty in Hs|].
  replace ap with (ap - HDR + HDR) at 1 by lia. eapply returns_mono; [by eapply free_spec|]. cbn beta.
  intros _ h' (l' & H1 & H2 & _). eauto.
Qed.
End uheap.
