(* ===== verification/Sh.v ===== *)
(** * The shell (user/sh.c): lexer and parser

    The line is a NUL-terminated byte array; the pointers of the source (s,
    es, q, eq, argv, ...) are indices into it.  The parser's state is *ps, the
    position reached, which the source updates through a pointer.  panic() of
    the shell, which prints a message and exits, is the outcome [Panic]; a
    read or write outside the array is undefined. *)

From S2P Require Import Ulib Grep Prelude State.

(** whitespace[] and symbols[] *)
Definition whitespace : list Z := [32; 9; 13; 10; 11; 0].
Definition symbols : list Z := [60; 124; 62; 38; 59; 40; 41; 0].

Definition LT : Z := 60.
Definition GT : Z := 62.
Definition BAR : Z := 124.
Definition AMP : Z := 38.
Definition SEMI : Z := 59.
Definition LPAR : Z := 40.
Definition RPAR : Z := 41.
Definition PLUS : Z := 43.
Definition WORD : Z := 97.

Definition MAXARGS : nat := 10.

(** struct execcmd, redircmd, pipecmd, listcmd and backcmd; argv[i] and
    eargv[i] are kept as pairs. *)
Inductive cmd :=
| ExecCmd (argv : list (nat * nat))
| RedirCmd (c : cmd) (file efile : nat) (mode fd : Z)
| PipeCmd (left right : cmd)
| ListCmd (left right : cmd)
| BackCmd (c : cmd).

(** strchr(set, c) != 0 *)
Definition in_set (set : list Z) (c : Z) : bool :=
  match strchr set c with Some (Some _) => true | _ => false end.

Section parser.
  (* the line, with its NUL at [es] *)
  Context (buf : list Z) (es : nat).

(** while(s < es && p( *s)) s++ *)
Definition scan (p : Z -> bool) (s : nat) : M nat nat :=
  loop (S (es - s)) (fun s =>
    if (s <? es)%nat then
      c ← deref (buf !! s);
      if p c then mret (inl (S s)) else mret (inr s)
    else mret (inr s)) s.

Definition gettoken : M nat (Z * (nat * nat)) :=
  s ← gets (fun s => s);
  q ← scan (in_set whitespace) s;
  c ← deref (buf !! q);
  '(ret, eq) ←
    (if c =? 0 then mret (c, q)
     else if (c =? BAR) || (c =? LPAR) || (c =? RPAR) || (c =? SEMI) || (c =? AMP) || (c =? LT) then mret (c, S q)
     else if c =? GT then
       c' ← deref (buf !! S q);
       if c' =? GT then mret (PLUS, S (S q)) else mret (c, S q)
     else
       e ← scan (fun x => negb (in_set whitespace x) && negb (in_set symbols x)) q;
       mret (WORD, e));
  s ← scan (in_set whitespace) eq;
  modify (fun _ => s);;
  mret (ret, (q, eq)).

Definition peek (toks : list Z) : M nat bool :=
  s ← gets (fun s => s);
  s ← scan (in_set whitespace) s;
  modify (fun _ => s);;
  c ← deref (buf !! s);
  mret (negb (c =? 0) && in_set toks c).

Definition parseredirs (c : cmd) : M nat cmd :=
  loop (S es) (fun c =>
    b ← peek [LT; GT; 0];
    if negb b then mret (inr c) else
    '(tok, _) ← gettoken;
    '(t, (q, eq)) ← gettoken;
    if negb (t =? WORD) then panic "missing file for redirection" else
    if tok =? LT then mret (inl (RedirCmd c q eq O_RDONLY 0))
    else if tok =? GT then mret (inl (RedirCmd c q eq (Z.lor (Z.lor O_WRONLY O_CREATE) O_TRUNC) 1))
    else if tok =? PLUS then mret (inl (RedirCmd c q eq (Z.lor O_WRONLY O_CREATE) 1))
    else mret (inl c)) c.

(** parseexec keeps a pointer to the execcmd that the redirections wrap and
    stores the arguments through it. *)
Fixpoint set_argv (argv : list (nat * nat)) (c : cmd) : cmd :=
  match c with
  | RedirCmd c f e m fd => RedirCmd (set_argv argv c) f e m fd
  | _ => ExecCmd argv
  end.

(** One iteration of the loop of parseexec over words and redirections. *)
Definition parseargs_step (x : list (nat * nat) * cmd) : M nat (list (nat * nat) * cmd + cmd) :=
  let '(argv, ret) := x in
  b ← peek [BAR; RPAR; AMP; SEMI; 0];
  if (b : bool) then mret (inr (set_argv argv ret)) else
  t ← gettoken;
  let '(tok, (q, eq)) := t in
  if tok =? 0 then mret (inr (set_argv argv ret)) else
  if negb (tok =? WORD) then panic "syntax" else
  let argv := argv ++ [(q, eq)] in
  if (MAXARGS <=? length argv)%nat then panic "too many args" else
  ret ← parseredirs ret;
  mret (inl (argv, ret)).

Definition parseargs (ret : cmd) : M nat cmd := loop (S es) parseargs_step ([], ret).

(** Each call goes one level down or consumes a token, which [fuel] bounds. *)
Fixpoint parseline (fuel : nat) : M nat cmd :=
  match fuel with
  | O => out_of_fuel
  | S fuel =>
      c ← parsepipe fuel;
      c ← loop (S es) (fun c =>
            b ← peek [AMP; 0];
            if (b : bool) then gettoken;; mret (inl (BackCmd c)) else mret (inr c)) c;
      b ← peek [SEMI; 0];
      if (b : bool) then gettoken;; r ← parseline fuel; mret (ListCmd c r) else mret c
  end
with parsepipe (fuel : nat) : M nat cmd :=
  match fuel with
  | O => out_of_fuel
  | S fuel =>
      c ← parseexec fuel;
      b ← peek [BAR; 0];
      if (b : bool) then gettoken;; r ← parsepipe fuel; mret (PipeCmd c r) else mret c
  end
with parseexec (fuel : nat) : M nat cmd :=
  match fuel with
  | O => out_of_fuel
  | S fuel =>
      b ← peek [LPAR; 0];
      if (b : bool) then parseblock fuel else
      ret ← parseredirs (ExecCmd []);
      parseargs ret
  end
with parseblock (fuel : nat) : M nat cmd :=
  match fuel with
  | O => out_of_fuel
  | S fuel =>
      b ← peek [LPAR; 0];
      if negb b then panic "parseblock" else
      gettoken;;
      c ← parseline fuel;
      b ← peek [RPAR; 0];
      if negb b then panic "syntax - missing )" else
      gettoken;;
      parseredirs c
  end.

End parser.

(** *p = 0 *)
Definition put_nul (i : nat) : M (list Z) unit :=
  b ← gets (fun b => b);
  if (i <? length b)%nat then modify (<[i := 0]>) else undefined.

Fixpoint nulterminate (c : cmd) : M (list Z) unit :=
  match c with
  | ExecCmd argv => foreach argv.*2 put_nul
  | RedirCmd c _ efile _ _ => nulterminate c;; put_nul efile
  | PipeCmd l r | ListCmd l r => nulterminate l;; nulterminate r
  | BackCmd c => nulterminate c
  end.

(** The command and the line with the strings of the command terminated. *)
Definition parsecmd (buf : list Z) : outcome (list Z) cmd :=
  match strlen buf with
  | None => UB
  | Some n =>
      let es := Z.to_nat n in
      match (c ← parseline buf es (4 * es + 4); peek buf es [0];;
             s ← gets (fun s => s);
             if negb (s =? es)%nat then panic "syntax" else mret c) O with
      | Ret c _ => (nulterminate c;; mret c) buf
      | Panic msg => Panic msg
      | Swtch _ _ | UB => UB
      | OutOfFuel => OutOfFuel
      end
  end.

(** ** Running a command *)

(** The system calls of the process that runs a command, with what it does
    on failure and on success; the two descriptors pipe() returns are the
    arguments of what follows.  exec() comes back only when it fails. *)
Inductive script :=
| Exit (status : Z)
| Print (msg : string) (arg : list Z) (k : script)
| Exec (path : list Z) (argv : list (list Z)) (failed : script)
| Close (fd : Z) (k : script)
| Open (file : list Z) (mode : Z) (failed ok : script)
| Dup (fd : Z) (k : script)
| Pipe (failed : script) (ok : Z -> Z -> script)
| Fork (failed child parent : script)
| Wait (k : script).

(** panic(s) of the shell *)
Definition sh_panic (msg : string) : script := Print msg [] (Exit 1).

(** fork1(): fork, with a panic on failure *)
Definition fork1 (child parent : script) : script := Fork (sh_panic "fork") child parent.

(** The C string at index [i] of the line. *)
Definition string_at (b : list Z) (i : nat) : list Z := until_nul (drop i b).

Fixpoint runcmd (b : list Z) (c : cmd) : script :=
  match c with
  | ExecCmd argv =>
      match (fun w => string_at b w.1) <$> argv with
      | [] => Exit 1
      | a0 :: args => Exec a0 (a0 :: args) (Print "exec %s failed" a0 (Exit 0))
      end
  | RedirCmd c q _ mode fd =>
      Close fd (Open (string_at b q) mode (Print "open %s failed" (string_at b q) (Exit 1)) (runcmd b c))
  | ListCmd l r => fork1 (runcmd b l) (Wait (runcmd b r))
  | PipeCmd l r =>
      Pipe (sh_panic "pipe") (fun p0 p1 =>
        fork1 (Close 1 (Dup p1 (Close p0 (Close p1 (runcmd b l)))))
          (fork1 (Close 0 (Dup p0 (Close p0 (Close p1 (runcmd b r)))))
             (Close p0 (Close p1 (Wait (Wait (Exit 0)))))))
  | BackCmd c => fork1 (runcmd b c) (Exit 0)
  end.

(** ** The command loop *)

(** getcmd(buf, nbuf): the buffer and the rest of the input, or [None] at the
    end of the input. *)
Definition getcmd (nbuf : nat) (input : list Z) : option (list Z * list Z) :=
  let '(bs, rest) := Ulib.gets nbuf input in
  let b := bs ++ replicate (nbuf - length bs) 0 in
  if hd 0 b =? 0 then None else Some (b, rest).

(** What main() does with one line: nothing, chdir, or a child that runs the
    command. *)
Inductive action :=
| Blank
| Chdir (path : list Z)
| RunChild (o : outcome (list Z) cmd).

Fixpoint skip_blanks (b : list Z) : list Z :=
  match b with
  | c :: b' => if (c =? 32) || (c =? 9) then skip_blanks b' else b
  | [] => []
  end.

Definition main_line (b : list Z) : option action :=
  let c := skip_blanks b in
  if hd 0 c =? 10 then Some Blank
  else if (hd 0 c =? 99) && (hd 0 (drop 1 c) =? 100) && (hd 0 (drop 2 c) =? 32) then
    n ← strlen c;
    Some (Chdir (drop 3 (<[Z.to_nat (n - 1) := 0]> c)))
  else Some (RunChild (parsecmd c)).

(** echo hi > f | wc & *)
Example parse_ex :
  let line := [101;99;104;111;32;104;105;32;62;102;124;32;119;99;38;10;0] in
  match parsecmd line with
  | Ret c b => c = BackCmd (PipeCmd (RedirCmd (ExecCmd [(0, 4); (5, 7)]%nat) 9 10 0x601 1) (ExecCmd [(12, 14)]%nat)) /\
               b = [101;99;104;111;0;104;105;0;62;102;0;32;119;99;0;10;0]
  | _ => False
  end.
Proof. vm_compute. split; reflexivity. Qed.
