(* ===== verification/ShParse.v ===== *)
(** * The shell parser: every line is parsed or refused, and commands read back

    [safe]: a run that returns a result with the property, or ends in the
    shell's panic(); it neither reads nor writes outside the line and does not
    run out of the bound put on the recursion. *)

From S2P Require Import Ulib Grep Prelude State CString Sh.

Definition safe {S A} (o : outcome S A) (Q : A -> S -> Prop) : Prop :=
  match o with Ret a s => Q a s | Panic _ => True | _ => False end.

Lemma safe_obind {S A B} (f : A -> M S B) (o : outcome S A) (Q : B -> S -> Prop) :
  safe o (fun a s' => safe (f a s') Q) -> safe (obind f o) Q.
Proof. by destruct o. Qed.

Lemma safe_mono {S A} (o : outcome S A) (P Q : A -> S -> Prop) :
  safe o P -> (forall a s, P a s -> Q a s) -> safe o Q.
Proof. destruct o; simpl; naive_solver. Qed.

Lemma safe_loop {S X R} (I : X -> S -> Prop) (V : X -> S -> nat) (Q : R -> S -> Prop)
    (body : X -> M S (X + R)) n x s :
  I x s -> (V x s < n)%nat ->
  (forall x1 s1, I x1 s1 ->
     safe (body x1 s1) (fun r s2 =>
       match r with inl x2 => I x2 s2 /\ (V x2 s2 < V x1 s1)%nat | inr v => Q v s2 end)) ->
  safe (loop n body x s) Q.
Proof.
  intros HI HV Hb. revert x s HI HV. induction n as [|n IH]; intros x s HI HV; [lia|].
  apply safe_obind. eapply safe_mono; [by apply Hb|]. simpl. intros [x2|v] s1 H1; [|done].
  destruct H1. apply IH; [done|lia].
Qed.

(** ** Characters *)

(** A character words are made of. *)
Definition word_char (c : Z) : bool := negb (c =? 0) && negb (in_set whitespace c) && negb (in_set symbols c).

(** The words of a command, and its argument lists within argv[MAXARGS]. *)
Fixpoint words (c : cmd) : list (nat * nat) :=
  match c with
  | ExecCmd argv => argv
  | RedirCmd c q e _ _ => words c ++ [(q, e)]
  | PipeCmd l r | ListCmd l r => words l ++ words r
  | BackCmd c => words c
  end.

Fixpoint argv_fit (c : cmd) : Prop :=
  match c with
  | ExecCmd argv => (length argv < MAXARGS)%nat
  | RedirCmd c _ _ _ _ | BackCmd c => argv_fit c
  | PipeCmd l r | ListCmd l r => argv_fit l /\ argv_fit r
  end.

(** An execcmd under redirections: where set_argv reaches it. *)
Fixpoint wraps_exec (c : cmd) : Prop :=
  match c with
  | ExecCmd argv => argv = []
  | RedirCmd c _ _ _ _ => wraps_exec c
  | _ => False
  end.

Lemma words_set_argv argv c : wraps_exec c -> words (set_argv argv c) ≡ₚ words c ++ argv.
Proof.
  induction c as [l|c IH| | |]; simpl; try done; [by intros ->|]. intros Hw. rewrite (IH Hw). solve_Permutation.
Qed.

Lemma argv_fit_set_argv argv c : (length argv < MAXARGS)%nat -> argv_fit (set_argv argv c).
Proof. intros H. by induction c. Qed.

Section parser.
  (* the line: its NUL is at [es] and there is none before *)
  Context (buf : list Z) (es : nat).
  Context (buf_end : buf !! es = Some 0) (buf_inner : forall i, (i < es)%nat -> exists c, buf !! i = Some c /\ c <> 0).

(** The index pair of a word: its characters, and what follows them. *)
Record is_word (w : nat * nat) : Prop := {
  iw_range : (w.1 < w.2 <= es)%nat;
  iw_chars i : (w.1 <= i < w.2)%nat -> exists c, buf !! i = Some c /\ word_char c = true;
  iw_end : exists c, buf !! w.2 = Some c /\ word_char c = false;
}.

Lemma scan_spec p s x : (s <= es)%nat ->
  returns (scan buf es p s x) (fun e x' => x' = x /\ (s <= e <= es)%nat /\
    (forall i, (s <= i < e)%nat -> exists c, buf !! i = Some c /\ c <> 0 /\ p c = true) /\
    (exists c, buf !! e = Some c /\ (e = es \/ p c = false))).
Proof using Type*.
  intros Hs. unfold scan.
  apply (loop_returns (fun e x' => x' = x /\ (s <= e <= es)%nat /\
    forall i, (s <= i < e)%nat -> exists c, buf !! i = Some c /\ c <> 0 /\ p c = true) (fun e => es - e)%nat).
  - split_and!; [done|lia..|]. intros i Hi. lia.
  - lia.
  - intros e x1 (-> & He & Hi). destruct (Nat.ltb_spec e es) as [Hlt|Hge].
    + destruct (buf_inner e Hlt) as (c & Hc & Hc0). mred. rewrite Hc. mred. destruct (p c) eqn:Ep; simpl.
      * split; [|lia]. split_and!; [done|lia..|]. intros i Hie. destruct (decide (i = e)) as [->|]; [eauto|]. apply Hi. lia.
      * split_and!; [done|lia..|done|]. exists c. auto.
    + assert (e = es) as -> by lia. simpl. split_and!; [done|lia..|done|]. exists 0. auto.
Qed.

(** What one call of gettoken does from position [s]. *)
Record token_at (s : nat) (r : Z * (nat * nat)) (s' : nat) : Prop := {
  ta_range : (s <= r.2.1 <= r.2.2)%nat /\ (r.2.2 <= s' <= es)%nat;
  ta_progress : r.1 <> 0 -> (s < s')%nat;
  ta_end : r.1 = 0 -> r.2.1 = es;
  ta_word : r.1 = WORD -> is_word r.2;
}.

Lemma in_set_whitespace_symbol c :
  (c =? 0) = false -> (c =? BAR) || (c =? LPAR) || (c =? RPAR) || (c =? SEMI) || (c =? AMP) || (c =? LT) = false ->
  (c =? GT) = false -> in_set symbols c = false.
Proof.
  unfold in_set, symbols, BAR, LPAR, RPAR, SEMI, AMP, LT, GT. intros H0 H1 H2.
  repeat (apply orb_false_iff in H1 as [H1 ?]). cbn [strchr]. rewrite !(Z.eqb_sym _ c).
  repeat match goal with H : (c =? _) = false |- _ => rewrite H; clear H end. done.
Qed.

Lemma gettoken_spec s : (s <= es)%nat -> returns (gettoken buf es s) (token_at s).
Proof using Type*.
  intros Hs. unfold gettoken. mred.
  eapply returns_obind, returns_mono; [by apply scan_spec|]. cbn beta. intros q ? (-> & Hq & _ & c & Hc & Hstop).
  mred. rewrite Hc. mred.
  assert (Hq0 : c <> 0 -> (q < es)%nat) by (intros Hne; destruct (decide (q = es)) as [->|]; [congruence|lia]).
  assert (Hfin : forall ret eq, (q <= eq <= es)%nat -> (ret <> 0 -> (q < eq)%nat) -> (ret = 0 -> q = es) ->
    (ret = WORD -> is_word (q, eq)) ->
    returns (obind (fun s1 => modify (fun _ => s1) ;; mret (ret, (q, eq))) (scan buf es (in_set whitespace) eq s)) (token_at s)).
  { intros ret eq Heq H1 H2 H3. eapply returns_obind, returns_mono; [apply scan_spec; lia|]. cbn beta.
    intros s' ? (-> & Hs' & _). constructor; simpl; auto; [lia|]. intros Hr. specialize (H1 Hr). lia. }
  destruct (Z.eqb_spec c 0) as [->|Hc0]; mred.
  { apply Hfin; [lia|done| |done]. intros _. destruct (decide (q = es)); [done|].
    destruct (buf_inner q) as (c & Hc' & ?); [lia|]. congruence. }
  specialize (Hq0 Hc0). destruct (_ || (c =? LT)) eqn:E1; mred.
  { apply Hfin; [lia|lia|done|]. intros ->. done. }
  destruct (Z.eqb_spec c GT) as [->|Hgt]; mred.
  { assert (exists c', buf !! S q = Some c' /\ (c' <> 0 -> (S q < es)%nat)) as (c' & Hc' & Hlt).
    { destruct (decide (S q = es)) as [E|]; [rewrite E; by exists 0|]. destruct (buf_inner (S q)) as (c' & ? & ?); [lia|].
      exists c'. split; [done|lia]. }
    rewrite Hc'. mred. destruct (Z.eqb_spec c' GT) as [->|]; mred; apply Hfin; try done; lia || (specialize (Hlt ltac:(done)); lia). }
  eapply returns_obind, returns_obind, returns_mono; [apply scan_spec; lia|]. cbn beta.
  intros e ? (-> & He & Hall & d & Hd & Hde). mred.
  assert (Hws : in_set whitespace c = false) by (destruct Hstop as [->|?]; [congruence|done]).
  assert (Hsy : in_set symbols c = false) by (apply in_set_whitespace_symbol; [by apply Z.eqb_neq|done|by apply Z.eqb_neq]).
  assert (Hqe : q <> e).
  { intros <-. rewrite Hc in Hd. injection Hd as <-. destruct Hde as [->|Hde]; [lia|]. by rewrite Hws, Hsy in Hde. }
  apply Hfin; [lia|lia|done|]. intros _. constructor; simpl.
  - lia.
  - intros i Hi. destruct (Hall i Hi) as (x & Hx & Hx0 & Hp). exists x. split; [done|]. unfold word_char.
    by rewrite (proj2 (Z.eqb_neq x 0)).
  - exists d. split; [done|]. unfold word_char. destruct Hde as [->|Hde].
    + rewrite buf_end in Hd. by injection Hd as <-.
    + destruct (d =? 0); [done|]. exact Hde.
Qed.

Lemma peek_spec toks s : (s <= es)%nat ->
  returns (peek buf es toks s) (fun b s' => (s <= s' <= es)%nat /\
    exists c, buf !! s' = Some c /\ b = negb (c =? 0) && in_set toks c /\ (b = true -> in_set whitespace c = false)).
Proof using Type*.
  intros Hs. unfold peek. mred. eapply returns_obind, returns_mono; [by apply scan_spec|]. cbn beta.
  intros e ? (-> & He & _ & c & Hc & Hstop). mred. rewrite Hc. simpl. split; [lia|]. exists c. split_and!; [done..|].
  destruct Hstop as [->|Hstop]; [|done]. rewrite buf_end in Hc. by injection Hc as <-.
Qed.

(** A command whose words are words of the line. *)
Definition cmd_ok (c : cmd) : Prop := Forall is_word (words c) /\ argv_fit c.

(** What a parser routine called at [s] guarantees. *)
Definition parsed (s : nat) (c : cmd) (s' : nat) : Prop := cmd_ok c /\ (s <= s' <= es)%nat.

(** After a successful peek, gettoken makes progress. *)
Lemma token_after_peek toks s b s1 c :
  (s <= s1 <= es)%nat -> buf !! s1 = Some c -> b = negb (c =? 0) && in_set toks c -> b = true ->
  returns (gettoken buf es s1) (fun r s2 => token_at s1 r s2 /\ (s1 < s2)%nat).
Proof using Type*.
  intros Hs Hc -> Hb. apply andb_true_iff in Hb as [Hb _]. apply negb_true_iff, Z.eqb_neq in Hb.
  assert (Hlt : (s1 < es)%nat) by (destruct (decide (s1 = es)) as [->|]; [congruence|lia]).
  eapply returns_mono; [apply gettoken_spec; lia|]. intros r s2 H. split; [done|].
  destruct (decide (r.1 = 0)) as [E|E]; [|by apply (ta_progress _ _ _ H)].
  pose proof (ta_end _ _ _ H E). pose proof (ta_range _ _ _ H). lia.
Qed.

Lemma returns_safe {S A} (o : outcome S A) Q : returns o Q -> safe o Q.
Proof. by destruct o. Qed.

(** The two ways on from a peek, the first with the token consumed. *)
Lemma peek_then {A} toks s (yes no : M nat A) (Q : A -> nat -> Prop) :
  (s <= es)%nat ->
  (forall s1 r s2, (s <= s1 < s2)%nat -> (s2 <= es)%nat -> token_at s1 r s2 -> safe (yes s2) Q) ->
  (forall s1, (s <= s1 <= es)%nat -> safe (no s1) Q) ->
  safe ((b ← peek buf es toks; if (b : bool) then gettoken buf es;; yes else no) s) Q.
Proof using Type*.
  intros Hs Hy Hn. mred. apply safe_obind. eapply returns_safe, returns_mono; [by apply peek_spec|]. cbn beta.
  intros b s1 (Hs1 & ch & Hch & Hb & _). destruct b; [|by apply Hn]. mred.
  apply safe_obind. eapply returns_safe, returns_mono; [by eapply token_after_peek; eauto|]. cbn beta.
  intros r s2 [Ht Hlt]. pose proof (ta_range _ _ _ Ht). apply (Hy s1 r); [lia|lia|done].
Qed.

Lemma parseredirs_safe c s (P : cmd -> Prop) :
  (s <= es)%nat -> P c -> Forall is_word (words c) ->
  (forall c q e m fd, P c -> P (RedirCmd c q e m fd)) ->
  safe (parseredirs buf es c s) (fun c' s' => P c' /\ Forall is_word (words c') /\ (s <= s' <= es)%nat).
Proof using Type*.
  intros Hs Hc Hw HP. unfold parseredirs.
  apply (safe_loop (fun c' s' => P c' /\ Forall is_word (words c') /\ (s <= s' <= es)%nat) (fun _ s' => es - s')%nat);
    [split_and!; done || lia|lia|].
  intros c1 s1 (H1 & H2 & H3). mred. apply safe_obind. eapply returns_safe, returns_mono; [apply peek_spec; lia|]. cbn beta.
  intros b s2 (Hs2 & ch & Hch & Hb & _). destruct b; mred; [|split_and!; done || lia].
  apply safe_obind. eapply returns_safe, returns_mono; [eapply token_after_peek; eauto; lia|]. cbn beta.
  intros [tok w1] s3 (Ht & Hlt). mred. apply safe_obind. pose proof (ta_range _ _ _ Ht) as Hr1.
  eapply returns_safe, returns_mono; [apply gettoken_spec; lia|]. cbn beta. intros [tk [q e]] s4 Ht2. mred.
  pose proof (ta_range _ _ _ Ht2) as Hr2. simpl in *. destruct (Z.eqb_spec tk WORD) as [->|]; [|done]. mred.
  pose proof (ta_word _ _ _ Ht2 eq_refl) as Hword. simpl in Hword.
  assert (Hw' : Forall is_word (words c1 ++ [(q, e)])) by (apply Forall_app; auto).
  destruct (tok =? LT); [|destruct (tok =? GT); [|destruct (tok =? PLUS)]]; mred; simpl;
    (split; [split_and!; auto; lia|lia]).
Qed.

Lemma parseargs_safe ret s :
  (s <= es)%nat -> wraps_exec ret -> Forall is_word (words ret) -> safe (parseargs buf es ret s) (parsed s).
Proof using Type*.
  intros Hs Hret Hw. unfold parseargs.
  apply (safe_loop (fun x s' => wraps_exec x.2 /\ Forall is_word (words x.2 ++ x.1) /\ (length x.1 < MAXARGS)%nat /\ (s <= s' <= es)%nat)
           (fun _ s' => es - s')%nat); [cbn [fst snd]; rewrite app_nil_r; unfold MAXARGS; simpl; split_and!; done || lia|cbn beta; lia|].
  intros [argv c1] s1 (H1 & H2 & H3 & H4). cbn [fst snd] in *. unfold parseargs_step. mred.
  assert (Hdone : forall s', (s1 <= s' <= es)%nat -> parsed s (set_argv argv c1) s').
  { intros s' Hs'. split; [|lia]. split; [by rewrite words_set_argv|by apply argv_fit_set_argv]. }
  apply safe_obind. eapply returns_safe, returns_mono; [apply peek_spec; lia|]. cbn beta.
  intros b s2 (Hs2 & ch & Hch & Hb & _). destruct b; mred; [simpl; apply Hdone; lia|].
  apply safe_obind. eapply returns_safe, returns_mono; [apply gettoken_spec; lia|]. cbn beta.
  intros [tok [q e]] s3 Ht. pose proof (ta_range _ _ _ Ht) as Hr. cbn [fst snd] in *.
  destruct (Z.eqb_spec tok 0) as [->|Hne]; mred; [simpl; apply Hdone; lia|].
  destruct (Z.eqb_spec tok WORD) as [->|]; [|done]. mred. pose proof (ta_progress _ _ _ Ht Hne) as Hp.
  pose proof (ta_word _ _ _ Ht eq_refl) as Hword. simpl in Hp, Hword.
  destruct (Nat.leb_spec MAXARGS (length (argv ++ [(q, e)]))) as [|Hlen]; [done|]. mred.
  apply Forall_app in H2 as [H2 H2']. apply safe_obind.
  eapply safe_mono; [apply (parseredirs_safe _ _ wraps_exec); [lia|done..]|]. cbn beta.
  intros c2 s4 (Hc2 & Hw2 & Hs4). simpl. split; [|lia]. split_and!; [done| |done|lia..].
  rewrite !Forall_app. auto.
Qed.

Lemma cmd_ok_two l r : cmd_ok l -> cmd_ok r -> cmd_ok (PipeCmd l r) /\ cmd_ok (ListCmd l r).
Proof. intros [H1 H2] [H3 H4]. unfold cmd_ok. simpl. rewrite Forall_app. tauto. Qed.

Lemma parse_safe fuel :
  (forall s, (s <= es)%nat -> (4 * (es - s) + 4 <= fuel)%nat -> safe (parseline buf es fuel s) (parsed s)) /\
  (forall s, (s <= es)%nat -> (4 * (es - s) + 3 <= fuel)%nat -> safe (parsepipe buf es fuel s) (parsed s)) /\
  (forall s, (s <= es)%nat -> (4 * (es - s) + 2 <= fuel)%nat -> safe (parseexec buf es fuel s) (parsed s)) /\
  (forall s, (s <= es)%nat -> (4 * (es - s) + 1 <= fuel)%nat -> safe (parseblock buf es fuel s) (parsed s)).
Proof using Type*.
  induction fuel as [|fuel (IHl & IHp & IHe & IHb)]; [split_and!; intros; lia|].
  split_and!; intros s Hs Hf; cbn [parseline parsepipe parseexec parseblock]; mred.
  - apply safe_obind. eapply safe_mono; [apply IHp; lia|]. intros c s1 [Hc Hs1]. apply safe_obind.
    eapply safe_mono; [apply (safe_loop (fun c s' => parsed s1 c s') (fun _ s' => es - s')%nat)|].
    + split; [done|lia].
    + cbn beta. lia.
    + intros c1 s2 [Hc1 Hs2]. apply peek_then; [lia| |].
      * intros s3 r s4 Hs3 Hs4 _. simpl. split; [split; [done|lia]|lia].
      * intros s3 Hs3. simpl. instantiate (1 := parsed s1). split; [done|lia].
    + intros c2 s2 [Hc2 Hs2]. apply peek_then; [lia| |].
      * intros s3 r s4 Hs3 Hs4 _. mred. apply safe_obind. eapply safe_mono; [apply IHl; lia|].
        intros r' s5 [Hr Hs5]. split; [by apply cmd_ok_two|lia].
      * intros s3 Hs3. split; [done|lia].
  - apply safe_obind. eapply safe_mono; [apply IHe; lia|]. intros c s1 [Hc Hs1]. apply peek_then; [lia| |].
    + intros s3 r s4 Hs3 Hs4 _. mred. apply safe_obind. eapply safe_mono; [apply IHp; lia|].
      intros r' s5 [Hr Hs5]. split; [by apply cmd_ok_two|lia].
    + intros s3 Hs3. split; [done|lia].
  - apply safe_obind. eapply returns_safe, returns_mono; [by apply peek_spec|]. cbn beta.
    intros b s1 (Hs1 & _). destruct b.
    + eapply safe_mono; [apply IHb; lia|]. intros c s2 [Hc Hs2]. split; [done|lia].
    + mred. apply safe_obind. eapply safe_mono; [apply (parseredirs_safe _ _ wraps_exec); [lia|done..]|]. cbn beta.
      intros c s2 (Hw & Hc & Hs2). eapply safe_mono; [apply parseargs_safe; [lia|done..]|].
      intros c' s3 [Hc' Hs3]. split; [done|lia].
  - apply safe_obind. eapply returns_safe, returns_mono; [by apply peek_spec|]. cbn beta.
    intros b s1 (Hs1 & ch & Hch & Hb & _). destruct b; [|done]. mred.
    apply safe_obind. eapply returns_safe, returns_mono; [eapply token_after_peek; eauto|]. cbn beta.
    intros r s2 [Ht Hlt]. pose proof (ta_range _ _ _ Ht). apply safe_obind. eapply safe_mono; [apply IHl; lia|].
    intros c s3 [Hc Hs3]. apply safe_obind. eapply returns_safe, returns_mono; [apply peek_spec; lia|]. cbn beta.
    intros b s4 (Hs4 & ch2 & Hch2 & Hb2 & _). destruct b; [|done]. mred.
    apply safe_obind. eapply returns_safe, returns_mono; [eapply token_after_peek; eauto|]. cbn beta.
    intros r2 s5 [Ht2 Hlt2]. pose proof (ta_range _ _ _ Ht2). destruct Hc as [Hc Hfit].
    eapply safe_mono; [apply (parseredirs_safe _ _ argv_fit); [lia|done..]|]. cbn beta.
    intros c' s6 (Hc' & Hw' & Hs6). split; [done|lia].
Qed.
End parser.

(** ** The strings of a parsed command *)

Lemma strlen_spec s : 0 ∈ s ->
  exists n, Ulib.strlen s = Some (Z.of_nat n) /\ s !! n = Some 0 /\ forall i, (i < n)%nat -> exists c, s !! i = Some c /\ c <> 0.
Proof.
  induction s as [|c s IH]; [by intros ?%elem_of_nil|]. rewrite elem_of_cons. intros Hs. simpl.
  destruct (Z.eqb_spec c 0) as [->|Hc].
  - exists O. split_and!; [done..|]. intros i Hi. lia.
  - destruct IH as (n & -> & Hn & Hi); [naive_solver|]. exists (S n). simpl. split_and!; [f_equal; lia|done|].
    intros [|i] Hlt; [by exists c|]. apply Hi. lia.
Qed.

(** [b'] is [b] with NULs at the positions [l]. *)
Definition blanked (b : list Z) (l : list nat) (b' : list Z) : Prop :=
  length b' = length b /\ forall i, b' !! i = if decide (i ∈ l) then Some 0 else b !! i.

Lemma blanked_app b l1 b1 l2 b2 : blanked b l1 b1 -> blanked b1 l2 b2 -> blanked b (l1 ++ l2) b2.
Proof.
  intros [H1 H2] [H3 H4]. split; [congruence|]. intros i. rewrite H4, H2.
  repeat case_decide; rewrite elem_of_app in *; tauto.
Qed.

Lemma put_nul_spec b i : (i < length b)%nat -> returns (put_nul i b) (fun _ b' => blanked b [i] b').
Proof.
  intros Hi. unfold put_nul. mred. rewrite (proj2 (Nat.ltb_lt _ _)) by done. simpl. split; [apply length_insert|].
  intros j. case_decide as Hj; rewrite list_elem_of_singleton in Hj.
  - subst j. by apply list_lookup_insert_eq.
  - by apply list_lookup_insert_ne.
Qed.

Lemma blanked_seq (m1 m2 : M (list Z) unit) l1 l2 b :
  (forall e, e ∈ l1 ++ l2 -> (e < length b)%nat) ->
  (forall b, (forall e, e ∈ l1 -> (e < length b)%nat) -> returns (m1 b) (fun _ b' => blanked b l1 b')) ->
  (forall b, (forall e, e ∈ l2 -> (e < length b)%nat) -> returns (m2 b) (fun _ b' => blanked b l2 b')) ->
  returns ((m1;; m2) b) (fun _ b' => blanked b (l1 ++ l2) b').
Proof.
  intros Hb H1 H2. mred. setoid_rewrite elem_of_app in Hb. eapply returns_obind, returns_mono; [apply H1; auto|].
  cbn beta. intros _ b1 Hb1. eapply returns_mono; [apply H2|].
  - intros e He. rewrite (proj1 Hb1). auto.
  - cbn beta. intros _ b2 Hb2. by eapply blanked_app.
Qed.

Lemma nulterminate_spec c b :
  (forall e, e ∈ (words c).*2 -> (e < length b)%nat) -> returns (nulterminate c b) (fun _ b' => blanked b (words c).*2 b').
Proof.
  assert (Hput : forall i b, (forall e, e ∈ [i] -> (e < length b)%nat) -> returns (put_nul i b) (fun _ b' => blanked b [i] b'))
    by (intros i b1 Hi; apply put_nul_spec, Hi; by left).
  revert b. induction c as [argv|c IH q e m fd|l IHl r IHr|l IHl r IHr|c IH]; intros b Hb; cbn [nulterminate words] in *; [|..|by apply IH].
  - revert b Hb. induction (argv.*2) as [|e l IH]; intros b Hb.
    { split; [done|]. intros i. rewrite decide_False; [done|apply not_elem_of_nil]. }
    apply (blanked_seq (put_nul e) (foreach l put_nul) [e] l); auto.
  - rewrite fmap_app in *. apply (blanked_seq _ _ _ [e]); auto.
  - rewrite fmap_app in *. apply blanked_seq; auto.
  - rewrite fmap_app in *. apply blanked_seq; auto.
Qed.

(** The string that [w] denotes once the ends of all words are NULs. *)
Lemma blanked_string buf es ws b' w :
  (es < length buf)%nat -> Forall (is_word buf es) ws -> blanked buf ws.*2 b' -> w ∈ ws ->
  until_nul (drop w.1 b') = slice buf w.1 (w.2 - w.1) /\ Forall (fun c => word_char c = true) (slice buf w.1 (w.2 - w.1)).
Proof.
  intros Hes Hws [Hlen Hb] Hw. rewrite Forall_forall in Hws. pose proof (Hws w Hw) as [Hr Hc He].
  assert (Hchar : forall i c, slice buf w.1 (w.2 - w.1) !! i = Some c -> word_char c = true /\ (i < w.2 - w.1)%nat /\ buf !! (w.1 + i)%nat = Some c).
  { intros i c. unfold slice. rewrite lookup_take_Some, lookup_drop. intros [Hi Hlt].
    destruct (Hc (w.1 + i)%nat) as (x & Hx & Hxc); [lia|]. rewrite Hi in Hx. injection Hx as <-. split_and!; [done|lia|done]. }
  assert (Hkeep : forall i, (w.1 <= i < w.2)%nat -> b' !! i = buf !! i).
  { intros i Hi. rewrite Hb. case_decide as Hin; [|done]. apply list_elem_of_fmap in Hin as (v & -> & Hv).
    destruct (Hws v Hv) as [_ _ (x & Hx & Hxf)]. destruct (Hc v.2 Hi) as (y & Hy & Hyt). congruence. }
  split.
  - assert (E : drop w.1 b' = slice buf w.1 (w.2 - w.1) ++ 0 :: drop (S w.2) b').
    { rewrite <- (take_drop (w.2 - w.1) (drop w.1 b')), drop_drop. replace (w.1 + (w.2 - w.1))%nat with w.2 by lia. f_equal.
      - apply list_eq. intros i. unfold slice. destruct (decide (i < w.2 - w.1)%nat).
        + rewrite !lookup_take_lt, !lookup_drop by done. apply Hkeep. lia.
        + rewrite !lookup_take_ge by lia. done.
      - apply drop_S. rewrite Hb. rewrite decide_True; [done|]. apply list_elem_of_fmap. by exists w. }
    rewrite E. apply until_nul_app. intros [i Hi]%list_elem_of_lookup. destruct (Hchar _ _ Hi) as [H0 _]. done.
  - apply Forall_lookup. intros i c Hi. by destruct (Hchar _ _ Hi).
Qed.

(** C33. parsecmd() on any NUL-terminated line terminates, with a command
    or with the shell's panic(): it never reads or writes outside the line, no
    argument list overruns argv[MAXARGS], and every string of the command is,
    in the line as nulterminate() left it, exactly the word of the line it was
    parsed from. *)
Theorem parsecmd_strings buf :
  0 ∈ buf -> safe (parsecmd buf) (fun c buf' => argv_fit c /\
    forall q e, (q, e) ∈ words c -> (q < e)%nat /\ until_nul (drop q buf') = slice buf q (e - q) /\
      Forall (fun x => word_char x = true) (slice buf q (e - q))).
Proof.
  intros Hnul. unfold parsecmd. destruct (strlen_spec buf Hnul) as (es & -> & Hend & Hin). rewrite Nat2Z.id.
  destruct (parse_safe buf es Hend Hin (4 * es + 4)) as [Hline _].
  specialize (Hline O ltac:(lia) ltac:(lia)). mred. destruct (parseline buf es (4 * es + 4) 0%nat) as [c s| | | |]; try done.
  destruct Hline as [[Hw Hfit] Hs]. mred. pose proof (peek_spec buf es Hend Hin [0] s ltac:(lia)) as Hp.
  apply returns_inv in Hp as (b & s1 & -> & _). mred. destruct (s1 =? es)%nat; [|done]. mred.
  pose proof (lookup_lt_Some _ _ _ Hend) as Hlen.
  assert (Hb : forall e, e ∈ (words c).*2 -> (e < length buf)%nat).
  { intros e (w & -> & Hwin)%list_elem_of_fmap. rewrite Forall_forall in Hw. destruct (Hw w Hwin) as [Hr _ _]. lia. }
  pose proof (nulterminate_spec c buf Hb) as Hn. apply returns_inv in Hn as ([] & b' & -> & Hbl). simpl. split; [done|].
  intros q e Hqe. destruct (blanked_string buf es (words c) b' (q, e) Hlen Hw Hbl Hqe) as [H1 H2].
  rewrite Forall_forall in Hw. destruct (Hw _ Hqe) as [Hr _ _]. simpl in *. split_and!; [lia|done|done].
Qed.
