(* ===== verification/ShPrint.v ===== *)
(** * The shell parser: printed commands read back

    A command tree is printed as a sequence of tokens, each followed by a
    blank, with parentheses around the parts of pipelines, lists, background
    commands and redirections.  parsecmd() gives the tree back. *)

From S2P Require Import Ulib Grep Prelude State CString Sh ShParse.

(** ** Trees, tokens and lines *)

Inductive tree :=
| TExec (args : list (list Z))
| TRedir (t : tree) (file : list Z) (mode fd : Z)
| TPipe (l r : tree)
| TList (l r : tree)
| TBack (t : tree).

Inductive token :=
| KWord (w : list Z)
| KSym (c : Z)
| KAppend.

Definition chars (k : token) : list Z :=
  match k with KWord w => w | KSym c => [c] | KAppend => [GT; GT] end.

(** What gettoken returns for a token. *)
Definition code (k : token) : Z :=
  match k with KWord _ => WORD | KSym c => c | KAppend => PLUS end.

Definition redir_token (mode fd : Z) : token :=
  if fd =? 0 then KSym LT
  else if mode =? Z.lor (Z.lor O_WRONLY O_CREATE) O_TRUNC then KSym GT else KAppend.

Definition paren (ks : list token) : list token := KSym LPAR :: ks ++ [KSym RPAR].

Fixpoint show (t : tree) : list token :=
  match t with
  | TExec args => KWord <$> args
  | TRedir t file mode fd => paren (show t) ++ [redir_token mode fd; KWord file]
  | TPipe l r => paren (show l) ++ KSym BAR :: paren (show r)
  | TList l r => paren (show l) ++ KSym SEMI :: paren (show r)
  | TBack t => paren (show t) ++ [KSym AMP]
  end.

(** The characters of the tokens, each followed by a blank. *)
Fixpoint render (ks : list token) : list Z :=
  match ks with [] => [] | k :: ks => chars k ++ 32 :: render ks end.

Definition line (ks : list token) : list Z := render ks ++ [0].

(** The tree a command denotes in the terminated line. *)
Fixpoint view (b : list Z) (c : cmd) : tree :=
  match c with
  | ExecCmd argv => TExec ((fun w => string_at b w.1) <$> argv)
  | RedirCmd c q _ mode fd => TRedir (view b c) (string_at b q) mode fd
  | PipeCmd l r => TPipe (view b l) (view b r)
  | ListCmd l r => TList (view b l) (view b r)
  | BackCmd c => TBack (view b c)
  end.

(** Words the lexer keeps together, and the three kinds of redirection. *)
Definition good_word (w : list Z) : Prop := w <> [] /\ Forall (fun c => word_char c = true) w.

Definition good_redir (mode fd : Z) : Prop :=
  (mode = O_RDONLY /\ fd = 0) \/ (fd = 1 /\ (mode = Z.lor (Z.lor O_WRONLY O_CREATE) O_TRUNC \/ mode = Z.lor O_WRONLY O_CREATE)).

Fixpoint good (t : tree) : Prop :=
  match t with
  | TExec args => Forall good_word args /\ (length args < MAXARGS)%nat
  | TRedir t file mode fd => good t /\ good_word file /\ good_redir mode fd
  | TPipe l r | TList l r => good l /\ good r
  | TBack t => good t
  end.

Definition good_token (k : token) : Prop :=
  match k with
  | KWord w => good_word w
  | KSym c => c ∈ [BAR; LPAR; RPAR; SEMI; AMP; LT; GT]
  | KAppend => True
  end.

(** ** Lexing a printed line *)

(** Where the tokens [ks] end. *)
Definition pos (ks : list token) : nat := length (render ks).

Lemma render_app k1 k2 : render (k1 ++ k2) = render k1 ++ render k2.
Proof. induction k1 as [|k k1 IH]; simpl; [done|]. by rewrite IH, <- app_assoc. Qed.

Lemma pos_app k1 k2 : pos (k1 ++ k2) = (pos k1 + pos k2)%nat.
Proof. unfold pos. by rewrite render_app, length_app. Qed.

Lemma pos_cons k ks : pos (k :: ks) = (length (chars k) + 1 + pos ks)%nat.
Proof. unfold pos. simpl. rewrite length_app. simpl. lia. Qed.

Lemma token_head k : good_token k -> exists c r, chars k = c :: r /\ c <> 0 /\ in_set whitespace c = false.
Proof.
  destruct k as [w|c|]; simpl.
  - intros [Hne Hw]. destruct w as [|c w]; [done|]. exists c, w. split; [done|]. inversion Hw as [|? ? Hc _]; subst.
    unfold word_char in Hc. apply andb_true_iff in Hc as [[H1 H2]%andb_true_iff _].
    split; [by apply Z.eqb_neq, negb_true_iff|by apply negb_true_iff].
  - intros H. exists c, []. split; [done|]. rewrite !elem_of_cons, elem_of_nil in H.
    repeat (destruct H as [->|H]; [done|]). done.
  - intros _. by exists GT, [GT].
Qed.

Lemma render_nonzero ks : Forall good_token ks -> Forall (fun c => c <> 0) (render ks).
Proof.
  induction 1 as [|k ks Hk Hks IH]; simpl; [done|]. apply Forall_app. split; [|by constructor].
  destruct k as [w|c|]; simpl in *.
  - destruct Hk as [_ Hw]. eapply Forall_impl; [exact Hw|]. intros c Hc ->. done.
  - constructor; [|done]. rewrite !elem_of_cons, elem_of_nil in Hk. intros ->. by repeat (destruct Hk as [Hk|Hk]; [done|]).
  - by repeat constructor.
Qed.

(** A scan whose result is known. *)
Lemma scan_eq buf es p s e x :
  (s <= e <= es)%nat -> (forall i, (s <= i < e)%nat -> exists c, buf !! i = Some c /\ p c = true) ->
  e = es \/ (exists c, buf !! e = Some c /\ p c = false) -> scan buf es p s x = Ret e x.
Proof.
  intros He Hi Hend. unfold scan. remember (es - s)%nat as n eqn:En. revert s He Hi En.
  induction n as [|n IH]; intros s He Hi En; cbn [loop]; mred.
  - rewrite (proj2 (Nat.ltb_ge s es)) by lia. mred. f_equal. lia.
  - destruct (decide (s = e)) as [->|].
    + rewrite (proj2 (Nat.ltb_lt e es)) by lia. destruct Hend as [->|(c & Hc & Hp)]; [lia|]. mred. rewrite Hc. mred. by rewrite Hp.
    + rewrite (proj2 (Nat.ltb_lt s es)) by lia. destruct (Hi s) as (c & Hc & Hp); [lia|]. mred. rewrite Hc. mred. rewrite Hp.
      apply IH; [lia| |lia]. intros i Hie. apply Hi. lia.
Qed.

Lemma line_lookup pre rest i : line (pre ++ rest) !! (pos pre + i)%nat = line rest !! i.
Proof.
  unfold line, pos. rewrite render_app, <- app_assoc, lookup_app_r by lia. f_equal. lia.
Qed.

Lemma line_at pre rest : line (pre ++ rest) !! pos pre = line rest !! O.
Proof. rewrite <- (line_lookup pre rest 0). f_equal. lia. Qed.

Lemma line_head k rest : good_token k ->
  exists c r, chars k = c :: r /\ line (k :: rest) !! O = Some c /\ c <> 0 /\ in_set whitespace c = false.
Proof.
  intros Hk. destruct (token_head k Hk) as (c & r & E & H0 & Hw). exists c, r. split_and!; [done| |done|done].
  unfold line. simpl. by rewrite E.
Qed.

Lemma line_chars k rest i : (i < length (chars k))%nat -> line (k :: rest) !! i = chars k !! i.
Proof. intros Hi. unfold line. simpl. rewrite <- app_assoc. by rewrite lookup_app_l. Qed.

Lemma line_blank k rest : line (k :: rest) !! length (chars k) = Some 32.
Proof. unfold line. simpl. rewrite <- app_assoc, lookup_app_r, Nat.sub_diag by lia. done. Qed.

Lemma slice_line pre k rest : slice (line (pre ++ k :: rest)) (pos pre) (length (chars k)) = chars k.
Proof.
  unfold slice, line, pos. rewrite render_app. simpl. rewrite <- !app_assoc, drop_app_length, take_app_length. done.
Qed.

(** The blank after a token is skipped, and nothing else. *)
Lemma scan_blank pre k rest x :
  Forall good_token (k :: rest) ->
  scan (line (pre ++ k :: rest)) (pos (pre ++ k :: rest)) (in_set whitespace) (pos pre + length (chars k)) x =
    Ret (pos (pre ++ [k])) x.
Proof.
  intros Hg. apply Forall_cons in Hg as [Hk Hr]. apply scan_eq; rewrite !pos_app, !pos_cons; change (pos []) with O.
  - lia.
  - intros i Hi. assert (i = pos pre + length (chars k))%nat as -> by lia. exists 32. split; [|done].
    rewrite line_lookup. apply line_blank.
  - destruct rest as [|k2 rest]; [left; change (pos []) with O; lia|]. right. inversion Hr as [|? ? Hk2 _]; subst.
    destruct (line_head k2 rest Hk2) as (c & r & _ & Hc & _ & Hw). exists c. split; [|done].
    change (pre ++ k :: k2 :: rest) with (pre ++ [k] ++ k2 :: rest). rewrite app_assoc.
    replace (pos pre + (length (chars k) + 1 + 0))%nat with (pos (pre ++ [k])) by (rewrite pos_app, pos_cons; change (pos []) with O; lia).
    by rewrite line_at.
Qed.

(** At the start of a token no blanks are skipped. *)
Lemma scan_none pre rest x :
  Forall good_token rest ->
  scan (line (pre ++ rest)) (pos (pre ++ rest)) (in_set whitespace) (pos pre) x = Ret (pos pre) x.
Proof.
  intros Hg. apply scan_eq; rewrite ?pos_app; [lia|intros; lia|]. destruct rest as [|k rest]; [left; change (pos []) with O; lia|].
  right. inversion Hg as [|? ? Hk _]; subst. destruct (line_head k rest Hk) as (c & r & _ & Hc & _ & Hw). exists c.
  by rewrite line_at.
Qed.

Definition head_in (toks : list Z) (rest : list token) : bool :=
  match rest with [] => false | k :: _ => in_set toks (hd 0 (chars k)) end.

Lemma peek_line toks all pre rest :
  all = pre ++ rest -> Forall good_token rest ->
  peek (line all) (pos all) toks (pos pre) = Ret (head_in toks rest) (pos pre).
Proof.
  intros -> Hg. unfold peek. mred. rewrite scan_none by done. mred. rewrite line_at.
  destruct rest as [|k rest]; [done|]. inversion Hg as [|? ? Hk _]; subst.
  destruct (line_head k rest Hk) as (c & r & E & -> & H0 & _). simpl. rewrite E. by rewrite (proj2 (Z.eqb_neq c 0)).
Qed.

Lemma gettoken_end pre :
  gettoken (line pre) (pos pre) (pos pre) = Ret (0, (pos pre, pos pre)) (pos pre).
Proof.
  unfold gettoken. mred. pose proof (scan_none pre [] (pos pre) (Forall_nil_2 _)) as Hs. rewrite app_nil_r in Hs. rewrite Hs. mred.
  pose proof (line_at pre []) as Hl. rewrite app_nil_r in Hl. rewrite Hl. simpl. by rewrite Hs.
Qed.

Lemma symbol_cases c : good_token (KSym c) ->
  (c =? BAR) || (c =? LPAR) || (c =? RPAR) || (c =? SEMI) || (c =? AMP) || (c =? LT) = true \/
  ((c =? BAR) || (c =? LPAR) || (c =? RPAR) || (c =? SEMI) || (c =? AMP) || (c =? LT) = false /\ c = GT).
Proof.
  simpl. rewrite !elem_of_cons, elem_of_nil. intros H. repeat (destruct H as [->|H]; [by (left + right)|]). done.
Qed.

Lemma gettoken_line all pre k rest :
  all = pre ++ k :: rest -> Forall good_token (k :: rest) ->
  gettoken (line all) (pos all) (pos pre) =
    Ret (code k, (pos pre, pos pre + length (chars k))%nat) (pos (pre ++ [k])).
Proof.
  intros -> Hg. unfold gettoken. mred. rewrite scan_none by done. mred. pose proof (scan_blank pre k rest (pos pre) Hg) as Hb.
  rewrite line_at. apply Forall_cons in Hg as [Hk Hr]. destruct k as [w|c|].
  - destruct (line_head _ rest Hk) as (c & r & E & -> & H0 & Hw). mred.
    destruct Hk as [Hne Hall]. simpl in E. subst w. inversion Hall as [|? ? Hc Hcr]; subst.
    unfold word_char in Hc. apply andb_true_iff in Hc as [_ Hsy]. apply negb_true_iff in Hsy.
    rewrite (proj2 (Z.eqb_neq c 0)) by done.
    assert (Hns : (c =? BAR) || (c =? LPAR) || (c =? RPAR) || (c =? SEMI) || (c =? AMP) || (c =? LT) = false /\ (c =? GT) = false).
    { unfold in_set, symbols in Hsy. cbn [strchr] in Hsy. unfold BAR, LPAR, RPAR, SEMI, AMP, LT, GT. rewrite !(Z.eqb_sym c).
      repeat (match type of Hsy with context [?a =? c] => destruct (a =? c); try done end). }
    destruct Hns as [-> ->]. mred. rewrite (scan_eq _ _ _ _ (pos pre + length (c :: r))).
    + mred. cbn [chars] in Hb. rewrite Hb. done.
    + rewrite pos_app, pos_cons. simpl. lia.
    + intros i Hi. destruct (lookup_lt_is_Some_2 (c :: r) (i - pos pre)) as [d Hd]; [simpl in *; lia|]. exists d.
      replace i with (pos pre + (i - pos pre))%nat at 1 by lia. rewrite line_lookup, line_chars by (simpl in *; lia). split; [done|].
      rewrite Forall_lookup in Hall. specialize (Hall _ _ Hd). unfold word_char in Hall. by destruct (d =? 0).
    + right. exists 32. split; [|done]. rewrite line_lookup. apply (line_blank (KWord (c :: r))).
  - destruct (line_head _ rest Hk) as (c' & r & E & -> & H0 & Hw). simpl in E. injection E as <- <-. mred.
    cbn [chars length] in Hb. replace (S (pos pre)) with (pos pre + 1)%nat by lia.
    rewrite (proj2 (Z.eqb_neq c 0)) by done. destruct (symbol_cases c Hk) as [->|[-> ->]].
    + mred. by rewrite Hb.
    + change (GT =? GT) with true. mred. rewrite line_lookup, (line_blank (KSym GT) rest : _ !! 1%nat = _). mred.
      change (32 =? GT) with false. mred. by rewrite Hb.
  - rewrite (line_chars KAppend) by (simpl; lia). cbn [chars lookup list_lookup]. mred. change (GT =? 0) with false.
    change ((GT =? BAR) || (GT =? LPAR) || (GT =? RPAR) || (GT =? SEMI) || (GT =? AMP) || (GT =? LT)) with false.
    change (GT =? GT) with true. mred. replace (S (pos pre)) with (pos pre + 1)%nat by lia.
    rewrite line_lookup, (line_chars KAppend) by (simpl; lia). cbn [chars lookup list_lookup]. mred.
    change (GT =? GT) with true. mred. cbn [chars length] in Hb. replace (S (pos pre + 1)) with (pos pre + 2)%nat by lia.
    by rewrite Hb.
Qed.

(** ** Parsing a printed line *)

(** The tree a command denotes in the line as typed. *)
Fixpoint sview (b : list Z) (c : cmd) : tree :=
  match c with
  | ExecCmd argv => TExec ((fun w => slice b w.1 (w.2 - w.1)) <$> argv)
  | RedirCmd c q e mode fd => TRedir (sview b c) (slice b q (e - q)) mode fd
  | PipeCmd l r => TPipe (sview b l) (sview b r)
  | ListCmd l r => TList (sview b l) (sview b r)
  | BackCmd c => TBack (sview b c)
  end.

(** What may follow a command: the end of the line, or a parenthesis. *)
Definition closing (rest : list token) : Prop := rest = [] \/ exists r, rest = KSym RPAR :: r.

Lemma closing_head toks rest : closing rest -> in_set toks RPAR = false -> head_in toks rest = false.
Proof. intros [->|[r ->]]; simpl; auto. Qed.

Lemma word_not_symbol toks w rest :
  good_word w -> (forall c, in_set toks c = true -> in_set symbols c = true) -> head_in toks (KWord w :: rest) = false.
Proof.
  intros [Hne Hw] Ht. destruct w as [|c w]; [done|]. simpl. inversion Hw as [|? ? Hc _]; subst.
  destruct (in_set toks c) eqn:E; [|done]. unfold word_char in Hc. rewrite (Ht c E) in Hc. by destruct (c =? 0), (in_set whitespace c).
Qed.

Lemma in_set_elem toks c : in_set toks c = true -> c ∈ toks.
Proof.
  unfold in_set. induction toks as [|x toks IH]; simpl; [done|]. destruct (x =? 0); [done|].
  destruct (Z.eqb_spec x c) as [->|]; [by left|]. intros H. right. apply IH. by destruct (strchr toks c) as [[?|]|].
Qed.

Lemma redirs_are_symbols c : in_set [LT; GT; 0] c = true -> in_set symbols c = true.
Proof.
  intros H. pose proof (in_set_elem _ _ H) as Hc. rewrite !elem_of_cons, elem_of_nil in Hc.
  by repeat (destruct Hc as [->|Hc]; [done|]).
Qed.

Lemma stops_are_symbols c : in_set [BAR; RPAR; AMP; SEMI; 0] c = true -> in_set symbols c = true.
Proof.
  intros H. pose proof (in_set_elem _ _ H) as Hc. rewrite !elem_of_cons, elem_of_nil in Hc.
  by repeat (destruct Hc as [->|Hc]; [done|]).
Qed.

Lemma good_sym c : in_set symbols c = true -> good_token (KSym c).
Proof.
  intros H. pose proof (in_set_elem _ _ H) as Hc. unfold symbols in Hc. simpl. rewrite !elem_of_cons, elem_of_nil in *.
  unfold LT, GT, BAR, AMP, SEMI, LPAR, RPAR. destruct (decide (c = 0)) as [->|]; [done|]. tauto.
Qed.

Lemma parseredirs_none all pre rest c :
  all = pre ++ rest -> Forall good_token rest -> head_in [LT; GT; 0] rest = false ->
  parseredirs (line all) (pos all) c (pos pre) = Ret c (pos pre).
Proof. intros E Hg Hh. unfold parseredirs. cbn [loop]. mred. rewrite (peek_line _ all pre rest) by done. mred. by rewrite Hh. Qed.

(** One redirection, the body of the loop. *)
Lemma parseredirs_one all pre mode fd w rest c :
  all = pre ++ redir_token mode fd :: KWord w :: rest ->
  Forall good_token rest -> good_word w -> good_redir mode fd -> head_in [LT; GT; 0] rest = false ->
  exists q e, parseredirs (line all) (pos all) c (pos pre) =
    Ret (RedirCmd c q e mode fd) (pos (pre ++ [redir_token mode fd; KWord w])) /\ slice (line all) q (e - q) = w.
Proof.
  intros E Hg Hw Hr Hh. remember (redir_token mode fd) as k eqn:Ek.
  assert (Hk : good_token k /\ head_in [LT; GT; 0] (k :: KWord w :: rest) = true).
  { rewrite Ek. unfold redir_token. destruct Hr as [[-> ->]|[-> [->| ->]]];
      (split; [first [exact I|apply (good_sym LT); reflexivity|apply (good_sym GT); reflexivity]|vm_compute; reflexivity]). }
  assert (Hcode : (code k = LT /\ mode = O_RDONLY /\ fd = 0) \/
    (code k = GT /\ mode = Z.lor (Z.lor O_WRONLY O_CREATE) O_TRUNC /\ fd = 1) \/
    (code k = PLUS /\ mode = Z.lor O_WRONLY O_CREATE /\ fd = 1)).
  { rewrite Ek. unfold redir_token. destruct Hr as [[-> ->]|[-> [->| ->]]]; [left|right; left|right; right]; done. }
  clear Hr. rename Hcode into Hr.
  assert (Hgk : Forall good_token (k :: KWord w :: rest)) by (constructor; [tauto|constructor; done]).
  assert (E1 : all = (pre ++ [k]) ++ KWord w :: rest) by (rewrite E; by rewrite <- app_assoc).
  assert (E2 : all = (pre ++ [k; KWord w]) ++ rest) by (rewrite E; by rewrite <- app_assoc).
  exists (pos (pre ++ [k])), (pos (pre ++ [k]) + length w)%nat. split.
  - unfold parseredirs. set (body := fun c : cmd => _).
    assert (Hbody : body c (pos pre) = Ret (inl (RedirCmd c (pos (pre ++ [k])) (pos (pre ++ [k]) + length w) mode fd)) (pos (pre ++ [k; KWord w]))).
    { unfold body. mred. rewrite (peek_line _ all _ _ E Hgk). rewrite (proj2 Hk). mred. rewrite (gettoken_line all _ _ _ E Hgk). mred.
      rewrite (gettoken_line all _ _ _ E1) by (by inversion Hgk). mred. cbn [chars]. change (code (KWord w) =? WORD) with true. mred.
      rewrite <- app_assoc. cbn [app]. destruct Hr as [(-> & -> & ->)|[(-> & -> & ->)|(-> & -> & ->)]]; reflexivity. }
    assert (exists m, S (pos all) = S (S m)) as [m ->] by (exists (pos all - 1)%nat; rewrite E, pos_app, pos_cons; lia).
    assert (Hstop : forall c', body c' (pos (pre ++ [k; KWord w])) = Ret (inr c') (pos (pre ++ [k; KWord w]))).
    { intros c'. unfold body. mred. rewrite (peek_line _ all _ _ E2 Hg). mred. by rewrite Hh. }
    cbn [loop]. mred. rewrite Hbody. mred. by rewrite Hstop.
  - replace (pos (pre ++ [k]) + length w - pos (pre ++ [k]))%nat with (length (chars (KWord w))) by (simpl; lia).
    rewrite E1. apply slice_line.
Qed.

Lemma args_stop all pre rest argv ret :
  all = pre ++ rest -> Forall good_token rest -> closing rest ->
  parseargs_step (line all) (pos all) (argv, ret) (pos pre) = Ret (inr (set_argv argv ret)) (pos pre).
Proof.
  intros E Hg Hcl. unfold parseargs_step. mred. rewrite (peek_line _ all pre rest) by done. mred.
  destruct Hcl as [->|[r ->]]; [|done]. cbn [head_in]. mred. rewrite app_nil_r in E. subst all. by rewrite gettoken_end.
Qed.

Lemma args_word all pre w rest argv ret :
  all = pre ++ KWord w :: rest -> Forall good_token (KWord w :: rest) -> head_in [LT; GT; 0] rest = false ->
  (length argv + 1 < MAXARGS)%nat ->
  parseargs_step (line all) (pos all) (argv, ret) (pos pre) =
    Ret (inl (argv ++ [(pos pre, pos pre + length w)%nat], ret)) (pos (pre ++ [KWord w])).
Proof.
  intros E Hg Hh Hlen. unfold parseargs_step. mred. rewrite (peek_line _ all pre (KWord w :: rest)) by done.
  assert (Hw : good_word w) by (by inversion Hg). rewrite (word_not_symbol _ _ _ Hw stops_are_symbols). mred.
  rewrite (gettoken_line all pre (KWord w) rest) by done. mred.
  change (code (KWord w) =? 0) with false. change (code (KWord w) =? WORD) with true. mred.
  rewrite (proj2 (Nat.leb_gt MAXARGS _)) by (rewrite length_app; simpl in *; lia). mred.
  rewrite (parseredirs_none all (pre ++ [KWord w]) rest); [done| |by inversion Hg|done]. by rewrite E, <- app_assoc.
Qed.

Lemma parseargs_line all ws : forall pre rest argv n,
  all = pre ++ (KWord <$> ws) ++ rest -> Forall good_token rest -> Forall good_word ws -> closing rest ->
  (length argv + length ws < MAXARGS)%nat -> (length ws < n)%nat ->
  exists ps, loop n (parseargs_step (line all) (pos all)) (argv, ExecCmd []) (pos pre) =
      Ret (ExecCmd (argv ++ ps)) (pos (pre ++ (KWord <$> ws))) /\
    (fun w => slice (line all) w.1 (w.2 - w.1)) <$> ps = ws.
Proof.
  induction ws as [|w ws IH]; intros pre rest argv [|n] E Hg Hw Hcl Hlen Hn; simpl in Hn; try lia; cbn [loop]; mred.
  - exists []. rewrite !app_nil_r. split; [|done]. cbn [fmap list_fmap app] in E. by rewrite (args_stop all pre rest).
  - apply Forall_cons in Hw as [Hw Hws]. cbn [fmap list_fmap app] in E. simpl in Hlen.
    assert (Hgw : Forall good_token ((KWord <$> ws) ++ rest)).
    { apply Forall_app. split; [|done]. apply Forall_fmap. exact Hws. }
    rewrite (args_word all pre w ((KWord <$> ws) ++ rest)); [|done|by constructor| |lia].
    2:{ destruct ws as [|w2 ws]; [|inversion Hws; subst; by apply word_not_symbol, redirs_are_symbols].
        simpl. by apply closing_head. }
    mred. assert (E' : all = (pre ++ [KWord w]) ++ (KWord <$> ws) ++ rest) by (by rewrite E, <- app_assoc).
    destruct (IH (pre ++ [KWord w]) rest (argv ++ [(pos pre, (pos pre + length w)%nat)]) n E' Hg Hws Hcl) as (ps & Hl & Hps).
    { rewrite length_app. simpl in *. lia. }
    { lia. }
    rewrite Hl. eexists. rewrite <- !app_assoc. split; [reflexivity|]. rewrite fmap_app, Hps. cbn -[slice length Nat.sub]. f_equal.
    replace (pos pre + length w - pos pre)%nat with (length (chars (KWord w))) by (simpl; lia). rewrite E. apply slice_line.
Qed.

Section unfolding.
  Context (buf : list Z) (es fuel : nat).

Lemma parsepipe_S : parsepipe buf es (S fuel) =
  (c ← parseexec buf es fuel;
   b ← peek buf es [BAR; 0];
   if (b : bool) then gettoken buf es;; r ← parsepipe buf es fuel; mret (PipeCmd c r) else mret c).
Proof. reflexivity. Qed.

Lemma parseexec_S : parseexec buf es (S fuel) =
  (b ← peek buf es [LPAR; 0];
   if (b : bool) then parseblock buf es fuel else ret ← parseredirs buf es (ExecCmd []); parseargs buf es ret).
Proof. reflexivity. Qed.

Lemma parseblock_S : parseblock buf es (S fuel) =
  (b ← peek buf es [LPAR; 0];
   if negb b then panic "parseblock" else
   gettoken buf es;;
   c ← parseline buf es fuel;
   b ← peek buf es [RPAR; 0];
   if negb b then panic "syntax - missing )" else gettoken buf es;; parseredirs buf es c).
Proof. reflexivity. Qed.

(** The loop over the ampersands. *)
Definition ampersand (c : cmd) : M nat (cmd + cmd) :=
  b ← peek buf es [AMP; 0]; if (b : bool) then gettoken buf es;; mret (inl (BackCmd c)) else mret (inr c).

Lemma parseline_S : parseline buf es (S fuel) =
  (c ← parsepipe buf es fuel;
   c ← loop (S es) ampersand c;
   b ← peek buf es [SEMI; 0];
   if (b : bool) then gettoken buf es;; r ← parseline buf es fuel; mret (ListCmd c r) else mret c).
Proof. reflexivity. Qed.
End unfolding.

(** [t], printed, is what parseline reads. *)
Definition parses (t : tree) : Prop := forall all pre rest fuel,
  all = pre ++ show t ++ rest -> Forall good_token all -> closing rest -> (4 * length (show t) + 4 <= fuel)%nat ->
  exists c, parseline (line all) (pos all) fuel (pos pre) = Ret c (pos (pre ++ show t)) /\ sview (line all) c = t.

(** A printed command in parentheses, up to where the redirections may
    follow. *)
Lemma block_line t all pre rest fuel :
  parses t -> all = pre ++ paren (show t) ++ rest -> Forall good_token all ->
  (4 * length (show t) + 6 <= fuel)%nat ->
  exists c, parseexec (line all) (pos all) fuel (pos pre) =
      parseredirs (line all) (pos all) c (pos (pre ++ paren (show t))) /\ sview (line all) c = t.
Proof.
  intros Ht E Hg Hf. destruct fuel as [|[|fuel]]; try lia. rewrite parseexec_S. mred.
  unfold paren in E. simpl in E. rewrite <- app_assoc in E. simpl in E.
  assert (E1 : all = (pre ++ [KSym LPAR]) ++ show t ++ KSym RPAR :: rest) by (by rewrite E, <- app_assoc).
  assert (E2 : all = ((pre ++ [KSym LPAR]) ++ show t) ++ KSym RPAR :: rest) by (by rewrite E1, !app_assoc).
  assert (Hg1 : Forall good_token (KSym LPAR :: show t ++ KSym RPAR :: rest)) by (rewrite E, Forall_app in Hg; tauto).
  assert (Hg2 : Forall good_token (KSym RPAR :: rest)) by (rewrite E2, Forall_app in Hg; tauto).
  rewrite (peek_line _ all pre _ E Hg1). mred. change (head_in [LPAR; 0] _) with true. rewrite parseblock_S. mred.
  rewrite (peek_line _ all pre _ E Hg1). mred. change (head_in [LPAR; 0] _) with true. mred.
  rewrite (gettoken_line all pre _ _ E Hg1). mred.
  destruct (Ht all (pre ++ [KSym LPAR]) (KSym RPAR :: rest) fuel E1 Hg) as (c & Hc & Hv); [right; eauto|lia|].
  rewrite Hc. mred. rewrite (peek_line _ all _ _ E2 Hg2). change (head_in [RPAR; 0] _) with true. mred.
  rewrite (gettoken_line all _ _ _ E2 Hg2). mred. exists c. split; [|done].
  by replace (((pre ++ [KSym LPAR]) ++ show t) ++ [KSym RPAR]) with (pre ++ paren (show t)) by (rewrite <- !app_assoc; done).
Qed.

Lemma length_paren ks : length (paren ks) = (length ks + 2)%nat.
Proof. unfold paren. simpl. rewrite length_app. simpl. lia. Qed.

(** A command in parentheses where no redirection follows. *)
Lemma paren_exec t all pre rest fuel :
  parses t -> all = pre ++ paren (show t) ++ rest -> Forall good_token all -> head_in [LT; GT; 0] rest = false ->
  (4 * length (show t) + 6 <= fuel)%nat ->
  exists c, parseexec (line all) (pos all) fuel (pos pre) = Ret c (pos (pre ++ paren (show t))) /\ sview (line all) c = t.
Proof.
  intros Ht E Hg Hh Hf. destruct (block_line t all pre rest fuel Ht E Hg Hf) as (c & -> & Hv). exists c. split; [|done].
  apply (parseredirs_none all _ rest); [by rewrite E, <- app_assoc| |done].
  rewrite E in Hg. apply Forall_app in Hg as [_ Hg]. by apply Forall_app in Hg as [_ Hg].
Qed.

Lemma ampersand_stop all pre rest c :
  all = pre ++ rest -> Forall good_token rest -> head_in [AMP; 0] rest = false ->
  ampersand (line all) (pos all) c (pos pre) = Ret (inr c) (pos pre).
Proof. intros E Hg Hh. unfold ampersand. mred. rewrite (peek_line _ all pre rest) by done. by rewrite Hh. Qed.

Lemma ampersand_go all pre rest c :
  all = pre ++ KSym AMP :: rest -> Forall good_token (KSym AMP :: rest) ->
  ampersand (line all) (pos all) c (pos pre) = Ret (inl (BackCmd c)) (pos (pre ++ [KSym AMP])).
Proof.
  intros E Hg. unfold ampersand. mred. rewrite (peek_line _ all pre _ E Hg).
  change (head_in _ _) with true. mred. by rewrite (gettoken_line all pre _ _ E Hg).
Qed.

(** parseline on what parsepipe reads up to the end of the command. *)
Lemma pipe_line all pre ks rest fuel c :
  all = pre ++ ks ++ rest -> Forall good_token all -> closing rest ->
  parsepipe (line all) (pos all) fuel (pos pre) = Ret c (pos (pre ++ ks)) ->
  parseline (line all) (pos all) (S fuel) (pos pre) = Ret c (pos (pre ++ ks)).
Proof.
  intros E Hg Hcl Hp. assert (E' : all = (pre ++ ks) ++ rest) by (by rewrite E, app_assoc).
  assert (Hr : Forall good_token rest) by (rewrite E', Forall_app in Hg; tauto).
  rewrite parseline_S. mred. rewrite Hp. cbn [loop]. mred.
  rewrite (ampersand_stop all _ rest) by (done || by apply closing_head). mred.
  rewrite (peek_line _ all _ rest) by done. by rewrite closing_head.
Qed.

(** parsepipe on what parseexec reads, if no bar follows. *)
Lemma exec_pipe all pre ks rest fuel c :
  all = pre ++ ks ++ rest -> Forall good_token all -> head_in [BAR; 0] rest = false ->
  parseexec (line all) (pos all) fuel (pos pre) = Ret c (pos (pre ++ ks)) ->
  parsepipe (line all) (pos all) (S fuel) (pos pre) = Ret c (pos (pre ++ ks)).
Proof.
  intros E Hg Hh Hp. assert (E' : all = (pre ++ ks) ++ rest) by (by rewrite E, app_assoc).
  assert (Hr : Forall good_token rest) by (rewrite E', Forall_app in Hg; tauto).
  rewrite parsepipe_S. mred. rewrite Hp. mred. rewrite (peek_line _ all _ rest) by done. by rewrite Hh.
Qed.

Lemma parses_exec args : good (TExec args) -> parses (TExec args).
Proof.
  intros [Hw Hlen] all pre rest fuel E Hg Hcl Hf. cbn [show] in *. destruct fuel as [|[|[|fuel]]]; try lia.
  assert (Hr : Forall good_token ((KWord <$> args) ++ rest)) by (rewrite E, Forall_app in Hg; tauto).
  assert (Hhead : forall toks, (forall c, in_set toks c = true -> in_set symbols c = true) -> in_set toks RPAR = false ->
    head_in toks ((KWord <$> args) ++ rest) = false).
  { intros toks H1 H2. destruct args as [|w args]; [by apply closing_head|]. inversion Hw; subst. by apply word_not_symbol. }
  destruct (parseargs_line all args pre rest [] (S (pos all))) as (ps & Hl & Hps); try done.
  { rewrite Forall_app in Hr. tauto. }
  { assert (length args <= pos (KWord <$> args))%nat; [|rewrite E, !pos_app; lia].
    clear. induction args as [|w args IH]; [done|]. rewrite fmap_cons, pos_cons. simpl. lia. }
  exists (ExecCmd ps). split; [|simpl; by rewrite Hps].
  eapply pipe_line; [done..|]. eapply exec_pipe; [done|done|by apply closing_head|].
  rewrite parseexec_S. mred. rewrite (peek_line _ all pre _ E Hr). rewrite Hhead; [|intros c Hc|done].
  2:{ pose proof (in_set_elem _ _ Hc) as Hi. rewrite !elem_of_cons, elem_of_nil in Hi. by destruct Hi as [->|[->|[]]]. }
  mred. rewrite (parseredirs_none all pre _ _ E Hr) by (apply Hhead; [apply redirs_are_symbols|done]). mred.
  unfold parseargs. exact Hl.
Qed.

Lemma parses_redir t file mode fd :
  parses t -> good_word file -> good_redir mode fd -> parses (TRedir t file mode fd).
Proof.
  intros Ht Hw Hr all pre rest fuel E Hg Hcl Hf. cbn [show] in *. rewrite length_app, length_paren in Hf. simpl in Hf.
  destruct fuel as [|[|fuel]]; try lia. rewrite <- app_assoc in E. cbn [app] in E.
  destruct (block_line t all pre _ fuel Ht E Hg ltac:(lia)) as (c & Hc & Hv).
  assert (E' : all = (pre ++ paren (show t)) ++ redir_token mode fd :: KWord file :: rest) by (by rewrite E, <- app_assoc).
  destruct (parseredirs_one all _ mode fd file rest c E') as (q & e & Hp & Hs); [|done|done|by apply closing_head|].
  { rewrite E' in Hg. apply Forall_app in Hg as [_ Hg]. by inversion Hg as [|? ? _ Hg2]; inversion Hg2. }
  exists (RedirCmd c q e mode fd). split; [|simpl; by rewrite Hv, Hs].
  eapply pipe_line; [by rewrite E, <- app_assoc|done..|]. eapply exec_pipe; [by rewrite E, <- app_assoc|done|by apply closing_head|].
  rewrite Hc, Hp. by rewrite <- app_assoc.
Qed.

Lemma parses_pipe l r : parses l -> parses r -> parses (TPipe l r).
Proof.
  intros Hl Hr all pre rest fuel E Hg Hcl Hf. cbn [show] in *. rewrite length_app, length_cons, !length_paren in Hf.
  destruct fuel as [|[|[|fuel]]]; try lia. rewrite <- app_assoc in E. cbn [app] in E.
  destruct (paren_exec l all pre _ (S fuel) Hl E Hg eq_refl) as (c & Hc & Hv); [lia|].
  set (pre1 := (pre ++ paren (show l)) ++ [KSym BAR]).
  assert (E1 : all = (pre ++ paren (show l)) ++ KSym BAR :: paren (show r) ++ rest) by (by rewrite E, <- app_assoc).
  assert (E2 : all = pre1 ++ paren (show r) ++ rest) by (unfold pre1; by rewrite E, <- !app_assoc).
  destruct (paren_exec r all pre1 rest fuel Hr E2 Hg) as (d & Hd & Hw); [by apply closing_head|lia|].
  pose proof (exec_pipe _ _ _ _ _ _ E2 Hg (closing_head [BAR; 0] _ Hcl eq_refl) Hd) as Hd'.
  exists (PipeCmd c d). split; [|simpl; by rewrite Hv, Hw].
  assert (Epos : pre ++ paren (show l) ++ KSym BAR :: paren (show r) = pre1 ++ paren (show r)) by (unfold pre1; by rewrite <- !app_assoc).
  eapply pipe_line; [by rewrite E, <- app_assoc|done..|].
  rewrite parsepipe_S. mred. rewrite Hc. mred.
  assert (Hg1 : Forall good_token (KSym BAR :: paren (show r) ++ rest)) by (rewrite E1, Forall_app in Hg; tauto).
  rewrite (peek_line _ all _ _ E1 Hg1). change (head_in [BAR; 0] _) with true. mred.
  rewrite (gettoken_line all _ _ _ E1 Hg1). mred. fold pre1. rewrite Hd'. mred. by rewrite Epos.
Qed.

Lemma parses_list l r : parses l -> parses r -> parses (TList l r).
Proof.
  intros Hl Hr all pre rest fuel E Hg Hcl Hf. cbn [show] in *. rewrite length_app, length_cons, !length_paren in Hf.
  destruct fuel as [|[|[|[|fuel]]]]; try lia. rewrite <- app_assoc in E. cbn [app] in E.
  destruct (paren_exec l all pre _ (S (S fuel)) Hl E Hg eq_refl) as (c & Hc & Hv); [lia|].
  pose proof (exec_pipe _ _ _ _ _ _ E Hg eq_refl Hc) as Hc'.
  set (pre1 := (pre ++ paren (show l)) ++ [KSym SEMI]).
  assert (E1 : all = (pre ++ paren (show l)) ++ KSym SEMI :: paren (show r) ++ rest) by (by rewrite E, <- app_assoc).
  assert (E2 : all = pre1 ++ paren (show r) ++ rest) by (unfold pre1; by rewrite E, <- !app_assoc).
  destruct (paren_exec r all pre1 rest (S fuel) Hr E2 Hg) as (d & Hd & Hw); [by apply closing_head|lia|].
  pose proof (exec_pipe _ _ _ _ _ _ E2 Hg (closing_head [BAR; 0] _ Hcl eq_refl) Hd) as Hd'.
  pose proof (pipe_line _ _ _ _ _ _ E2 Hg Hcl Hd') as Hd2.
  exists (ListCmd c d). split; [|simpl; by rewrite Hv, Hw].
  assert (Epos : pre ++ paren (show l) ++ KSym SEMI :: paren (show r) = pre1 ++ paren (show r)) by (unfold pre1; by rewrite <- !app_assoc).
  assert (Hg1 : Forall good_token (KSym SEMI :: paren (show r) ++ rest)) by (rewrite E1, Forall_app in Hg; tauto).
  rewrite parseline_S. mred. rewrite Hc'. cbn [loop]. mred. rewrite (ampersand_stop all _ _ _ E1 Hg1 eq_refl). mred.
  rewrite (peek_line _ all _ _ E1 Hg1). change (head_in [SEMI; 0] _) with true. mred.
  rewrite (gettoken_line all _ _ _ E1 Hg1). mred. fold pre1. rewrite Hd2. mred. by rewrite Epos.
Qed.

Lemma parses_back t : parses t -> parses (TBack t).
Proof.
  intros Ht all pre rest fuel E Hg Hcl Hf. cbn [show] in *. rewrite length_app, length_paren in Hf. simpl in Hf.
  destruct fuel as [|[|fuel]]; try lia. rewrite <- app_assoc in E. cbn [app] in E.
  destruct (paren_exec t all pre _ fuel Ht E Hg eq_refl) as (c & Hc & Hv); [lia|].
  pose proof (exec_pipe _ _ _ _ _ _ E Hg eq_refl Hc) as Hc'.
  assert (E1 : all = (pre ++ paren (show t)) ++ KSym AMP :: rest) by (by rewrite E, <- app_assoc).
  assert (E2 : all = (pre ++ paren (show t) ++ [KSym AMP]) ++ rest) by (by rewrite E, <- !app_assoc).
  assert (Hg1 : Forall good_token (KSym AMP :: rest)) by (rewrite E1, Forall_app in Hg; tauto).
  assert (Hg2 : Forall good_token rest) by (by inversion Hg1).
  exists (BackCmd c). split; [|simpl; by rewrite Hv].
  rewrite parseline_S. mred. rewrite Hc'. mred.
  assert (Hloop : loop (S (pos all)) (ampersand (line all) (pos all)) c (pos (pre ++ paren (show t))) =
    Ret (BackCmd c) (pos (pre ++ paren (show t) ++ [KSym AMP]))).
  { assert (exists m, S (pos all) = S (S m)) as [m ->] by (exists (pos all - 1)%nat; rewrite E, !pos_app; unfold paren; rewrite pos_cons; lia).
    cbn [loop]. mred. rewrite (ampersand_go all _ _ _ E1 Hg1). mred. rewrite <- app_assoc.
    rewrite (ampersand_stop all _ rest) by (done || by apply closing_head). done. }
  rewrite Hloop. mred. rewrite (peek_line _ all _ _ E2 Hg2). by rewrite closing_head.
Qed.

Lemma good_parses t : good t -> parses t.
Proof.
  induction t as [args|t IH file mode fd|l IHl r IHr|l IHl r IHr|t IH]; simpl.
  - intros H. by apply parses_exec.
  - intros (H1 & H2 & H3). apply parses_redir; auto.
  - intros [H1 H2]. apply parses_pipe; auto.
  - intros [H1 H2]. apply parses_list; auto.
  - intros H. apply parses_back; auto.
Qed.

Lemma good_paren ks : Forall good_token ks -> Forall good_token (paren ks).
Proof.
  intros H. unfold paren. constructor; [by apply good_sym|]. apply Forall_app. split; [done|]. constructor; [by apply good_sym|done].
Qed.

Lemma good_show t : good t -> Forall good_token (show t).
Proof.
  induction t as [args|t IH file mode fd|l IHl r IHr|l IHl r IHr|t IH]; cbn [show good].
  - intros [H _]. by apply Forall_fmap.
  - intros (H1 & H2 & H3). apply Forall_app. split; [by apply good_paren, IH|]. constructor; [|by constructor].
    unfold redir_token. destruct H3 as [[-> ->]|[-> [->| ->]]];
      first [exact I|apply (good_sym LT); reflexivity|apply (good_sym GT); reflexivity].
  - intros [H1 H2]. apply Forall_app. split; [by apply good_paren, IHl|]. constructor; [by apply good_sym|by apply good_paren, IHr].
  - intros [H1 H2]. apply Forall_app. split; [by apply good_paren, IHl|]. constructor; [by apply good_sym|by apply good_paren, IHr].
  - intros H. apply Forall_app. split; [by apply good_paren, IH|]. constructor; [by apply good_sym|done].
Qed.

(** ** Terminated strings *)

Lemma view_sview buf es ws b' c :
  (es < length buf)%nat -> Forall (is_word buf es) ws -> blanked buf ws.*2 b' -> (forall w, w ∈ words c -> w ∈ ws) ->
  view b' c = sview buf c.
Proof.
  intros Hes Hws Hb. induction c as [argv|c IH q e m fd|l IHl r IHr|l IHl r IHr|c IH]; simpl; intros Hin.
  - f_equal. apply list_fmap_ext. intros i w Hi. destruct (blanked_string buf es ws b' w Hes Hws Hb) as [H _]; [|done].
    apply Hin. by eapply list_elem_of_lookup_2.
  - rewrite IH by (intros w Hw; apply Hin, elem_of_app; by left). f_equal.
    destruct (blanked_string buf es ws b' (q, e) Hes Hws Hb) as [H _]; [|done]. apply Hin, elem_of_app. right. by left.
  - rewrite IHl, IHr; [done|..]; intros w Hw; apply Hin, elem_of_app; auto.
  - rewrite IHl, IHr; [done|..]; intros w Hw; apply Hin, elem_of_app; auto.
  - by rewrite IH.
Qed.

Lemma strlen_line ks : Forall good_token ks -> Ulib.strlen (line ks) = Some (Z.of_nat (pos ks)).
Proof.
  intros Hg. unfold line, pos. apply render_nonzero in Hg. induction Hg as [|c l Hc Hl IH]; simpl; [done|].
  rewrite (proj2 (Z.eqb_neq c 0)) by done. rewrite IH. simpl. f_equal. lia.
Qed.

(** C32. Printing a command and parsing it with parsecmd() gives the
    command back: the structure, the redirections with their modes and file
    descriptors, and all strings, read from the line as nulterminate() left
    it.  Commands are trees of pipelines, lists, background and redirected
    commands over argument lists of fewer than MAXARGS words. *)
Theorem parsecmd_roundtrip t :
  good t -> returns (parsecmd (line (show t))) (fun c b => view b c = t).
Proof.
  intros Ht. pose proof (good_show t Ht) as Hg. unfold parsecmd. rewrite strlen_line by done. rewrite Nat2Z.id.
  set (all := show t) in *. assert (E : all = [] ++ show t ++ []) by (by rewrite app_nil_r).
  assert (Hend : line all !! pos all = Some 0) by (unfold line, pos; by rewrite lookup_app_r, Nat.sub_diag by lia).
  assert (Hin : forall i, (i < pos all)%nat -> exists c, line all !! i = Some c /\ c <> 0).
  { intros i Hi. unfold line. rewrite lookup_app_l by done. destruct (lookup_lt_is_Some_2 (render all) i Hi) as [c Hc].
    exists c. split; [done|]. pose proof (render_nonzero _ Hg) as Hnz. rewrite Forall_lookup in Hnz. by apply (Hnz i). }
  assert (Hlen : (length (show t) <= pos all)%nat).
  { unfold all. clear. induction (show t) as [|k ks IH]; [simpl; lia|]. rewrite pos_cons. simpl. lia. }
  destruct (good_parses t Ht all [] [] (4 * pos all + 4)%nat E Hg) as (c & Hc & Hv); [by left|lia|].
  destruct (parse_safe (line all) (pos all) Hend Hin (4 * pos all + 4)%nat) as [Hline _].
  specialize (Hline O ltac:(lia) ltac:(lia)). change (pos []) with O in Hc. rewrite Hc in Hline. destruct Hline as [[Hw _] _].
  mred. rewrite Hc. mred. cbn [app]. fold all. assert (E2 : all = all ++ []) by (by rewrite app_nil_r).
  rewrite (peek_line [0] all all [] E2) by constructor. mred. rewrite Nat.eqb_refl. mred.
  pose proof (lookup_lt_Some _ _ _ Hend) as Hl.
  assert (Hb : forall e, e ∈ (words c).*2 -> (e < length (line all))%nat).
  { intros e (w & -> & Hwin)%list_elem_of_fmap. rewrite Forall_forall in Hw. destruct (Hw w Hwin) as [Hr _ _]. lia. }
  pose proof (nulterminate_spec c (line all) Hb) as Hn. apply returns_inv in Hn as ([] & b' & -> & Hbl). simpl.
  rewrite <- Hv. by eapply view_sview.
Qed.
