(* ===== verification/ShRun.v ===== *)
(** * The shell: the descriptors of the programs it runs

    The scripts of runcmd are interpreted over descriptor tables with the
    kernel's rule that a new descriptor is the lowest free one.  Every program
    a command executes is started with the descriptors the command asks for:
    pipes on standard input and output, redirected files, and nothing left
    over of the pipes' other descriptors. *)

From S2P Require Import Ulib Grep Prelude State CString Sh ShParse ShPrint.

(** What a descriptor refers to: something the shell had open, a file opened
    by a redirection, or an end of the pipe made at a node of the command. *)
Inductive target :=
| Inherited (n : nat)
| Opened (file : list Z) (mode : Z)
| ReadEnd (node : list bool)
| WriteEnd (node : list bool).

Notation fdtable := (list (option target)).

(** fdalloc: the lowest free descriptor. *)
Fixpoint fdalloc (t : fdtable) (x : target) : option (nat * fdtable) :=
  match t with
  | [] => None
  | None :: t => Some (O, Some x :: t)
  | Some y :: t => '(n, t') ← fdalloc t x; Some (S n, Some y :: t')
  end.

Definition fdclose (t : fdtable) (fd : Z) : fdtable := <[Z.to_nat fd := None]> t.

(** The programs a script executes, with their descriptors: [node] is the
    position in the command, for naming the pipes.  exec and fork succeed;
    open, pipe and dup fail when the table is full. *)
Fixpoint run (node : list bool) (t : fdtable) (p : script) : list (list (list Z) * fdtable) :=
  match p with
  | Exit _ => []
  | Print _ _ k => run node t k
  | Exec _ argv _ => [(argv, t)]
  | Close fd k => run node (fdclose t fd) k
  | Open file mode failed ok =>
      match fdalloc t (Opened file mode) with
      | Some (_, t') => run (true :: node) t' ok
      | None => run node t failed
      end
  | Dup fd k =>
      match t !! Z.to_nat fd with
      | Some (Some x) => match fdalloc t x with Some (_, t') => run node t' k | None => run node t k end
      | _ => run node t k
      end
  | Pipe failed ok =>
      match fdalloc t (ReadEnd node) with
      | Some (p0, t1) =>
          match fdalloc t1 (WriteEnd node) with
          | Some (p1, t2) => run node t2 (ok (Z.of_nat p0) (Z.of_nat p1))
          | None => run node t failed
          end
      | None => run node t failed
      end
  | Fork _ child parent => run (true :: node) t child ++ run (false :: node) t parent
  | Wait k => run node t k
  end.

(** What the command means: the programs it executes and their descriptors. *)
Fixpoint wires (node : list bool) (t : fdtable) (c : tree) : list (list (list Z) * fdtable) :=
  match c with
  | TExec [] => []
  | TExec args => [(args, t)]
  | TRedir c file mode fd => wires (true :: node) (<[Z.to_nat fd := Some (Opened file mode)]> t) c
  | TPipe l r =>
      wires (true :: node) (<[1%nat := Some (WriteEnd node)]> t) l ++
      wires (true :: false :: node) (<[0%nat := Some (ReadEnd node)]> t) r
  | TList l r => wires (true :: node) t l ++ wires (false :: node) t r
  | TBack c => wires (true :: node) t c
  end.

(** Redirections are of standard input or output. *)
Fixpoint std_redirs (c : tree) : Prop :=
  match c with
  | TExec _ => True
  | TRedir c _ _ fd => (fd = 0 \/ fd = 1) /\ std_redirs c
  | TPipe l r | TList l r => std_redirs l /\ std_redirs r
  | TBack c => std_redirs c
  end.

Definition is_open (t : fdtable) (n : nat) : Prop := exists x, t !! n = Some (Some x).
Definition is_free (t : fdtable) (n : nat) : Prop := t !! n = Some None.

(** Standard input and output are open, and there is room for a pipe. *)
Definition std (t : fdtable) : Prop :=
  is_open t 0 /\ is_open t 1 /\ exists n m, n <> m /\ is_free t n /\ is_free t m.

(** ** Allocation of descriptors *)

Lemma fdalloc_at t x n :
  is_free t n -> (forall j, (j < n)%nat -> is_open t j) -> fdalloc t x = Some (n, <[n := Some x]> t).
Proof.
  revert n. induction t as [|e t IH]; intros n Hn Ho; [done|]. destruct n as [|n].
  - unfold is_free in Hn. simpl in Hn. injection Hn as ->. done.
  - destruct (Ho O) as [y Hy]; [lia|]. simpl in Hy. injection Hy as ->. simpl.
    rewrite (IH n); [done|done|]. intros j Hj. apply (Ho (S j)). lia.
Qed.

Lemma first_free_fd t n : is_free t n -> exists m, is_free t m /\ forall j, (j < m)%nat -> is_open t j.
Proof.
  revert n. induction t as [|e t IH]; intros n Hn; [done|]. destruct e as [y|].
  - destruct n as [|n]; [done|]. destruct (IH n Hn) as (m & Hm & Hj). exists (S m). split; [done|].
    intros [|j] Hlt; [by exists y|]. apply Hj. lia.
  - exists O. split; [done|]. intros j Hj. lia.
Qed.

Lemma is_free_insert t n m x : n <> m -> is_free (<[n := x]> t) m <-> is_free t m.
Proof. intros Hne. unfold is_free. by rewrite list_lookup_insert_ne. Qed.

Lemma is_open_insert t n m x : is_open t m -> is_open (<[n := Some x]> t) m.
Proof.
  intros [y Hy]. destruct (decide (n = m)) as [->|].
  - exists x. apply list_lookup_insert_eq. by eapply lookup_lt_Some.
  - exists y. by rewrite list_lookup_insert_ne.
Qed.

Lemma is_open_insert_ne t n m x : n <> m -> is_open (<[n := x]> t) m <-> is_open t m.
Proof. intros Hne. unfold is_open. by rewrite list_lookup_insert_ne. Qed.

Lemma free_not_open t n : is_free t n -> is_open t n -> False.
Proof. intros H1 [x H2]. unfold is_free in H1. congruence. Qed.

Lemma std_insert t n x : (n = 0 \/ n = 1)%nat -> std t -> std (<[n := Some x]> t).
Proof.
  intros Hn (H0 & H1 & a & b & Hab & Ha & Hb). split_and!; [by apply is_open_insert..|].
  exists a, b. split; [done|]. rewrite !is_free_insert; [done|..]; intros <-;
    (destruct Hn as [->| ->]; [by eapply (free_not_open t 0)|by eapply (free_not_open t 1)]).
Qed.

(** close(fd) and the allocation of standard input or output. *)
Lemma realloc_std t fd x : std t -> fd = 0 \/ fd = 1 ->
  fdalloc (fdclose t fd) x = Some (Z.to_nat fd, <[Z.to_nat fd := Some x]> t).
Proof.
  intros (H0 & H1 & _) Hfd. unfold fdclose. rewrite (fdalloc_at _ x (Z.to_nat fd)).
  - by rewrite list_insert_insert_eq.
  - apply list_lookup_insert_eq. destruct H0 as [? H0%lookup_lt_Some], H1 as [? H1%lookup_lt_Some]. destruct Hfd as [->| ->]; done.
  - intros j Hj. apply is_open_insert_ne; [lia|]. destruct Hfd as [->| ->]; [simpl in Hj; lia|].
    by assert (j = O) as -> by (simpl in Hj; lia).
Qed.

(** pipe() takes two free descriptors above standard output. *)
Lemma pipe_fds t node : std t ->
  exists p0 p1, p0 <> p1 /\ (2 <= p0)%nat /\ (2 <= p1)%nat /\ is_free t p0 /\ is_free t p1 /\
    fdalloc t (ReadEnd node) = Some (p0, <[p0 := Some (ReadEnd node)]> t) /\
    fdalloc (<[p0 := Some (ReadEnd node)]> t) (WriteEnd node) =
      Some (p1, <[p1 := Some (WriteEnd node)]> (<[p0 := Some (ReadEnd node)]> t)).
Proof.
  intros (H0 & H1 & a & b & Hab & Ha & Hb). destruct (first_free_fd t a Ha) as (p0 & Hp0 & Hlo0).
  set (t1 := <[p0 := Some (ReadEnd node)]> t).
  assert (Hge : forall n, is_free t n -> (2 <= n)%nat).
  { intros [|[|n]] Hn; [by destruct (free_not_open t 0)|by destruct (free_not_open t 1)|lia]. }
  assert (exists c, c <> p0 /\ is_free t c) as (c & Hc & Hcf) by (destruct (decide (a = p0)) as [->|]; eauto).
  destruct (first_free_fd t1 c) as (p1 & Hp1 & Hlo1); [by apply is_free_insert|].
  assert (Hne : p0 <> p1).
  { intros <-. apply (free_not_open t1 p0); [done|]. exists (ReadEnd node). apply list_lookup_insert_eq. by eapply lookup_lt_Some. }
  assert (Hp1t : is_free t p1) by (by apply is_free_insert in Hp1).
  exists p0, p1. split_and!; auto; by apply fdalloc_at.
Qed.

(** The child of a pipeline: the descriptor [fd] becomes a copy of [p], and
    both descriptors of the pipe are closed again. *)
Lemma child_fds t fd p p0 p1 x y z :
  std t -> fd = 0 \/ fd = 1 -> p0 <> p1 -> (2 <= p0)%nat -> (2 <= p1)%nat -> is_free t p0 -> is_free t p1 ->
  let t2 := <[p1 := Some y]> (<[p0 := Some x]> t) in
  (p = p0 /\ z = x) \/ (p = p1 /\ z = y) ->
  fdclose t2 fd !! p = Some (Some z) /\
  fdalloc (fdclose t2 fd) z = Some (Z.to_nat fd, <[Z.to_nat fd := Some z]> t2) /\
  fdclose (fdclose (<[Z.to_nat fd := Some z]> t2) (Z.of_nat p0)) (Z.of_nat p1) = <[Z.to_nat fd := Some z]> t.
Proof.
  intros Hstd Hfd Hne H0 H1 Hf0 Hf1 t2 Hp. assert (Hn : (Z.to_nat fd < 2)%nat) by (destruct Hfd as [->| ->]; simpl; lia).
  assert (Hl0 : (p0 < length t)%nat) by (by eapply lookup_lt_Some). assert (Hl1 : (p1 < length t)%nat) by (by eapply lookup_lt_Some).
  split_and!.
  - unfold fdclose, t2. rewrite list_lookup_insert_ne by (destruct Hp as [[-> _]|[-> _]]; lia).
    destruct Hp as [[-> ->]|[-> ->]].
    + rewrite list_lookup_insert_ne by done. by apply list_lookup_insert_eq.
    + apply list_lookup_insert_eq. by rewrite length_insert.
  - destruct Hstd as (Ho0 & Ho1 & _). unfold fdclose. rewrite (fdalloc_at _ z (Z.to_nat fd)).
    + by rewrite list_insert_insert_eq.
    + apply list_lookup_insert_eq. unfold t2. rewrite !length_insert. lia.
    + intros j Hj. apply is_open_insert_ne; [lia|]. unfold t2. do 2 (apply is_open_insert_ne; [lia|]).
      by assert (j = O) as -> by lia.
  - unfold fdclose, t2. rewrite !Nat2Z.id. apply list_eq. intros i.
    destruct (decide (i = p1)) as [->|]; [|rewrite list_lookup_insert_ne by done; destruct (decide (i = p0)) as [->|]].
    + rewrite list_lookup_insert_eq by (rewrite !length_insert; lia). by rewrite list_lookup_insert_ne by lia.
    + rewrite list_lookup_insert_eq by (rewrite !length_insert; lia). by rewrite list_lookup_insert_ne by lia.
    + rewrite list_lookup_insert_ne by done. destruct (decide (i = Z.to_nat fd)) as [->|].
      * rewrite !list_lookup_insert_eq; [done|..]; rewrite ?length_insert; lia.
      * by rewrite !list_lookup_insert_ne.
Qed.

(** ** runcmd *)

Lemma run_pipe node t failed ok p0 p1 t2 :
  fdalloc t (ReadEnd node) = Some (p0, <[p0 := Some (ReadEnd node)]> t) ->
  fdalloc (<[p0 := Some (ReadEnd node)]> t) (WriteEnd node) = Some (p1, t2) ->
  run node t (Pipe failed ok) = run node t2 (ok (Z.of_nat p0) (Z.of_nat p1)).
Proof. intros H0 H1. cbn [run]. by rewrite H0, H1. Qed.

Lemma run_fork1 node t child parent :
  run node t (fork1 child parent) = run (true :: node) t child ++ run (false :: node) t parent.
Proof. done. Qed.

(** What a child of a pipeline runs. *)
Lemma run_child node t fd p p0 p1 x y z k :
  std t -> fd = 0 \/ fd = 1 -> p0 <> p1 -> (2 <= p0)%nat -> (2 <= p1)%nat -> is_free t p0 -> is_free t p1 ->
  (p = p0 /\ z = x) \/ (p = p1 /\ z = y) ->
  run node (<[p1 := Some y]> (<[p0 := Some x]> t))
    (Close fd (Dup (Z.of_nat p) (Close (Z.of_nat p0) (Close (Z.of_nat p1) k)))) =
  run node (<[Z.to_nat fd := Some z]> t) k.
Proof.
  intros Hstd Hfd Hne H0 H1 Hf0 Hf1 Hp.
  destruct (child_fds t fd p p0 p1 x y z Hstd Hfd Hne H0 H1 Hf0 Hf1 Hp) as (E1 & E2 & E3).
  cbn [run]. rewrite Nat2Z.id, E1, E2, E3. done.
Qed.

