(* ===== verification/Scenario.v ===== *)
(** * A concrete machine

    The kernel after binit, with process 1 running and nothing cached: the
    starting point of the examples and of the satisfiability checks. *)

From S2P Require Import Prelude State Spinlock CString Sysargs Proc ReadyQueue Sleeplock Sleeping Bio Log BufferCache Wal Transaction Usercopy.

(** Process 1, pid 2, running. *)
Definition sh : proc := set_p_cwd (Some 0%nat) (set_p_pid 2 (set_p_state RUNNING zero_proc)).

(** The machine on disk [d], logically after binit and procinit. *)
Definition machine (d : gmap Z (list Z)) : kstate :=
  set_k_lru (rev (seq 0 NBUF))
    (set_k_cur (Some 1%nat)
      (set_k_procs (<[1%nat := sh]> (replicate NPROC zero_proc)) (boot 0x80020000 0x80007000 0 0 d))).

Lemma rq_wf_empty s :
  length (k_procs s) = NPROC -> length (rq_procs (k_rq s)) = NPROC -> rq_count (k_rq s) = 0 ->
  Forall (fun p => p_in_rq p = false) (k_procs s) -> rq_wf s.
Proof.
  intros Hp Hq Hc Hf. assert (Hl : rq_list s = []) by (unfold rq_list; by rewrite Hc).
  rewrite Forall_lookup in Hf. constructor; rewrite ?Hl; try done.
  - rewrite Hc. lia.
  - constructor.
  - intros i. split; [by intros ?%not_elem_of_nil|]. intros (q & Hi & Hin).
    apply Hf in Hi. congruence.
Qed.

Lemma machine_running d : running 1 sh [] (machine d).
Proof.
  constructor; try done. apply rq_wf_empty; try done.
  apply Forall_forall. intros q [i Hi]%list_elem_of_lookup.
  change (k_procs (machine d)) with (<[1%nat := sh]> (replicate NPROC zero_proc)) in Hi.
  apply list_lookup_insert_Some in Hi as [(_ & <- & _)|[_ Hi]]; [done|].
  by apply lookup_replicate in Hi as [-> _].
Qed.

Lemma machine_fs d :
  map_Forall (fun _ bs => length bs = Z.to_nat BSIZE) d ->
  fs ROOTDEV (disk_read d) ∅ ∅ 1 sh (machine d).
Proof.
  intros Hd. split; [|apply machine_running].
  apply (bc_fresh ROOTDEV 2 (machine d)); try done; [symmetry; apply Permutation_rev|].
  apply Forall_forall. intros b [i Hi]%list_elem_of_lookup.
  change (k_bufs (machine d)) with (replicate NBUF zero_buf) in Hi.
  apply lookup_replicate in Hi as [-> _]. split_and!; done.
Qed.

Lemma machine_rebooted d :
  map_Forall (fun _ bs => length bs = Z.to_nat BSIZE) d ->
  rebooted ROOTDEV d 1 sh (machine d).
Proof. intros Hd. constructor; [by apply machine_fs|done|apply length_replicate]. Qed.

(** [binit] leaves the list [machine] starts with. *)
Lemma machine_binit d :
  exists s, binit (boot 0x80020000 0x80007000 0 0 d) = Ret tt s /\ k_lru s = k_lru (machine d) /\
    k_bufs s = k_bufs (machine d).
Proof. eexists. vm_compute. done. Qed.

(** The superblock mkfs writes. *)
Definition sb2 : superblock := mkSuperblock FSMAGIC 2000 1937 200 31 2 33 46.

(** [machine d] inside a file-system operation. *)
Definition in_op (d : gmap Z (list Z)) : kstate :=
  set_k_sb sb2
    (set_k_log (set_log_outstanding 1 (set_log_start 2 (set_log_dev ROOTDEV (k_log (machine d))))) (machine d)).

Lemma in_op_op d :
  map_Forall (fun _ bs => length bs = Z.to_nat BSIZE) d ->
  op ROOTDEV 2 (disk_read d) ∅ [] 1 sh (in_op d).
Proof.
  intros Hd. destruct (machine_fs d Hd) as [Hbc Hrun]. constructor; [| |done].
  - constructor; [by apply (bc_ext _ _ _ _ _ (machine d))|by apply (running_ext _ _ _ (machine d))].
  - constructor; try done; [constructor|]. simpl. lia.
Qed.

(** ** A user memory without page tables *)

(** User addresses are memory addresses and no copy fails. *)
Definition flat_copyout (pt va : Z) (bs : list Z) : K Z := kwrite va bs;; mret 0.
Definition flat_copyin (pt va n : Z) : K (Z * list Z) := bs ← kread va (Z.to_nat n); mret (0, bs).

Lemma flat_copyout_frame pt va bs : frames (flat_copyout pt va bs).
Proof. unfold flat_copyout, kwrite. solve_frames. Qed.
Lemma flat_copyin_frame pt va n : frames (flat_copyin pt va n).
Proof. unfold flat_copyin, kread. solve_frames. Qed.

Definition flat_usercopy : UserCopy.
Proof.
  refine {| ucopyout := flat_copyout; ucopyin := flat_copyin; ucopyinstr := flat_copyin |}.
  - intros pt va bs. apply flat_copyout_frame.
  - intros pt va n. apply flat_copyin_frame.
  - intros pt va n. apply flat_copyin_frame.
  - intros pt va n s bs s' Hn [= <- _]. apply length_mem_read.
Defined.
