(* ===== verification/Checks.v ===== *)
(** * Satisfiability of the specifications

    Each theorem with hypotheses is applied here to a concrete machine that
    meets them. *)

From S2P Require Import Prelude State Spinlock CString Sysargs Proc ReadyQueue Sleeplock Sleeping Mutex Bio Log BufferCache Wal Scenario Lifecycle Syscall Sched.

(** ** A ready queue with work to do *)

(** Processes 3 and 5 runnable with deadlines 7 and 2, process 4 asleep. *)
Definition three_procs : list proc :=
  <[3%nat := set_p_deadline 7 (set_p_state RUNNABLE zero_proc)]>
    (<[4%nat := set_p_chan (Some ChTicks) (set_p_state SLEEPING zero_proc)]>
      (<[5%nat := set_p_deadline 2 (set_p_state RUNNABLE zero_proc)]> (replicate NPROC zero_proc))).

Definition idle : kstate := set_k_procs three_procs (boot 0x80020000 0x80007000 0 0 ∅).

Lemma idle_wf : rq_wf idle.
Proof.
  apply rq_wf_empty; try done.
  apply Forall_forall. intros q [i Hi]%list_elem_of_lookup. change (k_procs idle) with three_procs in Hi.
  unfold three_procs in Hi.
  repeat (apply list_lookup_insert_Some in Hi as [(_ & <- & _)|[_ Hi]]; [done|]).
  by apply lookup_replicate in Hi as [-> _].
Qed.

Lemma rq_insert_refines_witness :
  LRq ∉ k_held idle /\ returns (rq_insert 3 idle) (fun _ s' => rq_list s' = [3%nat]).
Proof.
  split; [apply not_elem_of_nil|]. eapply returns_mono.
  - apply (rq_insert_refines idle 3); [exact idle_wf|apply not_elem_of_nil|reflexivity].
  - intros u s' [_ [H _]]. exact H.
Defined.

(** The queue of [idle] once both runnable processes are in it. *)
Definition busy : kstate :=
  match (rq_insert 3;; rq_insert 5) idle with Ret _ s => s | _ => idle end.

Lemma busy_wf : rq_wf busy.
Proof.
  pose proof (rq_insert_spec idle 3 _ idle_wf (not_elem_of_nil LRq) eq_refl) as H.
  apply returns_inv in H as ([] & s1 & H1 & arr & -> & _ & Hwf1).
  pose proof (rq_insert_spec _ 5 (set_p_deadline 2 (set_p_state RUNNABLE zero_proc)) Hwf1
                (not_elem_of_nil LRq) eq_refl) as H.
  apply returns_inv in H as ([] & s2 & H2 & arr2 & -> & _ & Hwf2).
  unfold busy. mred. rewrite H1. mred. rewrite H2. exact Hwf2.
Qed.

Lemma rq_dequeue_earliest_witness :
  rq_list busy = [5%nat; 3%nat] /\
  returns (rq_dequeue busy) (fun r s' => rq_wf s' /\ match r with Some p => p = 5%nat | None => False end).
Proof.
  split; [vm_compute; reflexivity|]. eapply returns_mono.
  - apply (rq_dequeue_earliest busy). exact busy_wf.
  - intros [p|] s' [Hw H]; (split; [exact Hw|]).
    + destruct H as [H _]. assert (Hb : rq_list busy = [5%nat; 3%nat]) by (vm_compute; reflexivity).
      rewrite Hb in H. injection H as <- _. reflexivity.
    + destruct H as [H _]. assert (Hb : rq_list busy = [5%nat; 3%nat]) by (vm_compute; reflexivity).
      rewrite Hb in H. discriminate H.
Defined.

Lemma rq_remove_refines_witness :
  LRq ∉ k_held busy /\ returns (rq_remove 3 busy) (fun _ s' => rq_list s' = [5%nat]).
Proof.
  split; [apply not_elem_of_nil|]. eapply returns_mono.
  - apply (rq_remove_refines busy 3); [exact busy_wf|apply not_elem_of_nil].
  - intros u s' (_ & H & _). rewrite H. vm_compute. reflexivity.
Defined.

Lemma wakeup_wakes_sleepers_witness :
  returns (wakeup ChTicks busy) (fun _ s' =>
    rq_wf s' /\ exists p', k_procs s' !! 4%nat = Some p' /\ p_state p' = RUNNABLE).
Proof.
  eapply returns_mono.
  - apply (wakeup_wakes_sleepers busy ChTicks);
      [exact busy_wf|apply not_elem_of_nil|intros i _; apply not_elem_of_nil].
  - intros u s' (Hw & _ & H). split; [exact Hw|].
    specialize (H 4%nat (set_p_chan (Some ChTicks) (set_p_state SLEEPING zero_proc)) eq_refl).
    rewrite decide_True in H.
    + destruct H as (p' & H1 & H2 & _). exists p'. split; [exact H1|exact H2].
    + split; [discriminate|split; reflexivity].
Defined.

Lemma busy_queued_runnable : queued_runnable busy.
Proof.
  intros i p Hi Hin. assert (Hb : i ∈ rq_list busy) by (apply (rqwf_mem _ busy_wf); by exists p).
  assert (Hl : rq_list busy = [5%nat; 3%nat]) by (vm_compute; reflexivity). rewrite Hl in Hb.
  apply elem_of_cons in Hb as [->|Hb]; [by vm_compute in Hi; injection Hi as <-|].
  apply list_elem_of_singleton in Hb as ->. by vm_compute in Hi; injection Hi as <-.
Qed.


(** ** A transaction *)

Lemma empty_disk_ok : map_Forall (fun _ bs => length bs = Z.to_nat BSIZE) (∅ : gmap Z (list Z)).
Proof. apply map_Forall_empty. Qed.

Definition ones : list Z := replicate (Z.to_nat BSIZE) 1.

(** The log of [machine] starts at block 2, as mkfs puts it. *)
Definition with_log (s : kstate) : kstate :=
  set_k_log (set_log_start 2 (set_log_dev ROOTDEV (k_log s))) s.

(** An operation that fills block 50 with ones. *)
Definition write_50 : K unit :=
  begin_op;;
  b ← bread ROOTDEV 50;
  set_bdata b ones;;
  log_write b;;
  brelse b.

Lemma with_log_rep d : log_rep ROOTDEV 2 [] (k_log (with_log (machine d))).
Proof. constructor; try done; [constructor|]. simpl. lia. Qed.

Lemma write_50_spec d s0 :
  fs ROOTDEV (disk_read d) ∅ ∅ 1 sh s0 -> log_rep ROOTDEV 2 [] (k_log s0) ->
  log_outstanding (k_log s0) = 0 -> log_committing (k_log s0) = false ->
  returns (write_50 s0) (fun _ s =>
    fs ROOTDEV (<[50 := ones]> (disk_read d)) ∅ (list_to_set [50]) 1 sh s /\
    log_rep ROOTDEV 2 [50] (k_log s) /\ k_disk s = k_disk s0 /\
    log_outstanding (k_log s) = 1 /\ log_committing (k_log s) = false).
Proof.
  intros Hfs0 Hlr0 Ho0 Hc0. unfold write_50. mred.
  rewrite (begin_op_eq 1 sh) by (apply Hfs0 || done || (unfold log_full; by rewrite (lr_n _ _ _ _ Hlr0), Ho0)).
  mred. set (l1 := set_log_outstanding _ _).
  assert (Hlr1 : log_rep ROOTDEV 2 [] l1) by (by apply log_rep_outstanding).
  assert (Ho1 : log_outstanding l1 = 1) by (unfold l1; simpl; by rewrite Ho0).
  assert (Hc1 : log_committing l1 = false) by done. clearbody l1.
  eapply (fs_set_log _ _ _ _ _ _ _ l1) in Hfs0. apply returns_obind. eapply returns_mono.
  { eapply bread_spec; [exact Hfs0|done|]. right. vm_compute. lia. }
  cbn beta. intros b s1 [Hfs1 F1]. mred. apply returns_obind. eapply returns_mono.
  { eapply (set_bdata_spec _ _ _ _ _ _ _ 50); [exact Hfs1|apply lookup_insert_eq|done]. }
  cbn beta. intros _ s2 [Hfs2 F2]. mred. pose proof (bio_frame_trans _ _ _ F1 F2) as F12.
  pose proof (bio_frame_log _ _ F12) as Hl2. simpl in Hl2. apply returns_obind. eapply returns_mono.
  { eapply (log_write_spec ROOTDEV 2 _ _ [] 1 sh s2 50 b); [exact Hfs2| | | |apply lookup_insert_eq];
      rewrite ?Hl2; [done|vm_compute; lia|lia]. }
  cbn beta. intros _ s3 (l3 & Hfs3 & Hlr3 & Ho3 & Hc3 & Hl3 & F3). eapply returns_mono.
  { eapply (brelse_spec _ _ _ _ _ _ _ 50); [exact Hfs3|apply lookup_insert_eq|left; set_solver]. }
  cbn beta. intros _ s4 [Hfs4 F4]. rewrite delete_insert_id in Hfs4 by done.
  rewrite (bio_frame_log _ _ F4), Hl3, Ho3, Hc3, Hl2. split_and!; try done.
  by rewrite F4, F3, F12.
Qed.

(** The machine just before the commit of that operation. *)
Lemma dirty_machine : exists s,
  fs ROOTDEV (<[50 := ones]> (disk_read ∅)) ∅ (list_to_set [50]) 1 sh s /\
  log_rep ROOTDEV 2 [50] (k_log s) /\ k_disk s = ∅ /\
  log_outstanding (k_log s) = 1 /\ log_committing (k_log s) = false.
Proof.
  destruct (returns_inv _ _ (write_50_spec ∅ (with_log (machine ∅))
    (fs_set_log _ _ _ _ _ _ _ _ (machine_fs ∅ empty_disk_ok)) (with_log_rep ∅) eq_refl eq_refl))
    as (u & s & _ & H). exists s. exact H.
Qed.

Lemma txn_50 : txn_ok 2 [50].
Proof.
  constructor.
  - intros b ->%list_elem_of_singleton. right. unfold LOGBLOCKS, MAXOPBLOCKS. lia.
  - intros b ->%list_elem_of_singleton. lia.
  - vm_compute. lia.
Qed.

Lemma zero_header : is_header zero_block [].
Proof. split_and!; [apply length_replicate|vm_compute; reflexivity|by intros k blk Hk]. Qed.

Lemma commit_crash_safe_witness :
  exists s, disk_read (k_disk s) 50 = zero_block /\
  returns (commit s) (fun _ s' => exists tr,
    k_dtrace s' = k_dtrace s ++ tr /\
    returns (initlog ROOTDEV sb2 (machine (apply_trace (k_disk s) tr))) (fun _ s1 =>
      disk_read (k_disk s1) 50 = ones)).
Proof.
  destruct dirty_machine as (s & Hfs & Hlr & Hd & _ & _). exists s.
  split; [rewrite Hd; reflexivity|].
  assert (Hclean : is_header (disk_read (k_disk s) 2) []) by (rewrite Hd; exact zero_header).
  destruct (returns_inv _ _ (commit_spec ROOTDEV 2 1 sh _ [50] s Hfs Hlr txn_50 ltac:(discriminate)))
    as (u2 & s' & Hrun & V' & H & H0 & l' & [Hbc _] & _).
  pose proof (commit_crash_safe ROOTDEV 2 _ [50] 1 sh s sb2 Hfs Hlr txn_50 Hclean eq_refl) as Hc.
  rewrite Hrun in Hc |- *. destruct Hc as (tr & Ht & Hdk & Hc). exists tr. split; [exact Ht|].
  assert (Hrb : rebooted ROOTDEV (apply_trace (k_disk s) (take (length tr) tr)) 1 sh
            (machine (apply_trace (k_disk s) tr))).
  { rewrite take_ge by lia. apply machine_rebooted. rewrite <- Hdk.
    intros blk bs Hb. exact (bc_disk_size _ _ _ _ _ _ Hbc blk bs Hb). }
  eapply returns_mono; [apply (Hc (length tr) _ _ _ Hrb)|]. cbn beta. intros _ s1 [_ H1].
  rewrite H1; [reflexivity|lia|right; vm_compute; reflexivity].
Defined.

(** A disk whose log holds one committed block that is not installed yet. *)
Definition header_50 : list Z := put32 (put32 zero_block 0 1) 4 50.
Definition crashed_disk : gmap Z (list Z) := <[2 := header_50]> (<[3 := ones]> ∅).

Lemma header_50_ok : is_header header_50 [50].
Proof.
  split_and!; [vm_compute; reflexivity|vm_compute; reflexivity|].
  intros [|k] blk Hk; [|done]. injection Hk as <-. vm_compute. reflexivity.
Qed.

Lemma logged_50 : logged_blocks 2 [50].
Proof. constructor; [apply NoDup_singleton|vm_compute; lia|apply txn_50|apply txn_50]. Qed.

Lemma crashed_disk_ok : map_Forall (fun _ bs => length bs = Z.to_nat BSIZE) crashed_disk.
Proof.
  apply map_Forall_insert_2; [apply header_50_ok|].
  apply map_Forall_insert_2; [apply length_replicate|apply map_Forall_empty].
Qed.

Lemma recovery_crash_safe_witness :
  returns (initlog ROOTDEV sb2 (machine crashed_disk)) (fun _ s' => exists tr,
    k_dtrace s' = k_dtrace (machine crashed_disk) ++ tr).
Proof.
  assert (Hh : is_header (disk_read crashed_disk 2) [50]).
  { unfold crashed_disk, disk_read. rewrite lookup_insert_eq. exact header_50_ok. }
  eapply returns_mono.
  - apply (recovery_crash_safe ROOTDEV 2 crashed_disk [50] 1 sh (machine crashed_disk) sb2
      (machine_rebooted _ crashed_disk_ok) eq_refl Hh logged_50).
  - cbn beta. intros u s' (tr & Ht & _). exists tr. exact Ht.
Defined.


Lemma log_write_guards_witness :
  log_write 0 (machine ∅) = Panic "log_write outside of trans".
Proof.
  apply (log_write_guards 0 (machine ∅)); [apply not_elem_of_nil|vm_compute; reflexivity|].
  unfold in_transaction. vm_compute. intros H. apply H. reflexivity.
Defined.

Lemma bread_returns_contents_witness :
  returns (bread ROOTDEV 3 (machine crashed_disk)) (fun i s' =>
    exists b, k_bufs s' !! i = Some b /\ b_data b = disk_read crashed_disk 3).
Proof.
  eapply returns_mono.
  - apply (bread_returns_contents ROOTDEV (disk_read crashed_disk) ∅ ∅ 1 sh (machine crashed_disk) 3);
      [exact (machine_fs _ crashed_disk_ok)|reflexivity|right; vm_compute; lia].
  - cbn beta. intros i s' [(b & H1 & _ & _ & _ & _ & H2) _]. exists b. split; [exact H1|exact H2].
Defined.

Lemma bget_recycles_lru_witness :
  returns (bget ROOTDEV 7 (machine ∅)) (fun i _ => i = 0%nat).
Proof.
  assert (Hfree : forall i b, k_bufs (machine ∅) !! i = Some b -> b = zero_buf).
  { intros i b Hi. change (k_bufs (machine ∅)) with (replicate NBUF zero_buf) in Hi.
    apply lookup_replicate in Hi as [-> _]. reflexivity. }
  assert (Hlru : forall i, i ∈ k_lru (machine ∅) -> is_Some (k_bufs (machine ∅) !! i)).
  { intros i Hi. apply (elem_of_rev (seq 0 NBUF)), elem_of_seq in Hi.
    apply lookup_lt_is_Some. change (i < NBUF)%nat. lia. }
  pose proof (bget_recycles_lru ROOTDEV 7 (machine ∅) 1 sh (machine_running ∅) Hlru) as H.
  assert (H1 : forall i b, k_bufs (machine ∅) !! i = Some b -> b_refcnt b = 0 -> sl_locked (b_lock b) = false).
  { intros i b Hi _. rewrite (Hfree _ _ Hi). reflexivity. }
  assert (H2 : forall i b, k_bufs (machine ∅) !! i = Some b -> ~ (b_dev b = ROOTDEV /\ b_blockno b = 7)).
  { intros i b Hi. rewrite (Hfree _ _ Hi). intros [H2 _]. discriminate H2. }
  specialize (H H1 H2).
  assert (Hf : List.find (is_free (machine ∅)) (rev (k_lru (machine ∅))) = Some 0%nat)
    by (vm_compute; reflexivity).
  rewrite Hf in H. eapply returns_mono; [exact H|]. cbn beta. intros i s' [Hi _]. exact Hi.
Defined.

Lemma acquiresleep_excludes_witness :
  sound (rely (fun s' => is_Some (slk_of (SBuf 3) s'))) (acquiresleep (SBuf 3) (machine ∅)) (fun _ s' =>
    slk_of (SBuf 3) s' = Some (mkSlock true 2)).
Proof.
  eapply sound_mono.
  - apply (acquiresleep_excludes (SBuf 3) 1 sh (machine ∅) (machine_running ∅)).
    exists zero_slock. reflexivity.
  - cbn beta. intros u s' [H _]. exact H.
Defined.

(** ** Two CPUs *)

Definition two_cpus : Hw.hw :=
  Hw.mkHw [Hw.mkCpu 0 true true; Hw.mkCpu 1 true false]
    (fun lk => if decide (lk = LRq) then Hw.mkSpinlock true (Some 1%nat) else Hw.mkSpinlock false None).

Lemma push_off_pop_off_nest_witness :
  returns (Hw.times 2 (Hw.push_off 0) two_cpus) (fun _ h1 =>
    Hw.times 2 (Hw.pop_off 0) h1 = Ret tt two_cpus).
Proof.
  eapply returns_mono.
  - apply (Hw.push_off_pop_off_nest 2 two_cpus 0 (Hw.mkCpu 0 true true)); [reflexivity|..]; cbn; lia || (intros _; reflexivity).
  - cbn beta. intros u h1 [_ H]. exact H.
Defined.


(** A machine whose mutex 0 is in use and free; the system call's argument is 0. *)
Definition with_mutex (locked : bool) : kstate :=
  set_k_mutexes (<[0%nat := mkMutex locked true None]> (k_mutexes (machine ∅))) (machine ∅).

Lemma with_mutex_running locked : running 1 sh [] (with_mutex locked).
Proof. apply (running_ext _ _ _ (machine ∅)); try reflexivity. apply (machine_fs ∅). apply map_Forall_empty. Qed.

Lemma with_mutex_id locked : mutex_id (with_mutex locked) (arg0 sh (with_mutex locked)) (mkMutex locked true None).
Proof. vm_compute. split_and!; congruence || reflexivity. Qed.

(** Locking the free mutex takes it; with the mutex locked the call waits. *)
Lemma mtx_lock_excludes_witness :
  sys_mtx_lock (with_mutex false) = Ret 0 (put_mutex 0 (mkMutex true true (Some 1%nat)) (with_mutex false)) /\
  sound (rely (fun s' => exists x, k_mutexes s' !! 0%nat = Some x /\ mtx_locked x = true)) (sys_mtx_lock (with_mutex true)) (fun _ _ => False).
Proof.
  split.
  - exact (proj1 (proj2 (mtx_lock_excludes 1 sh (with_mutex false) (with_mutex_running false) eq_refl) _ (with_mutex_id false)) eq_refl).
  - exact (proj2 (proj2 (proj2 (mtx_lock_excludes 1 sh (with_mutex true) (with_mutex_running true) eq_refl) _ (with_mutex_id true))) eq_refl).
Defined.

Lemma mtx_unlock_frees_witness :
  returns (sys_mtx_unlock (with_mutex true)) (fun r s' => r = 0 /\ k_mutexes s' !! 0%nat = Some (mkMutex false true None)) /\
  sys_mtx_unlock (with_mutex false) = Ret (-1) (with_mutex false).
Proof.
  split.
  - eapply returns_mono; [exact (proj2 (mtx_unlock_frees 1 sh (with_mutex true) (with_mutex_running true) eq_refl) _ (with_mutex_id true) eq_refl)|].
    cbn beta. intros r s' (Hr & _ & Hm & _). split; [exact Hr|]. rewrite Hm. vm_compute. reflexivity.
  - refine (proj1 (mtx_unlock_frees 1 sh (with_mutex false) (with_mutex_running false) eq_refl) _). intros mx (_ & Hm & _). vm_compute in Hm. injection Hm as <-. reflexivity.
Defined.

(** The machine after procinit(), and a run of two processes. *)
Definition booted : kstate :=
  match procinit (boot 0x80020000 0x80007000 0 0 ∅) with Ret _ s => s | _ => boot 0x80020000 0x80007000 0 0 ∅ end.

Lemma booted_ok : sched_ok booted.
Proof.
  assert (Hin : forall i q, k_procs (boot 0x80020000 0x80007000 0 0 ∅) !! i = Some q -> p_in_rq q = false).
  { intros i q Hi. apply list_elem_of_lookup_2 in Hi. by apply elem_of_replicate_inv in Hi as ->. }
  pose proof (procinit_ok (boot 0x80020000 0x80007000 0 0 ∅) eq_refl eq_refl eq_refl Hin eq_refl eq_refl) as H.
  unfold booted. by destruct (procinit _).
Qed.

Definition two_processes : list sop :=
  [OAlloc 0; OStart 0; OAlloc 1; OStart 1; OSchedule; OAttr 9 1 0; OYield; OSchedule; OSleep ChTicks LTicks; OTick; OSchedule;
   OKill 2; OExit 3; OReap 1; OSchedule; OWakeup ChTicks].

Lemma scheduling_safe_witness : exists s', do_ops two_processes booted = Some s' /\ sched_ok s'.
Proof. exact (scheduling_safe two_processes booted booted_ok). Defined.
