(* ===== verification/FsChecks.v ===== *)
(** * Satisfiability of the file-system specifications

    The theorems on blocks, inodes, truncation, strings and paths applied to a
    small concrete file system. *)

From S2P Require Import Prelude State Spinlock CString Sysargs Proc ReadyQueue Sleeplock Sleeping Bio BufferCache Log Wal Transaction Usercopy Fs Path Bitmap Inodes Truncate Scenario.

(** ** A file with a direct block 50 and an indirect block 51 naming 52 *)

(** Blocks 0-47 (the metadata) and 50-52 are in use. *)
Definition bitmap_block : list Z :=
  replicate 6 255 ++ [28] ++ replicate (Z.to_nat BSIZE - 7) 0.
Definition indirect_block : list Z := ind_set zero_block 0 52.
Definition small_disk : gmap Z (list Z) := <[46 := bitmap_block]> (<[51 := indirect_block]> ∅).

Lemma small_disk_ok : map_Forall (fun _ bs => length bs = Z.to_nat BSIZE) small_disk.
Proof.
  apply map_Forall_insert_2; [vm_compute; reflexivity|].
  apply map_Forall_insert_2; [vm_compute; reflexivity|apply map_Forall_empty].
Qed.

Definition small_inode : inode :=
  mkInode ROOTDEV 5 1 zero_slock true T_FILE 0 0 0 13000 (50 :: replicate 11 0 ++ [51]).

(** The operation on that disk with the inode in entry 3. *)
Definition small_fs : kstate :=
  set_k_itable (<[3%nat := small_inode]> (k_itable (in_op small_disk))) (in_op small_disk).

Lemma small_op : op ROOTDEV 2 (disk_read small_disk) ∅ [] 1 sh small_fs.
Proof. apply op_itable, in_op_op. exact small_disk_ok. Qed.

Lemma small_file_blocks : file_blocks (disk_read small_disk) small_inode = [50; 52; 51].
Proof. vm_compute. reflexivity. Qed.

Lemma balloc_lowest_free_witness :
  returns (balloc ROOTDEV small_fs) (fun b _ => first_free sb2 (disk_read small_disk) b \/ b = 0).
Proof.
  eapply returns_mono.
  - apply (balloc_lowest_free ROOTDEV 2 1 sh (disk_read small_disk) ∅ [] small_fs).
    constructor; [exact small_op|reflexivity|reflexivity|vm_compute; lia|vm_compute; lia].
  - cbn beta. intros b s' [_ [[H _]|[H _]]]; [left; exact H|right; exact H].
Defined.

Lemma bfree_clears_mark_witness :
  returns (bfree ROOTDEV 50 small_fs) (fun _ s' => exists V',
    op ROOTDEV 2 V' ∅ [46] 1 sh s' /\ used sb2 V' 50 = false) /\
  bfree ROOTDEV 60 small_fs = Panic "freeing free block".
Proof.
  split.
  - pose proof (bfree_clears_mark ROOTDEV 2 1 sh (disk_read small_disk) ∅ [] small_fs 50 small_op eq_refl
      ltac:(vm_compute; lia) ltac:(vm_compute; lia)) as H.
    assert (Hu : used (k_sb small_fs) (disk_read small_disk) 50 = true) by (vm_compute; reflexivity).
    rewrite Hu in H. eapply returns_mono; [exact H|]. cbn beta. intros u s' (V' & Hop & _ & _ & Hm).
    exists V'. split; [exact Hop|]. change sb2 with (k_sb small_fs). rewrite Hm. reflexivity.
  - pose proof (bfree_clears_mark ROOTDEV 2 1 sh (disk_read small_disk) ∅ [] small_fs 60 small_op eq_refl
      ltac:(vm_compute; lia) ltac:(vm_compute; lia)) as H.
    assert (Hu : used (k_sb small_fs) (disk_read small_disk) 60 = false) by (vm_compute; reflexivity).
    rewrite Hu in H. exact H.
Defined.

(** Every entry but 3 is the zero inode. *)
Lemma small_table i ip : k_itable small_fs !! i = Some ip -> (i = 3%nat /\ ip = small_inode) \/ ip = zero_inode.
Proof.
  intros Hi. change (k_itable small_fs) with (<[3%nat := small_inode]> (replicate NINODE zero_inode)) in Hi.
  apply list_lookup_insert_Some in Hi as [(<- & <- & _)|[_ Hi]]; [by left|].
  right. by apply lookup_replicate in Hi as [-> _].
Qed.

Lemma small_table_wf : it_wf small_fs.
Proof.
  constructor; [vm_compute; reflexivity| |].
  - intros i ip Hi. destruct (small_table _ _ Hi) as [[_ ->]| ->]; done.
  - intros i j ip jp dev inum Hi Hj H1 H2.
    destruct (small_table _ _ Hi) as [[-> ->]| ->]; [|done].
    destruct (small_table _ _ Hj) as [[-> ->]| ->]; done.
Qed.

Lemma iget_one_entry_witness :
  match iget ROOTDEV 5 small_fs with
  | Ret i s' => it_wf s' /\ exists ip', k_itable s' !! i = Some ip' /\ i_ref ip' = 2
  | _ => False
  end.
Proof.
  pose proof (iget_one_entry ROOTDEV 5 small_fs small_table_wf (not_elem_of_nil LItable)) as H.
  destruct (iget ROOTDEV 5 small_fs) as [i s'|m|s' k| |].
  - destruct H as [Hw (ip & ip' & Hi & Hs & _ & H)]. split; [exact Hw|]. exists ip'. rewrite Hs. split.
    + cbn [k_itable set_k_itable]. rewrite list_lookup_insert_eq; [reflexivity|].
      exact (lookup_lt_Some _ _ _ Hi).
    + destruct H as [[Hh ->]|(_ & _ & _ & Hn)].
      * destruct (small_table _ _ Hi) as [[_ ->]| ->]; [reflexivity|discriminate Hh].
      * specialize (Hn 3%nat small_inode eq_refl). discriminate Hn.
  - specialize (H 3%nat small_inode eq_refl). destruct H as [_ H]. discriminate H.
  - exact H.
  - exact H.
  - exact H.
Defined.

Lemma small_inode_ok : dinode_ok (inode_dinode small_inode).
Proof.
  unfold small_inode. constructor; cbn [inode_dinode di_type di_major di_minor di_nlink di_size di_addrs
    i_type i_major i_minor i_nlink i_size i_addrs]; unfold is_s16, is_u32, T_FILE; [lia..|reflexivity|].
  repeat (apply Forall_cons; split; [lia|]). apply Forall_nil. done.
Qed.

Lemma iupdate_ilock_roundtrip_witness :
  returns (iupdate 3 small_fs) (fun _ s' => exists V' blks',
    op ROOTDEV 2 V' ∅ blks' 1 sh s' /\ di_size (disk_inode sb2 V' 5) = 13000 /\
    disk_inode sb2 V' 6 = disk_inode sb2 (disk_read small_disk) 6).
Proof.
  eapply returns_mono.
  - apply (iupdate_ilock_roundtrip ROOTDEV 2 1 sh (disk_read small_disk) ∅ [] small_fs 3 small_inode small_op);
      [reflexivity|reflexivity|exact small_inode_ok|reflexivity|vm_compute; lia|vm_compute; lia].
  - cbn beta. intros u s' (V' & blks' & Hop & _ & Hd & _). exists V', blks'. split; [exact Hop|].
    change sb2 with (k_sb small_fs). rewrite !Hd. split; reflexivity.
Defined.

Lemma small_trunc_pre : trunc_pre ROOTDEV 46 (disk_read small_disk) ∅ [] (k_sb small_fs) small_inode.
Proof.
  constructor; try reflexivity; try (vm_compute; lia).
  - intros b Hb. rewrite small_file_blocks in Hb. rewrite !elem_of_cons in Hb.
    destruct Hb as [->|[->|[->|Hb]]]; [..|by apply not_elem_of_nil in Hb];
      (split; [reflexivity|split; [vm_compute; reflexivity|split; [discriminate|reflexivity]]]).
  - rewrite small_file_blocks. repeat (constructor; [rewrite ?not_elem_of_cons; naive_solver lia || set_solver|]).
    constructor.
Qed.

Lemma itrunc_frees_file_witness :
  returns (itrunc 3 small_fs) (fun _ s' => exists V' blks',
    op ROOTDEV 2 V' ∅ blks' 1 sh s' /\
    used sb2 V' 50 = false /\ used sb2 V' 51 = false /\ used sb2 V' 52 = false /\ used sb2 V' 40 = true).
Proof.
  eapply returns_mono.
  - apply (itrunc_frees_file ROOTDEV 2 1 sh 46 (disk_read small_disk) ∅ [] small_fs 3 small_inode
      small_op eq_refl small_trunc_pre small_inode_ok).
  - cbn beta. rewrite small_file_blocks. intros u s' (V' & blks' & Hop & _ & _ & _ & Hm & _).
    exists V', blks'. split; [exact Hop|]. change sb2 with (k_sb small_fs).
    rewrite !Hm by (vm_compute; discriminate). split_and!; vm_compute; reflexivity.
Defined.

Lemma iput_last_frees_inode_witness :
  returns (iput 3 small_fs) (fun _ s' => exists V' blks',
    op ROOTDEV 2 V' ∅ blks' 1 sh s' /\ di_type (disk_inode sb2 V' 5) = 0 /\ used sb2 V' 52 = false).
Proof.
  eapply returns_mono.
  - apply (iput_last_frees_inode ROOTDEV 2 1 sh 46 (disk_read small_disk) ∅ [] small_fs 3 small_inode
      small_op eq_refl small_trunc_pre small_inode_ok); reflexivity.
  - cbn beta. rewrite small_file_blocks. intros u s' (V' & blks' & Hop & _ & _ & _ & Hm & Hd).
    exists V', blks'. split; [exact Hop|]. change sb2 with (k_sb small_fs).
    rewrite Hm, Hd by (vm_compute; discriminate). split; vm_compute; reflexivity.
Defined.

(** ** Strings and paths *)

(** Two directory-entry names: a, and b padded with zeros. *)
Lemma readable_name c : readable (c :: replicate 13 0) 14.
Proof. apply readable_length. simpl. lia. Qed.

Lemma strncmp_decides_equality_witness :
  exists r, strncmp (97 :: replicate 13 0) (98 :: replicate 13 0) 14 = Some r /\ r <> 0.
Proof.
  destruct (strncmp_decides_equality (97 :: replicate 13 0) (98 :: replicate 13 0) 14
    (readable_name 97) (readable_name 98)) as (r & Hr & H).
  exists r. split; [exact Hr|]. intros Hz. apply H in Hz. discriminate Hz.
Defined.

Lemma safestrcpy_terminates_witness :
  exists s', safestrcpy (replicate 4 1) [97; 98; 99; 100; 101; 0] 4 = Some s' /\
    cname s' 4 = [97; 98; 99].
Proof.
  destruct (safestrcpy_terminates (replicate 4 1) [97; 98; 99; 100; 101; 0] 4) as (s' & Hs & _ & Hc & _).
  - apply readable_length. simpl. lia.
  - vm_compute. lia.
  - exists s'. split; [exact Hs|]. rewrite Hc. reflexivity.
Defined.

(** The path /a//bb. *)
Lemma skipelem_visits_elements_witness :
  skipelems 8 [47; 97; 47; 47; 98; 98; 0] new_name = [[97]; [98; 98]].
Proof.
  destruct (skipelem_visits_elements [47; 97; 47; 47; 98; 98; 0] new_name 8) as [H _].
  - unfold terminated. rewrite !elem_of_cons. tauto.
  - reflexivity.
  - vm_compute. lia.
  - rewrite H. vm_compute. reflexivity.
Defined.
