(* ===== verification/MemChecks.v ===== *)
(** * Satisfiability of the memory specifications

    The theorems on the page allocator and on copy-on-write applied to a small
    memory with two free pages and one page mapped by two processes. *)

From S2P Require Import Prelude State Spinlock CString Usercopy Kalloc Pages Vm Cow Aspace Uvm Isolation.

Definition free1 : Z := 0x87ffe000.
Definition free2 : Z := 0x87fff000.
Definition root : Z := 0x87ffa000.
Definition table1 : Z := 0x87ffb000.
Definition table0 : Z := 0x87ffc000.
Definition data : Z := 0x87ffd000.

(** The entry that maps page [data] for reading at virtual address 0. *)
Definition shared_pte : Z := mkpte data (Z.lor (Z.lor PTE_V PTE_R) PTE_U).

Definition small_mem : gmap Z Z :=
  store64 (store64 (store64 (store64 (store64 (mem_write ∅ data [104; 105]) root (mkpte table1 PTE_V))
    table1 (mkpte table0 PTE_V)) table0 shared_pte) free1 free2) free2 0.

Definition small_memory : kstate :=
  set_k_refcount (<[phys2ind data := 2]> ∅)
    (set_k_freelist free1 (set_k_mem small_mem (boot 0x80020000 0x80007000 0 0 ∅))).

Lemma small_page pg :
  pg ∈ [free1; free2; root; table1; table0; data] -> is_page small_memory pg.
Proof.
  intros H. rewrite !elem_of_cons in H.
  destruct H as [->|[->|[->|[->|[->|[->|H]]]]]]; [..|by apply not_elem_of_nil in H];
    (split; [reflexivity|split; vm_compute; [discriminate|reflexivity]]).
Qed.

Lemma small_free_list : free_list [free1; free2] small_memory.
Proof.
  constructor.
  - vm_compute. discriminate.
  - split; [reflexivity|split; vm_compute; reflexivity].
  - apply NoDup_cons; split; [|apply NoDup_singleton].
    intros H%list_elem_of_singleton. discriminate H.
  - intros pg H. apply small_page. rewrite !elem_of_cons in *. tauto.
  - intros pg H. rewrite !elem_of_cons in H.
    destruct H as [->|[->|H]]; [vm_compute; reflexivity..|by apply not_elem_of_nil in H].
Qed.

Lemma small_unlocked : unlocked small_memory.
Proof. split; apply not_elem_of_nil. Qed.

Lemma kalloc_hands_out_page_witness :
  returns (kalloc small_memory) (fun a s' => a = free1 /\ free_list [free2] s' /\ refcount s' free1 = 1).
Proof.
  eapply returns_mono.
  - exact (kalloc_hands_out_page [free1; free2] small_memory small_free_list small_unlocked).
  - cbn beta. intros a s' (Ha & _ & Hf & _ & _ & Hr & _). split; [exact Ha|split; [exact Hf|exact Hr]].
Defined.

(** The shared page loses a reference and stays allocated; an address in the
    kernel is refused. *)
Lemma kfree_drops_reference_witness :
  returns (kfree data small_memory) (fun _ s' => refcount s' data = 1 /\ free_list [free1; free2] s') /\
  kfree 0x80000000 small_memory = Panic "kfree".
Proof.
  split.
  - destruct (kfree_drops_reference [free1; free2] small_memory data small_free_list small_unlocked) as [H _].
    eapply returns_mono.
    + apply H; [apply small_page; rewrite !elem_of_cons; tauto| |vm_compute; discriminate].
      rewrite !elem_of_cons. intros [H1|[H1|H1]]; [discriminate H1..|by apply not_elem_of_nil in H1].
    + cbn beta. intros u s' (_ & _ & Hr & Hf & _). split; [exact Hr|exact Hf].
  - destruct (kfree_drops_reference [free1; free2] small_memory 0x80000000 small_free_list small_unlocked) as [_ H].
    apply H. intros [_ [H1 _]]. vm_compute in H1. apply H1. reflexivity.
Defined.

Lemma kinit_frees_memory_witness :
  returns (kinit (boot 0x80020000 0x80007000 0 0 ∅)) (fun _ s' => exists fl,
    free_list fl s' /\ Z.of_nat (length fl) = 32736).
Proof.
  eapply returns_mono.
  - apply (kinit_frees_memory (boot 0x80020000 0x80007000 0 0 ∅));
      [split; vm_compute; discriminate|reflexivity|split; apply not_elem_of_nil].
  - cbn beta. intros u s' (fl & Hf & _ & _ & _ & Hn). exists fl. split; [exact Hf|]. rewrite Hn. reflexivity.
Defined.

Lemma getNumFreePages_counts_witness : getNumFreePages small_memory = Ret 2 small_memory.
Proof.
  exact (getNumFreePages_counts [free1; free2] small_memory small_free_list (not_elem_of_nil LKmem)).
Defined.

Lemma small_mapped : mapped [free1; free2] root 0 root table1 table0 shared_pte small_memory.
Proof.
  constructor; try (vm_compute; reflexivity).
  - vm_compute. split; [discriminate|reflexivity].
  - discriminate.
  - split; [reflexivity|split; reflexivity].
  - split; discriminate.
  - intros pg a Hpg Ha. left. rewrite !elem_of_cons in Hpg.
    destruct Hpg as [->|[->|H]]; [..|by apply not_elem_of_nil in H];
      destruct Ha as [->|[->| ->]]; vm_compute; discriminate.
Qed.

Lemma small_cow_entry : cow_entry small_memory shared_pte.
Proof.
  split; [reflexivity|split; [reflexivity|split; [reflexivity|split; [reflexivity|]]]].
  change (PTE2PA shared_pte) with data. apply small_page. rewrite !elem_of_cons in *. tauto.
Qed.


(** ** Address spaces *)

(** [ptable] by evaluation. *)
Definition down_ok (T : tree) (m : gmap Z Z) (k : list Z) (t j : Z) : bool :=
  let w := load64 m (t + 8 * j) in
  match T !! (j :: k) with Some t' => has w PTE_V && (PTE2PA w =? t') | None => negb (has w PTE_V) end.

Definition node_ok (T : tree) (s : kstate) (k : list Z) (t : Z) : bool :=
  (t mod PGSIZE =? 0) && (k_end s <=? t) && (t <? PHYSTOP) &&
  match k with
  | [] => true
  | j :: k' => (0 <=? j) && (j <? 512) && (length k' <=? 1)%nat && match T !! k' with Some _ => true | None => false end
  end &&
  (if (length k <=? 1)%nat then forallb (down_ok T (k_mem s) k t) (zrange 0 512) else true).

Definition ptable_ok (pt : Z) (nodes : list (list Z * Z)) (s : kstate) : bool :=
  let T : tree := list_to_map nodes in
  (KERNBASE <=? k_end s) && match T !! [] with Some r => r =? pt | None => false end &&
  bool_decide (NoDup nodes.*1) && bool_decide (NoDup nodes.*2) && forallb (fun '(k, t) => node_ok T s k t) nodes.

Lemma node_ok_spec T s k t :
  node_ok T s k t = true ->
  is_page s t /\
  (forall j k', k = j :: k' -> 0 <= j < 512 /\ (length k' <= 1)%nat /\ is_Some (T !! k')) /\
  (forall j, (length k <= 1)%nat -> 0 <= j < 512 -> down_ok T (k_mem s) k t j = true).
Proof.
  unfold node_ok. rewrite !andb_true_iff, Z.eqb_eq, Z.leb_le, Z.ltb_lt. intros ((((H1 & H2) & H3) & H4) & H5). split; [done|]. split.
  - intros j k' ->. rewrite !andb_true_iff, Z.leb_le, Z.ltb_lt, Nat.leb_le in H4. destruct H4 as (((? & ?) & ?) & ?). split_and!; [done..|].
    destruct (T !! k'); [eauto|done].
  - intros j Hk Hj. rewrite (proj2 (Nat.leb_le _ _) Hk) in H5. rewrite forallb_forall in H5. apply H5.
    apply list_elem_of_In, elem_of_zrange. done.
Qed.

Lemma ptable_ok_spec pt nodes s : ptable_ok pt nodes s = true -> ptable pt (list_to_map nodes) s.
Proof.
  unfold ptable_ok. rewrite !andb_true_iff, Z.leb_le, !bool_decide_eq_true, forallb_forall. intros ((((He & Hr) & Hk) & Ht) & Hn).
  assert (Hin : forall k t, (list_to_map nodes : tree) !! k = Some t -> (k, t) ∈ nodes) by (intros k t; by apply elem_of_list_to_map_2).
  assert (Hok : forall k t, (list_to_map nodes : tree) !! k = Some t -> node_ok (list_to_map nodes) s k t = true).
  { intros k t H%Hin%list_elem_of_In. by apply (Hn (k, t)). }
  constructor.
  - done.
  - destruct (list_to_map nodes !! []); [|done]. by apply Z.eqb_eq in Hr as ->.
  - intros k t H. by apply (node_ok_spec (list_to_map nodes) s k t), Hok.
  - intros k k' t H H'. apply Hin, list_elem_of_lookup in H as [i Hi]. apply Hin, list_elem_of_lookup in H' as [i' Hi'].
    assert (i = i') as <-; [|congruence]. eapply NoDup_lookup; [exact Ht|by rewrite list_lookup_fmap, Hi|by rewrite list_lookup_fmap, Hi'].
  - intros j k t H. destruct (node_ok_spec _ _ _ _ (Hok _ _ H)) as (_ & Hu & _). by apply Hu.
  - intros k t j H Hl Hj. destruct (node_ok_spec _ _ _ _ (Hok _ _ H)) as (_ & _ & Hd). specialize (Hd j Hl Hj). unfold down_ok in Hd.
    destruct (_ !! (j :: k)); [|by apply negb_true_iff]. apply andb_true_iff in Hd as [H1 H2]. split; [done|]. by apply Z.eqb_eq.
Qed.

(** A process with one page of memory, and the empty root of its child. *)
Definition child_root : Z := 0x87ff9000.
Definition child1 : Z := 0x87ff8000.
Definition child0 : Z := 0x87ff7000.
Definition rw_pte : Z := mkpte data (Z.lor (Z.lor (Z.lor PTE_V PTE_R) PTE_W) PTE_U).
Definition parent_nodes : list (list Z * Z) := [([], root); ([0], table1); ([0; 0], table0)].
Definition child_nodes : list (list Z * Z) := [([], child_root); ([0], child1); ([0; 0], child0)].

Definition before_fork : kstate :=
  set_k_refcount (<[phys2ind data := 1]> ∅) (set_k_mem (store64 small_mem table0 rw_pte) small_memory).

(** Parent and child after a fork, with two pages left. *)
Definition after_fork : kstate :=
  set_k_mem (store64 (store64 (store64 small_mem child_root (mkpte child1 PTE_V)) child1 (mkpte child0 PTE_V)) child0 shared_pte) small_memory.

Definition parent_tree : tree := list_to_map parent_nodes.
Definition new_tree : tree := list_to_map [([], child_root)].
Definition child_tree : tree := list_to_map child_nodes.

Lemma two_free_list s :
  k_end s = k_end small_memory -> k_freelist s = free1 -> load64 (k_mem s) free1 = free2 -> load64 (k_mem s) free2 = 0 ->
  refcount s free1 = 0 -> refcount s free2 = 0 -> free_list [free1; free2] s.
Proof.
  intros He Hf H1 H2 R1 R2. pose proof small_free_list as [H3 _ H5 H6 _]. constructor; [by rewrite He|by split_and!|done| |].
  - intros pg Hpg. unfold is_page. rewrite He. by apply H6.
  - intros pg Hpg. rewrite !elem_of_cons in Hpg. destruct Hpg as [->|[->|H]]; [done|done|by apply not_elem_of_nil in H].
Qed.

Definition apart (l l' : list Z) : bool := bool_decide (Forall (fun t => t ∉ l') l).

Lemma apart_spec l l' t : apart l l' = true -> t ∈ l -> t ∉ l'.
Proof. unfold apart. rewrite bool_decide_eq_true, Forall_forall. auto. Qed.

Lemma nodes_separate (l l' : list (list Z * Z)) (k k' : list Z) (t : Z) :
  apart l.*2 l'.*2 = true -> (list_to_map l : tree) !! k = Some t -> (list_to_map l' : tree) !! k' = Some t -> False.
Proof.
  intros Hd H1%elem_of_list_to_map_2 H2%elem_of_list_to_map_2.
  apply (apart_spec _ _ t Hd); apply list_elem_of_fmap; [by exists (k, t)|by exists (k', t)].
Qed.

Lemma nodes_not_free (l : list (list Z * Z)) fl : apart l.*2 fl = true -> not_free (list_to_map l) fl.
Proof.
  intros Hd k t H%elem_of_list_to_map_2 Hin. apply (apart_spec _ _ t Hd); [|done]. apply list_elem_of_fmap. by exists (k, t).
Qed.

Lemma spaces_by_nodes l l' pt pt' s :
  ptable_ok pt l s = true -> ptable_ok pt' l' s = true -> apart l.*2 l'.*2 = true ->
  apart l.*2 [free1; free2] = true -> apart l'.*2 [free1; free2] = true ->
  free_list [free1; free2] s -> unlocked s -> spaces [free1; free2] pt (list_to_map l) pt' (list_to_map l') s.
Proof.
  intros H1 H2 H3 H4 H5 Hf Hu. constructor; [by apply ptable_ok_spec|by apply ptable_ok_spec|done|done|by apply nodes_not_free|by apply nodes_not_free|].
  intros k k' t. by apply nodes_separate.
Qed.

Lemma before_fork_spaces : spaces [free1; free2] root parent_tree child_root new_tree before_fork.
Proof.
  apply spaces_by_nodes; [vm_compute; reflexivity..| |split; apply not_elem_of_nil].
  apply two_free_list; vm_compute; reflexivity.
Qed.

Lemma after_fork_spaces : spaces [free1; free2] root parent_tree child_root child_tree after_fork.
Proof.
  apply spaces_by_nodes; [vm_compute; reflexivity..| |split; apply not_elem_of_nil].
  apply two_free_list; vm_compute; reflexivity.
Qed.

Lemma first_page va : upage PGSIZE va -> va = 0.
Proof. intros [H1 H2]. unfold PGSIZE in *. rewrite Z.mod_small in H2; lia. Qed.

Lemma data_is_data l l' s :
  k_end s = k_end small_memory -> apart [data] (l.*2 ++ l'.*2) = true -> 1 <= refcount s data ->
  data_page [free1; free2] (list_to_map l) (list_to_map l') s data.
Proof.
  intros He Ha Hr. pose proof (apart_spec _ _ data Ha ltac:(by left)) as Hd. constructor.
  - unfold is_page. rewrite He. apply small_page. rewrite !elem_of_cons. tauto.
  - rewrite !elem_of_cons. intros [H1|[H1|H1]]; [discriminate H1..|by apply not_elem_of_nil in H1].
  - intros k H%elem_of_list_to_map_2. apply Hd, elem_of_app. left. apply list_elem_of_fmap. by exists (k, data).
  - intros k H%elem_of_list_to_map_2. apply Hd, elem_of_app. right. apply list_elem_of_fmap. by exists (k, data).
  - done.
Qed.

Lemma uvmcopy_shares_witness :
  returns (uvmcopy root child_root PGSIZE before_fork) (fun e s' => exists T,
    ubyte parent_tree s' 1 = Some 105 /\
    if e =? 0 then ubyte T s' 1 = Some 105 /\ refcount s' data = 2 else e = -1 /\ refcount s' data = 1).
Proof.
  assert (Hr : fork_ready [free1; free2] root parent_tree child_root new_tree PGSIZE before_fork).
  { constructor.
    - apply before_fork_spaces.
    - unfold PGSIZE, MAXVA. split; vm_compute; discriminate.
    - intros va ->%first_page. vm_compute. reflexivity.
    - intros va ->%first_page _. replace (PTE2PA _) with data by (vm_compute; reflexivity). apply data_is_data; vm_compute; reflexivity || discriminate. }
  assert (Hso : sole parent_tree PGSIZE before_fork).
  { constructor.
    - intros pg Hal. unfold mappings. change (zstep 0 PGSIZE PGSIZE) with [0]. rewrite filter_cons, filter_nil.
      case_decide as E; [|simpl; lia]. destruct E as [_ <-]. vm_compute. discriminate.
    - intros va ->%first_page _ _. vm_compute. reflexivity. }
  eapply returns_mono; [exact (uvmcopy_shares _ _ _ _ _ _ _ Hr Hso)|].
  cbn beta. intros e s' (used & fl' & T & Hfl & _ & _ & Hp & _ & He). exists T.
  assert (Hb : ubyte parent_tree before_fork 1 = Some 105) by (vm_compute; reflexivity).
  assert (Hd : data ∉ used).
  { intros H. assert (Hin : data ∈ [free1; free2]) by (rewrite Hfl; apply elem_of_app; by left).
    rewrite !elem_of_cons in Hin. destruct Hin as [H1|[H1|H1]]; [discriminate H1..|by apply not_elem_of_nil in H1]. }
  split; [rewrite Hp; [exact Hb|unfold PGSIZE; lia]|]. destruct (e =? 0).
  - destruct He as (_ & _ & Hc & Href). split; [rewrite Hc; [exact Hb|unfold PGSIZE; lia]|]. rewrite Href; [vm_compute; reflexivity|reflexivity|exact Hd].
  - destruct He as (H1 & _ & _ & Href). split; [exact H1|]. rewrite Href; [vm_compute; reflexivity|reflexivity|exact Hd].
Defined.

(** The parent writes two bytes: it sees them, the child still sees the old ones. *)
Lemma copyout_isolated_witness :
  returns (copyout root 0 [120; 121] after_fork) (fun e s' => ubyte child_tree s' 1 = Some 105 /\
    (e = 0 /\ ubyte parent_tree s' 1 = Some 121 \/ e = -1)).
Proof.
  assert (Hi : isolated [free1; free2] root parent_tree child_root child_tree PGSIZE after_fork).
  { constructor.
    - apply after_fork_spaces.
    - unfold PGSIZE, MAXVA. split; vm_compute; discriminate.
    - intros va ->%first_page _. replace (PTE2PA _) with data by (vm_compute; reflexivity). apply data_is_data; vm_compute; reflexivity || discriminate.
    - intros va ->%first_page _. replace (PTE2PA _) with data by (vm_compute; reflexivity). apply data_is_data; vm_compute; reflexivity || discriminate.
    - intros pg Hal. destruct (decide (pg = data)) as [->|Hne]; [vm_compute; discriminate|].
      assert (E1 : PTE2PA (entry parent_tree after_fork 0) = data) by (vm_compute; reflexivity).
      assert (E2 : PTE2PA (entry child_tree after_fork 0) = data) by (vm_compute; reflexivity).
      unfold mappings. change (zstep 0 PGSIZE PGSIZE) with [0]. rewrite !filter_cons, !filter_nil, E1, E2.
      rewrite !decide_False by naive_solver. cbn [length Z.of_nat]. lia.
    - intros va ->%first_page _ H. vm_compute in H. discriminate H.
    - intros va ->%first_page _ H. vm_compute in H. discriminate H. }
  eapply returns_mono.
  - apply (copyout_isolated _ _ _ _ _ _ _ 0 [120; 121] Hi); [lia|unfold PGSIZE; simpl; lia|].
    intros va [->%first_page _]. split; [vm_compute; reflexivity|]. split; [vm_compute; reflexivity|right; vm_compute; reflexivity].
  - cbn beta. intros e s' (n & fl' & _ & _ & He & Ha & Hb). split; [rewrite Hb by (unfold PGSIZE; lia); vm_compute; reflexivity|].
    destruct He as [[-> ->]|[-> _]]; [left|right; reflexivity]. split; [reflexivity|]. rewrite Ha by (unfold PGSIZE; lia). reflexivity.
Defined.
