(* ===== verification/PipeChecks.v ===== *)
(** * Satisfiability of the pipe specifications

    A user memory that is byte memory itself, and a pipe whose counters are
    about to wrap around. *)

From S2P Require Import Prelude State Spinlock CString Sysargs Proc ReadyQueue Sleeping Kalloc Usercopy Pipe PipeQueue Sleeplock Bio BufferCache Log Wal Transaction Scenario.

#[local] Existing Instance flat_usercopy.

(** A pipe that holds two bytes, its write counter at the last value. *)
Definition old_pipe : pipe :=
  mkPipe (replicate 509 0 ++ [7; 8; 0]) (2 ^ 32 - 3) (2 ^ 32 - 1) true true.

Definition hello : list Z := [104; 105].

Definition with_pipe : kstate :=
  set_k_pipes {[ 0x87fff000 := old_pipe ]} (set_k_mem (mem_write ∅ 4096 hello) (machine ∅)).

Lemma with_pipe_running : running 1 sh [] with_pipe.
Proof. apply (running_ext _ _ _ (machine ∅)); try reflexivity. apply machine_running. Qed.

Lemma old_pipe_wf : pipe_wf old_pipe.
Proof.
  constructor; [vm_compute; reflexivity|..|vm_compute; discriminate];
    vm_compute; (split; [discriminate|reflexivity]).
Qed.

Lemma pipewrite_appends_witness :
  returns (pipewrite 0x87fff000 4096 2 with_pipe) (fun r s' => r = 2 /\ exists x',
    k_pipes s' !! 0x87fff000 = Some x' /\ queue x' = [7; 8; 104; 105]).
Proof.
  set (J := fun s : kstate => k_mem s = mem_write ∅ 4096 hello).
  assert (HJs : forall s s', same_user s s' -> J s -> J s').
  { intros s s' (Hm & _) H. unfold J. rewrite Hm. exact H. }
  assert (HJc : forall i b s, hello !! i = Some b -> J s ->
    returns (ucopyin (p_pagetable sh) (u64 (4096 + Z.of_nat i)) 1 s) (fun r s' => r = (0, [b]) /\ J s')).
  { intros i b s Hi HJ. unfold J in HJ. simpl. rewrite HJ.
    destruct i as [|[|i]]; [| |discriminate Hi]; injection Hi as <-; (split; [vm_compute; reflexivity|exact HJ]). }
  eapply returns_mono.
  - apply (pipewrite_appends (p_pagetable sh) 4096 hello J HJs HJc 1 sh 0x87fff000 old_pipe with_pipe);
      [exact with_pipe_running|reflexivity|reflexivity|reflexivity|exact old_pipe_wf|reflexivity|reflexivity|].
    vm_compute. discriminate.
  - cbn beta. intros r s' (Hr & _ & _ & x' & Hx & _ & Hq). split; [exact Hr|]. exists x'.
    split; [exact (pipe_is_lookup _ _ _ _ Hx)|]. rewrite Hq. vm_compute. reflexivity.
Defined.

