(* ===== verification/ContentChecks.v ===== *)
(** * Satisfiability of the specifications of file contents

    A file of five bytes on a concrete disk, read into user memory and
    overwritten and extended from kernel memory. *)

From S2P Require Import Prelude State Spinlock CString Sysargs Proc ReadyQueue Sleeplock Sleeping Bio BufferCache Log Wal Transaction Usercopy Fs Bitmap Inodes Truncate Content ReadWrite Scenario.

#[local] Existing Instance flat_usercopy.

(** Blocks 0-47 and 50 are in use; block 50 begins with hello. *)
Definition marks : list Z := replicate 6 255 ++ [4] ++ replicate (Z.to_nat BSIZE - 7) 0.
Definition hello_block : list Z := [104; 101; 108; 108; 111] ++ replicate (Z.to_nat BSIZE - 5) 0.
Definition hello_disk : gmap Z (list Z) := <[46 := marks]> (<[50 := hello_block]> ∅).

Lemma hello_disk_ok : map_Forall (fun _ bs => length bs = Z.to_nat BSIZE) hello_disk.
Proof.
  apply map_Forall_insert_2; [vm_compute; reflexivity|].
  apply map_Forall_insert_2; [vm_compute; reflexivity|apply map_Forall_empty].
Qed.

Definition hello_inode : inode :=
  mkInode ROOTDEV 5 1 zero_slock true T_FILE 0 0 1 5 (50 :: replicate 12 0).

(** The two bytes to be written, in the kernel's memory. *)
Definition two : list Z := [88; 89].
Definition hello_fs : kstate :=
  set_k_mem (mem_write ∅ 8192 two)
    (set_k_itable (<[3%nat := hello_inode]> (k_itable (in_op hello_disk))) (in_op hello_disk)).

Lemma hello_op : op ROOTDEV 2 (disk_read hello_disk) ∅ [] 1 sh hello_fs.
Proof.
  apply (op_ext _ _ _ _ _ _ _ (in_op hello_disk)); try reflexivity.
  apply in_op_op. exact hello_disk_ok.
Qed.

Notation V0 := (disk_read hello_disk).

Lemma hello_direct :
  Forall (fun bn => i_addrs hello_inode !!! Z.to_nat bn = if bn =? 0 then 50 else 0) (zrange 0 NDIRECT).
Proof. repeat (constructor; [vm_compute; reflexivity|]). constructor. Qed.

Lemma hello_addr bn : 0 <= bn < MAXFILE -> blk_addr V0 hello_inode bn = if bn =? 0 then 50 else 0.
Proof.
  intros Hbn. unfold blk_addr. destruct (Z.ltb_spec bn NDIRECT) as [Hd|Hd].
  - pose proof hello_direct as Hf. rewrite Forall_forall in Hf. apply Hf. apply elem_of_zrange. lia.
  - change (indirect hello_inode) with 0. unfold NDIRECT in Hd. by rewrite (proj2 (Z.eqb_neq bn 0)) by lia.
Qed.

Lemma hello_owns a : owns V0 hello_inode a -> a = 50.
Proof.
  intros [Ha [->|(bn & Hbn & <-)]]; [by destruct Ha|]. rewrite hello_addr in * by done.
  by destruct (bn =? 0).
Qed.

Lemma hello_free : Forall (fun b => used sb2 V0 b = true \/ 48 <= b) (zrange 0 48).
Proof. repeat (constructor; [left; vm_compute; reflexivity|]). constructor. Qed.

Lemma hello_file_ok : file_ok ROOTDEV 46 V0 ∅ sb2 hello_inode.
Proof.
  constructor; try reflexivity.
  - intros a ->%hello_owns. split_and!; [done|done|vm_compute; reflexivity|reflexivity|done|vm_compute; discriminate].
  - intros i j Hi Hj. rewrite !hello_addr by done. destruct (Z.eqb_spec i 0), (Z.eqb_spec j 0); done || lia.
  - intros i Hi. rewrite hello_addr by done. by destruct (i =? 0).
  - intros b Hb. unfold BBLOCK. rewrite Z.div_small; [done|]. change (sb_size sb2) with 2000 in Hb.
    change BPB with 8192. lia.
  - intros b Hb Hu. assert (Hge : 48 <= b).
    { destruct (Z.lt_ge_cases b 48) as [Hlt|]; [|done]. pose proof hello_free as Hf. rewrite Forall_forall in Hf.
      destruct (Hf b) as [E|]; [apply elem_of_zrange; lia|congruence|done]. }
    change (sb_size sb2) with 2000 in Hb. change (IBLOCK (i_inum hello_inode) sb2) with 33.
    split_and!; [reflexivity|lia|lia|lia|change (2 ^ 32) with 4294967296; lia].
  - discriminate.
Qed.

Lemma hello_dinode_ok : dinode_ok (inode_dinode hello_inode).
Proof.
  unfold hello_inode. constructor; cbn [inode_dinode di_type di_major di_minor di_nlink di_size di_addrs
    i_type i_major i_minor i_nlink i_size i_addrs]; unfold is_s16, is_u32, T_FILE; [lia..|reflexivity|].
  repeat (apply Forall_cons; split; [lia|]). apply Forall_nil. done.
Qed.

(** ** Reading into user memory *)

(** The bytes [bs] are at user address 4096, as long as they fit below 2^20. *)
Definition arrived (bs : list Z) (s : kstate) : Prop :=
  Z.of_nat (length bs) <= 2 ^ 20 -> mem_read (k_mem s) 4096 (length bs) = bs.

Lemma arrived_same bs s s' : same_user s s' -> arrived bs s -> arrived bs s'.
Proof. intros (Hm & _) H. unfold arrived. by rewrite Hm. Qed.

Lemma arrived_copyout bs d s :
  running 1 sh [] s -> arrived bs s ->
  returns (either_copyout true (u64 (4096 + Z.of_nat (length bs))) d s) (fun r s' => r = 0 /\ arrived (bs ++ d) s').
Proof.
  intros Hrun H. unfold either_copyout, myproc. mred. rewrite (run_cur _ _ _ _ Hrun). mred.
  rewrite (get_proc_eq _ 1 sh) by apply Hrun. mred. split; [done|]. intros Hl. rewrite length_app in *.
  change (2 ^ 20) with 1048576 in Hl. unfold u64. rewrite Z.mod_small by (change (2 ^ 64) with 18446744073709551616; lia).
  cbn [k_mem set_k_mem]. rewrite mem_read_app, mem_read_write_same. f_equal.
  rewrite mem_read_write_disjoint by lia. apply H. change (2 ^ 20) with 1048576. lia.
Qed.


(** ** Writing from kernel memory *)

(** The bytes to be written are still where they were. *)
Definition source (s : kstate) : Prop := k_mem s = mem_write ∅ 8192 two.

Lemma source_same s s' : same_user s s' -> source s -> source s'.
Proof. intros (Hm & _) H. unfold source. by rewrite Hm. Qed.

Lemma mem_read_slice m a bs k n :
  mem_read m a (length bs) = bs -> (k + n <= length bs)%nat -> mem_read m (a + Z.of_nat k) n = slice bs k n.
Proof.
  intros E Hk. unfold slice. rewrite <- E at 1. replace (length bs) with (k + (n + (length bs - k - n)))%nat by lia.
  rewrite !mem_read_app, drop_app_length', take_app_length'; [done|..]; by rewrite length_mem_read.
Qed.

Lemma source_copyin k m s :
  0 <= k -> 0 <= m -> k + m <= Z.of_nat (length two) -> running 1 sh [] s -> source s ->
  returns (either_copyin false (u64 (8192 + k)) m s) (fun r s' =>
    r = (0, slice two (Z.to_nat k) (Z.to_nat m)) /\ source s').
Proof.
  intros Hk Hm Hl _ H. cbn in Hl. unfold either_copyin, kread. mred. split; [|done]. rewrite H. f_equal.
  unfold u64. rewrite Z.mod_small by (change (2 ^ 64) with 18446744073709551616; lia).
  rewrite <- (Z2Nat.id k Hk) at 1. apply mem_read_slice; [vm_compute; reflexivity|]. cbn. lia.
Qed.

Lemma writei_replaces_witness :
  returns (writei 3 false 8192 4 2 hello_fs) (fun r s' => exists V' ip',
    k_itable s' !! 3%nat = Some ip' /\ (r = 2 \/ disk_full sb2 V') /\
    (r = 2 -> i_size ip' = 6 /\ file_bytes V' ip' 0 6 = [104; 101; 108; 108; 88; 89])).
Proof.
  eapply returns_mono.
  - apply (writei_replaces ROOTDEV 2 1 sh 46 ∅ false 8192 two source source_same source_copyin V0 [] hello_fs 3 hello_inode 4).
    + exact hello_op.
    + reflexivity.
    + exact hello_file_ok.
    + exact hello_dinode_ok.
    + vm_compute. discriminate.
    + lia.
    + reflexivity.
    + lia.
    + reflexivity.
    + intros _. vm_compute. lia.
  - cbn beta. intros r s' (_ & _ & V' & blks' & ip' & _ & Hw).
    destruct Hw as [Hc Hit Hs _ Hb _ _ Ha]. exists V', ip'. split_and!.
    + rewrite Hit. reflexivity.
    + exact Ha.
    + intros ->. split; [rewrite Hs; reflexivity|]. unfold file_bytes.
      transitivity (overwritten (byte_at V0 hello_inode) 4 two <$> zrange 0 6); [|vm_compute; reflexivity].
      apply list_fmap_ext. intros _ o Ho%list_elem_of_lookup_2%elem_of_zrange. apply Hb.
      change (MAXFILE * BSIZE) with 274432. lia.
Defined.
