(* ===== verification/PathChecks.v ===== *)
(** * Satisfiability of the specifications of path names and symbolic links

    A root directory with a file b and a symbolic link a to /b. *)

From S2P Require Import Prelude State Spinlock CString Sysargs Proc ReadyQueue Sleeplock Sleeping Bio BufferCache Log Wal Transaction Usercopy Fs Bitmap Inodes Truncate Content ReadWrite Icache Dir Path Namei Sysfile Symlink Scenario.

#[local] Existing Instance flat_usercopy.

(** Inode 1 is the root, 2 the link, 3 the file. *)
Definition root_dinode : dinode := mkDinode T_DIR 0 0 1 64 (50 :: replicate 12 0).
Definition link_dinode : dinode := mkDinode T_SYMLINK 0 0 1 2 (51 :: replicate 12 0).
Definition file_dinode : dinode := mkDinode T_FILE 0 0 1 0 (replicate 13 0).

Definition dname (c : list Z) : list Z := c ++ replicate (14 - length c) 0.
Definition root_block : list Z :=
  mk_dirent 1 (dname [46]) ++ mk_dirent 1 (dname [46; 46]) ++ mk_dirent 2 (dname [97]) ++ mk_dirent 3 (dname [98]) ++
  replicate (Z.to_nat BSIZE - 64) 0.
Definition inode_block : list Z :=
  Eval vm_compute in block_set_dinode (block_set_dinode (block_set_dinode zero_block 1 root_dinode) 2 link_dinode) 3 file_dinode.
Definition link_block : list Z := [SLASH; 98] ++ replicate (Z.to_nat BSIZE - 2) 0.
Definition link_disk : gmap Z (list Z) := <[33 := inode_block]> (<[50 := root_block]> (<[51 := link_block]> ∅)).

Lemma link_disk_ok : map_Forall (fun _ bs => length bs = Z.to_nat BSIZE) link_disk.
Proof.
  apply map_Forall_insert_2; [vm_compute; reflexivity|].
  apply map_Forall_insert_2; [vm_compute; reflexivity|].
  apply map_Forall_insert_2; [vm_compute; reflexivity|apply map_Forall_empty].
Qed.

Notation V1 := (disk_read link_disk).

(** The root is the current directory, at entry 0; the link is locked at entry 3. *)
Definition root_entry : inode := mkInode ROOTDEV 1 1 zero_slock false 0 0 0 0 0 [].
Definition link_entry : inode := mkInode ROOTDEV 2 1 (mkSlock true 2) true T_SYMLINK 0 0 1 2 (51 :: replicate 12 0).
Definition idle_fs : kstate := set_k_itable (<[0%nat := root_entry]> (replicate NINODE zero_inode)) (in_op link_disk).
Definition link_fs : kstate :=
  set_k_itable (<[0%nat := root_entry]> (<[3%nat := link_entry]> (replicate NINODE zero_inode))) (in_op link_disk).

Lemma idle_op : op ROOTDEV 2 V1 ∅ [] 1 sh idle_fs.
Proof. apply op_itable, in_op_op. exact link_disk_ok. Qed.
Lemma link_op : op ROOTDEV 2 V1 ∅ [] 1 sh link_fs.
Proof. apply op_itable, in_op_op. exact link_disk_ok. Qed.

Lemma idle_table i ip : k_itable idle_fs !! i = Some ip -> (i = 0%nat /\ ip = root_entry) \/ ip = zero_inode.
Proof.
  intros [(<- & <- & _)|[_ Hi]]%list_lookup_insert_Some; [by left|]. right. by apply lookup_replicate in Hi as [-> _].
Qed.
Lemma link_table i ip :
  k_itable link_fs !! i = Some ip -> (i = 0%nat /\ ip = root_entry) \/ (i = 3%nat /\ ip = link_entry) \/ (ip = zero_inode /\ i <> 3%nat).
Proof.
  intros [(<- & <- & _)|[_ Hi]]%list_lookup_insert_Some; [by left|]. right.
  apply list_lookup_insert_Some in Hi as [(<- & <- & _)|[Hne Hi]]; [by left|]. right. apply lookup_replicate in Hi as [-> _]. done.
Qed.

Lemma link_node : disk_inode sb2 V1 2 = link_dinode.
Proof. vm_compute. reflexivity. Qed.

Lemma idle_icache : icache ROOTDEV sh V1 None idle_fs.
Proof.
  constructor.
  - constructor; [vm_compute; reflexivity| |].
    + intros i ip Hi. destruct (idle_table _ _ Hi) as [[_ ->]| ->]; done.
    + intros i j ip jp dev n Hi Hj H1 H2. destruct (idle_table _ _ Hi) as [[-> ->]| ->]; [|done].
      destruct (idle_table _ _ Hj) as [[-> ->]| ->]; done.
  - intros i ip Hi. destruct (idle_table _ _ Hi) as [[_ ->]| ->]; done.
  - intros i ip Hi. destruct (idle_table _ _ Hi) as [[_ ->]| ->]; done.
  - intros i ip Hi. destruct (idle_table _ _ Hi) as [[_ ->]| ->]; done.
  - done.
Qed.

Lemma link_icache : icache ROOTDEV sh V1 (Some 3%nat) link_fs.
Proof.
  constructor.
  - constructor; [vm_compute; reflexivity| |].
    + intros i ip Hi. destruct (link_table _ _ Hi) as [[_ ->]|[[_ ->]|[-> _]]]; done.
    + intros i j ip jp dev n Hi Hj [R1 [H1 H1']]%holds_inode_spec [R2 [H2 H2']]%holds_inode_spec. subst dev n.
      destruct (link_table _ _ Hi) as [[-> ->]|[[-> ->]|[-> _]]]; destruct (link_table _ _ Hj) as [[-> ->]|[[-> ->]|[-> _]]]; done.
  - intros i ip Hi. destruct (link_table _ _ Hi) as [[_ ->]|[[_ ->]|[-> _]]]; done.
  - intros i ip Hi _ Hv. destruct (link_table _ _ Hi) as [[_ ->]|[[_ ->]|[-> _]]]; [done| |done]. symmetry. exact link_node.
  - intros i ip Hi. destruct (link_table _ _ Hi) as [[-> ->]|[[-> ->]|[-> Hne]]]; [done|done|]. rewrite decide_False by congruence. done.
  - intros i [= <-]. exists link_entry. by split_and!.
Qed.

(** ** The tree *)

Definition live3 (n : Z) : Prop := n = 1 \/ n = 2 \/ n = 3.

Lemma root_offsets off : List.In off (zstep 0 64 SIZEOF_DIRENT) -> off = 0 \/ off = 16 \/ off = 32 \/ off = 48.
Proof. vm_compute. intuition. Qed.

Lemma root_children : Forall (fun off => de_inum (entry_at V1 (node ROOTDEV sb2 V1 1) off) ∈ [1; 2; 3]) [0; 16; 32; 48].
Proof. repeat (constructor; [vm_compute; set_solver|]). constructor. Qed.

Lemma node_present n : live3 n -> Forall (fun o => blk_addr V1 (node ROOTDEV sb2 V1 n) o = if n =? 3 then 0 else if o =? 0 then n + 49 else 0) [0].
Proof. intros [->|[->| ->]]; (constructor; [vm_compute; reflexivity|constructor]). Qed.

Lemma node_readable n : live3 n -> file_readable ROOTDEV V1 ∅ (node ROOTDEV sb2 V1 n) (i_size (node ROOTDEV sb2 V1 n)).
Proof.
  intros Hn. assert (Hsz : i_size (node ROOTDEV sb2 V1 n) = if n =? 1 then 64 else if n =? 2 then 2 else 0)
    by (destruct Hn as [->|[->| ->]]; vm_compute; reflexivity).
  constructor; [done|done|done| |].
  - intros o Ho. rewrite Hsz in Ho. pose proof (Forall_inv (node_present n Hn)) as Hp.
    assert (0 <= o < 64) by (destruct (n =? 1), (n =? 2); lia). rewrite Z.div_small by (unfold BSIZE; lia). rewrite Hp.
    destruct Hn as [->|[->| ->]]; simpl in *; lia.
  - rewrite Hsz. change (MAXFILE * BSIZE) with 274432. destruct (n =? 1), (n =? 2); lia.
Qed.

Lemma link_tree : tree_ok ROOTDEV sb2 V1 ∅ live3.
Proof.
  constructor.
  - intros n [->|[->| ->]]; vm_compute; discriminate.
  - intros n [->|[->| ->]]; vm_compute; discriminate.
  - done.
  - intros n Hn Ht. constructor; [done|by apply node_readable|..]; destruct Hn as [->|[->| ->]]; vm_compute; discriminate || reflexivity.
  - intros n name n' Hn Ht Hc. assert (n = 1) as -> by (destruct Hn as [->|[->| ->]]; [done|vm_compute in Ht; discriminate..]).
    unfold child in Hc. destruct (dir_find V1 _ name) as [off|] eqn:Hf; [|done]. cbn [mbind option_bind] in Hc. injection Hc as <-.
    unfold dir_find in Hf. apply find_some in Hf as [Hin _]. assert (Hs : i_size (node ROOTDEV sb2 V1 1) = 64) by (vm_compute; reflexivity).
    rewrite Hs in Hin. apply root_offsets in Hin. pose proof (proj1 (Forall_forall _ _) root_children off ltac:(set_solver)) as H.
    simpl in H. unfold live3. set_solver.
Qed.

(** namei of /a, from the root, and of b, from the current directory. *)
Definition path_a : list Z := [SLASH; 97; 0].
Definition path_b : list Z := [98; 0].

Lemma namei_resolves_witness :
  returns (namei path_a idle_fs) (fun r s' => exists i, r = Some i /\ entry ROOTDEV 2 i s') /\
  returns (nameiparent path_b idle_fs) (fun r s' => exists i, r.1 = Some i /\ entry ROOTDEV 1 i s').
Proof.
  assert (Hroom : (nused idle_fs + 2 <= NINODE)%nat) by (vm_compute; lia).
  assert (Hbufs : (size (dom (∅ : gmap Z nat)) + length ([] : list Z) < NBUF)%nat) by (vm_compute; lia).
  split.
  - pose proof (namei_resolves ROOTDEV 2 V1 ∅ [] 1 sh idle_fs live3 idle_icache link_tree Hbufs Hroom idle_op path_a 1) as [H _].
    + by split.
    + by left.
    + unfold terminated, path_a. set_solver.
    + assert (Hw : resolve ROOTDEV (k_sb idle_fs) V1 false 1 (path_elems path_a) = Some 2) by (vm_compute; reflexivity).
      rewrite Hw in H. eapply returns_mono; [exact H|]. intros r s' (i & -> & Ha). exists i. split; [reflexivity|apply Ha].
  - pose proof (namei_resolves ROOTDEV 2 V1 ∅ [] 1 sh idle_fs live3 idle_icache link_tree Hbufs Hroom idle_op path_b 1) as [_ H].
    + exists 0%nat. split; [reflexivity|]. exists root_entry. by split.
    + by left.
    + unfold terminated, path_b. set_solver.
    + assert (Hw : resolve ROOTDEV (k_sb idle_fs) V1 true 1 (path_elems path_b) = Some 1) by (vm_compute; reflexivity).
      rewrite Hw in H. eapply returns_mono; [exact H|]. intros r s' [(i & Hr & Ha) _]. exists i. split; [exact Hr|apply Ha].
Defined.

(** Following the link a arrives at the file b. *)
Lemma follow_symlink_chases_witness :
  returns (follow_symlink 3 false link_fs) (fun r s' => exists i, r = Some i /\ entry ROOTDEV 3 i s') /\
  returns (follow_symlink 3 true link_fs) (fun r s' => exists i, r = Some i /\ entry ROOTDEV 2 i s').
Proof.
  assert (Hroom : (nused link_fs + 2 <= NINODE)%nat) by (vm_compute; lia).
  assert (Hbufs : (size (dom (∅ : gmap Z nat)) + length ([] : list Z) < NBUF)%nat) by (vm_compute; lia).
  assert (Hlinks : forall n, live3 n -> is_link ROOTDEV sb2 V1 n = true ->
    file_readable ROOTDEV V1 ∅ (node ROOTDEV sb2 V1 n) (i_size (node ROOTDEV sb2 V1 n)) /\ 0 <= i_size (node ROOTDEV sb2 V1 n)).
  { intros n Hn _. split; [by apply node_readable|]. destruct Hn as [->|[->| ->]]; vm_compute; discriminate. }
  assert (Hcwd : entry ROOTDEV 1 0 link_fs) by (exists root_entry; by split).
  assert (Hlk : locked_at 2 V1 ∅ [] 1 sh link_fs 1 0 2 link_fs 3 2).
  { constructor; [exact link_op|apply in_write_frame, op_in_frame, op_frame_refl|exact link_icache|exists link_entry; by split|exact Hcwd|].
    intros m. unfold moved. lia. }
  split.
  - pose proof (follow_symlink_chases 2 V1 ∅ [] 1 sh link_fs live3 1 0 link_tree ltac:(by left) ltac:(by left) ltac:(vm_compute; reflexivity)
      eq_refl Hlinks Hbufs Hroom 2 ltac:(by exists (Some 3%nat); exact link_icache) false 3 ltac:(by right; left) Hlk) as H.
    assert (Hc : chase ROOTDEV (k_sb link_fs) V1 1 (Z.to_nat MAX_SYMLINK_DEPTH) 2 = Some 3) by (vm_compute; reflexivity).
    cbn beta iota in H. rewrite Hc in H. eapply returns_mono; [exact H|]. intros r s' (i & -> & Ha). exists i. split; [reflexivity|apply Ha].
  - pose proof (follow_symlink_chases 2 V1 ∅ [] 1 sh link_fs live3 1 0 link_tree ltac:(by left) ltac:(by left) ltac:(vm_compute; reflexivity)
      eq_refl Hlinks Hbufs Hroom 2 ltac:(by exists (Some 3%nat); exact link_icache) true 3 ltac:(by right; left) Hlk) as H.
    eapply returns_mono; [exact H|]. intros r s' (i & -> & Ha). exists i. split; [reflexivity|apply Ha].
Defined.
