(* ===== verification/DiskChecks.v ===== *)
(** * Satisfiability of the specifications of the disk driver *)

From S2P Require Import Prelude State Spinlock CString Kalloc Pages Proc ReadyQueue Sleeplock Sleeping Bio BufferCache Virtio DiskDriver Log Wal Transaction Scenario.

(** The driver after virtio_disk_init. *)
Definition idle : vdisk :=
  mkVdisk (replicate NUM zero_desc) (mkAvail 0 (replicate NUM 0)) (mkUsed 0 (replicate NUM 0))
    (replicate NUM true) 0 (replicate NUM (mkInfo None 0)) (replicate NUM (mkReq 0 0 0)) [].

Lemma idle_driver_wf : vq_wf idle [].
Proof.
  constructor; try reflexivity.
  - done.
  - apply NoDup_nil_2.
  - intros i Hi. by apply not_elem_of_nil in Hi.
  - intros i Hi _. apply (lookup_replicate_2 NUM zero_desc i Hi).
  - intros c Hc. by apply not_elem_of_nil in Hc.
  - done.
Qed.

(** A device that answers as virtio_disk_init expects. *)
Definition good_device (r : Z) : Z :=
  if r =? VIRTIO_MMIO_MAGIC_VALUE then 0x74726976
  else if (r =? VIRTIO_MMIO_VERSION) || (r =? VIRTIO_MMIO_DEVICE_ID) then 2
  else if r =? VIRTIO_MMIO_VENDOR_ID then 0x554d4551
  else if r =? VIRTIO_MMIO_STATUS then 11
  else if r =? VIRTIO_MMIO_QUEUE_NUM_MAX then 1024
  else 0.

Lemma good_device_ok : device_ok good_device.
Proof. constructor; vm_compute; (reflexivity || discriminate). Qed.

(** Three free pages. *)
Definition page1 : Z := 0x87ffd000.
Definition page2 : Z := 0x87ffe000.
Definition page3 : Z := 0x87fff000.
Definition three_pages : kstate :=
  set_k_freelist page1
    (set_k_mem (store64 (store64 (store64 ∅ page1 page2) page2 page3) page3 0) (boot 0x80020000 0x80007000 0 0 ∅)).

Lemma three_pages_free : free_list [page1; page2; page3] three_pages.
Proof.
  constructor.
  - vm_compute. discriminate.
  - split; [reflexivity|split; [vm_compute; reflexivity|split; vm_compute; reflexivity]].
  - repeat (apply NoDup_cons; split; [rewrite ?not_elem_of_cons; vm_compute; intuition discriminate || set_solver|]). apply NoDup_nil_2.
  - intros pg H. rewrite !elem_of_cons in H.
    destruct H as [->|[->|[->|H]]]; [..|by apply not_elem_of_nil in H];
      (split; [reflexivity|split; vm_compute; [discriminate|reflexivity]]).
  - intros pg H. rewrite !elem_of_cons in H.
    destruct H as [->|[->|[->|H]]]; [vm_compute; reflexivity..|by apply not_elem_of_nil in H].
Qed.

Lemma virtio_disk_init_ready_witness :
  returns (virtio_disk_init good_device (mkV three_pages idle)) (fun _ v' => vq_wf (v_d v') [] /\ free_list [] (v_k v')).
Proof.
  eapply returns_mono.
  - apply (virtio_disk_init_ready good_device three_pages idle [] page1 page2 page3).
    + exact good_device_ok.
    + exact three_pages_free.
    + split; apply not_elem_of_nil.
    + reflexivity.
    + reflexivity.
    + reflexivity.
  - cbn beta. intros u v' (Hw & _ & Hf & _). split; [exact Hw|exact Hf].
Defined.


(** The device has completed the request on buffer 0 that starts at 2. *)
Definition one_done : vdisk :=
  set_v_used (mkUsed 1 (<[0%nat := 2]> (replicate NUM 0)))
    (set_v_info (<[2%nat := mkInfo (Some 0%nat) 0]> (replicate NUM (mkInfo None 0))) idle).

Lemma virtio_disk_intr_returns_buffers_witness :
  returns (virtio_disk_intr good_device (mkV (machine ∅) one_done)) (fun _ v' =>
    b_disk <$> k_bufs (v_k v') !! 0%nat = Some false /\ v_used_idx (v_d v') = 1).
Proof.
  eapply returns_mono.
  - apply (virtio_disk_intr_returns_buffers good_device (machine ∅) one_done [0%nat] 1 sh).
    + apply machine_running.
    + done.
    + done.
    + reflexivity.
    + intros [|k] Hk; [reflexivity|]. cbn in Hk. lia.
    + intros b Hb%list_elem_of_singleton. subst b. eexists. reflexivity.
  - cbn beta. intros u v' (_ & Hb & Hd). rewrite Hb, Hd. split; reflexivity.
Defined.
