(* ===== verification/MkfsChecks.v ===== *)
(** * Satisfiability of the specification of mkfs

    An image with two files, one of them larger than the direct blocks of an
    inode. *)

From S2P Require Import Prelude State Fs Mkfs Image FsImage.

(** user/_a with three bytes and big with 13 blocks. *)
Definition two_files : list (list Z * option (list (list Z))) :=
  [(user_prefix ++ [UNDERSCORE; 97], Some [[1; 2]; [3]]);
   ([98; 105; 103], Some (replicate 13 (replicate (Z.to_nat BSIZE) 7)))].

Example two_files_fit : fits two_files = true.
Proof. vm_compute. reflexivity. Qed.

