(* ===== verification/UserChecks.v ===== *)
(** * Satisfiability of the user-library, grep and queue-progress specifications *)

From S2P Require Import Prelude State Spinlock CString Sysargs Proc ReadyQueue EdfLive Ulib Grep Printf Umalloc Uheap Scenario Checks.

(** The characters of a literal, without the terminating NUL. *)
Definition chars (s : string) : list Z := take (String.length s) (cstr s).

(** Three lines, of which the pattern b.*d selects two; read() delivers the
    input in pieces of 1, 5 and then as many bytes as fit. *)
Definition grep_input : list Z := chars "abcd" ++ NEWLINE :: chars "xy" ++ NEWLINE :: chars "bd" ++ [NEWLINE].

Lemma grep_writes_matching_lines_witness :
  grep (chars "b.*d") grep_input [1%nat; 5%nat] = Some (chars "abcd" ++ NEWLINE :: chars "bd" ++ [NEWLINE]).
Proof.
  rewrite (grep_writes_matching_lines (chars "b.*d") grep_input [1%nat; 5%nat]).
  - vm_compute. reflexivity.
  - apply (bool_decide_unpack _). vm_compute. exact I.
  - split; [repeat constructor; vm_compute; lia|vm_compute; lia].
Defined.

Lemma printint_roundtrip_witness :
  exists s, printint kdigits (-120) 10 true = Some s /\ parse_num kdigits 10 s = -120.
Proof.
  destruct (printint_roundtrip kdigits (-120) 10 true) as (s & H1 & _ & H2 & _).
  - exact kdigits_table.
  - left. reflexivity.
  - lia.
  - exists s. split; [exact H1|exact H2].
Defined.

(** Process 3 is second in the queue of [busy] and is handed out second. *)
Definition two_rounds : list qop := [QDequeue; QInsert 3; QDequeue].

Lemma edf_bounded_wait_witness :
  returns (run_ops two_rounds busy) (fun rs _ => length rs = 2%nat /\ rs !! 1%nat = Some (Some 3%nat)).
Proof.
  apply (edf_bounded_wait two_rounds busy 1 3).
  - exact busy_wf.
  - vm_compute. apply not_elem_of_nil.
  - vm_compute. reflexivity.
  - repeat constructor; vm_compute; eauto.
  - vm_compute. lia.
Defined.

(** A machine with 1 MB for the program, its heap from 4096 on, the header
    [base] at 256. *)
Definition one_mb (b n : Z) : bool := b + n <=? 2 ^ 20.
Definition fresh_heap : heap := mkHeap ∅ ∅ 0 4096.

Lemma malloc_allocates_witness :
  returns (malloc 256 one_mb 20 fresh_heap) (fun r h' => 4096 < r /\ heap_ok 256 4096 h' {[ r - HDR := 3 ]}).
Proof.
  assert (Hlim : forall b n, one_mb b n = true -> b + n <= 2 ^ 32) by (unfold one_mb; intros b n H%Z.leb_le; lia).
  eapply returns_mono; [apply (malloc_allocates 256 4096 one_mb Hlim fresh_heap ∅ 20)|].
  - left. vm_compute. split; [reflexivity|]. split; [reflexivity|]. split; [reflexivity|]. split; [reflexivity|]. split; discriminate.
  - lia.
  - intros r h' [(_ & _ & Hk)|(H1 & _ & _ & H2 & _)]; [vm_compute in Hk; discriminate Hk|]. exact (conj H1 H2).
Defined.

(** The heap after that call, with the block of three units at the top. *)
Definition one_block : heap :=
  mkHeap {[ 256 := 4096; 4096 := 256 ]} {[ 256 := 0; 4096 := 4093; 69584 := 3 ]} 256 69632.

Lemma one_block_wf : um_wf 256 4096 one_block [(256, 0); (4096, 4093)] {[ 69584 := 3 ]}.
Proof.
  constructor.
  - exists [(4096, 4093)]. split; [done|]. by repeat constructor.
  - by repeat split.
  - by left.
  - by repeat split.
  - intros a s [<- <-]%lookup_singleton_Some. done.
  - intros x. rewrite !inside_cons, inside_nil. intros Hx (a & s & Ha & Hs).
    apply lookup_singleton_Some in Ha as [<- <-]. unfold HDR in *. lia.
  - intros a s b t [<- <-]%lookup_singleton_Some [<- <-]%lookup_singleton_Some. done.
  - intros x. rewrite !inside_cons, inside_nil. unfold inside_live. setoid_rewrite lookup_singleton_Some.
    change (h_brk one_block) with 69632. unfold HDR. split.
    + intros [H|(a & s & [<- <-] & H)]; lia.
    + intros H. destruct (decide (x < 69584)); [left; lia|]. right. exists 69584, 3. split; [done|lia].
  - vm_compute. repeat split; discriminate.
Qed.

Lemma free_coalesces_witness :
  returns (free 69600 one_block) (fun _ h' => h_brk h' = 69632 /\ exists l', um_wf 256 4096 h' l' ∅).
Proof.
  eapply returns_mono; [apply (free_coalesces 256 4096 one_block {[ 69584 := 3 ]} 69600 3)|].
  - right. exists [(256, 0); (4096, 4093)]. exact one_block_wf.
  - vm_compute. reflexivity.
  - intros u h' [H1 [l' H2]]. split; [exact H1|]. exists l'.
    change (69600 - HDR) with 69584 in H2. rewrite delete_singleton_eq in H2. exact H2.
Defined.
