(* ===== verification/ShChecks.v ===== *)
(** * Satisfiability of the shell specifications *)

From S2P Require Import Ulib Grep Prelude State CString Sh ShParse ShPrint ShRun.

(** echo hi>f & *)
Definition typed : list Z := [101; 99; 104; 111; 32; 104; 105; 62; 102; 32; 38; 10; 0].

Lemma parsecmd_strings_witness :
  0 ∈ typed /\ safe (parsecmd typed) (fun c b => argv_fit c /\
    forall q e, (q, e) ∈ words c -> until_nul (drop q b) = slice typed q (e - q)).
Proof.
  assert (H : 0 ∈ typed) by (apply (bool_decide_unpack _); vm_compute; exact I).
  split; [exact H|]. eapply safe_mono; [exact (parsecmd_strings typed H)|].
  intros c b [H1 H2]. split; [exact H1|]. intros q e Hqe. apply (H2 q e Hqe).
Defined.

(** ( ( cat a ) > f ) | ( wc ) and then ( ls ) & *)
Definition small_tree : tree :=
  TList (TPipe (TRedir (TExec [[99; 97; 116]; [97]]) [102] 0x601 1) (TExec [[119; 99]])) (TBack (TExec [[108; 115]])).

Lemma small_tree_good : good small_tree.
Proof.
  assert (Hw : forall w, w <> [] -> forallb word_char w = true -> good_word w).
  { intros w Hne H. split; [exact Hne|]. apply Forall_forall. intros c Hc. rewrite forallb_forall in H. apply H, list_elem_of_In, Hc. }
  split; [split; [split; [|split]|]|]; try (split; [repeat constructor; apply Hw; done|vm_compute; lia]).
  - by apply Hw.
  - right. split; [done|]. by left.
Qed.

Lemma parsecmd_roundtrip_witness :
  good small_tree /\ returns (parsecmd (line (show small_tree))) (fun c b => view b c = small_tree).
Proof. split; [exact small_tree_good|]. apply (parsecmd_roundtrip small_tree). exact small_tree_good. Defined.

(** The shell's table: three descriptors open, thirteen free. *)
Definition sh_fds : list (option target) := [Some (Inherited 0); Some (Inherited 1); Some (Inherited 2)] ++ replicate 13 None.

(** cat a | wc > f, with its strings in the line "cat", "a", "wc", "f". *)
Definition run_line : list Z := [99; 97; 116; 0; 97; 0; 119; 99; 0; 102; 0].
Definition run_cmd : cmd := PipeCmd (ExecCmd [(0, 3); (4, 5)]%nat) (RedirCmd (ExecCmd [(6, 8)]%nat) 9 10 0x601 1).

