(* ===== verification/TrapChecks.v ===== *)
(** * Satisfiability of the specifications of boot and traps

    A hart as it comes out of reset, and a process running in user mode on a
    machine with a three-page page table that maps its trapframe. *)

From S2P Require Import Prelude State CString Usercopy Pages Vm Cow Aspace Spinlock Kalloc Sysargs Proc ReadyQueue Virtio Lifecycle Syscall Sched Hart Trap Preempt Scenario MemChecks Checks.

(** The bits of the machine the kernel is run on. *)
#[local] Instance virt_isa : Isa := {| sstatus_mask := 0x80000003000de762; medeleg_mask := 0xb3ff; mideleg_mask := 0x222 |}.
#[local] Instance virt_laws : IsaLaws virt_isa.
Proof. by constructor. Qed.

#[local] Instance some_layout : Layout :=
  {| kernelvec := 0x80005b00; trampoline := 0x80007000; uservec := 0x80007000; userret := 0x8000709c;
     usertrap_addr := 0x80002a00; init_path := 0x80008200 |}.
#[local] Instance some_layout_laws : LayoutLaws some_layout.
Proof. by constructor. Qed.

(** ** start() *)

Definition reset_csr (c : csr) : Z := match c with Mhartid => 2 | Mstatus => 0xa00000000 | Time => 5000 | _ => 0 end.
Definition reset_hart : hart := mkHart MMachine 0x80000000 (replicate 32 0) reset_csr.

Lemma start_enters_main_witness :
  returns (start 0x80000e00 reset_hart) (fun _ h => h_mode h = MSupervisor /\ h_pc h = 0x80000e00 /\ h_x h !! TP = Some 2 /\
    pmp_grants h (PHYSTOP - 1) = true /\ intr_delivered h 5 = true /\ h_csr h Stimecmp = 1005000).
Proof.
  eapply returns_mono; [apply (start_enters_main virt_laws 0x80000e00 2 reset_hart); [simpl; unfold TP; lia|reflexivity|lia]|].
  cbn beta. intros _ h (H1 & H2 & _ & H4 & H5 & H6 & _ & _ & _ & _ & H11 & _). rewrite H1, H2, H4, H5, H6, H11 by (vm_compute; intuition congruence).
  repeat split; reflexivity.
Defined.

(** ** A process in user mode *)

Definition step (o : sop) (s : kstate) : kstate := default s (do_op o s).

Lemma step_ok o s : sched_ok s -> sched_ok (step o s).
Proof. intros Hok. unfold step. destruct (do_op_ok o s Hok) as (s' & -> & H). exact H. Qed.

(** Process 0 was made, queued and chosen; [root] is its page table and
    [data] its trapframe. *)
Definition chosen : kstate := step OSchedule (step (OStart 0) (step (OAlloc 0) booted)).
Definition chosen_proc : proc := default zero_proc (k_procs chosen !! 0%nat).
Definition user_proc : proc := set_p_trapframe data (set_p_pagetable root (set_p_kstack (KSTACK 0) chosen_proc)).
Definition tf_pte : Z := mkpte data (Z.lor PTE_V (Z.lor PTE_R PTE_W)).
Definition tf_nodes : list (list Z * Z) := [([], root); ([255], table1); ([511; 255], table0)].
Definition user_mem : gmap Z Z :=
  store64 (store64 (store64 (store64 ∅ (root + 8 * 255) (mkpte table1 PTE_V)) (table1 + 8 * 511) (mkpte table0 PTE_V)) (table0 + 8 * 510) tf_pte)
    (data + TF_KERNEL_TRAP) usertrap_addr.
Definition user_kernel : kstate := set_k_mem user_mem (set_k_procs (<[0%nat := user_proc]> (k_procs chosen)) chosen).
Definition user_csr (c : csr) : Z :=
  match c with Satp => MAKE_SATP root | Stvec => TRAMPOLINE + (uservec - trampoline) | Mstatus => 0xa00000020 | _ => 0 end.
Definition user_hart : hart := mkHart MUser 0x1234 (0 :: (Z.mul 3 <$> zrange 1 32)) user_csr.
Definition user_machine : mach :=
  mkMach user_kernel (mkVdisk [] (mkAvail 0 []) (mkUsed 0 []) [] 0 [] [] []) user_hart [] true false.
Definition quiet : devices := mkDevices (fun _ => 0) true [].

Lemma chosen_ok : sched_ok chosen.
Proof. unfold chosen. apply step_ok, step_ok, step_ok, booted_ok. Qed.

Lemma chosen_0 : k_procs chosen !! 0%nat = Some chosen_proc.
Proof. vm_compute. reflexivity. Qed.

Lemma user_kernel_ok : sched_ok user_kernel.
Proof.
  pose proof chosen_ok as Hok. pose proof chosen_0 as H0. revert Hok H0. unfold user_kernel, user_proc. generalize chosen, chosen_proc, user_mem.
  intros s q mem Hok H0. set (q' := set_p_trapframe _ _). eapply (sched_ok_ext (set_k_procs (<[0%nat := q']> (k_procs s)) s)); [|done..].
  by apply (sched_ok_same _ _ q).
Qed.

(** [tf_mapped] by evaluation. *)
Definition tf_mapped_ok (pt : Z) (nodes : list (list Z * Z)) (tf : Z) (s : kstate) : bool :=
  let e := entry (list_to_map nodes) s TRAPFRAME in
  ptable_ok pt nodes s && (tf mod PGSIZE =? 0) && (k_end s <=? tf) && (tf <? PHYSTOP) && bool_decide (tf ∉ nodes.*2) &&
  has e PTE_V && has e PTE_R && has e PTE_W && negb (has e PTE_U) && (PTE2PA e =? tf).

Lemma tf_mapped_ok_spec pt nodes tf s : tf_mapped_ok pt nodes tf s = true -> tf_mapped pt (list_to_map nodes) tf s.
Proof.
  unfold tf_mapped_ok. rewrite !andb_true_iff, !Z.eqb_eq, Z.leb_le, Z.ltb_lt, bool_decide_eq_true, negb_true_iff.
  intros (((((((((H1 & H2) & H3) & H4) & H5) & H6) & H7) & H8) & H9) & H10). apply ptable_ok_spec in H1. constructor; try done.
  intros x Hx (k & t & Hk & Ht). apply (disjoint_pages t tf) in Hx; [unfold in_page in Ht; lia|by eapply ptable_align|done|].
  intros ->. apply H5. apply elem_of_list_to_map_2 in Hk. apply list_elem_of_fmap. by exists (k, tf).
Qed.

Lemma user_machine_mode : user_mode 0 user_proc (list_to_map tf_nodes) user_machine.
Proof.
  constructor; try (vm_compute; reflexivity); [|..].
  - apply tf_mapped_ok_spec. vm_compute. reflexivity.
  - constructor; [reflexivity|reflexivity|]. apply (bool_decide_unpack _). vm_compute. reflexivity.
  - simpl. lia.
Qed.

(** The machine at its first switch, and a process that finds it as it left it. *)
Definition at_switch {A} (o : outcome mach A) : option mach := match o with Swtch m _ => Some m | _ => None end.

Definition regs_okb (x : list Z) : bool :=
  (length x =? 32)%nat && (x !!! 0%nat =? 0) && forallb (fun v => (0 <=? v) && (v <? 2 ^ 64)) x.

Lemma regs_okb_spec x : regs_okb x = true -> regs_ok x.
Proof.
  unfold regs_okb. rewrite !andb_true_iff, Nat.eqb_eq, Z.eqb_eq, forallb_forall. intros ((H1 & H2) & H3). constructor; try done.
  apply Forall_forall. intros v Hv%list_elem_of_In%H3. rewrite andb_true_iff, Z.leb_le, Z.ltb_lt in Hv. done.
Qed.

Definition unchanged (m : mach) : bool :=
  bool_decide (k_cur (m_k m) = Some 0%nat) && bool_decide (k_held (m_k m) = [LProc 0]) &&
  match k_procs (m_k m) !! 0%nat with Some q => (p_trapframe q =? data) && (p_pagetable q =? root) | None => false end &&
  tf_mapped_ok root tf_nodes data (m_k m) && regs_okb (h_x (m_h m)).

Lemma user_switch_unchanged : match at_switch (user_trap SCAUSE_TIMER 0 quiet user_machine) with Some m => unchanged m | None => false end = true.
Proof. vm_compute. reflexivity. Qed.

Lemma preemption_transparent_witness :
  exists m1 k, user_trap SCAUSE_TIMER 0 quiet user_machine = Swtch m1 k /\
    returns (k m1) (fun _ m3 => h_mode (m_h m3) = MUser /\ h_pc (m_h m3) = 0x1234 /\ h_x (m_h m3) = h_x user_hart).
Proof.
  destruct (preemption_transparent virt_laws some_layout_laws 0 user_proc (list_to_map tf_nodes) user_machine 0 quiet
    user_machine_mode user_kernel_ok eq_refl) as (m1 & k & q & E & _ & Hq & _ & _ & Hres).
  pose proof user_switch_unchanged as Hu. rewrite E in Hu |- *. exists m1, k. split; [reflexivity|]. unfold at_switch, unchanged in Hu. rewrite Hq in Hu.
  rewrite !andb_true_iff, !bool_decide_eq_true, !Z.eqb_eq in Hu. destruct Hu as ((((H1 & H2) & H3 & H4) & H5) & H6).
  eapply returns_mono; [apply (Hres q (list_to_map tf_nodes) m1)|].
  - constructor; try assumption; [exact (tf_mapped_ok_spec _ _ _ _ H5)|intros; reflexivity|exact (regs_okb_spec _ H6)].
  - cbn beta. intros _ m3 (Hum & Hpc & Hx & _). split; [apply Hum|]. split; [exact Hpc|exact Hx].
Defined.

(** The same machine in the kernel, with interrupts enabled. *)
Definition kernel_machine : mach :=
  set_m_h (set_csr Mstatus 0xa00000002 (set_h_mode MSupervisor (set_h_pc 0x80001000 user_hart))) user_machine.

Lemma kernel_switch_locked : match at_switch (kernel_trap SCAUSE_TIMER 0 quiet kernel_machine) with Some m => bool_decide (k_held (m_k m) = [LProc 0]) | None => false end = true.
Proof. vm_compute. reflexivity. Qed.

