(* ===== verification/ReclaimChecks.v ===== *)
(** * Satisfiability of the specifications of exit and wait

    The theorem of Reclaim.v applied to a process with two pages, one of them
    shared with another process after a fork, the theorem of Exit.v to its
    exit while its parent waits; the theorem of Wait.v applied to a parent with
    a child that has exited. *)

From S2P Require Import Prelude State Spinlock CString Usercopy Kalloc Pages Vm Cow Aspace Uvm Isolation Sysargs Proc ReadyQueue Sleeplock Sleeping Bio Log Lifecycle Reclaim Sched Wait Exit Scenario MemChecks.

(** The page only this process maps, its trapframe, and the trampoline. *)
Definition own_page : Z := 0x87ff6000.
Definition frame_page : Z := 0x87ff9000.
Definition tramp_page : Z := 0x80007000.

Definition dying_nodes : list (list Z * Z) := [([], root); ([0], table1); ([0; 0], table0); ([255], child1); ([511; 255], child0)].
Definition dying_tree : tree := list_to_map dying_nodes.
Definition user_flags : Z := Z.lor (Z.lor (Z.lor PTE_V PTE_R) PTE_W) PTE_U.

Definition dying_mem : gmap Z Z :=
  store64 (store64 (store64 (store64 (store64 (store64 small_mem (root + 8 * 255) (mkpte child1 PTE_V)) (child1 + 8 * 511) (mkpte child0 PTE_V))
    (child0 + 8 * 511) (mkpte tramp_page (Z.lor (Z.lor PTE_V PTE_R) PTE_X))) (child0 + 8 * 510) (mkpte frame_page (Z.lor (Z.lor PTE_V PTE_R) PTE_W)))
    table0 shared_pte) (table0 + 8) (mkpte own_page user_flags).

Definition dying : kstate :=
  set_k_refcount (<[phys2ind data := 2]> (<[phys2ind frame_page := 1]> (<[phys2ind own_page := 1]> (list_to_map ((fun pg => (phys2ind pg, 1)) <$> dying_nodes.*2)))))
    (set_k_mem dying_mem small_memory).

(** Links and leaves by evaluation. *)
Definition link_ok (s : kstate) (kt : list Z * Z) : bool :=
  if (length kt.1 <=? 1)%nat then forallb (fun j => negb (has (load64 (k_mem s) (kt.2 + 8 * j)) PTE_RWX)) (zrange 0 512) else true.

Definition leaf_ok (sz : Z) (s : kstate) (kt : list Z * Z) : bool :=
  match kt.1 with
  | [i1; i2] => forallb (fun j => negb (has (load64 (k_mem s) (kt.2 + 8 * j)) PTE_V) || (page_at i2 i1 j <? sz) ||
      (page_at i2 i1 j =? TRAMPOLINE) || (page_at i2 i1 j =? TRAPFRAME)) (zrange 0 512)
  | _ => true
  end.

Lemma page_at_spec va : upage MAXVA va -> va = page_at (PX 2 va) (PX 1 va) (PX 0 va).
Proof.
  intros [Hva Hal]. unfold page_at, MAXVA, PGSIZE in *. rewrite !PX_eq by lia. change (2 ^ (12 + 9 * 2)) with (2 ^ 30).
  change (2 ^ (12 + 9 * 1)) with (2 ^ 21). change (2 ^ (12 + 9 * 0)) with (2 ^ 12). change (2 ^ 30) with 1073741824. change (2 ^ 21) with 2097152.
  change (2 ^ 12) with 4096. Z.div_mod_to_equations. lia.
Qed.

Lemma leaves_spec nodes sz s va : forallb (leaf_ok sz s) nodes = true -> upage MAXVA va -> sz <= va ->
  has (entry (list_to_map nodes) s va) PTE_V = true -> va = TRAMPOLINE \/ va = TRAPFRAME.
Proof.
  rewrite forallb_forall. intros Hok Hva Hle HV. destruct (entry_at (list_to_map nodes) va) as [p|] eqn:Hat; [|by rewrite (entry_invalid_missing _ _ _ Hat) in HV].
  destruct (entry_at_word _ _ _ Hat) as (t & Ht%elem_of_list_to_map_2%list_elem_of_In & Hp). specialize (Hok _ Ht). unfold leaf_ok in Hok. cbn [fst snd] in Hok.
  rewrite forallb_forall in Hok. pose proof (PX_bounds 0 va ltac:(lia)) as Hb. specialize (Hok (PX 0 va) ltac:(apply list_elem_of_In, elem_of_zrange; lia)).
  unfold entry in HV. rewrite Hat, Hp in HV. rewrite HV, <- page_at_spec in Hok by done.
  rewrite !orb_true_iff, Z.ltb_lt, !Z.eqb_eq in Hok. destruct Hok as [[[H|H]|H]|H]; [done|lia|by left|by right].
Qed.

Lemma links_spec nodes s k t j t' : ptable_ok root nodes s = true -> forallb (link_ok s) nodes = true ->
  (list_to_map nodes : tree) !! k = Some t -> (list_to_map nodes : tree) !! (j :: k) = Some t' -> has (load64 (k_mem s) (t + 8 * j)) PTE_RWX = false.
Proof.
  rewrite forallb_forall. intros Hp Hok Ht Ht'. apply (pt_up _ _ _ (ptable_ok_spec _ _ _ Hp)) in Ht' as (Hj & Hk & _).
  apply elem_of_list_to_map_2, list_elem_of_In in Ht. specialize (Hok _ Ht). unfold link_ok in Hok. cbn [fst snd] in Hok.
  rewrite (proj2 (Nat.leb_le _ _) Hk), forallb_forall in Hok. by apply negb_true_iff, Hok, list_elem_of_In, elem_of_zrange.
Qed.

Lemma two_pages va : upage (2 * PGSIZE) va -> va = 0 \/ va = PGSIZE.
Proof. intros [H1 H2]. unfold PGSIZE in *. Z.div_mod_to_equations. lia. Qed.

Lemma user_page_by_nodes fl nodes sz s pg : is_page s pg -> apart [pg] fl = true -> apart [pg] nodes.*2 = true ->
  mappings (list_to_map nodes) s pg sz <= refcount s pg -> user_page fl (list_to_map nodes) sz s pg.
Proof.
  intros H1 H2 H3 H4. constructor; [done|by apply (apart_spec [pg]); [|left]| |done].
  intros k H%elem_of_list_to_map_2. apply (apart_spec _ _ pg H3); [by left|]. apply list_elem_of_fmap. by exists (k, pg).
Qed.

Lemma dying_user pg : pg ∈ [data; own_page] -> user_page [free1; free2] dying_tree (2 * PGSIZE) dying pg.
Proof.
  intros Hpg. rewrite !elem_of_cons in Hpg. destruct Hpg as [->|[->|H]]; [..|by apply not_elem_of_nil in H];
    (apply user_page_by_nodes; [|vm_compute; reflexivity|vm_compute; reflexivity|vm_compute; discriminate]);
    (split; [reflexivity|split; vm_compute; [discriminate|reflexivity]]).
Qed.

Lemma dying_reach j k : is_Some (dying_tree !! (k ++ [j])) -> j < 256.
Proof.
  intros [t H%elem_of_list_to_map_2]. assert (Hall : Forall (fun kt : list Z * Z => default 0 (last kt.1) < 256) dying_nodes) by (repeat constructor).
  rewrite Forall_forall in Hall. apply Hall in H. cbn [fst] in H. by rewrite last_snoc in H.
Qed.

Lemma dying_table_ref k t : dying_tree !! k = Some t -> refcount dying t = 1.
Proof.
  intros H%elem_of_list_to_map_2%list_elem_of_In. assert (Hall : forallb (fun kt => refcount dying kt.2 =? 1) dying_nodes = true) by (vm_compute; reflexivity).
  rewrite forallb_forall in Hall. specialize (Hall _ H). by apply Z.eqb_eq in Hall.
Qed.

Lemma dying_space : address_space [free1; free2] root dying_tree (2 * PGSIZE) dying.
Proof.
  assert (Hp : ptable_ok root dying_nodes dying = true) by (vm_compute; reflexivity). constructor.
  - by apply ptable_ok_spec.
  - apply two_free_list; vm_compute; reflexivity.
  - apply nodes_not_free. vm_compute. reflexivity.
  - split; apply not_elem_of_nil.
  - vm_compute. split; discriminate.
  - exact dying_reach.
  - intros k t j t'. apply links_spec; [done|vm_compute; reflexivity].
  - exact dying_table_ref.
  - intros va [-> | ->]%two_pages _; [replace (PTE2PA _) with data by (vm_compute; reflexivity)|replace (PTE2PA _) with own_page by (vm_compute; reflexivity)];
      apply dying_user; rewrite !elem_of_cons; tauto.
  - intros va. apply leaves_spec. vm_compute. reflexivity.
Qed.


(** ** The process exits while its parent waits *)

(** Process 1 exits, its parent 2 waits, 3 is init. *)
Definition exiting_proc : proc :=
  set_p_trapframe frame_page (set_p_pagetable root (set_p_sz (2 * PGSIZE) (set_p_pid 7 (set_p_parent (Some 2%nat) (set_p_state RUNNING zero_proc))))).
Definition waiting_proc : proc := set_p_chan (Some (ChProc 2)) (set_p_state SLEEPING zero_proc).

Definition last_moments : kstate :=
  set_k_initproc (Some 3%nat) (set_k_cur (Some 1%nat)
    (set_k_procs (<[1%nat := exiting_proc]> (<[2%nat := waiting_proc]> (replicate NPROC zero_proc))) dying)).

Lemma table_running s p pp qq c : k_procs s = <[p := pp]> (<[c := qq]> (replicate NPROC zero_proc)) -> (p < NPROC)%nat ->
  p_state pp = RUNNING -> p_in_rq pp = false -> p_in_rq qq = false -> k_cur s = Some p -> length (rq_procs (k_rq s)) = NPROC -> rq_count (k_rq s) = 0 ->
  k_held s = [] -> running p pp [] s.
Proof.
  intros Hps Hlt Hst H1 H2 Hc Hq Hn Hh. assert (Hlen : length (k_procs s) = NPROC) by (by rewrite Hps, !length_insert, length_replicate).
  constructor; try done; [by rewrite Hps, list_lookup_insert_eq by (by rewrite length_insert, length_replicate)|].
  apply rq_wf_empty; try done. apply Forall_lookup. intros i q Hi. rewrite Hps in Hi.
  apply list_lookup_insert_Some in Hi as [(_ & <- & _)|[_ Hi]]; [done|]. apply list_lookup_insert_Some in Hi as [(_ & <- & _)|[_ Hi]]; [done|].
  by apply lookup_replicate in Hi as [-> _].
Qed.

Lemma last_moments_space : address_space [free1; free2] root dying_tree (2 * PGSIZE) last_moments.
Proof.
  destruct dying_space as [A1 A2 A3 A4 A5 A6 A7 A8 A9 A10]. constructor; try done; [by destruct A1|by destruct A2|].
  intros va Hva HV. destruct (A9 va Hva HV). by constructor.
Qed.

Lemma frame_apart : apart [frame_page] ([free1; free2] ++ dying_nodes.*2) = true.
Proof. vm_compute. reflexivity. Qed.

Lemma last_moments_exiting : exiting [free1; free2] dying_tree 1 exiting_proc 2 3 last_moments.
Proof.
  pose proof (apart_spec _ _ frame_page frame_apart ltac:(by left)) as Hap. rewrite elem_of_app in Hap. constructor; [|done|done|done| | |].
  - apply (table_running _ _ _ waiting_proc 2); done || (unfold NPROC; lia).
  - exact last_moments_space.
  - split; [split; [reflexivity|split; vm_compute; [discriminate|reflexivity]]|]. intros H. apply Hap. by left.
  - split; [|split; vm_compute; reflexivity]. intros k H%elem_of_list_to_map_2. apply Hap. right. apply list_elem_of_fmap. by exists (k, frame_page).
Qed.


(** ** A parent that waits *)

Definition parent_proc : proc := set_p_state RUNNING zero_proc.
Definition dead_child : proc :=
  set_p_trapframe data (set_p_pid 7 (set_p_xstate 3 (set_p_parent (Some 1%nat) (set_p_state ZOMBIE zero_proc)))).

Definition family : kstate :=
  set_k_refcount (<[phys2ind data := 1]> ∅)
    (set_k_cur (Some 1%nat) (set_k_procs (<[1%nat := parent_proc]> (<[2%nat := dead_child]> (replicate NPROC zero_proc))) small_memory)).

Lemma family_running : running 1 parent_proc [] family.
Proof. apply (table_running _ _ _ dead_child 2); done || (unfold NPROC; lia). Qed.

